(* ===== verification/_CoqProject ===== *)
-Q . S2P
Prelude.v
Decimal.v
DecimalFacts.v
Text.v
Dataset.v
MoneyFacts.v
Costs.v
CostsFacts.v
Errors.v
Corpus.v
FeedFacts.v
Backtest.v
MetricsFacts.v
EngineFacts.v
CorpusFacts.v
RunFacts.v
Causality.v
Phase14.v
Sample.v
BacktestTheorems.v
Phase14Facts.v
Phase14Theorems.v
Strategies.v
StrategiesFacts.v
Execution.v
ExecutionFacts.v
ResearchTheorems.v
Json.v
JsonFacts.v
JsonRead.v
CanonicalPolicy.v
CanonicalPolicyFacts.v
Research.v
ResearchFacts.v
EvaluationTheorems.v
Exec.v
Qualification.v
Chain.v
PyText.v
Paper.v
PaperFacts.v
PaperRunFacts.v
PaperSample.v
PaperTheorems.v
Portfolio.v
PortfolioRun.v
PortfolioFacts.v
PortfolioInvariant.v
PortfolioSteps.v
Scheduler.v
SchedulerFacts.v
PortfolioSample.v
PortfolioTheorems.v
SchedulerTheorems.v
Lease.v
Multi.v
MultiFacts.v
MultiRunFacts.v
MultiSession.v
MultiRecovery.v
MultiSample.v
MultiTheorems.v
Analytics.v
AnalyticsFacts.v
ValidationFacts.v
AnalyticsTheorems.v
Attribution.v
Quality.v
QualityFacts.v
QualitySample.v
QualityTheorems.v
Monitoring.v
MonitoringFacts.v
MonitoringTheorems.v
Authority.v
AuthorityFacts.v
AuthorityTheorems.v
AlertTheorems.v
Replay.v
ReplayTheorems.v
