(* ===== verification/Prelude.v ===== *)
(** * Verification of the offline strategy engine

    The subject is the Python package [src/apps/strategy-engine/src/strategy_engine]: a
    deterministic, offline chain from historical candles to a supervised paper portfolio,
    the reports about it, and the ledgers that guard its recovery.  Paths below are
    relative to that package.

    ** The parts and how they interact

    - [Prelude] (this file): results and exceptions, monadic loops with their invariant
      rules, weakest preconditions, stable sorting, the tactics [ok_inv], [unbind] and
      [bool_inv] and the rewrite database [kite].  [Errors]: sets of errors as an
      interface.  [Exec]: stateful computations that can fail and keep the mutations made
      before the exception, ordered dictionaries, and the rules [wpx] and [always].
    - [Decimal], [Text], [PyText], [Json], [JsonRead]: what the source uses of Python - the
      [decimal] module with its contexts and traps, SHA-256, instants, [str] and
      [fromisoformat], canonical JSON and its reader; [DecimalFacts], [MoneyFacts] and
      [JsonFacts] are their theories.
    - [Dataset] (backtest/dataset.py) and [Corpus] (backtest/corpus.py) validate minute
      bars and calendars; [Costs] (backtest/costs.py) is the tariff; [Backtest]
      (backtest/engine.py) runs a strategy, a state machine that may fail, over a dataset
      or a corpus through the interface [FeedFacts.SessionFeed].  [EngineFacts],
      [MetricsFacts], [RunFacts], [Causality], [CostsFacts] and [CorpusFacts] prove what
      [BacktestTheorems] states.
    - [Phase14] (phase14/engine.py): five-minute series, indicators, the stop/target/
      end-of-day simulation and the qualification of a strategy.
    - [Strategies] and [Execution] (phase1415/strategies.py, execution.py): the frozen
      definitions, their entry signal, and the causal executor, which reuses the tariff
      and the trades of the five-minute engine.
    - [Research] (phase1415/research.py, phase14/reporting.py) and [Qualification]
      (phase14/universe.py, phase1415/hardening.py, phase1417/qualification.py): windows,
      data gates and evaluation of one hypothesis; the family of all hypotheses and the
      gate of a qualification row.  [CanonicalPolicy] (phase1418/canonical_policy.py):
      the text of a policy that is fingerprinted.
    - [Chain]: the interface [Journal] of a hash-chained journal, with instances for the
      journals of the next three parts; transition tables and their paths.
    - [Paper] (phase1417/paper.py, phase1415/paper.py): sizing, audit, admission and the
      serialized paper run of one qualified pair, whose candidate stream is the execution
      of [Execution].
    - [Portfolio] and [PortfolioRun] (phase1418/portfolio.py): the single writer of cash,
      orders, positions and reservations, and the run that turns the paper runs of many
      requests into one ordered list of actions for it.
    - [Scheduler] (phase1419/scheduler.py): one session over the coordinator - readiness,
      commands, candles, signals, the end of the day, its audit, and the run over the
      directory of a session ([SessionFolder]: plan, rows, reports): fresh, resumed from an
      earlier journal, or verifying one.
    - [Multi] (phase1420/multi.py): the sessions of a run, each started from the state that
      the one before left, over a coordinator guarded by cumulative limits; the files it
      writes, as a record of finite maps; its recovery from them.  [MultiFacts],
      [MultiRunFacts], [MultiSession] and [MultiRecovery] prove what [MultiTheorems] states.
    - [Analytics] and [Attribution] (phase1421/analytics.py): the package of files of a run
      is validated by executing every session again, and its outcomes are walked into the
      tables of a report.  [Quality] (phase1423/quality.py): the fills of a validated run
      measured against references.  [Monitoring] (phase1424/analytics.py): incidents matched
      with alerts and resolutions, and the exposure between observations.
    - [Authority] (phase1426/authority.py, alerts.py): the chain of witnesses and approvals
      that a recovery consumes before it acts, the ledger of alerts and the assurance of
      critical incidents over the matcher of [Monitoring]; it also holds the reading and
      publication of files of phase1416/imports.py.
    - [Lease] (phase1444ej/enforcement.py): leases reserved against the version of a ledger
      that each reservation hands to the next (the source promises nothing to concurrent
      clients, and no theorem does).  [Replay]
      (phase1444c/replay.py, crypto.py): the durable ledger of synthetic decisions, its
      tables derived again from a chain of events before every operation.

    A method of a class is a definition with the method's name (or the class' part in it:
    [super_emit] is [Coordinator.emit], [emit] its override in [Portfolio], [session_halt]
    is [Engine.halt]); a method that mutates is a computation in [exec], or returns the
    new record where every caller uses only the result.  A class of constants or fields
    is a record; a set or dictionary whose order is not observed is a [gset] or [gmap], the
    others are lists of items.  [ValueError] carries its message; other exceptions are
    constructors of [exn].

    ** What the theorems show

    - Backtest ([BacktestTheorems], C1-C3, C5, C6, C9): the books balance and cash is never
      negative; every fill belongs to a trade inside the entry window; every intent is
      resolved once; the bounds of the metrics; no look-ahead; the tariff refines its
      rational specification.  The file also proves what the strategy sees, the errors, the
      monotony of the tariff, the money round trip and the minute grid of a dataset.
    - Five-minute engine ([Phase14Theorems], C18, C20): the rules of every trade - the
      signal before it, its exit and levels, its costs - and qualification by explicit
      thresholds on the period and on every fold.
    - Research ([ResearchTheorems], C23; [EvaluationTheorems], C26, C27): the positions of
      the executor; policies and JSON texts are unambiguous.
    - Paper run ([PaperTheorems], C30-C34): the size is the largest under the caps that the
      cash and the risk allow; lifecycle, replay and tamper evidence of the audit; the
      books of a run, and the policy that each of its fills respects.
    - Portfolio ([PortfolioTheorems], C35-C37): [PortfolioInvariant.stepped] is the step
      relation of the coordinator and [PortfolioSteps] the refinement of every method by
      it; ownership, reservations, limits, reconciled accounts; lifecycles, chain, no
      entry after a halt; the end of a session.
    - Session ([SchedulerTheorems], C38-C40): the audit is a complete record, completion
      is earned, verification accepts what a fresh or resumed run leaves, and only the rows
      and reports that the commands give with the recoveries that the rows record.  The
      invariants hold for every outcome of a command, exceptions included ([Exec.always])
      ([SchedulerFacts.executes] is the specification of the loop over the commands).
    - Runs of sessions ([MultiTheorems], C16, C22, C28): the chain of records, what a
      session carries to the next, and a recovery that gives what an uninterrupted run
      gives.
    - Reports ([AnalyticsTheorems], C15, C19; [QualityTheorems], C10, C11, C14, C25;
      [MonitoringTheorems], C12, C13): what a run over the first sessions of its calendar
      publishes validates, and nothing is validated without being executed again; fills tied
      to their events and orders, measurements signed and exact (the basis points to 39
      digits), a partition of the records, sums over the right fills; the matching of
      incidents and the exposure.
    - Recovery and ledgers ([AuthorityTheorems], C21, C29; [AlertTheorems], C4; [Lease], C8,
      C17; [ReplayTheorems], C7, C24): an approval is used once whatever crashes, the
      outcomes of a recovery, the soundness of an assurance; leases are spent once and end;
      a replay ledger always validates, its head determines it, and no history consumes a
      decision twice or after its revocation.

    The samples ([Sample], [PaperSample], [PortfolioSample], [MultiSample],
    [QualitySample]) are evaluated by the kernel; the sample session reaches COMPLETED,
    and [PortfolioSample.risk_hash_fixture] and [execution_hash_policy] recompute the two
    digests that the source pins as constants.

    ** Bounds and fuel

    Loops over data are structural recursions over the list of bars, actions or commands.
    [size_loop] counts down from the cap, which is the source's loop.  The decimal
    routines recurse on a number of digits taken from [Z.log2] of the coefficient, which
    bounds it; [pop_zeros] has one step per binary digit, more than there are decimal
    ones.  The JSON reader recurses at most as deep as its text is long, which
    [JsonRead.loads_render] shows to be enough for every value.

    ** What is not modelled, and why

    - Files: reading archives and CSV files, paths, links and directory locks; a process
      killed in the middle of a write, which leaves a pending file that later runs refuse.
      The files that a part reads and writes itself are finite maps ([Multi], [Authority],
      [Scheduler]) or tables ([Replay]); the others (the universe, software inventory) are
      arguments.
    - A key written twice in a JSON text: [JsonRead] keeps both and [find] takes the first,
      where [json.loads] without a hook keeps the last; the readers with the hook [unique]
      refuse such a text.
    - [pydantic]'s serializers and readers of the large models: the classes [Dump],
      [DumpJson], [DumpPython] and the readers of [Quality] and [Authority] stand for
      [model_dump_json], [model_dump] and [model_validate] with the laws the proofs use;
      the instances of the samples are concrete.  [Replay] models both for its decision.
      A [ValidationError] is the [ValueError] of the validator that raised it.
    - Floating point: the Wilson bound of a qualification is the parameter [uncertain], and
      the risk ratios of a report are a parameter of [Attribution].
    - Sizes of texts that only limit a report, digests of results that nothing reads.
    - The jobs that fan the evaluation out over processes, the reliability drills (faults
      injected into files), the release assessment (installed packages and signatures), the
      research pipeline over provider files, and the Windows supervisors of processes: they
      act on the environment and decide little.  The review packets of the governance
      models authorize nothing; the earlier [research] package is not on the path of the
      paper portfolio; the Java programs of the repository are another system. *)
From Stdlib Require Export ZArith QArith Qpower Qminmax Qabs Lia Lqa.
From stdpp Require Export base numbers list option strings gmap sorting.

#[global] Open Scope list_scope.
#[global] Open Scope Z_scope.

(** ** Exceptions and results

    The modelled code signals every failure by an exception.  [ValueError] carries
    the message of the source; the signals of the decimal module are exceptions of
    their own because [run] turns them into [ARITHMETIC_FAILURE]. *)

Inductive decimal_signal := Inexact | Overflow | DivisionByZero | InvalidOperation.

Inductive exn :=
| ValueError (msg : string)
| DecimalException (sig : decimal_signal)
| KeyError
| IndexError
| AssertionError
| StopIteration
| TypeError
| InterruptedError (msg : string)
| FileExistsError
| IntegrityError
| StrategyException.

#[export] Instance decimal_signal_eq_dec : EqDecision decimal_signal.
Proof. solve_decision. Defined.
#[export] Instance exn_eq_dec : EqDecision exn.
Proof. solve_decision. Defined.

Inductive res (A : Type) :=
| Ok (a : A)
| Err (e : exn).
Arguments Ok {A} a.
Arguments Err {A} e.

#[export] Instance res_eq_dec {A} `{EqDecision A} : EqDecision (res A).
Proof. solve_decision. Defined.

#[export] Instance res_ret : MRet res := @Ok.
#[export] Instance res_bind : MBind res := fun A B f m =>
  match m with Ok a => f a | Err e => Err e end.
#[export] Instance res_fmap : FMap res := fun A B f m =>
  match m with Ok a => Ok (f a) | Err e => Err e end.

Definition is_ok {A} (m : res A) : bool :=
  match m with Ok _ => true | Err _ => false end.

(** [raise_unless b msg] is the code's [if not b: raise ValueError(msg)]. *)
Definition raise_unless (b : bool) (msg : string) : res unit :=
  if b then Ok tt else Err (ValueError msg).
Definition raise_if (b : bool) (msg : string) : res unit :=
  if b then Err (ValueError msg) else Ok tt.
Definition of_option {A} (e : exn) (o : option A) : res A :=
  match o with Some a => Ok a | None => Err e end.

Notation "'require!' b 'else' msg ; k" := (raise_unless b msg ≫= fun _ => k)
  (at level 100, b at level 99, msg at level 99, k at level 200, right associativity,
   format "'require!'  b  'else'  msg ;  '//' k").
Notation "'reject!' b 'as' msg ; k" := (raise_if b msg ≫= fun _ => k)
  (at level 100, b at level 99, msg at level 99, k at level 200, right associativity,
   format "'reject!'  b  'as'  msg ;  '//' k").

Fixpoint mapR {A B} (f : A -> res B) (l : list A) : res (list B) :=
  match l with
  | [] => Ok []
  | x :: l => y ← f x; ys ← mapR f l; Ok (y :: ys)
  end.
Fixpoint foldR {S A} (f : S -> A -> res S) (s : S) (l : list A) : res S :=
  match l with
  | [] => Ok s
  | x :: l => s' ← f s x; foldR f s' l
  end.

(** ** Inversion of monadic runs *)

Section res_lemmas.
Context {A B : Type}.

Lemma bind_Ok (m : res A) (f : A -> res B) b :
  m ≫= f = Ok b <-> exists a, m = Ok a /\ f a = Ok b.
Proof. destruct m; cbn; naive_solver. Qed.
Lemma bind_Err (m : res A) (f : A -> res B) e :
  m ≫= f = Err e <-> m = Err e \/ exists a, m = Ok a /\ f a = Err e.
Proof. destruct m; cbn; naive_solver. Qed.
Lemma raise_unless_Ok b msg u : raise_unless b msg = Ok u <-> b = true.
Proof. destruct b, u; cbn; naive_solver. Qed.
Lemma raise_if_Ok b msg u : raise_if b msg = Ok u <-> b = false.
Proof. destruct b, u; cbn; naive_solver. Qed.
Lemma raise_unless_Err b msg e :
  raise_unless b msg = Err e <-> b = false /\ e = ValueError msg.
Proof. destruct b; cbn; naive_solver. Qed.
Lemma raise_if_Err b msg e :
  raise_if b msg = Err e <-> b = true /\ e = ValueError msg.
Proof. destruct b; cbn; naive_solver. Qed.
Lemma of_option_Ok e (o : option A) a : of_option e o = Ok a <-> o = Some a.
Proof. destruct o; cbn; naive_solver. Qed.
Lemma of_option_Err e e' (o : option A) :
  of_option e o = Err e' <-> o = None /\ e' = e.
Proof. destruct o; cbn; naive_solver. Qed.
Lemma Ok_inj (a b : A) : Ok a = Ok b -> a = b.
Proof. by injection 1. Qed.
Lemma is_ok_true (m : res A) : is_ok m = true <-> exists a, m = Ok a.
Proof. destruct m; cbn; naive_solver. Qed.
End res_lemmas.

(** [unbind E x Ex]: the first step of the run [E], with result [x]. *)
Ltac unbind E x Ex := apply bind_Ok in E as (x & Ex & E).

(** [ok_inv] takes apart every [_ ≫= _ = Ok _] (and guard) among the hypotheses. *)
Ltac ok_step :=
  match goal with
  | H : Ok _ = Ok _ |- _ => injection H as H; subst
  | H : Err _ = Ok _ |- _ => discriminate H
  | H : Ok _ = Err _ |- _ => discriminate H
  | H : raise_unless _ _ = Ok _ |- _ => apply raise_unless_Ok in H
  | H : raise_if _ _ = Ok _ |- _ => apply raise_if_Ok in H
  | H : of_option _ _ = Ok _ |- _ => apply of_option_Ok in H
  | H : mbind _ _ = Ok _ |- _ =>
      let x := fresh "r" in let E := fresh "E" in
      apply bind_Ok in H as (x & E & H)
  | H : mret _ = Ok _ |- _ => unfold mret, res_ret in H
  end.
Ltac ok_inv := repeat (ok_step; cbn beta iota in *).

Section foldR_lemmas.
Context {S A : Type}.
Implicit Types (f : S -> A -> res S) (l : list A).

Lemma foldR_app f s l1 l2 : foldR f s (l1 ++ l2) = (s' ← foldR f s l1; foldR f s' l2).
Proof.
  revert s. induction l1 as [|x l1 IH]; intros s; cbn; [done|].
  destruct (f s x); cbn; auto.
Qed.

(** The invariant rule for a loop over a list. *)
Lemma foldR_inv (P : S -> Prop) f s l s' :
  (forall s x s', x ∈ l -> P s -> f s x = Ok s' -> P s') ->
  P s -> foldR f s l = Ok s' -> P s'.
Proof.
  revert s. induction l as [|x l IH]; intros s Hf Hs E; cbn in E; ok_inv; [done|].
  eapply IH; [| |done].
  - intros s0 y s1 Hy. apply Hf. set_solver.
  - eapply Hf; [|done..]. set_solver.
Qed.

(** The invariant rule over prefixes: the invariant may mention the part of the
    list that has been processed. *)
Lemma foldR_prefix_inv (P : list A -> S -> Prop) f s l s' :
  (forall pre x post s s', l = pre ++ x :: post -> P pre s -> f s x = Ok s' ->
    P (pre ++ [x]) s') ->
  P [] s -> foldR f s l = Ok s' -> P l s'.
Proof.
  intros Hstep. cut (forall pre post s, l = pre ++ post -> P pre s ->
    foldR f s post = Ok s' -> P l s'); [intros H; apply (H []); done|].
  intros pre post; revert pre. induction post as [|x post IH]; intros pre s0 -> Hp E.
  - cbn in E. ok_inv. by rewrite app_nil_r.
  - cbn in E. ok_inv. apply (IH (pre ++ [x]) r); [by rewrite <- app_assoc| |done].
    by eapply Hstep.
Qed.

(** A loop fails only if one of its steps does, in a state that satisfies the
    invariant. *)
Lemma foldR_prefix_err (P : list A -> S -> Prop) f s l e :
  (forall pre x post s s', l = pre ++ x :: post -> P pre s -> f s x = Ok s' ->
    P (pre ++ [x]) s') ->
  P [] s -> foldR f s l = Err e ->
  exists pre x post s, l = pre ++ x :: post /\ P pre s /\ f s x = Err e.
Proof.
  intros Hstep. cut (forall pre post s, l = pre ++ post -> P pre s ->
    foldR f s post = Err e -> exists pre x post s, l = pre ++ x :: post /\ P pre s
    /\ f s x = Err e); [intros H; apply (H []); done|].
  intros pre post; revert pre. induction post as [|x post IH]; intros pre s0 -> Hp E;
    cbn in E; [done|].
  apply bind_Err in E as [E|(s1 & E1 & E)]; [by eauto 8|].
  apply (IH (pre ++ [x]) s1); [by rewrite <- app_assoc| |done]. by eapply Hstep.
Qed.
End foldR_lemmas.

Lemma mapR_length {A B} (f : A -> res B) l l' : mapR f l = Ok l' -> length l' = length l.
Proof. revert l'. induction l; intros l' E; cbn in *; ok_inv; cbn; auto. Qed.

Lemma mapR_Forall2 {A B} (f : A -> res B) l l' :
  mapR f l = Ok l' -> Forall2 (fun x y => f x = Ok y) l l'.
Proof. revert l'. induction l; intros l' E; cbn in *; ok_inv; constructor; auto. Qed.

(** A validator that returns its argument unchanged, mapped over a list. *)
Lemma mapR_check {A} (P : A -> Prop) (f : A -> res A) l l' :
  (forall x y, f x = Ok y -> P y /\ y = x) -> mapR f l = Ok l' -> Forall P l' /\ l' = l.
Proof.
  intros Hf. revert l'. induction l as [|x l IH]; intros l' E; cbn in E; ok_inv; [done|].
  apply Hf in E0 as [Hx ->]. destruct (IH _ E1) as [Hl ->]. split; [by constructor|done].
Qed.

(** ** Weakest preconditions

    [wp E m Q]: the computation [m] returns a value satisfying [Q], or fails with an
    exception allowed by [E].  One proof of a component gives both its functional
    behaviour and the set of its errors. *)

Definition wp {A} (E : exn -> Prop) (m : res A) (Q : A -> Prop) : Prop :=
  match m with Ok a => Q a | Err e => E e end.

Section wp.
Context {A B : Type} (E : exn -> Prop).

Lemma wp_Ok (a : A) (Q : A -> Prop) : Q a -> wp E (Ok a) Q.
Proof. done. Qed.
Lemma wp_bind (m : res A) (f : A -> res B) (R : A -> Prop) (Q : B -> Prop) :
  wp E m R -> (forall a, m = Ok a -> R a -> wp E (f a) Q) -> wp E (m ≫= f) Q.
Proof. destruct m; cbn; auto. Qed.
Lemma wp_mono (m : res A) (R Q : A -> Prop) : wp E m R -> (forall a, m = Ok a -> R a -> Q a) -> wp E m Q.
Proof. destruct m; cbn; auto. Qed.
Lemma wp_elim (m : res A) (Q : A -> Prop) a : wp E m Q -> m = Ok a -> Q a.
Proof. by intros H ->. Qed.
Lemma wp_error (m : res A) (Q : A -> Prop) e : wp E m Q -> m = Err e -> E e.
Proof. by intros H ->. Qed.
Lemma wp_require (b : bool) msg (f : unit -> res B) Q :
  (b = false -> E (ValueError msg)) -> (b = true -> wp E (f tt) Q) ->
  wp E (raise_unless b msg ≫= f) Q.
Proof. destruct b; cbn; auto. Qed.
Lemma wp_reject (b : bool) msg (f : unit -> res B) Q :
  (b = true -> E (ValueError msg)) -> (b = false -> wp E (f tt) Q) ->
  wp E (raise_if b msg ≫= f) Q.
Proof. destruct b; cbn; auto. Qed.
Lemma wp_of_option (o : option A) e (Q : A -> Prop) :
  (o = None -> E e) -> (forall a, o = Some a -> Q a) -> wp E (of_option e o) Q.
Proof. destruct o; cbn; auto. Qed.

(** The invariant rule for a loop over a list, with the processed prefix. *)
Lemma wp_foldR (P : list B -> A -> Prop) (f : A -> B -> res A) (s : A) (l : list B) :
  (forall pre x post s, l = pre ++ x :: post -> P pre s -> wp E (f s x) (P (pre ++ [x]))) ->
  P [] s -> wp E (foldR f s l) (P l).
Proof.
  intros Hstep. cut (forall pre post s, l = pre ++ post -> P pre s -> wp E (foldR f s post) (P l));
    [intros H; by apply (H [])|].
  intros pre post; revert pre. induction post as [|x post IH]; intros pre s0 -> Hp; cbn.
  - by rewrite app_nil_r.
  - specialize (Hstep _ _ _ _ eq_refl Hp). destruct (f s0 x) as [s1|]; [|done]. cbn in *.
    apply (IH (pre ++ [x])); [by rewrite <- app_assoc|done].
Qed.
End wp.

(** ** Booleans *)

Lemma andb_true b c : b && c = true <-> b = true /\ c = true.
Proof. apply andb_true_iff. Qed.
Lemma orb_false b c : b || c = false <-> b = false /\ c = false.
Proof. apply orb_false_iff. Qed.
Lemma negb_true b : negb b = true <-> b = false.
Proof. apply negb_true_iff. Qed.
Lemma negb_false b : negb b = false <-> b = true.
Proof. apply negb_false_iff. Qed.
Create HintDb kite.
#[export] Hint Rewrite andb_true orb_false negb_true negb_false Z.eqb_eq Z.eqb_neq Z.ltb_lt
  Z.ltb_ge Z.leb_le Z.leb_gt bool_decide_eq_true bool_decide_eq_false : kite.

(** [bool_inv] splits boolean guards among the hypotheses and turns comparisons into
    propositions. *)
Ltac bool_inv :=
  repeat match goal with
  | H : _ && _ = true |- _ => apply andb_true in H as [? ?]
  | H : _ || _ = false |- _ => apply orb_false in H as [? ?]
  | H : negb _ = true |- _ => apply negb_true in H
  | H : negb _ = false |- _ => apply negb_false in H
  end; autorewrite with kite in *.

(** ** Python's [sorted(set(x)) == x]: strictly increasing *)

Fixpoint strictly_sorted (l : list Z) : bool :=
  match l with
  | x :: (y :: _) as l' => (x <? y) && strictly_sorted l'
  | _ => true
  end.

(** ** Python's [sorted(l, key=...)]: a stable sort *)

Section sort_by.
Context {A : Type} (le : A -> A -> bool).

(** An element goes before the first one that does not have to precede it. *)
Fixpoint insert_by (x : A) (l : list A) : list A :=
  match l with
  | [] => [x]
  | y :: l' => if le x y then x :: l else y :: insert_by x l'
  end.
Definition sort_by (l : list A) : list A := foldr insert_by [] l.

Lemma insert_by_perm x l : insert_by x l ≡ₚ x :: l.
Proof.
  induction l as [|y l IH]; cbn; [done|]. destruct (le x y); [done|]. rewrite IH. constructor.
Qed.
Lemma sort_by_perm l : sort_by l ≡ₚ l.
Proof. induction l as [|x l IH]; cbn; [done|]. by rewrite insert_by_perm, IH. Qed.

Context (total : forall x y, le x y = true \/ le y x = true)
        (trans : forall x y z, le x y = true -> le y z = true -> le x z = true).
Lemma insert_by_sorted x l : StronglySorted (fun x y => le x y = true) l ->
  StronglySorted (fun x y => le x y = true) (insert_by x l).
Proof.
  induction 1 as [|y l Hs IH Hy]; cbn; [by repeat constructor|].
  destruct (le x y) eqn:E.
  - constructor; [by constructor|]. constructor; [done|]. eapply Forall_impl; [exact Hy|].
    intros z Hz. by eapply trans.
  - constructor; [done|]. rewrite insert_by_perm. constructor; [|done].
    destruct (total x y) as [H|H]; [congruence|done].
Qed.
Lemma sort_by_sorted l : StronglySorted (fun x y => le x y = true) (sort_by l).
Proof. induction l as [|x l IH]; cbn; [constructor|]. by apply insert_by_sorted. Qed.
End sort_by.
