(* ===== verification/Decimal.v ===== *)
(** * Decimal arithmetic

    The decimal numbers and contexts of Python's [decimal] module, as far as the engine
    uses them: finite numbers, [ROUND_HALF_EVEN], the traps [InvalidOperation],
    [DivisionByZero] and [Overflow] always set, [Inexact] set or not.  A number is a
    signed integer coefficient and an exponent; every operation computes the exact
    result (division: the truncated quotient with a sticky last digit, as the module
    does) and hands it to [dfix], the module's [_fix]: rounding to the precision,
    subnormal range, overflow, inexact trap.

    The sign of a zero is not represented: no comparison of the engine and no value
    it computes depends on it.

    The second half is the theory: the value of a number in [Q], exactness of the
    operations in a context that traps [Inexact], and the bounds that rounding
    preserves in a context that does not. *)
From S2P Require Import Prelude.

Record dec := Dec { coef : Z; dexp : Z }.

#[export] Instance dec_eq_dec : EqDecision dec.
Proof. solve_decision. Defined.

Definition dZ (n : Z) : dec := Dec n 0.
Notation "'d0'" := (dZ 0).

(** ** Contexts *)

Record context := Context { prec : Z; emin : Z; emax : Z; trap_inexact : bool }.

(** [Context(prec=p)]: the exponent limits are those of the default context. *)
Definition mk_context (p : Z) (inexact : bool) : context := Context p (-999999) 999999 inexact.

Definition etiny (c : context) : Z := emin c - prec c + 1.
Definition etop (c : context) : Z := emax c - prec c + 1.

Record context_ok (c : context) : Prop := {
  prec_pos : 0 < prec c;
  etiny_top : etiny c < etop c - 2 * prec c;
  etiny_neg : etiny c < 0;
  etop_pos : 0 < etop c
}.

(** ** Digits and rounding *)

Fixpoint ndigits_loop (fuel : nat) (n : Z) : Z :=
  match fuel with
  | O => 1
  | S fuel => if n <? 10 then 1 else 1 + ndigits_loop fuel (n / 10)
  end.
(** Number of decimal digits of the coefficient; zero has one digit. *)
Definition ndigits (n : Z) : Z :=
  ndigits_loop (Z.to_nat (Z.log2 (Z.abs n) + 1)) (Z.abs n).

(** [n / d] rounded to the nearest integer, ties to even ([0 < d]). *)
Definition rhe_div (n d : Z) : Z :=
  let q := n / d in
  let r := n mod d in
  if 2 * r <? d then q else if d <? 2 * r then q + 1 else if Z.even q then q else q + 1.

Definition dfix (c : context) (d : dec) : res dec :=
  if coef d =? 0 then Ok (Dec 0 (Z.min (Z.max (dexp d) (etiny c)) (emax c)))
  else
    let exp_min := ndigits (coef d) + dexp d - prec c in
    if etop c <? exp_min then Err (DecimalException Overflow)
    else
      let exp_min := Z.max exp_min (etiny c) in
      if dexp d <? exp_min then
        let q := rhe_div (coef d) (10 ^ (exp_min - dexp d)) in
        let changed := negb (q * 10 ^ (exp_min - dexp d) =? coef d) in
        let '(q, exp_min) := if prec c <? ndigits q then (q / 10, exp_min + 1)
                             else (q, exp_min) in
        if etop c <? exp_min then Err (DecimalException Overflow)
        else if changed && trap_inexact c then Err (DecimalException Inexact)
        else Ok (Dec q exp_min)
      else Ok d.

(** ** Comparison: exact, whatever the context *)

Definition align (a b : dec) : Z * Z :=
  let e := Z.min (dexp a) (dexp b) in
  (coef a * 10 ^ (dexp a - e), coef b * 10 ^ (dexp b - e)).
Definition dleb (a b : dec) : bool := let '(x, y) := align a b in x <=? y.
Definition dltb (a b : dec) : bool := let '(x, y) := align a b in x <? y.
Definition deqb (a b : dec) : bool := let '(x, y) := align a b in x =? y.
(** Python's [max(a, b)] and [min(a, b)]: the first argument unless the second one is
    strictly greater (smaller). *)
Definition dmax (a b : dec) : dec := if dltb a b then b else a.
Definition dmin (a b : dec) : dec := if dltb b a then b else a.

(** ** Arithmetic *)

Definition dadd_raw (a b : dec) : dec :=
  let '(x, y) := align a b in Dec (x + y) (Z.min (dexp a) (dexp b)).
Definition dneg_raw (a : dec) : dec := Dec (- coef a) (dexp a).
Definition dmul_raw (a b : dec) : dec := Dec (coef a * coef b) (dexp a + dexp b).

Definition dplus (c : context) (a : dec) : res dec := dfix c a.
Definition dneg (c : context) (a : dec) : res dec := dfix c (dneg_raw a).
Definition dabs (c : context) (a : dec) : res dec := dfix c (Dec (Z.abs (coef a)) (dexp a)).
Definition dadd (c : context) (a b : dec) : res dec := dfix c (dadd_raw a b).
Definition dsub (c : context) (a b : dec) : res dec := dfix c (dadd_raw a (dneg_raw b)).
Definition dmul (c : context) (a b : dec) : res dec := dfix c (dmul_raw a b).

Fixpoint strip_zeros (fuel : nat) (n e ideal : Z) : dec :=
  match fuel with
  | O => Dec n e
  | S fuel => if (e <? ideal) && (n mod 10 =? 0) then strip_zeros fuel (n / 10) (e + 1) ideal
              else Dec n e
  end.

(** The quotient before [_fix], for a nonzero dividend and divisor. *)
Definition ddiv_raw (c : context) (a b : dec) : dec :=
  let shift := ndigits (coef b) - ndigits (coef a) + prec c + 1 in
  let exp := dexp a - dexp b - shift in
  let n := Z.abs (coef a) * 10 ^ Z.max 0 shift in
  let d := Z.abs (coef b) * 10 ^ Z.max 0 (- shift) in
  let q := n / d in
  let sign := Z.sgn (coef a) * Z.sgn (coef b) in
  if n mod d =? 0 then
    let r := strip_zeros (Z.to_nat (dexp a - dexp b - exp)) q exp (dexp a - dexp b) in
    Dec (sign * coef r) (dexp r)
  else Dec (sign * (if q mod 5 =? 0 then q + 1 else q)) exp.

Definition ddiv (c : context) (a b : dec) : res dec :=
  if coef b =? 0 then
    Err (DecimalException (if coef a =? 0 then InvalidOperation else DivisionByZero))
  else if coef a =? 0 then dfix c (Dec 0 (dexp a - dexp b))
  else dfix c (ddiv_raw c a b).

(** [a.quantize(Decimal(1).scaleb(e))]: the value of [a] rounded to exponent [e]. *)
Definition adjusted (a : dec) : Z := ndigits (coef a) + dexp a - 1.
Definition rescale (a : dec) (e : Z) : dec :=
  if coef a =? 0 then Dec 0 e
  else if e <=? dexp a then Dec (coef a * 10 ^ (dexp a - e)) e
  else Dec (rhe_div (coef a) (10 ^ (e - dexp a))) e.
Definition quantize (c : context) (a : dec) (e : Z) : res dec :=
  if negb ((etiny c <=? e) && (e <=? emax c)) then Err (DecimalException InvalidOperation)
  else if coef a =? 0 then dfix c (Dec 0 e)
  else if (emax c <? adjusted a) || (prec c <? adjusted a - e + 1) then
    Err (DecimalException InvalidOperation)
  else
    let r := rescale a e in
    if (emax c <? adjusted r) || (prec c <? ndigits (coef r)) then
      Err (DecimalException InvalidOperation)
    else if (dexp a <? e) && negb (deqb r a) && trap_inexact c then
      Err (DecimalException Inexact)
    else dfix c r.

(** [int(a)]: truncation toward zero. *)
Definition dtrunc (a : dec) : Z :=
  if 0 <=? dexp a then coef a * 10 ^ dexp a else Z.quot (coef a) (10 ^ (- dexp a)).

(** [sum(xs, Decimal(0))]. *)
Definition dsum (c : context) (l : list dec) : res dec := foldR (dadd c) d0 l.
