(* ===== verification/DecimalFacts.v ===== *)
(** * Theory of the decimal arithmetic

    The value [dval] of a number as a rational; comparisons decide the order of
    values; operations in a context that traps [Inexact] are exact when they return;
    in every context rounding never crosses a representable number ([dfix_le],
    [dfix_ge]), which is what the percentage and indicator bounds need. *)
From S2P Require Import Prelude Decimal.

#[export] Instance Qle_preorder : PreOrder Qle.
Proof. split; [exact Qle_refl|exact Qle_trans]. Qed.

(** ** Powers of ten in [Q] *)

Definition p10 (e : Z) : Q := Qpower (inject_Z 10) e.

Lemma ten_nz : ~ inject_Z 10 == 0.
Proof. unfold Qeq; cbn; lia. Qed.

Lemma p10_pos e : (0 < p10 e)%Q.
Proof. unfold p10. apply Qpower_0_lt. unfold Qlt; cbn; lia. Qed.

Lemma p10_add a b : p10 (a + b) == p10 a * p10 b.
Proof. unfold p10. apply Qpower_plus, ten_nz. Qed.

Lemma p10_Z e : 0 <= e -> p10 e == inject_Z (10 ^ e).
Proof. intros He. unfold p10. by rewrite Zpower_Qpower. Qed.

Lemma p10_split x e : x <= e -> p10 e == inject_Z (10 ^ (e - x)) * p10 x.
Proof.
  intros H. rewrite <- p10_Z by lia. rewrite <- p10_add.
  now replace (e - x + x) with e by lia.
Qed.

Lemma pow10_pos e : 0 <= e -> 0 < 10 ^ e.
Proof. intros. apply Z.pow_pos_nonneg; lia. Qed.

#[export] Instance p10_proper : Proper (eq ==> Qeq) p10.
Proof. intros ? ? ->. reflexivity. Qed.

Lemma scaled_le a b x : (inject_Z a * p10 x <= inject_Z b * p10 x)%Q <-> a <= b.
Proof.
  pose proof (p10_pos x). rewrite Qmult_le_r by done. by rewrite <- Zle_Qle.
Qed.
Lemma scaled_lt a b x : (inject_Z a * p10 x < inject_Z b * p10 x)%Q <-> a < b.
Proof.
  pose proof (p10_pos x). rewrite Qmult_lt_r by done. by rewrite <- Zlt_Qlt.
Qed.
Lemma scaled_eq a b x : (inject_Z a * p10 x == inject_Z b * p10 x)%Q <-> a = b.
Proof.
  split; [|intros ->; reflexivity].
  intros H. apply Z.le_antisymm; apply (scaled_le _ _ x); rewrite H; apply Qle_refl.
Qed.

(** ** Values *)

Definition dval (d : dec) : Q := inject_Z (coef d) * p10 (dexp d).

Lemma dval_Z n : dval (dZ n) == inject_Z n.
Proof. unfold dval, dZ, p10; cbn. unfold Qeq; cbn; lia. Qed.

Lemma dval_zero d : coef d = 0 -> dval d == 0.
Proof. unfold dval. intros ->. change (inject_Z 0) with 0%Q. ring. Qed.

Lemma align_spec a b x y : align a b = (x, y) ->
  dval a == inject_Z x * p10 (Z.min (dexp a) (dexp b)) /\
  dval b == inject_Z y * p10 (Z.min (dexp a) (dexp b)).
Proof.
  unfold align, dval. intros E; injection E as <- <-.
  rewrite (p10_split (Z.min (dexp a) (dexp b)) (dexp a)) by lia.
  rewrite (p10_split (Z.min (dexp a) (dexp b)) (dexp b)) by lia.
  rewrite !inject_Z_mult. split; ring.
Qed.

Section comparisons.
Context (a b : dec).

Lemma dleb_spec : dleb a b = true <-> (dval a <= dval b)%Q.
Proof.
  unfold dleb. destruct (align a b) as [x y] eqn:E.
  apply align_spec in E as [-> ->]. rewrite scaled_le. apply Z.leb_le.
Qed.
Lemma dltb_spec : dltb a b = true <-> (dval a < dval b)%Q.
Proof.
  unfold dltb. destruct (align a b) as [x y] eqn:E.
  apply align_spec in E as [-> ->]. rewrite scaled_lt. apply Z.ltb_lt.
Qed.
Lemma deqb_spec : deqb a b = true <-> dval a == dval b.
Proof.
  unfold deqb. destruct (align a b) as [x y] eqn:E.
  apply align_spec in E as [-> ->]. rewrite scaled_eq. apply Z.eqb_eq.
Qed.
End comparisons.

Lemma dleb_false a b : dleb a b = false <-> (dval b < dval a)%Q.
Proof.
  destruct (dleb a b) eqn:E; [apply dleb_spec in E|]; split; intros H; try done.
  - exfalso. apply (Qle_not_lt _ _ E H).
  - apply Qnot_le_lt. rewrite <- dleb_spec. congruence.
Qed.
Lemma dltb_false a b : dltb a b = false <-> (dval b <= dval a)%Q.
Proof.
  destruct (dltb a b) eqn:E; [apply dltb_spec in E|]; split; intros H; try done.
  - exfalso. apply (Qlt_not_le _ _ E H).
  - apply Qnot_lt_le. rewrite <- dltb_spec. congruence.
Qed.
Lemma deqb_false a b : deqb a b = false <-> ~ dval a == dval b.
Proof. rewrite <- deqb_spec. by destruct (deqb a b). Qed.

#[export] Hint Rewrite dleb_spec dltb_spec deqb_spec dleb_false dltb_false deqb_false : kite.

Lemma dmax_val a b : dval (dmax a b) == Qmax (dval a) (dval b).
Proof.
  unfold dmax. destruct (dltb a b) eqn:E.
  - apply dltb_spec in E. rewrite Q.max_r; [reflexivity|by apply Qlt_le_weak].
  - apply dltb_false in E. rewrite Q.max_l; [reflexivity|done].
Qed.
Lemma dmin_val a b : dval (dmin a b) == Qmin (dval a) (dval b).
Proof.
  unfold dmin. destruct (dltb b a) eqn:E.
  - apply dltb_spec in E. rewrite Q.min_r; [reflexivity|by apply Qlt_le_weak].
  - apply dltb_false in E. rewrite Q.min_l; [reflexivity|done].
Qed.
Lemma dmax_cases a b : dmax a b = a \/ dmax a b = b.
Proof. unfold dmax. destruct (dltb a b); auto. Qed.
Lemma dmin_cases a b : dmin a b = a \/ dmin a b = b.
Proof. unfold dmin. destruct (dltb b a); auto. Qed.
Lemma dmax_ge_l a b : (dval a <= dval (dmax a b))%Q.
Proof. rewrite dmax_val. apply Q.le_max_l. Qed.
Lemma dmax_ge_r a b : (dval b <= dval (dmax a b))%Q.
Proof. rewrite dmax_val. apply Q.le_max_r. Qed.
Lemma dmin_le_l a b : (dval (dmin a b) <= dval a)%Q.
Proof. rewrite dmin_val. apply Q.le_min_l. Qed.
Lemma dmin_le_r a b : (dval (dmin a b) <= dval b)%Q.
Proof. rewrite dmin_val. apply Q.le_min_r. Qed.

Lemma dadd_raw_val a b : dval (dadd_raw a b) == dval a + dval b.
Proof.
  unfold dadd_raw. destruct (align a b) as [x y] eqn:E. apply align_spec in E as [-> ->].
  unfold dval; cbn [coef dexp]. rewrite inject_Z_plus. ring.
Qed.
Lemma dneg_raw_val a : dval (dneg_raw a) == - dval a.
Proof. unfold dval, dneg_raw; cbn [coef dexp]. rewrite inject_Z_opp. ring. Qed.
Lemma dmul_raw_val a b : dval (dmul_raw a b) == dval a * dval b.
Proof.
  unfold dval, dmul_raw; cbn [coef dexp]. rewrite inject_Z_mult, p10_add. ring.
Qed.

Lemma dval_sign d :
  ((0 < dval d)%Q <-> 0 < coef d) /\ ((dval d < 0)%Q <-> coef d < 0) /\ (dval d == 0 <-> coef d = 0).
Proof.
  assert (H0 : 0 == inject_Z 0 * p10 (dexp d)) by (change (inject_Z 0) with 0%Q; ring).
  unfold dval. repeat split; intros H.
  - rewrite H0 in H. by apply scaled_lt in H.
  - rewrite H0. by apply scaled_lt.
  - rewrite H0 in H. by apply scaled_lt in H.
  - rewrite H0. by apply scaled_lt.
  - rewrite H0 in H. by apply scaled_eq in H.
  - rewrite H0. by apply scaled_eq.
Qed.
Lemma coef_zero d : coef d = 0 <-> dval d == 0.
Proof. symmetry. apply dval_sign. Qed.

(** ** Digits *)

Lemma ndigits_loop_spec fuel n : 0 < n < 2 ^ Z.of_nat fuel ->
  1 <= ndigits_loop fuel n /\
  10 ^ (ndigits_loop fuel n - 1) <= n < 10 ^ ndigits_loop fuel n.
Proof.
  revert n. induction fuel as [|fuel IH]; intros n Hn; [cbn in *; lia|]. cbn [ndigits_loop].
  destruct (n <? 10) eqn:E; [apply Z.ltb_lt in E; cbn; lia|]. apply Z.ltb_ge in E.
  rewrite Nat2Z.inj_succ, Z.pow_succ_r in Hn by lia.
  assert (Hq : 0 < n / 10 < 2 ^ Z.of_nat fuel).
  { split; [apply Z.div_str_pos; lia|]. apply Z.div_lt_upper_bound; lia. }
  destruct (IH _ Hq) as (H1 & H2 & H3). set (k := ndigits_loop fuel (n / 10)) in *.
  split; [lia|]. replace (1 + k - 1) with (Z.succ (k - 1)) by lia.
  rewrite Z.pow_succ_r by lia. replace (1 + k) with (Z.succ k) by lia.
  rewrite Z.pow_succ_r by lia. pose proof (Z.div_mod n 10 ltac:(lia)).
  pose proof (Z.mod_pos_bound n 10 ltac:(lia)). lia.
Qed.

Lemma ndigits_spec n : n <> 0 ->
  1 <= ndigits n /\ 10 ^ (ndigits n - 1) <= Z.abs n < 10 ^ ndigits n.
Proof.
  intros Hn. unfold ndigits. apply ndigits_loop_spec.
  pose proof (Z.log2_nonneg (Z.abs n)).
  rewrite Z2Nat.id by lia. pose proof (Z.log2_spec (Z.abs n)). lia.
Qed.

Lemma ndigits_pos n : 1 <= ndigits n.
Proof.
  destruct (Z.eq_dec n 0) as [->|Hn]; [vm_compute; done|]. by apply ndigits_spec.
Qed.

(** The digit count is the unique exponent that brackets the number. *)
Lemma ndigits_unique n k : 10 ^ (k - 1) <= Z.abs n < 10 ^ k -> 1 <= k -> ndigits n = k.
Proof.
  intros H Hk. assert (Hn : n <> 0).
  { intros ->. pose proof (pow10_pos (k - 1)). cbn in *. lia. }
  destruct (ndigits_spec n Hn) as (H1 & H2).
  destruct (Z.lt_trichotomy (ndigits n) k) as [Hlt|[?|Hlt]]; [|done|].
  - assert (10 ^ ndigits n <= 10 ^ (k - 1)) by (apply Z.pow_le_mono_r; lia). lia.
  - assert (10 ^ k <= 10 ^ (ndigits n - 1)) by (apply Z.pow_le_mono_r; lia). lia.
Qed.

(** ** Rounding to an integer *)

Section rhe.
Context (n d : Z) (Hd : 0 < d).

Lemma rhe_div_cases : let q := n / d in
  (rhe_div n d = q /\ 2 * (n - q * d) <= d) \/ (rhe_div n d = q + 1 /\ d <= 2 * (n - q * d)).
Proof.
  intros q. unfold rhe_div. fold q.
  assert (n mod d = n - q * d) as -> by (unfold q; rewrite Z.mod_eq; lia).
  destruct (2 * (n - q * d) <? d) eqn:E1; [left; bool_inv; lia|].
  destruct (d <? 2 * (n - q * d)) eqn:E2; [right; bool_inv; lia|].
  bool_inv. destruct (Z.even q); [left|right]; lia.
Qed.

(** Rounding does not cross an integer. *)
Lemma rhe_div_le m : n <= m * d -> rhe_div n d <= m.
Proof.
  intros H. pose proof (Z.mod_pos_bound n d Hd). rewrite Z.mod_eq in H0 by lia.
  destruct rhe_div_cases as [[-> Hr]|[-> Hr]]; nia.
Qed.
Lemma rhe_div_ge m : m * d <= n -> m <= rhe_div n d.
Proof.
  intros H. pose proof (Z.mod_pos_bound n d Hd). rewrite Z.mod_eq in H0 by lia.
  destruct rhe_div_cases as [[-> Hr]|[-> Hr]]; nia.
Qed.
(** Rounding is to nearest. *)
Lemma rhe_div_near : 2 * Z.abs (rhe_div n d * d - n) <= d.
Proof.
  pose proof (Z.mod_pos_bound n d Hd). rewrite Z.mod_eq in H by lia.
  destruct rhe_div_cases as [[-> Hr]|[-> Hr]]; nia.
Qed.
End rhe.

(** Rounding half to even is odd. *)
Lemma rhe_div_opp n d : 0 < d -> rhe_div (- n) d = - rhe_div n d.
Proof.
  intros Hd. unfold rhe_div. pose proof (Z.mod_pos_bound n d Hd).
  destruct (Z.eq_dec (n mod d) 0) as [E|E].
  - rewrite Z.mod_opp_l_z, Z.div_opp_l_z, E by lia. destruct (2 * 0 <? d) eqn:?; bool_inv; lia.
  - rewrite Z.mod_opp_l_nz, Z.div_opp_l_nz by lia. set (r := n mod d) in *. set (q := n / d).
    replace (Z.even (- q - 1)) with (negb (Z.even q)).
    2: { replace (- q - 1) with (- Z.succ q) by lia.
         by rewrite Z.even_opp, Z.even_succ, <- Z.negb_even. }
    destruct (2 * r <? d) eqn:E1, (d <? 2 * r) eqn:E2, (2 * (d - r) <? d) eqn:E3,
      (d <? 2 * (d - r)) eqn:E4, (Z.even q); cbn [negb]; bool_inv; lia.
Qed.

Lemma rhe_div_mul m d : 0 < d -> rhe_div (m * d) d = m.
Proof. intros. apply Z.le_antisymm; [apply rhe_div_le|apply rhe_div_ge]; lia. Qed.

(** ** [dfix]: rounding to a context *)

(** A value that the context can hold without rounding. *)
Definition repr (c : context) (y : Q) : Prop :=
  exists m e, y == inject_Z m * p10 e /\ Z.abs m <= 10 ^ prec c /\ etiny c <= e.

#[export] Instance repr_proper c : Proper (Qeq ==> iff) (repr c).
Proof.
  intros x y H. unfold repr.
  split; intros (m & e & E & ?); exists m, e; (split; [|done]); [by rewrite <- H|by rewrite H].
Qed.

Lemma repr_Z c n : context_ok c -> Z.abs n <= 10 ^ prec c -> repr c (inject_Z n).
Proof.
  intros [] H. exists n, 0. split; [|split; [done|lia]].
  change (p10 0) with 1%Q. ring.
Qed.
Lemma repr_0 c : context_ok c -> repr c 0.
Proof. intros Hc. apply (repr_Z c 0 Hc). destruct Hc. pose proof (pow10_pos (prec c)). lia. Qed.
Lemma repr_opp c y : repr c y -> repr c (- y).
Proof.
  intros (m & e & E & Hm & He). exists (- m), e. split; [|split; [lia|done]].
  rewrite E, inject_Z_opp. ring.
Qed.

(** The exponent [dfix] rounds to. *)
Definition fix_exp (c : context) (d : dec) : Z :=
  Z.max (ndigits (coef d) + dexp d - prec c) (etiny c).

Definition rounded (c : context) (d r : dec) : Prop :=
  coef d <> 0 /\ dexp d < fix_exp c d /\
  dval r == inject_Z (rhe_div (coef d) (10 ^ (fix_exp c d - dexp d))) * p10 (fix_exp c d) /\
  (trap_inexact c = true ->
   rhe_div (coef d) (10 ^ (fix_exp c d - dexp d)) * 10 ^ (fix_exp c d - dexp d) = coef d).

Lemma rounded_coef_le c d : context_ok c -> coef d <> 0 -> dexp d < fix_exp c d ->
  Z.abs (rhe_div (coef d) (10 ^ (fix_exp c d - dexp d))) <= 10 ^ prec c.
Proof.
  intros Hc Hn He. pose proof (ndigits_spec _ Hn) as (H1 & _ & H2).
  set (D := 10 ^ (fix_exp c d - dexp d)).
  assert (HD : 0 < D) by (apply pow10_pos; lia).
  assert (Hb : Z.abs (coef d) <= 10 ^ prec c * D).
  { unfold D. rewrite <- Z.pow_add_r by (destruct Hc; lia).
    assert (10 ^ ndigits (coef d) <= 10 ^ (prec c + (fix_exp c d - dexp d))).
    { apply Z.pow_le_mono_r; [lia|]. unfold fix_exp in *. lia. }
    lia. }
  apply Z.abs_le. split.
  - apply rhe_div_ge; lia.
  - apply rhe_div_le; lia.
Qed.

Lemma carry_exact k q : 0 < k -> Z.abs q <= 10 ^ k -> k < ndigits q -> q / 10 * 10 = q.
Proof.
  intros Hk Hq Hd. assert (Hn : q <> 0).
  { intros ->. change (ndigits 0) with 1 in Hd. lia. }
  pose proof (ndigits_spec _ Hn) as (_ & H & _).
  assert (10 ^ k <= 10 ^ (ndigits q - 1)) by (apply Z.pow_le_mono_r; lia).
  assert (Hq' : Z.abs q = 10 ^ Z.succ (k - 1)) by (replace (Z.succ (k - 1)) with k by lia; lia).
  rewrite Z.pow_succ_r in Hq' by lia. pose proof (Z.div_mod q 10 ltac:(lia)).
  pose proof (Z.mod_pos_bound q 10 ltac:(lia)). lia.
Qed.

Lemma dfix_inv c d r : context_ok c -> dfix c d = Ok r ->
  (dval r == dval d /\ repr c (dval d)) \/ rounded c d r.
Proof.
  intros Hc. unfold dfix. destruct (coef d =? 0) eqn:E0.
  { apply Z.eqb_eq in E0. intros E; injection E as <-. left.
    rewrite (dval_zero d E0). split; [|by apply repr_0]. by apply dval_zero. }
  apply Z.eqb_neq in E0. cbv zeta. destruct (etop c <? _) eqn:Et; [done|].
  change (Z.max _ _) with (fix_exp c d). destruct (dexp d <? fix_exp c d) eqn:Ee.
  2: { intros E; injection E as <-. left. split; [reflexivity|]. apply Z.ltb_ge in Ee.
       exists (coef d), (dexp d). split; [reflexivity|]. unfold fix_exp in Ee. split; [|lia].
       pose proof (ndigits_spec _ E0) as (? & _ & H).
       assert (10 ^ ndigits (coef d) <= 10 ^ prec c) by (apply Z.pow_le_mono_r; lia). lia. }
  apply Z.ltb_lt in Ee. pose proof (rounded_coef_le c d Hc E0 Ee) as Hq.
  set (q := rhe_div _ _) in *. intros E. right. split; [done|]. split; [done|].
  set (changed := negb _) in E.
  assert (trap_inexact c = true -> is_Some (if changed && trap_inexact c then None else Some r) ->
    q * 10 ^ (fix_exp c d - dexp d) = coef d) as Hx.
  { intros -> [? Hx]. unfold changed in Hx. rewrite andb_true_r in Hx.
    destruct (negb _) eqn:Hn; [done|]. apply negb_false in Hn. by apply Z.eqb_eq in Hn. }
  clear Et. destruct (prec c <? ndigits q) eqn:Ec; cbn beta iota in E; destruct (etop c <? _); try done;
    destruct (changed && trap_inexact c); try done; injection E as <-; (split; [|eauto]);
    unfold dval; cbn [coef dexp]; [|reflexivity].
  rewrite p10_add. change (p10 1) with (inject_Z 10).
  fold q. rewrite <- (carry_exact (prec c) q) at 2; [|destruct Hc; lia|lia|lia].
  rewrite inject_Z_mult. ring.
Qed.

Lemma dfix_repr c d r : context_ok c -> dfix c d = Ok r -> repr c (dval r).
Proof.
  intros Hc E. destruct (dfix_inv c d r Hc E) as [[-> ?]|(Hn & He & -> & _)]; [done|].
  eexists _, _. split; [reflexivity|]. split; [by apply rounded_coef_le|].
  unfold fix_exp; lia.
Qed.

(** In a context that traps [Inexact], the result has the value of the argument. *)
Lemma dfix_exact c d r : context_ok c -> trap_inexact c = true -> dfix c d = Ok r ->
  dval r == dval d.
Proof.
  intros Hc Ht E. destruct (dfix_inv c d r Hc E) as [[-> ?]|(Hn & He & -> & Hx)]; [done|].
  unfold dval. rewrite (p10_split (dexp d) (fix_exp c d)) by lia.
  rewrite Qmult_assoc, <- inject_Z_mult, Hx by done. reflexivity.
Qed.

(** Rounding never crosses a representable number. *)
Lemma rounded_le c d r y : context_ok c -> rounded c d r -> repr c y ->
  (dval d <= y)%Q -> (dval r <= y)%Q.
Proof.
  intros Hc (Hn & Hlt & -> & _) (m & e & -> & Hm & He) Hle.
  set (X := fix_exp c d) in *. set (D := 10 ^ (X - dexp d)).
  assert (HD : 0 < D) by (apply pow10_pos; lia).
  unfold dval in Hle. destruct (Z.le_gt_cases X e) as [Hge|Hsmall].
  - rewrite (p10_split X e) in * by lia. rewrite Qmult_assoc, <- inject_Z_mult in *.
    rewrite scaled_le. apply rhe_div_le; [done|].
    rewrite (p10_split (dexp d) X), Qmult_assoc, <- inject_Z_mult in Hle by lia.
    apply scaled_le in Hle. done.
  - pose proof (ndigits_spec _ Hn) as (_ & Hlo & _).
    assert (HX : X = ndigits (coef d) + dexp d - prec c) by (unfold X, fix_exp in *; lia).
    assert (HB : 10 ^ (ndigits (coef d) - 1) = 10 ^ (prec c - 1) * D).
    { unfold D. rewrite <- Z.pow_add_r by (destruct Hc; lia). f_equal. lia. }
    assert (Hy : Z.abs m <= 10 ^ (prec c - 1) * 10 ^ (X - e)).
    { rewrite <- Z.pow_add_r by (destruct Hc; lia).
      assert (10 ^ prec c <= 10 ^ (prec c - 1 + (X - e))) by (apply Z.pow_le_mono_r; lia). lia. }
    rewrite (p10_split e X), Qmult_assoc, <- inject_Z_mult, scaled_le by lia.
    assert (Hpe : 0 < 10 ^ (X - e)) by (apply pow10_pos; lia).
    destruct (Z.lt_ge_cases 0 (coef d)).
    + destruct (Z.le_gt_cases (coef d) (10 ^ (prec c - 1) * D)) as [Hle'|Hgt].
      2: { exfalso. apply (Qle_not_lt _ _ Hle).
           apply Qle_lt_trans with (inject_Z (10 ^ (prec c - 1)) * p10 X)%Q.
           - rewrite (p10_split e X), Qmult_assoc, <- inject_Z_mult, scaled_le by lia. lia.
           - rewrite (p10_split (dexp d) X), Qmult_assoc, <- inject_Z_mult, scaled_lt by lia.
             done. }
      assert (Heq : coef d = 10 ^ (prec c - 1) * D) by lia. rewrite Heq in *.
      rewrite rhe_div_mul by done.
      apply (scaled_le _ _ e). rewrite inject_Z_mult, <- Qmult_assoc, <- p10_split by lia.
      rewrite inject_Z_mult, <- Qmult_assoc in Hle. unfold D in Hle.
      rewrite <- p10_split in Hle by lia. done.
    + assert (rhe_div (coef d) D <= - 10 ^ (prec c - 1)) by (apply rhe_div_le; lia). nia.
Qed.

Lemma rounded_opp c d r : rounded c d r -> rounded c (dneg_raw d) (dneg_raw r).
Proof.
  intros (Hn & Hlt & E & Hx). unfold rounded, fix_exp in *. cbn [coef dexp dneg_raw] in *.
  assert (Hd : ndigits (- coef d) = ndigits (coef d)) by (unfold ndigits; by rewrite Z.abs_opp).
  rewrite Hd. split; [lia|]. split; [done|].
  rewrite rhe_div_opp by (apply pow10_pos; lia). split; [|intros Ht; specialize (Hx Ht); lia].
  change (Dec (- coef r) (dexp r)) with (dneg_raw r). rewrite dneg_raw_val, E, inject_Z_opp. ring.
Qed.

Lemma dfix_le c d r y : context_ok c -> dfix c d = Ok r -> repr c y ->
  (dval d <= y)%Q -> (dval r <= y)%Q.
Proof.
  intros Hc E Hy Hle. destruct (dfix_inv c d r Hc E) as [[-> ?]|Hr]; [done|].
  by eapply rounded_le.
Qed.
Lemma dfix_ge c d r y : context_ok c -> dfix c d = Ok r -> repr c y ->
  (y <= dval d)%Q -> (y <= dval r)%Q.
Proof.
  intros Hc E Hy Hle. destruct (dfix_inv c d r Hc E) as [[-> ?]|Hr]; [done|].
  apply rounded_opp in Hr. pose proof (rounded_le c _ _ (- y) Hc Hr (repr_opp _ _ Hy)) as H.
  rewrite !dneg_raw_val in H. apply Qopp_le_compat in Hle. apply H in Hle. lra.
Qed.

(** ** The operations in a context that traps [Inexact] *)

Section exact.
Context (c : context) (Hc : context_ok c) (Ht : trap_inexact c = true).

Lemma dadd_exact a b r : dadd c a b = Ok r -> dval r == dval a + dval b.
Proof. intros E. rewrite <- dadd_raw_val. by eapply dfix_exact. Qed.
Lemma dsub_exact a b r : dsub c a b = Ok r -> dval r == dval a - dval b.
Proof.
  intros E. unfold Qminus. rewrite <- dneg_raw_val, <- dadd_raw_val. by eapply dfix_exact.
Qed.
Lemma dmul_exact a b r : dmul c a b = Ok r -> dval r == dval a * dval b.
Proof. intros E. rewrite <- dmul_raw_val. by eapply dfix_exact. Qed.

Lemma dsum_exact_from l s r : foldR (dadd c) s l = Ok r ->
  dval r == dval s + foldr Qplus 0%Q (dval <$> l).
Proof.
  revert s. induction l as [|x l IH]; intros s E; cbn in *; ok_inv; [ring|].
  rewrite (IH _ E). rewrite (dadd_exact _ _ _ E0). ring.
Qed.
Lemma dsum_exact l r : dsum c l = Ok r -> dval r == foldr Qplus 0%Q (dval <$> l).
Proof. intros E. rewrite (dsum_exact_from _ _ _ E), dval_Z. ring. Qed.
End exact.

(** ** Bounds of the operations in any context *)

Section bounds.
Context (c : context) (Hc : context_ok c) (y : Q) (Hy : repr c y).

Lemma dadd_le a b r : dadd c a b = Ok r -> (dval a + dval b <= y)%Q -> (dval r <= y)%Q.
Proof. intros E. rewrite <- dadd_raw_val. by eapply dfix_le. Qed.
Lemma dadd_ge a b r : dadd c a b = Ok r -> (y <= dval a + dval b)%Q -> (y <= dval r)%Q.
Proof. intros E. rewrite <- dadd_raw_val. by eapply dfix_ge. Qed.
Lemma dsub_le a b r : dsub c a b = Ok r -> (dval a - dval b <= y)%Q -> (dval r <= y)%Q.
Proof.
  intros E. unfold Qminus. rewrite <- dneg_raw_val, <- dadd_raw_val. by eapply dfix_le.
Qed.
Lemma dsub_ge a b r : dsub c a b = Ok r -> (y <= dval a - dval b)%Q -> (y <= dval r)%Q.
Proof.
  intros E. unfold Qminus. rewrite <- dneg_raw_val, <- dadd_raw_val. by eapply dfix_ge.
Qed.
Lemma dmul_le a b r : dmul c a b = Ok r -> (dval a * dval b <= y)%Q -> (dval r <= y)%Q.
Proof. intros E. rewrite <- dmul_raw_val. by eapply dfix_le. Qed.
Lemma dmul_ge a b r : dmul c a b = Ok r -> (y <= dval a * dval b)%Q -> (y <= dval r)%Q.
Proof. intros E. rewrite <- dmul_raw_val. by eapply dfix_ge. Qed.
End bounds.

(** ** Division *)

Lemma strip_zeros_val fuel n e ideal :
  dval (strip_zeros fuel n e ideal) == inject_Z n * p10 e.
Proof.
  revert n e. induction fuel as [|fuel IH]; intros n e; cbn [strip_zeros]; [reflexivity|].
  destruct ((e <? ideal) && (n mod 10 =? 0)) eqn:E; [|reflexivity].
  apply andb_true in E as [_ E]. apply Z.eqb_eq in E.
  rewrite IH, p10_add. change (p10 1) with (inject_Z 10).
  rewrite (Z_div_exact_full_2 n 10) at 2 by lia. rewrite inject_Z_mult. ring.
Qed.

(** A quotient between two neighbouring integers of at least [prec] digits is on the
    same side of every representable number as both of them. *)
Lemma sticky_le c lo u x y :
  context_ok c -> (10 ^ prec c <= lo \/ lo + 1 <= - 10 ^ prec c) ->
  (inject_Z lo * p10 u < x)%Q -> (x <= y)%Q -> repr c y ->
  (inject_Z (lo + 1) * p10 u <= y)%Q.
Proof.
  intros Hc Hlo Hx Hy (m & e & E & Hm & _). rewrite E in *.
  pose proof (Qlt_le_trans _ _ _ Hx Hy) as H. destruct (Z.le_gt_cases u e).
  - rewrite (p10_split u e), Qmult_assoc, <- inject_Z_mult in * by lia.
    apply scaled_lt in H. apply scaled_le. lia.
  - rewrite (p10_split e u), Qmult_assoc, <- inject_Z_mult in * by lia.
    apply scaled_lt in H. apply scaled_le.
    assert (1 <= 10 ^ (u - e)) by (pose proof (pow10_pos (u - e)); lia).
    pose proof (pow10_pos (prec c)). destruct Hc. nia.
Qed.

Lemma sticky_ge c lo u x y :
  context_ok c -> (10 ^ prec c <= lo \/ lo + 1 <= - 10 ^ prec c) ->
  (x < inject_Z (lo + 1) * p10 u)%Q -> (y <= x)%Q -> repr c y ->
  (y <= inject_Z lo * p10 u)%Q.
Proof.
  intros Hc Hlo Hx Hy Hr. apply repr_opp in Hr.
  assert (H : (inject_Z (- (lo + 1) + 1) * p10 u <= - y)%Q).
  { apply (sticky_le c _ _ (- x)); [done|lia| |lra|done]. rewrite inject_Z_opp. lra. }
  replace (- (lo + 1) + 1) with (- lo) in H by lia. rewrite inject_Z_opp in H. lra.
Qed.

Section division.
Context (c : context) (Hc : context_ok c) (a b : dec) (Ha : coef a <> 0) (Hb : coef b <> 0).

Let shift := ndigits (coef b) - ndigits (coef a) + prec c + 1.
Let n := Z.abs (coef a) * 10 ^ Z.max 0 shift.
Let d := Z.abs (coef b) * 10 ^ Z.max 0 (- shift).
Let u := dexp a - dexp b - shift.
Let s := Z.sgn (coef a) * Z.sgn (coef b).

Lemma quotient_den_pos : 0 < d.
Proof. pose proof (pow10_pos (Z.max 0 (- shift))). unfold d. nia. Qed.

Lemma quotient_large : 10 ^ prec c <= n / d.
Proof.
  pose proof quotient_den_pos. apply Z.div_le_lower_bound; [done|].
  pose proof (ndigits_spec _ Ha) as (Ha1 & Ha2 & _).
  pose proof (ndigits_spec _ Hb) as (Hb1 & _ & Hb2). destruct Hc.
  assert (Hd : d <= 10 ^ (ndigits (coef b) + Z.max 0 (- shift))).
  { unfold d. rewrite Z.pow_add_r by lia. pose proof (pow10_pos (Z.max 0 (- shift))). nia. }
  assert (Hn : 10 ^ (ndigits (coef a) - 1 + Z.max 0 shift) <= n).
  { unfold n. rewrite Z.pow_add_r by lia. pose proof (pow10_pos (Z.max 0 shift)). nia. }
  assert (10 ^ prec c * 10 ^ (ndigits (coef b) + Z.max 0 (- shift)) <=
          10 ^ (ndigits (coef a) - 1 + Z.max 0 shift)).
  { rewrite <- Z.pow_add_r by lia. apply Z.pow_le_mono_r; lia. }
  pose proof (pow10_pos (prec c)). nia.
Qed.

Lemma sgn_sq : s = 1 \/ s = -1.
Proof. unfold s. destruct (coef a), (coef b); cbn; auto; lia. Qed.

Lemma quotient_value : dval a * inject_Z d == inject_Z (s * n) * p10 u * dval b.
Proof.
  unfold dval, n, d.
  assert (Hp : p10 (Z.max 0 (- shift)) * p10 (dexp a) ==
               p10 (Z.max 0 shift) * p10 u * p10 (dexp b)).
  { rewrite <- !p10_add. apply p10_proper. unfold u. lia. }
  rewrite !inject_Z_mult, <- !p10_Z by lia.
  transitivity (inject_Z (coef a) * inject_Z (Z.abs (coef b)) *
    (p10 (Z.max 0 (- shift)) * p10 (dexp a)))%Q; [ring|]. rewrite Hp.
  assert (Hs : inject_Z (coef a) * inject_Z (Z.abs (coef b)) ==
               inject_Z s * inject_Z (Z.abs (coef a)) * inject_Z (coef b)).
  { rewrite <- !inject_Z_mult. apply inject_Z_injective. unfold s. lia. }
  rewrite Hs. ring.
Qed.

Lemma dval_b_nz : ~ dval b == 0.
Proof. by rewrite <- coef_zero. Qed.

Lemma quotient_scaled : dval a / dval b == inject_Z (s * n) / inject_Z d * p10 u.
Proof.
  pose proof quotient_value as Hv. pose proof dval_b_nz.
  assert (~ inject_Z d == 0).
  { pose proof quotient_den_pos. change 0%Q with (inject_Z 0).
    rewrite inject_Z_injective. lia. }
  apply (Qmult_inj_r _ _ (dval b * inject_Z d)%Q).
  { intros Hz. apply Qmult_integral in Hz as [?|?]; done. }
  transitivity (dval a * inject_Z d)%Q; [by field|]. rewrite Hv. by field.
Qed.

Lemma ddiv_raw_spec :
  dval (ddiv_raw c a b) == dval a / dval b \/
  exists lo, dexp (ddiv_raw c a b) = u /\
    (inject_Z lo * p10 u < dval a / dval b)%Q /\
    (dval a / dval b < inject_Z (lo + 1) * p10 u)%Q /\
    (coef (ddiv_raw c a b) = lo \/ coef (ddiv_raw c a b) = lo + 1) /\
    coef (ddiv_raw c a b) mod 10 <> 0 /\
    (10 ^ prec c <= lo \/ lo + 1 <= - 10 ^ prec c).
Proof.
  pose proof quotient_den_pos as Hd. pose proof quotient_large as Hq.
  pose proof quotient_scaled as Hx. unfold ddiv_raw. fold shift n d u s. cbv zeta.
  pose proof (Z.div_mod n d ltac:(lia)) as Hdm. pose proof (Z.mod_pos_bound n d Hd) as Hm.
  assert (Hdq : (0 < inject_Z d)%Q) by (change 0%Q with (inject_Z 0); by rewrite <- Zlt_Qlt).
  destruct (n mod d =? 0) eqn:E.
  - left. rewrite Hx. apply Z.eqb_eq in E. set (r := strip_zeros _ _ _ _).
    assert (Hr : dval r == inject_Z (n / d) * p10 u) by apply strip_zeros_val.
    transitivity (inject_Z s * dval r)%Q.
    { unfold dval; cbn [coef dexp]. rewrite inject_Z_mult. ring. }
    rewrite Hr. replace n with (d * (n / d)) at 2 by lia. rewrite !inject_Z_mult. field.
    intros H; rewrite H in Hdq. by apply Qlt_irrefl in Hdq.
  - right. apply Z.eqb_neq in E. set (q := n / d) in *. cbn [coef dexp].
    set (w := if q mod 5 =? 0 then q + 1 else q).
    assert (Hw : (w = q \/ w = q + 1) /\ w mod 10 <> 0).
    { unfold w. destruct (q mod 5 =? 0) eqn:E5; [apply Z.eqb_eq in E5|apply Z.eqb_neq in E5];
        (split; [lia|]); intros H; apply Z.mod_divide in H as [k H]; try lia;
        [|apply E5; rewrite H; replace (k * 10) with ((2 * k) * 5) by lia; apply Z.mod_mul; lia].
      apply Z.mod_divide in E5 as [j E5]; lia. }
    assert (Hscale : forall m, ((inject_Z m * p10 u < inject_Z (s * n) / inject_Z d * p10 u)%Q
        <-> m * d < s * n) /\
        ((inject_Z (s * n) / inject_Z d * p10 u < inject_Z m * p10 u)%Q <-> s * n < m * d)).
    { intros m. pose proof (p10_pos u). rewrite !Qmult_lt_r by done.
      rewrite (Zlt_Qlt (m * d)), (Zlt_Qlt _ (m * d)), inject_Z_mult. split.
      - rewrite <- (Qmult_lt_r (inject_Z m) _ (inject_Z d)) by done.
        rewrite <- (Qmult_div_r (inject_Z (s * n)) (inject_Z d)) at 2.
        2: { intros H'; rewrite H' in Hdq. by apply Qlt_irrefl in Hdq. }
        by rewrite (Qmult_comm (inject_Z d)).
      - rewrite <- (Qmult_lt_r _ (inject_Z m) (inject_Z d)) by done.
        rewrite <- (Qmult_div_r (inject_Z (s * n)) (inject_Z d)) at 2.
        2: { intros H'; rewrite H' in Hdq. by apply Qlt_irrefl in Hdq. }
        by rewrite (Qmult_comm (inject_Z d)). }
    destruct Hw as [Hw Hw10]. destruct sgn_sq as [Hs|Hs].
    + exists q. split; [done|].
      split; [rewrite Hx; apply (proj1 (Hscale q)); rewrite Hs; lia|].
      split; [rewrite Hx; apply (proj2 (Hscale (q + 1))); rewrite Hs; lia|].
      rewrite Hs, Z.mul_1_l. split; [lia|]. split; [done|]. lia.
    + exists (- q - 1). split; [done|].
      split; [rewrite Hx; apply (proj1 (Hscale (- q - 1))); rewrite Hs; lia|].
      split; [rewrite Hx; apply (proj2 (Hscale (- q - 1 + 1))); rewrite Hs; lia|].
      rewrite Hs. split; [lia|]. split; [|lia].
      intros H. apply Z.mod_divide in H as [k H]; [|lia]. apply Hw10.
      replace w with ((- k) * 10) by lia. apply Z.mod_mul. lia.
Qed.
End division.

Lemma Qdiv_0_l x : 0 / x == 0.
Proof. unfold Qdiv. ring. Qed.

Lemma ddiv_nz c a b r : ddiv c a b = Ok r -> coef b <> 0.
Proof. unfold ddiv. destruct (coef b =? 0) eqn:E; [done|]. by apply Z.eqb_neq in E. Qed.

Lemma ddiv_le c a b r y : context_ok c -> ddiv c a b = Ok r -> repr c y ->
  (dval a / dval b <= y)%Q -> (dval r <= y)%Q.
Proof.
  intros Hc E Hy Hle. pose proof (ddiv_nz _ _ _ _ E) as Hb. unfold ddiv in E.
  rewrite (proj2 (Z.eqb_neq _ _) Hb) in E. destruct (coef a =? 0) eqn:Ea.
  - apply Z.eqb_eq in Ea. eapply dfix_le; [done..|].
    rewrite (dval_zero a Ea), Qdiv_0_l in Hle. by rewrite dval_zero.
  - apply Z.eqb_neq in Ea. eapply dfix_le; [done..|].
    destruct (ddiv_raw_spec c Hc a b Ea Hb) as [->|(lo & Hu & Hlo & Hhi & Hw & _ & Hbig)]; [done|].
    eapply Qle_trans; [|by eapply (sticky_le c lo)]. unfold dval. rewrite Hu.
    apply scaled_le. lia.
Qed.

Lemma ddiv_ge c a b r y : context_ok c -> ddiv c a b = Ok r -> repr c y ->
  (y <= dval a / dval b)%Q -> (y <= dval r)%Q.
Proof.
  intros Hc E Hy Hle. pose proof (ddiv_nz _ _ _ _ E) as Hb. unfold ddiv in E.
  rewrite (proj2 (Z.eqb_neq _ _) Hb) in E. destruct (coef a =? 0) eqn:Ea.
  - apply Z.eqb_eq in Ea. eapply dfix_ge; [done..|].
    rewrite (dval_zero a Ea), Qdiv_0_l in Hle. by rewrite dval_zero.
  - apply Z.eqb_neq in Ea. eapply dfix_ge; [done..|].
    destruct (ddiv_raw_spec c Hc a b Ea Hb) as [->|(lo & Hu & Hlo & Hhi & Hw & _ & Hbig)]; [done|].
    eapply Qle_trans; [by eapply (sticky_ge c lo)|]. unfold dval. rewrite Hu.
    apply scaled_le. lia.
Qed.

(** A truncated quotient with its sticky digit never fits the precision, so a context
    that traps [Inexact] returns exact quotients only. *)
Lemma not_repr_sticky c w u : context_ok c -> 10 ^ prec c <= Z.abs w -> w mod 10 <> 0 ->
  ~ repr c (inject_Z w * p10 u).
Proof.
  intros Hc Hw H10 (m & e & E & Hm & _). destruct Hc.
  assert (Hp : 10 ^ prec c = 10 * 10 ^ (prec c - 1)).
  { rewrite <- Z.pow_succ_r by lia. f_equal. lia. }
  assert (Hdiv : forall k j, w = j * 10 ^ Z.succ k -> 0 <= k -> False).
  { intros k j -> Hk. apply H10. rewrite Z.pow_succ_r by done.
    replace (j * (10 * 10 ^ k)) with (j * 10 ^ k * 10) by lia. apply Z.mod_mul. lia. }
  destruct (Z.lt_trichotomy e u) as [H|[->|H]].
  - rewrite (p10_split e u), Qmult_assoc, <- inject_Z_mult in E by lia.
    apply scaled_eq in E. replace (u - e) with (Z.succ (u - e - 1)) in E by lia.
    rewrite Z.pow_succ_r in E by lia. pose proof (pow10_pos (u - e - 1)).
    pose proof (pow10_pos (prec c)). nia.
  - apply scaled_eq in E. subst m. assert (Hw' : Z.abs w = 10 ^ Z.succ (prec c - 1)).
    { replace (Z.succ (prec c - 1)) with (prec c) by lia. lia. }
    apply (Hdiv (prec c - 1) (Z.sgn w)); [|lia]. rewrite <- Hw'. lia.
  - rewrite (p10_split u e), Qmult_assoc, <- inject_Z_mult in E by lia.
    apply scaled_eq in E. apply (Hdiv (e - u - 1) m); [|lia]. rewrite E. do 2 f_equal. lia.
Qed.

Lemma ddiv_exact c a b r : context_ok c -> trap_inexact c = true -> ddiv c a b = Ok r ->
  dval r == dval a / dval b.
Proof.
  intros Hc Ht E. pose proof (ddiv_nz _ _ _ _ E) as Hb. unfold ddiv in E.
  rewrite (proj2 (Z.eqb_neq _ _) Hb) in E. destruct (coef a =? 0) eqn:Ea.
  - apply Z.eqb_eq in Ea. rewrite (dfix_exact _ _ _ Hc Ht E), (dval_zero a Ea), Qdiv_0_l.
    by apply dval_zero.
  - apply Z.eqb_neq in Ea.
    destruct (ddiv_raw_spec c Hc a b Ea Hb) as [<-|(lo & Hu & Hlo & Hhi & Hw & H10 & Hbig)].
    { by eapply dfix_exact. }
    exfalso. apply (not_repr_sticky c (coef (ddiv_raw c a b)) (dexp (ddiv_raw c a b)) Hc);
      [lia|done|].
    destruct (dfix_inv _ _ _ Hc E) as [[_ H]|(Hn & He & _ & Hx)]; [done|]. specialize (Hx Ht).
    exfalso. apply H10. rewrite <- Hx.
    replace (fix_exp _ _ - _) with (Z.succ (fix_exp c (ddiv_raw c a b) - dexp (ddiv_raw c a b) - 1))
      by lia.
    rewrite Z.pow_succ_r by lia. rewrite (Z.mul_comm 10), Z.mul_assoc. apply Z.mod_mul. lia.
Qed.

(** ** [quantize] *)

(** Rounding to an exponent does not cross a multiple of that power of ten. *)
Lemma scaled_down a e m : dexp a <= e -> (dval a <= inject_Z m * p10 e)%Q <->
  coef a <= m * 10 ^ (e - dexp a).
Proof.
  intros H. unfold dval.
  by rewrite (p10_split (dexp a) e), Qmult_assoc, <- inject_Z_mult, scaled_le by lia.
Qed.
Lemma scaled_up a e m : dexp a <= e -> (inject_Z m * p10 e <= dval a)%Q <->
  m * 10 ^ (e - dexp a) <= coef a.
Proof.
  intros H. unfold dval.
  by rewrite (p10_split (dexp a) e), Qmult_assoc, <- inject_Z_mult, scaled_le by lia.
Qed.

Lemma rescale_le a e m :
  (dval a <= inject_Z m * p10 e)%Q -> (dval (rescale a e) <= inject_Z m * p10 e)%Q.
Proof.
  unfold rescale. destruct (coef a =? 0) eqn:E0; bool_inv.
  { rewrite (dval_zero a E0), dval_zero by done. done. }
  destruct (e <=? dexp a) eqn:E; bool_inv.
  - unfold dval; cbn [coef dexp]. by rewrite (p10_split e (dexp a)), Qmult_assoc, <- inject_Z_mult by lia.
  - rewrite scaled_down by lia. intros H. unfold dval; cbn [coef dexp].
    apply scaled_le, rhe_div_le; [apply pow10_pos; lia|done].
Qed.
Lemma rescale_ge a e m :
  (inject_Z m * p10 e <= dval a)%Q -> (inject_Z m * p10 e <= dval (rescale a e))%Q.
Proof.
  unfold rescale. destruct (coef a =? 0) eqn:E0; bool_inv.
  { rewrite (dval_zero a E0), dval_zero by done. done. }
  destruct (e <=? dexp a) eqn:E; bool_inv.
  - unfold dval; cbn [coef dexp]. by rewrite (p10_split e (dexp a)), Qmult_assoc, <- inject_Z_mult by lia.
  - rewrite scaled_up by lia. intros H. unfold dval; cbn [coef dexp].
    apply scaled_le, rhe_div_ge; [apply pow10_pos; lia|done].
Qed.

Lemma quantize_inv c a e r : quantize c a e = Ok r -> etiny c <= e /\ dfix c (rescale a e) = Ok r.
Proof.
  unfold quantize. intros E. destruct (negb _) eqn:E1; [done|].
  apply negb_false, andb_true in E1 as [E1 _]. split; [by apply Z.leb_le|].
  unfold rescale in *. destruct (coef a =? 0); [done|]. destruct (_ || _); [done|].
  cbv zeta in E. destruct (_ || _); [done|]. by destruct (_ && _).
Qed.

Lemma quantize_le c a e r m : context_ok c -> quantize c a e = Ok r -> Z.abs m <= 10 ^ prec c ->
  (dval a <= inject_Z m * p10 e)%Q -> (dval r <= inject_Z m * p10 e)%Q.
Proof.
  intros Hc E Hm Hle. apply quantize_inv in E as [He E].
  eapply dfix_le; [done..| |by apply rescale_le]. by exists m, e.
Qed.
Lemma quantize_ge c a e r m : context_ok c -> quantize c a e = Ok r -> Z.abs m <= 10 ^ prec c ->
  (inject_Z m * p10 e <= dval a)%Q -> (inject_Z m * p10 e <= dval r)%Q.
Proof.
  intros Hc E Hm Hle. apply quantize_inv in E as [He E].
  eapply dfix_ge; [done..| |by apply rescale_ge]. by exists m, e.
Qed.

(** ** Failures *)

Definition decimal_error (e : exn) : Prop := exists sig, e = DecimalException sig.

Lemma dfix_error c d e : dfix c d = Err e -> decimal_error e.
Proof.
  unfold dfix, decimal_error. intros E. repeat case_match; naive_solver.
Qed.
Lemma ddiv_error c a b e : ddiv c a b = Err e -> decimal_error e.
Proof.
  unfold ddiv. intros E. repeat case_match; simplify_eq; try (by eexists); by eapply dfix_error.
Qed.
Lemma quantize_error c a k e : quantize c a k = Err e -> decimal_error e.
Proof.
  unfold quantize. intros E. repeat case_match; simplify_eq; try (by eexists); by eapply dfix_error.
Qed.

(** The operations as specifications: in an exact context they return the exact value
    or signal. *)
Section wp_exact.
Context (E : exn -> Prop) (HE : forall e, decimal_error e -> E e).
Context (c : context) (Hc : context_ok c) (Ht : trap_inexact c = true).

Lemma wp_dfix d : wp E (dfix c d) (fun r => dval r == dval d).
Proof.
  destruct (dfix c d) eqn:Ed; cbn; [by eapply dfix_exact|]. by eapply HE, dfix_error.
Qed.
Lemma wp_dadd a b : wp E (dadd c a b) (fun r => dval r == dval a + dval b).
Proof. eapply wp_mono; [apply wp_dfix|]. intros r Er _. by eapply dadd_exact. Qed.
Lemma wp_dsub a b : wp E (dsub c a b) (fun r => dval r == dval a - dval b).
Proof. eapply wp_mono; [apply wp_dfix|]. intros r Er _. by eapply dsub_exact. Qed.
Lemma wp_dmul a b : wp E (dmul c a b) (fun r => dval r == dval a * dval b).
Proof. eapply wp_mono; [apply wp_dfix|]. intros r Er _. by eapply dmul_exact. Qed.
Lemma wp_ddiv a b : wp E (ddiv c a b) (fun r => dval r == dval a / dval b).
Proof.
  destruct (ddiv c a b) eqn:Ed; cbn; [by eapply ddiv_exact|]. by eapply HE, ddiv_error.
Qed.
Lemma wp_dabs a : wp E (dabs c a) (fun r => dval r == Qabs (dval a)).
Proof.
  eapply wp_mono; [apply wp_dfix|]. intros r _ ->. unfold dval; cbn [coef dexp].
  rewrite Qabs_Qmult, (Qabs_pos (p10 _)) by (apply Qlt_le_weak, p10_pos). reflexivity.
Qed.
Lemma wp_dsum l : wp E (dsum c l) (fun r => dval r == foldr Qplus 0%Q (dval <$> l)).
Proof.
  destruct (dsum c l) eqn:Ed; cbn; [by eapply dsum_exact|]. apply HE.
  revert Ed. unfold dsum. generalize d0. induction l as [|x l IH]; intros d; cbn; [done|].
  intros [Ed|(d' & _ & Ed)]%bind_Err; [by eapply dfix_error|by eapply IH].
Qed.
End wp_exact.

Lemma mk_context_ok p b : 0 < p < 300000 -> context_ok (mk_context p b).
Proof. intros H. split; unfold etiny, etop; cbn; lia. Qed.

(** ** Rounded operations *)

(** The operations of a rounding context, as specifications: they return what they
    return, or signal; the bounds above say the rest. *)
Section wp_round.
Context (E : exn -> Prop) (HE : forall e, decimal_error e -> E e) (c : context).

Lemma wp_dadd_any a b : wp E (dadd c a b) (fun _ => True).
Proof. destruct (dadd c a b) eqn:H; [done|]. by eapply HE, dfix_error. Qed.
Lemma wp_dsub_any a b : wp E (dsub c a b) (fun _ => True).
Proof. destruct (dsub c a b) eqn:H; [done|]. by eapply HE, dfix_error. Qed.
Lemma wp_dmul_any a b : wp E (dmul c a b) (fun _ => True).
Proof. destruct (dmul c a b) eqn:H; [done|]. by eapply HE, dfix_error. Qed.
Lemma wp_ddiv_any a b : wp E (ddiv c a b) (fun _ => True).
Proof. destruct (ddiv c a b) eqn:H; [done|]. by eapply HE, ddiv_error. Qed.
Lemma wp_dneg_any a : wp E (dneg c a) (fun _ => True).
Proof. destruct (dneg c a) eqn:H; [done|]. by eapply HE, dfix_error. Qed.
Lemma wp_dplus_any a : wp E (dplus c a) (fun _ => True).
Proof. destruct (dplus c a) eqn:H; [done|]. by eapply HE, dfix_error. Qed.
Lemma wp_dsum_any l : wp E (dsum c l) (fun _ => True).
Proof.
  unfold dsum. generalize d0. induction l as [|x l IH]; intros s; cbn [foldR]; [done|].
  eapply wp_bind; [apply wp_dadd_any|]. auto.
Qed.
End wp_round.

Section signs.
Context (c : context) (Hc : context_ok c).

Lemma dadd_nonneg a b r : dadd c a b = Ok r -> (0 <= dval a)%Q -> (0 <= dval b)%Q -> (0 <= dval r)%Q.
Proof. intros E Ha Hb. eapply dadd_ge; [done|by apply repr_0|done|]. lra. Qed.
Lemma dmul_nonneg a b r : dmul c a b = Ok r -> (0 <= dval a)%Q -> (0 <= dval b)%Q -> (0 <= dval r)%Q.
Proof. intros E Ha Hb. eapply dmul_ge; [done|by apply repr_0|done|]. nra. Qed.
Lemma ddiv_nonneg a b r : ddiv c a b = Ok r -> (0 <= dval a)%Q -> (0 <= dval b)%Q -> (0 <= dval r)%Q.
Proof.
  intros E Ha Hb. eapply ddiv_ge; [done|done|by apply repr_0|].
  unfold Qdiv. apply Qmult_le_0_compat; [done|]. by apply Qinv_le_0_compat.
Qed.
Lemma dsum_nonneg l s r : foldR (dadd c) s l = Ok r -> (0 <= dval s)%Q ->
  Forall (fun x => 0 <= dval x)%Q l -> (0 <= dval r)%Q.
Proof.
  revert s. induction l as [|x l IH]; intros s E Hs Hl; cbn [foldR] in E; [by injection E as <-|].
  apply Forall_cons in Hl as [Hx Hl]. apply bind_Ok in E as (s1 & E1 & E). eapply IH; [done| |done].
  by eapply dadd_nonneg.
Qed.
Lemma dneg_val_bounds a r y : dneg c a = Ok r -> repr c y -> (y <= - dval a)%Q -> (y <= dval r)%Q.
Proof. intros E Hy H. eapply dfix_ge; [done|done|done|]. by rewrite dneg_raw_val. Qed.
End signs.
