(* ===== verification/Text.v ===== *)
(** * Strings, SHA-256 and time

    The parts of Python's [str], [hashlib] and [datetime] that the engine uses:
    printing of integers, character classes of its validation patterns, the SHA-256
    digest of a text, UTC instants and the NSE clock.

    A [datetime] is an aware UTC instant, in microseconds since 1970-01-01T00:00Z; a
    [date] is the number of days since 1970-01-01; a [time] is the number of
    microseconds since midnight.  [ZoneInfo("Asia/Kolkata")] is UTC+05:30 for every
    instant since 1945-10-15 (the engine's bars lie between 1990 and 2100). *)
From S2P Require Import Prelude.
From Stdlib Require Import Ascii.

Open Scope list_scope.
Open Scope Z_scope.

(** ** Characters *)

Definition code (c : ascii) : Z := Z.of_N (N_of_ascii c).
Definition in_range (lo hi : Z) (c : ascii) : bool := (lo <=? code c) && (code c <=? hi).
Definition is_digit : ascii -> bool := in_range 48 57.
Definition is_upper : ascii -> bool := in_range 65 90.
Definition is_lower : ascii -> bool := in_range 97 122.
Definition is_hex (c : ascii) : bool := is_digit c || in_range 97 102 c.
Definition is_char (n : Z) (c : ascii) : bool := code c =? n.
(** One of the punctuation characters [_.-]. *)
Definition is_punct (c : ascii) : bool := is_char 95 c || is_char 46 c || is_char 45 c.

Definition all_chars (p : ascii -> bool) (s : string) : bool := forallb p (String.list_ascii_of_string s).
Definition len (s : string) : Z := Z.of_nat (Stdlib.Strings.String.length s).

(** ** Integers as text *)

Definition digit_char (d : Z) : ascii := ascii_of_N (Z.to_N (48 + d)).
Fixpoint digits_loop (fuel : nat) (n : Z) (acc : string) : string :=
  match fuel with
  | O => acc
  | S fuel => let acc := String (digit_char (n mod 10)) acc in
              if n / 10 =? 0 then acc else digits_loop fuel (n / 10) acc
  end.
(** [str(n)] of a natural number, and of an integer. *)
Definition nat_text (n : Z) : string := digits_loop (Z.to_nat (Z.log2 n) + 1) n EmptyString.
Definition int_text (n : Z) : string :=
  if n <? 0 then String "-" (nat_text (- n)) else nat_text n.

Fixpoint pad_digits (width : nat) (n : Z) : string :=
  match width with
  | O => EmptyString
  | S w => String (digit_char ((n / 10 ^ Z.of_nat w) mod 10)) (pad_digits w n)
  end.

(** ** SHA-256 *)

Module Sha256.
Definition mask : Z := 4294967295.
Definition add32 (a b : Z) : Z := Z.land (a + b) mask.
Definition rotr (n x : Z) : Z :=
  Z.lor (Z.shiftr x n) (Z.land (Z.shiftl x (32 - n)) mask).

(** The constants: the first 32 bits of the fractional parts of the cube roots (square
    roots) of the first primes. *)
Definition is_prime (n : Z) : bool :=
  forallb (fun d => negb (n mod d =? 0)) (seqZ 2 (n - 2)).
Definition primes : list Z := List.filter is_prime (seqZ 2 310).
Definition cube_root (n : Z) : Z :=
  foldl (fun r b => let x := r + 2 ^ b in if x * x * x <=? n then x else r) 0 (rev (seqZ 0 36)).
Definition k_table : list Z :=
  Eval vm_compute in (fun p => Z.land (cube_root (p * 2 ^ 96)) mask) <$> primes.
Definition h_init : list Z :=
  Eval vm_compute in (fun p => Z.land (Z.sqrt (p * 2 ^ 64)) mask) <$> take 8 primes.

Definition zeros (n : Z) : list Z := repeat 0 (Z.to_nat n).
Definition pad (msg : list Z) : list Z :=
  let l := Z.of_nat (length msg) in
  msg ++ [128] ++ zeros ((55 - l) mod 64) ++
  ((fun i => Z.land (Z.shiftr (8 * l) (8 * i)) 255) <$> [7; 6; 5; 4; 3; 2; 1; 0]).

Fixpoint words (bytes : list Z) : list Z :=
  match bytes with
  | a :: b :: c :: d :: bytes => (a * 16777216 + b * 65536 + c * 256 + d) :: words bytes
  | _ => []
  end.

(** Message schedule, most recent word first. *)
Fixpoint schedule (fuel : nat) (w : list Z) : list Z :=
  match fuel with
  | O => w
  | S fuel =>
      let x := nth 14 w 0 in let y := nth 1 w 0 in
      let s0 := Z.lxor (Z.lxor (rotr 7 x) (rotr 18 x)) (Z.shiftr x 3) in
      let s1 := Z.lxor (Z.lxor (rotr 17 y) (rotr 19 y)) (Z.shiftr y 10) in
      schedule fuel (Z.land (nth 15 w 0 + s0 + nth 6 w 0 + s1) mask :: w)
  end.

Fixpoint rounds (ks ws : list Z) (a b c d e f g h : Z) : list Z :=
  match ks, ws with
  | k :: ks, w :: ws =>
      let s1 := Z.lxor (Z.lxor (rotr 6 e) (rotr 11 e)) (rotr 25 e) in
      let ch := Z.lxor (Z.land e f) (Z.land (Z.lxor e mask) g) in
      let t1 := h + s1 + ch + k + w in
      let s0 := Z.lxor (Z.lxor (rotr 2 a) (rotr 13 a)) (rotr 22 a) in
      let maj := Z.lxor (Z.lxor (Z.land a b) (Z.land a c)) (Z.land b c) in
      rounds ks ws (Z.land (t1 + s0 + maj) mask) a b c (Z.land (d + t1) mask) e f g
  | _, _ => [a; b; c; d; e; f; g; h]
  end.

Definition block (hs : list Z) (ws : list Z) : list Z :=
  match hs with
  | [a; b; c; d; e; f; g; h] =>
      zip_with add32 hs (rounds k_table (rev (schedule 48 (rev ws))) a b c d e f g h)
  | _ => hs
  end.
Fixpoint blocks (fuel : nat) (hs ws : list Z) : list Z :=
  match fuel with
  | O => hs
  | S fuel => blocks fuel (block hs (take 16 ws)) (drop 16 ws)
  end.

Definition hex_digit (d : Z) : ascii :=
  ascii_of_N (Z.to_N (if d <? 10 then 48 + d else 87 + d)).
Fixpoint hex_word (n : nat) (w : Z) (rest : string) : string :=
  match n with
  | O => rest
  | S n => hex_word n (Z.shiftr w 4) (String (hex_digit (Z.land w 15)) rest)
  end.
Definition hexdigest (s : string) : string :=
  let ws := words (pad (code <$> String.list_ascii_of_string s)) in
  foldr (hex_word 8) EmptyString (blocks (length ws / 16) h_init ws).

Example hexdigest_abc :
  hexdigest "abc" = "ba7816bf8f01cfea414140de5dae2223b00361a396177a9cb410ff61f20015ad"%string.
Proof. vm_compute. reflexivity. Qed.
Example hexdigest_two_blocks :
  hexdigest "abcdbcdecdefdefgefghfghighijhijkijkljklmklmnlmnomnopnopq"
  = "248d6a61d20638b8e5c026930c3e6039a33ce45964ff2167f6ecedd419db06c1"%string.
Proof. vm_compute. reflexivity. Qed.
End Sha256.

(** ** Dates, times and the NSE clock *)

Definition SECOND : Z := 1000000.
Definition MINUTE : Z := 60 * SECOND.
Definition HOUR : Z := 60 * MINUTE.
Definition DAY : Z := 24 * HOUR.
Definition NSE_OFFSET : Z := 5 * HOUR + 30 * MINUTE.

Definition nse_date (t : Z) : Z := (t + NSE_OFFSET) / DAY.
Definition nse_time (t : Z) : Z := (t + NSE_OFFSET) mod DAY.
(** [datetime.combine(d, tm, NSE).astimezone(UTC)] *)
Definition nse_combine (d tm : Z) : Z := d * DAY + tm - NSE_OFFSET.

Lemma nse_date_combine d tm : 0 <= tm < DAY -> nse_date (nse_combine d tm) = d.
Proof.
  intros H. unfold nse_date, nse_combine. replace (_ - _ + _) with (tm + d * DAY) by lia.
  rewrite Z.div_add, Z.div_small by (unfold DAY, HOUR, MINUTE, SECOND in *; lia). lia.
Qed.
Lemma nse_time_combine d tm : 0 <= tm < DAY -> nse_time (nse_combine d tm) = tm.
Proof.
  intros H. unfold nse_time, nse_combine. replace (_ - _ + _) with (tm + d * DAY) by lia.
  rewrite Z.mod_add, Z.mod_small by (unfold DAY, HOUR, MINUTE, SECOND in *; lia). lia.
Qed.

Lemma nse_date_mono t t' : t <= t' -> nse_date t <= nse_date t'.
Proof. intros H. unfold nse_date. apply Z.div_le_mono; [done|lia]. Qed.

(** The proleptic Gregorian calendar: (year, month, day) of a day number. *)
Definition civil (days : Z) : Z * Z * Z :=
  let z := days + 719468 in
  let era := z / 146097 in
  let doe := z mod 146097 in
  let yoe := (doe - doe / 1460 + doe / 36524 - doe / 146096) / 365 in
  let doy := doe - (365 * yoe + yoe / 4 - yoe / 100) in
  let mp := (5 * doy + 2) / 153 in
  let day := doy - (153 * mp + 2) / 5 + 1 in
  let month := if mp <? 10 then mp + 3 else mp - 9 in
  (yoe + era * 400 + (if month <=? 2 then 1 else 0), month, day).

Definition utc_year (t : Z) : Z := let '(y, _, _) := civil (t / DAY) in y.

(** [date.isoformat()], [f"{t:%H:%M}"] and [datetime.isoformat()] with [Z] for UTC. *)
Definition date_text (d : Z) : string :=
  let '(y, m, d) := civil d in
  (pad_digits 4 y +:+ "-" +:+ pad_digits 2 m +:+ "-" +:+ pad_digits 2 d)%string.
Definition time_hm_text (tm : Z) : string :=
  (pad_digits 2 (tm / HOUR) +:+ ":" +:+ pad_digits 2 (tm / MINUTE mod 60))%string.
Definition datetime_text (t : Z) : string :=
  let tod := t mod DAY in
  (date_text (t / DAY) +:+ "T" +:+ time_hm_text tod +:+ ":" +:+ pad_digits 2 (tod / SECOND mod 60)%Z
   +:+ (if (tod mod SECOND =? 0)%Z then "" else "." +:+ pad_digits 6 (tod mod SECOND)%Z))%string.

Example datetime_text_sample :
  datetime_text 1790998200000000 = "2026-10-03T03:30:00"%string.
Proof. vm_compute. reflexivity. Qed.

(** The instants [start], [start + step], ... below [stop] ([while at < stop]). *)
Fixpoint grid_loop (fuel : nat) (step start stop : Z) : list Z :=
  match fuel with
  | O => []
  | S fuel => if start <? stop then start :: grid_loop fuel step (start + step) stop else []
  end.
Definition grid (step start stop : Z) : list Z :=
  grid_loop (Z.to_nat ((stop - start + step - 1) / step)) step start stop.

(** The fuel is enough: the loop stops because its condition fails. *)
Lemma grid_loop_fuel fuel step start stop : 0 < step -> stop <= start + Z.of_nat fuel * step ->
  grid_loop (S fuel) step start stop = grid_loop fuel step start stop.
Proof.
  intros Hs. revert start. induction fuel as [|fuel IH]; intros start Hf.
  - cbn [grid_loop]. rewrite (proj2 (Z.ltb_ge start stop)) by lia. done.
  - cbn [grid_loop] in *. destruct (start <? stop) eqn:E; [|done].
    f_equal. apply IH. lia.
Qed.

Lemma grid_fuel_enough step start stop : 0 < step ->
  stop <= start + Z.of_nat (Z.to_nat ((stop - start + step - 1) / step)) * step.
Proof.
  intros Hs. pose proof (Z.div_mod (stop - start + step - 1) step ltac:(lia)).
  pose proof (Z.mod_pos_bound (stop - start + step - 1) step Hs). nia.
Qed.

(** The equation of the loop. *)
Lemma grid_unfold step start stop : 0 < step ->
  grid step start stop = if start <? stop then start :: grid step (start + step) stop else [].
Proof.
  intros Hs. pose proof (grid_fuel_enough step start stop Hs) as Hf. unfold grid at 1.
  rewrite <- grid_loop_fuel by done. cbn [grid_loop]. destruct (start <? stop) eqn:E; [|done].
  f_equal. unfold grid. bool_inv.
  assert (Hq : 0 <= (stop - (start + step) + step - 1) / step) by (apply Z.div_pos; lia).
  replace (stop - start + step - 1) with (stop - (start + step) + step - 1 + 1 * step) in * by lia.
  rewrite Z.div_add in * by lia.
  rewrite Z2Nat.inj_add, Nat.add_1_r in * by lia. apply grid_loop_fuel; [done|]. lia.
Qed.

(** One more step of a grid. *)
Lemma grid_snoc step start t : 0 < step -> start <= t -> (t - start) mod step = 0 ->
  grid step start (t + step) = grid step start t ++ [t].
Proof.
  intros Hs Ht [k Hk]%Z.mod_divide; [|lia]. assert (Hk0 : 0 <= k) by nia. assert (t = start + k * step) as -> by lia. clear Ht Hk.
  revert start. pattern k. apply natlike_ind; [| |done]; clear k Hk0.
  - intros start. rewrite (grid_unfold step start (start + 0 * step + step)), (grid_unfold step start (start + 0 * step)), (grid_unfold step (start + step)) by done.
    rewrite (proj2 (Z.ltb_lt _ _)), !(proj2 (Z.ltb_ge _ _)) by lia. cbn. f_equal. lia.
  - intros k Hk IH start. rewrite (grid_unfold step start (start + Z.succ k * step + step)), (grid_unfold step start (start + Z.succ k * step)) by done.
    rewrite !(proj2 (Z.ltb_lt _ _)) by nia. cbn [app]. f_equal. specialize (IH (start + step)).
    replace (start + step + k * step) with (start + Z.succ k * step) in IH by lia. exact IH.
Qed.
Lemma grid_elem step start stop t : 0 < step ->
  t ∈ grid step start stop <-> start <= t < stop /\ (t - start) mod step = 0.
Proof.
  intros Hs. unfold grid. pose proof (grid_fuel_enough step start stop Hs) as Hf.
  generalize dependent (Z.to_nat ((stop - start + step - 1) / step)).
  intros fuel. revert start. induction fuel as [|fuel IH]; intros start Hf; cbn [grid_loop].
  { split; [by intros ?%elem_of_nil|]. lia. }
  destruct (start <? stop) eqn:E; bool_inv.
  - rewrite elem_of_cons, IH by lia. split.
    + intros [->|[Ht Hm]]; [rewrite Z.sub_diag, Z.mod_0_l by lia; lia|]. split; [lia|].
      replace (t - start) with (t - (start + step) + 1 * step) by lia. by rewrite Z.mod_add by lia.
    + intros [Ht Hm]. destruct (Z.eq_dec t start) as [->|Hne]; [by left|right].
      apply Z.mod_divide in Hm as [k Hm]; [|lia]. assert (1 <= k) by nia. split; [nia|].
      replace (t - (start + step)) with ((k - 1) * step) by lia. apply Z.mod_mul. lia.
  - split; [by intros ?%elem_of_nil|]. lia.
Qed.
