(* ===== verification/Dataset.v ===== *)
(** * Research datasets ([backtest/dataset.py])

    The immutable minute dataset a backtest runs on: bars, trading calendar,
    provenance, and their validators.  A validator is a function of the record to the
    validated record (prices re-parsed to their canonical decimal) or to the error of
    the first failing check; fields whose type is a one-value [Literal] carry no
    information and are left out. *)
From S2P Require Import Prelude Decimal DecimalFacts Text.
From stdpp Require Import sorting.
From Stdlib Require Import Ascii.

Open Scope list_scope.
Open Scope Z_scope.

(** ** Decimal texts *)

Definition strip_fraction (d : dec) : dec :=
  strip_zeros (Z.to_nat (- dexp d)) (coef d) (dexp d) 0.

(** [format(value, "f")] without the trailing zeros of a fraction. *)
Definition decimal_text (value : dec) : string :=
  let d := strip_fraction value in
  let n := Z.abs (coef d) in
  ((if (coef d <? 0)%Z then "-" else "") +:+
   (if (0 <=? dexp d)%Z then nat_text (n * 10 ^ dexp d)
    else nat_text (n / 10 ^ (- dexp d)) +:+ "." +:+
         pad_digits (Z.to_nat (- dexp d)) (n mod 10 ^ (- dexp d))))%string.

Definition parse_digits (l : list ascii) : Z :=
  foldl (fun acc c => 10 * acc + (code c - 48)) 0 l.

Fixpoint span (p : ascii -> bool) (l : list ascii) : list ascii * list ascii :=
  match l with
  | c :: l' => if p c then let '(a, b) := span p l' in (c :: a, b) else ([], l)
  | [] => ([], [])
  end.

(** [(?:0|[1-9][0-9]{0,17})] *)
Definition int_pattern (l : list ascii) : bool :=
  match l with
  | [c] => is_digit c
  | c :: l' => in_range 49 57 c && (Z.of_nat (length l') <=? 17)
  | [] => false
  end.

(** The text branch of [parse_decimal]. *)
Definition parse_decimal_text (text : string) : res dec :=
  let '(ip, rest) := span is_digit (String.list_ascii_of_string text) in
  match rest with
  | [] => if int_pattern ip then Ok (dZ (parse_digits ip)) else Err (ValueError "INVALID_DECIMAL")
  | point :: frac =>
      if int_pattern ip && is_char 46 point && forallb is_digit frac &&
         (1 <=? Z.of_nat (length frac)) && (Z.of_nat (length frac) <=? 10)
      then Ok (Dec (parse_digits (ip ++ frac)) (- Z.of_nat (length frac)))
      else Err (ValueError "INVALID_DECIMAL")
  end.

(** [parse_decimal] of a [Decimal]: the type [Money]. *)
Definition parse_decimal (value : dec) : res dec :=
  reject! 17 <? adjusted value as "INVALID_DECIMAL";
  reject! dexp value <? -10 as "INVALID_DECIMAL";
  parse_decimal_text (decimal_text value).

Definition instant_text (t : Z) : string := (datetime_text t +:+ "Z")%string.

(** [parse_time] of a [time]: minute precision. *)
Definition parse_time (t : Z) : res Z :=
  reject! negb (t mod MINUTE =? 0) as "MINUTE_TIME_REQUIRED"; Ok t.

(** ** Field types *)

Definition hash_ok (s : string) : bool := (len s =? 64) && all_chars is_hex s.
Definition label_ok (s : string) : bool :=
  (1 <=? len s) && (len s <=? 80) &&
  all_chars (fun c => is_upper c || is_lower c || is_digit c || is_punct c) s.
Definition symbol_ok (s : string) : bool :=
  (1 <=? len s) && (len s <=? 128) &&
  all_chars (fun c => is_upper c || is_digit c || is_char 38 c || is_punct c) s.
Definition quantity_ok (q : Z) : bool := (1 <=? q) && (q <=? 2147483647).

(** ** Bars *)

Record Bar := mkBar {
  b_start : Z; b_open : dec; b_high : dec; b_low : dec; b_close : dec;
  b_volume : Z; b_interest : option dec
}.

Definition b_end (b : Bar) : Z := b_start b + MINUTE.

Definition bar_valid (b : Bar) : res unit :=
  reject! negb (b_start b mod MINUTE =? 0) ||
          negb ((1990 <=? utc_year (b_start b)) && (utc_year (b_start b) <=? 2100))
    as "INVALID_BAR_TIME";
  require! dltb d0 (b_low b) && dleb (b_low b) (dmin (b_open b) (b_close b)) &&
           dleb (dmin (b_open b) (b_close b)) (dmax (b_open b) (b_close b)) &&
           dleb (dmax (b_open b) (b_close b)) (b_high b)
    else "INVALID_OHLC";
  Ok tt.

Definition parse_optional (o : option dec) : res (option dec) :=
  match o with None => Ok None | Some d => d ← parse_decimal d; Ok (Some d) end.

Definition bar_validate (b : Bar) : res Bar :=
  o ← parse_decimal (b_open b); h ← parse_decimal (b_high b);
  l ← parse_decimal (b_low b); c ← parse_decimal (b_close b);
  require! (0 <=? b_volume b) && (b_volume b <=? 9223372036854775807) else "INVALID_VOLUME";
  i ← parse_optional (b_interest b);
  let b := mkBar (b_start b) o h l c (b_volume b) i in
  _ ← bar_valid b; Ok b.

(** ** Calendars *)

Record Session := mkSession { s_open : Z; s_close : Z }.
Inductive status := EXPECTED_SESSION | NON_TRADING_DAY | UNKNOWN_SESSION.
Record Day := mkDay { d_date : Z; d_status : status; d_sessions : list Session }.
Record Calendar := mkCalendar {
  c_version : string; c_source : string; c_fingerprint : string; c_days : list Day
}.

#[export] Instance session_eq_dec : EqDecision Session.
Proof. solve_decision. Defined.
#[export] Instance status_eq_dec : EqDecision status.
Proof. solve_decision. Defined.
#[export] Instance day_eq_dec : EqDecision Day.
Proof. solve_decision. Defined.

Definition session_validate (s : Session) : res Session :=
  o ← parse_time (s_open s); c ← parse_time (s_close s);
  require! (0 <=? o) && (c <? DAY) else "MINUTE_TIME_REQUIRED";
  reject! c <=? o as "INVALID_SESSION";
  Ok (mkSession o c).

Definition day_validate (d : Day) : res Day :=
  ss ← mapR session_validate (d_sessions d); Ok (mkDay (d_date d) (d_status d) ss).

Definition status_text (s : status) : string :=
  match s with
  | EXPECTED_SESSION => "EXPECTED_SESSION"
  | NON_TRADING_DAY => "NON_TRADING_DAY"
  | UNKNOWN_SESSION => "UNKNOWN_SESSION"
  end.
Definition session_text (s : Session) : string :=
  ("Session[open=" +:+ time_hm_text (s_open s) +:+ ", close=" +:+ time_hm_text (s_close s) +:+ "]")%string.
Definition newline : string := String (ascii_of_N 10) EmptyString.
Definition day_text (d : Day) : string :=
  (date_text (d_date d) +:+ "=Day[status=" +:+ status_text (d_status d) +:+ ", sessions=[" +:+
   String.concat ", " (session_text <$> d_sessions d) +:+ "]]" +:+ newline)%string.
Definition calendar_text (version source : string) (days : list Day) : string :=
  (version +:+ newline +:+ source +:+ newline +:+ String.concat "" (day_text <$> days))%string.

Definition digest (text : string) : string := Sha256.hexdigest text.

Definition is_space (c : ascii) : bool := in_range 9 13 c || in_range 28 32 c.
Definition is_nil {A} (l : list A) : bool := match l with [] => true | _ => false end.
Definition is_expected (d : Day) : bool := bool_decide (d_status d = EXPECTED_SESSION).

Definition calendar_validate (c : Calendar) : res Calendar :=
  require! label_ok (c_version c) && hash_ok (c_fingerprint c) &&
           (1 <=? len (c_source c)) && (len (c_source c) <=? 512) else "INVALID_FIELD";
  days ← mapR day_validate (c_days c);
  reject! all_chars is_space (c_source c) || negb (all_chars (fun ch => 32 <=? code ch) (c_source c))
    as "INVALID_PROVENANCE";
  reject! (32 <? Z.of_nat (length days)) || negb (strictly_sorted (d_date <$> days))
    as "INVALID_CALENDAR_ORDER";
  require! forallb (fun d => Bool.eqb (is_expected d) (negb (is_nil (d_sessions d)))) days
    else "INVALID_CALENDAR";
  require! bool_decide (digest (calendar_text (c_version c) (c_source c) days) = c_fingerprint c)
    else "CALENDAR_FINGERPRINT_MISMATCH";
  Ok (mkCalendar (c_version c) (c_source c) (c_fingerprint c) days).

(** ** Datasets *)

Record Provenance := mkProvenance {
  p_source : string; p_source_version : string;
  p_reference_fingerprint : string; p_calendar_fingerprint : string
}.

Definition provenance_ok (p : Provenance) : bool :=
  label_ok (p_source p) && label_ok (p_source_version p) &&
  hash_ok (p_reference_fingerprint p) && hash_ok (p_calendar_fingerprint p).
Definition provenance_key (p : Provenance) : list string :=
  [p_source p; p_source_version p; p_reference_fingerprint p; p_calendar_fingerprint p].

(** Lexicographic order of tuples of strings. *)
Fixpoint key_ltb (a b : list string) : bool :=
  match a, b with
  | x :: a, y :: b => if bool_decide (x = y) then key_ltb a b else String.ltb x y
  | [], _ :: _ => true
  | _, [] => false
  end.
Fixpoint keys_sorted (l : list (list string)) : bool :=
  match l with
  | x :: (y :: _) as l' => key_ltb x y && keys_sorted l'
  | _ => true
  end.

Definition bar_line (instrument : string) (b : Bar) : string :=
  (String.concat "|"
    ([instrument; "MINUTE"%string; instant_text (b_start b)] ++
     (decimal_text <$> [b_open b; b_high b; b_low b; b_close b]) ++
     [int_text (b_volume b);
      match b_interest b with None => "ABSENT"%string | Some i => decimal_text i end]) +:+ newline)%string.
Definition bar_fingerprint (instrument : string) (bars : list Bar) : string :=
  digest ("historical-bars-v1" +:+ newline +:+ String.concat "" (bar_line instrument <$> bars)).

Record Dataset := mkDataset {
  ds_instrument : string; ds_symbol : string; ds_lot_size : Z;
  ds_from : Z; ds_to : Z; ds_decision_cutoff : Z; ds_dataset_cutoff : Z;
  ds_content_fingerprint : string; ds_calendar : Calendar;
  ds_provenance : list Provenance; ds_bars : list Bar
}.

(** [str(UUID(s)) == s]: the canonical lower-case hyphenated form. *)
Definition uuid_canonical (s : string) : bool :=
  (len s =? 36) &&
  forallb (fun '(i, c) => if bool_decide (i ∈ [8; 13; 18; 23]%nat) then is_char 45 c else is_hex c)
    (zip (seq 0 36) (String.list_ascii_of_string s)).

(** [{d.date: d for d in days}] *)
Definition days_by_date (days : list Day) : gmap Z Day :=
  foldl (fun m d => <[d_date d := d]> m) ∅ days.

(** The minute slots of a session on a date. *)
Definition session_slots (date : Z) (s : Session) : list Z :=
  grid MINUTE (nse_combine date (s_open s)) (nse_combine date (s_close s)).

(** One iteration of the calendar walk of [Dataset.valid]. *)
Definition expected_of_date (days : gmap Z Day) (from to : Z) (expected : list Z) (cursor : Z)
    : res (list Z) :=
  match days !! cursor with
  | None => Err (ValueError "UNKNOWN_SESSION")
  | Some day =>
      match d_status day, d_sessions day with
      | UNKNOWN_SESSION, _ => Err (ValueError "UNKNOWN_SESSION")
      | NON_TRADING_DAY, _ => Ok expected
      | EXPECTED_SESSION, [session] =>
          reject! (nse_combine cursor (s_open session) <? from) ||
                  (to <? nse_combine cursor (s_close session)) as "PARTIAL_SESSION_UNSUPPORTED";
          Ok (expected ++ session_slots cursor session)
      | EXPECTED_SESSION, _ => Err (ValueError "SPLIT_SESSION_UNSUPPORTED")
      end
  end.
Definition expected_slots (days : gmap Z Day) (from to : Z) : res (list Z) :=
  let first := nse_date from in
  let last := nse_date (to - 1) in
  foldR (expected_of_date days from to) [] (seqZ first (last - first + 1)).

Definition dataset_valid (d : Dataset) : res unit :=
  require! uuid_canonical (ds_instrument d) else "INVALID_INSTRUMENT_ID";
  require! (0 <? ds_to d - ds_from d) && (ds_to d - ds_from d <=? 31 * DAY) else "INVALID_WINDOW";
  require! (ds_from d mod MINUTE =? 0) && (ds_to d mod MINUTE =? 0) else "INVALID_WINDOW_ALIGNMENT";
  reject! (ds_decision_cutoff d <? ds_to d) || is_nil (ds_provenance d) as "INCOMPLETE_DATASET";
  reject! (44640 <? Z.of_nat (length (ds_bars d))) || is_nil (ds_bars d) as "INVALID_DATASET_SIZE";
  reject! (44640 <? Z.of_nat (length (ds_provenance d))) ||
          existsb (fun p => negb (bool_decide (p_calendar_fingerprint p = c_fingerprint (ds_calendar d))))
            (ds_provenance d) as "PROVENANCE_CALENDAR_MISMATCH";
  require! keys_sorted (provenance_key <$> ds_provenance d) else "PROVENANCE_MUST_BE_UNIQUE_AND_SORTED";
  require! bool_decide (bar_fingerprint (ds_instrument d) (ds_bars d) = ds_content_fingerprint d)
    else "DATASET_FINGERPRINT_MISMATCH";
  expected ← expected_slots (days_by_date (c_days (ds_calendar d))) (ds_from d) (ds_to d);
  require! bool_decide (expected = b_start <$> ds_bars d) else "INCOMPLETE_OR_UNORDERED_SESSION";
  Ok tt.

Definition dataset_validate (d : Dataset) : res Dataset :=
  require! symbol_ok (ds_symbol d) && quantity_ok (ds_lot_size d) && hash_ok (ds_content_fingerprint d) &&
           forallb provenance_ok (ds_provenance d) else "INVALID_FIELD";
  cal ← calendar_validate (ds_calendar d);
  bars ← mapR bar_validate (ds_bars d);
  let d := mkDataset (ds_instrument d) (ds_symbol d) (ds_lot_size d) (ds_from d) (ds_to d)
             (ds_decision_cutoff d) (ds_dataset_cutoff d) (ds_content_fingerprint d) cal
             (ds_provenance d) bars in
  _ ← dataset_valid d; Ok d.
