(* ===== verification/MoneyFacts.v ===== *)
(** * Decimal texts and the [Money] parser: round trip

    [parse_decimal] prints a decimal and parses the text back; the lemmas show that the
    composition keeps the value, yields a canonical non-negative decimal, and is
    idempotent. *)
From S2P Require Import Prelude Decimal DecimalFacts Text Dataset.
From Stdlib Require Import Ascii.

Open Scope list_scope.
Open Scope Z_scope.

(** ** Digits *)

Lemma code_digit_char d : 0 <= d < 10 -> code (digit_char d) = 48 + d.
Proof.
  intros H. assert (d = 0 \/ d = 1 \/ d = 2 \/ d = 3 \/ d = 4 \/ d = 5 \/ d = 6 \/ d = 7 \/ d = 8 \/ d = 9)
    as Hd by lia.
  repeat destruct Hd as [->|Hd]; try reflexivity. by subst.
Qed.

Lemma is_digit_char d : 0 <= d < 10 -> is_digit (digit_char d) = true.
Proof. intros H. unfold is_digit, in_range. rewrite code_digit_char by done. apply andb_true. bool_inv. lia. Qed.

Lemma is_digit_code c : is_digit c = true -> 0 <= code c - 48 < 10.
Proof. unfold is_digit, in_range. intros H. bool_inv. lia. Qed.

Abbreviation chars := String.list_ascii_of_string.

Lemma chars_app a b : chars (a +:+ b) = chars a ++ chars b.
Proof. induction a as [|c a IH]; [done|]. cbn [String.append String.list_ascii_of_string app]. by rewrite <- IH. Qed.

Lemma parse_digits_snoc l c : parse_digits (l ++ [c]) = 10 * parse_digits l + (code c - 48).
Proof. unfold parse_digits. by rewrite foldl_app. Qed.

Lemma parse_digits_app a b :
  parse_digits (a ++ b) = parse_digits a * 10 ^ Z.of_nat (length b) + parse_digits b.
Proof.
  induction b as [|c b IH] using rev_ind; [cbn; rewrite app_nil_r; lia|].
  rewrite app_assoc, !parse_digits_snoc, IH, length_app. cbn [length].
  rewrite Nat2Z.inj_add, Z.pow_add_r by lia. lia.
Qed.

Lemma parse_digits_nonneg l : forallb is_digit l = true -> 0 <= parse_digits l.
Proof.
  induction l as [|c l IH] using rev_ind; [done|].
  rewrite forallb_app. cbn. intros H. bool_inv. rewrite parse_digits_snoc.
  pose proof (is_digit_code c ltac:(done)). specialize (IH ltac:(done)). lia.
Qed.

(** ** Printing a natural number *)

(** Digits of [n], as the loop of [nat_text] produces them. *)
Definition digit_list (n : Z) : list ascii := chars (nat_text n).

Record prints (n : Z) (l : list ascii) : Prop := {
  prints_digits : forallb is_digit l = true;
  prints_value : parse_digits l = n;
  prints_head : exists c l', l = c :: l' /\ (l' = [] \/ in_range 49 57 c = true)
}.

Lemma digits_loop_chars fuel n acc :
  chars (digits_loop fuel n acc) = chars (digits_loop fuel n EmptyString) ++ chars acc.
Proof.
  revert n acc. induction fuel as [|fuel IH]; intros n acc; cbn [digits_loop]; [done|].
  destruct (n / 10 =? 0); [done|]. rewrite IH, (IH _ (String _ EmptyString)), <- app_assoc. done.
Qed.

Lemma digits_loop_prints fuel n : 0 <= n < 2 ^ Z.of_nat fuel -> (0 < fuel)%nat ->
  prints n (chars (digits_loop fuel n EmptyString)).
Proof.
  revert n. induction fuel as [|fuel IH]; intros n [Hn0 Hn] Hf; [lia|]. cbn [digits_loop].
  pose proof (Z.mod_pos_bound n 10 ltac:(lia)) as Hm. pose proof (Z.div_mod n 10 ltac:(lia)) as Hd.
  destruct (n / 10 =? 0) eqn:E; bool_inv.
  - split; cbn [forallb chars].
    + by rewrite is_digit_char.
    + unfold parse_digits; cbn [foldl]. rewrite code_digit_char by lia. lia.
    + eauto.
  - rewrite Nat2Z.inj_succ, Z.pow_succ_r in Hn by lia.
    assert (Hq : 0 <= n / 10 < 2 ^ Z.of_nat fuel).
    { split; [apply Z.div_pos; lia|]. apply Z.div_lt_upper_bound; lia. }
    assert (0 < fuel)%nat by (destruct fuel; [cbn in Hq|]; lia).
    destruct (IH _ Hq ltac:(done)) as [H1 H2 (c & l' & H3 & H4)].
    rewrite digits_loop_chars. cbn [chars]. split.
    + by rewrite forallb_app, H1; cbn; rewrite is_digit_char.
    + rewrite parse_digits_snoc, H2, code_digit_char by lia. lia.
    + rewrite H3 in *. exists c, (l' ++ [digit_char (n mod 10)]). split; [done|]. right.
      destruct H4 as [->|?]; [|done]. unfold parse_digits in H2; cbn [foldl forallb] in *. bool_inv.
      unfold is_digit, in_range in *. bool_inv. lia.
Qed.

Lemma nat_text_prints n : 0 <= n -> prints n (chars (nat_text n)).
Proof.
  intros Hn. apply digits_loop_prints; [|lia]. split; [done|].
  rewrite Nat2Z.inj_add, Z2Nat.id by apply Z.log2_nonneg. cbn [Z.of_nat].
  destruct (Z.eq_dec n 0) as [->|]; [done|]. apply Z.log2_spec. lia.
Qed.

(** A printed number of at most [k] digits has at most [k] characters. *)
Lemma prints_length n l k : prints n l -> n < 10 ^ k -> 1 <= k -> Z.of_nat (length l) <= k.
Proof.
  intros [Hd Hv (c & l' & -> & Hh)] Hn Hk. destruct Hh as [->|Hc]; [cbn; lia|].
  cbn [length]. rewrite Nat2Z.inj_succ. change (c :: l') with ([c] ++ l') in *.
  rewrite parse_digits_app in Hv. rewrite forallb_app in Hd. bool_inv.
  pose proof (parse_digits_nonneg l' ltac:(done)).
  unfold parse_digits in Hv at 1; cbn [foldl] in Hv. unfold in_range in Hc. bool_inv.
  destruct (Z.le_gt_cases k (Z.of_nat (length l'))); [|lia].
  assert (10 ^ k <= 10 ^ Z.of_nat (length l')) by (apply Z.pow_le_mono_r; lia). nia.
Qed.

Lemma prints_int_pattern n l : prints n l -> n < 10 ^ 18 -> int_pattern l = true.
Proof.
  intros Hp Hn. pose proof (prints_length n l 18 Hp Hn ltac:(lia)) as Hl.
  destruct Hp as [Hd Hv (c & l' & -> & Hh)]. cbn [forallb length] in *. bool_inv.
  destruct l' as [|c' l']; [done|]. cbn [int_pattern]. destruct Hh as [?|Hc]; [done|].
  rewrite Hc. cbn [length andb] in *. apply Z.leb_le. lia.
Qed.

(** ** Printing a fixed number of digits *)

Lemma pad_digits_prints w n :
  forallb is_digit (chars (pad_digits w n)) = true /\
  length (chars (pad_digits w n)) = w /\
  parse_digits (chars (pad_digits w n)) = n mod 10 ^ Z.of_nat w.
Proof.
  induction w as [|w (IH1 & IH2 & IH3)]; cbn [pad_digits chars forallb length].
  { split; [done|]. split; [done|]. by rewrite Z.mod_1_r. }
  assert (Hp : 0 < 10 ^ Z.of_nat w) by (apply Z.pow_pos_nonneg; lia).
  pose proof (Z.mod_pos_bound (n / 10 ^ Z.of_nat w) 10 ltac:(lia)) as Hm.
  rewrite is_digit_char, IH1, IH2 by done. split; [done|]. split; [done|].
  change (_ :: chars _) with ([digit_char (n / 10 ^ Z.of_nat w mod 10)] ++ chars (pad_digits w n)).
  rewrite parse_digits_app, IH2, IH3. unfold parse_digits at 1; cbn [foldl].
  rewrite code_digit_char by done. rewrite Nat2Z.inj_succ, Z.pow_succ_r by lia.
  rewrite (Z.mul_comm 10 (10 ^ _)), Z.rem_mul_r by lia. lia.
Qed.

(** ** The round trip *)

Lemma span_digits l c rest : forallb is_digit l = true -> is_digit c = false ->
  span is_digit (l ++ c :: rest) = (l, c :: rest).
Proof.
  intros Hl Hc. induction l as [|x l IH]; cbn; [by rewrite Hc|].
  cbn in Hl. bool_inv. rewrite H, IH by done. done.
Qed.
Lemma span_digits_nil l : forallb is_digit l = true -> span is_digit l = (l, []).
Proof.
  intros Hl. induction l as [|x l IH]; cbn; [done|]. cbn in Hl. bool_inv. by rewrite H, IH.
Qed.

Lemma strip_zeros_shape fuel n e : 0 <= n -> e + Z.of_nat fuel = 0 ->
  let r := strip_zeros fuel n e 0 in
  0 <= coef r <= n /\ e <= dexp r <= 0 /\ coef r * 10 ^ (dexp r - e) = n /\
  (dexp r < 0 -> coef r mod 10 <> 0).
Proof.
  revert n e. induction fuel as [|fuel IH]; intros n e Hn He; cbn [strip_zeros].
  { cbn [coef dexp]. rewrite Z.sub_diag. lia. }
  rewrite (proj2 (Z.ltb_lt e 0)) by lia. cbn [andb]. destruct (n mod 10 =? 0) eqn:E; bool_inv.
  2: { cbn [coef dexp]. rewrite Z.sub_diag. lia. }
  assert (Hd : n = n / 10 * 10) by (pose proof (Z.div_mod n 10); lia).
  destruct (IH (n / 10) (e + 1) ltac:(apply Z.div_pos; lia) ltac:(lia)) as (H1 & H2 & H3 & H4).
  split; [lia|]. split; [lia|]. split; [|done].
  replace (dexp _ - e) with (Z.succ (dexp (strip_zeros fuel (n / 10) (e + 1) 0) - (e + 1))) by lia.
  rewrite Z.pow_succ_r by lia. lia.
Qed.

Lemma strip_fraction_shape d : 0 <= coef d ->
  let r := strip_fraction d in
  0 <= coef r /\ dval r == dval d /\ (dexp r < 0 -> coef r mod 10 <> 0 /\ dexp d <= dexp r) /\
  (0 <= dexp d -> r = d) /\ (dexp d < 0 -> dexp r <= 0).
Proof.
  intros Hc. unfold strip_fraction. assert (Hv := strip_zeros_val (Z.to_nat (- dexp d)) (coef d) (dexp d) 0).
  destruct (Z.le_gt_cases 0 (dexp d)).
  - rewrite (Z2Nat.nonpos (- dexp d)) in * by lia. cbn [strip_zeros] in *.
    cbn [coef dexp] in *. split; [done|]. split; [done|]. split; [lia|]. split; [by destruct d|lia].
  - destruct (strip_zeros_shape (Z.to_nat (- dexp d)) (coef d) (dexp d)) as (H1 & H2 & H3 & H4); [lia..|].
    split; [lia|]. split; [done|]. split; [by auto with lia|]. split; [lia|]. lia.
Qed.

(** The canonical form [parse_decimal] returns. *)
Definition canonical_money (d : dec) : dec :=
  let r := strip_fraction d in if 0 <=? dexp r then dZ (coef r * 10 ^ dexp r) else r.

Lemma canonical_money_val d : 0 <= coef d -> dval (canonical_money d) == dval d.
Proof.
  intros Hc. destruct (strip_fraction_shape d Hc) as (H1 & H2 & _). unfold canonical_money.
  destruct (0 <=? _) eqn:E; [|done]. bool_inv.
  rewrite dval_Z, <- H2. unfold dval. by rewrite inject_Z_mult, p10_Z.
Qed.

Lemma parse_text_int n l text : chars text = l -> prints n l -> n < 10 ^ 18 ->
  parse_decimal_text text = Ok (dZ n).
Proof.
  intros Ht Hp Hn. unfold parse_decimal_text. rewrite Ht.
  rewrite span_digits_nil by apply Hp. cbn beta iota.
  rewrite (prints_int_pattern _ _ Hp Hn). by destruct Hp as [_ -> _].
Qed.

Lemma parse_text_frac i f k text : 0 <= i < 10 ^ 18 -> 1 <= k <= 10 ->
  chars text = chars (nat_text i) ++ "."%char :: chars (pad_digits (Z.to_nat k) f) ->
  parse_decimal_text text = Ok (Dec (i * 10 ^ k + f mod 10 ^ k) (- k)).
Proof.
  intros Hi Hk Ht. unfold parse_decimal_text. rewrite Ht.
  pose proof (nat_text_prints i ltac:(lia)) as Hp.
  destruct (pad_digits_prints (Z.to_nat k) f) as (H1 & H2 & H3).
  rewrite span_digits by (done || apply Hp). cbn beta iota.
  rewrite (prints_int_pattern _ _ Hp) by lia. rewrite H1, H2, Z2Nat.id by lia.
  rewrite (proj2 (Z.leb_le 1 k)), (proj2 (Z.leb_le k 10)) by lia. cbn [andb].
  rewrite parse_digits_app, H2, H3, Z2Nat.id by lia. destruct Hp as [_ -> _]. done.
Qed.

Lemma adjusted_bound d : coef d <> 0 -> adjusted d <= 17 -> 0 <= dexp d ->
  Z.abs (coef d) * 10 ^ dexp d < 10 ^ 18.
Proof.
  unfold adjusted. intros Hn Ha He. pose proof (ndigits_spec _ Hn) as (_ & _ & H).
  assert (10 ^ (ndigits (coef d) + dexp d) <= 10 ^ 18) by (apply Z.pow_le_mono_r; lia).
  rewrite Z.pow_add_r in H0 by (pose proof (ndigits_pos (coef d)); lia).
  pose proof (pow10_pos (dexp d) He). nia.
Qed.

Lemma adjusted_bound_frac d : coef d <> 0 -> adjusted d <= 17 -> dexp d < 0 ->
  Z.abs (coef d) < 10 ^ 18 * 10 ^ (- dexp d).
Proof.
  unfold adjusted. intros Hn Ha He. pose proof (ndigits_spec _ Hn) as (? & _ & H').
  rewrite <- Z.pow_add_r by lia.
  assert (10 ^ ndigits (coef d) <= 10 ^ (18 + - dexp d)) by (apply Z.pow_le_mono_r; lia). lia.
Qed.

(** Printing a non-negative [Money] and parsing the text gives its canonical form. *)
Lemma parse_print_money d : 0 <= coef d -> adjusted d <= 17 -> -10 <= dexp d ->
  parse_decimal_text (decimal_text d) = Ok (canonical_money d).
Proof.
  intros Hc Ha He. destruct (strip_fraction_shape d Hc) as (H1 & Hv & H3 & H4 & H5).
  unfold canonical_money. set (r := strip_fraction d) in *.
  assert (Hchars : chars (decimal_text d) =
    if 0 <=? dexp r then chars (nat_text (coef r * 10 ^ dexp r))
    else chars (nat_text (coef r / 10 ^ (- dexp r))) ++ "."%char ::
         chars (pad_digits (Z.to_nat (- dexp r)) (coef r mod 10 ^ (- dexp r)))).
  { unfold decimal_text. fold r. rewrite (proj2 (Z.ltb_ge (coef r) 0)), Z.abs_eq by lia.
    destruct (0 <=? dexp r); [done|]. cbn [String.append]. by rewrite !chars_app. }
  destruct (0 <=? dexp r) eqn:E; bool_inv.
  - assert (Hb : coef r * 10 ^ dexp r < 10 ^ 18).
    { destruct (Z.le_gt_cases 0 (dexp d)) as [Hd|Hd].
      - rewrite (H4 Hd). destruct (Z.eq_dec (coef d) 0) as [->|Hn]; [done|].
        pose proof (adjusted_bound d Hn Ha Hd). lia.
      - specialize (H5 Hd). assert (dexp r = 0) as Hr by lia. rewrite Hr, Z.mul_1_r.
        destruct (Z.eq_dec (coef d) 0) as [Hz|Hn].
        + rewrite (dval_zero d Hz) in Hv. apply coef_zero in Hv. lia.
        + pose proof (adjusted_bound_frac d Hn Ha Hd) as Hb.
          unfold dval in Hv. rewrite (p10_split (dexp d) (dexp r)), Qmult_assoc, <- inject_Z_mult in Hv by lia.
          apply scaled_eq in Hv. rewrite Hr, Z.sub_0_l in Hv. pose proof (pow10_pos (- dexp d)). nia. }
    eapply parse_text_int; [exact Hchars| |done]. apply nat_text_prints.
    pose proof (pow10_pos (dexp r) ltac:(lia)). nia.
  - destruct (H3 E) as [Hmod Hexp]. pose proof (pow10_pos (- dexp r) ltac:(lia)) as Hp.
    rewrite (parse_text_frac (coef r / 10 ^ (- dexp r)) (coef r mod 10 ^ (- dexp r)) (- dexp r)); [|..|done].
    + rewrite Z.mod_mod by lia. pose proof (Z.div_mod (coef r) (10 ^ (- dexp r)) ltac:(lia)).
      f_equal. destruct r as [rc re]. cbn [coef dexp] in *. f_equal; lia.
    + split; [apply Z.div_pos; lia|]. apply Z.div_lt_upper_bound; [lia|].
      assert (Hd : dexp d < 0) by lia.
      assert (Hn : coef d <> 0).
      { intros Hz. rewrite (dval_zero d Hz) in Hv. apply coef_zero in Hv. rewrite Hv in Hmod. done. }
      pose proof (adjusted_bound_frac d Hn Ha Hd) as Hb.
      unfold dval in Hv. rewrite (p10_split (dexp d) (dexp r)), Qmult_assoc, <- inject_Z_mult in Hv by lia.
      apply scaled_eq in Hv. pose proof (pow10_pos (dexp r - dexp d) ltac:(lia)).
      replace (- dexp d) with ((dexp r - dexp d) + - dexp r) in Hb by lia.
      rewrite Z.pow_add_r in Hb by lia. nia.
    + lia.
Qed.

(** What the parser accepts is non-negative. *)
Lemma parse_decimal_text_nonneg text d : parse_decimal_text text = Ok d -> 0 <= coef d.
Proof.
  unfold parse_decimal_text. destruct (span is_digit (chars text)) as [ip rest] eqn:E.
  assert (Hip : forallb is_digit ip = true).
  { revert ip rest E. induction (chars text) as [|c l IH]; intros ip rest E; cbn in E.
    - injection E as <- <-. done.
    - destruct (is_digit c) eqn:Hc; [|by injection E as <- <-].
      destruct (span is_digit l) as [a b]. injection E as <- <-. cbn. by rewrite Hc, (IH a b). }
  destruct rest as [|c frac].
  - destruct (int_pattern ip); [|done]. intros Ho; injection Ho as <-. by apply parse_digits_nonneg.
  - destruct (_ && _) eqn:Hg; [|done]. intros Ho; injection Ho as <-. bool_inv.
    apply parse_digits_nonneg. by rewrite forallb_app, Hip, H2.
Qed.

(** The text of a negative number starts with a sign and is refused. *)
Lemma parse_print_negative d r : parse_decimal_text (decimal_text d) = Ok r -> 0 <= coef d.
Proof.
  intros E. destruct (Z.le_gt_cases 0 (coef d)) as [|Hneg]; [done|]. exfalso.
  assert (Hs : coef (strip_fraction d) < 0).
  { apply dval_sign. unfold strip_fraction. rewrite strip_zeros_val. by apply dval_sign in Hneg. }
  unfold decimal_text in E. rewrite (proj2 (Z.ltb_lt _ 0) Hs) in E.
  unfold parse_decimal_text in E. cbn in E. done.
Qed.

Lemma parse_decimal_Ok d r : parse_decimal d = Ok r <->
  0 <= coef d /\ adjusted d <= 17 /\ -10 <= dexp d /\ r = canonical_money d.
Proof.
  unfold parse_decimal. split.
  - intros E. ok_inv. bool_inv. pose proof (parse_print_negative _ _ E) as Hc.
    rewrite parse_print_money in E by lia. ok_inv. auto with lia.
  - intros (Hc & Ha & He & ->). rewrite (proj2 (Z.ltb_ge 17 _)), (proj2 (Z.ltb_ge _ (-10))) by lia.
    by apply parse_print_money.
Qed.

(** ** The canonical form is a fixed point *)

Lemma ndigits_le n k : 0 < n < 10 ^ k -> 1 <= k -> ndigits n <= k.
Proof.
  intros H Hk. pose proof (ndigits_spec n ltac:(lia)) as (H1 & H2 & _).
  assert (10 ^ (ndigits n - 1) < 10 ^ k) as Hlt by lia. apply Z.pow_lt_mono_r_iff in Hlt; lia.
Qed.

Lemma strip_fraction_stop d : (dexp d < 0 -> coef d mod 10 <> 0) -> strip_fraction d = d.
Proof.
  intros H. unfold strip_fraction. destruct d as [n e]. cbn [coef dexp] in *.
  destruct (Z.to_nat (- e)) as [|fuel] eqn:Ef; cbn [strip_zeros]; [done|].
  assert (e < 0) by lia. rewrite (proj2 (Z.eqb_neq _ _)) by auto. by rewrite andb_false_r.
Qed.

Lemma canonical_money_idem d : 0 <= coef d -> canonical_money (canonical_money d) = canonical_money d.
Proof.
  intros Hc. destruct (strip_fraction_shape d Hc) as (H1 & _ & H3 & _). unfold canonical_money at 2 3.
  destruct (0 <=? dexp (strip_fraction d)) eqn:E; bool_inv; unfold canonical_money.
  - rewrite strip_fraction_stop by (cbn; lia). cbn. f_equal. lia.
  - rewrite strip_fraction_stop by (intros; by apply H3). by rewrite (proj2 (Z.leb_gt _ _)) by done.
Qed.

Lemma small_adjusted n e : 0 <= n -> n < 10 ^ (18 - e) -> e <= 0 -> adjusted (Dec n e) <= 17.
Proof.
  intros Hn Hlt He. unfold adjusted. cbn [coef dexp].
  destruct (decide (n = 0)) as [->|]; [change (ndigits 0) with 1; lia|].
  pose proof (ndigits_le n (18 - e) ltac:(lia) ltac:(lia)). lia.
Qed.

Lemma parse_decimal_idem d r : parse_decimal d = Ok r -> parse_decimal r = Ok r.
Proof.
  intros (Hc & Ha & He & ->)%parse_decimal_Ok. apply parse_decimal_Ok.
  rewrite canonical_money_idem by done. destruct (strip_fraction_shape d Hc) as (H1 & Hv & H3 & H4 & H5).
  destruct (decide (coef d = 0)) as [E0|E0].
  { assert (Hz : coef (strip_fraction d) = 0).
    { apply dval_sign. rewrite Hv. by apply dval_zero. }
    unfold canonical_money. rewrite Hz. destruct (0 <=? _) eqn:E; bool_inv; [done|].
    destruct (H3 E) as [Hm _]. by rewrite Hz in Hm. }
  unfold canonical_money. destruct (0 <=? dexp (strip_fraction d)) eqn:E; bool_inv.
  - assert (Hs : inject_Z (coef (strip_fraction d) * 10 ^ dexp (strip_fraction d)) == dval d).
    { rewrite <- Hv. unfold dval. by rewrite inject_Z_mult, p10_Z. }
    split; [cbn; pose proof (pow10_pos _ E); nia|]. split; [|split; [done|done]].
    apply small_adjusted; [pose proof (pow10_pos _ E); nia| |done].
    destruct (Z.le_gt_cases 0 (dexp d)) as [Hd|Hd].
    + rewrite (H4 Hd). pose proof (adjusted_bound d E0 Ha Hd). lia.
    + pose proof (adjusted_bound_frac d E0 Ha Hd) as Hb. rewrite Z.abs_eq in Hb by done.
      rewrite (Zlt_Qlt), Hs. unfold dval.
      apply Qlt_le_trans with (inject_Z (10 ^ 18 * 10 ^ (- dexp d)) * p10 (dexp d))%Q.
      * by apply scaled_lt.
      * rewrite inject_Z_mult, <- (p10_Z (- dexp d)), <- Qmult_assoc, <- p10_add by lia.
        replace (- dexp d + dexp d) with 0 by lia. change (p10 0) with 1%Q. rewrite Qmult_1_r. apply Qle_refl.
  - destruct (H3 E) as [Hm Hle]. split; [done|]. split; [|split; [lia|done]].
    destruct (strip_fraction d) as [n e] eqn:Es. cbn [coef dexp] in *.
    apply small_adjusted; [done| |lia]. pose proof (adjusted_bound_frac d E0 Ha ltac:(lia)) as Hb.
    rewrite Z.abs_eq in Hb by done. unfold dval in Hv. cbn [coef dexp] in Hv.
    rewrite (p10_split (dexp d) e), Qmult_assoc, <- inject_Z_mult in Hv by done. apply scaled_eq in Hv.
    apply (Z.mul_lt_mono_pos_r (10 ^ (e - dexp d))); [by apply pow10_pos; lia|].
    rewrite Hv, <- Z.pow_add_r by lia. replace (18 - e + (e - dexp d)) with (18 + - dexp d) by lia.
    by rewrite Z.pow_add_r by lia.
Qed.
