(* ===== verification/Costs.v ===== *)
(** * The intraday tariff ([backtest/costs.py])

    [IntradayCostSchedule]: the validator, the effective period, the quote of one
    execution, and the total of its seven charges.  All arithmetic runs in the
    [EXACT] context, which traps [Inexact]. *)
From S2P Require Import Prelude Decimal DecimalFacts Text Dataset.

(** [EXACT = Context(prec=80, traps=[InvalidOperation, DivisionByZero, Overflow, Inexact])] *)
Definition EXACT : context := mk_context 80 true.

Inductive Side := BUY | SELL.
#[export] Instance side_eq_dec : EqDecision Side.
Proof. solve_decision. Defined.
Definition is_buy (s : Side) : bool := match s with BUY => true | SELL => false end.

Record Charges := mkCharges {
  brokerage : dec; stt : dec; exchange : dec; ipft : dec; sebi : dec; gst : dec; stamp : dec
}.

Definition charges_total (c : Charges) : res dec :=
  dsum EXACT [brokerage c; stt c; exchange c; ipft c; sebi c; gst c; stamp c].

Inductive cost_basis := HISTORICAL | FIXED_AS_OF.
#[export] Instance cost_basis_eq_dec : EqDecision cost_basis.
Proof. solve_decision. Defined.

Record IntradayCostSchedule := mkSchedule {
  cs_version : string; cs_source_version : string;
  effective_from : Z; effective_to : Z;
  basis : cost_basis; as_of : option Z;
  brokerage_rate : dec; brokerage_cap : dec; stt_rate : dec; exchange_rate : dec;
  ipft_rate : dec; sebi_rate : dec; gst_rate : dec; stamp_rate : dec
}.

Definition check_date (s : IntradayCostSchedule) (trading_date : Z) : res unit :=
  require! (effective_from s <=? trading_date) && (trading_date <? effective_to s)
    else "COST_SCHEDULE_NOT_EFFECTIVE";
  Ok tt.

Definition schedule_rates (s : IntradayCostSchedule) : list dec :=
  [brokerage_rate s; stt_rate s; exchange_rate s; ipft_rate s; sebi_rate s; gst_rate s; stamp_rate s].

Definition schedule_valid (s : IntradayCostSchedule) : res unit :=
  reject! effective_to s <=? effective_from s as "INVALID_COST_PERIOD";
  reject! negb (Bool.eqb (bool_decide (basis s = FIXED_AS_OF)) (bool_decide (is_Some (as_of s))))
    as "COST_DATE_BASIS_MISMATCH";
  _ ← (match as_of s with Some d => check_date s d | None => Ok tt end);
  reject! existsb (fun rate => dltb (dZ 1) rate) (schedule_rates s) as "INVALID_COST_RATE";
  Ok tt.

Definition schedule_validate (s : IntradayCostSchedule) : res IntradayCostSchedule :=
  require! label_ok (cs_version s) && label_ok (cs_source_version s) else "INVALID_FIELD";
  br ← parse_decimal (brokerage_rate s); bc ← parse_decimal (brokerage_cap s);
  st ← parse_decimal (stt_rate s); ex ← parse_decimal (exchange_rate s);
  ip ← parse_decimal (ipft_rate s); se ← parse_decimal (sebi_rate s);
  gs ← parse_decimal (gst_rate s); sp ← parse_decimal (stamp_rate s);
  let s := mkSchedule (cs_version s) (cs_source_version s) (effective_from s) (effective_to s)
             (basis s) (as_of s) br bc st ex ip se gs sp in
  _ ← schedule_valid s; Ok s.

(** The date a quote is priced at: [self.as_of or executed_at.astimezone(NSE).date()]. *)
Definition cost_date (s : IntradayCostSchedule) (executed_at : Z) : Z :=
  match as_of s with Some d => d | None => nse_date executed_at end.

Definition entry_basis_missing (side : Side) (entry_notional : option dec) : bool :=
  match side, entry_notional with
  | BUY, _ => false
  | SELL, None => true
  | SELL, Some n => dleb n d0
  end.

Definition quote_stt (s : IntradayCostSchedule) (side : Side) (notional : dec)
    (entry_notional : option dec) : res dec :=
  match side with
  | BUY => Ok d0
  | SELL => both ← dadd EXACT notional (default d0 entry_notional);
            average ← ddiv EXACT both (dZ 2); dmul EXACT average (stt_rate s)
  end.

Definition quote (s : IntradayCostSchedule) (side : Side) (notional : dec) (executed_at : Z)
    (entry_notional : option dec) : res Charges :=
  _ ← check_date s (cost_date s executed_at);
  reject! dleb notional d0 as "INVALID_NOTIONAL";
  reject! entry_basis_missing side entry_notional as "ENTRY_BASIS_REQUIRED";
  by_rate ← dmul EXACT notional (brokerage_rate s);
  let brokerage := dmin (brokerage_cap s) by_rate in
  exchange ← dmul EXACT notional (exchange_rate s);
  ipft ← dmul EXACT notional (ipft_rate s);
  sebi ← dmul EXACT notional (sebi_rate s);
  stt ← quote_stt s side notional entry_notional;
  services ← dadd EXACT brokerage exchange;
  services ← dadd EXACT services ipft;
  services ← dadd EXACT services sebi;
  gst ← dmul EXACT services (gst_rate s);
  stamp ← (match side with BUY => dmul EXACT notional (stamp_rate s) | SELL => Ok d0 end);
  Ok (mkCharges brokerage stt exchange ipft sebi gst stamp).

(** [quote(...).total] *)
Definition quote_total (s : IntradayCostSchedule) (side : Side) (notional : dec) (executed_at : Z)
    (entry_notional : option dec) : res dec :=
  c ← quote s side notional executed_at entry_notional; charges_total c.
