(* ===== verification/CostsFacts.v ===== *)
(** * The tariff computes its rational specification

    [tariff] is what the schedule means, in exact rational arithmetic; [quote] and
    [quote_total] refine it: when they return, the charges are the specification's,
    and they fail only for an instant outside the schedule, a notional that is not
    positive, a sell without an entry basis, or an inexact decimal result. *)
From S2P Require Import Prelude Decimal DecimalFacts Text Dataset MoneyFacts Costs.

Lemma EXACT_ok : context_ok EXACT.
Proof. by apply mk_context_ok. Qed.

(** ** The specification *)

Definition tariff_brokerage (s : IntradayCostSchedule) (n : Q) : Q :=
  Qmin (dval (brokerage_cap s)) (n * dval (brokerage_rate s)).
Definition tariff_stt (s : IntradayCostSchedule) (side : Side) (n basis : Q) : Q :=
  match side with BUY => 0 | SELL => (n + basis) / 2 * dval (stt_rate s) end.
Definition tariff_services (s : IntradayCostSchedule) (n : Q) : Q :=
  tariff_brokerage s n + n * (dval (exchange_rate s) + dval (ipft_rate s) + dval (sebi_rate s)).
Definition tariff_stamp (s : IntradayCostSchedule) (side : Side) (n : Q) : Q :=
  match side with BUY => n * dval (stamp_rate s) | SELL => 0 end.
(** Levies on the services, tax on top of them, transaction tax and stamp duty. *)
Definition tariff (s : IntradayCostSchedule) (side : Side) (n basis : Q) : Q :=
  tariff_services s n * (1 + dval (gst_rate s)) + tariff_stt s side n basis + tariff_stamp s side n.

Record charges_spec (s : IntradayCostSchedule) (side : Side) (n basis : Q) (c : Charges) : Prop := {
  cq_brokerage : dval (brokerage c) == tariff_brokerage s n;
  cq_stt : dval (stt c) == tariff_stt s side n basis;
  cq_exchange : dval (exchange c) == n * dval (exchange_rate s);
  cq_ipft : dval (ipft c) == n * dval (ipft_rate s);
  cq_sebi : dval (sebi c) == n * dval (sebi_rate s);
  cq_gst : dval (gst c) == tariff_services s n * dval (gst_rate s);
  cq_stamp : dval (stamp c) == tariff_stamp s side n
}.

(** What a validated schedule guarantees. *)
Record rates_ok (s : IntradayCostSchedule) : Prop := {
  ro_rates : Forall (fun r => 0 <= dval r <= 1)%Q (schedule_rates s);
  ro_cap : (0 <= dval (brokerage_cap s))%Q
}.

Definition basis_of (entry_notional : option dec) : Q := dval (default d0 entry_notional).

(** ** [quote] *)

Section quote.
Context (s : IntradayCostSchedule) (side : Side) (notional : dec) (at_ : Z)
  (entry_notional : option dec).
Context (E : exn -> Prop) (HE : forall e, decimal_error e -> E e).
Notation n := (dval notional).
Notation basis := (basis_of entry_notional).

Lemma wp_quote_stt :
  wp E (quote_stt s side notional entry_notional) (fun r => dval r == tariff_stt s side n basis).
Proof.
  unfold quote_stt, tariff_stt. destruct side; [by cbn|].
  eapply wp_bind; [apply (wp_dadd E HE EXACT EXACT_ok eq_refl)|]. intros both _ Hb. cbn beta in Hb.
  eapply wp_bind; [apply (wp_ddiv E HE EXACT EXACT_ok eq_refl)|]. intros avg _ Ha. cbn beta in Ha.
  eapply wp_mono; [apply (wp_dmul E HE EXACT EXACT_ok eq_refl)|]. intros r _ ->.
  rewrite Ha, Hb, dval_Z. reflexivity.
Qed.

Lemma wp_quote :
  (forall e, check_date s (cost_date s at_) = Err e -> E e) ->
  (dleb notional d0 = true -> E (ValueError "INVALID_NOTIONAL")) ->
  (entry_basis_missing side entry_notional = true -> E (ValueError "ENTRY_BASIS_REQUIRED")) ->
  wp E (quote s side notional at_ entry_notional) (charges_spec s side n basis).
Proof.
  intros H1 H2 H3. unfold quote.
  eapply wp_bind with (R := fun _ => True); [destruct (check_date _ _); cbn; auto|]. intros [] _ _.
  apply wp_reject; [done|]. intros _. apply wp_reject; [done|]. intros _.
  eapply wp_bind; [apply (wp_dmul E HE EXACT EXACT_ok eq_refl)|]. intros br _ Hbr. cbn beta in Hbr.
  eapply wp_bind; [apply (wp_dmul E HE EXACT EXACT_ok eq_refl)|]. intros ex _ Hex. cbn beta in Hex.
  eapply wp_bind; [apply (wp_dmul E HE EXACT EXACT_ok eq_refl)|]. intros ip _ Hip. cbn beta in Hip.
  eapply wp_bind; [apply (wp_dmul E HE EXACT EXACT_ok eq_refl)|]. intros se _ Hse. cbn beta in Hse.
  eapply wp_bind; [apply wp_quote_stt|]. intros st _ Hst. cbn beta in Hst.
  eapply wp_bind; [apply (wp_dadd E HE EXACT EXACT_ok eq_refl)|]. intros s1 _ Hs1. cbn beta in Hs1.
  eapply wp_bind; [apply (wp_dadd E HE EXACT EXACT_ok eq_refl)|]. intros s2 _ Hs2. cbn beta in Hs2.
  eapply wp_bind; [apply (wp_dadd E HE EXACT EXACT_ok eq_refl)|]. intros s3 _ Hs3. cbn beta in Hs3.
  eapply wp_bind; [apply (wp_dmul E HE EXACT EXACT_ok eq_refl)|]. intros gs _ Hgs. cbn beta in Hgs.
  eapply wp_bind with (R := fun r => dval r == tariff_stamp s side n).
  { unfold tariff_stamp. destruct side; [apply (wp_dmul E HE EXACT EXACT_ok eq_refl)|by cbn]. }
  intros sp _ Hsp. apply wp_Ok.
  assert (Hb : dval (dmin (brokerage_cap s) br) == tariff_brokerage s n).
  { rewrite dmin_val, Hbr. reflexivity. }
  split; cbn [brokerage stt exchange ipft sebi gst stamp]; try done.
  unfold tariff_services. rewrite Hgs, Hs3, Hs2, Hs1, Hb, Hex, Hip, Hse. ring.
Qed.

Lemma charges_total_spec c : charges_spec s side n basis c ->
  wp E (charges_total c) (fun r => dval r == tariff s side n basis).
Proof.
  intros [H1 H2 H3 H4 H5 H6 H7]. eapply wp_mono; [apply (wp_dsum E HE EXACT EXACT_ok eq_refl)|].
  intros r _ ->. cbn [fmap list_fmap foldr]. unfold tariff.
  rewrite H1, H2, H3, H4, H5, H6, H7. unfold tariff_services. ring.
Qed.

Lemma wp_quote_total :
  (forall e, check_date s (cost_date s at_) = Err e -> E e) ->
  (dleb notional d0 = true -> E (ValueError "INVALID_NOTIONAL")) ->
  (entry_basis_missing side entry_notional = true -> E (ValueError "ENTRY_BASIS_REQUIRED")) ->
  wp E (quote_total s side notional at_ entry_notional) (fun r => dval r == tariff s side n basis).
Proof.
  intros. eapply wp_bind; [by apply wp_quote|]. intros c _ Hc. by apply charges_total_spec.
Qed.
End quote.

(** ** Bounds of the specification *)

Section bounds.
Context (s : IntradayCostSchedule) (Hs : rates_ok s).

Lemma rates_nonneg : (0 <= dval (brokerage_rate s) /\ 0 <= dval (stt_rate s) /\
  0 <= dval (exchange_rate s) /\ 0 <= dval (ipft_rate s) /\ 0 <= dval (sebi_rate s) /\
  0 <= dval (gst_rate s) /\ 0 <= dval (stamp_rate s))%Q.
Proof.
  destruct Hs as [H _]. unfold schedule_rates in H. rewrite !Forall_cons in H. intuition.
Qed.

Lemma tariff_brokerage_bounds n : (0 <= n)%Q ->
  (0 <= tariff_brokerage s n <= dval (brokerage_cap s))%Q.
Proof.
  intros Hn. unfold tariff_brokerage. pose proof rates_nonneg. split; [|apply Q.le_min_l].
  apply Q.min_glb; [apply Hs|nra].
Qed.
Lemma tariff_brokerage_mono a b : (a <= b)%Q -> (tariff_brokerage s a <= tariff_brokerage s b)%Q.
Proof.
  intros H. unfold tariff_brokerage. pose proof rates_nonneg. apply Q.min_le_compat_l. nra.
Qed.
Lemma tariff_services_bounds n : (0 <= n)%Q -> (0 <= tariff_services s n)%Q.
Proof.
  intros Hn. pose proof (tariff_brokerage_bounds n Hn). pose proof rates_nonneg.
  unfold tariff_services. nra.
Qed.
Lemma tariff_services_mono a b : (a <= b)%Q -> (tariff_services s a <= tariff_services s b)%Q.
Proof.
  intros H. unfold tariff_services. pose proof (tariff_brokerage_mono a b H).
  pose proof rates_nonneg. nra.
Qed.

Lemma tariff_nonneg side n basis : (0 <= n)%Q -> (0 <= basis)%Q -> (0 <= tariff s side n basis)%Q.
Proof.
  intros Hn Hb. pose proof (tariff_services_bounds n Hn). pose proof rates_nonneg as Hr.
  unfold tariff, tariff_stt, tariff_stamp.
  destruct side.
  - nra.
  - assert (0 <= (n + basis) / 2)%Q by (apply Qle_shift_div_l; lra). nra.
Qed.

Lemma tariff_mono side a b x y : (a <= b)%Q -> (x <= y)%Q -> (0 <= a)%Q ->
  (tariff s side a x <= tariff s side b y)%Q.
Proof.
  intros H1 H2 H3. pose proof (tariff_services_mono a b H1). pose proof rates_nonneg as Hr.
  unfold tariff, tariff_stt, tariff_stamp. destruct side.
  - nra.
  - assert ((a + x) / 2 <= (b + y) / 2)%Q by (unfold Qdiv; apply Qmult_le_compat_r; [lra|done]). nra.
Qed.
End bounds.

(** ** The validator establishes [rates_ok] *)

Lemma parse_decimal_nonneg d r : parse_decimal d = Ok r -> (0 <= dval r)%Q.
Proof. intros (H & _ & _ & ->)%parse_decimal_Ok. rewrite canonical_money_val by done. unfold dval. pose proof (p10_pos (dexp d)).
  apply Qmult_le_0_compat; [|by apply Qlt_le_weak]. by rewrite <- (Zle_Qle 0). Qed.

Lemma schedule_validate_rates s r : schedule_validate s = Ok r -> rates_ok r.
Proof.
  unfold schedule_validate. intros E. ok_inv.
  repeat match goal with H : parse_decimal _ = Ok _ |- _ => apply parse_decimal_nonneg in H end.
  unfold schedule_valid in *. ok_inv.
  match goal with H : existsb _ _ = false |- _ => rename H into Hx end.
  split; [|done]. unfold schedule_rates in *. cbn [existsb brokerage_rate stt_rate exchange_rate ipft_rate sebi_rate gst_rate stamp_rate] in *.
  bool_inv. rewrite dval_Z in *. repeat constructor; done.
Qed.
