(* ===== verification/Errors.v ===== *)
(** * Error sets

    The five-minute engine and the components above it run in the rounding context
    [PRECISION]: any of their operations may signal, and each component adds its own
    [ValueError]s.  [among msgs] is such an error set; the classes [Arithmetic] and
    [Raises] say what a set contains, so that the specification of a shared routine
    (a quote, an indicator, a loop) is proved once, for every set that allows its
    errors. *)
From S2P Require Import Prelude Decimal DecimalFacts Text Dataset Costs.
Open Scope list_scope.
Open Scope Z_scope.

Class Arithmetic (E : exn -> Prop) : Prop := arithmetic : forall e, decimal_error e -> E e.
Class Raises (E : exn -> Prop) (msgs : list string) : Prop :=
  raises : forall msg, msg ∈ msgs -> E (ValueError msg).

Definition among (msgs : list string) (e : exn) : Prop :=
  decimal_error e \/ exists msg, e = ValueError msg /\ msg ∈ msgs.

#[export] Instance among_arithmetic msgs : Arithmetic (among msgs).
Proof. by left. Qed.
#[export] Instance decimal_arithmetic : Arithmetic decimal_error.
Proof. by intros e. Qed.

Lemma among_raises msgs msgs' : forallb (fun m => existsb (String.eqb m) msgs) msgs' = true ->
  Raises (among msgs) msgs'.
Proof.
  intros H msg Hin. right. exists msg. split; [done|]. rewrite forallb_forall in H.
  apply list_elem_of_In in Hin. apply H, existsb_exists in Hin as (m & Hm & ->%String.eqb_eq).
  by apply list_elem_of_In.
Qed.
#[export] Hint Extern 1 (Raises (among _) _) => (apply among_raises; vm_compute; reflexivity) : typeclass_instances.

(** One of the messages of a set. *)
Lemma raise_among msgs msg : existsb (String.eqb msg) msgs = true -> among msgs (ValueError msg).
Proof. intros H. apply (among_raises msgs [msg]); [cbn; by rewrite H|by apply list_elem_of_singleton]. Qed.
Lemma among_mono msgs msgs' e : forallb (fun m => existsb (String.eqb m) msgs) msgs' = true ->
  among msgs' e -> among msgs e.
Proof. intros H [He|(msg & -> & Hin)]; [by left|]. by apply (among_raises msgs msgs' H). Qed.
Lemma wp_weaken {A} (E E' : exn -> Prop) (m : res A) Q : (forall e, E e -> E' e) -> wp E m Q -> wp E' m Q.
Proof. destruct m; cbn; auto. Qed.

Ltac raise := solve [apply raise_among; vm_compute; reflexivity].

(** The specification of one rounded operation, in the error set of the goal; the head
    may be an abbreviation of the operation in a given context. *)
Ltac any_wp :=
  lazymatch goal with
  | |- wp ?E (dadd _ _ _) _ => apply (wp_dadd_any E arithmetic)
  | |- wp ?E (dsub _ _ _) _ => apply (wp_dsub_any E arithmetic)
  | |- wp ?E (dmul _ _ _) _ => apply (wp_dmul_any E arithmetic)
  | |- wp ?E (ddiv _ _ _) _ => apply (wp_ddiv_any E arithmetic)
  | |- wp ?E (dsum _ _) _ => apply (wp_dsum_any E arithmetic)
  | |- wp ?E (dneg _ _) _ => apply (wp_dneg_any E arithmetic)
  | |- wp ?E (dplus _ _) _ => apply (wp_dplus_any E arithmetic)
  | |- wp _ (?f _ _) _ => unfold f; any_wp
  | |- wp _ (?f _) _ => unfold f; any_wp
  end.
(** [op r E]: run the rounded operation at the head, naming its result and equation. *)
Tactic Notation "op" ident(r) ident(E) := eapply wp_bind; [any_wp|]; intros r E _.

Lemma wp_foldR_any {A B} E (f : A -> B -> res A) l s :
  (forall s x, wp E (f s x) (fun _ => True)) -> wp E (foldR f s l) (fun _ => True).
Proof. intros H. apply (wp_foldR E (fun _ _ => True)); [by intros|done]. Qed.
Lemma wp_mapR_any {A B} E (f : A -> res B) l :
  (forall x, wp E (f x) (fun _ => True)) -> wp E (mapR f l) (fun _ => True).
Proof.
  intros H. induction l as [|x l IH]; cbn [mapR]; [done|].
  eapply wp_bind; [apply H|]. intros y _ _. eapply wp_bind; [exact IH|]. by intros ys _ _.
Qed.

Definition quote_messages : list string :=
  ["COST_SCHEDULE_NOT_EFFECTIVE"; "INVALID_NOTIONAL"; "ENTRY_BASIS_REQUIRED"]%string.

Lemma wp_quote_any {E} `{HA : !Arithmetic E} `{HR : !Raises E quote_messages} s side notional at_ basis :
  wp E (quote_total s side notional at_ basis) (fun _ => True).
Proof.
  unfold quote_total, quote, check_date.
  eapply wp_bind with (R := fun _ => True).
  - eapply wp_bind with (R := fun _ => True).
    { apply wp_require; [intros; apply raises; set_solver|done]. }
    intros _ _ _. apply wp_reject; [intros; apply raises; set_solver|]. intros _.
    apply wp_reject; [intros; apply raises; set_solver|]. intros _.
    op x1 E1. op x2 E2. op x3 E3. op x4 E4.
    eapply wp_bind with (R := fun _ => True).
    { unfold quote_stt. destruct side; [done|]. op y1 F1. op y2 F2. any_wp. }
    intros ? _ _. op x5 E5. op x6 E6. op x7 E7. op x8 E8.
    eapply wp_bind with (R := fun _ => True); [destruct side; [any_wp|done]|]. by intros ? _ _.
  - intros c _ _. unfold charges_total. any_wp.
Qed.
