(* ===== verification/Corpus.v ===== *)
(** * Corpora ([backtest/corpus.py])

    The composition of several certified datasets into one longer feed, its validator,
    and the restriction of a corpus to a sub-window on shard boundaries. *)
From S2P Require Import Prelude Decimal DecimalFacts Text Dataset.

Record Corpus := mkCorpus {
  co_from : Z; co_to : Z; co_calendars : list Calendar; co_shards : list Dataset;
  co_content_fingerprint : string
}.

(** The properties [calendar], [bars], [instrument_id], [lot_size], ... of the class. *)
Definition corpus_days (c : Corpus) : list Day := mjoin (c_days <$> co_calendars c).
Definition corpus_bars (c : Corpus) : list Bar := mjoin (ds_bars <$> co_shards c).
Definition corpus_instrument (c : Corpus) : string :=
  match co_shards c with s :: _ => ds_instrument s | [] => ""%string end.
Definition corpus_lot_size (c : Corpus) : Z :=
  match co_shards c with s :: _ => ds_lot_size s | [] => 0 end.
Definition corpus_dataset_cutoff (c : Corpus) : Z :=
  match co_shards c with
  | s :: ss => foldl (fun m s => Z.max m (ds_dataset_cutoff s)) (ds_dataset_cutoff s) ss
  | [] => 0
  end.

Definition same_identity (a b : Dataset) : bool :=
  bool_decide (ds_instrument a = ds_instrument b) && bool_decide (ds_symbol a = ds_symbol b) &&
  (ds_lot_size a =? ds_lot_size b).

Definition active_dates (d : Dataset) : list Z := nse_date ∘ b_start <$> ds_bars d.

(** One calendar day of one shard: [seen_days[day.date] = day] unless seen before. *)
Definition see_day (active : list Z) (seen : gmap Z Day) (day : Day) : res (gmap Z Day) :=
  if bool_decide (d_date day ∈ active) then
    reject! bool_decide (is_Some (seen !! d_date day)) as "CORPUS_DUPLICATE_SESSION";
    Ok (<[d_date day := day]> seen)
  else Ok seen.

(** One iteration of the shard loop; the state is [(seen_days, previous)]. *)
Definition check_shard (first : Dataset) (to : Z) (st : gmap Z Day * Z) (shard : Dataset)
    : res (gmap Z Day * Z) :=
  let '(seen, previous) := st in
  _ ← dataset_validate shard;
  require! same_identity shard first else "CORPUS_IDENTITY_MISMATCH";
  reject! (ds_from shard <? previous) || (to <? ds_to shard) as "CORPUS_SHARDS_OVERLAP_OR_OUTSIDE";
  seen ← foldR (see_day (active_dates shard)) seen (c_days (ds_calendar shard));
  Ok (seen, ds_to shard).

Definition corpus_valid (c : Corpus) : res unit :=
  require! (0 <? co_to c - co_from c) && (co_to c - co_from c <=? 366 * DAY) else "CORPUS_RANGE_INVALID";
  require! (co_from c mod MINUTE =? 0) && (co_to c mod MINUTE =? 0) else "CORPUS_ALIGNMENT_INVALID";
  let shards := Z.of_nat (length (co_shards c)) in
  let cals := Z.of_nat (length (co_calendars c)) in
  require! (1 <=? shards) && (shards <=? 366) && (1 <=? cals) && (cals <=? 12) else "CORPUS_SIZE_INVALID";
  let days := corpus_days c in
  let first := nse_date (co_from c) in
  let last := nse_date (co_to c - 1) in
  require! bool_decide (d_date <$> days = seqZ first (last - first + 1))
    else "CORPUS_CALENDAR_COVERAGE_INVALID";
  reject! existsb (fun d => bool_decide (d_status d = UNKNOWN_SESSION)) days as "CORPUS_UNKNOWN_SESSION";
  first_shard ← of_option IndexError (head (co_shards c));
  '(seen, _) ← foldR (check_shard first_shard (co_to c)) (∅, co_from c) (co_shards c);
  require! bool_decide (seen = days_by_date (filter is_expected days))
    else "CORPUS_SESSION_COVERAGE_INVALID";
  let bars := corpus_bars c in
  reject! (150000 <? Z.of_nat (length bars)) ||
          negb (bool_decide (bar_fingerprint (corpus_instrument c) bars = co_content_fingerprint c))
    as "CORPUS_CONTENT_MISMATCH";
  Ok tt.

Definition corpus_validate (c : Corpus) : res Corpus :=
  require! hash_ok (co_content_fingerprint c) else "INVALID_FIELD";
  calendars ← mapR calendar_validate (co_calendars c);
  shards ← mapR dataset_validate (co_shards c);
  let c := mkCorpus (co_from c) (co_to c) calendars shards (co_content_fingerprint c) in
  _ ← corpus_valid c; Ok c.

(** ** Sub-windows *)

Definition calendar_subset (c : Calendar) (days : list Day) : res Calendar :=
  calendar_validate (mkCalendar (c_version c) (c_source c)
    (digest (calendar_text (c_version c) (c_source c) days)) days).

Definition slice_corpus (c : Corpus) (start end_ : Z) : res Corpus :=
  require! (co_from c <=? start) && (start <? end_) && (end_ <=? co_to c)
    else "PARTITION_OUTSIDE_CORPUS";
  let shards := filter (fun s => start <= ds_from s /\ ds_to s <= end_) (co_shards c) in
  let first := nse_date start in
  let last := nse_date (end_ - 1) in
  let inside := fun d => first <= d_date d <= last in
  calendars ← mapR (fun c => calendar_subset c (filter inside (c_days c)))
    (filter (fun c => Exists inside (c_days c)) (co_calendars c));
  let bars := mjoin (ds_bars <$> shards) in
  corpus_validate (mkCorpus start end_ calendars shards
    (bar_fingerprint (corpus_instrument c) bars)).
