(* ===== verification/FeedFacts.v ===== *)
(** * What a validated feed guarantees

    [chain days starts]: the bars are the minutes of whole sessions, one session per
    trading date, dates increasing.  The class [SessionFeed] is the interface the
    engine's theorems are proved against; [dataset_feed] discharges it from
    [Dataset.valid]. *)
From S2P Require Import Prelude Decimal DecimalFacts Text Dataset MoneyFacts.

Lemma MINUTE_pos : 0 < MINUTE.
Proof. done. Qed.

Lemma nse_clock t : t + NSE_OFFSET = nse_date t * DAY + nse_time t /\ 0 <= nse_time t < DAY.
Proof.
  unfold nse_date, nse_time. pose proof (Z.div_mod (t + NSE_OFFSET) DAY ltac:(done)).
  pose proof (Z.mod_pos_bound (t + NSE_OFFSET) DAY ltac:(done)). lia.
Qed.

Lemma nse_time_same_day t t' : nse_date t' = nse_date t -> nse_time t' - nse_time t = t' - t.
Proof. intros H. pose proof (nse_clock t) as [E _]. pose proof (nse_clock t') as [E' _]. rewrite H in E'. lia. Qed.

Lemma nse_time_aligned t : t mod MINUTE = 0 -> nse_time t mod MINUTE = 0.
Proof.
  intros H. apply Z.mod_divide in H as [k Hk]; [|done]. apply Z.mod_divide; [done|].
  pose proof (nse_clock t) as [E _]. exists (k + 330 - 1440 * nse_date t).
  unfold NSE_OFFSET, DAY, HOUR, MINUTE, SECOND in *. lia.
Qed.

Lemma aligned_lt a b : a mod MINUTE = 0 -> b mod MINUTE = 0 -> a < b -> a + MINUTE <= b.
Proof.
  intros Ha Hb H. apply Z.mod_divide in Ha as [x ->]; [|done]. apply Z.mod_divide in Hb as [y ->]; [|done].
  apply Z.mul_lt_mono_pos_r in H; [|done]. replace (x * MINUTE + MINUTE) with ((x + 1) * MINUTE) by lia.
  apply Z.mul_le_mono_nonneg_r; [done|lia].
Qed.

(** ** Bars *)

Record bar_ok (b : Bar) : Prop := {
  bo_aligned : b_start b mod MINUTE = 0;
  bo_low : (0 < dval (b_low b))%Q;
  bo_open : (dval (b_low b) <= dval (b_open b) <= dval (b_high b))%Q;
  bo_close : (dval (b_low b) <= dval (b_close b) <= dval (b_high b))%Q;
  bo_volume : 0 <= b_volume b
}.

Lemma bar_validate_ok b r : bar_validate b = Ok r ->
  bar_ok r /\ b_start r = b_start b /\ b_volume r = b_volume b.
Proof.
  unfold bar_validate, bar_valid. intros E. ok_inv. bool_inv. cbn in *.
  split; [|done]. rewrite !dmin_val, !dmax_val in *. split; cbn; try done; try lia.
  - pose proof (Q.le_min_l (dval r0) (dval r3)). pose proof (Q.le_max_l (dval r0) (dval r3)). lra.
  - pose proof (Q.le_min_r (dval r0) (dval r3)). pose proof (Q.le_max_r (dval r0) (dval r3)). lra.
Qed.

(** ** Sessions *)

Record session_ok (s : Session) : Prop := {
  so_open : 0 <= s_open s; so_order : s_open s < s_close s; so_close : s_close s < DAY;
  so_aligned : s_open s mod MINUTE = 0 /\ s_close s mod MINUTE = 0
}.

Lemma session_validate_ok s r : session_validate s = Ok r -> session_ok r /\ r = s.
Proof.
  unfold session_validate, parse_time. intros E. ok_inv. bool_inv.
  destruct s; split; [split; cbn in *; lia|done].
Qed.

Lemma day_validate_ok d r : day_validate d = Ok r -> Forall session_ok (d_sessions r) /\ r = d.
Proof.
  unfold day_validate. intros E. ok_inv. apply (mapR_check session_ok) in E0 as [H ->];
    [by destruct d|apply session_validate_ok].
Qed.

Definition days_ok (days : list Day) : Prop :=
  strictly_sorted (d_date <$> days) = true /\ Forall (fun d => Forall session_ok (d_sessions d)) days.

Lemma calendar_validate_ok c r : calendar_validate c = Ok r -> days_ok (c_days r) /\ r = c.
Proof.
  unfold calendar_validate. intros E. ok_inv. select (mapR _ _ = _) (fun H => apply (mapR_check (fun d => Forall session_ok (d_sessions d))) in H
    as [Hs ->]; [|apply day_validate_ok]).
  bool_inv. split; [by split|]. by destruct c.
Qed.

(** ** The day map *)

Lemma days_by_date_snoc l d : days_by_date (l ++ [d]) = <[d_date d := d]> (days_by_date l).
Proof. unfold days_by_date. by rewrite foldl_app. Qed.

Lemma days_by_date_Some days k d : days_by_date days !! k = Some d -> d ∈ days /\ d_date d = k.
Proof.
  induction days as [|x l IH] using rev_ind; [done|]. rewrite days_by_date_snoc.
  destruct (decide (d_date x = k)) as [<-|Hne].
  - rewrite lookup_insert_eq. intros [= ->]. split; [set_solver|done].
  - rewrite lookup_insert_ne by done. intros H. apply IH in H as [??]. split; [set_solver|done].
Qed.

(** [session_of days date s]: the calendar has exactly the session [s] on [date]. *)
Definition session_of (days : gmap Z Day) (date : Z) (s : Session) : Prop :=
  exists day, days !! date = Some day /\ d_date day = date /\ d_sessions day = [s] /\ session_ok s.

Lemma session_of_unique days date s s' : session_of days date s -> session_of days date s' -> s = s'.
Proof. intros (d & E & _ & H & _) (d' & E' & _ & H' & _). congruence. Qed.

(** ** Chains of minutes *)

Definition linked (s : Session) (t : Z) (rest : list Z) : Prop :=
  match rest with
  | [] => nse_time t + MINUTE = s_close s
  | t' :: _ => (t' = t + MINUTE /\ nse_date t' = nse_date t) \/
               (nse_date t < nse_date t' /\ nse_time t + MINUTE = s_close s)
  end.

Fixpoint chain (days : gmap Z Day) (starts : list Z) : Prop :=
  match starts with
  | [] => True
  | t :: rest =>
      (exists s, session_of days (nse_date t) s /\ s_open s <= nse_time t < s_close s /\
                 linked s t rest) /\ chain days rest
  end.

Lemma chain_app_r days l1 l2 : chain days (l1 ++ l2) -> chain days l2.
Proof. induction l1 as [|t l1 IH]; cbn; [done|]. intros [_ H]. auto. Qed.

(** Chains compose when the dates of the second come after those of the first. *)
Lemma chain_app days l1 l2 : chain days l1 -> chain days l2 ->
  (forall t t', t ∈ l1 -> t' ∈ l2 -> nse_date t < nse_date t') -> chain days (l1 ++ l2).
Proof.
  induction l1 as [|t l1 IH]; cbn [app chain]; [done|]. intros [(s & Hs & Ht & Hl) H1] H2 Hlt. split.
  - exists s. split; [done|]. split; [done|]. destruct l1 as [|t1 l1]; [|done]. cbn [app].
    destruct l2 as [|t2 l2]; [done|]. right. split; [|done]. apply Hlt; set_solver.
  - apply IH; [done..|]. intros ????. apply Hlt; set_solver.
Qed.

(** A chain only looks at the days of its own dates. *)
Lemma chain_days days days' l : chain days l ->
  (forall t, t ∈ l -> days' !! nse_date t = days !! nse_date t) -> chain days' l.
Proof.
  induction l as [|t l IH]; cbn [chain]; [done|]. intros [(s & Hs & Ht & Hl) H] He. split.
  - exists s. split; [|done]. unfold session_of in *. rewrite He by set_solver. done.
  - apply IH; [done|]. intros. apply He. set_solver.
Qed.

(** The slots of one session form a chain. *)
Lemma slots_chain_from days date s n tm : session_of days date s ->
  tm + Z.of_nat n * MINUTE = s_close s -> s_open s <= tm ->
  chain days (grid MINUTE (nse_combine date tm) (nse_combine date (s_close s))) /\
  (forall t, t ∈ grid MINUTE (nse_combine date tm) (nse_combine date (s_close s)) -> nse_date t = date).
Proof.
  intros Hs. destruct Hs as (day & Ed & Edate & Es & Hok) eqn:EHs. pose proof Hs as Hs'.
  pose proof (so_open _ Hok). pose proof (so_close _ Hok). clear EHs. revert tm.
  induction n as [|n IH]; intros tm Hn Ho; rewrite grid_unfold by done.
  - rewrite (proj2 (Z.ltb_ge _ _)) by (unfold nse_combine; lia). split; [done|]. by intros ? ?%elem_of_nil.
  - rewrite (proj2 (Z.ltb_lt _ _)) by (unfold nse_combine; pose proof MINUTE_pos; lia).
    replace (nse_combine date tm + MINUTE) with (nse_combine date (tm + MINUTE)) by (unfold nse_combine; lia).
    destruct (IH (tm + MINUTE)) as [IH1 IH2]; [lia|pose proof MINUTE_pos; lia|].
    assert (Htm : 0 <= tm < DAY) by (pose proof MINUTE_pos; nia).
    split; [|intros t [->|Ht]%elem_of_cons; [by apply nse_date_combine|by apply IH2]].
    split; [|done]. exists s. rewrite nse_date_combine, nse_time_combine by done.
    split; [done|]. split; [pose proof MINUTE_pos; nia|].
    unfold linked. rewrite grid_unfold by done. destruct (_ <? _) eqn:E.
    + left. apply Z.ltb_lt in E. unfold nse_combine in E.
      rewrite !nse_date_combine by (pose proof MINUTE_pos; lia). split; [|done]. unfold nse_combine; lia.
    + apply Z.ltb_ge in E. unfold nse_combine in E. rewrite nse_time_combine by done.
      destruct n; [lia|]. pose proof MINUTE_pos. nia.
Qed.

Lemma slots_chain days date s : session_of days date s ->
  chain days (session_slots date s) /\ (forall t, t ∈ session_slots date s -> nse_date t = date).
Proof.
  intros Hs. pose proof Hs as (day & _ & _ & _ & Hok). destruct Hok as [Ho Hlt Hc [Ha1 Ha2]].
  apply Z.mod_divide in Ha1 as [a Ha1]; [|done]. apply Z.mod_divide in Ha2 as [c Ha2]; [|done].
  apply (slots_chain_from days date s (Z.to_nat (c - a))); [done| |lia].
  pose proof MINUTE_pos. rewrite Z2Nat.id by nia. lia.
Qed.

(** ** The calendar walk *)

(** The slots of the dates visited so far: a chain, inside the window. *)
Record walked (days : gmap Z Day) (from to first : Z) (suf : list Z) : Prop := {
  wk_chain : chain days suf;
  wk_date : forall t, t ∈ suf -> first <= nse_date t;
  wk_window : forall t, t ∈ suf -> from <= t < to
}.

Lemma walked_nil days from to first : walked days from to first [].
Proof. split; [done|by intros ? ?%elem_of_nil..]. Qed.

Lemma walked_app days from to first l1 l2 : walked days from to first l1 ->
  (forall t, t ∈ l1 -> nse_date t = first) -> walked days from to (first + 1) l2 ->
  walked days from to first (l1 ++ l2).
Proof.
  intros [C1 D1 W1] He [C2 D2 W2]. split.
  - apply chain_app; [done..|]. intros t t' H1 H2. specialize (He _ H1). specialize (D2 _ H2). lia.
  - intros t [H|H]%elem_of_app; [by apply D1|specialize (D2 _ H); lia].
  - intros t [H|H]%elem_of_app; auto.
Qed.

Lemma expected_of_date_spec days from to acc cursor r :
  Forall (fun d => Forall session_ok (d_sessions d)) days ->
  expected_of_date (days_by_date days) from to acc cursor = Ok r ->
  exists suf, r = acc ++ suf /\ walked (days_by_date days) from to cursor suf /\
    (forall t, t ∈ suf -> nse_date t = cursor).
Proof.
  intros Hok. unfold expected_of_date. destruct (days_by_date days !! cursor) as [day|] eqn:Ed; [|done].
  pose proof (days_by_date_Some _ _ _ Ed) as [Hin Hdate].
  rewrite Forall_forall in Hok. pose proof (Hok _ Hin) as Hs.
  destruct (d_status day).
  - destruct (d_sessions day) as [|s [|]] eqn:Es; try done.
    assert (Hof : session_of (days_by_date days) cursor s).
    { exists day. split; [done|]. split; [done|]. split; [done|]. by inversion Hs. }
    intros E. apply bind_Ok in E as (u & Eu & E). injection E as <-. exists (session_slots cursor s).
    destruct (slots_chain _ _ _ Hof) as [Hc Hd]. split; [done|]. split; [|done]. split; [done| |].
    + intros t Ht. by rewrite (Hd _ Ht).
    + intros t Ht. apply raise_if_Ok in Eu. bool_inv. unfold session_slots in Ht.
      apply grid_elem in Ht as [Ht _]; [|done]. lia.
  - intros E. ok_inv. exists []. rewrite app_nil_r. split; [done|]. split; [apply walked_nil|].
    by intros ? ?%elem_of_nil.
  - done.
Qed.

Lemma expected_walk days from to n first acc r :
  Forall (fun d => Forall session_ok (d_sessions d)) days ->
  foldR (expected_of_date (days_by_date days) from to) acc (seqZ first (Z.of_nat n)) = Ok r ->
  exists suf, r = acc ++ suf /\ walked (days_by_date days) from to first suf.
Proof.
  intros Hok. revert first acc. induction n as [|n IH]; intros first acc E.
  - rewrite seqZ_nil in E by lia. cbn in E. ok_inv. exists []. rewrite app_nil_r. split; [done|apply walked_nil].
  - rewrite seqZ_cons in E by lia. replace (Z.pred (Z.of_nat (S n))) with (Z.of_nat n) in E by lia.
    cbn [foldR] in E. apply bind_Ok in E as (r0 & E0 & E).
    apply expected_of_date_spec in E0 as (s1 & -> & W1 & D1); [|done].
    apply IH in E as (s2 & -> & W2). exists (s1 ++ s2). rewrite app_assoc. split; [done|].
    by apply walked_app.
Qed.

(** ** The interface *)

Class SessionFeed (bars : list Bar) (days : gmap Z Day) : Prop := {
  sf_bars : Forall bar_ok bars;
  sf_chain : chain days (b_start <$> bars)
}.

Lemma dataset_validate_inv d r : dataset_validate d = Ok r ->
  dataset_valid r = Ok tt /\ Forall bar_ok (ds_bars r) /\ days_ok (c_days (ds_calendar r)) /\
  quantity_ok (ds_lot_size r) = true.
Proof.
  unfold dataset_validate. intros E. ok_inv. 
  select (calendar_validate _ = _) (fun H => apply calendar_validate_ok in H as [Hdays ->]).
  select (dataset_valid _ = _) (fun H => match type of H with _ = Ok ?u => destruct u end).
  split; [done|]. cbn [ds_bars ds_calendar ds_lot_size]. bool_inv.
  split; [|done]. select (mapR _ _ = _) (fun H => apply mapR_Forall2 in H; clear -H; rename H into E3).
  induction E3 as [|x y l l' H _ IH]; constructor; [|done]. by apply bar_validate_ok in H as [? _].
Qed.

Lemma dataset_valid_slots d : dataset_valid d = Ok tt ->
  expected_slots (days_by_date (c_days (ds_calendar d))) (ds_from d) (ds_to d) =
  Ok (b_start <$> ds_bars d).
Proof. unfold dataset_valid. intros E. ok_inv. bool_inv. congruence. Qed.

Lemma dataset_slots_walked d : dataset_valid d = Ok tt -> days_ok (c_days (ds_calendar d)) ->
  walked (days_by_date (c_days (ds_calendar d))) (ds_from d) (ds_to d) (nse_date (ds_from d))
    (b_start <$> ds_bars d).
Proof.
  intros Hv [_ Hd]. apply dataset_valid_slots in Hv. unfold expected_slots in Hv.
  destruct (Z.le_gt_cases 0 (nse_date (ds_to d - 1) - nse_date (ds_from d) + 1)).
  - rewrite <- (Z2Nat.id (_ - _ + 1)) in Hv by done.
    apply expected_walk in Hv as (suf & -> & Hc); [done|done].
  - rewrite seqZ_nil in Hv by lia. injection Hv as <-. apply walked_nil.
Qed.

Lemma dataset_feed d r : dataset_validate d = Ok r ->
  SessionFeed (ds_bars r) (days_by_date (c_days (ds_calendar r))).
Proof.
  intros E. apply dataset_validate_inv in E as (Hv & Hb & Hd & _).
  split; [done|]. by apply (dataset_slots_walked r Hv Hd).
Qed.
