(* ===== verification/Backtest.v ===== *)
(** * The backtest engine ([backtest/engine.py])

    The deterministic next-open engine: slippage and cost models, configuration,
    strategy interface, one simulation step per bar split the way the loop body is
    split (forced exit, resolution of the pending intent, marking, decision, end of
    session), the final metrics and [run].  The strategy callback is a parameter: a
    state machine that may fail. *)
From S2P Require Import Prelude Decimal DecimalFacts Text Dataset Costs Corpus.

(** [ARITHMETIC]: precision 80, [Inexact] trapped. *)
Definition ARITHMETIC : context := mk_context 80 true.
(** The context of [percent]. *)
Definition PERCENT : context := mk_context 80 false.

(** ** Slippage and cost models *)

Record AdverseBps := mkAdverseBps { bps : dec }.

Definition slippage_validate (s : AdverseBps) : res AdverseBps :=
  b ← parse_decimal (bps s);
  reject! dleb (dZ 10000) b as "INVALID_SLIPPAGE";
  Ok (mkAdverseBps b).

(** [AdverseBps.price] *)
Definition price (s : AdverseBps) (side : Side) (reference : dec) : res dec :=
  reject! dleb reference d0 as "INVALID_REFERENCE_PRICE";
  adjustment ← ddiv ARITHMETIC (bps s) (dZ 10000);
  factor ← (match side with
            | BUY => dadd ARITHMETIC (dZ 1) adjustment
            | SELL => dsub ARITHMETIC (dZ 1) adjustment end);
  dmul ARITHMETIC reference factor.

Record ConfiguredCosts := mkConfiguredCosts { fixed_per_fill : dec; notional_bps : dec }.

Definition configured_validate (c : ConfiguredCosts) : res ConfiguredCosts :=
  f ← parse_decimal (fixed_per_fill c); n ← parse_decimal (notional_bps c);
  reject! dleb (dZ 10000) n as "INVALID_COSTS";
  Ok (mkConfiguredCosts f n).

(** [ConfiguredCosts.costs] *)
Definition configured_costs (c : ConfiguredCosts) (notional : dec) : res dec :=
  reject! dltb notional d0 as "INVALID_NOTIONAL";
  scaled ← dmul ARITHMETIC notional (notional_bps c);
  rate ← ddiv ARITHMETIC scaled (dZ 10000);
  dadd ARITHMETIC (fixed_per_fill c) rate.

Inductive CostModel :=
| Configured (c : ConfiguredCosts)
| Scheduled (s : IntradayCostSchedule).

Definition cost_model_validate (m : CostModel) : res CostModel :=
  match m with
  | Configured c => c ← configured_validate c; Ok (Configured c)
  | Scheduled s => s ← schedule_validate s; Ok (Scheduled s)
  end.

(** ** Configuration *)

Record Config := mkConfig {
  initial_cash : dec; entry_start : Z; last_entry_time : Z; forced_exit_time : Z;
  slippage : AdverseBps; costs : CostModel
}.

Definition config_validate (c : Config) : res Config :=
  cash ← parse_decimal (initial_cash c);
  e ← parse_time (entry_start c); l ← parse_time (last_entry_time c);
  f ← parse_time (forced_exit_time c);
  s ← slippage_validate (slippage c); m ← cost_model_validate (costs c);
  require! dltb d0 cash && ((e <=? l) && (l <? f)) else "INVALID_CONFIG";
  Ok (mkConfig cash e l f s m).

Record StrategySpec := mkSpec {
  sp_name : string; sp_version : string; sp_implementation : string;
  sp_parameters : list (string * string)
}.

Definition parameter_ok (p : string * string) : bool :=
  label_ok p.1 && (len p.2 <=? 256) && all_chars (in_range 32 126) p.2.
Definition spec_validate (s : StrategySpec) : res StrategySpec :=
  require! label_ok (sp_name s) && label_ok (sp_version s) && hash_ok (sp_implementation s) &&
           forallb parameter_ok (sp_parameters s) else "INVALID_FIELD";
  reject! (100 <? Z.of_nat (length (sp_parameters s))) ||
          negb (keys_sorted ((fun p => [p.1]) <$> sp_parameters s))
    as "PARAMETERS_MUST_BE_UNIQUE_AND_SORTED";
  Ok s.

(** ** Records of a run *)

Record Intent := mkIntent { i_side : Side; i_quantity : Z; i_reason : string }.

Definition intent_validate (i : Intent) : res Intent :=
  require! quantity_ok (i_quantity i) && label_ok (i_reason i) else "INVALID_INTENT"; Ok i.

Record Position := mkPosition {
  pos_quantity : Z; pos_entry_price : dec; pos_entry_costs : dec; pos_unrealized : dec
}.
Record Decision := mkDecision {
  dc_instrument : string; dc_time : Z; dc_bars : list Bar; dc_position : Position;
  dc_cash : dec; dc_realized : dec; dc_parameters : list (string * string);
  dc_session_open : option Z; dc_session_close : option Z
}.

Inductive outcome_status :=
| FILLED | SUPERSEDED_BY_FORCED_EXIT | UNFILLED_END_OF_DATA | UNFILLED_SESSION_END
| LOT_SIZE_VIOLATION | NO_EXECUTABLE_VOLUME | ALREADY_LONG | OUTSIDE_ENTRY_WINDOW | OVERSELL
| PARTIAL_EXIT_UNSUPPORTED | INSUFFICIENT_CASH.
#[export] Instance outcome_status_eq_dec : EqDecision outcome_status.
Proof. solve_decision. Defined.

Record IntentOutcome := mkOutcome {
  o_intent_id : Z; o_created_at : Z; o_resolved_at : Z; o_side : Side; o_quantity : Z;
  o_reason : string; o_outcome : outcome_status
}.
Record Fill := mkFill {
  f_intent_id : Z; f_instrument : string; f_side : Side; f_quantity : Z; f_time : Z;
  f_reference : dec; f_slippage : dec; f_price : dec; f_notional : dec; f_costs : dec;
  f_forced : bool
}.
Record Trade := mkTrade {
  t_entry : Fill; t_exit : Fill; t_gross : dec; t_costs : dec; t_net : dec
}.
Record EquityPoint := mkPoint {
  e_time : Z; e_cash : dec; e_quantity : Z; e_mark : dec; e_unrealized : dec;
  e_realized : dec; e_equity : dec
}.
Record Metrics := mkMetrics {
  m_trade_count : Z; m_wins : Z; m_losses : Z; m_breakeven : Z; m_gross : dec; m_costs : dec;
  m_net : dec; m_return_percent : dec; m_win_rate_percent : dec; m_max_drawdown : dec;
  m_max_drawdown_percent : dec
}.

(** An intent waiting for the next open: identity, creation time, intent. *)
Record Pending := mkPending { pd_id : Z; pd_created : Z; pd_intent : Intent }.

(** The local variables of [_simulate]. *)
Record Sim := mkSim {
  cash : dec; realized : dec; entry : option Fill; pending : option Pending; next_id : Z;
  session_start_index : nat;
  outcomes : list IntentOutcome; fills : list Fill; trades : list Trade; curve : list EquityPoint
}.

Definition set_pending (p : option Pending) (s : Sim) : Sim :=
  mkSim (cash s) (realized s) (entry s) p (next_id s) (session_start_index s)
    (outcomes s) (fills s) (trades s) (curve s).
(** [pending = (next_id, at, intent); next_id += 1] *)
Definition propose (at_ : Z) (i : Intent) (s : Sim) : Sim :=
  mkSim (cash s) (realized s) (entry s) (Some (mkPending (next_id s) at_ i)) (next_id s + 1)
    (session_start_index s) (outcomes s) (fills s) (trades s) (curve s).
(** The local function [outcome]. *)
Definition outcome (p : Pending) (at_ : Z) (st : outcome_status) (s : Sim) : Sim :=
  mkSim (cash s) (realized s) (entry s) (pending s) (next_id s) (session_start_index s)
    (outcomes s ++ [mkOutcome (pd_id p) (pd_created p) at_ (i_side (pd_intent p))
       (i_quantity (pd_intent p)) (i_reason (pd_intent p)) st])
    (fills s) (trades s) (curve s).
Definition set_session_start (i : nat) (s : Sim) : Sim :=
  mkSim (cash s) (realized s) (entry s) (pending s) (next_id s) i
    (outcomes s) (fills s) (trades s) (curve s).
Definition add_point (p : EquityPoint) (s : Sim) : Sim :=
  mkSim (cash s) (realized s) (entry s) (pending s) (next_id s) (session_start_index s)
    (outcomes s) (fills s) (trades s) (curve s ++ [p]).

(** ** The feed: a dataset or a corpus *)

Inductive Feed := FDataset (d : Dataset) | FCorpus (c : Corpus).

Definition is_corpus (f : Feed) : bool := match f with FCorpus _ => true | _ => false end.
Definition feed_bars (f : Feed) : list Bar :=
  match f with FDataset d => ds_bars d | FCorpus c => corpus_bars c end.
Definition feed_days (f : Feed) : list Day :=
  match f with FDataset d => c_days (ds_calendar d) | FCorpus c => corpus_days c end.
Definition feed_instrument (f : Feed) : string :=
  match f with FDataset d => ds_instrument d | FCorpus c => corpus_instrument c end.
Definition feed_lot_size (f : Feed) : Z :=
  match f with FDataset d => ds_lot_size d | FCorpus c => corpus_lot_size c end.
Definition feed_fingerprint (f : Feed) : string :=
  match f with FDataset d => ds_content_fingerprint d | FCorpus c => co_content_fingerprint c end.
Definition feed_from (f : Feed) : Z := match f with FDataset d => ds_from d | FCorpus c => co_from c end.
Definition feed_to (f : Feed) : Z := match f with FDataset d => ds_to d | FCorpus c => co_to c end.
Definition feed_dataset_cutoff (f : Feed) : Z :=
  match f with FDataset d => ds_dataset_cutoff d | FCorpus c => corpus_dataset_cutoff c end.
Definition feed_decision_cutoff (f : Feed) : Z :=
  match f with FDataset d => ds_decision_cutoff d | FCorpus c => co_to c end.
Definition feed_validate (f : Feed) : res Feed :=
  match f with
  | FDataset d => d ← dataset_validate d; Ok (FDataset d)
  | FCorpus c => c ← corpus_validate c; Ok (FCorpus c)
  end.

(** ** One bar *)

Section step.
Context (feed : Feed) (config : Config) (spec : StrategySpec).
Context {St : Type} (on_decision : St -> Decision -> res (option Intent) * St).

Definition is_forced (bar : Bar) (s : Sim) : bool :=
  (nse_time (b_start bar) =? forced_exit_time config) && bool_decide (is_Some (entry s)).

(** Forced exit: it supersedes a pending intent and takes its place. *)
Definition open_forced (bar : Bar) (s : Sim) : Sim :=
  match entry s with
  | Some e =>
      if nse_time (b_start bar) =? forced_exit_time config then
        let s := match pending s with
                 | Some p => outcome p (b_start bar) SUPERSEDED_BY_FORCED_EXIT s
                 | None => s end in
        propose (b_start bar) (mkIntent SELL (f_quantity e) "FORCED_EXIT") s
      else s
  | None => s
  end.

(** The rejection rules that need no price. *)
Definition rejection_of (bar : Bar) (held : option Fill) (i : Intent) : option outcome_status :=
  let local := nse_time (b_start bar) in
  if negb (i_quantity i mod feed_lot_size feed =? 0) then Some LOT_SIZE_VIOLATION
  else if b_volume bar =? 0 then Some NO_EXECUTABLE_VOLUME
  else match i_side i with
       | BUY => match held with
                | Some _ => Some ALREADY_LONG
                | None => if negb ((entry_start config <=? local) && (local <=? last_entry_time config))
                          then Some OUTSIDE_ENTRY_WINDOW else None
                end
       | SELL => match held with
                 | None => Some OVERSELL
                 | Some e => if f_quantity e <? i_quantity i then Some OVERSELL
                             else if negb (i_quantity i =? f_quantity e)
                             then Some PARTIAL_EXIT_UNSUPPORTED else None
                 end
       end.

Definition fee_of (bar : Bar) (held : option Fill) (i : Intent) (rejection : option outcome_status)
    (notional : dec) : res dec :=
  match costs config with
  | Scheduled sched =>
      match rejection with
      | Some _ => Ok d0
      | None => quote_total sched (i_side i) notional (b_start bar) (f_notional <$> held)
      end
  | Configured c => configured_costs c notional
  end.

Definition check_cash (side : Side) (available notional fee : dec)
    (rejection : option outcome_status) : res (option outcome_status) :=
  match rejection with
  | Some r => Ok (Some r)
  | None =>
      match side with
      | BUY => need ← dadd ARITHMETIC notional fee;
               Ok (if dltb available need then Some INSUFFICIENT_CASH else None)
      | SELL => got ← dadd ARITHMETIC available notional;
                Ok (if dltb got fee then Some INSUFFICIENT_CASH else None)
      end
  end.

(** A buy: [cash -= notional + fee; entry = fill]. *)
Definition apply_buy (fill : Fill) (s : Sim) : res Sim :=
  debit ← dadd ARITHMETIC (f_notional fill) (f_costs fill);
  c ← dsub ARITHMETIC (cash s) debit;
  Ok (mkSim c (realized s) (Some fill) (pending s) (next_id s) (session_start_index s)
        (outcomes s) (fills s) (trades s) (curve s)).

(** A sell: the cash credit, the closed trade, the realized profit. *)
Definition apply_sell (e fill : Fill) (s : Sim) : res Sim :=
  credit ← dsub ARITHMETIC (f_notional fill) (f_costs fill);
  c ← dadd ARITHMETIC (cash s) credit;
  gross ← dsub ARITHMETIC (f_notional fill) (f_notional e);
  both ← dadd ARITHMETIC (f_costs e) (f_costs fill);
  net ← dsub ARITHMETIC gross both;
  r ← dadd ARITHMETIC (realized s) net;
  Ok (mkSim c r None (pending s) (next_id s) (session_start_index s)
        (outcomes s) (fills s) (trades s ++ [mkTrade e fill gross both net]) (curve s)).

Definition add_fill (fill : Fill) (s : Sim) : Sim :=
  mkSim (cash s) (realized s) (entry s) (pending s) (next_id s) (session_start_index s)
    (outcomes s) (fills s ++ [fill]) (trades s) (curve s).

(** The intent executes at the open. *)
Definition execute (bar : Bar) (forced : bool) (p : Pending) (px notional fee : dec) (s : Sim)
    : res Sim :=
  diff ← dsub ARITHMETIC px (b_open bar);
  slip ← dabs ARITHMETIC diff;
  let i := pd_intent p in
  let fill := mkFill (pd_id p) (feed_instrument feed) (i_side i) (i_quantity i) (b_start bar)
                (b_open bar) slip px notional fee forced in
  let s := outcome p (b_start bar) FILLED (add_fill fill s) in
  match i_side i with
  | BUY => apply_buy fill s
  | SELL => match entry s with
            | Some e => apply_sell e fill s
            | None => Err AssertionError
            end
  end.

Definition resolve (bar : Bar) (forced : bool) (s : Sim) : res Sim :=
  match pending s with
  | None => Ok s
  | Some p =>
      let i := pd_intent p in
      let rejection := rejection_of bar (entry s) i in
      px ← price (slippage config) (i_side i) (b_open bar);
      notional ← dmul ARITHMETIC px (dZ (i_quantity i));
      fee ← fee_of bar (entry s) i rejection notional;
      rejection ← check_cash (i_side i) (cash s) notional fee rejection;
      s ← (match rejection with
           | Some r => if forced : bool then Err (ValueError "FORCED_EXIT_UNAVAILABLE")
                       else Ok (outcome p (b_start bar) r s)
           | None => execute bar forced p px notional fee s
           end);
      Ok (set_pending None s)
  end.

Definition held_quantity (s : Sim) : Z := match entry s with Some e => f_quantity e | None => 0 end.
Definition held_price (s : Sim) : dec := match entry s with Some e => f_price e | None => d0 end.
Definition held_costs (s : Sim) : dec := match entry s with Some e => f_costs e | None => d0 end.

(** Marking to the close, with the ledger equation; also returns [unrealized]. *)
Definition mark (bar : Bar) (s : Sim) : res (Sim * dec) :=
  gain ← dsub ARITHMETIC (b_close bar) (held_price s);
  unrealized ← dmul ARITHMETIC gain (dZ (held_quantity s));
  value ← dmul ARITHMETIC (b_close bar) (dZ (held_quantity s));
  equity ← dadd ARITHMETIC (cash s) value;
  a ← dadd ARITHMETIC (initial_cash config) (realized s);
  b ← dadd ARITHMETIC a unrealized;
  expected ← dsub ARITHMETIC b (held_costs s);
  require! deqb equity expected else "LEDGER_INCONSISTENT";
  Ok (add_point (mkPoint (b_end bar) (cash s) (held_quantity s) (b_close bar) unrealized
                   (realized s) equity) s, unrealized).

(** The context handed to the strategy: the bars completed so far. *)
Definition decision_context (completed : list Bar) (bar : Bar) (unrealized : dec) (s : Sim)
    : res Decision :=
  day ← of_option KeyError (days_by_date (feed_days feed) !! nse_date (b_start bar));
  session ← of_option IndexError (head (d_sessions day));
  Ok (mkDecision (feed_instrument feed) (b_end bar)
        (if is_corpus feed then drop (session_start_index s) completed else completed)
        (mkPosition (held_quantity s) (held_price s) (held_costs s) unrealized)
        (cash s) (realized s) (sp_parameters spec)
        (Some (nse_combine (d_date day) (s_open session)))
        (Some (nse_combine (d_date day) (s_close session)))).

(** The callback; any failure, its own or of the validation of its proposal, is
    [STRATEGY_FAILURE]. *)
Definition consult (st : St) (d : Decision) : res (option Intent * St) :=
  let '(answer, st) := on_decision st d in
  match (o ← answer; match o with None => Ok None | Some i => Some <$> intent_validate i end) with
  | Ok o => Ok (o, st)
  | Err _ => Err (ValueError "STRATEGY_FAILURE")
  end.

Definition decide_step (completed : list Bar) (bar : Bar) (unrealized : dec) (st : St) (s : Sim)
    : res (Sim * St) :=
  d ← decision_context completed bar unrealized s;
  '(proposal, st) ← consult st d;
  Ok (match proposal with Some i => propose (b_end bar) i s | None => s end, st).

(** End of session: flat, and a pending intent expires. *)
Definition close_session (bar : Bar) (rest : list Bar) (s : Sim) : res Sim :=
  let final := is_nil rest in
  let session_end := match rest with
                     | [] => true
                     | next :: _ => negb (nse_date (b_start next) =? nse_date (b_start bar))
                     end in
  if session_end : bool then
    reject! bool_decide (is_Some (entry s)) as "OVERNIGHT_POSITION_FORBIDDEN";
    Ok (match pending s with
        | Some p => set_pending None (outcome p (b_end bar)
            (if final : bool then UNFILLED_END_OF_DATA else UNFILLED_SESSION_END) s)
        | None => s
        end)
  else Ok s.

Definition new_session (done : list Bar) (bar : Bar) (s : Sim) : Sim :=
  match last done with
  | Some prev => if nse_date (b_start prev) =? nse_date (b_start bar) then s
                 else set_session_start (length done) s
  | None => s
  end.

(** The loop body; [done] are the bars before [bar], [rest] the bars after it (only the
    date of the first of them is read, to detect the end of the session). *)
Definition step (done : list Bar) (bar : Bar) (rest : list Bar) (ss : Sim * St) : res (Sim * St) :=
  let '(s, st) := ss in
  let s := new_session done bar s in
  let forced := is_forced bar s in
  let s := open_forced bar s in
  s ← resolve bar forced s;
  '(s, unrealized) ← mark bar s;
  '(s, st) ← decide_step (done ++ [bar]) bar unrealized st s;
  s ← close_session bar rest s;
  Ok (s, st).

Fixpoint loop (done rest : list Bar) (ss : Sim * St) : res (Sim * St) :=
  match rest with
  | [] => Ok ss
  | bar :: rest => ss ← step done bar rest ss; loop (done ++ [bar]) rest ss
  end.
End step.

(** ** Metrics *)

Definition percent (numerator denominator : dec) : res dec :=
  if coef denominator =? 0 then Ok d0
  else
    scaled ← dmul PERCENT numerator (dZ 100);
    ratio ← ddiv PERCENT scaled denominator;
    quantize PERCENT ratio (-8).

(** One point of the drawdown scan; the state is [(peak, drawdown, drawdown_percent)]. *)
Definition drawdown_step (st : dec * dec * dec) (point : EquityPoint) : res (dec * dec * dec) :=
  let '(peak, drawdown, drawdown_percent) := st in
  let peak := dmax peak (e_equity point) in
  gap ← dsub ARITHMETIC peak (e_equity point);
  pct ← percent gap peak;
  Ok (peak, dmax drawdown gap, dmax drawdown_percent pct).

Definition count {A} (p : A -> bool) (l : list A) : Z := Z.of_nat (length (List.filter p l)).

(** The output record.  [dataset_artifact_fingerprint], the digest of the JSON dump of
    the feed, is left out. *)
Record Result := mkResult {
  r_engine_version : string; r_dataset_fingerprint : string; r_instrument : string;
  r_from : Z; r_to : Z; r_dataset_cutoff : Z; r_decision_cutoff : Z; r_spec : StrategySpec; r_config : Config;
  r_outcomes : list IntentOutcome; r_fills : list Fill; r_trades : list Trade;
  r_curve : list EquityPoint; r_final_cash : dec; r_final_position : Z; r_metrics : Metrics
}.

Definition engine_version (feed : Feed) (config : Config) : string :=
  if is_corpus feed then "intraday-next-open-v3-session-corpus"
  else match costs config with
       | Configured _ => "intraday-next-open-v1"
       | Scheduled _ => "intraday-next-open-v2-costs"
       end.

(** The part of [_simulate] after the loop. *)
Definition finish (feed : Feed) (config : Config) (spec : StrategySpec) (s : Sim) : res Result :=
  '(_, drawdown, drawdown_percent) ← foldR drawdown_step (initial_cash config, d0, d0) (curve s);
  total_costs ← dsum ARITHMETIC (f_costs <$> fills s);
  gross ← dsum ARITHMETIC (t_gross <$> trades s);
  reject! bool_decide (is_Some (entry s)) as "FINAL_LEDGER_INCONSISTENT";
  expected ← dadd ARITHMETIC (initial_cash config) (realized s);
  require! deqb (cash s) expected else "FINAL_LEDGER_INCONSISTENT";
  net ← dsub ARITHMETIC gross total_costs;
  require! deqb (realized s) net else "FINAL_LEDGER_INCONSISTENT";
  let n := Z.of_nat (length (trades s)) in
  let wins := count (fun t => dltb d0 (t_net t)) (trades s) in
  let losses := count (fun t => dltb (t_net t) d0) (trades s) in
  ret ← percent (realized s) (initial_cash config);
  rate ← percent (dZ wins) (dZ n);
  Ok (mkResult (engine_version feed config) (feed_fingerprint feed) (feed_instrument feed)
        (feed_from feed) (feed_to feed) (feed_dataset_cutoff feed) (feed_decision_cutoff feed) spec config
        (outcomes s) (fills s) (trades s) (curve s) (cash s) 0
        (mkMetrics n wins losses (n - wins - losses) gross total_costs (realized s) ret rate
           drawdown drawdown_percent)).

Definition sim_init (config : Config) : Sim :=
  mkSim (initial_cash config) d0 None None 1 0 [] [] [] [].

Section run.
Context {St : Type} (on_decision : St -> Decision -> res (option Intent) * St).

Definition simulate (feed : Feed) (config : Config) (spec : StrategySpec) (st : St) : res Result :=
  '(s, _) ← loop feed config spec on_decision [] (feed_bars feed) (sim_init config, st);
  finish feed config spec s.

Definition session_policy_ok (config : Config) (s : Session) : bool :=
  (s_open s <=? entry_start config) && (entry_start config <=? last_entry_time config) &&
  (last_entry_time config <? forced_exit_time config) && (forced_exit_time config <? s_close s).

(** [except DecimalException: raise ValueError("ARITHMETIC_FAILURE")] *)
Definition arithmetic_failure {A} (m : res A) : res A :=
  match m with Err (DecimalException _) => Err (ValueError "ARITHMETIC_FAILURE") | _ => m end.

Definition check_tariff_dates (config : Config) (bars : list Bar) : res unit :=
  match costs config with
  | Configured _ => Ok tt
  | Scheduled s => foldR (fun _ b => check_date s (cost_date s (b_start b))) tt bars
  end.

Definition run (feed : Feed) (config : Config) (spec : StrategySpec) (st : St) : res Result :=
  feed ← feed_validate feed;
  config ← config_validate config;
  spec ← spec_validate spec;
  require! forallb (fun d => forallb (session_policy_ok config) (d_sessions d)) (feed_days feed)
    else "SESSION_POLICY_OUTSIDE_SESSION";
  _ ← check_tariff_dates config (feed_bars feed);
  arithmetic_failure (simulate feed config spec st).
End run.
