(* ===== verification/MetricsFacts.v ===== *)
(** * Percentages and drawdowns

    [percent] stays within the bounds its arguments suggest although it rounds twice,
    and the drawdown scan of the engine computes the largest fall from an earlier
    value of the equity curve. *)
From S2P Require Import Prelude Decimal DecimalFacts Text Dataset Costs Corpus Backtest.

Lemma PERCENT_ok : context_ok PERCENT.
Proof. by apply mk_context_ok. Qed.

Lemma repr_shift c y k : repr c y -> 0 <= k -> repr c (y * p10 k).
Proof.
  intros (m & e & Ey & Hm & He) Hk. exists m, (e + k). split; [|split; [done|lia]].
  rewrite Ey, p10_add. ring.
Qed.

Lemma small_coef m : Z.abs m <= 10000000000 -> Z.abs m <= 10 ^ prec PERCENT.
Proof. intros H. transitivity (10 ^ 10); [done|]. apply Z.pow_le_mono_r; done. Qed.

(** ** [percent] *)

Section percent.
Context (E : exn -> Prop) (HE : forall e, decimal_error e -> E e).
Context (n d : dec) (Hd : (0 < dval d)%Q) (Hr : repr PERCENT (dval d)).

Lemma percent_unfold r : percent n d = Ok r -> exists scaled ratio,
  dmul PERCENT n (dZ 100) = Ok scaled /\ ddiv PERCENT scaled d = Ok ratio /\
  quantize PERCENT ratio (-8) = Ok r.
Proof.
  unfold percent. rewrite (proj2 (Z.eqb_neq _ _)); [intros E0; ok_inv; eauto|].
  intros H. apply dval_zero in H. rewrite H in Hd. by apply Qlt_irrefl in Hd.
Qed.

(** [k] is -1, 0 or 1: the bounds -100, 0 and 100. *)
Lemma hundred_repr k : -1 <= k <= 1 -> repr PERCENT (inject_Z k * dval d * p10 2).
Proof.
  intros Hk. apply repr_shift; [|done]. assert (k = -1 \/ k = 0 \/ k = 1) as [->|[->| ->]] by lia.
  - assert (He : inject_Z (-1) * dval d == - dval d) by ring. rewrite He. by apply repr_opp.
  - assert (He : inject_Z 0 * dval d == 0) by ring. rewrite He. by apply repr_0, PERCENT_ok.
  - assert (He : inject_Z 1 * dval d == dval d) by ring. by rewrite He.
Qed.
Lemma hundred_grid k : inject_Z (k * 100) == inject_Z (k * 10000000000) * p10 (-8).
Proof.
  rewrite !inject_Z_mult. change (p10 (-8)) with (1 # 100000000)%Q.
  change (inject_Z 100) with (100#1)%Q. change (inject_Z 10000000000) with (10000000000#1)%Q.
  rewrite <- Qmult_assoc. apply Qmult_comp; reflexivity.
Qed.

Lemma percent_le k r : -1 <= k <= 1 -> percent n d = Ok r ->
  (dval n <= inject_Z k * dval d)%Q -> (dval r <= inject_Z (k * 100))%Q.
Proof.
  intros Hk (scaled & ratio & E1 & E2 & E3)%percent_unfold Hn. rewrite hundred_grid.
  eapply quantize_le; [apply PERCENT_ok|done| |].
  { apply small_coef. lia. }
  rewrite <- hundred_grid. eapply ddiv_le; [apply PERCENT_ok|done| |].
  { apply repr_Z; [apply PERCENT_ok|]. apply small_coef. lia. }
  apply Qle_shift_div_r; [done|].
  transitivity (inject_Z k * dval d * p10 2)%Q.
  - eapply dmul_le; [apply PERCENT_ok|by apply hundred_repr|done|]. rewrite dval_Z.
    change (p10 2) with (inject_Z 100). apply Qmult_le_compat_r; done.
  - rewrite inject_Z_mult. change (p10 2) with (inject_Z 100). apply Qle_lteq. right. ring.
Qed.

Lemma percent_ge k r : -1 <= k <= 1 -> percent n d = Ok r ->
  (inject_Z k * dval d <= dval n)%Q -> (inject_Z (k * 100) <= dval r)%Q.
Proof.
  intros Hk (scaled & ratio & E1 & E2 & E3)%percent_unfold Hn. rewrite hundred_grid.
  eapply quantize_ge; [apply PERCENT_ok|done| |].
  { apply small_coef. lia. }
  rewrite <- hundred_grid. eapply ddiv_ge; [apply PERCENT_ok|done| |].
  { apply repr_Z; [apply PERCENT_ok|]. apply small_coef. lia. }
  apply Qle_shift_div_l; [done|].
  transitivity (inject_Z k * dval d * p10 2)%Q.
  - rewrite inject_Z_mult. change (p10 2) with (inject_Z 100). apply Qle_lteq. right. ring.
  - eapply dmul_ge; [apply PERCENT_ok|by apply hundred_repr|done|]. rewrite dval_Z.
    change (p10 2) with (inject_Z 100). apply Qmult_le_compat_r; done.
Qed.

Lemma wp_percent (Q : dec -> Prop) :
  (forall r, percent n d = Ok r -> Q r) -> wp E (percent n d) Q.
Proof.
  intros HQ. destruct (percent n d) as [r|e] eqn:E0; cbn; [by apply HQ|]. apply HE.
  unfold percent in E0. destruct (coef d =? 0); [done|].
  apply bind_Err in E0 as [E0|(x & _ & E0)]; [by eapply dfix_error|].
  apply bind_Err in E0 as [E0|(y & _ & E0)]; [by eapply ddiv_error|by eapply quantize_error].
Qed.
End percent.

(** ** The drawdown scan *)

(** [dd] is the largest fall of the sequence from an earlier (or the same) element. *)
Definition max_fall (xs : list Q) (dd : Q) : Prop :=
  (forall i j x y, (i <= j)%nat -> xs !! i = Some x -> xs !! j = Some y -> (x - y <= dd)%Q) /\
  (exists i j x y, (i <= j)%nat /\ xs !! i = Some x /\ xs !! j = Some y /\ dd == x - y).

Record scan_ok (xs : list Q) (st : dec * dec * dec) : Prop := {
  sc_peak_in : exists i x, xs !! i = Some x /\ dval st.1.1 == x;
  sc_peak_max : forall i x, xs !! i = Some x -> (x <= dval st.1.1)%Q;
  sc_peak_repr : repr PERCENT (dval st.1.1);
  sc_fall : max_fall xs (dval st.1.2);
  sc_percent : (0 <= dval st.2 <= 100)%Q
}.

Lemma max_fall_snoc xs peak dd y gap new :
  (exists i x, xs !! i = Some x /\ peak == x) -> (forall i x, xs !! i = Some x -> (x <= peak)%Q) ->
  max_fall xs dd -> gap == Qmax peak y - y -> new == Qmax dd gap -> max_fall (xs ++ [y]) new.
Proof.
  intros Hin Hmax [Hle Hex] Hgap Hnew. split.
  - intros i j a b Hij Hi Hj. rewrite Hnew.
    apply lookup_app_Some in Hj as [Hj|[Hlen Hj]].
    + apply lookup_app_Some in Hi as [Hi|[Hl Hi]]; [|apply lookup_lt_Some in Hj; lia].
      rewrite <- Q.le_max_l. by eapply Hle.
    + apply list_lookup_singleton_Some in Hj as [_ <-]. rewrite <- Q.le_max_r, Hgap.
      apply lookup_app_Some in Hi as [Hi|[_ Hi]].
      * specialize (Hmax _ _ Hi). pose proof (Q.le_max_l peak y). lra.
      * apply list_lookup_singleton_Some in Hi as [_ <-]. pose proof (Q.le_max_r peak y). lra.
  - destruct (Q.max_spec dd gap) as [[_ E]|[_ E]].
    + destruct (Q.max_spec peak y) as [[_ E']|[_ E']].
      * exists (length xs), (length xs), y, y. rewrite lookup_snoc_Some.
        repeat split; [lia|by right|by right|]. rewrite Hnew, E, Hgap, E'. ring.
      * destruct Hin as (i & x & Hi & Hx). exists i, (length xs), x, y.
        split; [apply lookup_lt_Some in Hi; lia|]. split; [by apply lookup_app_l_Some|].
        rewrite lookup_snoc_Some. split; [by right|]. rewrite Hnew, E, Hgap, E', Hx. reflexivity.
    + destruct Hex as (i & j & a & b & Hij & Hi & Hj & Hd). exists i, j, a, b.
      split; [done|]. split; [by apply lookup_app_l_Some|]. split; [by apply lookup_app_l_Some|].
      by rewrite Hnew, E.
Qed.

Section scan.
Context (E : exn -> Prop) (HE : forall e, decimal_error e -> E e).

Lemma wp_drawdown_step xs st point : scan_ok xs st -> xs <> [] ->
  (0 < dval st.1.1)%Q -> (0 <= dval (e_equity point))%Q -> repr PERCENT (dval (e_equity point)) ->
  wp E (drawdown_step st point) (fun st' =>
    scan_ok (xs ++ [dval (e_equity point)]) st' /\ (0 < dval st'.1.1)%Q).
Proof.
  intros [Hin Hmax Hr Hf Hp] _ Hpos Hge Hrp. destruct st as [[peak dd] pct]. cbn [fst snd] in *.
  unfold drawdown_step. set (peak' := dmax peak (e_equity point)).
  assert (Hv : dval peak' == Qmax (dval peak) (dval (e_equity point))) by apply dmax_val.
  assert (Hpos' : (0 < dval peak')%Q) by (pose proof (dmax_ge_l peak (e_equity point)); fold peak' in H; lra).
  assert (Hr' : repr PERCENT (dval peak')).
  { unfold peak'. by destruct (dmax_cases peak (e_equity point)) as [-> | ->]. }
  eapply wp_bind; [apply (wp_dsub E HE ARITHMETIC (mk_context_ok 80 true ltac:(done)) eq_refl)|].
  intros gap _ Hg. cbn beta in Hg.
  assert (Hg' : (0 <= dval gap <= dval peak')%Q).
  { pose proof (dmax_ge_r peak (e_equity point)). fold peak' in H. rewrite Hg. split; lra. }
  eapply wp_bind with (R := fun r => (0 <= dval r <= 100)%Q).
  { apply (wp_percent E HE). intros r Er. split.
    - apply (percent_ge gap peak' Hpos' Hr' 0 r ltac:(lia) Er). change (inject_Z 0) with 0%Q. lra.
    - apply (percent_le gap peak' Hpos' Hr' 1 r ltac:(lia) Er). change (inject_Z 1) with 1%Q. lra. }
  intros r _ Hr100. apply wp_Ok. cbn [fst snd]. split; [|done]. split; cbn [fst snd].
  - destruct (Q.max_spec (dval peak) (dval (e_equity point))) as [[_ Em]|[_ Em]].
    + exists (length xs), (dval (e_equity point)). rewrite lookup_snoc_Some. split; [by right|by rewrite Hv].
    + destruct Hin as (i & x & Hi & Hx). exists i, x. split; [by apply lookup_app_l_Some|]. by rewrite Hv, Em.
  - intros i x Hi. rewrite Hv. apply lookup_snoc_Some in Hi as [[_ Hi]|[_ <-]].
    + rewrite <- Q.le_max_l. by eapply Hmax.
    + apply Q.le_max_r.
  - done.
  - apply (max_fall_snoc xs (dval peak) (dval dd) _ (dval gap)); [exact Hin|exact Hmax|exact Hf| |].
    + by rewrite Hg, Hv.
    + apply dmax_val.
  - unfold dmax. by destruct (dltb pct r).
Qed.

Lemma wp_drawdown init points : (0 < dval init)%Q -> repr PERCENT (dval init) ->
  Forall (fun p => (0 <= dval (e_equity p))%Q /\ repr PERCENT (dval (e_equity p))) points ->
  wp E (foldR drawdown_step (init, d0, d0) points) (fun st =>
    max_fall (dval init :: (dval ∘ e_equity <$> points)) (dval st.1.2) /\ (0 <= dval st.2 <= 100)%Q).
Proof.
  intros Hi Hr Hall.
  eapply wp_mono.
  { apply (wp_foldR E (fun pre st => scan_ok (dval init :: (dval ∘ e_equity <$> pre)) st /\ (0 < dval st.1.1)%Q)).
    - intros pre p post st -> [Hs Hpos]. apply Forall_app in Hall as [_ Hall].
      apply Forall_cons in Hall as [[H1 H2] _].
      rewrite fmap_app, app_comm_cons. by apply wp_drawdown_step.
    - split; [|done]. split; cbn [fst snd fmap list_fmap].
      + exists 0%nat, (dval init). done.
      + intros [|i] x Hx; [injection Hx as <-; apply Qle_refl|done].
      + done.
      + split.
        * intros [|i] [|j] x y _ Hx Hy; try done. injection Hx as <-. injection Hy as <-.
          rewrite dval_Z. change (inject_Z 0) with 0%Q. lra.
        * exists 0%nat, 0%nat, (dval init), (dval init). rewrite dval_Z. change (inject_Z 0) with 0%Q.
          repeat split; [lia|]. ring.
      + rewrite dval_Z. split; [apply Qle_refl|done]. }
  intros st _ [[_ _ _ Hf Hp] _]. done.
Qed.
End scan.
