(* ===== verification/EngineFacts.v ===== *)
(** * The invariant of the backtest engine

    One weakest-precondition proof per phase of the loop body, for every strategy:
    starting from [Inv], the body re-establishes [Inv] and fails only with an error
    of [runtime_error].  The feed enters through [SessionFeed], the configuration
    through [ConfigOk]. *)
From S2P Require Import Prelude Decimal DecimalFacts Text Dataset MoneyFacts Costs CostsFacts Corpus FeedFacts.
From S2P Require Import Backtest MetricsFacts.

Lemma ARITHMETIC_ok : context_ok ARITHMETIC.
Proof. by apply mk_context_ok. Qed.

(** The only failures of a validated run. *)
Definition runtime_error (e : exn) : Prop :=
  decimal_error e \/ e = ValueError "FORCED_EXIT_UNAVAILABLE" \/ e = ValueError "STRATEGY_FAILURE".

Lemma decimal_runtime e : decimal_error e -> runtime_error e.
Proof. by left. Qed.
#[export] Hint Resolve decimal_runtime : kite.

Abbreviation add_wp := (wp_dadd runtime_error decimal_runtime ARITHMETIC ARITHMETIC_ok eq_refl).
Abbreviation sub_wp := (wp_dsub runtime_error decimal_runtime ARITHMETIC ARITHMETIC_ok eq_refl).
Abbreviation mul_wp := (wp_dmul runtime_error decimal_runtime ARITHMETIC ARITHMETIC_ok eq_refl).
Abbreviation div_wp := (wp_ddiv runtime_error decimal_runtime ARITHMETIC ARITHMETIC_ok eq_refl).
Abbreviation abs_wp := (wp_dabs runtime_error decimal_runtime ARITHMETIC ARITHMETIC_ok eq_refl).

(** [arith_wp] applies the specification of the arithmetic operation at the head;
    [arith H r] runs it, naming its result [r] and its value equation [H]. *)
Ltac arith_wp :=
  lazymatch goal with
  | |- wp _ (dadd _ _ _) _ => apply add_wp
  | |- wp _ (dsub _ _ _) _ => apply sub_wp
  | |- wp _ (dmul _ _ _) _ => apply mul_wp
  | |- wp _ (ddiv _ _ _) _ => apply div_wp
  | |- wp _ (dabs _ _) _ => apply abs_wp
  end.
Tactic Notation "arith" ident(H) ident(r) :=
  eapply wp_bind; [arith_wp|]; intros r _ H; cbn beta in H.

(** ** Slippage and cost models *)

Record slippage_ok (s : AdverseBps) : Prop := { sl_bps : (0 <= dval (bps s) < 10000)%Q }.

Definition adverse (side : Side) (reference px : Q) : Prop :=
  match side with BUY => (reference <= px)%Q | SELL => (px <= reference)%Q end.

Lemma bps_ratio x : x / 10000 == x * (1#10000).
Proof. reflexivity. Qed.

Lemma wp_price s side reference : slippage_ok s -> (0 < dval reference)%Q ->
  wp runtime_error (price s side reference) (fun px => (0 < dval px)%Q /\
    adverse side (dval reference) (dval px) /\
    dval px == dval reference * (1 + (match side with BUY => 1 | SELL => -1 end) * (dval (bps s) / 10000))).
Proof.
  intros [Hb] Hr. unfold price. apply wp_reject.
  { intros H. apply dleb_spec in H. rewrite dval_Z in H. change (inject_Z 0) with 0%Q in H. lra. }
  intros _. arith Ha a. rewrite dval_Z in Ha. change (inject_Z 10000) with (10000#1)%Q in Ha.
  assert (Hq : (0 <= dval (bps s) / 10000 < 1)%Q) by (rewrite bps_ratio; split; lra).
  remember (dval (bps s) / 10000)%Q as q eqn:Eq.
  eapply wp_bind with (R := fun f => dval f == 1 + (match side with BUY => 1 | SELL => -1 end) * q).
  { destruct side; (eapply wp_mono; [arith_wp|]); intros f _ Hf;
      cbn beta in *; rewrite Hf, Ha, dval_Z; change (inject_Z 1) with 1%Q; ring. }
  intros f _ Hf. cbn beta in Hf. eapply wp_mono; [arith_wp|]. intros px _ Hpx. cbn beta in Hpx.
  rewrite Hf in Hpx. destruct side; cbn [adverse]; split_and!; rewrite ?Hpx; nra.
Qed.

Record configured_ok (c : ConfiguredCosts) : Prop := {
  cc_fixed : (0 <= dval (fixed_per_fill c))%Q; cc_bps : (0 <= dval (notional_bps c))%Q
}.

Lemma wp_configured_costs c notional : configured_ok c -> (0 < dval notional)%Q ->
  wp runtime_error (configured_costs c notional) (fun r => (0 <= dval r)%Q /\
    dval r == dval (fixed_per_fill c) + dval notional * dval (notional_bps c) / 10000).
Proof.
  intros [H1 H2] Hn. unfold configured_costs. apply wp_reject.
  { intros H. apply dltb_spec in H. rewrite dval_Z in H. change (inject_Z 0) with 0%Q in H. lra. }
  intros _. arith Ha a. arith Hb b. eapply wp_mono; [arith_wp|]. intros r _ Hr. cbn beta in Hr.
  rewrite dval_Z in Hb. change (inject_Z 10000) with (10000#1)%Q in Hb. rewrite Hr, Hb, Ha.
  split; [|reflexivity].
  assert (0 <= dval notional * dval (notional_bps c))%Q by nra.
  assert (0 <= dval notional * dval (notional_bps c) / 10000)%Q by (rewrite bps_ratio; lra). lra.
Qed.

(** ** Configuration *)

Definition model_ok (m : CostModel) (bars : list Bar) : Prop :=
  match m with
  | Configured c => configured_ok c
  | Scheduled s => rates_ok s /\
      Forall (fun b => check_date s (cost_date s (b_start b)) = Ok tt) bars
  end.

(** What [run] has checked before it simulates. *)
Record ConfigOk (feed : Feed) (config : Config) : Prop := {
  ck_cash : (0 < dval (initial_cash config))%Q;
  ck_repr : repr PERCENT (dval (initial_cash config));
  ck_size : Z.of_nat (length (feed_bars feed)) <= 150000;
  ck_order : entry_start config <= last_entry_time config < forced_exit_time config;
  ck_aligned : forced_exit_time config mod MINUTE = 0;
  ck_slippage : slippage_ok (slippage config);
  ck_costs : model_ok (costs config) (feed_bars feed);
  ck_policy : forall date s, session_of (days_by_date (feed_days feed)) date s ->
    s_open s <= entry_start config /\ forced_exit_time config < s_close s;
  ck_lot : 1 <= feed_lot_size feed
}.

(** ** The invariant *)

Section invariant.
Context (feed : Feed) (config : Config) (spec : StrategySpec).
Context {St : Type} (on_decision : St -> Decision -> res (option Intent) * St).
Context (Hfeed : SessionFeed (feed_bars feed) (days_by_date (feed_days feed))).
Context (Hconfig : ConfigOk feed config).
Notation days := (days_by_date (feed_days feed)).

(** A fill executed at the open of a bar of the feed. *)
Record fill_ok (f : Fill) : Prop := {
  fo_instrument : f_instrument f = feed_instrument feed;
  fo_quantity : 1 <= f_quantity f /\ f_quantity f mod feed_lot_size feed = 0;
  fo_bar : exists bar, bar ∈ feed_bars feed /\ f_time f = b_start bar /\
    f_reference f = b_open bar /\ b_volume bar <> 0;
  fo_price : (0 < dval (f_price f))%Q;
  fo_adverse : adverse (f_side f) (dval (f_reference f)) (dval (f_price f));
  fo_slippage : dval (f_slippage f) == Qabs (dval (f_price f) - dval (f_reference f));
  fo_notional : dval (f_notional f) == dval (f_price f) * inject_Z (f_quantity f);
  fo_costs : (0 <= dval (f_costs f))%Q
}.

Record entry_ok (e : Fill) : Prop := {
  en_fill : fill_ok e; en_side : f_side e = BUY; en_forced : f_forced e = false;
  en_window : entry_start config <= nse_time (f_time e) <= last_entry_time config
}.

Record trade_ok (t : Trade) : Prop := {
  tr_entry : entry_ok (t_entry t);
  tr_exit : fill_ok (t_exit t); tr_side : f_side (t_exit t) = SELL;
  tr_quantity : f_quantity (t_exit t) = f_quantity (t_entry t);
  tr_day : nse_date (f_time (t_exit t)) = nse_date (f_time (t_entry t));
  tr_order : f_time (t_entry t) < f_time (t_exit t);
  tr_time : nse_time (f_time (t_exit t)) <= forced_exit_time config;
  tr_forced : f_forced (t_exit t) = true <-> nse_time (f_time (t_exit t)) = forced_exit_time config;
  tr_gross : dval (t_gross t) == dval (f_notional (t_exit t)) - dval (f_notional (t_entry t));
  tr_costs : dval (t_costs t) == dval (f_costs (t_entry t)) + dval (f_costs (t_exit t));
  tr_net : dval (t_net t) == dval (t_gross t) - dval (t_costs t)
}.

Definition qsum (l : list Q) : Q := foldr Qplus 0%Q l.
Definition opt_list {A} (o : option A) : list A := match o with Some x => [x] | None => [] end.
(** Cash spent on the open position. *)
Definition invested (o : option Fill) : Q :=
  match o with Some e => dval (f_notional e) + dval (f_costs e) | None => 0 end.
Definition fills_of (trades : list Trade) : list Fill :=
  mjoin ((fun t => [t_entry t; t_exit t]) <$> trades).

(** The books. *)
Record ledger (s : Sim) : Prop := {
  lg_cash : dval (cash s) == dval (initial_cash config) + dval (realized s) - invested (entry s);
  lg_nonneg : (0 <= dval (cash s))%Q;
  lg_realized : dval (realized s) == qsum (dval ∘ t_net <$> trades s);
  lg_trades : Forall trade_ok (trades s);
  lg_fills : fills s = fills_of (trades s) ++ opt_list (entry s);
  lg_entry : forall e, entry s = Some e -> entry_ok e
}.

(** An outcome [FILLED] and its fill. *)
Record filled_by (o : IntentOutcome) (f : Fill) : Prop := {
  fb_id : o_intent_id o = f_intent_id f; fb_side : o_side o = f_side f;
  fb_quantity : o_quantity o = f_quantity f; fb_time : o_resolved_at o = f_time f;
  fb_decided : f_forced f = false -> exists bar, bar ∈ feed_bars feed /\ b_end bar = f_time f
}.
Definition is_filled (o : IntentOutcome) : bool := bool_decide (o_outcome o = FILLED).

(** The intents: each identifier once, in order, resolved at the instant it was
    created for; the filled ones are the fills. *)
Record intents (s : Sim) : Prop := {
  it_next : 1 <= next_id s;
  it_ids : (o_intent_id <$> outcomes s) ++ (pd_id <$> opt_list (pending s)) = seqZ 1 (next_id s - 1);
  it_time : Forall (fun o => o_resolved_at o = o_created_at o) (outcomes s);
  it_filled : Forall2 filled_by (List.filter is_filled (outcomes s)) (fills s);
  it_quantity : forall p, pending s = Some p -> 1 <= i_quantity (pd_intent p)
}.

(** What holds at the open of the next bar. *)
Record ready (rest : list Bar) (s : Sim) : Prop := {
  rd_entry : forall e, entry s = Some e -> exists nb post, rest = nb :: post /\
    nse_date (b_start nb) = nse_date (f_time e) /\ f_time e < b_start nb /\
    nse_time (b_start nb) <= forced_exit_time config;
  rd_pending : forall p, pending s = Some p -> exists nb post, rest = nb :: post /\
    pd_created p = b_start nb /\ exists bar, bar ∈ feed_bars feed /\ b_end bar = b_start nb
}.

Record point_ok (b : Bar) (p : EquityPoint) : Prop := {
  pt_time : e_time p = b_end b; pt_mark : e_mark p = b_close b;
  pt_cash : (0 <= dval (e_cash p))%Q; pt_quantity : 0 <= e_quantity p;
  pt_equity : dval (e_equity p) == dval (e_cash p) + dval (b_close b) * inject_Z (e_quantity p);
  pt_nonneg : (0 <= dval (e_equity p))%Q;
  pt_repr : repr PERCENT (dval (e_equity p))
}.

Record Inv (done rest : list Bar) (s : Sim) : Prop := {
  inv_ledger : ledger s; inv_intents : intents s; inv_ready : ready rest s;
  inv_curve : Forall2 point_ok done (curve s)
}.

Lemma ledger_ext s s' : cash s' = cash s -> realized s' = realized s -> entry s' = entry s ->
  trades s' = trades s -> fills s' = fills s -> ledger s -> ledger s'.
Proof. intros H1 H2 H3 H4 H5 []. split; rewrite ?H1, ?H2, ?H3, ?H4, ?H5; done. Qed.

Lemma seqZ_snoc n : 1 <= n -> seqZ 1 (n - 1) ++ [n] = seqZ 1 (n + 1 - 1).
Proof.
  intros H. replace (n + 1 - 1) with ((n - 1) + 1) by lia. rewrite seqZ_app by lia.
  f_equal. by replace (1 + (n - 1)) with n by lia.
Qed.

(** Proposing an intent when none is pending. *)
Lemma intents_propose s at_ i : intents s -> pending s = None -> 1 <= i_quantity i ->
  intents (propose at_ i s).
Proof.
  intros [Hn Hi Ht Hf Hq] Hp Hiq. rewrite Hp in Hi. cbn [opt_list fmap list_fmap] in Hi.
  rewrite app_nil_r in Hi. split; cbn; try done; [lia| |by intros ? [= <-]].
  rewrite Hi. by apply seqZ_snoc.
Qed.

(** Resolving the pending intent without a fill. *)
Lemma intents_resolve s p at_ st : intents s -> pending s = Some p -> pd_created p = at_ ->
  st <> FILLED -> intents (set_pending None (outcome p at_ st s)).
Proof.
  intros [Hn Hi Ht Hf Hq] Hp Hc Hst. rewrite Hp in Hi. split; cbn; try done.
  - rewrite fmap_app, app_nil_r. done.
  - apply Forall_app. split; [done|]. by constructor.
  - rewrite List.filter_app. by destruct st; try done; rewrite app_nil_r.
Qed.

(** Resolving it with one. *)
Lemma intents_fill s p at_ fill s' : intents s -> pending s = Some p -> pd_created p = at_ ->
  filled_by (mkOutcome (pd_id p) (pd_created p) at_ (i_side (pd_intent p))
    (i_quantity (pd_intent p)) (i_reason (pd_intent p)) FILLED) fill ->
  pending s' = None -> next_id s' = next_id s -> fills s' = fills s ++ [fill] ->
  outcomes s' = outcomes (outcome p at_ FILLED s) -> intents s'.
Proof.
  intros [Hn Hi Ht Hf Hq] Hp Hc Hfill E1 E2 E3 E4. rewrite Hp in Hi.
  split; rewrite ?E1, ?E2, ?E3, ?E4; cbn; try done.
  - rewrite fmap_app, app_nil_r. done.
  - apply Forall_app. split; [done|]. by constructor.
  - rewrite List.filter_app. apply Forall2_app; [done|]. constructor; [exact Hfill|constructor].
Qed.

(** *** The forced exit *)

(** Between [open_forced] and [resolve]. *)
Record mid (bar : Bar) (forced : bool) (s : Sim) : Prop := {
  md_ledger : ledger s; md_intents : intents s;
  md_entry : forall e, entry s = Some e -> nse_date (b_start bar) = nse_date (f_time e) /\
    f_time e < b_start bar /\ nse_time (b_start bar) <= forced_exit_time config;
  md_pending : forall p, pending s = Some p -> pd_created p = b_start bar;
  md_forced : if forced then nse_time (b_start bar) = forced_exit_time config /\
      exists e p, entry s = Some e /\ pending s = Some p /\
        pd_intent p = mkIntent SELL (f_quantity e) "FORCED_EXIT"
    else (is_Some (entry s) -> nse_time (b_start bar) <> forced_exit_time config) /\
      (is_Some (pending s) -> exists b, b ∈ feed_bars feed /\ b_end b = b_start bar)
}.

Lemma intents_force s at_ i : intents s -> 1 <= i_quantity i ->
  (forall p, pending s = Some p -> pd_created p = at_) ->
  intents (propose at_ i (match pending s with
    | Some p => outcome p at_ SUPERSEDED_BY_FORCED_EXIT s | None => s end)).
Proof.
  intros H Hi Hp. destruct (pending s) as [p|] eqn:E; [|by apply intents_propose].
  exact (intents_propose _ at_ i (intents_resolve s p at_ SUPERSEDED_BY_FORCED_EXIT H E
    (Hp _ eq_refl) ltac:(done)) eq_refl Hi).
Qed.

Lemma open_forced_mid bar rest s : ledger s -> intents s -> ready (bar :: rest) s ->
  mid bar (is_forced config bar s) (open_forced config bar s).
Proof.
  intros Hl Hi [He Hp]. unfold is_forced, open_forced.
  assert (Hp' : forall p, pending s = Some p -> pd_created p = b_start bar /\
    exists b, b ∈ feed_bars feed /\ b_end b = b_start bar).
  { intros p E. by destruct (Hp _ E) as (? & ? & [= <- <-] & ? & ?). }
  destruct (entry s) as [e|] eqn:Ee.
  - destruct (He e eq_refl) as (? & ? & [= <- <-] & Hd & Ht & Hf).
    destruct (nse_time _ =? _) eqn:E; bool_inv; cbn [andb].
    + rewrite bool_decide_eq_true_2 by done.
      destruct (lg_entry _ Hl _ Ee) as [[_ [Hq _] _ _ _ _ _ _] _ _ _].
      split.
      * eapply ledger_ext; [..|exact Hl]; by destruct (pending s).
      * apply intents_force; [done..|]. intros p Hq'. by apply Hp'.
      * intros e' E'. assert (e' = e) as -> by (destruct (pending s); cbn in E'; congruence). done.
      * by intros p [= <-].
      * split; [done|]. eexists e, _. split; [by destruct (pending s)|]. by split.
    + split; try done.
      * intros e' E'. simplify_eq. done.
      * intros p E'. by apply Hp'.
      * split; [done|]. intros [p E']. by apply (Hp' p).
  - rewrite bool_decide_eq_false_2, andb_false_r by (by intros [? ?]). split; try done.
    + intros e E'. congruence.
    + intros p E'. by apply Hp'.
    + rewrite Ee. split; [by intros [? ?]|]. intros [p E']. by apply (Hp' p).
Qed.

(** *** The resolution of the pending intent *)

Lemma rejection_None bar held i : rejection_of feed config bar held i = None ->
  i_quantity i mod feed_lot_size feed = 0 /\ b_volume bar <> 0 /\
  match i_side i with
  | BUY => held = None /\ entry_start config <= nse_time (b_start bar) <= last_entry_time config
  | SELL => exists e, held = Some e /\ i_quantity i = f_quantity e
  end.
Proof.
  unfold rejection_of. intros H. destruct (negb _) eqn:E1; [done|].
  destruct (b_volume bar =? 0) eqn:E2; [done|]. bool_inv. split; [done|]. split; [done|].
  destruct (i_side i).
  - destruct held; [done|]. destruct (negb _) eqn:E3; [done|]. by bool_inv.
  - destruct held as [e|]; [|done]. exists e. split; [done|].
    destruct (f_quantity e <? i_quantity i); [done|]. destruct (negb _) eqn:E3; [done|]. by bool_inv.
Qed.

Lemma wp_fee_of bar held i rejection notional : bar ∈ feed_bars feed -> (0 < dval notional)%Q ->
  (rejection = None -> i_side i = SELL -> exists e, held = Some e /\ (0 < dval (f_notional e))%Q) ->
  wp runtime_error (fee_of config bar held i rejection notional) (fun fee => 0 <= dval fee)%Q.
Proof.
  intros Hbar Hn Hheld. unfold fee_of. pose proof (ck_costs _ _ Hconfig) as Hc.
  destruct (costs config) as [c|sched]; cbn [model_ok] in Hc.
  - eapply wp_mono; [by apply wp_configured_costs|]. by intros r _ [? _].
  - destruct Hc as [Hr Hdates]. rewrite Forall_forall in Hdates.
    destruct rejection; [by apply wp_Ok; rewrite dval_Z|].
    eapply wp_mono; [apply (wp_quote_total _ _ _ _ _ runtime_error decimal_runtime)|].
    + intros e He. rewrite (Hdates bar Hbar) in He. done.
    + intros H. apply dleb_spec in H. rewrite dval_Z in H. change (inject_Z 0) with 0%Q in H. lra.
    + intros H. destruct (i_side i) eqn:Es; [done|].
      destruct (Hheld eq_refl eq_refl) as (e & -> & Hpos). apply dleb_spec in H.
      rewrite dval_Z in H. change (inject_Z 0) with 0%Q in H. lra.
    + intros r _ Er. cbn beta in Er. rewrite Er. destruct (i_side i) eqn:Es.
      * apply (tariff_nonneg _ Hr BUY _ 0); lra.
      * apply tariff_nonneg; [done|lra|]. destruct (Hheld eq_refl eq_refl) as (e & -> & Hpos).
        by apply Qlt_le_weak.
Qed.

Lemma fills_of_snoc l t : fills_of (l ++ [t]) = fills_of l ++ [t_entry t; t_exit t].
Proof. unfold fills_of. by rewrite fmap_app, join_app. Qed.
Lemma qsum_app {A} (f : A -> Q) l l' : qsum (f <$> l ++ l') == qsum (f <$> l) + qsum (f <$> l').
Proof.
  induction l as [|x l IH]; [symmetry; apply Qplus_0_l|].
  transitivity (f x + qsum (f <$> l ++ l'))%Q; [reflexivity|]. rewrite IH. apply Qplus_assoc.
Qed.
Lemma qsum_snoc {A} (f : A -> Q) l x : qsum (f <$> l ++ [x]) == qsum (f <$> l) + f x.
Proof.
  rewrite qsum_app. apply Qplus_comp; [reflexivity|]. apply Qplus_0_r.
Qed.

(** The frame of an execution. *)
Record executed (p : Pending) (at_ : Z) (fill : Fill) (s s' : Sim) : Prop := {
  ex_next : next_id s' = next_id s; ex_fills : fills s' = fills s ++ [fill];
  ex_outcomes : outcomes s' = outcomes (outcome p at_ FILLED s); ex_curve : curve s' = curve s
}.

Lemma wp_apply_buy p at_ fill s : ledger s -> entry s = None -> entry_ok fill ->
  (dval (f_notional fill) + dval (f_costs fill) <= dval (cash s))%Q ->
  wp runtime_error (apply_buy fill (outcome p at_ FILLED (add_fill fill s))) (fun s' =>
    ledger s' /\ entry s' = Some fill /\ executed p at_ fill s s').
Proof.
  intros [Hc Hn Hr Ht Hf _] He Hfill Hcash. unfold apply_buy. arith Hd debit. arith Hc' c.
  apply wp_Ok. split; [|by split]. rewrite He in *. cbn [invested opt_list] in *.
  split; cbn -[dval]; try done.
  - rewrite Hc', Hd. cbn [cash outcome add_fill]. rewrite Hc. ring.
  - rewrite Hc', Hd. cbn [cash outcome add_fill]. lra.
  - rewrite Hf, app_nil_r. done.
  - by intros e [= <-].
Qed.

Lemma wp_apply_sell p at_ e fill s : ledger s -> entry s = Some e ->
  (forall g c n, dval g == dval (f_notional fill) - dval (f_notional e) ->
    dval c == dval (f_costs e) + dval (f_costs fill) -> dval n == dval g - dval c ->
    trade_ok (mkTrade e fill g c n)) ->
  (dval (f_costs fill) <= dval (cash s) + dval (f_notional fill))%Q ->
  wp runtime_error (apply_sell e fill (outcome p at_ FILLED (add_fill fill s))) (fun s' =>
    ledger s' /\ entry s' = None /\ executed p at_ fill s s').
Proof.
  intros [Hc Hn Hr Ht Hf _] He Htrade Hcash. unfold apply_sell.
  arith Hcr credit. arith Hc' c. arith Hg g. arith Hb both. arith Hnet net. arith Hr' r.
  apply wp_Ok. split; [|by split]. rewrite He in *.
  cbn [invested opt_list cash realized trades outcome add_fill] in *.
  split; cbn -[dval fills_of]; try done.
  - rewrite Hc', Hcr, Hr', Hnet, Hg, Hb, Hc. ring.
  - rewrite Hc', Hcr. lra.
  - rewrite qsum_snoc, <- Hr, Hr'. reflexivity.
  - apply Forall_app. split; [done|]. constructor; [|done]. by apply Htrade.
  - rewrite Hf, fills_of_snoc, app_nil_r, <- app_assoc. done.
Qed.

Lemma wp_check_cash side available notional fee rejection : rejection <> Some FILLED ->
  wp runtime_error (check_cash side available notional fee rejection) (fun o => o <> Some FILLED).
Proof.
  intros H. destruct rejection as [r|]; [done|]. cbn [check_cash].
  destruct side; (eapply wp_bind; [arith_wp|]); intros x _ _; apply wp_Ok; cbn beta; destruct (dltb _ _); congruence.
Qed.

Lemma check_cash_None side available notional fee rejection :
  check_cash side available notional fee rejection = Ok None -> rejection = None /\
  match side with
  | BUY => (dval notional + dval fee <= dval available)%Q
  | SELL => (dval fee <= dval available + dval notional)%Q
  end.
Proof.
  destruct rejection as [r|]; [done|]. intros E. split; [done|].
  destruct side; apply bind_Ok in E as (x & Ex & E); injection E as E;
    destruct (dltb _ _) eqn:El; try done; apply dltb_false in El;
    rewrite (dadd_exact ARITHMETIC ARITHMETIC_ok eq_refl _ _ _ Ex) in El; done.
Qed.

Lemma rejection_not_filled bar held i : rejection_of feed config bar held i <> Some FILLED.
Proof. unfold rejection_of. repeat case_match; done. Qed.

(** After [resolve]. *)
Record settled (bar : Bar) (s : Sim) : Prop := {
  st_ledger : ledger s; st_intents : intents s; st_pending : pending s = None;
  st_entry : forall e, entry s = Some e -> nse_date (b_start bar) = nse_date (f_time e) /\
    f_time e <= b_start bar /\ nse_time (b_start bar) < forced_exit_time config
}.

Lemma executed_settled bar p fill s s' : executed p (b_start bar) fill s s' -> ledger s' ->
  intents s -> pending s = Some p -> pd_created p = b_start bar ->
  f_intent_id fill = pd_id p -> f_side fill = i_side (pd_intent p) ->
  f_quantity fill = i_quantity (pd_intent p) -> f_time fill = b_start bar ->
  (f_forced fill = false -> exists b, b ∈ feed_bars feed /\ b_end b = b_start bar) ->
  (forall e, entry s' = Some e -> nse_date (b_start bar) = nse_date (f_time e) /\
    f_time e <= b_start bar /\ nse_time (b_start bar) < forced_exit_time config) ->
  settled bar (set_pending None s') /\ curve (set_pending None s') = curve s.
Proof.
  intros [E1 E2 E3 E4] Hl Hi Hp Hc F1 F2 F3 F4 F5 He. split; [|done]. split; [by apply (ledger_ext s')|
    |done|done].
  eapply (intents_fill s p (b_start bar) fill); [done|done|done| |done..].
  split; cbn; try done. by rewrite F4.
Qed.

Lemma mid_forced_side bar forced s p : mid bar forced s -> pending s = Some p ->
  i_side (pd_intent p) = BUY -> forced = false.
Proof.
  intros [_ _ _ _ Hf] Hp Hs. destruct forced; [|done].
  destruct Hf as (_ & e & p' & _ & E & Hi). rewrite E in Hp. simplify_eq. by rewrite Hi in Hs.
Qed.

(** The exit of the open position closes a well-formed trade. *)
Lemma exit_trade bar forced s e p x :
  mid bar forced s -> entry s = Some e -> pending s = Some p -> fill_ok x -> f_side x = SELL ->
  f_time x = b_start bar -> f_forced x = forced -> f_quantity x = f_quantity e ->
  forall g c n, dval g == dval (f_notional x) - dval (f_notional e) ->
    dval c == dval (f_costs e) + dval (f_costs x) -> dval n == dval g - dval c ->
    trade_ok (mkTrade e x g c n).
Proof.
  intros [Hl Hi Hen Hp Hf] He Ep Hx Hs Ht Hfo Hq g c n Hg Hc Hn.
  destruct (Hen _ He) as (Hd & Hlt & Hle). pose proof (lg_entry _ Hl _ He).
  split; cbn; try done; rewrite ?Ht, ?Hfo; try done.
  destruct forced; [naive_solver|]. destruct Hf as [Hf _]. split; [done|].
  intros E. by destruct (Hf ltac:(by rewrite He)).
Qed.

Lemma wp_execute bar forced p px notional fee s :
  mid bar forced s -> pending s = Some p -> bar ∈ feed_bars feed ->
  rejection_of feed config bar (entry s) (pd_intent p) = None -> (0 < dval px)%Q ->
  adverse (i_side (pd_intent p)) (dval (b_open bar)) (dval px) ->
  dval notional == dval px * inject_Z (i_quantity (pd_intent p)) -> (0 <= dval fee)%Q ->
  match i_side (pd_intent p) with
  | BUY => (dval notional + dval fee <= dval (cash s))%Q
  | SELL => (dval fee <= dval (cash s) + dval notional)%Q
  end ->
  wp runtime_error (execute feed bar forced p px notional fee s) (fun s' =>
    settled bar (set_pending None s') /\ curve (set_pending None s') = curve s).
Proof.
  intros Hmid Hp Hbar Hrej Hpx Hadv Hnot Hfee Hcash. pose proof Hmid as [Hl Hi Hen Hpend Hforced].
  apply rejection_None in Hrej as (Hlot & Hvol & Hside). unfold execute.
  arith Hdiff diff. arith Hslip slip. rewrite Hdiff in Hslip.
  set (fill := mkFill _ _ _ _ _ _ _ _ _ _ _).
  assert (Hfill : fill_ok fill).
  { pose proof (it_quantity _ Hi _ Hp). split; cbn; try done. by exists bar. }
  pose proof (Hpend _ Hp) as Hcreated. destruct (i_side (pd_intent p)) eqn:Es.
  - destruct Hside as [He Hw]. pose proof (mid_forced_side _ _ _ _ Hmid Hp Es) as ->.
    eapply wp_mono; [apply wp_apply_buy; [done|done| |done]; by split|].
    intros s' _ (Hl' & He' & Hex).
    eapply (executed_settled bar p fill s s' Hex Hl' Hi Hp Hcreated); cbn; try done.
    + intros _. apply Hforced. by rewrite Hp.
    + intros e. rewrite He'. intros [= <-]. cbn. destruct (ck_order _ _ Hconfig). lia.
  - destruct Hside as (e & He & Hq). cbn [entry outcome add_fill]. rewrite He.
    eapply wp_mono; [apply (wp_apply_sell p _ e fill s Hl He); [|done]|].
    { by apply (exit_trade bar forced s e p). }
    intros s' _ (Hl' & He' & Hex).
    eapply (executed_settled bar p fill s s' Hex Hl' Hi Hp Hcreated); cbn; try done.
    + intros ->. apply Hforced. by rewrite Hp.
    + by rewrite He'.
Qed.

Lemma wp_resolve bar forced s : mid bar forced s -> bar ∈ feed_bars feed ->
  wp runtime_error (resolve feed config bar forced s) (fun s' =>
    settled bar s' /\ curve s' = curve s).
Proof.
  intros Hmid Hbar. pose proof Hmid as [Hl Hi Hen Hpend Hforced]. unfold resolve.
  destruct (pending s) as [p|] eqn:Hp.
  2:{ apply wp_Ok. split; [|done]. split; [done..|]. intros e He. destruct (Hen _ He) as (? & ? & ?).
      destruct forced; [destruct Hforced as (_ & ? & ? & _ & ? & _); congruence|].
      destruct Hforced as [Hne _]. specialize (Hne ltac:(by rewrite He)). lia. }
  rewrite <- Hp in Hpend, Hforced. pose proof (it_quantity _ Hi _ Hp) as Hqty.
  assert (Hopen : (0 < dval (b_open bar))%Q).
  { pose proof (sf_bars (SessionFeed := Hfeed)) as Hb. rewrite Forall_forall in Hb.
    destruct (Hb _ Hbar) as [_ ? [? _] _ _]. lra. }
  eapply wp_bind; [apply wp_price; [apply Hconfig|done]|]. intros px _ (Hpx & Hadv & _).
  arith Hnot notional. rewrite dval_Z in Hnot.
  assert (Hn : (0 < dval notional)%Q).
  { rewrite Hnot. assert (0 < inject_Z (i_quantity (pd_intent p)))%Q by (rewrite <- (Zlt_Qlt 0); lia). nra. }
  eapply wp_bind; [apply wp_fee_of; [done|done|]|].
  { intros Hr Hs. apply rejection_None in Hr as (_ & _ & Hside). rewrite Hs in Hside.
    destruct Hside as (e & He & _). exists e. split; [done|].
    pose proof (en_fill _ (lg_entry _ Hl _ He)) as [_ [Hq _] _ Hpr _ _ Hno _]. rewrite Hno.
    assert (0 < inject_Z (f_quantity e))%Q by (rewrite <- (Zlt_Qlt 0); lia). nra. }
  intros fee _ Hfee. cbn beta in Hfee.
  eapply wp_bind; [apply wp_check_cash, rejection_not_filled|]. intros [r|] Ec Hr; cbn beta in Hr.
  - destruct forced; cbn [mbind res_bind]; [right; by left|]. apply wp_Ok. split; [|done]. split.
    + by apply (ledger_ext s).
    + apply intents_resolve; [done|done|by apply Hpend|congruence].
    + done.
    + intros e He. destruct (Hen _ He) as (? & ? & ?). destruct Hforced as [Hne _].
      specialize (Hne (ex_intro _ _ He)). lia.
  - apply check_cash_None in Ec as [Hrej Hcash].
    eapply wp_bind; [by apply (wp_execute bar forced p px notional fee s)|].
    intros s' _ Hs'. by apply wp_Ok.
Qed.

(** *** Marking *)

Lemma settled_ext bar s s' : settled bar s -> cash s' = cash s -> realized s' = realized s ->
  entry s' = entry s -> trades s' = trades s -> fills s' = fills s -> pending s' = pending s ->
  next_id s' = next_id s -> outcomes s' = outcomes s -> settled bar s'.
Proof.
  intros [H1 [] H3 H4] E1 E2 E3 E4 E5 E6 E7 E8. split; [by apply (ledger_ext s)| |congruence|by rewrite E3].
  split; rewrite ?E1, ?E2, ?E3, ?E4, ?E5, ?E6, ?E7, ?E8; done.
Qed.

Lemma wp_mark bar s : settled bar s -> bar_ok bar ->
  wp runtime_error (mark config bar s) (fun r => settled bar r.1 /\
    exists pt, curve r.1 = curve s ++ [pt] /\ point_ok bar pt).
Proof.
  intros Hs Hbar. pose proof Hs as [[Hc Hn Hr _ _ He] _ _ _]. unfold mark.
  arith Hg gain. arith Hu unrealized. arith Hv value.
  eapply wp_bind; [arith_wp|]. intros equity Eeq Heq. cbn beta in Heq.
  arith Ha a. arith Hb b. arith Hx expected. rewrite dval_Z in Hu, Hv.
  assert (Hbal : dval equity == dval expected).
  { rewrite Hx, Hb, Ha, Hu, Hg, Heq, Hv, Hc. unfold held_price, held_quantity, held_costs, invested.
    destruct (entry s) as [e|]; [rewrite (fo_notional _ (en_fill _ (He _ eq_refl))); ring|].
    rewrite !dval_Z. ring. }
  apply wp_require; [intros Hne; apply deqb_false in Hne; by destruct Hne|]. intros _.
  apply wp_Ok. split; [by apply (settled_ext bar s)|]. eexists. split; [reflexivity|].
  destruct Hbar as [_ Hlow _ [Hcl _] _].
  assert (0 <= held_quantity s) by (unfold held_quantity; destruct (entry s) as [e|]; [|done];
    destruct (fo_quantity _ (en_fill _ (He _ eq_refl))); lia).
  split; cbn -[dval held_quantity]; try done.
  - by rewrite Heq, Hv.
  - rewrite Heq, Hv. assert (0 <= inject_Z (held_quantity s))%Q by (by rewrite <- (Zle_Qle 0)). nra.
  - exact (dfix_repr ARITHMETIC _ _ ARITHMETIC_ok Eeq).
Qed.

(** *** The decision *)

Lemma wp_decision_context completed bar unrealized s t rest :
  chain days (t :: rest) -> t = b_start bar ->
  wp runtime_error (decision_context feed spec completed bar unrealized s) (fun d => dc_time d = b_end bar).
Proof.
  intros [(ss & (day & E & _ & Es & _) & _) _] ->. unfold decision_context. rewrite E. cbn [of_option mbind res_bind].
  rewrite Es. by apply wp_Ok.
Qed.

Lemma wp_consult st d : wp runtime_error (consult on_decision st d) (fun r =>
  forall i, r.1 = Some i -> 1 <= i_quantity i).
Proof.
  unfold consult. destruct (on_decision st d) as [answer st']. destruct (answer ≫= _) as [o|e] eqn:E;
    [|by right; right]. cbn [wp fst]. intros i ->. apply bind_Ok in E as ([i'|] & _ & E); [|done].
  unfold intent_validate, quantity_ok in E. destruct (_ && _) eqn:Eq; [|done]. cbn in E. simplify_eq.
  bool_inv. lia.
Qed.

(** After the decision. *)
Record decided (bar : Bar) (s : Sim) : Prop := {
  de_ledger : ledger s; de_intents : intents s;
  de_pending : forall p, pending s = Some p -> pd_created p = b_end bar;
  de_entry : forall e, entry s = Some e -> nse_date (b_start bar) = nse_date (f_time e) /\
    f_time e <= b_start bar /\ nse_time (b_start bar) < forced_exit_time config
}.

Lemma wp_decide completed bar unrealized st s rest :
  settled bar s -> chain days (b_start bar :: rest) ->
  wp runtime_error (decide_step feed spec on_decision completed bar unrealized st s) (fun r =>
    decided bar r.1 /\ curve r.1 = curve s).
Proof.
  intros Hs Hch. unfold decide_step.
  eapply wp_bind; [by eapply wp_decision_context|]. intros d _ _.
  eapply wp_bind; [apply wp_consult|]. intros [proposal st'] _ Hq. cbn [fst] in Hq. apply wp_Ok.
  destruct Hs as [H1 H2 H3 H4]. destruct proposal as [i|]; cbn [fst].
  - split; [|done]. split; [by apply (ledger_ext s)|by apply intents_propose; auto| |done].
    by intros p [= <-].
  - split; [|done]. split; try done. intros p E. congruence.
Qed.

(** *** The end of the session *)

Lemma wp_close_session bar rest s : decided bar s -> bar ∈ feed_bars feed ->
  b_start bar mod MINUTE = 0 -> chain days (b_start <$> bar :: rest) ->
  wp runtime_error (close_session bar rest s) (fun s' =>
    ledger s' /\ intents s' /\ ready rest s' /\ curve s' = curve s).
Proof.
  intros [H1 H2 H3 H4] Hbar Hal [(ss & Hss & Hin & Hl) _]. unfold close_session.
  pose proof (ck_policy _ _ Hconfig _ _ Hss) as [_ Hpol].
  pose proof (ck_aligned _ _ Hconfig) as Hfa.
  assert (Hsession_end : nse_time (b_start bar) + MINUTE = s_close ss ->
    wp runtime_error (reject! bool_decide (is_Some (entry s)) as "OVERNIGHT_POSITION_FORBIDDEN";
      Ok (match pending s with
          | Some p => set_pending None (outcome p (b_end bar)
              (if is_nil rest then UNFILLED_END_OF_DATA else UNFILLED_SESSION_END) s)
          | None => s end)) (fun s' => ledger s' /\ intents s' /\ ready rest s' /\ curve s' = curve s)).
  { intros Hend. destruct (entry s) as [e|] eqn:Ee.
    { exfalso. destruct (H4 _ eq_refl) as (_ & _ & Hlt).
      pose proof (aligned_lt _ _ (nse_time_aligned _ Hal) Hfa Hlt). lia. }
    rewrite bool_decide_eq_false_2 by (by intros [? ?]). cbn [raise_if mbind res_bind].
    apply wp_Ok. destruct (pending s) as [p|] eqn:Ep.
    - split; [by apply (ledger_ext s)|]. split; [|split; [|done]].
      + apply intents_resolve; [done..|by apply H3|by destruct (is_nil rest)].
      + split; cbn; [by rewrite Ee|done].
    - split; [done|]. split; [done|]. split; [|done]. split; congruence. }
  destruct rest as [|nb rest]; cbn [linked fmap list_fmap] in Hl; [by apply Hsession_end|].
  destruct Hl as [[Ht Hd]|[Hd Hend]].
  - rewrite Hd, Z.eqb_refl. cbn [negb]. apply wp_Ok. split; [done|]. split; [done|]. split; [|done].
    split.
    + intros e He. destruct (H4 _ He) as (E1 & E2 & E3). exists nb, rest. split; [done|].
      split; [congruence|]. rewrite Ht. pose proof MINUTE_pos. split; [lia|].
      rewrite <- Ht. pose proof (nse_time_same_day _ _ Hd).
      pose proof (aligned_lt _ _ (nse_time_aligned _ Hal) Hfa E3). lia.
    + intros p Hp. exists nb, rest. split; [done|]. split; [by rewrite (H3 _ Hp), Ht|]. by exists bar.
  - rewrite (proj2 (Z.eqb_neq _ _)) by lia. by apply Hsession_end.
Qed.

(** *** The loop *)

Lemma wp_step done bar rest s st : feed_bars feed = done ++ bar :: rest ->
  Inv done (bar :: rest) s ->
  wp runtime_error (step feed config spec on_decision done bar rest (s, st)) (fun r =>
    Inv (done ++ [bar]) rest r.1).
Proof.
  intros Hbars [Hl Hi Hr Hc].
  assert (Hbar : bar ∈ feed_bars feed) by (rewrite Hbars; set_solver).
  assert (Hok : bar_ok bar).
  { pose proof (sf_bars (SessionFeed := Hfeed)) as H. rewrite Forall_forall in H. by apply H. }
  assert (Hch : chain days (b_start <$> bar :: rest)).
  { pose proof (sf_chain (SessionFeed := Hfeed)) as H. rewrite Hbars, fmap_app in H.
    by apply chain_app_r in H. }
  unfold step. set (s1 := new_session done bar s).
  assert (H1 : ledger s1 /\ intents s1 /\ ready (bar :: rest) s1 /\ curve s1 = curve s).
  { unfold s1, new_session. destruct (last done) as [prev|]; [|done].
    destruct (_ =? _); [done|]. split; [by apply (ledger_ext s)|].
    destruct Hi, Hr. repeat split; done. }
  destruct H1 as (Hl1 & Hi1 & Hr1 & Hc1).
  pose proof (open_forced_mid bar rest s1 Hl1 Hi1 Hr1) as Hmid.
  assert (Hc2 : curve (open_forced config bar s1) = curve s).
  { rewrite <- Hc1. unfold open_forced. repeat case_match; done. }
  eapply wp_bind; [by apply wp_resolve|]. intros s3 _ [Hs3 Hc3].
  eapply wp_bind; [by apply wp_mark|]. intros [s4 u] _ (Hs4 & pt & Hc4 & Hpt). cbn [fst] in *.
  eapply wp_bind; [by eapply (wp_decide _ _ _ _ _ (b_start <$> rest))|].
  intros [s5 st'] _ [Hs5 Hc5]. cbn [fst] in *.
  eapply wp_bind; [apply wp_close_session; [done|done|apply Hok|done]|].
  intros s6 _ (Hl6 & Hi6 & Hr6 & Hc6). apply wp_Ok. split; [done..|]. cbn [fst].
  rewrite Hc6, Hc5, Hc4, Hc3, Hc2. apply Forall2_app; [done|]. by constructor.
Qed.

Lemma wp_loop done rest s st : feed_bars feed = done ++ rest -> Inv done rest s ->
  wp runtime_error (loop feed config spec on_decision done rest (s, st)) (fun r =>
    Inv (feed_bars feed) [] r.1).
Proof.
  revert done s st. induction rest as [|bar rest IH]; intros done s st Hb Hinv; cbn [loop].
  - apply wp_Ok. cbn [fst]. by rewrite Hb, app_nil_r.
  - eapply wp_bind; [by apply wp_step|]. intros [s' st'] _ Hinv'. apply IH; [|done].
    by rewrite <- app_assoc.
Qed.

Lemma inv_init : Inv [] (feed_bars feed) (sim_init config).
Proof.
  split; [| | |constructor].
  - split; cbn -[dval]; try done; [rewrite dval_Z; ring|apply Qlt_le_weak, Hconfig].
  - by split.
  - by split.
Qed.

(** *** The final checks *)

Lemma invested_fills s : ledger s ->
  qsum (dval ∘ f_costs <$> fills s) == qsum (dval ∘ t_costs <$> trades s) +
    match entry s with Some e => dval (f_costs e) | None => 0 end.
Proof.
  intros [_ _ _ Ht Hf _]. rewrite Hf. clear Hf.
  rewrite qsum_app. apply Qplus_comp.
  - induction Ht as [|t l Htr _ IH]; [reflexivity|].
    change (fills_of (t :: l)) with ([t_entry t; t_exit t] ++ fills_of l). rewrite qsum_app, IH.
    cbn -[dval fills_of]. unfold qsum. rewrite (tr_costs _ Htr). ring.
  - destruct (entry s); cbn -[dval]; [ring|reflexivity].
Qed.

Lemma net_sum s : ledger s -> qsum (dval ∘ t_net <$> trades s) ==
  qsum (dval ∘ t_gross <$> trades s) - qsum (dval ∘ t_costs <$> trades s).
Proof.
  intros [_ _ _ Ht _ _]. induction Ht as [|t l Htr _ IH]; [reflexivity|].
  unfold qsum in *. cbn -[dval]. rewrite IH, (tr_net _ Htr). ring.
Qed.

(** At most one fill per bar. *)
Lemma execute_fills bar forced p px notional fee s s' :
  execute feed bar forced p px notional fee s = Ok s' -> length (fills s') = S (length (fills s)).
Proof.
  unfold execute. intros E. apply bind_Ok in E as (diff & _ & E). apply bind_Ok in E as (slip & _ & E).
  destruct (i_side _); [|cbn [entry outcome add_fill] in E; destruct (entry s); [|done]];
    unfold apply_buy, apply_sell in E; ok_inv; cbn; rewrite length_app; cbn; lia.
Qed.

Lemma resolve_fills bar forced s s' : resolve feed config bar forced s = Ok s' ->
  (length (fills s') <= S (length (fills s)))%nat.
Proof.
  unfold resolve. destruct (pending s) as [p|]; [|intros [= ->]; lia]. intros E.
  apply bind_Ok in E as (px & _ & E). apply bind_Ok in E as (notional & _ & E).
  apply bind_Ok in E as (fee & _ & E). apply bind_Ok in E as ([r|] & _ & E).
  - destruct forced; [done|]. ok_inv. cbn. lia.
  - apply bind_Ok in E as (s1 & E1 & E). apply execute_fills in E1. ok_inv. cbn. lia.
Qed.

Lemma step_fills done bar rest ss ss' :
  step feed config spec on_decision done bar rest ss = Ok ss' ->
  (length (fills ss'.1) <= S (length (fills ss.1)))%nat.
Proof.
  destruct ss as [s st]. unfold step. set (s1 := open_forced _ _ _).
  assert (H1 : fills s1 = fills s).
  { unfold s1, open_forced, new_session. repeat case_match; done. }
  intros E. apply bind_Ok in E as (s2 & E2 & E).
  assert (H2 : (length (fills s2) <= S (length (fills s)))%nat).
  { rewrite <- H1. by eapply resolve_fills. }
  apply bind_Ok in E as ([s3 u] & E3 & E). apply bind_Ok in E as ([s4 st'] & E4 & E). ok_inv.
  assert (H3 : fills s3 = fills s2).
  { unfold mark in E3. ok_inv. done. }
  assert (H4 : fills s4 = fills s3).
  { unfold decide_step in E4. apply bind_Ok in E4 as (d & _ & E4).
    apply bind_Ok in E4 as ([[i|] st2] & _ & E4); ok_inv; done. }
  cbn [fst]. replace (fills r) with (fills s4); [by rewrite H4, H3|].
  unfold close_session in E0. destruct (match rest with [] => _ | _ => _ end); ok_inv; [|done].
  by destruct (pending s4).
Qed.

Lemma loop_fills done rest ss ss' :
  loop feed config spec on_decision done rest ss = Ok ss' ->
  (length (fills ss'.1) <= length (fills ss.1) + length rest)%nat.
Proof.
  revert done ss. induction rest as [|bar rest IH]; intros done ss E; cbn [loop] in E.
  - ok_inv. lia.
  - apply bind_Ok in E as (ss1 & E1 & E). apply step_fills in E1. apply IH in E. cbn. lia.
Qed.
End invariant.
