(* ===== verification/CorpusFacts.v ===== *)
(** * A validated corpus is a session feed

    The shard loop of [Corpus.valid] keeps the map of the days it has seen; the bars
    of the shards form one chain over that map, and the final coverage check carries
    the chain over to the corpus calendar. *)
From S2P Require Import Prelude Decimal DecimalFacts Text Dataset MoneyFacts Corpus FeedFacts.
From Stdlib Require Import Sorted.

(** ** The map of the days seen *)

Lemma see_day_fold active days seen seen' : foldR (see_day active) seen days = Ok seen' ->
  (forall k d, seen !! k = Some d -> seen' !! k = Some d) /\
  (forall d, d ∈ days -> d_date d ∈ active ->
    seen !! d_date d = None /\ seen' !! d_date d = Some d).
Proof.
  revert seen. induction days as [|x days IH]; intros seen E; cbn [foldR] in E.
  - injection E as ->. split; [done|]. by intros ? ?%elem_of_nil.
  - apply bind_Ok in E as (seen1 & E1 & E). apply IH in E as [Hm Hd]. unfold see_day in E1.
    case_bool_decide as Hx; [|injection E1 as <-; split; [done|]; intros d [->|H]%elem_of_cons; [done|auto]].
    apply bind_Ok in E1 as (u & Eu & E1). injection E1 as <-. apply raise_if_Ok in Eu.
    apply bool_decide_eq_false in Eu. apply eq_None_not_Some in Eu. split.
    + intros k d Hk. apply Hm. rewrite lookup_insert_ne; [done|]. congruence.
    + intros d [->|H]%elem_of_cons Ha.
      * split; [done|]. apply Hm. by rewrite lookup_insert_eq.
      * destruct (Hd d H Ha) as [Hn Hs]. split; [|done]. by apply lookup_insert_None in Hn as [? _].
Qed.

Lemma days_by_date_elem days d : NoDup (d_date <$> days) -> d ∈ days ->
  days_by_date days !! d_date d = Some d.
Proof.
  induction days as [|x l IH] using rev_ind; [by intros _ ?%elem_of_nil|].
  rewrite days_by_date_snoc, fmap_app. intros Hnd Hin. apply NoDup_app in Hnd as (Hl & Hx & _).
  apply elem_of_app in Hin as [Hin|Hin%list_elem_of_singleton]; [|by subst; rewrite lookup_insert_eq].
  rewrite lookup_insert_ne; [auto|]. intros E. apply (Hx (d_date d)); [by apply list_elem_of_fmap_2|].
  rewrite <- E. set_solver.
Qed.

(** ** The shard loop *)

(** What the validation of a shard guarantees. *)
Record shard_ok (d : Dataset) : Prop := {
  sh_bars : Forall bar_ok (ds_bars d);
  sh_window : ds_from d < ds_to d;
  sh_lot : 1 <= ds_lot_size d;
  sh_walked : walked (days_by_date (c_days (ds_calendar d))) (ds_from d) (ds_to d)
    (nse_date (ds_from d)) (b_start <$> ds_bars d)
}.

Lemma dataset_validate_shard d r : dataset_validate d = Ok r -> shard_ok r.
Proof.
  intros E. apply dataset_validate_inv in E as (Hv & Hb & Hd & Hq). unfold quantity_ok in Hq.
  split; [done| |by bool_inv|by apply dataset_slots_walked].
  unfold dataset_valid in Hv. ok_inv. bool_inv. lia.
Qed.

Definition starts (shards : list Dataset) : list Z := b_start <$> mjoin (ds_bars <$> shards).
Lemma starts_app l l' : starts (l ++ l') = starts l ++ starts l'.
Proof. unfold starts. by rewrite fmap_app, join_app, fmap_app. Qed.
Lemma starts_single d : starts [d] = b_start <$> ds_bars d.
Proof. unfold starts. cbn [fmap list_fmap mjoin list_join]. by rewrite app_nil_r. Qed.

(** The shards already checked: their bars are a chain over the days seen, before
    [previous]. *)
Record seen_ok (shards : list Dataset) (st : gmap Z Day * Z) : Prop := {
  se_chain : chain st.1 (starts shards);
  se_before : forall t, t ∈ starts shards -> t < st.2;
  se_seen : forall t, t ∈ starts shards -> is_Some (st.1 !! nse_date t)
}.


Lemma chain_day days l t : chain days l -> t ∈ l ->
  exists d, days !! nse_date t = Some d /\ d_date d = nse_date t.
Proof.
  induction l as [|x l IH]; cbn [chain]; [by intros _ ?%elem_of_nil|].
  intros [(s & (d & E & Ed & _) & _) H] [->|Hin]%elem_of_cons; [by exists d|auto].
Qed.

Lemma check_shard_seen first to pre shard st st' : shard_ok shard -> seen_ok pre st ->
  check_shard first to st shard = Ok st' -> seen_ok (pre ++ [shard]) st'.
Proof.
  intros [_ Hft _ [Hc _ Hw]] [C B S] E. destruct st as [seen previous]. unfold check_shard in E.
  apply bind_Ok in E as (? & _ & E). apply bind_Ok in E as (? & _ & E).
  apply bind_Ok in E as (? & Hle & E). apply raise_if_Ok in Hle. bool_inv.
  apply bind_Ok in E as (seen' & Es & E). injection E as <-. cbn [fst snd] in *.
  apply see_day_fold in Es as [Hm Hd].
  assert (Hnew : forall t, t ∈ b_start <$> ds_bars shard -> seen !! nse_date t = None /\
    seen' !! nse_date t = days_by_date (c_days (ds_calendar shard)) !! nse_date t).
  { intros t Ht. destruct (chain_day _ _ _ Hc Ht) as (d & E & Ed). rewrite E.
    apply days_by_date_Some in E as [Hin _]. rewrite <- Ed. apply Hd; [done|].
    unfold active_dates. rewrite Ed. apply list_elem_of_fmap in Ht as (b & -> & Hb).
    by apply (list_elem_of_fmap_2 (nse_date ∘ b_start)). }
  assert (Hold : forall t, t ∈ starts pre -> seen' !! nse_date t = seen !! nse_date t).
  { intros t Ht. destruct (S _ Ht) as [d E]. rewrite E. by apply Hm. }
  split; rewrite ?starts_app, ?starts_single; cbn [fst snd].
  - apply chain_app.
    + by eapply chain_days.
    + eapply chain_days; [done|]. intros t Ht. by apply Hnew.
    + intros t t' Ht Ht'. specialize (B _ Ht). specialize (Hw _ Ht'). destruct (Hnew _ Ht') as [Hn _].
      pose proof (nse_date_mono t t' ltac:(lia)). destruct (S _ Ht) as [d E].
      assert (nse_date t <> nse_date t') by congruence. lia.
  - intros t [Ht|Ht]%elem_of_app; [|apply Hw in Ht; lia]. specialize (B _ Ht).
    lia.
  - intros t [Ht|Ht]%elem_of_app.
    + rewrite (Hold _ Ht). auto.
    + destruct (Hnew _ Ht) as [_ ->]. destruct (chain_day _ _ _ Hc Ht) as (d & -> & _). done.
Qed.

(** ** The corpus *)

Lemma corpus_validate_inv c r : corpus_validate c = Ok r ->
  corpus_valid r = Ok tt /\ Forall shard_ok (co_shards r).
Proof.
  unfold corpus_validate. intros E. ok_inv.
  select (corpus_valid _ = _) (fun H => match type of H with _ = Ok ?u => destruct u end).
  split; [done|]. cbn [co_shards].
  select (mapR dataset_validate _ = _) (fun H => apply mapR_Forall2 in H; clear -H; rename H into E3).
  induction E3 as [|x y l l' H _ IH]; constructor; [|done]. by eapply dataset_validate_shard.
Qed.

Lemma corpus_seen c : corpus_valid c = Ok tt -> Forall shard_ok (co_shards c) ->
  NoDup (d_date <$> corpus_days c) /\
  exists previous, seen_ok (co_shards c) (days_by_date (filter is_expected (corpus_days c)), previous).
Proof.
  unfold corpus_valid. intros E Hs. cbv zeta in E.
  repeat (apply bind_Ok in E as (? & ? & E)).
  repeat match goal with H : raise_unless _ _ = Ok _ |- _ => apply raise_unless_Ok in H end.
  match goal with H : foldR _ _ _ = Ok ?x |- _ => destruct x as [seen previous]; rename H into Hfold end.
  repeat (apply bind_Ok in E as (? & ? & E)).
  repeat match goal with H : raise_unless _ _ = Ok _ |- _ => apply raise_unless_Ok in H end.
  bool_inv. subst seen. split.
  - match goal with H : d_date <$> _ = seqZ _ _ |- _ => rewrite H end. apply NoDup_seqZ.
  - exists previous. apply (foldR_prefix_inv seen_ok) in Hfold; [done| |].
    + intros pre shard post st st' Hsh. apply check_shard_seen. rewrite Hsh in Hs.
      by apply Forall_app in Hs as [_ [? _]%Forall_cons].
    + split; [done|by intros ? ?%elem_of_nil..].
Qed.

Lemma corpus_feed c r : corpus_validate c = Ok r ->
  SessionFeed (corpus_bars r) (days_by_date (corpus_days r)).
Proof.
  intros [Hv Hs]%corpus_validate_inv. destruct (corpus_seen r Hv Hs) as (Hnd & previous & [C _ S]).
  cbn [fst snd] in *. split.
  - unfold corpus_bars. clear -Hs. induction Hs as [|d l [Hd _ _ _] _ IH]; [constructor|].
    cbn [fmap list_fmap mjoin list_join]. by apply Forall_app.
  - change (b_start <$> corpus_bars r) with (starts (co_shards r)). eapply chain_days; [done|].
    intros t Ht. destruct (S _ Ht) as [d E]. rewrite E. apply days_by_date_Some in E as [Hin <-].
    apply days_by_date_elem; [done|]. by apply list_elem_of_filter in Hin as [_ Hin].
Qed.

(** ** Validation is a closure, and the minute grid

    Validating a validated record changes nothing (the engine validates again what it
    is handed), and the bars of a validated dataset are exactly the minutes of the
    expected sessions of its window, in order. *)

(** ** Idempotence *)

Lemma mapR_idem {A} (f : A -> res A) l l' : (forall x y, f x = Ok y -> f y = Ok y) ->
  mapR f l = Ok l' -> mapR f l' = Ok l'.
Proof.
  intros Hf. revert l'. induction l as [|x l IH]; intros l' E; cbn [mapR] in E.
  - injection E as <-. done.
  - apply bind_Ok in E as (y & Ey & E). apply bind_Ok in E as (ys & Eys & E). injection E as <-.
    cbn [mapR]. rewrite (Hf _ _ Ey). cbn [mbind res_bind]. by rewrite (IH _ Eys).
Qed.

Lemma parse_optional_idem o r : parse_optional o = Ok r -> parse_optional r = Ok r.
Proof.
  destruct o as [d|]; cbn; [|by intros [= <-]]. intros (x & E & Ex)%bind_Ok. injection Ex as <-.
  cbn. by rewrite (parse_decimal_idem _ _ E).
Qed.

Lemma bar_validate_idem b r : bar_validate b = Ok r -> bar_validate r = Ok r.
Proof.
  unfold bar_validate. intros E.
  apply bind_Ok in E as (o & Eo & E). apply bind_Ok in E as (h & Eh & E).
  apply bind_Ok in E as (l & El & E). apply bind_Ok in E as (c & Ec & E).
  apply bind_Ok in E as (u & Eu & E). apply bind_Ok in E as (i & Ei & E).
  apply bind_Ok in E as (v & Ev & E). injection E as <-.
  cbn [b_open b_high b_low b_close b_volume b_interest b_start].
  rewrite (parse_decimal_idem _ _ Eo), (parse_decimal_idem _ _ Eh), (parse_decimal_idem _ _ El),
    (parse_decimal_idem _ _ Ec). cbn [mbind res_bind]. rewrite Eu. cbn [mbind res_bind].
  rewrite (parse_optional_idem _ _ Ei). cbn [mbind res_bind]. by rewrite Ev.
Qed.

Lemma calendar_validate_idem c r : calendar_validate c = Ok r -> calendar_validate r = Ok r.
Proof. intros E. pose proof (calendar_validate_ok _ _ E) as [_ ->]. done. Qed.

Lemma dataset_validate_fixed d r : dataset_validate d = Ok r -> dataset_validate r = Ok r.
Proof.
  unfold dataset_validate. intros E. apply bind_Ok in E as (u & Eu & E).
  apply bind_Ok in E as (cal & Ecal & E). apply bind_Ok in E as (bars & Ebars & E).
  cbv zeta in E. apply bind_Ok in E as (v & Ev & E). injection E as <-.
  cbn [ds_symbol ds_lot_size ds_content_fingerprint ds_provenance ds_calendar ds_bars ds_instrument
    ds_from ds_to ds_decision_cutoff ds_dataset_cutoff].
  rewrite Eu. cbn [mbind res_bind]. rewrite (calendar_validate_idem _ _ Ecal). cbn [mbind res_bind].
  rewrite (mapR_idem _ _ _ bar_validate_idem Ebars). cbn [mbind res_bind]. by rewrite Ev.
Qed.

Lemma corpus_validate_fixed c r : corpus_validate c = Ok r -> corpus_validate r = Ok r.
Proof.
  unfold corpus_validate. intros E. apply bind_Ok in E as (u & Eu & E).
  apply bind_Ok in E as (cals & Ecals & E). apply bind_Ok in E as (shards & Eshards & E).
  cbv zeta in E. apply bind_Ok in E as (v & Ev & E). injection E as <-.
  cbn [co_content_fingerprint co_calendars co_shards co_from co_to].
  rewrite Eu. cbn [mbind res_bind]. rewrite (mapR_idem _ _ _ calendar_validate_idem Ecals).
  cbn [mbind res_bind]. rewrite (mapR_idem _ _ _ dataset_validate_fixed Eshards).
  cbn [mbind res_bind]. by rewrite Ev.
Qed.

(** ** The minutes of the expected sessions *)

(** [t] is a minute of the confirmed session of its date. *)
Definition session_minute (days : gmap Z Day) (t : Z) : Prop :=
  t mod MINUTE = 0 /\ exists day s, days !! nse_date t = Some day /\
    d_status day = EXPECTED_SESSION /\ d_sessions day = [s] /\ s_open s <= nse_time t < s_close s.

Lemma slots_elem date s t : session_ok s -> t ∈ session_slots date s <->
  nse_date t = date /\ s_open s <= nse_time t < s_close s /\ t mod MINUTE = 0.
Proof.
  intros [Ho Hlt Hc [Ha _]]. unfold session_slots. rewrite grid_elem by done. unfold nse_combine.
  pose proof (nse_clock t) as [Et Hr].
  assert (Hmod : (t - (date * DAY + s_open s - NSE_OFFSET)) mod MINUTE = t mod MINUTE).
  { apply Z.mod_divide in Ha as [k Ha]; [|done]. rewrite Ha.
    replace (t - _) with (t + (- (date * 1440) - k + 330) * MINUTE)
      by (unfold DAY, NSE_OFFSET, HOUR, MINUTE, SECOND; lia).
    by rewrite Z.mod_add. }
  rewrite Hmod. split.
  - intros [H1 H2]. assert (nse_date t = date) by (unfold nse_date; symmetry; apply Z.div_unique with
      (t + NSE_OFFSET - date * DAY); lia). subst date. lia.
  - intros (<- & H2 & H3). lia.
Qed.

Lemma expected_of_date_elem days from to acc cursor r :
  Forall (fun d => Forall session_ok (d_sessions d)) days ->
  expected_of_date (days_by_date days) from to acc cursor = Ok r ->
  forall t, t ∈ r <-> t ∈ acc \/ (nse_date t = cursor /\ session_minute (days_by_date days) t).
Proof.
  intros Hok. unfold expected_of_date, session_minute.
  destruct (days_by_date days !! cursor) as [day|] eqn:Ed; [|done].
  pose proof (days_by_date_Some _ _ _ Ed) as [Hin _]. rewrite Forall_forall in Hok.
  specialize (Hok _ Hin). destruct (d_status day) eqn:Es.
  - destruct (d_sessions day) as [|s [|]] eqn:Ess; try done. apply Forall_cons in Hok as [Hs _].
    intros E t. apply bind_Ok in E as (u & _ & E). injection E as <-.
    rewrite elem_of_app, slots_elem by done. split.
    + intros [H|(H1 & H2 & H3)]; [by left|right]. split; [done|]. split; [done|]. exists day, s. by rewrite H1.
    + intros [H|(H1 & H2 & day' & s' & H3 & _ & H4 & H5)]; [by left|right]. rewrite H1, Ed in H3.
      injection H3 as <-. rewrite Ess in H4. injection H4 as <-. done.
  - intros E t. injection E as <-. split; [by left|]. intros [H|(H1 & _ & day' & s' & H3 & H4 & _)]; [done|].
    rewrite H1, Ed in H3. injection H3 as <-. congruence.
  - done.
Qed.

Lemma expected_slots_elem days from to l : Forall (fun d => Forall session_ok (d_sessions d)) days ->
  expected_slots (days_by_date days) from to = Ok l ->
  forall t, t ∈ l <-> nse_date from <= nse_date t <= nse_date (to - 1) /\
    session_minute (days_by_date days) t.
Proof.
  intros Hok E t. unfold expected_slots in E.
  pose (P := fun (pre l : list Z) => forall t, t ∈ l <-> nse_date t ∈ pre /\
    session_minute (days_by_date days) t).
  assert (H : P (seqZ (nse_date from) (nse_date (to - 1) - nse_date from + 1)) l).
  { eapply (foldR_prefix_inv P); [| |exact E].
    - intros pre x post l1 l2 _ IH E1 u. rewrite (expected_of_date_elem _ _ _ _ _ _ Hok E1 u), (IH u).
      rewrite elem_of_app, list_elem_of_singleton. tauto.
    - intros u. split; [by intros ?%elem_of_nil|]. by intros [?%elem_of_nil _]. }
  rewrite (H t), elem_of_seqZ. split; intros [? ?]; split; try done; lia.
Qed.

Lemma chain_sorted days l : chain days l -> StronglySorted Z.lt l.
Proof.
  intros H. apply Sorted_StronglySorted; [intros ???; lia|].
  induction l as [|t l IH]; [constructor|]. destruct H as [(s & _ & _ & Hl) H].
  constructor; [auto|]. destruct l as [|t' l]; constructor. cbn [linked] in Hl.
  pose proof MINUTE_pos. destruct Hl as [[? _]|[Hd _]]; [lia|].
  destruct (Z.lt_ge_cases t t'); [done|]. pose proof (nse_date_mono t' t ltac:(lia)). lia.
Qed.

(** ** A corpus covers every expected session *)

Lemma see_day_from active days seen seen' k d : foldR (see_day active) seen days = Ok seen' ->
  seen' !! k = Some d -> seen !! k = Some d \/ (d ∈ days /\ d_date d = k /\ k ∈ active).
Proof.
  revert seen. induction days as [|x days IH]; intros seen E H; cbn [foldR] in E.
  - injection E as ->. by left.
  - apply bind_Ok in E as (seen1 & E1 & E). destruct (IH _ E H) as [H1|(H1 & H2 & H3)];
      [|right; split; [set_solver|done]]. unfold see_day in E1. case_bool_decide as Hx; [|injection E1 as <-; by left].
    apply bind_Ok in E1 as (u & _ & E1). injection E1 as <-.
    destruct (decide (k = d_date x)) as [->|Hne]; [|rewrite lookup_insert_ne in H1 by done; by left].
    rewrite lookup_insert_eq in H1. injection H1 as <-. right. split; [set_solver|done].
Qed.

(** What a shard contributes. *)
Record shard_full (d : Dataset) : Prop := {
  sf_nodup : NoDup (d_date <$> c_days (ds_calendar d));
  sf_minutes : forall t, t ∈ b_start <$> ds_bars d <->
    nse_date (ds_from d) <= nse_date t <= nse_date (ds_to d - 1) /\
    session_minute (days_by_date (c_days (ds_calendar d))) t
}.

Lemma strictly_sorted_nodup l : strictly_sorted l = true -> NoDup l.
Proof.
  intros H. assert (Hs : StronglySorted Z.lt l).
  { apply Sorted_StronglySorted; [intros ???; lia|]. induction l as [|x [|y l] IH]; [constructor|by repeat constructor|].
    cbn [strictly_sorted] in H. bool_inv. constructor; [auto|]. by constructor. }
  clear H. induction Hs as [|x l Hs IH Hx]; constructor; [|done].
  intros Hin. rewrite Forall_forall in Hx. specialize (Hx _ Hin). lia.
Qed.

Lemma dataset_validate_full d r : dataset_validate d = Ok r -> shard_full r.
Proof.
  intros E. apply dataset_validate_inv in E as (Hv & _ & [Hs Hok] & _).
  split; [by apply strictly_sorted_nodup|].
  by apply expected_slots_elem, dataset_valid_slots.
Qed.

(** Every minute of a day already seen is a bar. *)
Definition covered (shards : list Dataset) (seen : gmap Z Day) : Prop :=
  forall t day s, seen !! nse_date t = Some day -> d_status day = EXPECTED_SESSION ->
    d_sessions day = [s] -> s_open s <= nse_time t < s_close s -> t mod MINUTE = 0 ->
    t ∈ starts shards.

Lemma check_shard_covered first to pre shard st st' : shard_full shard -> covered pre st.1 ->
  check_shard first to st shard = Ok st' -> covered (pre ++ [shard]) st'.1.
Proof.
  intros [Hnd Hmin] Hcov E. destruct st as [seen previous]. unfold check_shard in E.
  apply bind_Ok in E as (? & _ & E). apply bind_Ok in E as (? & _ & E).
  apply bind_Ok in E as (? & _ & E). apply bind_Ok in E as (seen' & Es & E). injection E as <-.
  cbn [fst] in *. intros t day s Hd Hst Hss Ht Ha. rewrite starts_app, starts_single, elem_of_app.
  destruct (see_day_from _ _ _ _ _ _ Es Hd) as [H|(Hin & Hdate & Hact)]; [left; by eapply Hcov|right].
  apply Hmin. unfold active_dates in Hact. apply list_elem_of_fmap in Hact as (b & Hb & Hbin).
  cbn in Hb. assert (Hb' : b_start b ∈ b_start <$> ds_bars shard) by by apply list_elem_of_fmap_2.
  apply Hmin in Hb' as [Hr _]. rewrite <- Hb in Hr. split; [done|]. split; [done|].
  exists day, s. split; [|done]. rewrite <- Hdate. by apply days_by_date_elem.
Qed.

Lemma chain_session days l t : chain days l -> t ∈ l ->
  exists s, session_of days (nse_date t) s /\ s_open s <= nse_time t < s_close s.
Proof.
  induction l as [|x l IH]; cbn [chain]; [by intros _ ?%elem_of_nil|].
  intros [(s & Hs & Ht & _) H] [->|Hin]%elem_of_cons; [by exists s|auto].
Qed.

Lemma corpus_minutes c r : corpus_validate c = Ok r -> forall t,
  t ∈ b_start <$> corpus_bars r <->
  nse_date (co_from r) <= nse_date t <= nse_date (co_to r - 1) /\
  session_minute (days_by_date (corpus_days r)) t.
Proof.
  intros E. pose proof (corpus_feed _ _ E) as [_ Hchain].
  assert (Hfull : Forall shard_full (co_shards r)).
  { unfold corpus_validate in E. apply bind_Ok in E as (? & _ & E). apply bind_Ok in E as (? & _ & E).
    apply bind_Ok in E as (shards & Es & E). apply bind_Ok in E as (? & _ & E). injection E as <-.
    apply mapR_Forall2 in Es. cbn [co_shards]. clear -Es.
    induction Es as [|x y l l' H _ IH]; constructor; [by eapply dataset_validate_full|done]. }
  pose proof E as Hfeed. apply corpus_feed in Hfeed as [Hbars Hchain'].
  apply corpus_validate_inv in E as [Hv Hs]. destruct (corpus_seen r Hv Hs) as (Hnd & prev & [_ _ Hseen]).
  unfold corpus_valid in Hv. cbv zeta in Hv.
  repeat (apply bind_Ok in Hv as (? & ? & Hv)).
  match goal with H : foldR _ _ _ = Ok ?x |- _ => destruct x as [seen previous]; rename H into Hfold end.
  repeat (apply bind_Ok in Hv as (? & ? & Hv)).
  repeat match goal with
  | H : raise_unless _ _ = Ok _ |- _ => apply raise_unless_Ok in H
  | H : raise_if _ _ = Ok _ |- _ => apply raise_if_Ok in H
  end. bool_inv. subst seen.
  match goal with H : d_date <$> corpus_days r = seqZ _ _ |- _ => rename H into Hdates end.
  assert (Hcov : covered (co_shards r) (days_by_date (filter is_expected (corpus_days r)))).
  { apply (foldR_prefix_inv (fun pre st => covered pre st.1)) in Hfold; [done| |].
    - intros pre sh post st st' Hsh. apply check_shard_covered. rewrite Hsh in Hfull.
      by apply Forall_app in Hfull as [_ [? _]%Forall_cons].
    - intros t day s Hd. cbn [fst] in Hd. by rewrite lookup_empty in Hd. }
  assert (Hexp : forall k d, days_by_date (filter is_expected (corpus_days r)) !! k = Some d <->
    days_by_date (corpus_days r) !! k = Some d /\ d_status d = EXPECTED_SESSION).
  { intros k d. split.
    - intros [Hin <-]%days_by_date_Some. apply list_elem_of_filter in Hin as [Hx Hin].
      unfold is_expected in Hx. split; [by apply days_by_date_elem|by case_bool_decide].
    - intros [Hd Hst]. apply days_by_date_Some in Hd as [Hin <-]. apply days_by_date_elem.
      + eapply sublist_NoDup; [exact Hnd|]. apply fmap_sublist, sublist_filter.
      + apply list_elem_of_filter. split; [|done]. unfold is_expected. by case_bool_decide. }
  intros t. split.
  - intros Ht. destruct (Hseen t Ht) as [day Hday]. cbn [fst] in Hday. apply Hexp in Hday as [Hday Hst].
    split.
    + apply days_by_date_Some in Hday as [Hin <-]. assert (Hm : d_date day ∈ d_date <$> corpus_days r)
        by by apply list_elem_of_fmap_2. rewrite Hdates in Hm. apply elem_of_seqZ in Hm. lia.
    + split; [apply list_elem_of_fmap in Ht as (b & -> & Hb); rewrite Forall_forall in Hbars;
        by apply Hbars|].
      destruct (chain_session _ _ _ Hchain Ht) as (s & (day' & Hd' & _ & Hss & _) & Hr).
      rewrite Hday in Hd'. injection Hd' as <-. by exists day, s.
  - intros [Hr (Ha & day & s & Hd & Hst & Hss & Ht)]. eapply Hcov; try done. by apply Hexp.
Qed.
