(* ===== verification/RunFacts.v ===== *)
(** * A validated run

    The checks of [run] establish the hypotheses of the engine invariant; the final
    metrics; and what a result of [simulate] and [run] guarantees. *)
From S2P Require Import Prelude Decimal DecimalFacts Text Dataset MoneyFacts Costs CostsFacts Corpus FeedFacts.
From S2P Require Import CorpusFacts Backtest MetricsFacts EngineFacts.

(** ** The metrics of a result *)

Definition initial (r : Result) : Q := dval (initial_cash (r_config r)).
Definition netted (r : Result) (p : Q -> bool) : Z := count (fun t => p (dval (t_net t))) (r_trades r).

Record metrics_ok (r : Result) : Prop := {
  me_count : m_trade_count (r_metrics r) = Z.of_nat (length (r_trades r));
  me_wins : m_wins (r_metrics r) = netted r (fun q => negb (Qle_bool q 0));
  me_losses : m_losses (r_metrics r) = netted r (fun q => negb (Qle_bool 0 q));
  me_breakeven : m_breakeven (r_metrics r) = netted r (fun q => Qeq_bool q 0);
  me_gross : dval (m_gross (r_metrics r)) == qsum (dval ∘ t_gross <$> r_trades r);
  me_costs : dval (m_costs (r_metrics r)) == qsum (dval ∘ f_costs <$> r_fills r);
  me_net : dval (m_net (r_metrics r)) == qsum (dval ∘ t_net <$> r_trades r);
  me_ledger : dval (r_final_cash r) == initial r + dval (m_net (r_metrics r));
  me_balance : dval (m_net (r_metrics r)) ==
    dval (m_gross (r_metrics r)) - dval (m_costs (r_metrics r));
  me_win_rate : (0 <= dval (m_win_rate_percent (r_metrics r)) <= 100)%Q;
  me_return : (-(100) <= dval (m_return_percent (r_metrics r)))%Q;
  me_drawdown : max_fall (initial r :: (dval ∘ e_equity <$> r_curve r))
    (dval (m_max_drawdown (r_metrics r)));
  me_drawdown_percent : (0 <= dval (m_max_drawdown_percent (r_metrics r)) <= 100)%Q
}.

(** Wins, losses and break-even trades partition the trades. *)
Lemma sign_partition l :
  count (fun t => Qeq_bool (dval (t_net t)) 0) l =
  Z.of_nat (length l) - count (fun t => dltb d0 (t_net t)) l - count (fun t => dltb (t_net t) d0) l.
Proof.
  unfold count. induction l as [|t l IH]; [done|]. cbn [List.filter length].
  pose proof (dltb_spec d0 (t_net t)) as H1. pose proof (dltb_spec (t_net t) d0) as H2.
  pose proof (Qeq_bool_iff (dval (t_net t)) 0) as H3. rewrite dval_Z in *.
  change (inject_Z 0) with 0%Q in *.
  destruct (dltb d0 _), (dltb _ d0), (Qeq_bool _ _); cbn [length]; try lia; exfalso;
    intuition; try lra.
Qed.

Lemma count_le {A} (p : A -> bool) l : 0 <= count p l <= Z.of_nat (length l).
Proof. unfold count. induction l as [|x l IH]; cbn; [lia|]. destruct (p x); cbn; lia. Qed.
Lemma count_ext {A} (p q : A -> bool) l : (forall x, p x = q x) -> count p l = count q l.
Proof. intros H. unfold count. induction l as [|x l IH]; [done|]. cbn. rewrite H. destruct (q x); cbn; lia. Qed.

Lemma dltb_pos d : dltb d0 d = negb (Qle_bool (dval d) 0).
Proof.
  apply eq_true_iff_eq. rewrite negb_true_iff, dltb_spec, dval_Z. rewrite <- not_true_iff_false, Qle_bool_iff.
  change (inject_Z 0) with 0%Q. split; intros H; [lra|]. by apply Qnot_le_lt.
Qed.
Lemma dltb_neg d : dltb d d0 = negb (Qle_bool 0 (dval d)).
Proof.
  apply eq_true_iff_eq. rewrite negb_true_iff, dltb_spec, dval_Z. rewrite <- not_true_iff_false, Qle_bool_iff.
  change (inject_Z 0) with 0%Q. split; intros H; [lra|]. by apply Qnot_le_lt.
Qed.

Lemma fills_of_length l : length (fills_of l) = (2 * length l)%nat.
Proof.
  induction l as [|t l IH]; [done|]. change (fills_of (t :: l)) with ([t_entry t; t_exit t] ++ fills_of l).
  rewrite length_app, IH. cbn. lia.
Qed.

(** ** The result of a simulation *)

(** The whole of what the loop invariant says of a result. *)
Record result_ok (feed : Feed) (config : Config) (r : Result) : Prop := {
  rs_config : r_config r = config;
  rs_flat : r_final_position r = 0;
  rs_trades : Forall (trade_ok feed config) (r_trades r);
  rs_fills : r_fills r = fills_of (r_trades r);
  rs_ids : o_intent_id <$> r_outcomes r = seqZ 1 (Z.of_nat (length (r_outcomes r)));
  rs_times : Forall (fun o => o_resolved_at o = o_created_at o) (r_outcomes r);
  rs_filled : Forall2 (filled_by feed) (List.filter is_filled (r_outcomes r)) (r_fills r);
  rs_curve : Forall2 point_ok (feed_bars feed) (r_curve r);
  rs_cash : (0 <= dval (r_final_cash r))%Q;
  rs_metrics : metrics_ok r
}.

Section result.
Context (feed : Feed) (config : Config) (spec : StrategySpec).
Context {St : Type} (on_decision : St -> Decision -> res (option Intent) * St).
Context (Hfeed : SessionFeed (feed_bars feed) (days_by_date (feed_days feed))).
Context (Hconfig : ConfigOk feed config).

Lemma wp_win_rate wins n : 0 <= wins <= n -> n <= 150000 ->
  wp runtime_error (percent (dZ wins) (dZ n)) (fun r => 0 <= dval r <= 100)%Q.
Proof.
  intros Hw Hn. destruct (decide (n = 0)) as [->|].
  { cbn -[dval]. rewrite dval_Z. split; [apply Qle_refl|done]. }
  assert (Hd : (0 < dval (dZ n))%Q) by (rewrite dval_Z, <- (Zlt_Qlt 0); lia).
  assert (Hr : repr PERCENT (dval (dZ n))).
  { rewrite dval_Z. apply repr_Z; [apply PERCENT_ok|]. apply small_coef. lia. }
  apply (wp_percent runtime_error decimal_runtime). intros r Er. split.
  - apply (percent_ge _ _ Hd Hr 0 r ltac:(lia) Er). rewrite !dval_Z, <- inject_Z_mult, <- Zle_Qle. lia.
  - apply (percent_le _ _ Hd Hr 1 r ltac:(lia) Er). rewrite !dval_Z, <- inject_Z_mult, <- Zle_Qle. lia.
Qed.

Lemma wp_return net : (0 <= dval (initial_cash config) + dval net)%Q ->
  wp runtime_error (percent net (initial_cash config)) (fun r => -(100) <= dval r)%Q.
Proof.
  intros H. apply (wp_percent runtime_error decimal_runtime). intros r Er.
  apply (percent_ge net (initial_cash config) (ck_cash _ _ Hconfig) (ck_repr _ _ Hconfig) (-1) r ltac:(lia) Er).
  change (inject_Z (-1)) with (-(1))%Q. lra.
Qed.

Lemma wp_finish s : Inv feed config (feed_bars feed) [] s ->
  (length (fills s) <= length (feed_bars feed))%nat ->
  wp runtime_error (finish feed config spec s) (result_ok feed config).
Proof.
  intros [Hl Hi Hr Hc] Hsize.
  assert (He : entry s = None).
  { destruct (entry s) as [e|] eqn:E; [|done]. by destruct (rd_entry _ _ _ _ Hr _ E) as (? & ? & ? & _). }
  assert (Hp : pending s = None).
  { destruct (pending s) as [p|] eqn:E; [|done]. by destruct (rd_pending _ _ _ _ Hr _ E) as (? & ? & ? & _). }
  pose proof (invested_fills _ _ _ Hl) as Hcosts. pose proof (net_sum _ _ _ Hl) as Hnet.
  rewrite He in Hcosts. destruct Hl as [Hcash Hnn Hreal Htr Hf _]. rewrite He in Hcash, Hf. cbn [invested opt_list] in *.
  rewrite app_nil_r in Hf. unfold finish.
  eapply wp_bind; [apply (wp_drawdown runtime_error decimal_runtime); [apply Hconfig..|]|].
  { clear -Hc. induction Hc as [|b p bs ps [] _ IH]; constructor; done. }
  intros [[peak dd] pct] _ [Hdd Hpct]. cbn [fst snd] in *.
  eapply wp_bind; [apply (wp_dsum runtime_error decimal_runtime ARITHMETIC ARITHMETIC_ok eq_refl)|].
  intros total _ Htotal. rewrite <- list_fmap_compose in Htotal.
  eapply wp_bind; [apply (wp_dsum runtime_error decimal_runtime ARITHMETIC ARITHMETIC_ok eq_refl)|].
  intros gross _ Hgross. rewrite <- list_fmap_compose in Hgross.
  apply wp_reject; [rewrite He, bool_decide_eq_false_2 by (by intros [? ?]); done|]. intros _.
  arith Hx expected. apply wp_require.
  { intros Hne. apply deqb_false in Hne. destruct Hne. rewrite Hx, Hcash. ring. }
  intros _. arith Hn net. apply wp_require.
  { intros Hne. apply deqb_false in Hne. destruct Hne.
    rewrite Hn, Htotal, Hgross, Hreal, Hnet. fold (qsum (dval ∘ f_costs <$> fills s)).
    fold (qsum (dval ∘ t_gross <$> trades s)). rewrite Hcosts. ring. }
  intros Heq. apply deqb_spec in Heq.
  eapply wp_bind; [apply wp_return; rewrite Hcash in Hnn; lra|]. intros ret _ Hret. cbn beta in Hret.
  assert (Hlen : Z.of_nat (length (trades s)) <= 150000).
  { pose proof (ck_size _ _ Hconfig). rewrite Hf, fills_of_length in Hsize. lia. }
  eapply wp_bind; [apply wp_win_rate; [apply count_le|done]|]. intros rate _ Hrate. cbn beta in Hrate.
  apply wp_Ok. destruct Hi as [Hnext Hids Htime Hfilled _]. rewrite Hp in Hids.
  cbn [opt_list fmap list_fmap] in Hids. rewrite app_nil_r in Hids.
  split; cbn [r_config r_final_position r_trades r_fills r_outcomes r_curve r_final_cash]; try done.
  - rewrite Hids at 1. f_equal. apply (f_equal length) in Hids. rewrite length_fmap, length_seqZ in Hids. lia.
  - split; unfold initial, netted;
      cbn [r_metrics r_config r_trades r_fills r_curve r_final_cash m_trade_count m_wins m_losses
      m_breakeven m_gross m_costs m_net m_return_percent m_win_rate_percent m_max_drawdown m_max_drawdown_percent];
      try done.
    + apply count_ext. intros t. apply dltb_pos.
    + apply count_ext. intros t. apply dltb_neg.
    + by rewrite sign_partition.
    + rewrite Hcash. ring.
    + by rewrite Heq.
Qed.

(** The whole simulation. *)
Lemma wp_simulate st : wp runtime_error (simulate on_decision feed config spec st) (result_ok feed config).
Proof.
  unfold simulate. eapply wp_bind; [apply (wp_loop feed config spec on_decision Hfeed Hconfig []); [done|apply inv_init; done]|].
  intros [s st'] Eloop Hinv. apply wp_finish; [done|]. apply loop_fills in Eloop. cbn in Eloop. done.
Qed.
End result.

(** ** What [run] has checked *)

Lemma money_repr d r : parse_decimal d = Ok r -> repr PERCENT (dval r).
Proof.
  intros (H & Ha & He & ->)%parse_decimal_Ok. rewrite canonical_money_val by done.
  destruct (decide (coef d = 0)) as [E|E]; [rewrite dval_zero by done; apply repr_0, PERCENT_ok|].
  pose proof (ndigits_spec _ E) as (H1 & _ & H2). unfold adjusted in Ha.
  exists (coef d), (dexp d). split; [reflexivity|]. split.
  - assert (10 ^ ndigits (coef d) <= 10 ^ prec PERCENT); [|lia]. apply Z.pow_le_mono_r; [done|].
    change (prec PERCENT) with 80. lia.
  - change (etiny PERCENT) with (-1000078). lia.
Qed.

Lemma slippage_validate_ok s r : slippage_validate s = Ok r -> slippage_ok r.
Proof.
  unfold slippage_validate. intros E. ok_inv. split. cbn [bps]. bool_inv. rewrite dval_Z in *.
  split; [by eapply parse_decimal_nonneg|done].
Qed.

Lemma configured_validate_ok c r : configured_validate c = Ok r -> configured_ok r.
Proof. unfold configured_validate. intros E. ok_inv. split; by eapply parse_decimal_nonneg. Qed.

Lemma check_tariff_dates_ok config bars u : check_tariff_dates config bars = Ok u ->
  match costs config with
  | Configured _ => True
  | Scheduled s => Forall (fun b => check_date s (cost_date s (b_start b)) = Ok tt) bars
  end.
Proof.
  unfold check_tariff_dates. destruct (costs config) as [|s]; [done|]. revert u.
  generalize tt at 1 as v. induction bars as [|b bars IH]; intros v u E; [done|].
  cbn [foldR] in E. apply bind_Ok in E as ([] & E1 & E). constructor; [done|by eapply IH].
Qed.

(** The fields of a validated configuration. *)
Record config_checked (c : Config) : Prop := {
  cf_cash : (0 < dval (initial_cash c))%Q;
  cf_repr : repr PERCENT (dval (initial_cash c));
  cf_order : entry_start c <= last_entry_time c < forced_exit_time c;
  cf_aligned : forced_exit_time c mod MINUTE = 0;
  cf_slippage : slippage_ok (slippage c);
  cf_costs : match costs c with Configured m => configured_ok m | Scheduled s => rates_ok s end
}.

Lemma config_validate_ok c r : config_validate c = Ok r -> config_checked r.
Proof.
  unfold config_validate, parse_time. intros E. ok_inv. bool_inv. rewrite dval_Z in *.
  split; cbn [initial_cash entry_start last_entry_time forced_exit_time slippage costs]; try done.
  - by eapply money_repr.
  - by eapply slippage_validate_ok.
  - match goal with H : cost_model_validate _ = Ok _ |- _ => rename H into Hm end.
    unfold cost_model_validate in Hm. destruct (costs c); ok_inv;
      [by eapply configured_validate_ok|by eapply schedule_validate_rates].
Qed.

(** A validated feed. *)
Record feed_checked (f : Feed) : Prop := {
  fk_feed : SessionFeed (feed_bars f) (days_by_date (feed_days f));
  fk_lot : 1 <= feed_lot_size f;
  fk_size : Z.of_nat (length (feed_bars f)) <= 150000
}.

Lemma feed_validate_ok f r : feed_validate f = Ok r -> feed_checked r.
Proof.
  destruct f as [d|c]; cbn [feed_validate]; intros E; apply bind_Ok in E as (x & E & Ex); injection Ex as <-.
  - split; cbn [feed_bars feed_days feed_lot_size]; [by eapply dataset_feed| |].
    + by apply dataset_validate_shard in E as [].
    + apply dataset_validate_inv in E as (Hv & _). unfold dataset_valid in Hv. ok_inv. bool_inv. lia.
  - split; cbn [feed_bars feed_days feed_lot_size]; [by eapply corpus_feed|..];
      apply corpus_validate_inv in E as [Hv Hs]; unfold corpus_valid in Hv; cbv zeta in Hv;
      repeat (apply bind_Ok in Hv as (? & ? & Hv)).
    + unfold corpus_lot_size. destruct (co_shards x); [done|]. by apply Forall_cons in Hs as [[] _].
    + match goal with H : foldR _ _ _ = Ok ?p |- _ => destruct p end.
      repeat (apply bind_Ok in Hv as (? & ? & Hv)). ok_inv. bool_inv. lia.
Qed.

Lemma run_config_ok feed config : feed_checked feed -> config_checked config ->
  forallb (fun d => forallb (session_policy_ok config) (d_sessions d)) (feed_days feed) = true ->
  check_tariff_dates config (feed_bars feed) = Ok tt -> ConfigOk feed config.
Proof.
  intros [_ Hlot Hsize] [] Hpol Htar%check_tariff_dates_ok. split; try done.
  - unfold model_ok. by destruct (costs config).
  - intros date s (day & E & _ & Es & _). apply days_by_date_Some in E as [Hin _].
    rewrite forallb_forall in Hpol. apply list_elem_of_In in Hin. specialize (Hpol _ Hin).
    rewrite Es in Hpol. cbn in Hpol. unfold session_policy_ok in Hpol. bool_inv. lia.
Qed.

(** The errors of [run] that come from its validations. *)
Definition run_checks (feed : Feed) (config : Config) (spec : StrategySpec)
    : res (Feed * Config * StrategySpec) :=
  feed ← feed_validate feed;
  config ← config_validate config;
  spec ← spec_validate spec;
  require! forallb (fun d => forallb (session_policy_ok config) (d_sessions d)) (feed_days feed)
    else "SESSION_POLICY_OUTSIDE_SESSION";
  _ ← check_tariff_dates config (feed_bars feed);
  Ok (feed, config, spec).

Lemma run_split {St} (on_decision : St -> Decision -> res (option Intent) * St) feed config spec st :
  run on_decision feed config spec st =
  ('(f, c, s) ← run_checks feed config spec; arithmetic_failure (simulate on_decision f c s st)).
Proof.
  unfold run, run_checks. destruct (feed_validate feed) as [f|]; cbn; [|done].
  destruct (config_validate config) as [c|]; cbn; [|done].
  destruct (spec_validate spec); cbn; [|done].
  destruct (raise_unless _ _); cbn; [|done]. by destruct (check_tariff_dates _ _).
Qed.

Lemma run_checks_ok feed config spec f c s : run_checks feed config spec = Ok (f, c, s) ->
  SessionFeed (feed_bars f) (days_by_date (feed_days f)) /\ ConfigOk f c.
Proof.
  unfold run_checks. intros E. ok_inv.
  match goal with H : check_tariff_dates _ _ = Ok ?u |- _ => destruct u end.
  match goal with H : feed_validate _ = _, H' : config_validate _ = _ |- _ =>
    apply feed_validate_ok in H; apply config_validate_ok in H' end.
  split; [by apply fk_feed|by apply run_config_ok].
Qed.

(** ** What a run returns *)

Section outcome.
Context {St : Type} (on_decision : St -> Decision -> res (option Intent) * St).
Context (feed : Feed) (config : Config) (spec : StrategySpec) (st : St).

Lemma run_result r : run on_decision feed config spec st = Ok r ->
  exists f c s, run_checks feed config spec = Ok (f, c, s) /\
    simulate on_decision f c s st = Ok r /\ result_ok f c r.
Proof.
  rewrite run_split. intros E. apply bind_Ok in E as ([[f c] s] & Ec & E).
  exists f, c, s. split; [done|]. destruct (run_checks_ok _ _ _ _ _ _ Ec) as [Hf Hc].
  destruct (simulate on_decision f c s st) as [r'|e] eqn:Es; [|by destruct e].
  injection E as <-. split; [done|].
  exact (wp_elim runtime_error _ _ _ (wp_simulate f c s on_decision Hf Hc st) Es).
Qed.

Lemma run_error e : run on_decision feed config spec st = Err e ->
  run_checks feed config spec = Err e \/ e = ValueError "ARITHMETIC_FAILURE" \/
  e = ValueError "FORCED_EXIT_UNAVAILABLE" \/ e = ValueError "STRATEGY_FAILURE".
Proof.
  rewrite run_split. intros E. apply bind_Err in E as [E|([[f c] s] & Ec & E)]; [by left|right].
  destruct (run_checks_ok _ _ _ _ _ _ Ec) as [Hf Hc].
  destruct (simulate on_decision f c s st) as [r|e'] eqn:Es; [done|].
  pose proof (wp_error runtime_error _ _ _ (wp_simulate f c s on_decision Hf Hc st) Es) as He.
  destruct He as [[sig ->]|[->| ->]]; cbn in E; injection E as <-; auto.
Qed.
End outcome.
