(* ===== verification/Causality.v ===== *)
(** * No look-ahead

    What a run has recorded up to a bar does not depend on the bars after it: the loop
    body reads the feed only through the instrument, the lot size and the calendar,
    and the later bars only through the date of the next one; the lists of a run only
    grow, and what a bar adds is stamped with the time of that bar. *)
From S2P Require Import Prelude Decimal DecimalFacts Text Dataset Costs Corpus Backtest.
From S2P Require Import MoneyFacts FeedFacts.

(** ** What the loop body reads *)

Record same_feed (f g : Feed) : Prop := {
  sm_instrument : feed_instrument f = feed_instrument g;
  sm_lot : feed_lot_size f = feed_lot_size g;
  sm_days : feed_days f = feed_days g;
  sm_kind : is_corpus f = is_corpus g
}.

(** The next bars agree on whether, and on which date, there is one. *)
Definition same_next (l l' : list Bar) : Prop :=
  (fun b => nse_date (b_start b)) <$> head l = (fun b => nse_date (b_start b)) <$> head l'.

Section reads.
Context (f g : Feed) (Hfg : same_feed f g) (config : Config) (spec : StrategySpec).
Context {St : Type} (on_decision : St -> Decision -> res (option Intent) * St).

Lemma rejection_reads bar held i : rejection_of f config bar held i = rejection_of g config bar held i.
Proof. unfold rejection_of. by rewrite (sm_lot _ _ Hfg). Qed.

Lemma resolve_reads bar forced s : resolve f config bar forced s = resolve g config bar forced s.
Proof.
  unfold resolve, execute. destruct (pending s); [|done].
  by rewrite rejection_reads, (sm_instrument _ _ Hfg).
Qed.

Lemma decision_reads completed bar u s :
  decision_context f spec completed bar u s = decision_context g spec completed bar u s.
Proof.
  unfold decision_context. by rewrite (sm_instrument _ _ Hfg), (sm_days _ _ Hfg), (sm_kind _ _ Hfg).
Qed.

Lemma close_session_reads bar rest rest' s : same_next rest rest' ->
  close_session bar rest s = close_session bar rest' s.
Proof.
  unfold same_next, close_session. destruct rest, rest'; cbn; try done. by intros [= ->].
Qed.

Lemma step_reads done bar rest rest' ss : same_next rest rest' ->
  step f config spec on_decision done bar rest ss = step g config spec on_decision done bar rest' ss.
Proof.
  intros Hr. unfold step. destruct ss as [s st]. rewrite resolve_reads.
  destruct (resolve _ _ _ _ _) as [s1|]; [|done]. cbn [mbind res_bind].
  destruct (mark _ _ _) as [[s2 u]|]; [|done]. cbn [mbind res_bind].
  unfold decide_step. rewrite decision_reads.
  destruct (decision_context _ _ _ _ _ _) as [d|]; [|done]. cbn [mbind res_bind].
  destruct (consult _ _ _) as [[i st']|]; [|done]. cbn [mbind res_bind].
  by rewrite (close_session_reads _ _ _ _ Hr).
Qed.
End reads.

(** ** Splitting the loop *)

Section split.
Context (f : Feed) (config : Config) (spec : StrategySpec).
Context {St : Type} (on_decision : St -> Decision -> res (option Intent) * St).

(** The iterations over [now], when [later] follows. *)
Fixpoint loop_until (past now later : list Bar) (ss : Sim * St) : res (Sim * St) :=
  match now with
  | [] => Ok ss
  | bar :: now => ss ← step f config spec on_decision past bar (now ++ later) ss;
                  loop_until (past ++ [bar]) now later ss
  end.

Lemma loop_app past now later ss :
  loop f config spec on_decision past (now ++ later) ss =
  (ss ← loop_until past now later ss; loop f config spec on_decision (past ++ now) later ss).
Proof.
  revert past ss. induction now as [|bar now IH]; intros past ss; cbn [loop loop_until app mbind res_bind].
  - by rewrite app_nil_r.
  - destruct (step _ _ _ _ _ _ _ _); [|done]. cbn [mbind res_bind]. by rewrite IH, <- app_assoc.
Qed.
End split.

Lemma loop_until_reads f g config spec {St} (on_decision : St -> Decision -> res (option Intent) * St)
    past now later later' ss : same_feed f g -> same_next later later' ->
  loop_until f config spec on_decision past now later ss =
  loop_until g config spec on_decision past now later' ss.
Proof.
  intros Hfg Hl. revert past ss. induction now as [|bar now IH]; intros past ss; cbn [loop_until]; [done|].
  rewrite (step_reads f g Hfg config spec on_decision past bar (now ++ later) (now ++ later')).
  - destruct (step _ _ _ _ _ _ _ _); [|done]. apply IH.
  - destruct now; [done|]. done.
Qed.

(** ** What a bar adds *)

(** [s'] extends the records of [s] with items stamped by [at_] (fills), [resolved]
    (outcomes) and [marked] (equity points). *)
Record grows (at_ : Z -> Prop) (s s' : Sim) : Prop := {
  gr_fills : exists l, fills s' = fills s ++ l /\ Forall (fun f => at_ (f_time f)) l;
  gr_outcomes : exists l, outcomes s' = outcomes s ++ l /\ Forall (fun o => at_ (o_resolved_at o)) l;
  gr_trades : exists l, trades s' = trades s ++ l /\ Forall (fun t => at_ (f_time (t_exit t))) l;
  gr_curve : exists l, curve s' = curve s ++ l /\ Forall (fun p => at_ (e_time p)) l
}.

#[export] Instance grows_preorder at_ : PreOrder (grows at_).
Proof.
  split.
  - intros s. split; exists []; by rewrite app_nil_r.
  - intros a b c [(f1 & F1 & P1) (o1 & O1 & Q1) (t1 & T1 & R1) (c1 & C1 & S1)]
      [(f2 & F2 & P2) (o2 & O2 & Q2) (t2 & T2 & R2) (c2 & C2 & S2)].
    split; [exists (f1 ++ f2)|exists (o1 ++ o2)|exists (t1 ++ t2)|exists (c1 ++ c2)];
      (split; [rewrite app_assoc; congruence|by apply Forall_app]).
Qed.

Lemma grows_same at_ s s' : fills s' = fills s -> outcomes s' = outcomes s -> trades s' = trades s ->
  curve s' = curve s -> grows at_ s s'.
Proof. intros. split; exists []; rewrite app_nil_r; done. Qed.

Lemma grows_outcome (at_ : Z -> Prop) p t st s : at_ t -> grows at_ s (outcome p t st s).
Proof.
  intros H. split; [exists []|eexists [_]|exists []|exists []]; cbn; rewrite ?app_nil_r; try done.
  split; [reflexivity|]. by constructor.
Qed.

Lemma grows_mono (P Q : Z -> Prop) s s' : (forall t, P t -> Q t) -> grows P s s' -> grows Q s s'.
Proof.
  intros H [(f1 & F1 & P1) (o1 & O1 & Q1) (t1 & T1 & R1) (c1 & C1 & S1)].
  split; eexists; (split; [eassumption|]); (eapply Forall_impl; [eassumption|]); auto.
Qed.

Section growth.
Context (f : Feed) (config : Config) (spec : StrategySpec).
Context {St : Type} (on_decision : St -> Decision -> res (option Intent) * St).
(** The two instants a bar stamps. *)
Notation stamp bar := (fun t => t = b_start bar \/ t = b_end bar).

Lemma open_forced_grows bar s : grows (stamp bar) s (open_forced config bar s).
Proof.
  unfold open_forced. destruct (entry s); [|done]. destruct (_ =? _); [|done].
  destruct (pending s); [|by apply grows_same].
  etransitivity; [apply (grows_outcome _ p (b_start bar) SUPERSEDED_BY_FORCED_EXIT); by left|].
  by apply grows_same.
Qed.

Lemma execute_grows bar forced p px notional fee s s' :
  execute f bar forced p px notional fee s = Ok s' -> grows (stamp bar) s s'.
Proof.
  unfold execute. intros E. apply bind_Ok in E as (diff & _ & E). apply bind_Ok in E as (slip & _ & E).
  destruct (i_side _); [|cbn [entry outcome add_fill] in E; destruct (entry s); [|done]];
    unfold apply_buy, apply_sell in E; ok_inv; split; cbn;
    first [by (exists []; rewrite app_nil_r) | eexists [_]; split; [reflexivity|]; constructor; [by left|done]].
Qed.

Lemma resolve_grows bar forced s s' : resolve f config bar forced s = Ok s' -> grows (stamp bar) s s'.
Proof.
  unfold resolve. destruct (pending s) as [p|]; [|by intros [= ->]]. intros E.
  apply bind_Ok in E as (px & _ & E). apply bind_Ok in E as (notional & _ & E).
  apply bind_Ok in E as (fee & _ & E). apply bind_Ok in E as ([r|] & _ & E).
  - destruct forced; [done|]. ok_inv.
    etransitivity; [apply (grows_outcome _ p (b_start bar) r); by left|]. by apply grows_same.
  - apply bind_Ok in E as (s1 & E1 & E). apply execute_grows in E1. injection E as <-.
    etransitivity; [exact E1|]. by apply grows_same.
Qed.

Lemma mark_grows bar s r : mark config bar s = Ok r -> grows (stamp bar) s r.1.
Proof.
  unfold mark. intros E. ok_inv. split; cbn; first [by (exists []; rewrite app_nil_r) |
    eexists [_]; split; [reflexivity|]; constructor; [by right|done]].
Qed.

Lemma close_session_grows bar rest s s' : close_session bar rest s = Ok s' -> grows (stamp bar) s s'.
Proof.
  unfold close_session. intros E. destruct (match rest with [] => _ | _ => _ end); [|by injection E as <-].
  apply bind_Ok in E as (u & _ & E). injection E as <-. destruct (pending s) as [p|]; [|done].
  etransitivity; [eapply (grows_outcome _ p (b_end bar)); by right|]. by apply grows_same.
Qed.

Lemma step_grows done bar rest ss ss' :
  step f config spec on_decision done bar rest ss = Ok ss' -> grows (stamp bar) ss.1 ss'.1.
Proof.
  destruct ss as [s st]. unfold step. intros E. cbn [fst].
  apply bind_Ok in E as (s1 & E1 & E). apply bind_Ok in E as ([s2 u] & E2 & E).
  apply bind_Ok in E as ([s3 st'] & E3 & E). apply bind_Ok in E as (s4 & E4 & E). injection E as <-.
  transitivity (new_session done bar s).
  { unfold new_session. destruct (last done); [|done]. destruct (_ =? _); [done|]. by apply grows_same. }
  etransitivity; [apply open_forced_grows|]. etransitivity; [by eapply resolve_grows|].
  etransitivity; [exact (mark_grows _ _ _ E2)|]. etransitivity; [|by eapply close_session_grows].
  unfold decide_step in E3. apply bind_Ok in E3 as (d & _ & E3).
  apply bind_Ok in E3 as ([[i|] st2] & _ & E3); injection E3 as <- <-; [by apply grows_same|done].
Qed.

Lemma loop_grows done rest ss ss' : loop f config spec on_decision done rest ss = Ok ss' ->
  grows (fun t => exists bar, bar ∈ rest /\ (t = b_start bar \/ t = b_end bar)) ss.1 ss'.1.
Proof.
  revert done ss. induction rest as [|bar rest IH]; intros done ss E; cbn [loop] in E.
  - by injection E as ->.
  - apply bind_Ok in E as (ss1 & E1 & E). apply step_grows in E1. apply IH in E.
    etransitivity; (eapply grows_mono; [|eassumption]); cbn beta.
    + intros t Ht. exists bar. split; [set_solver|done].
    + intros t (b & Hb & Ht). exists b. split; [set_solver|done].
Qed.
End growth.

(** ** One equity point per bar *)

Section marks.
Context (f : Feed) (config : Config) (spec : StrategySpec).
Context {St : Type} (on_decision : St -> Decision -> res (option Intent) * St).

(** Resolution leaves the curve and the start of the session alone. *)
Lemma resolve_frame bar forced s s' : resolve f config bar forced s = Ok s' ->
  session_start_index s' = session_start_index s /\ curve s' = curve s.
Proof.
  unfold resolve. destruct (pending s) as [p|]; [|by intros [= ->]]. intros E.
  apply bind_Ok in E as (px & _ & E). apply bind_Ok in E as (notional & _ & E).
  apply bind_Ok in E as (fee & _ & E). apply bind_Ok in E as ([r|] & _ & E).
  - destruct forced; [done|]. by ok_inv.
  - apply bind_Ok in E as (s1 & E1 & E). injection E as <-. unfold execute in E1.
    apply bind_Ok in E1 as (diff & _ & E1). apply bind_Ok in E1 as (slip & _ & E1).
    destruct (i_side _); [|cbn [entry outcome add_fill] in E1; destruct (entry s); [|done]];
      unfold apply_buy, apply_sell in E1; by ok_inv.
Qed.

Lemma close_session_frame bar rest s s' : close_session bar rest s = Ok s' ->
  session_start_index s' = session_start_index s /\ curve s' = curve s.
Proof.
  unfold close_session. intros E. destruct (match rest with [] => _ | _ => _ end); [|by injection E as <-].
  apply bind_Ok in E as (u & _ & E). injection E as <-. by destruct (pending s).
Qed.

Lemma step_marks past bar rest ss ss' : step f config spec on_decision past bar rest ss = Ok ss' ->
  e_time <$> curve ss'.1 = (e_time <$> curve ss.1) ++ [b_end bar].
Proof.
  destruct ss as [s st]. unfold step. intros E. cbn [fst].
  apply bind_Ok in E as (s1 & E1 & E). apply bind_Ok in E as ([s2 u] & E2 & E).
  apply bind_Ok in E as ([s3 st'] & E3 & E). apply bind_Ok in E as (s4 & E4 & E). injection E as <-.
  apply resolve_frame in E1 as [_ E1]. apply close_session_frame in E4 as [_ E4]. cbn [fst].
  assert (H0 : curve s1 = curve s).
  { rewrite E1. unfold open_forced, new_session. repeat case_match; done. }
  assert (H2 : e_time <$> curve s2 = (e_time <$> curve s1) ++ [b_end bar]).
  { unfold mark in E2. ok_inv. cbn. by rewrite fmap_app. }
  unfold decide_step in E3. apply bind_Ok in E3 as (d & _ & E3).
  apply bind_Ok in E3 as ([[i|] st2] & _ & E3); injection E3 as <- <-; rewrite E4; cbn [curve propose];
    by rewrite H2, H0.
Qed.

Lemma loop_until_marks past now later ss ss' :
  loop_until f config spec on_decision past now later ss = Ok ss' ->
  e_time <$> curve ss'.1 = (e_time <$> curve ss.1) ++ (b_end <$> now).
Proof.
  revert past ss. induction now as [|bar now IH]; intros past ss E; cbn [loop_until] in E.
  - injection E as ->. by rewrite app_nil_r.
  - apply bind_Ok in E as (ss1 & E1 & E). apply step_marks in E1. apply IH in E.
    by rewrite E, E1, <- app_assoc.
Qed.
End marks.

(** ** What the strategy sees

    A strategy instrumented to log the contexts it is called with: the log of a
    simulation is one context per bar, at the end of the bar, with the bars completed
    so far - of the current session only when the feed is a corpus. *)

Definition logging {St} (on_decision : St -> Decision -> res (option Intent) * St)
    (st : St * list Decision) (d : Decision) : res (option Intent) * (St * list Decision) :=
  let '(answer, st') := on_decision st.1 d in (answer, (st', st.2 ++ [d])).

(** The bars of the date of [bar]. *)
Definition session_bars (bar : Bar) (l : list Bar) : list Bar :=
  filter (fun b => nse_date (b_start b) = nse_date (b_start bar)) l.
Definition window (feed : Feed) (bar : Bar) (completed : list Bar) : list Bar :=
  if is_corpus feed then session_bars bar completed else completed.
(** What should be seen at each bar. *)
Fixpoint views (feed : Feed) (past rest : list Bar) : list (Z * list Bar) :=
  match rest with
  | [] => []
  | bar :: rest => (b_end bar, window feed bar (past ++ [bar])) :: views feed (past ++ [bar]) rest
  end.

(** ** The start of the session *)

Lemma chain_dates days l1 t l2 : chain days (l1 ++ t :: l2) -> forall u, u ∈ l1 -> nse_date u <= nse_date t.
Proof.
  intros H. induction l1 as [|x l1 IH]; intros u Hu; [by apply elem_of_nil in Hu|].
  cbn [app chain] in H. destruct H as [(s & _ & _ & Hl) H].
  apply elem_of_cons in Hu as [->|Hu]; [|auto].
  destruct l1 as [|y l1]; cbn [app linked] in Hl; [lia|].
  specialize (IH H y ltac:(set_solver)). lia.
Qed.

Lemma filter_none {A} (P : A -> Prop) `{!forall x, base.Decision (P x)} l :
  (forall x, x ∈ l -> ~ P x) -> filter P l = [].
Proof.
  induction l as [|x l IH]; intros Hn; [done|]. rewrite filter_cons_False by (apply Hn; set_solver).
  apply IH. intros y Hy. apply Hn. set_solver.
Qed.

(** [session_start_index] points at the first bar of the session of the last bar. *)
Definition indexed (past : list Bar) (i : nat) : Prop :=
  (i <= length past)%nat /\ forall bar, last past = Some bar -> drop i past = session_bars bar past.

Lemma session_bars_snoc bar l : session_bars bar (l ++ [bar]) = session_bars bar l ++ [bar].
Proof. unfold session_bars. rewrite filter_app, filter_cons_True by done. by rewrite filter_nil. Qed.

Lemma session_bars_date a b l : nse_date (b_start a) = nse_date (b_start b) -> session_bars a l = session_bars b l.
Proof. intros E. unfold session_bars. apply list_filter_iff. intros x. by rewrite E. Qed.

Lemma indexed_step days past bar rest s :
  chain days (b_start <$> past ++ bar :: rest) -> indexed past (session_start_index s) ->
  indexed (past ++ [bar]) (session_start_index (new_session past bar s)).
Proof.
  intros Hc [Hle Hd]. unfold new_session. rewrite fmap_app in Hc. split.
  { rewrite length_app. destruct (last past); [|lia]. destruct (_ =? _); cbn; lia. }
  intros b. rewrite last_snoc. intros [= <-]. rewrite session_bars_snoc.
  destruct (last past) as [prev|] eqn:El.
  - specialize (Hd _ eq_refl). destruct (_ =? _) eqn:E; bool_inv.
    + rewrite drop_app_le by done. by rewrite Hd, (session_bars_date _ _ _ E).
    + cbn [session_start_index set_session_start]. rewrite drop_app_length.
      apply last_Some in El as [l' ->].
      enough (session_bars bar (l' ++ [prev]) = []) as -> by done.
      unfold session_bars. apply filter_none. intros x Hx E'.
      assert (Hx' : nse_date (b_start x) <= nse_date (b_start prev)).
      { apply elem_of_app in Hx as [Hx|Hx%list_elem_of_singleton]; [|subst; lia].
        rewrite fmap_app, <- app_assoc in Hc. cbn [fmap list_fmap app] in Hc.
        eapply chain_dates; [exact Hc|]. by apply list_elem_of_fmap_2. }
      assert (nse_date (b_start prev) <= nse_date (b_start bar)); [|lia].
      eapply chain_dates; [exact Hc|]. apply list_elem_of_fmap_2. set_solver.
  - apply last_None in El as ->. cbn in Hle. replace (session_start_index s) with 0%nat by lia. done.
Qed.

(** ** The log *)

Section log.
Context (feed : Feed) (config : Config) (spec : StrategySpec).
Context {St : Type} (on_decision : St -> Decision -> res (option Intent) * St).
Notation lstep := (step feed config spec (logging on_decision)).
Notation lloop := (loop feed config spec (logging on_decision)).

Lemma consult_log st d r : consult (logging on_decision) st d = Ok r -> r.2.2 = st.2 ++ [d].
Proof.
  unfold consult, logging. destruct (on_decision st.1 d) as [answer st1].
  destruct (answer ≫= _); [|done]. by intros [= <-].
Qed.

Lemma decision_context_view completed bar u s d :
  decision_context feed spec completed bar u s = Ok d -> dc_time d = b_end bar /\
  dc_bars d = if is_corpus feed then drop (session_start_index s) completed else completed.
Proof. unfold decision_context. intros E. by ok_inv. Qed.

Lemma step_log past bar rest ss ss' : lstep past bar rest ss = Ok ss' ->
  session_start_index ss'.1 = session_start_index (new_session past bar ss.1) /\
  exists d, ss'.2.2 = ss.2.2 ++ [d] /\ dc_time d = b_end bar /\
    dc_bars d = if is_corpus feed
      then drop (session_start_index (new_session past bar ss.1)) (past ++ [bar]) else past ++ [bar].
Proof.
  destruct ss as [s st]. unfold step. intros E. cbn [fst snd].
  apply bind_Ok in E as (s1 & E1 & E). apply bind_Ok in E as ([s2 u] & E2 & E).
  apply bind_Ok in E as ([s3 st'] & E3 & E). apply bind_Ok in E as (s4 & E4 & E). injection E as <-.
  apply resolve_frame in E1 as [E1 _].
  assert (H1 : session_start_index s1 = session_start_index (new_session past bar s)).
  { rewrite E1. unfold open_forced. repeat case_match; done. }
  assert (H2 : session_start_index s2 = session_start_index s1) by (unfold mark in E2; by ok_inv).
  unfold decide_step in E3. apply bind_Ok in E3 as (d & Ed & E3).
  apply bind_Ok in E3 as ([o st2] & Ec & E3). apply decision_context_view in Ed as [Ht Hb].
  apply consult_log in Ec. cbn [snd] in Ec. injection E3 as <- <-. cbn [fst snd].
  assert (H4 : session_start_index s4 = session_start_index s2).
  { apply close_session_frame in E4 as [E4 _]. rewrite E4. by destruct o. }
  split; [congruence|]. exists d. rewrite Hb, H2, H1. done.
Qed.

Lemma loop_log days past rest ss ss' : chain days (b_start <$> past ++ rest) ->
  indexed past (session_start_index ss.1) -> lloop past rest ss = Ok ss' ->
  (fun d => (dc_time d, dc_bars d)) <$> ss'.2.2 =
  ((fun d => (dc_time d, dc_bars d)) <$> ss.2.2) ++ views feed past rest.
Proof.
  revert past ss. induction rest as [|bar rest IH]; intros past ss Hc Hi E; cbn [loop views] in *.
  - injection E as ->. by rewrite app_nil_r.
  - apply bind_Ok in E as (ss1 & E1 & E). apply step_log in E1 as (Hidx & d & Hlog & Ht & Hb).
    pose proof (indexed_step _ _ _ _ _ Hc Hi) as Hi'. rewrite <- Hidx in Hi'.
    rewrite (IH (past ++ [bar]) ss1); [|by rewrite <- app_assoc|done|done].
    rewrite Hlog, fmap_app, <- app_assoc. f_equal. cbn. f_equal. rewrite Ht, Hb. f_equal.
    unfold window. destruct (is_corpus feed); [|done]. destruct Hi' as [_ Hd]. rewrite <- Hidx.
    apply Hd. by rewrite last_snoc.
Qed.
End log.
