(* ===== verification/Phase14.v ===== *)
(** * The five-minute engine ([phase14/engine.py])

    Candles, dated sessions, the validated series and its completeness report; the
    indicators and the signal; the simulation with its stop/target/end-of-day exits;
    the metrics and the qualification of a strategy.  Arithmetic runs in [PRECISION]
    (40 digits, rounded).  The hashes of a [Simulation] (digests of a JSON dump) are
    left out, and the multiple-testing bound of [qualify], computed in floating point,
    is a parameter. *)
From S2P Require Import Prelude Decimal DecimalFacts Text Dataset Costs.
From stdpp Require Import sorting.
Open Scope list_scope.
Open Scope Z_scope.

Definition PRECISION : context := mk_context 40 false.
Definition FIVE : Z := 5 * MINUTE.

Definition padd := dadd PRECISION.
Definition psub := dsub PRECISION.
Definition pmul := dmul PRECISION.
Definition pdiv := ddiv PRECISION.
Definition psum := dsum PRECISION.

(** ** Candles, sessions, series *)

(** [Candle.end] *)
Definition candle_end (b : Bar) : Z := b_start b + FIVE.
(** [instant.minute % 5] *)
Definition minute_mod5 (t : Z) : Z := (t / MINUTE) mod 60 mod 5.

Definition candle_validate (b : Bar) : res Bar :=
  b ← bar_validate b;
  require! minute_mod5 (b_start b) =? 0 else "FIVE_MINUTE_ALIGNMENT";
  Ok b.

Record DatedSession := mkDated { ds_start : Z; ds_end : Z }.

Definition dated_valid (s : DatedSession) : res unit :=
  reject! (ds_end s <=? ds_start s) || negb ((ds_end s - ds_start s) mod FIVE =? 0) ||
          negb (ds_start s mod MINUTE =? 0) || negb (minute_mod5 (ds_start s) =? 0) ||
          negb (nse_date (ds_start s) =? nse_date (ds_end s)) as "INVALID_DATED_SESSION";
  Ok tt.

Record Series := mkSeries {
  sr_symbol : string; sr_token : string; sr_source : string; sr_synthetic : bool;
  sr_source_hash : string; sr_master_hash : string; sr_calendar_hash : string;
  sr_as_of : Z; sr_from : Z; sr_to : Z; sr_corporate_actions_reviewed : bool;
  sr_sessions : list DatedSession; sr_non_trading_days : list Z; sr_bars : list Bar
}.

(** One session of the order check; the state is [previous]. *)
Definition check_session (to : Z) (previous : Z) (s : DatedSession) : res Z :=
  reject! (ds_start s <? previous) || (to <? ds_end s) as "SESSION_ORDER_OR_RANGE";
  Ok (ds_end s).

Definition series_valid (s : Series) : res unit :=
  require! (sr_from s <? sr_to s) && (sr_to s <=? sr_as_of s) else "FUTURE_OR_INVALID_WINDOW";
  reject! 366 * DAY <? sr_to s - sr_from s as "MAXIMUM_TWELVE_MONTHS";
  _ ← foldR (check_session (sr_to s)) (sr_from s) (sr_sessions s);
  let first := nse_date (sr_from s) in
  let last := nse_date (sr_to s - 1) in
  let required : gset Z := list_to_set (seqZ first (last - first + 1)) in
  let active : gset Z := list_to_set (nse_date ∘ ds_start <$> sr_sessions s) in
  let closed : gset Z := list_to_set (sr_non_trading_days s) in
  reject! bool_decide (active ∩ closed <> ∅) || bool_decide (active ∪ closed <> required)
    as "CALENDAR_UNKNOWN_OR_CONFLICT";
  require! strictly_sorted (b_start <$> sr_bars s) else "DUPLICATE_OR_OUT_OF_ORDER";
  reject! existsb (fun b => (b_start b <? sr_from s) || (sr_to s <? candle_end b)) (sr_bars s)
    as "BAR_OUTSIDE_WINDOW";
  Ok tt.

(** [Field(pattern=r"^[1-9][0-9]{0,9}$")] *)
Definition token_ok (s : string) : bool :=
  match String.list_ascii_of_string s with
  | c :: l => in_range 49 57 c && forallb is_digit l && (Z.of_nat (length l) <=? 9)
  | [] => false
  end.

Definition series_validate (s : Series) : res Series :=
  require! (1 <=? len (sr_symbol s)) && token_ok (sr_token s) && (1 <=? len (sr_source s)) &&
           hash_ok (sr_source_hash s) && hash_ok (sr_master_hash s) && hash_ok (sr_calendar_hash s)
    else "INVALID_FIELD";
  _ ← mapR dated_valid (sr_sessions s);
  bars ← mapR candle_validate (sr_bars s);
  let s := mkSeries (sr_symbol s) (sr_token s) (sr_source s) (sr_synthetic s) (sr_source_hash s)
             (sr_master_hash s) (sr_calendar_hash s) (sr_as_of s) (sr_from s) (sr_to s)
             (sr_corporate_actions_reviewed s) (sr_sessions s) (sr_non_trading_days s) bars in
  _ ← series_valid s; Ok s.

(** [Series.quality]: the missing and the unexpected instants, in order. *)
Definition expected_starts (s : Series) : gset Z :=
  list_to_set (mjoin ((fun d => grid FIVE (ds_start d) (ds_end d)) <$> sr_sessions s)).
Definition actual_starts (s : Series) : gset Z := list_to_set (b_start <$> sr_bars s).
Definition quality (s : Series) : list Z * list Z :=
  (merge_sort Z.le (elements (expected_starts s ∖ actual_starts s)),
   merge_sort Z.le (elements (actual_starts s ∖ expected_starts s))).

(** ** Indicators and the signal *)

Inductive indicator_kind := CLOSE | EMA | RSI | CONSTANT.
Record Operand := mkOperand { op_indicator : indicator_kind; op_period : Z; op_value : dec; op_lag : Z }.
Inductive cross_direction := ABOVE | BELOW.
Record Cross := mkCross { cr_left : Operand; cr_right : Operand; cr_direction : cross_direction }.
Inductive side_direction := LONG | SHORT.
Record Strategy := mkStrategy {
  st_name : string; st_version : string; st_confirmed : bool; st_conditions : list Cross;
  st_direction : side_direction; st_stop : dec; st_target : dec
}.

Definition operand_ok (o : Operand) : bool :=
  (1 <=? op_period o) && (op_period o <=? 1440) && (0 <=? op_lag o) && (op_lag o <=? 1440).

(** [values[:-lag]] *)
Definition drop_last (lag : Z) (values : list dec) : list dec :=
  take (length values - Z.to_nat lag) values.

(** The recurrence of the exponential average, [result += alpha * (value - result)]. *)
Definition ema_step (alpha result value : dec) : res dec :=
  gap ← psub value result; move ← pmul alpha gap; padd result move.

Definition ema (n : Z) (values : list dec) : res (option dec) :=
  let k := Z.to_nat n in
  if Z.of_nat (length values) <? n then Ok None
  else
    total ← psum (take k values);
    result ← pdiv total (dZ n);
    alpha ← pdiv (dZ 2) (dZ (n + 1));
    result ← foldR (ema_step alpha) result (drop k values);
    Some <$> dplus PRECISION result.

(** [tuple(b - a for a, b in zip(values, values[1:]))] *)
Definition changes (values : list dec) : res (list dec) :=
  mapR (fun '(a, b) => psub b a) (zip values (tail values)).
Definition positive_part (v : dec) : dec := dmax v d0.
Definition negative_part (v : dec) : res dec := m ← dneg PRECISION v; Ok (dmax m d0).

(** Wilder's smoothing: [(average * (n - 1) + x) / n]. *)
Definition smooth (n : Z) (average x : dec) : res dec :=
  scaled ← pmul average (dZ (n - 1)); total ← padd scaled x; pdiv total (dZ n).
Definition rsi_step (n : Z) (state : dec * dec) (change : dec) : res (dec * dec) :=
  let '(gain, loss) := state in
  gain ← smooth n gain (positive_part change);
  down ← negative_part change;
  loss ← smooth n loss down;
  Ok (gain, loss).

Definition rsi_of (gain loss : dec) : res dec :=
  if deqb loss d0 then Ok (if deqb gain d0 then dZ 50 else dZ 100)
  else
    strength ← pdiv gain loss;
    base ← padd (dZ 1) strength;
    part ← pdiv (dZ 100) base;
    value ← psub (dZ 100) part;
    dplus PRECISION value.

Definition rsi (n : Z) (values : list dec) : res (option dec) :=
  let k := Z.to_nat n in
  if Z.of_nat (length values) <=? n then Ok None
  else
    ch ← changes values;
    up ← psum (positive_part <$> take k ch);
    gain ← pdiv up (dZ n);
    downs ← mapR negative_part (take k ch);
    down ← psum downs;
    loss ← pdiv down (dZ n);
    '(gain, loss) ← foldR (rsi_step n) (gain, loss) (drop k ch);
    Some <$> rsi_of gain loss.

Definition indicator (values : list dec) (o : Operand) : res (option dec) :=
  let values := if op_lag o =? 0 then values else drop_last (op_lag o) values in
  match values with
  | [] => Ok None
  | _ =>
      match op_indicator o with
      | CONSTANT => Ok (Some (op_value o))
      | CLOSE => Ok (last values)
      | EMA => ema (op_period o) values
      | RSI => rsi (op_period o) values
      end
  end.

Definition crossed (d : cross_direction) (lp rp lc rc : dec) : bool :=
  match d with
  | ABOVE => dleb lp rp && dltb rc lc
  | BELOW => dleb rp lp && dltb lc rc
  end.

(** One condition of [signal]. *)
Definition rule_holds (closes : list dec) (rule : Cross) : res bool :=
  let before := drop_last 1 closes in
  lp ← indicator before (cr_left rule); rp ← indicator before (cr_right rule);
  lc ← indicator closes (cr_left rule); rc ← indicator closes (cr_right rule);
  Ok (match lp, rp, lc, rc with
      | Some lp, Some rp, Some lc, Some rc => crossed (cr_direction rule) lp rp lc rc
      | _, _, _, _ => false
      end).

Fixpoint all_rules (closes : list dec) (rules : list Cross) : res bool :=
  match rules with
  | [] => Ok true
  | rule :: rules => ok ← rule_holds closes rule; if ok : bool then all_rules closes rules else Ok false
  end.

Definition permitted (s : Strategy) : bool :=
  st_confirmed s && match st_direction s with LONG => true | SHORT => false end.
Definition signal (closes : list dec) (s : Strategy) : res bool :=
  require! permitted s else "UNCONFIRMED_OR_UNSUPPORTED_STRATEGY";
  all_rules closes (st_conditions s).

(** ** Simulation *)

Record Settings := mkSettings {
  se_capital : dec; se_order_ceiling : dec; se_price_buffer : dec; se_quantity : Z;
  se_slippage_bps : dec; se_participation : dec; se_allow_long : bool
}.

Definition settings_valid (s : Settings) : res unit :=
  reject! negb (dltb d0 (se_order_ceiling s) && dleb (se_order_ceiling s) (dZ 10000)) ||
          dleb (se_capital s) d0 || dltb (se_price_buffer s) (dZ 1) ||
          dltb (dZ 1000) (se_slippage_bps s) ||
          negb (dltb d0 (se_participation s) && dleb (se_participation s) (dZ 1))
    as "INVALID_SIMULATION_LIMITS";
  Ok tt.

Definition strategy_valid (s : Strategy) : res unit :=
  reject! is_nil (st_conditions s) || negb (dltb d0 (st_stop s) && dltb (st_stop s) (dZ 1)) ||
          negb (dltb d0 (st_target s) && dltb (st_target s) (dZ 1)) as "INVALID_STRATEGY";
  Ok tt.

Inductive exit_reason := STOP | TARGET | EOD.
#[export] Instance exit_reason_eq_dec : EqDecision exit_reason.
Proof. solve_decision. Defined.

Record Trade := mkTrade {
  t_signal_at : Z; t_entry_at : Z; t_exit_at : Z; t_entry : dec; t_exit : dec; t_quantity : Z;
  t_reason : exit_reason; t_gross : dec; t_fees : dec; t_net : dec
}.

Record Metrics := mkMetrics {
  m_trades : Z; m_wins : Z; m_losses : Z; m_breakeven : Z; m_win_rate : dec; m_expectancy : dec;
  m_net : dec; m_net_return : dec; m_costs : dec; m_drawdown : dec
}.

Definition count_trades (p : Trade -> bool) (l : list Trade) : Z := Z.of_nat (length (List.filter p l)).

(** The drawdown scan; the state is [(equity, peak, drawdown)]. *)
Definition equity_step (st : dec * dec * dec) (t : Trade) : res (dec * dec * dec) :=
  let '(equity, peak, drawdown) := st in
  equity ← padd equity (t_net t);
  let peak := dmax peak equity in
  gap ← psub peak equity;
  ratio ← pdiv gap peak;
  Ok (equity, peak, dmax drawdown ratio).

Definition metrics (trades : list Trade) (capital : dec) : res Metrics :=
  let count := Z.of_nat (length trades) in
  let wins := count_trades (fun t => dltb d0 (t_net t)) trades in
  net ← psum (t_net <$> trades);
  '(_, _, drawdown) ← foldR equity_step (capital, capital, d0) trades;
  win_rate ← (if count =? 0 then Ok d0 else pdiv (dZ wins) (dZ count));
  expectancy ← (if count =? 0 then Ok d0 else pdiv net (dZ count));
  net_return ← pdiv net capital;
  costs ← psum (t_fees <$> trades);
  Ok (mkMetrics count wins (count_trades (fun t => dltb (t_net t) d0) trades)
        (count_trades (fun t => deqb (t_net t) d0) trades) win_rate expectancy net net_return costs drawdown).

(** The local variables of [simulate] that live across sessions, and those of one
    session. *)
Record Account := mkAccount {
  a_cash : dec; a_trades : list Trade; a_no_fills : list string; a_exposure : Z;
  a_peak : dec; a_marked_drawdown : dec
}.
(** [(decided, entered, entry, entry_fee)] *)
Record Open := mkOpen { o_decided : Z; o_entered : Z; o_entry : dec; o_fee : dec }.
Record SessionState := mkSessionState {
  ss_closes : list dec; ss_position : option Open; ss_pending : option Z
}.

Section simulate.
Context (strategy : Strategy) (settings : Settings) (tariff : IntradayCostSchedule) (slip : dec).

Definition liquid (bar : Bar) : res bool :=
  share ← pmul (dZ (b_volume bar)) (se_participation settings);
  Ok (dleb (dZ (se_quantity settings)) share).

(** The limits of an entry, evaluated left to right. *)
Definition entry_blocked (last liq : bool) (cash notional fee : dec) : res bool :=
  if negb (se_allow_long settings) || last || negb liq then Ok true
  else
    need ← padd notional fee;
    if dltb cash need then Ok true
    else buffered ← pmul notional (se_price_buffer settings);
         Ok (dltb (se_order_ceiling settings) buffered).

Definition no_fill_text (at_ : Z) : string :=
  (datetime_text at_ +:+ "+00:00:ENTRY_LIMIT_OR_LIQUIDITY")%string.

(** The pending entry at the open of [bar]. *)
Definition enter (at_ : Z) (bar : Bar) (last liq : bool) (a : Account) (s : SessionState)
    : res (Account * SessionState) :=
  match ss_pending s, ss_position s with
  | Some decided, None =>
      factor ← padd (dZ 1) slip;
      entry ← pmul (b_open bar) factor;
      notional ← pmul entry (dZ (se_quantity settings));
      fee ← quote_total tariff BUY notional at_ None;
      blocked ← entry_blocked last liq (a_cash a) notional fee;
      if blocked : bool then
        Ok (mkAccount (a_cash a) (a_trades a) (a_no_fills a ++ [no_fill_text at_]) (a_exposure a)
              (a_peak a) (a_marked_drawdown a),
            mkSessionState (ss_closes s) None None)
      else
        spent ← padd notional fee;
        cash ← psub (a_cash a) spent;
        Ok (mkAccount cash (a_trades a) (a_no_fills a) (a_exposure a) (a_peak a) (a_marked_drawdown a),
            mkSessionState (ss_closes s) (Some (mkOpen decided at_ entry fee)) None)
  | _, _ => Ok (a, s)
  end.

(** The intrabar mark at the low. *)
Definition mark_low (at_ : Z) (bar : Bar) (o : Open) (a : Account) : res Account :=
  down ← psub (dZ 1) slip;
  low ← pmul (b_low bar) down;
  value ← pmul low (dZ (se_quantity settings));
  basis ← pmul (o_entry o) (dZ (se_quantity settings));
  fee ← quote_total tariff SELL value at_ (Some basis);
  x ← psub (a_peak a) (a_cash a);
  x ← psub x value;
  x ← padd x fee;
  ratio ← pdiv x (a_peak a);
  Ok (mkAccount (a_cash a) (a_trades a) (a_no_fills a) (a_exposure a) (a_peak a)
        (dmax (a_marked_drawdown a) ratio)).

(** The exit decision: stop before target before end of day, with the reference price. *)
Definition exit_decision (bar : Bar) (last : bool) (entry : dec) : res (dec * option exit_reason) :=
  below ← psub (dZ 1) (st_stop strategy);
  stop ← pmul entry below;
  above ← padd (dZ 1) (st_target strategy);
  target ← pmul entry above;
  Ok (if dleb (b_low bar) stop then (dmin stop (b_open bar), Some STOP)
      else if dleb target (b_high bar) then (target, Some TARGET)
      else (b_close bar, if last : bool then Some EOD else None)).

Definition close_trade (at_ : Z) (bar : Bar) (o : Open) (reference : dec) (reason : exit_reason)
    (a : Account) : res Account :=
  down ← psub (dZ 1) slip;
  exit ← pmul reference down;
  entry_value ← pmul (o_entry o) (dZ (se_quantity settings));
  exit_value ← pmul exit (dZ (se_quantity settings));
  exit_fee ← quote_total tariff SELL exit_value at_ (Some entry_value);
  fee ← padd exit_fee (o_fee o);
  gross ← psub exit_value entry_value;
  net ← psub gross fee;
  paid ← psub fee (o_fee o);
  got ← psub exit_value paid;
  cash ← padd (a_cash a) got;
  let t := mkTrade (o_decided o) (o_entered o) (candle_end bar) (o_entry o) exit
             (se_quantity settings) reason gross fee net in
  Ok (mkAccount cash (a_trades a ++ [t]) (a_no_fills a)
        (a_exposure a + (candle_end bar - o_entered o) / SECOND) (a_peak a) (a_marked_drawdown a)).

(** The open position during [bar]. *)
Definition manage (at_ : Z) (bar : Bar) (last liq : bool) (a : Account) (s : SessionState)
    : res (Account * SessionState) :=
  match ss_position s with
  | None => Ok (a, s)
  | Some o =>
      a ← mark_low at_ bar o a;
      '(reference, reason) ← exit_decision bar last (o_entry o);
      match reason with
      | None => Ok (a, s)
      | Some reason =>
          require! liq else "EXIT_NO_FILL_UNVALUED_POSITION";
          a ← close_trade at_ bar o reference reason a;
          Ok (a, mkSessionState (ss_closes s) None (ss_pending s))
      end
  end.

Definition raise_peak (bar : Bar) (a : Account) (position : option Open) : res Account :=
  value ← (match position with
           | None => Ok (a_cash a)
           | Some _ => held ← pmul (b_close bar) (dZ (se_quantity settings)); padd (a_cash a) held
           end);
  Ok (mkAccount (a_cash a) (a_trades a) (a_no_fills a) (a_exposure a) (dmax (a_peak a) value)
        (a_marked_drawdown a)).

(** One candle. *)
Definition bar_step (session_end : Z) (at_ : Z) (bar : Bar) (st : Account * SessionState)
    : res (Account * SessionState) :=
  let '(a, s) := st in
  let last := candle_end bar =? session_end in
  liq ← liquid bar;
  '(a, s) ← enter at_ bar last liq a s;
  '(a, s) ← manage at_ bar last liq a s;
  a ← raise_peak bar a (ss_position s);
  let closes := ss_closes s ++ [b_close bar] in
  fire ← (match ss_position s with
          | None => if last then Ok false else signal closes strategy
          | Some _ => Ok false
          end);
  Ok (a, mkSessionState closes (ss_position s) (if fire : bool then Some (candle_end bar) else ss_pending s)).

Definition by_start (bars : list Bar) : gmap Z Bar := foldl (fun m b => <[b_start b := b]> m) ∅ bars.

(** [while at < session.end: ...; at += FIVE] *)
Definition session_run (bars : gmap Z Bar) (a : Account) (session : DatedSession) : res Account :=
  '(a, _) ← foldR (fun st at_ => bar ← of_option KeyError (bars !! at_);
                                 bar_step (ds_end session) at_ bar st)
              (a, mkSessionState [] None None) (grid FIVE (ds_start session) (ds_end session));
  Ok a.
End simulate.

Record Simulation := mkSimulation {
  sm_synthetic : bool; sm_symbol : string; sm_trades : list Trade; sm_metrics : Metrics;
  sm_no_fills : list string; sm_exposure_seconds : Z; sm_marked_drawdown : dec
}.

Definition account_init (s : Settings) : Account := mkAccount (se_capital s) [] [] 0 (se_capital s) d0.

Definition simulate (series : Series) (strategy : Strategy) (settings : Settings)
    (tariff : IntradayCostSchedule) : res Simulation :=
  let '(missing, unexpected) := quality series in
  reject! negb (is_nil missing) || negb (is_nil unexpected) || is_nil (sr_sessions series)
    as "INCOMPLETE_OR_OUT_OF_SESSION_DATA";
  require! sr_corporate_actions_reviewed series else "CORPORATE_ACTION_REVIEW_REQUIRED";
  _ ← signal [] strategy;
  slip ← pdiv (se_slippage_bps settings) (dZ 10000);
  a ← foldR (session_run strategy settings tariff slip (by_start (sr_bars series)))
        (account_init settings) (sr_sessions series);
  m ← metrics (a_trades a) (se_capital settings);
  Ok (mkSimulation (sr_synthetic series) (sr_symbol series) (a_trades a) m (a_no_fills a)
        (a_exposure a) (a_marked_drawdown a)).

(** ** Qualification *)

Record Policy := mkPolicy {
  po_min_oos_trades : Z; po_min_fold_trades : Z; po_min_win_rate : dec; po_max_drawdown : dec;
  po_min_fold_win_rate : dec; po_family_size : Z; po_alpha : dec
}.

Definition policy_valid (p : Policy) : res unit :=
  reject! negb (dleb (Dec 70 (-2)) (po_min_win_rate p) && dleb (po_min_win_rate p) (dZ 1)) ||
          negb (dltb d0 (po_max_drawdown p) && dltb (po_max_drawdown p) (dZ 1)) ||
          negb (dltb d0 (po_alpha p) && dltb (po_alpha p) (dZ 1)) ||
          negb (dleb d0 (po_min_fold_win_rate p) && dleb (po_min_fold_win_rate p) (dZ 1))
    as "INVALID_QUALIFICATION_POLICY";
  Ok tt.

Record Qualification := mkQualification {
  q_qualified : bool; q_reasons : list string; q_out_of_sample : Metrics; q_folds : list Metrics
}.

Definition fold_unstable (p : Policy) (f : Metrics) : bool :=
  (m_trades f <? po_min_fold_trades p) || dleb (m_expectancy f) d0 ||
  dltb (m_win_rate f) (po_min_fold_win_rate p) || dltb (po_max_drawdown p) (m_drawdown f).

Definition reason_if (b : bool) (text : string) : list string := if b then [text] else [].

(** [uncertain m]: the adjusted Wilson lower bound is at most one half. *)
Definition qualify (uncertain : Metrics -> bool) (trades : list Trade) (capital : dec) (oos_start : Z)
    (boundaries : list Z) (p : Policy) : res Qualification :=
  reject! (Z.of_nat (length boundaries) <? 4) || negb (bool_decide (head boundaries = Some oos_start)) ||
          negb (strictly_sorted boundaries) as "PREDECLARED_THREE_OOS_FOLDS_REQUIRED";
  let within a b := List.filter (fun t => (a <=? t_entry_at t) && (t_entry_at t <? b)) in
  let oos := within oos_start (default 0 (last boundaries)) trades in
  result ← metrics oos capital;
  folds ← mapR (fun '(a, b) => metrics (within a b oos) capital) (zip boundaries (tail boundaries));
  let reasons :=
    reason_if (m_trades result <? po_min_oos_trades p) "INSUFFICIENT_OOS_TRADES" ++
    reason_if (dltb (m_win_rate result) (po_min_win_rate p)) "OOS_WIN_RATE_BELOW_THRESHOLD" ++
    reason_if (dleb (m_expectancy result) d0) "NON_POSITIVE_NET_EXPECTANCY" ++
    reason_if (dltb (po_max_drawdown p) (m_drawdown result)) "DRAWDOWN_LIMIT" ++
    reason_if (existsb (fold_unstable p) folds) "UNSTABLE_OR_INSUFFICIENT_WALK_FORWARD" ++
    reason_if ((m_trades result =? 0) || uncertain result) "MULTIPLE_TESTING_UNCERTAINTY" in
  Ok (mkQualification (is_nil reasons) reasons result folds).
