(* ===== verification/Sample.v ===== *)
(** * Worked examples

    Two five-minute sessions, a dataset of the first, a corpus of both, two cost
    models and a scripted strategy: the concrete inputs at which the theorems of the
    backtest are applied; then a six-candle session whose close breaks out of its opening
    range, a strategy that trades it, settings, and the same session with a last candle
    too thin to exit. *)
From S2P Require Import Prelude Decimal DecimalFacts Text Dataset Costs Corpus Backtest Phase14.

Definition cents (n : Z) : dec := Dec n (-2).
Definition hm (h m : Z) : Z := h * HOUR + m * MINUTE.
Definition sample_hash : string := digest "reference".

Definition sample_session : Session := mkSession (hm 9 15) (hm 9 20).
Definition sample_day (date : Z) : Day := mkDay date EXPECTED_SESSION [sample_session].
Definition sample_calendar (days : list Day) : Calendar :=
  mkCalendar "cal-1" "exchange" (digest (calendar_text "cal-1" "exchange" days)) days.

(** Minute [k] of the session of a date: an up-bar around [base] rupees. *)
Definition sample_bar (date base k : Z) : Bar :=
  mkBar (nse_combine date (hm 9 (15 + k))) (cents (100 * base + 10 * k + 1))
    (cents (100 * base + 10 * k + 23)) (cents (100 * base + 10 * k - 4))
    (cents (100 * base + 10 * k + 17)) 1000 None.
Definition sample_bars (date base : Z) : list Bar := sample_bar date base <$> [0; 1; 2; 3; 4].
Definition sample_instrument : string := "00000000-0000-0000-0000-000000000001".

Definition sample_dataset (date base : Z) : Dataset :=
  let cal := sample_calendar [sample_day date] in
  mkDataset sample_instrument "INFY" 5
    (nse_combine date (hm 9 15)) (nse_combine date (hm 9 20))
    (nse_combine date (hm 9 20)) (nse_combine date (hm 16 0))
    (bar_fingerprint sample_instrument (sample_bars date base)) cal
    [mkProvenance "feed" "v1" sample_hash (c_fingerprint cal)] (sample_bars date base).

Definition sample_corpus : Corpus :=
  mkCorpus (nse_combine 20000 (hm 9 15)) (nse_combine 20001 (hm 9 20))
    [sample_calendar [sample_day 20000; sample_day 20001]]
    [sample_dataset 20000 100; sample_dataset 20001 101]
    (bar_fingerprint sample_instrument (sample_bars 20000 100 ++ sample_bars 20001 101)).

Definition sample_config (m : CostModel) : Config :=
  mkConfig (dZ 10000) (hm 9 15) (hm 9 17) (hm 9 18) (mkAdverseBps (dZ 5)) m.
Definition sample_flat : CostModel := Configured (mkConfiguredCosts (dZ 2) (dZ 3)).
Definition sample_schedule : IntradayCostSchedule :=
  mkSchedule "t-1" "s-1" 19000 21000 HISTORICAL None
    (Dec 3 (-4)) (dZ 20) (Dec 25 (-5)) (Dec 297 (-7)) (Dec 1 (-8)) (Dec 1 (-6)) (Dec 18 (-2)) (Dec 3 (-5)).
Definition sample_tariff : CostModel := Scheduled sample_schedule.
Definition sample_spec : StrategySpec := mkSpec "script" "v1" sample_hash [("a", "1"); ("b", "2")]%string.

(** Proposes the next intent of the script at every decision. *)
Definition script (l : list (option Intent)) (_ : Decision) : res (option Intent) * list (option Intent) :=
  match l with i :: l => (Ok i, l) | [] => (Ok None, []) end.
Definition buy (q : Z) : option Intent := Some (mkIntent BUY q "entry").
Definition sell (q : Z) : option Intent := Some (mkIntent SELL q "exit").

Definition sample_script : list (option Intent) := [buy 10; buy 5; None; None; buy 5].

Definition sample_run (m : CostModel) : res Result :=
  run script (FDataset (sample_dataset 20000 100)) (sample_config m) sample_spec sample_script.
Definition sample_corpus_run : res Result :=
  run script (FCorpus sample_corpus) (sample_config sample_flat) sample_spec
    (sample_script ++ [buy 7; buy 10; sell 10]).


(** The example runs. *)
Lemma sample_run_flat : is_ok (sample_run sample_flat) = true.
Proof. vm_compute. reflexivity. Qed.
Lemma sample_run_tariff : is_ok (sample_run sample_tariff) = true.
Proof. vm_compute. reflexivity. Qed.
Lemma sample_run_corpus : is_ok sample_corpus_run = true.
Proof. vm_compute. reflexivity. Qed.

(** ** The five-minute session *)

Definition five_bar (k open high low close : Z) : Bar :=
  mkBar (nse_combine 20000 (hm 9 (15 + 5 * k))) (cents open) (cents high) (cents low) (cents close) 2000 None.
Definition five_bars : list Bar :=
  [five_bar 0 9951 9983 9907 9961; five_bar 1 9961 10121 9953 10113; five_bar 2 10111 10153 10081 10131;
   five_bar 3 10131 10391 10127 10361; five_bar 4 10361 10363 10221 10231; five_bar 5 10231 10243 10201 10207].
Definition five_series : Series :=
  mkSeries "INFY" "408065" "feed" true sample_hash sample_hash sample_hash
    (nse_combine 20000 (hm 16 0)) (nse_combine 20000 (hm 9 15)) (nse_combine 20000 (hm 9 45)) true
    [mkDated (nse_combine 20000 (hm 9 15)) (nse_combine 20000 (hm 9 45))] [] five_bars.
(** The close crosses above 100. *)
Definition five_strategy : Strategy :=
  mkStrategy "CROSS" "1" true
    [mkCross (mkOperand CLOSE 1 d0 0) (mkOperand CONSTANT 1 (dZ 100) 0) ABOVE] LONG (cents 2) (cents 2).
Definition five_settings : Settings := mkSettings (dZ 10000) (dZ 10000) (cents 105) 10 (dZ 5) (cents 1) true.
Lemma five_series_valid : series_validate five_series = Ok five_series.
Proof. vm_compute. reflexivity. Qed.

(** The last candle trades ten shares only. *)
Definition thin_bars : list Bar :=
  take 5 five_bars ++
  [mkBar (nse_combine 20000 (hm 9 40)) (cents 10231) (cents 10243) (cents 10201) (cents 10207) 10 None].
Definition thin_series : Series :=
  mkSeries "INFY" "408065" "feed" true sample_hash sample_hash sample_hash
    (nse_combine 20000 (hm 16 0)) (nse_combine 20000 (hm 9 15)) (nse_combine 20000 (hm 9 45)) true
    [mkDated (nse_combine 20000 (hm 9 15)) (nse_combine 20000 (hm 9 45))] [] thin_bars.
Lemma thin_series_valid : series_validate thin_series = Ok thin_series.
Proof. vm_compute. reflexivity. Qed.
