(* ===== verification/BacktestTheorems.v ===== *)
(** * Properties of the backtest

    The claims about [run], each with the concrete run at which it applies. *)
From S2P Require Import Prelude Decimal DecimalFacts Text Dataset MoneyFacts Costs CostsFacts Corpus FeedFacts.
From S2P Require Import CorpusFacts Backtest MetricsFacts EngineFacts RunFacts Causality.
From S2P Require Import Sample.
From Stdlib Require Import Sorted.

Section properties.
Context {St : Type} (on_decision : St -> Decision -> res (option Intent) * St).

(** C1. The books of a run balance, for every strategy: the final cash is the initial
    cash plus the profit of the closed trades, it is never negative, no position is
    left, and at every bar the equity is the cash plus the marked position, and not
    negative. *)
Theorem run_books feed config spec st r : run on_decision feed config spec st = Ok r ->
  exists f, feed_validate feed = Ok f /\
    r_final_position r = 0 /\ (0 <= dval (r_final_cash r))%Q /\
    dval (r_final_cash r) == initial r + qsum (dval ∘ t_net <$> r_trades r) /\
    Forall2 point_ok (feed_bars f) (r_curve r).
Proof.
  intros (f & c & s & Ec & _ & H)%run_result. exists f. destruct H. split.
  { unfold run_checks in Ec. apply bind_Ok in Ec as (f' & Ef & Ec). ok_inv. done. }
  split; [done|]. split; [done|]. split; [|done].
  by rewrite (me_ledger _ rs_metrics), (me_net _ rs_metrics).
Qed.

(** C2. Every fill of a run is the entry or the exit of one of its trades, in order;
    each trade buys once inside the entry window and sells the same quantity later
    the same day, no later than the forced exit, at prices on the adverse side of
    the open, and its profit is what the two fills and their costs say. *)
Theorem run_trades feed config spec st r : run on_decision feed config spec st = Ok r ->
  exists f c s, run_checks feed config spec = Ok (f, c, s) /\
    r_fills r = fills_of (r_trades r) /\ Forall (trade_ok f c) (r_trades r).
Proof. intros (f & c & s & Ec & _ & [])%run_result. by exists f, c, s. Qed.


(** A run of validated inputs fails only with an arithmetic failure, a forced exit
    that cannot be executed, or a failure of the strategy: the ledger checks, the
    overnight check, the calendar look-ups and the quotes of the tariff never fail. *)
Theorem run_errors feed config spec st e : run on_decision feed config spec st = Err e ->
  run_checks feed config spec = Err e \/ e = ValueError "ARITHMETIC_FAILURE" \/
  e = ValueError "FORCED_EXIT_UNAVAILABLE" \/ e = ValueError "STRATEGY_FAILURE".
Proof. apply run_error. Qed.

(** C5. The metrics are those of the trades and the curve: counts, sums, the largest
    fall of the equity from an earlier value, and percentages within their bounds in
    spite of the two roundings each of them goes through. *)
Theorem run_metrics feed config spec st r : run on_decision feed config spec st = Ok r -> metrics_ok r.
Proof. intros (f & c & s & _ & _ & [])%run_result. done. Qed.

(** C6. No look-ahead: two feeds that share their instrument, calendar and first bars,
    and whose next bars have the same date, pass through the same state [s] after those
    bars (one equity point for each), and everything the two loops record afterwards
    is appended to it with the times of later bars. *)
Theorem run_causal f g config spec st pre p post q post' sf sg :
  same_feed f g -> feed_bars f = pre ++ p :: post -> feed_bars g = pre ++ q :: post' ->
  nse_date (b_start p) = nse_date (b_start q) ->
  loop f config spec on_decision [] (feed_bars f) (sim_init config, st) = Ok sf ->
  loop g config spec on_decision [] (feed_bars g) (sim_init config, st) = Ok sg ->
  exists s, e_time <$> curve s = b_end <$> pre /\
    grows (fun t => exists bar, bar ∈ p :: post /\ (t = b_start bar \/ t = b_end bar)) s sf.1 /\
    grows (fun t => exists bar, bar ∈ q :: post' /\ (t = b_start bar \/ t = b_end bar)) s sg.1.
Proof.
  intros Hfg -> -> Hd Ef Eg. rewrite loop_app in Ef, Eg.
  rewrite (loop_until_reads f g config spec on_decision [] pre (p :: post) (q :: post')) in Ef;
    [|done|unfold same_next; cbn; by rewrite Hd].
  apply bind_Ok in Ef as (s & Es & Ef). apply bind_Ok in Eg as (s' & Es' & Eg).
  rewrite Es in Es'. injection Es' as <-. exists s.1. split; [by rewrite (loop_until_marks _ _ _ _ _ _ _ _ _ Es)|].
  by split; eapply loop_grows.
Qed.

(** The strategy is asked once per bar, at the end of the bar, and is shown the
    bars completed so far - those of the current session when the feed is a corpus -
    and no others. *)
Theorem run_decisions feed config spec f c s st s' :
  run_checks feed config spec = Ok (f, c, s) ->
  loop f c s (logging on_decision) [] (feed_bars f) (sim_init c, (st, [])) = Ok s' ->
  (fun d => (dc_time d, dc_bars d)) <$> s'.2.2 = views f [] (feed_bars f).
Proof.
  intros Ec E. destruct (run_checks_ok _ _ _ _ _ _ Ec) as [[_ Hc] _].
  by rewrite (loop_log f c s on_decision (days_by_date (feed_days f)) [] (feed_bars f)
    (sim_init c, (st, [])) s').
Qed.
End properties.

(** ** Costs and slippage *)

(** The price of an execution is the reference moved by the configured basis points
    against the trader, exactly; it is positive, a buy never pays less than the
    reference and a sell never receives more. *)
Theorem price_adverse s0 s side reference px : slippage_validate s0 = Ok s ->
  price s side reference = Ok px ->
  (0 < dval reference)%Q /\ (0 < dval px)%Q /\ adverse side (dval reference) (dval px) /\
  dval px == dval reference *
    (1 + (match side with BUY => 1 | SELL => -1 end) * (dval (bps s) / 10000)).
Proof.
  intros Hs%slippage_validate_ok E.
  assert (Hr : (0 < dval reference)%Q).
  { unfold price in E. apply bind_Ok in E as (u & Eu & _). apply raise_if_Ok in Eu. bool_inv.
    by rewrite dval_Z in Eu. }
  split; [done|]. exact (wp_elim runtime_error _ _ _ (wp_price s side reference Hs Hr) E).
Qed.

(** C9. The tariff quote refines its rational specification: when it returns, each of
    the seven charges is the specified one and their total is [tariff]. *)
Theorem quote_refines s side notional at_ entry_notional c :
  quote s side notional at_ entry_notional = Ok c ->
  charges_spec s side (dval notional) (basis_of entry_notional) c /\
  forall t, charges_total c = Ok t -> dval t == tariff s side (dval notional) (basis_of entry_notional).
Proof.
  intros E. pose proof (wp_quote s side notional at_ entry_notional (fun _ => True)
    (fun _ _ => I) (fun _ _ => I) (fun _ => I) (fun _ => I)) as H.
  pose proof (wp_elim _ _ _ _ H E) as Hc. split; [done|]. intros t Et.
  exact (wp_elim _ _ _ _ (charges_total_spec s side notional entry_notional (fun _ => True)
    (fun _ _ => I) c Hc) Et).
Qed.

(** The quote is refused exactly for its four reasons, in this order: an instant
    outside the schedule, a notional that is not positive, a sell without a positive
    entry notional, an inexact decimal result. *)
Theorem quote_errors s side notional at_ entry_notional e :
  quote s side notional at_ entry_notional = Err e ->
  (e = ValueError "COST_SCHEDULE_NOT_EFFECTIVE" /\
    ~ effective_from s <= cost_date s at_ < effective_to s) \/
  (e = ValueError "INVALID_NOTIONAL" /\ (dval notional <= 0)%Q) \/
  (e = ValueError "ENTRY_BASIS_REQUIRED" /\ side = SELL /\
    match entry_notional with None => True | Some n => (dval n <= 0)%Q end) \/
  decimal_error e.
Proof.
  intros Ee. pattern e. match goal with |- ?F e => pose (E := F) end. change (E e).
  assert (HE : forall e, decimal_error e -> E e) by (intros; unfold E; auto).
  refine (wp_error E _ _ _ (wp_quote s side notional at_ entry_notional E HE _ _ _) Ee); unfold E.
  - intros e'. unfold check_date. destruct (_ && _) eqn:Ed; [done|]. cbn. intros [= <-]. left.
    split; [done|]. intros H. apply andb_false_iff in Ed as [Ed|Ed]; bool_inv; lia.
  - intros H. apply dleb_spec in H. rewrite dval_Z in H. auto.
  - intros H. destruct side; [done|]. right; right; left. split; [done|]. split; [done|].
    destruct entry_notional as [n|]; [|done]. apply dleb_spec in H. by rewrite dval_Z in H.
Qed.

(** Charges are never negative, brokerage never exceeds the cap, and a larger
    execution never pays less: the totals of two quotes are ordered as their notionals
    and entry notionals. *)
Theorem quote_monotone s0 s side n1 n2 at1 at2 b1 b2 c1 c2 t1 t2 : schedule_validate s0 = Ok s ->
  quote s side n1 at1 b1 = Ok c1 -> quote s side n2 at2 b2 = Ok c2 ->
  charges_total c1 = Ok t1 -> charges_total c2 = Ok t2 ->
  (dval n1 <= dval n2)%Q -> (0 <= basis_of b1 <= basis_of b2)%Q ->
  (0 <= dval t1 <= dval t2)%Q /\ (0 <= dval (brokerage c1) <= dval (brokerage_cap s))%Q.
Proof.
  intros Hs%schedule_validate_rates E1 E2 T1 T2 Hn [Hb0 Hb].
  assert (Hpos : (0 < dval n1)%Q).
  { unfold quote in E1. apply bind_Ok in E1 as (u & _ & E1). apply bind_Ok in E1 as (v & Ev & _).
    apply raise_if_Ok in Ev. bool_inv. by rewrite dval_Z in Ev. }
  set (E := fun _ : exn => True). assert (HE : forall e, decimal_error e -> E e) by done.
  pose proof (wp_elim _ _ _ _ (wp_quote s side n1 at1 b1 E HE (fun _ _ => I) (fun _ => I) (fun _ => I)) E1) as C1.
  pose proof (wp_elim _ _ _ _ (wp_quote s side n2 at2 b2 E HE (fun _ _ => I) (fun _ => I) (fun _ => I)) E2) as C2.
  pose proof (wp_elim _ _ _ _ (charges_total_spec s side n1 b1 E HE c1 C1) T1) as V1.
  pose proof (wp_elim _ _ _ _ (charges_total_spec s side n2 b2 E HE c2 C2) T2) as V2.
  cbn beta in V1, V2. rewrite V1, V2, (cq_brokerage _ _ _ _ _ C1).
  split; [|apply tariff_brokerage_bounds; [done|lra]].
  split; [apply tariff_nonneg; [done|lra..]|apply tariff_mono; [done|lra..]].
Qed.

(** ** Money *)

(** Money is accepted exactly when it is not negative, has at most 18 integer
    digits and at most 10 fraction digits; the accepted value is unchanged, its text
    parses back to it, and parsing it again changes nothing. *)
Theorem money_roundtrip d :
  (forall r, parse_decimal d = Ok r ->
    dval r == dval d /\ parse_decimal_text (decimal_text r) = Ok r /\ parse_decimal r = Ok r) /\
  ((exists r, parse_decimal d = Ok r) <-> (0 <= dval d)%Q /\ adjusted d <= 17 /\ -10 <= dexp d).
Proof.
  split.
  - intros r E. pose proof (parse_decimal_idem _ _ E) as Ei. split; [|split; [|done]].
    + apply parse_decimal_Ok in E as (Hc & _ & _ & ->). by apply canonical_money_val.
    + unfold parse_decimal in Ei. by ok_inv.
  - assert (Hsign : (0 <= dval d)%Q <-> 0 <= coef d).
    { pose proof (dval_sign d) as (_ & [H1 H2] & _). split; intros H.
      - destruct (Z.le_gt_cases 0 (coef d)); [done|]. specialize (H2 ltac:(lia)). lra.
      - apply Qnot_lt_le. intros Hn. specialize (H1 Hn). lia. }
    rewrite Hsign. split.
    + intros [r (H1 & H2 & H3 & _)%parse_decimal_Ok]. done.
    + intros (H1 & H2 & H3). exists (canonical_money d). by apply parse_decimal_Ok.
Qed.

(** ** Datasets and corpora *)

(** The bars of a validated dataset are exactly the minutes of the confirmed
    sessions of its window, in strictly increasing order, each with consistent prices. *)
Theorem dataset_minutes d r : dataset_validate d = Ok r ->
  StronglySorted Z.lt (b_start <$> ds_bars r) /\ Forall bar_ok (ds_bars r) /\
  forall t, t ∈ b_start <$> ds_bars r <->
    nse_date (ds_from r) <= nse_date t <= nse_date (ds_to r - 1) /\
    session_minute (days_by_date (c_days (ds_calendar r))) t.
Proof.
  intros E. pose proof (dataset_feed _ _ E) as [Hb Hc]. split; [by eapply chain_sorted|].
  split; [done|]. apply dataset_validate_inv in E as (Hv & _ & [_ Hd] & _).
  by apply expected_slots_elem, dataset_valid_slots.
Qed.

(** The same for a corpus: the shards neither overlap nor leave out a session, so
    the concatenated bars are exactly the minutes of the confirmed sessions of the
    whole range, in strictly increasing order. *)
Theorem corpus_sessions c r : corpus_validate c = Ok r ->
  StronglySorted Z.lt (b_start <$> corpus_bars r) /\ Forall bar_ok (corpus_bars r) /\
  forall t, t ∈ b_start <$> corpus_bars r <->
    nse_date (co_from r) <= nse_date t <= nse_date (co_to r - 1) /\
    session_minute (days_by_date (corpus_days r)) t.
Proof.
  intros E. pose proof (corpus_feed _ _ E) as [Hb Hc]. split; [by eapply chain_sorted|].
  split; [done|]. by eapply corpus_minutes.
Qed.

(** Validation is a closure: what a validator returns, it accepts unchanged, so
    [run] can validate again what its caller has validated. *)
Theorem feed_revalidates f g : feed_validate f = Ok g -> feed_validate g = Ok g.
Proof.
  destruct f as [d|c]; cbn [feed_validate]; intros (x & E & Ex)%bind_Ok; injection Ex as <-; cbn [feed_validate].
  - by rewrite (dataset_validate_fixed _ _ E).
  - by rewrite (corpus_validate_fixed _ _ E).
Qed.

(** ** The theorems at concrete inputs *)

(** A feed that differs from the example from its fourth bar on. *)
Definition sample_fork : Feed :=
  let d := sample_dataset 20000 100 in
  FDataset (mkDataset (ds_instrument d) (ds_symbol d) (ds_lot_size d) (ds_from d) (ds_to d)
    (ds_decision_cutoff d) (ds_dataset_cutoff d) (ds_content_fingerprint d) (ds_calendar d)
    (ds_provenance d) (take 3 (ds_bars d) ++ (sample_bar 20000 102 <$> [3; 4]))).
Definition sample_feed : Feed := FDataset (sample_dataset 20000 100).
Definition sample_loop (f : Feed) : res (Sim * list (option Intent)) :=
  loop f (sample_config sample_flat) sample_spec script [] (feed_bars f)
    (sim_init (sample_config sample_flat), sample_script).
Definition sample_log : res (Sim * (list (option Intent) * list Decision)) :=
  loop (FCorpus sample_corpus) (sample_config sample_flat) sample_spec (logging script) []
    (feed_bars (FCorpus sample_corpus)) (sim_init (sample_config sample_flat), (sample_script, [])).

Lemma sample_loops : is_ok (sample_loop sample_feed) = true /\ is_ok (sample_loop sample_fork) = true /\
  is_ok sample_log = true.
Proof. repeat split; vm_compute; reflexivity. Qed.
Lemma sample_checks : run_checks (FCorpus sample_corpus) (sample_config sample_flat) sample_spec =
  Ok (FCorpus sample_corpus, sample_config sample_flat, sample_spec).
Proof. vm_compute. reflexivity. Qed.
Lemma sample_dataset_valid : dataset_validate (sample_dataset 20000 100) = Ok (sample_dataset 20000 100).
Proof. vm_compute. reflexivity. Qed.
Lemma sample_corpus_valid : corpus_validate sample_corpus = Ok sample_corpus.
Proof. vm_compute. reflexivity. Qed.
Lemma sample_schedule_valid : schedule_validate sample_schedule = Ok sample_schedule.
Proof. vm_compute. reflexivity. Qed.

Lemma run_books_witness : exists r, sample_run sample_flat = Ok r /\ r_final_position r = 0 /\
  dval (r_final_cash r) == initial r + qsum (dval ∘ t_net <$> r_trades r).
Proof.
  destruct (proj1 (is_ok_true _) sample_run_flat) as [r E]. exists r. split; [exact E|].
  destruct (run_books script _ _ _ _ r E) as (f & _ & H & _ & H' & _). split; [exact H|exact H'].
Defined.
Lemma run_trades_witness : exists r, sample_corpus_run = Ok r /\ r_fills r = fills_of (r_trades r).
Proof.
  destruct (proj1 (is_ok_true _) sample_run_corpus) as [r E]. exists r. split; [exact E|].
  destruct (run_trades script _ _ _ _ r E) as (f & c & s & _ & H & _). exact H.
Defined.
(** The strategy fails at its second decision. *)
Definition failing (n : nat) (_ : Decision) : res (option Intent) * nat :=
  match n with 0%nat => (Ok None, 1%nat) | _ => (Err StrategyException, n) end.
Lemma run_errors_witness : exists e,
  run failing sample_feed (sample_config sample_flat) sample_spec 0%nat = Err e /\
  (run_checks sample_feed (sample_config sample_flat) sample_spec = Err e \/
   e = ValueError "ARITHMETIC_FAILURE" \/ e = ValueError "FORCED_EXIT_UNAVAILABLE" \/
   e = ValueError "STRATEGY_FAILURE").
Proof.
  assert (E : run failing sample_feed (sample_config sample_flat) sample_spec 0%nat =
    Err (ValueError "STRATEGY_FAILURE")) by (vm_compute; reflexivity).
  exists (ValueError "STRATEGY_FAILURE"). split; [exact E|]. exact (run_errors failing _ _ _ _ _ E).
Defined.
Lemma run_metrics_witness : exists r, sample_run sample_tariff = Ok r /\ metrics_ok r.
Proof.
  destruct (proj1 (is_ok_true _) sample_run_tariff) as [r E]. exists r. split; [exact E|].
  exact (run_metrics script _ _ _ _ r E).
Defined.
Lemma run_causal_witness : exists sf sg s,
  sample_loop sample_feed = Ok sf /\ sample_loop sample_fork = Ok sg /\
  e_time <$> curve s = b_end <$> take 3 (feed_bars sample_feed).
Proof.
  destruct (proj1 (is_ok_true _) (proj1 sample_loops)) as [sf Ef].
  destruct (proj1 (is_ok_true _) (proj1 (proj2 sample_loops))) as [sg Eg].
  exists sf, sg. destruct (run_causal script sample_feed sample_fork (sample_config sample_flat)
    sample_spec sample_script (take 3 (feed_bars sample_feed))
    (sample_bar 20000 100 3) [sample_bar 20000 100 4]
    (sample_bar 20000 102 3) [sample_bar 20000 102 4] sf sg) as (s & Hs & _).
  - split; reflexivity.
  - vm_compute. reflexivity.
  - vm_compute. reflexivity.
  - vm_compute. reflexivity.
  - exact Ef.
  - exact Eg.
  - exists s. split; [exact Ef|]. split; [exact Eg|exact Hs].
Defined.
Lemma run_decisions_witness : exists s', sample_log = Ok s' /\
  (fun d => (dc_time d, dc_bars d)) <$> s'.2.2 = views (FCorpus sample_corpus) [] (corpus_bars sample_corpus).
Proof.
  destruct (proj1 (is_ok_true _) (proj2 (proj2 sample_loops))) as [s' E]. exists s'. split; [exact E|].
  exact (run_decisions script _ _ _ _ _ _ _ s' sample_checks E).
Defined.
Lemma price_adverse_witness : exists px, price (mkAdverseBps (dZ 5)) SELL (cents 10030) = Ok px /\
  (dval px <= dval (cents 10030))%Q.
Proof.
  destruct (proj1 (is_ok_true (price (mkAdverseBps (dZ 5)) SELL (cents 10030)))
    ltac:(vm_compute; reflexivity)) as [px E].
  exists px. split; [exact E|].
  exact (proj1 (proj2 (proj2 (price_adverse (mkAdverseBps (dZ 5)) _ SELL _ px ltac:(vm_compute; reflexivity) E)))).
Defined.
Lemma quote_refines_witness : exists c,
  quote sample_schedule SELL (dZ 1000) (nse_combine 20000 (hm 9 18)) (Some (dZ 990)) = Ok c /\
  charges_spec sample_schedule SELL (dval (dZ 1000)) (dval (dZ 990)) c.
Proof.
  destruct (proj1 (is_ok_true (quote sample_schedule SELL (dZ 1000) (nse_combine 20000 (hm 9 18)) (Some (dZ 990))))
    ltac:(vm_compute; reflexivity)) as [c E].
  exists c. split; [exact E|]. exact (proj1 (quote_refines _ _ _ _ _ c E)).
Defined.
Lemma quote_errors_witness : exists e,
  quote sample_schedule SELL (dZ 1000) (nse_combine 20000 (hm 9 18)) None = Err e /\
  e = ValueError "ENTRY_BASIS_REQUIRED".
Proof.
  assert (E : quote sample_schedule SELL (dZ 1000) (nse_combine 20000 (hm 9 18)) None =
    Err (ValueError "ENTRY_BASIS_REQUIRED")) by (vm_compute; reflexivity).
  exists (ValueError "ENTRY_BASIS_REQUIRED"). split; [exact E|].
  destruct (quote_errors _ _ _ _ _ _ E) as [[H _]|[[H _]|[[H _]|[sig H]]]]; first [exact H|discriminate H].
Defined.
Lemma quote_monotone_witness : exists c1 c2 t1 t2,
  quote sample_schedule SELL (dZ 1000) (nse_combine 20000 (hm 9 18)) (Some (dZ 990)) = Ok c1 /\
  quote sample_schedule SELL (dZ 2000) (nse_combine 20000 (hm 9 19)) (Some (dZ 990)) = Ok c2 /\
  charges_total c1 = Ok t1 /\ charges_total c2 = Ok t2 /\ (0 <= dval t1 <= dval t2)%Q.
Proof.
  do 4 eexists. do 4 (split; [vm_compute; reflexivity|]).
  refine (proj1 (quote_monotone sample_schedule sample_schedule SELL (dZ 1000) (dZ 2000)
    (nse_combine 20000 (hm 9 18)) (nse_combine 20000 (hm 9 19)) (Some (dZ 990)) (Some (dZ 990)) _ _ _ _
    sample_schedule_valid _ _ _ _ _ _)); [vm_compute; reflexivity..| |]; vm_compute; try split; discriminate.
Defined.
Lemma money_roundtrip_witness : exists r, parse_decimal (Dec 1200 (-3)) = Ok r /\
  parse_decimal_text (decimal_text r) = Ok r.
Proof.
  exists (Dec 12 (-1)). split; [vm_compute; reflexivity|].
  apply (proj1 (money_roundtrip (Dec 1200 (-3)))). vm_compute. reflexivity.
Defined.
Lemma dataset_minutes_witness :
  StronglySorted Z.lt (b_start <$> ds_bars (sample_dataset 20000 100)).
Proof. exact (proj1 (dataset_minutes _ _ sample_dataset_valid)). Defined.
Lemma corpus_sessions_witness : StronglySorted Z.lt (b_start <$> corpus_bars sample_corpus).
Proof. exact (proj1 (corpus_sessions _ _ sample_corpus_valid)). Defined.
Lemma feed_revalidates_witness : feed_validate (FCorpus sample_corpus) = Ok (FCorpus sample_corpus).
Proof.
  apply (feed_revalidates (FCorpus sample_corpus)). cbn [feed_validate]. rewrite sample_corpus_valid. reflexivity.
Defined.
