(* ===== verification/Phase14Facts.v ===== *)
(** * Theory of the five-minute engine

    Bounds of the relative strength index, the invariant of the candle loop, the
    completeness report, the metrics. *)
From S2P Require Import Prelude Decimal DecimalFacts Text Dataset Costs Errors Phase14.
From stdpp Require Import sorting.
Open Scope list_scope.
Open Scope Z_scope.

Lemma PRECISION_ok : context_ok PRECISION.
Proof. by apply mk_context_ok. Qed.
Lemma repr_small n : Z.abs n <= 10000 -> repr PRECISION (inject_Z n).
Proof.
  intros H. apply repr_Z; [apply PRECISION_ok|]. transitivity (10 ^ 4); [done|].
  apply Z.pow_le_mono_r; done.
Qed.

(** ** The relative strength index *)

Definition nonneg2 (s : dec * dec) : Prop := (0 <= dval s.1)%Q /\ (0 <= dval s.2)%Q.

Lemma positive_nonneg v : (0 <= dval (positive_part v))%Q.
Proof. unfold positive_part. pose proof (dmax_ge_r v d0) as H. by rewrite dval_Z in H. Qed.
Lemma negative_part_nonneg v r : negative_part v = Ok r -> (0 <= dval r)%Q.
Proof.
  unfold negative_part. intros (m & _ & E)%bind_Ok. injection E as <-.
  pose proof (dmax_ge_r m d0) as H. by rewrite dval_Z in H.
Qed.

Lemma smooth_nonneg n average x r : 1 <= n -> smooth n average x = Ok r ->
  (0 <= dval average)%Q -> (0 <= dval x)%Q -> (0 <= dval r)%Q.
Proof.
  intros Hn (scaled & E1 & E)%bind_Ok Ha Hx. apply bind_Ok in E as (total & E2 & E).
  assert (H1 : (0 <= dval scaled)%Q).
  { eapply dmul_nonneg; [apply PRECISION_ok|exact E1|done|]. rewrite dval_Z, <- (Zle_Qle 0). lia. }
  assert (H2 : (0 <= dval total)%Q) by (eapply dadd_nonneg; [apply PRECISION_ok|exact E2|done|done]).
  eapply ddiv_nonneg; [apply PRECISION_ok|exact E|done|]. rewrite dval_Z, <- (Zle_Qle 0). lia.
Qed.

Lemma rsi_step_nonneg n s x r : 1 <= n -> rsi_step n s x = Ok r -> nonneg2 s -> nonneg2 r.
Proof.
  intros Hn E [H1 H2]. destruct s as [gain loss]. unfold rsi_step in E.
  apply bind_Ok in E as (g & E1 & E). apply bind_Ok in E as (d & E2 & E).
  apply bind_Ok in E as (l & E3 & E). injection E as <-. split; cbn [fst snd] in *.
  - eapply smooth_nonneg; [done|exact E1|done|apply positive_nonneg].
  - eapply smooth_nonneg; [done|exact E3|done|by eapply negative_part_nonneg].
Qed.

Lemma rsi_of_range gain loss r : (0 <= dval gain)%Q -> (0 <= dval loss)%Q ->
  rsi_of gain loss = Ok r -> (0 <= dval r <= 100)%Q.
Proof.
  intros Hg Hl E. unfold rsi_of in E. destruct (deqb loss d0).
  { injection E as <-. destruct (deqb gain d0); rewrite dval_Z; by split. }
  apply bind_Ok in E as (strength & E1 & E). apply bind_Ok in E as (base & E2 & E).
  apply bind_Ok in E as (part & E3 & E). apply bind_Ok in E as (value & E4 & E).
  assert (H1 : (0 <= dval strength)%Q) by (eapply ddiv_nonneg; [apply PRECISION_ok|exact E1|done|done]).
  assert (H2 : (1 <= dval base)%Q).
  { eapply (dadd_ge PRECISION PRECISION_ok (inject_Z 1)); [by apply repr_small|exact E2|].
    rewrite dval_Z. change (inject_Z 1) with 1%Q. lra. }
  assert (H3 : (0 <= dval part <= 100)%Q).
  { split; [eapply ddiv_nonneg; [apply PRECISION_ok|exact E3|by rewrite dval_Z|lra]|].
    eapply (ddiv_le PRECISION _ _ _ (inject_Z 100)); [apply PRECISION_ok|exact E3|by apply repr_small|].
    apply Qle_shift_div_r; [lra|]. rewrite dval_Z. change (inject_Z 100) with 100%Q. lra. }
  assert (H4 : (0 <= dval value <= 100)%Q).
  { split.
    - eapply (dsub_ge PRECISION PRECISION_ok (inject_Z 0)); [by apply repr_small|exact E4|].
      rewrite dval_Z. change (inject_Z 100) with 100%Q. change (inject_Z 0) with 0%Q. lra.
    - eapply (dsub_le PRECISION PRECISION_ok (inject_Z 100)); [by apply repr_small|exact E4|].
      rewrite dval_Z. change (inject_Z 100) with 100%Q. lra. }
  split.
  - eapply (dfix_ge PRECISION _ _ (inject_Z 0)); [apply PRECISION_ok|exact E|by apply repr_small|apply H4].
  - eapply (dfix_le PRECISION _ _ (inject_Z 100)); [apply PRECISION_ok|exact E|by apply repr_small|apply H4].
Qed.

Lemma mapR_Forall {A B} (P : B -> Prop) (f : A -> res B) l l' :
  (forall x y, f x = Ok y -> P y) -> mapR f l = Ok l' -> Forall P l'.
Proof.
  intros Hf E. apply mapR_Forall2 in E. induction E; constructor; [by eapply Hf|done].
Qed.

Lemma rsi_range n values r : 1 <= n -> rsi n values = Ok (Some r) -> (0 <= dval r <= 100)%Q.
Proof.
  intros Hn E. unfold rsi in E. destruct (_ <=? _); [done|].
  apply bind_Ok in E as (ch & _ & E). apply bind_Ok in E as (up & E1 & E).
  apply bind_Ok in E as (gain & E2 & E). apply bind_Ok in E as (downs & E3 & E).
  apply bind_Ok in E as (down & E4 & E). apply bind_Ok in E as (loss & E5 & E).
  apply bind_Ok in E as ([g l] & E6 & E).
  assert (Hnn : (0 <= dval (dZ n))%Q) by (rewrite dval_Z, <- (Zle_Qle 0); lia).
  assert (H0 : (0 <= dval d0)%Q) by by rewrite dval_Z.
  assert (Hup : (0 <= dval up)%Q).
  { eapply dsum_nonneg; [apply PRECISION_ok|exact E1|done|]. apply Forall_fmap, Forall_true. intros v.
    cbn. apply positive_nonneg. }
  assert (Hdown : (0 <= dval down)%Q).
  { eapply dsum_nonneg; [apply PRECISION_ok|exact E4|done|]. eapply mapR_Forall; [|exact E3].
    apply negative_part_nonneg. }
  assert (Hgl : nonneg2 (g, l)).
  { eapply (foldR_inv nonneg2); [|split|exact E6]; cbn [fst snd].
    - intros s x s' _ Hs Es. by eapply rsi_step_nonneg.
    - eapply ddiv_nonneg; [apply PRECISION_ok|exact E2|done|done].
    - eapply ddiv_nonneg; [apply PRECISION_ok|exact E5|done|done]. }
  unfold fmap, res_fmap in E. destruct (rsi_of g l) as [r'|] eqn:Er; [|done]. injection E as <-.
  destruct Hgl. by apply (rsi_of_range g l).
Qed.

(** ** The completeness report *)

Lemma set_list_empty (X : gset Z) : merge_sort Z.le (elements X) = [] <-> X = ∅.
Proof.
  split.
  - intros H. pose proof (merge_sort_Permutation Z.le (elements X)) as Hp. rewrite H in Hp.
    apply Permutation_nil in Hp. by apply elements_empty_inv, leibniz_equiv in Hp.
  - by intros ->.
Qed.

Lemma quality_complete s : quality s = ([], []) <->
  forall t, t ∈ b_start <$> sr_bars s <-> exists d, d ∈ sr_sessions s /\ t ∈ grid FIVE (ds_start d) (ds_end d).
Proof.
  assert (Hexp : forall t, t ∈ expected_starts s <->
    exists d, d ∈ sr_sessions s /\ t ∈ grid FIVE (ds_start d) (ds_end d)).
  { intros t. unfold expected_starts. rewrite elem_of_list_to_set, list_elem_of_join. split.
    - intros (l & Hin & Hl). apply list_elem_of_fmap in Hl as (d & -> & Hd). by exists d.
    - intros (d & Hd & Hin). eexists. split; [exact Hin|]. apply list_elem_of_fmap. by exists d. }
  assert (Hact : forall t, t ∈ actual_starts s <-> t ∈ b_start <$> sr_bars s).
  { intros t. unfold actual_starts. apply elem_of_list_to_set. }
  unfold quality. split.
  - intros E. injection E as E1 E2. apply set_list_empty in E1, E2.
    apply empty_difference_subseteq_L in E1, E2. intros t. rewrite <- Hexp, <- Hact. split; [apply E2|apply E1].
  - intros H. f_equal; apply set_list_empty, subseteq_empty_difference_L; intros t Ht;
      specialize (H t); rewrite <- Hexp, <- Hact in H; by apply H.
Qed.

(** ** The candle loop *)

(** What [simulate] may raise: the quote and arithmetic errors of a bar, an exit that
    cannot be filled, and the errors of its own guards; never a missing candle. *)
Definition simulation_error : exn -> Prop := among
  (quote_messages ++ ["EXIT_NO_FILL_UNVALUED_POSITION"; "UNCONFIRMED_OR_UNSUPPORTED_STRATEGY"]%string).
#[export] Instance simulation_arithmetic : Arithmetic simulation_error.
Proof. apply among_arithmetic. Qed.
#[export] Instance simulation_quotes : Raises simulation_error quote_messages.
Proof. by apply among_raises. Qed.

Lemma wp_indicator {Es} `{!Arithmetic Es} values o : wp Es (indicator values o) (fun _ => True).
Proof.
  unfold indicator. destruct (if _ : bool then _ else _) as [|v l]; [done|].
  destruct (op_indicator o); try done; unfold ema, rsi.
  - destruct (_ <? _); [done|]. op total E1. op r E2. op alpha E3.
    eapply wp_bind; [apply wp_foldR_any|].
    { intros s x. unfold ema_step. op gap E4. op move E5. any_wp. }
    intros x _ _. unfold fmap, res_fmap. destruct (dplus PRECISION x) eqn:E; [done|].
    by eapply (arithmetic e), dfix_error.
  - destruct (_ <=? _); [done|]. eapply wp_bind; [apply wp_mapR_any; intros [a b]; any_wp|]. intros ch _ _.
    op up E1. op gain E2.
    assert (Hneg : forall x, wp Es (negative_part x) (fun _ => True)).
    { intros x. unfold negative_part. op m E. done. }
    assert (Hsmooth : forall n a x, wp Es (smooth n a x) (fun _ => True)).
    { intros n a x. unfold smooth. op m1 E. op m2 E'. any_wp. }
    eapply wp_bind; [by apply wp_mapR_any|]. intros downs _ _. op down E3. op loss E4.
    eapply wp_bind; [apply wp_foldR_any|].
    { intros [g d] x. unfold rsi_step. eapply wp_bind; [apply Hsmooth|]. intros g' _ _.
      eapply wp_bind; [apply Hneg|]. intros d' _ _. eapply wp_bind; [apply Hsmooth|]. by intros. }
    intros [g d] _ _. unfold rsi_of, fmap, res_fmap.
    match goal with |- wp _ (match ?m with Ok _ => _ | Err _ => _ end) _ =>
      assert (Hm : wp Es m (fun _ => True)) end.
    { destruct (deqb d d0); [done|]. op s1 E5. op s2 E6. op s3 E7. op s4 E8. any_wp. }
    revert Hm. by destruct (if _ : bool then _ else _).
Qed.

Lemma wp_all_rules {Es} `{!Arithmetic Es} closes rules :
  wp Es (all_rules closes rules) (fun _ => True).
Proof.
  induction rules as [|rule l IH]; cbn [all_rules]; [done|].
  eapply wp_bind with (R := fun _ => True).
  { unfold rule_holds. do 4 (eapply wp_bind; [by apply wp_indicator|]; intros ? _ _). done. }
  intros [|] _ _; [exact IH|done].
Qed.

Lemma wp_signal closes s : wp simulation_error (signal closes s) (fun _ => True).
Proof. unfold signal. apply wp_require; [by intros; raise|]. intros _. apply wp_all_rules. Qed.

Lemma by_start_Some bars t b : by_start bars !! t = Some b -> b ∈ bars /\ b_start b = t.
Proof.
  unfold by_start. induction bars as [|x l IH] using rev_ind; [done|]. rewrite foldl_app. cbn.
  destruct (decide (b_start x = t)) as [<-|Hne].
  - rewrite lookup_insert_eq. intros [= ->]. split; [set_solver|done].
  - rewrite lookup_insert_ne by done. intros H. apply IH in H as [??]. split; [set_solver|done].
Qed.
Lemma by_start_elem bars t : t ∈ b_start <$> bars -> is_Some (by_start bars !! t).
Proof.
  unfold by_start. induction bars as [|x l IH] using rev_ind; [by intros ?%elem_of_nil|].
  rewrite foldl_app, fmap_app. cbn. intros Ht. destruct (decide (b_start x = t)) as [<-|Hne].
  - by rewrite lookup_insert_eq.
  - rewrite lookup_insert_ne by done. apply IH. apply elem_of_app in Ht as [Ht|Ht]; [done|].
    by apply list_elem_of_singleton in Ht.
Qed.

Section loop.
Context (strategy : Strategy) (settings : Settings) (tariff : IntradayCostSchedule) (slip : dec).
Context (bars : gmap Z Bar).

(** The closes of the bars of a session that end by [t]. *)
Definition closes_before (session : DatedSession) (t : Z) : list dec :=
  b_close <$> omap (fun u => bars !! u) (grid FIVE (ds_start session) t).

(** A condition holds: its two indicators are known before and after the last close, and
    crossed there. *)
Definition crosses (closes : list dec) (rule : Cross) : Prop :=
  exists lp rp lc rc, indicator (drop_last 1 closes) (cr_left rule) = Ok (Some lp) /\
    indicator (drop_last 1 closes) (cr_right rule) = Ok (Some rp) /\
    indicator closes (cr_left rule) = Ok (Some lc) /\ indicator closes (cr_right rule) = Ok (Some rc) /\
    match cr_direction rule with
    | ABOVE => (dval lp <= dval rp)%Q /\ (dval rc < dval lc)%Q
    | BELOW => (dval rp <= dval lp)%Q /\ (dval lc < dval rc)%Q
    end.
Definition fired (closes : list dec) : Prop :=
  st_confirmed strategy = true /\ st_direction strategy = LONG /\ Forall (crosses closes) (st_conditions strategy).

(** The stop and the target of an entry, and what a bar does with them: it leaves the
    position, or it exits at a price - the stop first, at the open when the bar opens
    below it, then the target, then the close of the last bar. *)
Record levels (entry stop target : dec) : Prop := {
  lv_stop : exists below, psub (dZ 1) (st_stop strategy) = Ok below /\ pmul entry below = Ok stop;
  lv_target : exists above, padd (dZ 1) (st_target strategy) = Ok above /\ pmul entry above = Ok target
}.
Definition stays (bar : Bar) (entry : dec) : Prop :=
  exists stop target, levels entry stop target /\ (dval stop < dval (b_low bar))%Q /\ (dval (b_high bar) < dval target)%Q.
Definition exits (bar : Bar) (last : Prop) (entry reference : dec) (reason : exit_reason) : Prop :=
  exists stop target, levels entry stop target /\
    match reason with
    | STOP => (dval (b_low bar) <= dval stop)%Q /\
        ((dval stop <= dval (b_open bar))%Q /\ reference = stop \/ (dval (b_open bar) < dval stop)%Q /\ reference = b_open bar)
    | TARGET => (dval stop < dval (b_low bar))%Q /\ (dval target <= dval (b_high bar))%Q /\ reference = target
    | EOD => (dval stop < dval (b_low bar))%Q /\ (dval (b_high bar) < dval target)%Q /\ last /\ reference = b_close bar
    end.

(** A position entered at the open of the bar after its signal, which no bar of
    [entered, upto) exits. *)
Record held_ok (session : DatedSession) (decided entered : Z) (entry fee : dec) (upto : Z) : Prop := {
  hd_decided : decided = entered;
  hd_signal : fired (closes_before session decided);
  hd_before : entered <= upto;
  hd_inside : ds_start session < entered < ds_end session;
  hd_grid : (entered - ds_start session) mod FIVE = 0;
  hd_entry : exists eb factor notional, bars !! entered = Some eb /\ padd (dZ 1) slip = Ok factor /\
    pmul (b_open eb) factor = Ok entry /\ pmul entry (dZ (se_quantity settings)) = Ok notional /\
    quote_total tariff BUY notional entered None = Ok fee /\
    se_allow_long settings = true /\ liquid settings eb = Ok true /\
    exists buffered, pmul notional (se_price_buffer settings) = Ok buffered /\
      (dval buffered <= dval (se_order_ceiling settings))%Q;
  hd_waiting : forall t b, entered <= t < upto -> (t - ds_start session) mod FIVE = 0 -> bars !! t = Some b -> stays b entry
}.

(** A closed trade: the first bar whose exit rule fires, in the session of the entry, and
    its accounts with the fees of both sides. *)
Record trade_ok (sessions : list DatedSession) (t : Trade) : Prop := {
  to_session : exists session xb reference down entry_fee entry_value exit_value exit_fee, session ∈ sessions /\
    held_ok session (t_signal_at t) (t_entry_at t) (t_entry t) entry_fee (t_exit_at t - FIVE) /\
    t_entry_at t < t_exit_at t <= ds_end session /\
    bars !! (t_exit_at t - FIVE) = Some xb /\ liquid settings xb = Ok true /\
    exits xb (t_exit_at t = ds_end session) (t_entry t) reference (t_reason t) /\
    psub (dZ 1) slip = Ok down /\ pmul reference down = Ok (t_exit t) /\
    pmul (t_entry t) (dZ (t_quantity t)) = Ok entry_value /\ pmul (t_exit t) (dZ (t_quantity t)) = Ok exit_value /\
    quote_total tariff SELL exit_value (t_exit_at t - FIVE) (Some entry_value) = Ok exit_fee /\
    padd exit_fee entry_fee = Ok (t_fees t) /\
    psub exit_value entry_value = Ok (t_gross t) /\ psub (t_gross t) (t_fees t) = Ok (t_net t);
  to_quantity : t_quantity t = se_quantity settings
}.

(** The trades so far: well formed, one after the other, before [upto]. *)
Record trades_ok (sessions : list DatedSession) (upto : Z) (l : list Trade) : Prop := {
  tk_all : Forall (trade_ok sessions) l;
  tk_order : StronglySorted (fun t u => t_exit_at t <= t_signal_at u) l;
  tk_before : Forall (fun t => t_exit_at t <= upto) l
}.

Lemma trades_ok_mono sessions u v l : u <= v -> trades_ok sessions u l -> trades_ok sessions v l.
Proof. intros H [A B C]. split; [done|done|]. eapply Forall_impl; [exact C|]. cbn. lia. Qed.

Lemma StronglySorted_snoc {A} (R : A -> A -> Prop) l x : StronglySorted R l -> Forall (fun y => R y x) l ->
  StronglySorted R (l ++ [x]).
Proof.
  induction 1 as [|y l Hs IH Hy]; intros Hx; cbn; [repeat constructor|].
  apply Forall_cons in Hx as [H1 H2]. constructor; [by apply IH|]. apply Forall_app. split; [done|by constructor].
Qed.

Lemma trades_ok_snoc sessions u v l t : trades_ok sessions u l -> trade_ok sessions t ->
  u <= t_signal_at t -> t_exit_at t <= v -> u <= v -> trades_ok sessions v (l ++ [t]).
Proof.
  intros [A B C] Ht Hs He Huv. split.
  - apply Forall_app. split; [done|by constructor].
  - apply StronglySorted_snoc; [done|]. eapply Forall_impl; [exact C|]. cbn. lia.
  - apply Forall_app. split; [|by constructor]. eapply Forall_impl; [exact C|]. cbn. lia.
Qed.

(** The state before the bar at [nxt]; the trades end before the open position. *)
Record walking (sessions : list DatedSession) (session : DatedSession) (nxt : Z)
    (st : Account * SessionState) : Prop := {
  wk_trades : exists upto, trades_ok sessions upto (a_trades st.1) /\ upto <= nxt /\
    forall o, ss_position st.2 = Some o -> upto <= o_decided o;
  wk_position : forall o, ss_position st.2 = Some o ->
    held_ok session (o_decided o) (o_entered o) (o_entry o) (o_fee o) nxt;
  wk_pending : forall p, ss_pending st.2 = Some p -> p = nxt /\ ds_start session < nxt /\ fired (closes_before session nxt);
  wk_closes : ss_closes st.2 = closes_before session nxt;
  wk_exclusive : is_Some (ss_position st.2) -> ss_pending st.2 = None
}.

Lemma FIVE_pos : 0 < FIVE.
Proof. done. Qed.

Lemma all_rules_crosses closes rules : all_rules closes rules = Ok true -> Forall (crosses closes) rules.
Proof.
  induction rules as [|rule l IH]; cbn [all_rules]; intros E; [constructor|].
  unbind E b Eb. destruct b; [|discriminate E]. constructor; [|by apply IH].
  unfold rule_holds in Eb. cbv zeta in Eb. unbind Eb lp E1. unbind Eb rp E2. unbind Eb lc E3. unbind Eb rc E4.
  apply Ok_inj in Eb. destruct lp as [lp|], rp as [rp|], lc as [lc|], rc as [rc|]; try discriminate Eb.
  exists lp, rp, lc, rc. do 4 (split; [done|]). unfold crossed in Eb.
  destruct (cr_direction rule); apply andb_true in Eb as [H1 H2]; apply dleb_spec in H1; apply dltb_spec in H2; done.
Qed.
Lemma signal_fired closes : signal closes strategy = Ok true -> fired closes.
Proof.
  unfold signal, permitted. intros E. unbind E u Eu. apply raise_unless_Ok in Eu. apply andb_true in Eu as [H1 H2].
  split; [done|]. split; [by destruct (st_direction strategy)|]. by apply all_rules_crosses.
Qed.

(** The decision about a bar, read as the rules. *)
Lemma exit_decision_spec bar last entry reference reason : exit_decision strategy bar last entry = Ok (reference, reason) ->
  match reason with
  | Some reason => exits bar (last = true) entry reference reason
  | None => last = false /\ stays bar entry
  end.
Proof.
  unfold exit_decision. intros E. unbind E below E1. unbind E stop E2. unbind E above E3. unbind E target E4.
  assert (Hl : levels entry stop target) by (split; eauto). apply Ok_inj in E.
  destruct (dleb (b_low bar) stop) eqn:D1.
  - injection E as <- <-. exists stop, target. split; [done|]. apply dleb_spec in D1. split; [done|]. unfold dmin.
    destruct (dltb (b_open bar) stop) eqn:D3; [apply dltb_spec in D3|apply dltb_false in D3]; auto.
  - apply dleb_false in D1. destruct (dleb target (b_high bar)) eqn:D2.
    + injection E as <- <-. exists stop, target. apply dleb_spec in D2. done.
    + apply dleb_false in D2. destruct last; injection E as <- <-; [|split; [done|]]; exists stop, target; done.
Qed.

(** The closes of one more bar. *)
Lemma closes_snoc session t bar : ds_start session <= t -> (t - ds_start session) mod FIVE = 0 -> bars !! t = Some bar ->
  closes_before session (t + FIVE) = closes_before session t ++ [b_close bar].
Proof.
  intros Hs Hg Hb. unfold closes_before. rewrite grid_snoc by done. rewrite omap_app, fmap_app. cbn. by rewrite Hb.
Qed.
Lemma closes_start session : closes_before session (ds_start session) = [].
Proof. unfold closes_before. rewrite grid_unfold by done. by rewrite Z.ltb_irrefl. Qed.

Lemma wp_liquid {Es} `{!Arithmetic Es} bar : wp Es (liquid settings bar) (fun l => liquid settings bar = Ok l).
Proof. unfold liquid. op share E. cbn. by rewrite E. Qed.

(** The entry. *)
Lemma wp_enter sessions session at_ bar last liq a s :
  walking sessions session at_ (a, s) -> bars !! at_ = Some bar -> liquid settings bar = Ok liq ->
  ds_start session <= at_ < ds_end session -> (at_ - ds_start session) mod FIVE = 0 ->
  wp simulation_error (enter settings tariff slip at_ bar last liq a s) (fun st =>
    (exists upto, trades_ok sessions upto (a_trades st.1) /\ upto <= at_ /\
      forall o, ss_position st.2 = Some o -> upto <= o_decided o) /\
    (forall o, ss_position st.2 = Some o -> held_ok session (o_decided o) (o_entered o) (o_entry o) (o_fee o) at_) /\
    ss_pending st.2 = None /\ ss_closes st.2 = ss_closes s).
Proof.
  intros [Ht Hp Hpe _ Hx] Eb Hliq Hat Hgrid. cbn [fst snd] in *. unfold enter.
  destruct (ss_pending s) as [decided|] eqn:Epe; [|apply wp_Ok; by split_and!].
  destruct (ss_position s) as [o|] eqn:Epo; [specialize (Hx ltac:(by eexists)); congruence|].
  destruct (Hpe _ eq_refl) as (-> & Hs & Hfired). op factor E1. op entry E2. op notional E3.
  eapply wp_bind; [apply wp_quote_any|]. intros fee Efee _.
  eapply wp_bind with (R := fun b => b = false -> se_allow_long settings = true /\ liq = true /\
    exists buffered, pmul notional (se_price_buffer settings) = Ok buffered /\
      (dval buffered <= dval (se_order_ceiling settings))%Q).
  { unfold entry_blocked. destruct (negb (se_allow_long settings) || last || negb liq) eqn:Eg; [done|].
    bool_inv. op need E4. destruct (dltb (a_cash a) need); [done|]. op buffered E5. cbn. intros Hlt.
    apply dltb_false in Hlt. split_and!; [done|done|]. by exists buffered. }
  intros [|] _ Hb.
  - apply wp_Ok. cbn [fst snd ss_position ss_pending ss_closes a_trades]. split; [|by split].
    destruct Ht as (u & ? & ? & _). by exists u.
  - destruct (Hb eq_refl) as (Hal & -> & Hbuf). op spent E4. op cash E5. apply wp_Ok.
    cbn [fst snd ss_position ss_pending ss_closes a_trades]. destruct Ht as (u & Htk & Hu & _). split; [|split; [|done]].
    + exists u. split; [done|]. split; [done|]. by intros o [= <-].
    + intros o [= <-]. cbn [o_decided o_entered o_entry o_fee]. split; [done|done|lia|lia|done| |intros t b Ht; lia].
      exists bar, factor, notional. by split_and!.
Qed.

(** The management of the open position. *)
Lemma wp_manage sessions session at_ bar liq a s : session ∈ sessions ->
  bars !! at_ = Some bar -> b_start bar = at_ -> liquid settings bar = Ok liq ->
  ds_start session <= at_ -> at_ + FIVE <= ds_end session -> (at_ - ds_start session) mod FIVE = 0 ->
  (exists upto, trades_ok sessions upto (a_trades a) /\ upto <= at_ /\
    forall o, ss_position s = Some o -> upto <= o_decided o) ->
  (forall o, ss_position s = Some o -> held_ok session (o_decided o) (o_entered o) (o_entry o) (o_fee o) at_) ->
  ss_pending s = None ->
  wp simulation_error (manage strategy settings tariff slip at_ bar (candle_end bar =? ds_end session) liq a s)
    (fun st => (exists upto, trades_ok sessions upto (a_trades st.1) /\ upto <= at_ + FIVE /\
        forall o, ss_position st.2 = Some o -> upto <= o_decided o) /\
      (forall o, ss_position st.2 = Some o ->
        held_ok session (o_decided o) (o_entered o) (o_entry o) (o_fee o) (at_ + FIVE) /\
        candle_end bar <> ds_end session) /\
      ss_pending st.2 = None /\ ss_closes st.2 = ss_closes s).
Proof.
  intros Hin Eb Est Hliq Hs1 Hs2 Hgrid (u & Htk & Hu & Hud) Hheld Hpe. unfold manage.
  destruct (ss_position s) as [o|] eqn:Epo.
  2:{ apply wp_Ok. cbn [fst snd]. rewrite Epo. split; [|by split]. exists u. pose proof FIVE_pos.
      split; [done|]. split; [lia|done]. }
  pose proof (Hheld _ eq_refl) as Hh. specialize (Hud _ eq_refl).
  eapply wp_bind with (R := fun a' => a_trades a' = a_trades a).
  { unfold mark_low. op d1 E1. op d2 E2. op d3 E3. op d4 E4.
    eapply wp_bind; [apply wp_quote_any|]. intros fee _ _. op d5 E5. op d6 E6. op d7 E7. op d8 E8. done. }
  intros a' _ Ha'. eapply wp_bind with (R := fun _ => True).
  { unfold exit_decision. op x1 E1. op x2 E2. op x3 E3. op x4 E4. done. }
  intros [reference reason] Edec _. pose proof FIVE_pos as HF.
  destruct reason as [reason|].
  - apply wp_require; [by intros; raise|]. intros ->.
    apply exit_decision_spec in Edec. unfold close_trade. eapply wp_bind with (R := fun a2 => trades_ok sessions (at_ + FIVE) (a_trades a2)).
    { op down E1. op exit E2. op entry_value E3. op exit_value E4.
      eapply wp_bind; [apply wp_quote_any|]. intros exit_fee Exfee _.
      op fee E5. op gross E6. op net E7. op paid E8. op got E9. op cash E10. apply wp_Ok.
      cbn [a_trades]. rewrite Ha'.
      assert (Hend : candle_end bar = at_ + FIVE) by (unfold candle_end; lia).
      apply (trades_ok_snoc sessions u); [done| |done|cbn; lia|lia].
      split; cbn [t_signal_at t_entry_at t_exit_at t_entry t_exit t_quantity t_reason t_gross t_fees t_net]; [|done].
      exists session, bar, reference, down, (o_fee o), entry_value, exit_value, exit_fee. rewrite Hend.
      replace (at_ + FIVE - FIVE) with at_ by lia. rewrite Hend in Edec.
      destruct Hh. split_and!; try done; [lia|]. destruct Edec as (stop & target & Hl & He). exists stop, target.
      split; [done|]. destruct reason; [done|done|]. by rewrite Z.eqb_eq in He. }
    intros a2 _ Htk2. apply wp_Ok. cbn [fst snd ss_position ss_pending].
    split; [|by split]. exists (at_ + FIVE). split; [done|]. split; [lia|done].
  - apply wp_Ok. cbn [fst snd]. rewrite Epo. split; [exists u; rewrite Ha'; split; [done|]; split; [lia|]|].
    { by intros o' [= <-]. }
    split; [|done]. intros o' [= <-].
    apply exit_decision_spec in Edec as [Hlast Hstays]. apply Z.eqb_neq in Hlast.
    split; [|done]. destruct Hh as [H1 H1s H1b H2 H3 H4 H5]. split; [done|done|lia|done|done|done|].
    intros t b Ht Hg Hb. destruct (Z.lt_ge_cases t at_); [by apply (H5 t b); [lia|..]|].
    assert (t = at_) as ->.
    { apply Z.mod_divide in Hg as [k Hk]; [|done]. apply Z.mod_divide in Hgrid as [k' Hk']; [|done].
      assert (k = k'); [|lia]. assert (t - at_ = (k - k') * FIVE) by lia.
      assert (0 <= (k - k') * FIVE < FIVE) by lia. nia. }
    rewrite Eb in Hb. by injection Hb as <-.
Qed.

Lemma wp_raise_peak bar a position :
  wp simulation_error (raise_peak settings bar a position) (fun a' => a_trades a' = a_trades a).
Proof.
  unfold raise_peak. eapply wp_bind with (R := fun _ => True); [|by intros].
  destruct position; [|done]. op held E1. any_wp.
Qed.

(** One candle moves the invariant five minutes forward; after the last candle of the
    session no position is open and nothing is pending. *)
Lemma wp_bar_step sessions session at_ bar st : session ∈ sessions ->
  walking sessions session at_ st -> bars !! at_ = Some bar -> b_start bar = at_ ->
  ds_start session <= at_ -> at_ + FIVE <= ds_end session -> (at_ - ds_start session) mod FIVE = 0 ->
  wp simulation_error (bar_step strategy settings tariff slip (ds_end session) at_ bar st) (fun st' =>
    walking sessions session (at_ + FIVE) st' /\
    (at_ + FIVE = ds_end session -> ss_position st'.2 = None /\ ss_pending st'.2 = None)).
Proof.
  intros Hin Hw Eb Est Hs1 Hs2 Hgrid. destruct st as [a s]. unfold bar_step. pose proof FIVE_pos.
  assert (Hend : candle_end bar = at_ + FIVE) by (unfold candle_end; lia).
  eapply wp_bind; [apply wp_liquid|]. intros liq _ Hliq. cbn beta in Hliq.
  eapply wp_bind; [eapply wp_enter; [exact Hw|exact Eb|exact Hliq|lia|done]|].
  intros [a1 s1] _ (Ht1 & Hp1 & Hpe1 & Hc1). cbn [fst snd] in *.
  eapply wp_bind; [eapply (wp_manage sessions session at_ bar liq a1 s1); try done|].
  intros [a2 s2] _ (Ht2 & Hp2 & Hpe2 & Hc2). cbn [fst snd] in *.
  eapply wp_bind; [apply wp_raise_peak|]. intros a3 _ Ha3. cbn beta in Ha3.
  assert (Hc : ss_closes s2 ++ [b_close bar] = closes_before session (at_ + FIVE)).
  { rewrite (closes_snoc session at_ bar) by done. rewrite Hc2, Hc1. f_equal. apply (wk_closes _ _ _ _ Hw). }
  eapply wp_bind with (R := fun fire => fire = true -> candle_end bar <> ds_end session /\ ss_position s2 = None /\
    fired (closes_before session (at_ + FIVE))).
  { destruct (ss_position s2); [done|]. destruct (candle_end bar =? ds_end session) eqn:El; [done|].
    eapply wp_mono; [apply wp_signal|]. intros b Eb' _ ->. bool_inv. rewrite Hc in Eb'.
    split; [done|]. split; [done|]. by apply signal_fired. }
  intros fire _ Hfire. apply wp_Ok. cbn [fst snd]. split.
  - split; cbn [fst snd ss_position ss_pending].
    + rewrite Ha3. exact Ht2.
    + intros o Ho. by apply Hp2.
    + destruct fire; [|rewrite Hpe2; done]. destruct (Hfire eq_refl) as (_ & _ & Hfd). intros p [= <-].
      split; [lia|]. split; [lia|exact Hfd].
    + exact Hc.
    + destruct fire; [|rewrite Hpe2; done]. intros [o Ho]. destruct (Hfire eq_refl) as (_ & Hn & _). congruence.
  - intros Hl. cbn [ss_position ss_pending]. split.
    + destruct (ss_position s2) as [o|] eqn:Eo; [|done]. destruct (Hp2 _ eq_refl) as [_ Hne]. congruence.
    + destruct fire; [|done]. destruct (Hfire eq_refl). congruence.
Qed.

Lemma wp_session_loop sessions session n at_ st : session ∈ sessions ->
  (forall t, t ∈ grid FIVE (ds_start session) (ds_end session) -> exists b, bars !! t = Some b /\ b_start b = t) ->
  walking sessions session at_ st -> at_ + Z.of_nat n * FIVE = ds_end session ->
  ds_start session <= at_ -> (at_ - ds_start session) mod FIVE = 0 ->
  (n = 0%nat -> ss_position st.2 = None) ->
  wp simulation_error
    (foldR (fun st at_ => bar ← of_option KeyError (bars !! at_);
       bar_step strategy settings tariff slip (ds_end session) at_ bar st) st (grid FIVE at_ (ds_end session)))
    (fun st' => walking sessions session (ds_end session) st' /\ ss_position st'.2 = None).
Proof.
  intros Hin Hbars. pose proof FIVE_pos as HF. revert at_ st. induction n as [|n IH]; intros at_ st Hw Hn Hs Hg H0;
    rewrite grid_unfold by done.
  - rewrite (proj2 (Z.ltb_ge _ _)) by lia. apply wp_Ok. replace (ds_end session) with at_ by lia.
    split; [done|by apply H0].
  - rewrite (proj2 (Z.ltb_lt _ _)) by nia. cbn [foldR].
    destruct (Hbars at_) as (bar & Eb & Est); [apply grid_elem; [done|]; split; [nia|done]|].
    rewrite Eb. cbn [of_option]. eapply wp_bind; [eapply wp_bind; [apply wp_Ok; exact I|]|].
    { intros b Hb _. injection Hb as <-. apply (wp_bar_step sessions session); try done. nia. }
    intros st' _ [Hw' Hlast]. apply IH; [done|lia|lia| |].
    + replace (at_ + FIVE - ds_start session) with (at_ - ds_start session + 1 * FIVE) by lia.
      by rewrite Z.mod_add.
    + intros ->. apply Hlast. lia.
Qed.
End loop.

(** ** The whole simulation *)

Record dated_ok (s : DatedSession) : Prop := {
  dt_order : ds_start s < ds_end s; dt_steps : (ds_end s - ds_start s) mod FIVE = 0
}.
Lemma dated_valid_ok s u : dated_valid s = Ok u -> dated_ok s.
Proof. unfold dated_valid. intros E. ok_inv. bool_inv. split; lia. Qed.

Lemma series_validate_sessions s0 s : series_validate s0 = Ok s ->
  Forall dated_ok (sr_sessions s) /\
  exists last, foldR (check_session (sr_to s)) (sr_from s) (sr_sessions s) = Ok last.
Proof.
  unfold series_validate. intros E. apply bind_Ok in E as (? & _ & E).
  apply bind_Ok in E as (us & Hd & E). apply bind_Ok in E as (bars & _ & E). cbv zeta in E.
  apply bind_Ok in E as (u & Hv & E). injection E as <-. cbn [sr_sessions sr_to sr_from]. split.
  - apply mapR_Forall2 in Hd. clear -Hd. induction Hd; constructor; [by eapply dated_valid_ok|done].
  - unfold series_valid in Hv. apply bind_Ok in Hv as (? & _ & Hv). apply bind_Ok in Hv as (? & _ & Hv).
    apply bind_Ok in Hv as (last & Hl & _). by exists last.
Qed.

Section sessions.
Context (strategy : Strategy) (settings : Settings) (tariff : IntradayCostSchedule) (slip : dec).
Context (bars : list Bar) (sessions : list DatedSession).
Context (Hgrid : forall session t, session ∈ sessions -> t ∈ grid FIVE (ds_start session) (ds_end session) ->
  exists b, by_start bars !! t = Some b /\ b_start b = t).
Notation good := (trades_ok strategy settings tariff slip (by_start bars) sessions).

Lemma wp_session_run session a upto : session ∈ sessions -> dated_ok session ->
  good upto (a_trades a) -> upto <= ds_start session ->
  wp simulation_error (session_run strategy settings tariff slip (by_start bars) a session) (fun a' =>
    good (ds_end session) (a_trades a')).
Proof.
  intros Hin [Ho Hs] Ht Hu. unfold session_run. pose proof FIVE_pos.
  apply Z.mod_divide in Hs as [k Hk]; [|done]. assert (0 < k) by nia.
  eapply wp_bind; [eapply (wp_session_loop strategy settings tariff slip (by_start bars) sessions session (Z.to_nat k))|].
  - done.
  - intros t. by apply Hgrid.
  - split; cbn [fst snd ss_position ss_pending ss_closes]; [|done|done|by rewrite closes_start|by intros [? ?]].
    exists upto. by split_and!.
  - rewrite Z2Nat.id by lia. lia.
  - lia.
  - by rewrite Z.sub_diag.
  - done.
  - intros [a' s'] _ [[(u & Htk & Hu' & _) _ _ _ _] _]. apply wp_Ok. cbn [fst snd] in *. by eapply trades_ok_mono.
Qed.

Lemma wp_sessions l a to previous final : (forall s, s ∈ l -> s ∈ sessions) -> Forall dated_ok l ->
  foldR (check_session to) previous l = Ok final -> good previous (a_trades a) ->
  wp simulation_error (foldR (session_run strategy settings tariff slip (by_start bars)) a l) (fun a' =>
    good final (a_trades a')).
Proof.
  revert a previous. induction l as [|s l IH]; intros a previous Hin Hd E Ht; cbn [foldR] in *.
  - injection E as <-. done.
  - apply Forall_cons in Hd as [Hs Hd]. apply bind_Ok in E as (p & Ep & E).
    unfold check_session in Ep. apply bind_Ok in Ep as (u & Hg & Ep). injection Ep as <-.
    apply raise_if_Ok in Hg. bool_inv.
    eapply wp_bind; [eapply wp_session_run; [apply Hin; set_solver|done|exact Ht|lia]|].
    intros a' _ Ht'. eapply IH; [set_solver|done|exact E|exact Ht'].
Qed.
End sessions.

Lemma metrics_error trades capital e : metrics trades capital = Err e -> decimal_error e.
Proof.
  intros Em. assert (Hw : wp decimal_error (metrics trades capital) (fun _ => True)); [|by rewrite Em in Hw].
  unfold metrics. cbv zeta. eapply wp_bind; [any_wp|]. intros net _ _.
  eapply wp_bind with (R := fun _ => True).
  { apply (wp_foldR decimal_error (fun _ _ => True)); [|done]. intros pre x post [[eq pk] dd] _ _.
    unfold equity_step. eapply wp_bind; [any_wp|]. intros x1 _ _.
    eapply wp_bind; [any_wp|]. intros x2 _ _.
    eapply wp_bind; [any_wp|]. by intros x3 _ _. }
  intros [[eq pk] dd] _ _.
  eapply wp_bind with (R := fun _ => True); [destruct (_ =? _); [done|any_wp]|]. intros wr _ _.
  eapply wp_bind with (R := fun _ => True); [destruct (_ =? _); [done|any_wp]|]. intros ex _ _.
  eapply wp_bind; [any_wp|]. intros nr _ _.
  eapply wp_bind; [any_wp|]. done.
Qed.

(** The trades of a simulation, and its errors. *)
Lemma wp_simulate_five s0 series strategy settings tariff : series_validate s0 = Ok series ->
  wp (fun e => simulation_error e \/ e = ValueError "INCOMPLETE_OR_OUT_OF_SESSION_DATA" \/
      e = ValueError "CORPORATE_ACTION_REVIEW_REQUIRED")
    (simulate series strategy settings tariff)
    (fun sim => quality series = ([], []) /\ exists slip, pdiv (se_slippage_bps settings) (dZ 10000) = Ok slip /\
      Forall (trade_ok strategy settings tariff slip (by_start (sr_bars series)) (sr_sessions series)) (sm_trades sim) /\
      StronglySorted (fun t u => t_exit_at t <= t_signal_at u) (sm_trades sim) /\
      metrics (sm_trades sim) (se_capital settings) = Ok (sm_metrics sim)).
Proof.
  intros Hv. apply series_validate_sessions in Hv as [Hd [final Hf]]. unfold simulate.
  destruct (quality series) as [missing unexpected] eqn:Eq.
  apply wp_reject; [by auto|]. intros Hg. bool_inv.
  assert (Hq : quality series = ([], [])).
  { rewrite Eq. destruct missing, unexpected; done. }
  apply wp_require; [by auto|]. intros _.
  match goal with |- wp _ ?m ?Q => enough (Hwp : wp simulation_error m Q); [revert Hwp; destruct m; cbn; auto|] end.
  eapply wp_bind; [apply wp_signal|]. intros _ _ _. op slip Es.
  eapply wp_bind; [eapply (wp_sessions strategy settings tariff slip (sr_bars series) (sr_sessions series));
    [|done|done|exact Hf|]|].
  - intros session t Hin Ht. assert (Hb : t ∈ b_start <$> sr_bars series).
    { apply quality_complete; [done|]. by exists session. }
    apply by_start_elem in Hb as [b Hb]. exists b. split; [done|]. by apply by_start_Some in Hb as [_ ?].
  - split; cbn; constructor.
  - intros a _ [Ha Ho _].
    eapply wp_bind with (R := fun m => metrics (a_trades a) (se_capital settings) = Ok m).
    { destruct (metrics _ _) as [m|e] eqn:Em; [done|]. by eapply (arithmetic e), metrics_error. }
    intros m _ Hm. apply wp_Ok. split; [congruence|]. exists slip. cbn [sm_trades sm_metrics]. by split_and!.
Qed.

(** ** Metrics and qualification *)

Lemma count_trades_sum l : count_trades (fun t => dltb d0 (t_net t)) l +
  count_trades (fun t => dltb (t_net t) d0) l + count_trades (fun t => deqb (t_net t) d0) l =
  Z.of_nat (length l).
Proof.
  unfold count_trades. induction l as [|t l IH]; [done|]. cbn [List.filter length].
  pose proof (dltb_spec d0 (t_net t)) as H1. pose proof (dltb_spec (t_net t) d0) as H2.
  pose proof (deqb_spec (t_net t) d0) as H3. rewrite !dval_Z in *. change (inject_Z 0) with 0%Q in *.
  destruct (dltb d0 _), (dltb _ d0), (deqb _ _); cbn [length]; try lia; exfalso; intuition; try lra.
Qed.
Lemma count_trades_le p l : 0 <= count_trades p l <= Z.of_nat (length l).
Proof. unfold count_trades. induction l as [|x l IH]; cbn; [lia|]. destruct (p x); cbn; lia. Qed.

(** The equity after some trades, the highest so far (the capital included), and how far
    below it the equity is. *)
Definition equity_after (capital : dec) (l : list Trade) (e : dec) : Prop :=
  foldR (fun e t => padd e (t_net t)) capital l = Ok e.
Record peak_of (capital : dec) (l : list Trade) (p : dec) : Prop := {
  pk_reached : exists pre, pre `prefix_of` l /\ equity_after capital pre p;
  pk_highest : forall pre e, pre `prefix_of` l -> equity_after capital pre e -> (dval e <= dval p)%Q
}.
Definition fall (capital : dec) (l : list Trade) (ratio : dec) : Prop :=
  exists e p gap, equity_after capital l e /\ peak_of capital l p /\ psub p e = Ok gap /\ pdiv gap p = Ok ratio.
(** [d] is the largest fall after a trade, or zero. *)
Record largest_fall (capital : dec) (trades : list Trade) (d : dec) : Prop := {
  lf_bound : forall pre, pre `prefix_of` trades -> pre <> [] -> exists ratio, fall capital pre ratio /\ (dval ratio <= dval d)%Q;
  lf_reached : d = d0 \/ exists pre, pre `prefix_of` trades /\ fall capital pre d;
  lf_nonneg : (0 <= dval d)%Q
}.

Record metrics_ok (trades : list Trade) (capital : dec) (m : Metrics) : Prop := {
  mo_trades : m_trades m = Z.of_nat (length trades);
  mo_wins : m_wins m = Z.of_nat (length (List.filter (fun t => dltb d0 (t_net t)) trades));
  mo_counts : m_wins m + m_losses m + m_breakeven m = m_trades m;
  mo_win_rate : (m_trades m = 0 /\ m_win_rate m = d0) \/ pdiv (dZ (m_wins m)) (dZ (m_trades m)) = Ok (m_win_rate m);
  mo_win_range : (0 <= dval (m_win_rate m) <= 1)%Q;
  mo_net : psum (t_net <$> trades) = Ok (m_net m);
  mo_expectancy : (m_trades m = 0 /\ m_expectancy m = d0) \/ pdiv (m_net m) (dZ (m_trades m)) = Ok (m_expectancy m);
  mo_costs : psum (t_fees <$> trades) = Ok (m_costs m);
  mo_drawdown : largest_fall capital trades (m_drawdown m)
}.

Lemma prefix_snoc_cases {A} (pre l : list A) x : pre `prefix_of` l ++ [x] -> pre `prefix_of` l \/ pre = l ++ [x].
Proof.
  intros [k E]. destruct k as [|y k _] using rev_ind; [right; by rewrite app_nil_r in E|left].
  rewrite app_assoc in E. apply app_inj_tail in E as [-> _]. by apply prefix_app_r.
Qed.
Lemma peak_step capital l p t e : peak_of capital l p -> equity_after capital (l ++ [t]) e -> peak_of capital (l ++ [t]) (dmax p e).
Proof.
  intros [(pre & Hpre & Hp) Hmax] He. split.
  - unfold dmax. destruct (dltb p e); [by exists (l ++ [t])|]. exists pre. split; [by apply prefix_app_r|done].
  - intros pre' e' [Hpre'| ->]%prefix_snoc_cases He'.
    + pose proof (Hmax _ _ Hpre' He'). pose proof (dmax_ge_l p e). lra.
    + unfold equity_after in *. rewrite He in He'. apply Ok_inj in He' as <-. apply dmax_ge_r.
Qed.

(** The drawdown scan. *)
Lemma equity_scan capital trades s : foldR equity_step (capital, capital, d0) trades = Ok s ->
  equity_after capital trades s.1.1 /\ peak_of capital trades s.1.2 /\ largest_fall capital trades s.2.
Proof.
  intros E. refine (foldR_prefix_inv (fun pre s => equity_after capital pre s.1.1 /\ peak_of capital pre s.1.2 /\
    largest_fall capital pre s.2) _ _ _ _ _ _ E).
  - intros pre t post [[e p] d] s' _ (He & Hp & [Hb Hr Hn]) Es. cbn [fst snd] in *. unfold equity_step in Es.
    unbind Es e' E1. unbind Es gap E2. unbind Es ratio E3. apply Ok_inj in Es as <-. cbn [fst snd].
    assert (He' : equity_after capital (pre ++ [t]) e').
    { unfold equity_after in *. rewrite foldR_app, He. cbn. by rewrite E1. }
    pose proof (peak_step _ _ _ _ _ Hp He') as Hp'. split; [done|]. split; [done|].
    assert (Hf : fall capital (pre ++ [t]) ratio) by (exists e', (dmax p e'), gap; done).
    pose proof (dmax_ge_l d ratio) as D1. pose proof (dmax_ge_r d ratio) as D2. split; [| |lra].
    + intros pre' [Hpre| ->]%prefix_snoc_cases Hne; [|by exists ratio].
      destruct (Hb pre' Hpre Hne) as (r & Hr' & Hle). exists r. split; [done|lra].
    + unfold dmax. destruct (dltb d ratio); [right; by exists (pre ++ [t])|].
      destruct Hr as [->|(pre' & Hpre & Hf')]; [by left|right]. exists pre'. split; [by apply prefix_app_r|done].
  - cbn [fst snd]. split; [done|]. split.
    + split; [by exists []|]. intros pre e [k Hk] He. symmetry in Hk. apply app_eq_nil in Hk as [-> _].
      apply Ok_inj in He as <-. apply Qle_refl.
    + split; [|by left|by rewrite dval_Z]. intros pre [k Hk] Hne. symmetry in Hk. by apply app_eq_nil in Hk as [-> _].
Qed.

Lemma metrics_spec trades capital m : metrics trades capital = Ok m -> metrics_ok trades capital m.
Proof.
  unfold metrics. cbv zeta. intros E. unbind E net Enet. unbind E s Edd. destruct s as [[eq_ pk] dd].
  unbind E wr Ewr. unbind E ex_ Eex. unbind E nr Enr. unbind E cs Ecs.
  apply Ok_inj in E as <-. apply equity_scan in Edd as (_ & _ & Hdd).
  split; cbn [m_trades m_wins m_losses m_breakeven m_win_rate m_expectancy m_net m_costs m_drawdown]; try done.
  - apply count_trades_sum.
  - destruct (_ =? 0) eqn:E0; [left|by right]. bool_inv. by apply Ok_inj in Ewr.
  - destruct (_ =? 0) eqn:E0; [injection Ewr as <-; rewrite dval_Z; by split|]. bool_inv.
    pose proof (count_trades_le (fun t => dltb d0 (t_net t)) trades) as Hc. split.
    + apply (ddiv_nonneg PRECISION PRECISION_ok _ _ _ Ewr); rewrite dval_Z, <- (Zle_Qle 0); lia.
    + eapply (ddiv_le PRECISION _ _ _ (inject_Z 1)); [apply PRECISION_ok|exact Ewr|by apply repr_small|].
      assert (0 < Z.of_nat (length trades)) by lia. rewrite !dval_Z.
      apply Qle_shift_div_r; [by rewrite <- (Zlt_Qlt 0)|]. rewrite <- inject_Z_mult, <- Zle_Qle. lia.
  - destruct (_ =? 0) eqn:E0; [left|by right]. bool_inv. by apply Ok_inj in Eex.
Qed.

Definition within (a b : Z) (t : Trade) : bool := (a <=? t_entry_at t) && (t_entry_at t <? b).

Lemma default_last {A} (a c : A) l : default a (last (c :: l)) = default c (last l).
Proof.
  revert a c. induction l as [|d l IH]; intros a c; [done|].
  rewrite last_cons_cons, IH. symmetry. apply IH.
Qed.

(** Consecutive intervals split the trades they cover. *)
Lemma folds_partition a l trades : strictly_sorted (a :: l) = true ->
  Z.of_nat (length (List.filter (within a (default a (last l))) trades)) =
  foldr Z.add 0 ((fun '(x, y) => Z.of_nat (length (List.filter (within x y) trades))) <$> zip (a :: l) l).
Proof.
  revert a. induction l as [|b l IH]; intros a Hs.
  - cbn. unfold within. assert (H : List.filter (fun t => (a <=? t_entry_at t) && (t_entry_at t <? a)) trades = []).
    { induction trades as [|t ts IH]; [done|]. cbn [List.filter]. rewrite IH.
      by destruct (a <=? t_entry_at t) eqn:E1, (t_entry_at t <? a) eqn:E2; cbn; bool_inv; try lia. }
    by rewrite H.
  - cbn [strictly_sorted] in Hs. apply andb_true in Hs as [Hab Hs]. bool_inv. cbn [zip fmap list_fmap foldr].
    specialize (IH b Hs). cbn [zip_with] in IH |- *. 
    change (zip (b :: l) l) with (zip_with pair (b :: l) l) in IH. cbn [fmap list_fmap foldr].
    rewrite <- IH.
    assert (Hle : b <= default b (last l)).
    { clear -Hs. revert b Hs. induction l as [|c l IH]; intros b Hs; [cbn; lia|].
      cbn [strictly_sorted] in Hs. apply andb_true in Hs as [H1 H2]. bool_inv. specialize (IH c H2).
      rewrite default_last. lia. }
    rewrite default_last. clear -Hab Hle. induction trades as [|t ts IHt]; [done|]. cbn [List.filter].
    set (u := default b (last l)) in *.
    assert (Hx : (if within a u t then 1 else 0) = (if within a b t then 1 else 0) + (if within b u t then 1 else 0)).
    { unfold within. destruct (a <=? t_entry_at t) eqn:E1, (t_entry_at t <? u) eqn:E2,
        (t_entry_at t <? b) eqn:E3, (b <=? t_entry_at t) eqn:E4; cbn [andb]; bool_inv; lia. }
    destruct (within a u t), (within a b t), (within b u t); cbn [length]; lia.
Qed.

Lemma filter_twice {A} (p : A -> bool) l : List.filter p (List.filter p l) = List.filter p l.
Proof.
  induction l as [|x l IH]; [done|]. cbn [List.filter]. destruct (p x) eqn:E; [|done].
  cbn [List.filter]. by rewrite E, IH.
Qed.
