(* ===== verification/Phase14Theorems.v ===== *)
(** * Properties of the five-minute engine *)
From S2P Require Import Prelude Decimal DecimalFacts Text Dataset Costs Phase14 Phase14Facts.
From stdpp Require Import sorting.
From S2P Require Sample.
Open Scope list_scope.
Open Scope Z_scope.

(** The relative strength index lies between 0 and 100 for every series of prices,
    although each of its operations rounds to 40 digits. *)
Theorem rsi_bounds values o r : op_indicator o = RSI -> 1 <= op_period o ->
  indicator values o = Ok (Some r) -> (0 <= dval r <= 100)%Q.
Proof.
  intros Ho Hp. unfold indicator. destruct (if _ : bool then _ else _) as [|v l]; [done|].
  rewrite Ho. by apply rsi_range.
Qed.

(** The completeness report is empty exactly when the candles are the five-minute
    instants of the sessions. *)
Theorem quality_empty s : quality s = ([], []) <->
  forall t, t ∈ b_start <$> sr_bars s <->
    exists d, d ∈ sr_sessions s /\ t ∈ grid FIVE (ds_start d) (ds_end d).
Proof. apply quality_complete. Qed.

(** C18. Every trade of a simulation enters, at the open plus slippage, on the bar after
    one on whose close every condition of the strategy crossed; it stays inside one session
    and exits at the first bar that reaches its stop (at the open when that is below it),
    else its target, else the end of the session; entries respect the order ceiling and
    the liquidity rule; the fees of both sides are those of the tariff and the net result
    is what they leave; trades never overlap; and the metrics are those of the trades. *)
Theorem simulate_trades s0 series strategy settings tariff sim : series_validate s0 = Ok series ->
  simulate series strategy settings tariff = Ok sim ->
  exists slip, pdiv (se_slippage_bps settings) (dZ 10000) = Ok slip /\
    Forall (trade_ok strategy settings tariff slip (by_start (sr_bars series)) (sr_sessions series)) (sm_trades sim) /\
    StronglySorted (fun t u => t_exit_at t <= t_signal_at u) (sm_trades sim) /\
    metrics_ok (sm_trades sim) (se_capital settings) (sm_metrics sim).
Proof.
  intros Hv E. destruct (wp_elim _ _ _ _ (wp_simulate_five s0 series strategy settings tariff Hv) E)
    as (_ & slip & H1 & H2 & H3 & H4).
  exists slip. split; [done|]. split; [done|]. split; [done|]. by eapply metrics_spec.
Qed.

(** A simulation of a validated series fails only for its documented reasons; in
    particular no candle is ever missing while it runs. *)
Theorem simulate_errors s0 series strategy settings tariff e : series_validate s0 = Ok series ->
  simulate series strategy settings tariff = Err e ->
  simulation_error e \/ e = ValueError "INCOMPLETE_OR_OUT_OF_SESSION_DATA" \/
  e = ValueError "CORPORATE_ACTION_REVIEW_REQUIRED".
Proof. intros Hv E. exact (wp_error _ _ _ _ (wp_simulate_five s0 series strategy settings tariff Hv) E). Qed.

(** The trades entered in an interval. *)
Definition entered (a b : Z) (trades : list Trade) : list Trade :=
  List.filter (fun t => (a <=? t_entry_at t) && (t_entry_at t <? b)) trades.

(** What a fold, and the whole period, must meet. *)
Record fold_stable (p : Policy) (f : Metrics) : Prop := {
  fs_trades : po_min_fold_trades p <= m_trades f;
  fs_expectancy : (0 < dval (m_expectancy f))%Q;
  fs_win_rate : (dval (po_min_fold_win_rate p) <= dval (m_win_rate f))%Q;
  fs_drawdown : (dval (m_drawdown f) <= dval (po_max_drawdown p))%Q
}.
Record period_good (p : Policy) (m : Metrics) : Prop := {
  pg_trades : po_min_oos_trades p <= m_trades m /\ m_trades m <> 0;
  pg_win_rate : (dval (po_min_win_rate p) <= dval (m_win_rate m))%Q;
  pg_expectancy : (0 < dval (m_expectancy m))%Q;
  pg_drawdown : (dval (m_drawdown m) <= dval (po_max_drawdown p))%Q
}.
Lemma fold_unstable_spec p f : fold_unstable p f = false <-> fold_stable p f.
Proof.
  unfold fold_unstable. rewrite !orb_false, Z.ltb_ge, dleb_false, !dltb_false, dval_Z. change (inject_Z 0) with 0%Q.
  split; [intros [[[H1 H2] H3] H4]; by split|by intros [H1 H2 H3 H4]].
Qed.

(** C20. The folds are at least three consecutive intervals that begin with the period, and
    each trade of the period counts in exactly one of them; the metrics are those of the
    trades of the period and of each interval; and the strategy qualifies exactly when the
    period meets every threshold with a significance that is not in doubt, and every fold
    has enough trades, a positive expectancy, the win rate and the drawdown of the policy. *)
Theorem qualify_sound uncertain trades capital oos boundaries p q :
  qualify uncertain trades capital oos boundaries p = Ok q ->
  let period := entered oos (default 0 (last boundaries)) trades in
  let folds := zip boundaries (tail boundaries) in
  (3 <= length folds)%nat /\ head boundaries = Some oos /\
  metrics_ok period capital (q_out_of_sample q) /\
  Forall2 (fun f m => metrics_ok (entered f.1 f.2 period) capital m) folds (q_folds q) /\
  m_trades (q_out_of_sample q) = foldr Z.add 0 (m_trades <$> q_folds q) /\
  (q_qualified q = true <->
    period_good p (q_out_of_sample q) /\ Forall (fold_stable p) (q_folds q) /\ uncertain (q_out_of_sample q) = false).
Proof.
  unfold qualify. intros E. apply bind_Ok in E as (u & Hb & E). apply raise_if_Ok in Hb.
  cbv zeta in E. apply bind_Ok in E as (result & Er & E). apply bind_Ok in E as (folds & Ef & E).
  injection E as <-. cbn [q_qualified q_reasons q_out_of_sample q_folds].
  assert (Hfolds : Forall2 (fun f m => metrics_ok (entered f.1 f.2 (entered oos (default 0 (last boundaries)) trades)) capital m)
    (zip boundaries (tail boundaries)) folds).
  { apply mapR_Forall2 in Ef. eapply Forall2_impl; [exact Ef|]. intros [x y] m Hm. by apply metrics_spec. }
  apply orb_false in Hb as [Hb Hsorted]. apply orb_false in Hb as [Hlen Hhead].
  apply negb_false, bool_decide_eq_true in Hhead. apply negb_false in Hsorted. bool_inv. cbv zeta.
  split; [|split; [done|split; [by apply metrics_spec|split; [done|split]]]].
  - rewrite length_zip_with. destruct boundaries as [|a l]; cbn [length tail] in *; lia.
  - apply metrics_spec in Er as [-> _ _ _ _ _ _ _ _].
    destruct boundaries as [|a l]; [done|]. injection Hhead as ->. rewrite default_last in *.
    change (Z.of_nat (length (List.filter (within oos (default oos (last l))) trades)) = foldr Z.add 0 (m_trades <$> folds)).
    rewrite <- (filter_twice (within oos (default oos (last l))) trades).
    rewrite folds_partition by done. f_equal. clear -Hfolds.
    cbn [tail] in Hfolds. induction Hfolds as [|[x y] f ps fs Hf _ IH]; [done|].
    cbn [fmap list_fmap]. f_equal; [|exact IH]. by destruct Hf as [-> _ _ _ _ _ _ _ _].
  - assert (Hexp : dleb (m_expectancy result) d0 = false <-> (0 < dval (m_expectancy result))%Q) by (by rewrite dleb_false, dval_Z).
    assert (Hf : existsb (fold_unstable p) folds = false <-> Forall (fold_stable p) folds).
    { clear. induction folds as [|f l IH]; [split; [constructor|done]|]. cbn [existsb].
      rewrite orb_false, IH, Forall_cons, fold_unstable_spec. done. }
    assert (Hg : period_good p result <-> (m_trades result <? po_min_oos_trades p) = false /\ (m_trades result =? 0) = false /\
      dltb (m_win_rate result) (po_min_win_rate p) = false /\ dleb (m_expectancy result) d0 = false /\
      dltb (po_max_drawdown p) (m_drawdown result) = false).
    { rewrite Hexp, !dltb_false, Z.ltb_ge, Z.eqb_neq. split; [by intros [[]]|intros (? & ? & ? & ? & ?); by split]. }
    rewrite Hg, <- Hf. unfold is_nil, reason_if.
    destruct (m_trades result <? po_min_oos_trades p), (dltb (m_win_rate result) (po_min_win_rate p)),
      (dleb (m_expectancy result) d0), (dltb (po_max_drawdown p) (m_drawdown result)),
      (existsb (fold_unstable p) folds), (m_trades result =? 0), (uncertain result); cbn; naive_solver.
Qed.

(** ** The theorems at concrete inputs *)

Import Sample.

Definition five_run : res Simulation := simulate five_series five_strategy five_settings sample_schedule.

Lemma five_run_ok : is_ok five_run = true.
Proof. vm_compute. reflexivity. Qed.
(** The example trades once, and exits at the target. *)
Lemma five_run_trades :
  (fun sim => t_reason <$> sm_trades sim) <$> five_run = Ok [TARGET].
Proof. vm_compute. reflexivity. Qed.

Definition rsi_operand : Operand := mkOperand RSI 2 d0 0.
Lemma rsi_bounds_witness : exists r, indicator (dZ <$> [100; 102; 101; 104]) rsi_operand = Ok (Some r) /\
  (0 <= dval r <= 100)%Q.
Proof.
  assert (H : exists r, indicator (dZ <$> [100; 102; 101; 104]) rsi_operand = Ok (Some r))
    by (eexists; vm_compute; reflexivity).
  destruct H as [r E]. exists r. split; [exact E|]. apply (rsi_bounds (dZ <$> [100; 102; 101; 104]) rsi_operand r); [reflexivity|vm_compute; discriminate|exact E].
Defined.
Lemma simulate_trades_witness : exists sim, five_run = Ok sim /\
  StronglySorted (fun t u => t_exit_at t <= t_signal_at u) (sm_trades sim).
Proof.
  destruct (proj1 (is_ok_true _) five_run_ok) as [sim E]. exists sim. split; [exact E|].
  destruct (simulate_trades _ _ five_strategy five_settings sample_schedule sim five_series_valid E)
    as (slip & _ & _ & H & _). exact H.
Defined.
Definition unconfirmed : Strategy := mkStrategy "CROSS" "1" false [] LONG (cents 2) (cents 2).
Lemma simulate_errors_witness : exists e, simulate five_series unconfirmed five_settings sample_schedule = Err e /\
  (simulation_error e \/ e = ValueError "INCOMPLETE_OR_OUT_OF_SESSION_DATA" \/
   e = ValueError "CORPORATE_ACTION_REVIEW_REQUIRED").
Proof.
  assert (E : simulate five_series unconfirmed five_settings sample_schedule =
    Err (ValueError "UNCONFIRMED_OR_UNSUPPORTED_STRATEGY")) by (vm_compute; reflexivity).
  exists (ValueError "UNCONFIRMED_OR_UNSUPPORTED_STRATEGY"). split; [exact E|].
  exact (simulate_errors _ _ unconfirmed five_settings sample_schedule _ five_series_valid E).
Defined.

Definition five_policy : Policy := mkPolicy 1 0 (cents 70) (cents 50) (cents 60) 1 (cents 5).
Definition five_boundaries : list Z := (fun k => nse_combine (19990 + 10 * k) 0) <$> [0; 1; 2; 3].
Lemma qualify_sound_witness : exists q,
  (sim ← five_run; qualify (fun _ => false) (sm_trades sim) (dZ 10000) (nse_combine 19990 0) five_boundaries five_policy)
    = Ok q /\ m_trades (q_out_of_sample q) = foldr Z.add 0 (m_trades <$> q_folds q).
Proof.
  assert (H : is_ok (sim ← five_run; qualify (fun _ => false) (sm_trades sim) (dZ 10000)
    (nse_combine 19990 0) five_boundaries five_policy) = true) by (vm_compute; reflexivity).
  apply is_ok_true in H as [q E]. exists q. split; [exact E|].
  apply bind_Ok in E as (sim & _ & E). destruct (qualify_sound _ _ _ _ _ _ q E) as (_ & _ & _ & _ & H & _). exact H.
Defined.
