(* ===== verification/Strategies.v ===== *)
(** * The frozen research strategies ([phase1415/strategies.py])

    The registry of the six definitions, its validation, the session-local indicators
    (moving average, Bollinger bands, volume-weighted price, opening range) and the
    entry signal.  [Definition]'s constant [Literal] fields (version, interval,
    direction, session, exit) have a single value and are not represented; its
    [fingerprint] is the digest of [model_dump_json], the serializer of a third-party
    package, which is the parameter [dump] where a fingerprint is needed. *)
From S2P Require Import Prelude Decimal DecimalFacts Text Dataset Costs Phase14.
Open Scope list_scope.
Open Scope Z_scope.

(** ** Square and square root, in the context of the engine *)

(** [x ** 2]: the integer power of the decimal module works with three more digits and
    rounds the result to the precision. *)
Definition POWER : context := mk_context 43 false.
Definition dsquare (x : dec) : res dec := y ← dmul POWER x x; dplus PRECISION y.

(** [x.sqrt()]: the truncated root of the scaled coefficient with a sticky last digit,
    then [_fix]; an exact root is brought back to the ideal exponent. *)
Definition dsqrt_raw (c : context) (a : dec) : dec :=
  let odd := Z.odd (dexp a) in
  let e := dexp a / 2 in
  let n := if odd then coef a * 10 else coef a in
  let l := if odd then ndigits (coef a) / 2 + 1 else (ndigits (coef a) + 1) / 2 in
  let shift := prec c + 1 - l in
  let scaled := n * 100 ^ Z.max 0 shift / 100 ^ Z.max 0 (- shift) in
  let exact := (n * 100 ^ Z.max 0 shift) mod 100 ^ Z.max 0 (- shift) =? 0 in
  let r := Z.sqrt scaled in
  if exact && (r * r =? scaled) then
    Dec (r * 10 ^ Z.max 0 (- shift) / 10 ^ Z.max 0 shift) e
  else Dec (if r mod 5 =? 0 then r + 1 else r) (e - shift).
Definition dsqrt (c : context) (a : dec) : res dec :=
  if coef a <? 0 then Err (DecimalException InvalidOperation)
  else if coef a =? 0 then dfix c (Dec 0 (dexp a / 2))
  else dfix c (dsqrt_raw c a).

(** ** Definitions and their registry *)

Inductive identifier := S01 | S02 | S03 | S04 | S05 | S06.
#[export] Instance identifier_eq_dec : EqDecision identifier.
Proof. solve_decision. Defined.
Inductive provenance :=
| EXACT_STREAK_DEFINITION_VERIFIED | USER_SUPPLIED_DEFINITION | RESEARCH_EQUIVALENT
| UNVERIFIED_STRATEGY.
#[export] Instance provenance_eq_dec : EqDecision provenance.
Proof. solve_decision. Defined.

Record Definition_ := mkDefinition {
  df_identifier : identifier; df_name : string; df_provenance : provenance; df_source : string;
  df_entry : string; df_indicators : list string; df_stop : dec; df_target : dec;
  df_minimum_volume : Z
}.

(** [bool(s.strip())] *)
Definition has_text (s : string) : bool := negb (all_chars is_space s).

Definition definition_valid (d : Definition_) : res Definition_ :=
  require! dltb d0 (df_stop d) && dltb (df_stop d) (dZ 1) && dltb d0 (df_target d) &&
           dltb (df_target d) (dZ 1) && (1 <=? df_minimum_volume d) else "INVALID_FIELD";
  reject! negb (has_text (df_name d)) || negb (has_text (df_entry d)) || is_nil (df_indicators d)
    as "INCOMPLETE_DEFINITION";
  reject! negb (Bool.eqb (bool_decide (df_identifier d = S01))
                         (bool_decide (df_provenance d = USER_SUPPLIED_DEFINITION)))
    as "DEFINITION_PROVENANCE";
  Ok d.

Definition SOURCE : string := "Phase14.15 user specification; explicitly defined research variant".
Definition rows : list (identifier * string * string * list string) :=
  [(S01, "RSI/EMA Reversal", "RSI14 crosses30 AND close crossesEMA21", ["RSI14"; "EMA21"]);
   (S02, "EMA Trend Crossover", "EMA9 crosses above EMA21", ["EMA9"; "EMA21"]);
   (S03, "RSI Momentum", "RSI14 crosses50 AND close>EMA21", ["RSI14"; "EMA21"]);
   (S04, "Bollinger Reversion", "close crosses above lower BB20 population2SD", ["BB20_2"]);
   (S05, "VWAP Reclaim", "close crossesHLC3VWAP,current volume>0,cumulative>=1000", ["VWAP"]);
   (S06, "Opening Range Breakout", "close crosses first15minute range high", ["OR15"])]%string.

Definition registry : res (list Definition_) :=
  mapR (fun '(i, n, e, inds) =>
    definition_valid (mkDefinition i n
      (if decide (i = S01) then USER_SUPPLIED_DEFINITION else RESEARCH_EQUIVALENT)
      SOURCE e inds (Dec 2 (-2)) (Dec 2 (-2)) 1000)) rows.

(** Equality of two definitions once stop, target and minimum volume are copied. *)
Definition same_semantics (d r : Definition_) : bool :=
  bool_decide (df_identifier d = df_identifier r) && bool_decide (df_name d = df_name r) &&
  bool_decide (df_provenance d = df_provenance r) && bool_decide (df_source d = df_source r) &&
  bool_decide (df_entry d = df_entry r) && bool_decide (df_indicators d = df_indicators r).

Definition validate_registry (definitions : list Definition_) : res unit :=
  let ids := df_identifier <$> definitions in
  reject! is_nil definitions || negb (bool_decide (NoDup ids)) as "DUPLICATE_OR_EMPTY_REGISTRY";
  _ ← mapR (fun d =>
        known ← registry;
        reference ← of_option AssertionError
          (List.find (fun x => bool_decide (df_identifier x = df_identifier d)) known);
        require! same_semantics d reference else "UNRECOGNIZED_DEFINITION_VERSION";
        Ok tt) definitions;
  Ok tt.

(** ** Session-local indicators *)

Definition crosses (a b c d : option dec) (below : bool) : bool :=
  match a, b, c, d with
  | Some a, Some b, Some c, Some d =>
      if below then dleb b a && dltb c d else dleb a b && dltb d c
  | _, _, _, _ => false
  end.

(** [values[-n:]] of a tuple, for [1 <= n]. *)
Definition last_n {A} (n : Z) (values : list A) : list A :=
  drop (length values - Z.to_nat n) values.

Definition sma (values : list dec) (period : Z) : res (option dec) :=
  reject! period <? 1 as "INVALID_PERIOD";
  if Z.of_nat (length values) <? period then Ok None
  else total ← psum (last_n period values); Some <$> pdiv total (dZ period).

Definition bands (values : list dec) (period : Z) : res (option (dec * dec)) :=
  mean ← sma values period;
  match mean with
  | None => Ok None
  | Some mean =>
      squares ← mapR (fun v => gap ← psub v mean; dsquare gap) (last_n period values);
      total ← psum squares;
      variance ← pdiv total (dZ period);
      sd ← dsqrt PRECISION variance;
      width ← pmul (dZ 2) sd;
      lower ← psub mean width;
      width ← pmul (dZ 2) sd;
      upper ← padd mean width;
      Ok (Some (lower, upper))
  end.

Definition total_volume (bars : list Bar) : Z := foldr Z.add 0 (b_volume <$> bars).

(** The summand of [vwap]: the typical price times the volume. *)
Definition weighted_price (b : Bar) : res dec :=
  x ← padd (b_high b) (b_low b); x ← padd x (b_close b); x ← pdiv x (dZ 3);
  pmul x (dZ (b_volume b)).
Definition vwap (bars : list Bar) : res (option dec) :=
  let volume := total_volume bars in
  if volume =? 0 then Ok None
  else
    products ← mapR weighted_price bars;
    total ← psum products;
    Some <$> pdiv total (dZ volume).

(** [max(...)] and [min(...)] of a nonempty sequence. *)
Definition max_of (x : dec) (l : list dec) : dec := foldl dmax x l.
Definition min_of (x : dec) (l : list dec) : dec := foldl dmin x l.
Definition opening_range (bars : list Bar) : option (dec * dec) :=
  if Z.of_nat (length bars) <? 3 then None
  else
    match take 3 bars with
    | [] => None
    | b :: l => Some (max_of (b_high b) (b_high <$> l), min_of (b_low b) (b_low <$> l))
    end.

(** ** The entry signal *)

(** [Strategy()]: the default conditions of the five-minute engine. *)
Definition default_strategy : Strategy :=
  mkStrategy "RSI14_EMA21_RECOVERY" "1" true
    [mkCross (mkOperand RSI 14 d0 0) (mkOperand CONSTANT 1 (dZ 30) 0) ABOVE;
     mkCross (mkOperand CLOSE 1 d0 0) (mkOperand EMA 21 d0 0) ABOVE]
    LONG (Dec 2 (-2)) (Dec 2 (-2)).

Definition ema_of (period : Z) : Operand := mkOperand EMA period d0 0.
Definition rsi_14 : Operand := mkOperand RSI 14 d0 0.

(** The branches of [entry_signal]; [closes] has at least two elements, [previous] is
    [closes[:-1]]. *)
Definition trend_signal (previous closes : list dec) : res bool :=
  a ← indicator previous (ema_of 9); b ← indicator previous (ema_of 21);
  c ← indicator closes (ema_of 9); d ← indicator closes (ema_of 21);
  Ok (crosses a b c d false).
Definition momentum_signal (previous closes : list dec) : res bool :=
  average ← indicator closes (ema_of 21);
  match average, last closes with
  | Some average, Some close =>
      if dltb average close then
        before ← indicator previous rsi_14; now ← indicator closes rsi_14;
        Ok (crosses before (Some (dZ 50)) now (Some (dZ 50)) false)
      else Ok false
  | _, _ => Ok false
  end.
Definition reversion_signal (previous closes : list dec) : res bool :=
  before ← bands previous 20; now ← bands closes 20;
  Ok (match before, now with
      | Some before, Some now =>
          crosses (last previous) (Some before.1) (last closes) (Some now.1) false
      | _, _ => false
      end).
Definition reclaim_signal (minimum : Z) (bars : list Bar) (previous closes : list dec) : res bool :=
  if (0 <? default 0 (b_volume <$> last bars)) && (minimum <=? total_volume bars) then
    before ← vwap (take (length bars - 1) bars); now ← vwap bars;
    Ok (crosses (last previous) before (last closes) now false)
  else Ok false.
Definition breakout_signal (bars : list Bar) (previous closes : list dec) : bool :=
  match opening_range bars with
  | Some interval =>
      (4 <=? Z.of_nat (length bars)) &&
      crosses (last previous) (Some interval.1) (last closes) (Some interval.1) false
  | None => false
  end.

Definition entry_signal (bars : list Bar) (definition : Definition_) : res bool :=
  if Z.of_nat (length bars) <? 2 then Ok false
  else
    let closes := b_close <$> bars in
    let previous := drop_last 1 closes in
    match df_identifier definition with
    | S01 => signal closes default_strategy
    | S02 => trend_signal previous closes
    | S03 => momentum_signal previous closes
    | S04 => reversion_signal previous closes
    | S05 => reclaim_signal (df_minimum_volume definition) bars previous closes
    | S06 => Ok (breakout_signal bars previous closes)
    end.
