(* ===== verification/StrategiesFacts.v ===== *)
(** * Theory of the research strategies

    Signs and bounds of the square root and the Bollinger bands, the registry check, and
    the edge-triggering of the entry signal. *)
From S2P Require Import Prelude Decimal DecimalFacts Text Dataset Costs Errors Phase14 Phase14Facts Strategies.
Open Scope list_scope.
Open Scope Z_scope.

(** ** Values a context can hold *)

Lemma ddiv_repr c a b r : context_ok c -> ddiv c a b = Ok r -> repr c (dval r).
Proof.
  intros Hc. unfold ddiv. destruct (coef b =? 0); [done|].
  destruct (coef a =? 0); by apply dfix_repr.
Qed.

Lemma dval_nonneg d : 0 <= coef d <-> (0 <= dval d)%Q.
Proof.
  rewrite <- (scaled_le 0 (coef d) (dexp d)). unfold dval. change (inject_Z 0) with 0%Q.
  by rewrite Qmult_0_l.
Qed.

Lemma dsqrt_nonneg a r : dsqrt PRECISION a = Ok r -> (0 <= dval r)%Q.
Proof.
  pose proof PRECISION_ok as Hc. unfold dsqrt. destruct (coef a <? 0) eqn:Hn; [done|].
  destruct (coef a =? 0) eqn:H0; intros E.
  - eapply dfix_ge; [done|exact E|by apply repr_0|]. by apply dval_nonneg.
  - eapply dfix_ge; [done|exact E|by apply repr_0|]. apply dval_nonneg. unfold dsqrt_raw. cbv zeta.
    match goal with |- context [Z.sqrt ?x] => pose proof (Z.sqrt_nonneg x) as Hs; generalize dependent (Z.sqrt x) end.
    intros s Hs. destruct (_ && _); cbn [coef]; [|clear -Hs; case (s mod 5 =? 0); [apply Z.add_nonneg_nonneg|]; done].
    apply Z.div_pos; [|apply pow10_pos; lia].
    apply Z.mul_nonneg_nonneg; [done|]. apply Z.pow_nonneg. lia.
Qed.

(** ** Bollinger bands *)

Lemma sma_spec values period r : 1 <= period -> sma values period = Ok r ->
  (r = None <-> Z.of_nat (length values) < period) /\
  forall mean, r = Some mean -> exists total, psum (last_n period values) = Ok total /\
    pdiv total (dZ period) = Ok mean.
Proof.
  intros Hp. unfold sma. intros E. apply bind_Ok in E as (u & _ & E).
  destruct (_ <? period) eqn:Hl; bool_inv.
  - injection E as <-. split; [done|]. intros mean [=].
  - apply bind_Ok in E as (total & Et & E). unfold fmap, res_fmap in E.
    destruct (pdiv total (dZ period)) as [m|] eqn:Em; [|done]. injection E as <-. split.
    + split; [done|]. lia.
    + intros mean [= <-]. by exists total.
Qed.

Lemma bands_spec values period r : 1 <= period -> bands values period = Ok r ->
  (r = None <-> Z.of_nat (length values) < period) /\
  forall lower upper, r = Some (lower, upper) -> exists mean, sma values period = Ok (Some mean) /\
    (dval lower <= dval mean <= dval upper)%Q.
Proof.
  intros Hp. unfold bands. intros E. apply bind_Ok in E as (mean & Em & E).
  pose proof (sma_spec _ _ _ Hp Em) as [Hnone Hsome]. destruct mean as [mean|].
  2: { injection E as <-. split; [by rewrite <- Hnone|done]. }
  apply bind_Ok in E as (squares & _ & E). apply bind_Ok in E as (total & _ & E).
  apply bind_Ok in E as (variance & _ & E). apply bind_Ok in E as (sd & Esd & E).
  apply bind_Ok in E as (w1 & Ew1 & E). apply bind_Ok in E as (lower & El & E).
  apply bind_Ok in E as (w2 & Ew2 & E). apply bind_Ok in E as (upper & Eu & E). injection E as <-.
  split; [split; [done|intros H; by apply Hnone in H]|].
  intros lower' upper' [= <- <-]. exists mean. split; [done|].
  destruct (Hsome mean eq_refl) as (tot & _ & Hd). pose proof PRECISION_ok as Hc.
  apply (ddiv_repr _ _ _ _ Hc) in Hd. pose proof (dsqrt_nonneg _ _ Esd) as Hsd.
  assert (H2 : (0 <= dval (dZ 2))%Q) by by rewrite dval_Z.
  assert (Hw1 : (0 <= dval w1)%Q) by (eapply dmul_nonneg; [done|exact Ew1|done|done]).
  assert (Hw2 : (0 <= dval w2)%Q) by (eapply dmul_nonneg; [done|exact Ew2|done|done]).
  split; [eapply (dsub_le _ Hc); [done|exact El|lra]|eapply (dadd_ge _ Hc); [done|exact Eu|lra]].
Qed.

(** ** Errors: the indicators only signal *)

Section errors.
Context {Es : exn -> Prop} `{!Arithmetic Es}.

Lemma wp_dfix_any c d : wp Es (dfix c d) (fun _ => True).
Proof. destruct (dfix c d) as [r|e] eqn:E; [done|]. by eapply (arithmetic e), dfix_error. Qed.

Lemma wp_fmap_any {A B} (f : A -> B) (m : res A) : wp Es m (fun _ => True) -> wp Es (f <$> m) (fun _ => True).
Proof. by destruct m. Qed.

Lemma wp_bands values period : 1 <= period -> wp Es (bands values period) (fun _ => True).
Proof.
  intros Hp. unfold bands, sma. eapply wp_bind with (R := fun _ => True).
  { apply wp_reject; [intros; bool_inv; lia|]. intros _. destruct (_ <? _); [done|]. op total E1.
    apply wp_fmap_any. any_wp. }
  intros [mean|] _ _; [|done]. eapply wp_bind; [apply wp_mapR_any; intros v|].
  { op gap E1. unfold dsquare. op y E2. any_wp. }
  intros squares _ _. op total E1. op variance E2. eapply wp_bind with (R := fun _ => True).
  { unfold dsqrt. destruct (_ <? _); [apply (arithmetic (DecimalException InvalidOperation)); by eexists|].
    destruct (_ =? _); apply wp_dfix_any. }
  intros sd _ _. op w1 E3. op lower E4. op w2 E5. op upper E6. done.
Qed.

Lemma wp_vwap bars : wp Es (vwap bars) (fun _ => True).
Proof.
  unfold vwap. destruct (_ =? _); [done|]. eapply wp_bind; [apply wp_mapR_any; intros b|].
  { unfold weighted_price. op x1 E1. op x2 E2. op x3 E3. any_wp. }
  intros products _ _. op total E1. apply wp_fmap_any. any_wp.
Qed.

Lemma wp_entry_signal bars d : wp Es (entry_signal bars d) (fun _ => True).
Proof.
  unfold entry_signal. destruct (_ <? _); [done|]. cbv zeta. destruct (df_identifier d).
  - unfold signal. by apply wp_all_rules.
  - unfold trend_signal. do 4 (eapply wp_bind; [by apply wp_indicator|]; intros ? _ _). done.
  - unfold momentum_signal. eapply wp_bind; [by apply wp_indicator|]. intros average _ _.
    destruct average as [a|]; [|done]. destruct (last _) as [c|]; [|done]. destruct (dltb a c); [|done].
    do 2 (eapply wp_bind; [by apply wp_indicator|]; intros ? _ _). done.
  - unfold reversion_signal. do 2 (eapply wp_bind; [by apply wp_bands|]; intros ? _ _). done.
  - unfold reclaim_signal. destruct (_ && _); [|done].
    do 2 (eapply wp_bind; [by apply wp_vwap|]; intros ? _ _). done.
  - done.
Qed.
End errors.

(** ** Edge-triggering *)

Lemma drop_last_snoc l (x : dec) : drop_last 1 (l ++ [x]) = l.
Proof.
  unfold drop_last. rewrite length_app. cbn [length]. change (Z.to_nat 1) with 1%nat.
  replace (length l + 1 - 1)%nat with (length l) by lia. by rewrite take_app_length.
Qed.

(** A crossing above at one instant and at the next contradict each other: the level
    that is above at the first is the level before the second. *)
Lemma crosses_edge a b c d e f :
  crosses a b c d false = true -> crosses c d e f false = false.
Proof.
  destruct a, b, c as [c|], d as [d|], e, f; try done. cbn [crosses]. rewrite andb_true. intros [_ H].
  apply dltb_spec in H. assert (Hd : dleb c d = false) by by apply dleb_false. by rewrite Hd.
Qed.

Lemma rule_holds_above closes rule x : cr_direction rule = ABOVE ->
  rule_holds closes rule = Ok true -> forall r, rule_holds (closes ++ [x]) rule = Ok r -> r = false.
Proof.
  intros Hd. unfold rule_holds. rewrite drop_last_snoc, Hd. intros E r E'.
  apply bind_Ok in E as (lp & _ & E). apply bind_Ok in E as (rp & _ & E).
  apply bind_Ok in E as (lc & El & E). apply bind_Ok in E as (rc & Er & E).
  rewrite El in E'. cbn [mbind res_bind] in E'. rewrite Er in E'. cbn [mbind res_bind] in E'.
  apply bind_Ok in E' as (lc' & _ & E'). apply bind_Ok in E' as (rc' & _ & E'). injection E' as <-.
  destruct lp, rp, lc as [lc|], rc as [rc|], lc', rc'; try done. injection E as E. cbn [crossed] in E |- *.
  apply andb_true in E as [_ E]. apply dltb_spec in E.
  assert (H : dleb lc rc = false) by by apply dleb_false. by rewrite H.
Qed.

Lemma signal_edge closes x r : signal closes default_strategy = Ok true ->
  signal (closes ++ [x]) default_strategy = Ok r -> r = false.
Proof.
  unfold signal. intros E E'. apply bind_Ok in E as (u & _ & E). apply bind_Ok in E' as (u' & _ & E').
  cbn [default_strategy st_conditions all_rules] in E, E'.
  apply bind_Ok in E as (ok & E1 & E). apply bind_Ok in E' as (ok' & E1' & E').
  destruct ok; [|done]. eapply rule_holds_above in E1; [|done|exact E1'].
  rewrite E1 in E'. by injection E' as <-.
Qed.

Lemma last_closes bars x : last (b_close <$> (bars ++ [x])) = Some (b_close x).
Proof. rewrite fmap_app. apply last_snoc. Qed.
Lemma drop_last_closes bars x : drop_last 1 (b_close <$> (bars ++ [x])) = b_close <$> bars.
Proof. rewrite fmap_app. apply drop_last_snoc. Qed.
Lemma init_bars (bars : list Bar) x : take (length (bars ++ [x]) - 1) (bars ++ [x]) = bars.
Proof. rewrite length_app. cbn. replace (length bars + 1 - 1)%nat with (length bars) by lia. by rewrite take_app_length. Qed.
Lemma opening_range_snoc bars x : 3 <= Z.of_nat (length bars) ->
  opening_range (bars ++ [x]) = opening_range bars.
Proof.
  intros H. unfold opening_range. rewrite length_app, take_app_le by lia. cbn [length].
  rewrite (proj2 (Z.ltb_ge _ _)), (proj2 (Z.ltb_ge _ _)) by lia. done.
Qed.

Section edge.
Context (closes : list dec) (x : dec) (previous : list dec).

Lemma trend_edge r : trend_signal previous closes = Ok true ->
  trend_signal closes (closes ++ [x]) = Ok r -> r = false.
Proof.
  unfold trend_signal. intros E E'. ok_inv.
  match goal with H : crosses _ _ ?c ?d _ = true |- _ => rename H into Hx end.
  repeat match goal with H1 : ?t = Ok _, H2 : ?t = Ok _ |- _ => rewrite H1 in H2; injection H2 as <- end.
  by eapply crosses_edge.
Qed.
Lemma momentum_edge r : momentum_signal previous closes = Ok true ->
  momentum_signal closes (closes ++ [x]) = Ok r -> r = false.
Proof.
  unfold momentum_signal. intros E E'. apply bind_Ok in E as (a & _ & E).
  apply bind_Ok in E' as (a' & _ & E'). rewrite last_snoc in E'.
  destruct a as [a|]; [|done]. destruct (last closes) as [c|]; [|done]. destruct (dltb a c); [|done].
  destruct a' as [a'|]; [|by injection E']. destruct (dltb a' x); [|by injection E']. ok_inv.
  repeat match goal with H1 : ?t = Ok _, H2 : ?t = Ok _ |- _ => rewrite H1 in H2; injection H2 as <- end.
  by eapply crosses_edge.
Qed.
Lemma reversion_edge r : reversion_signal previous closes = Ok true ->
  reversion_signal closes (closes ++ [x]) = Ok r -> r = false.
Proof.
  unfold reversion_signal. intros E E'. apply bind_Ok in E as (before & _ & E).
  apply bind_Ok in E as (now & En & E). rewrite En in E'. cbn [mbind res_bind] in E'.
  apply bind_Ok in E' as (now' & _ & E'). injection E as E. injection E' as <-.
  destruct before, now; try done. destruct now'; [|done]. by eapply crosses_edge.
Qed.
End edge.

Lemma reclaim_edge minimum bars x r previous :
  reclaim_signal minimum bars previous (b_close <$> bars) = Ok true ->
  reclaim_signal minimum (bars ++ [x]) (b_close <$> bars) (b_close <$> (bars ++ [x])) = Ok r -> r = false.
Proof.
  unfold reclaim_signal. rewrite init_bars, last_closes. intros E E'.
  destruct (_ && _) in E; [|done]. destruct (_ && _) in E'; [|by injection E']. ok_inv.
  repeat match goal with H1 : ?t = Ok _, H2 : ?t = Ok _ |- _ => rewrite H1 in H2; injection H2 as <- end.
  by eapply crosses_edge.
Qed.

Lemma breakout_edge bars x previous : breakout_signal bars previous (b_close <$> bars) = true ->
  breakout_signal (bars ++ [x]) (b_close <$> bars) (b_close <$> (bars ++ [x])) = false.
Proof.
  unfold breakout_signal. destruct (opening_range bars) as [range|] eqn:Er; [|done].
  intros H. apply andb_true in H as [H1 H2]. bool_inv. rewrite opening_range_snoc, Er by lia.
  apply andb_false_intro2. by eapply crosses_edge.
Qed.
