(* ===== verification/Execution.v ===== *)
(** * The causal session executor ([phase1415/execution.py])

    The executor reuses the settings, trades and metrics of the five-minute engine, but
    fills an entry against the volume of the preceding completed candle, records the
    timing of every entry decision, and halts with an unresolved position instead of
    failing when an exit cannot be filled.  The digests of JSON dumps in an [Execution]
    are left out; [execution_fingerprint], the digest of a constant, is computed. *)
From S2P Require Import Prelude Decimal DecimalFacts Text Dataset Costs Phase14 Strategies.
From Stdlib Require Import Ascii.
Open Scope list_scope.
Open Scope Z_scope.

Definition EXECUTION_VERSION : string := "Phase1418BCausalExecution.v1".

(** [json.dumps(EXECUTION_POLICY, sort_keys=True, separators=(",", ":"))]: the entries
    in the order of their keys, each value in its JSON form. *)
Definition quoted (s : string) : string :=
  String (ascii_of_N 34) (s +:+ String (ascii_of_N 34) EmptyString).
Definition EXECUTION_POLICY : list (string * string) :=
  [("entry", quoted "NEXT_OPEN_PREVIOUS_COMPLETED_VOLUME_ALL_OR_NONE");
   ("exit", quoted "STOP_FIRST_TARGET_EOD_CONFIRM_AT_CANDLE_END");
   ("liquidity", quoted "IMMEDIATELY_PRECEDING_COMPLETED_SAME_SESSION_CANDLE");
   ("missing_liquidity", quoted "REJECT_NO_FALLBACK");
   ("partial_fills", "false");
   ("quantity", quoted "FIXED_AT_ORDER_CREATION_WITH_OPENING_PRICE_OBSERVATION");
   ("unfilled_exit", quoted "HALT_RETAIN_POSITION");
   ("version", quoted EXECUTION_VERSION)]%string.
Definition policy_json : string :=
  ("{" +:+ String.concat "," ((fun '(k, v) => quoted k +:+ ":" +:+ v) <$> EXECUTION_POLICY) +:+ "}")%string.
Definition execution_fingerprint : string := Eval vm_compute in digest policy_json.
Example execution_fingerprint_digest : execution_fingerprint = digest policy_json.
Proof. vm_compute. reflexivity. Qed.

(** ** Liquidity and timing of an entry *)

(** The completed candle that ends at [at_], inside a session; it is validated again
    (the source copies it through its JSON form). *)
Definition liquidity_bar (s : Series) (at_ : Z) : res Bar :=
  require! existsb (fun d => (ds_start d <? at_) && (at_ <? ds_end d)) (sr_sessions s)
    else "CAUSAL_LIQUIDITY_SESSION";
  previous ← of_option (ValueError "CAUSAL_LIQUIDITY_MISSING")
    (List.find (fun b => candle_end b =? at_) (sr_bars s));
  candle_validate previous.

Definition iso (at_ : Z) : string := (datetime_text at_ +:+ "+00:00")%string.

Definition decision_timing (s : Series) (at_ : Z) : res (gmap string string) :=
  previous ← liquidity_bar s at_;
  Ok (list_to_map
    [("signal_completed_at", iso (candle_end previous)); ("order_created_at", iso at_);
     ("quantity_decided_at", iso at_); ("liquidity_observed_at", iso (candle_end previous));
     ("liquidity_candle_start", iso (b_start previous)); ("earliest_execution_at", iso at_);
     ("fill_confirmed_at", iso at_); ("data_availability_cutoff", iso at_);
     ("opening_price_observed_at", iso at_); ("execution_policy_version", EXECUTION_VERSION);
     ("execution_policy_fingerprint", execution_fingerprint)])%string.

(** ** The exit decision *)

Definition exit_reference (bar : Bar) (entry : dec) (d : Definition_) (last : bool)
    : res (dec * option exit_reason) :=
  below ← psub (dZ 1) (df_stop d);
  stop ← pmul entry below;
  above ← padd (dZ 1) (df_target d);
  target ← pmul entry above;
  Ok (if dleb (b_low bar) stop then (dmin stop (b_open bar), Some STOP)
      else if dleb target (b_high bar) then (target, Some TARGET)
      else (b_close bar, if last : bool then Some EOD else None)).

(** ** The executor *)

Record Unresolved := mkUnresolved {
  u_signal_at : Z; u_entry_at : Z; u_entry : dec; u_quantity : Z; u_exit_at : Z; u_reason : exit_reason
}.

(** The local variables of [execute]: those of the run, and those of one session. *)
Record Run := mkRun {
  r_cash : dec; r_peak : dec; r_drawdown : dec; r_trades : list Trade; r_no_fills : list string;
  r_unresolved : list Unresolved; r_decisions : list (gmap string string); r_exposure : Z
}.
Record Walk := mkWalk { w_history : list Bar; w_pending : option Z; w_position : option Open }.

Record Execution := mkExecution {
  x_unresolved : list Unresolved; x_entry_decisions : list (gmap string string); x_synthetic : bool;
  x_symbol : string; x_trades : list Trade; x_metrics : Metrics; x_no_fills : list string;
  x_exposure_seconds : Z; x_marked_drawdown : dec
}.

Section execute.
Context (series : Series) (definition : Definition_) (settings : Settings) (tariff : IntradayCostSchedule).
Context (slip : dec).

(** The limits of an entry, evaluated left to right. *)
Definition entry_denied (at_ : Z) (last : bool) (cash value fee : dec) : res bool :=
  if negb (se_allow_long settings) || last then Ok true
  else
    previous ← liquidity_bar series at_;
    share ← pmul (dZ (b_volume previous)) (se_participation settings);
    if dltb share (dZ (se_quantity settings)) then Ok true
    else
      need ← padd value fee;
      if dltb cash need then Ok true
      else buffered ← pmul value (se_price_buffer settings);
           Ok (dltb (se_order_ceiling settings) buffered).

(** [timing.update(quantity=..., liquidity_volume=...)] *)
Definition entry_timing (at_ : Z) : res (gmap string string) :=
  timing ← decision_timing series at_;
  previous ← liquidity_bar series at_;
  Ok (<["liquidity_volume"%string := int_text (b_volume previous)]>
      (<["quantity"%string := int_text (se_quantity settings)]> timing)).

(** The pending entry at the open of [bar]. *)
Definition try_entry (at_ : Z) (bar : Bar) (last : bool) (r : Run) (w : Walk) : res (Run * Walk) :=
  match w_pending w with
  | None => Ok (r, w)
  | Some decided =>
      factor ← padd (dZ 1) slip;
      entry ← pmul (b_open bar) factor;
      value ← pmul entry (dZ (se_quantity settings));
      fee ← quote_total tariff BUY value at_ None;
      timing ← entry_timing at_;
      denied ← entry_denied at_ last (r_cash r) value fee;
      if denied : bool then
        let timing := <["fill_confirmed_at"%string := ""%string]> (<["decision"%string := "REJECTED"%string]> timing) in
        Ok (mkRun (r_cash r) (r_peak r) (r_drawdown r) (r_trades r) (r_no_fills r ++ [no_fill_text at_])
              (r_unresolved r) (r_decisions r ++ [timing]) (r_exposure r),
            mkWalk (w_history w) None (w_position w))
      else
        spent ← padd value fee;
        cash ← psub (r_cash r) spent;
        let timing := <["decision"%string := "FILLED"%string]> timing in
        Ok (mkRun cash (r_peak r) (r_drawdown r) (r_trades r) (r_no_fills r) (r_unresolved r)
              (r_decisions r ++ [timing]) (r_exposure r),
            mkWalk (w_history w) None (Some (mkOpen decided at_ entry fee)))
  end.

(** The intrabar mark at the low. *)
Definition mark_drawdown (at_ : Z) (bar : Bar) (o : Open) (r : Run) : res Run :=
  down ← psub (dZ 1) slip;
  low ← pmul (b_low bar) down;
  mark ← pmul low (dZ (se_quantity settings));
  basis ← pmul (o_entry o) (dZ (se_quantity settings));
  fee ← quote_total tariff SELL mark at_ (Some basis);
  x ← psub (r_peak r) (r_cash r);
  x ← psub x mark;
  x ← padd x fee;
  ratio ← pdiv x (r_peak r);
  Ok (mkRun (r_cash r) (r_peak r) (dmax (r_drawdown r) ratio) (r_trades r) (r_no_fills r)
        (r_unresolved r) (r_decisions r) (r_exposure r)).

Definition close_position (at_ : Z) (bar : Bar) (o : Open) (reference : dec) (reason : exit_reason)
    (r : Run) : res Run :=
  down ← psub (dZ 1) slip;
  exit ← pmul reference down;
  buy ← pmul (o_entry o) (dZ (se_quantity settings));
  sell ← pmul exit (dZ (se_quantity settings));
  exit_fee ← quote_total tariff SELL sell at_ (Some buy);
  fee ← padd (o_fee o) exit_fee;
  gross ← psub sell buy;
  net ← psub gross fee;
  paid ← psub fee (o_fee o);
  got ← psub sell paid;
  cash ← padd (r_cash r) got;
  let t := mkTrade (o_decided o) (o_entered o) (candle_end bar) (o_entry o) exit
             (se_quantity settings) reason gross fee net in
  Ok (mkRun cash (r_peak r) (r_drawdown r) (r_trades r ++ [t]) (r_no_fills r) (r_unresolved r)
        (r_decisions r) (r_exposure r + (candle_end bar - o_entered o) / SECOND)).

Definition leave_unresolved (bar : Bar) (o : Open) (reason : exit_reason) (r : Run) : Run :=
  mkRun (r_cash r) (r_peak r) (r_drawdown r) (r_trades r) (r_no_fills r)
    (r_unresolved r ++ [mkUnresolved (o_decided o) (o_entered o) (o_entry o) (se_quantity settings)
                          (candle_end bar) reason])
    (r_decisions r) (r_exposure r).

(** The open position during [bar]: [inr] is the [break] of an exit without liquidity. *)
Definition try_exit (at_ : Z) (bar : Bar) (last liq : bool) (r : Run) (w : Walk)
    : res ((Run * Walk) + Run) :=
  match w_position w with
  | None => Ok (inl (r, w))
  | Some o =>
      r ← mark_drawdown at_ bar o r;
      '(reference, reason) ← exit_reference bar (o_entry o) definition last;
      match reason with
      | None => Ok (inl (r, w))
      | Some reason =>
          if liq : bool then
            r ← close_position at_ bar o reference reason r;
            Ok (inl (r, mkWalk (w_history w) (w_pending w) None))
          else Ok (inr (leave_unresolved bar o reason r))
      end
  end.

Definition lift_peak (bar : Bar) (r : Run) (position : option Open) : res Run :=
  value ← (match position with
           | None => Ok (r_cash r)
           | Some _ => held ← pmul (b_close bar) (dZ (se_quantity settings)); padd (r_cash r) held
           end);
  Ok (mkRun (r_cash r) (dmax (r_peak r) value) (r_drawdown r) (r_trades r) (r_no_fills r)
        (r_unresolved r) (r_decisions r) (r_exposure r)).

(** One candle. *)
Definition candle_step (session_end : Z) (at_ : Z) (bar : Bar) (st : Run * Walk)
    : res ((Run * Walk) + Run) :=
  let '(r, w) := st in
  let last := candle_end bar =? session_end in
  liq ← liquid settings bar;
  '(r, w) ← try_entry at_ bar last r w;
  out ← try_exit at_ bar last liq r w;
  match out with
  | inr r => Ok (inr r)
  | inl (r, w) =>
      r ← lift_peak bar r (w_position w);
      let history := w_history w ++ [bar] in
      fire ← (match w_position w with
              | None => if last then Ok false else entry_signal history definition
              | Some _ => Ok false
              end);
      Ok (inl (r, mkWalk history (if fire : bool then Some (candle_end bar) else w_pending w) (w_position w)))
  end.

(** The instants of a session, until the loop breaks. *)
Fixpoint candle_loop (bars : gmap Z Bar) (session_end : Z) (instants : list Z) (st : Run * Walk) : res Run :=
  match instants with
  | [] => Ok st.1
  | at_ :: instants =>
      bar ← of_option KeyError (bars !! at_);
      out ← candle_step session_end at_ bar st;
      match out with
      | inr r => Ok r
      | inl st => candle_loop bars session_end instants st
      end
  end.

(** The guards at the head of a session. *)
Definition session_guard (session : DatedSession) : res unit :=
  reject! 288 * FIVE <? ds_end session - ds_start session as "SESSION_RESOURCE_LIMIT";
  reject! bool_decide (df_identifier definition = S06) &&
          (negb (time_hm_text (nse_time (ds_start session)) =? "09:15")%string ||
           (ds_end session - ds_start session <? 4 * FIVE))
    as "OPENING_RANGE_REQUIRES_REGULAR_SESSION";
  Ok tt.

(** The sessions, until one leaves a position unresolved. *)
Fixpoint session_loop (bars : gmap Z Bar) (sessions : list DatedSession) (r : Run) : res Run :=
  match sessions with
  | [] => Ok r
  | session :: sessions =>
      _ ← session_guard session;
      r ← candle_loop bars (ds_end session) (grid FIVE (ds_start session) (ds_end session))
            (r, mkWalk [] None None);
      if is_nil (r_unresolved r) then session_loop bars sessions r else Ok r
  end.
End execute.

Definition run_init (s : Settings) : Run := mkRun (se_capital s) (se_capital s) d0 [] [] [] [] 0.

Definition execute (series : Series) (definition : Definition_) (settings : Settings)
    (tariff : IntradayCostSchedule) : res Execution :=
  _ ← validate_registry [definition];
  let '(missing, unexpected) := quality series in
  reject! negb (is_nil missing) || negb (is_nil unexpected) || is_nil (sr_sessions series)
    as "INCOMPLETE_OR_OUT_OF_SESSION_DATA";
  reject! 30000 <? Z.of_nat (length (sr_bars series)) as "SERIES_RESOURCE_LIMIT";
  require! sr_corporate_actions_reviewed series else "CORPORATE_ACTION_REVIEW_REQUIRED";
  slip ← pdiv (se_slippage_bps settings) (dZ 10000);
  r ← session_loop series definition settings tariff slip (by_start (sr_bars series))
        (sr_sessions series) (run_init settings);
  m ← metrics (r_trades r) (se_capital settings);
  Ok (mkExecution (r_unresolved r) (r_decisions r) (sr_synthetic series) (sr_symbol series)
        (r_trades r) m (r_no_fills r) (r_exposure r) (r_drawdown r)).
