(* ===== verification/ExecutionFacts.v ===== *)
(** * Theory of the causal executor

    The invariant of the candle loop: what an entry, a closed trade and an unresolved
    position are, and how the journal of decisions records them. *)
From S2P Require Import Prelude Decimal DecimalFacts Text Dataset Costs Errors CorpusFacts.
From S2P Require Import Phase14 Phase14Facts Strategies StrategiesFacts Execution.
From stdpp Require Import sorting.
Open Scope list_scope.
Open Scope Z_scope.

Lemma candle_validate_idem b r : candle_validate b = Ok r -> candle_validate r = Ok r.
Proof.
  unfold candle_validate. intros E. apply bind_Ok in E as (x & Ex & E).
  apply bind_Ok in E as (u & Hu & E). injection E as <-.
  rewrite (bar_validate_idem _ _ Ex). cbn [mbind res_bind]. by rewrite Hu.
Qed.

Lemma candle_end_start b t : candle_end b = t -> b_start b = t - FIVE.
Proof. unfold candle_end. lia. Qed.

Section executor.
Context (series : Series) (definition : Definition_) (settings : Settings) (tariff : IntradayCostSchedule).
Context (slip : dec).
Notation bars := (by_start (sr_bars series)).
Notation sessions := (sr_sessions series).

(** ** What an entry, a trade and an unresolved position are *)

(** The preceding completed candle offers the quantity. *)
Definition liquid_before (at_ : Z) : Prop :=
  exists prev share, prev ∈ sr_bars series /\ candle_end prev = at_ /\
    pmul (dZ (b_volume prev)) (se_participation settings) = Ok share /\
    (dval (dZ (se_quantity settings)) <= dval share)%Q.

(** A position entered at the open of its candle, which no candle of [entered, upto)
    exits. *)
Record held (session : DatedSession) (decided entered : Z) (entry : dec) (upto : Z) : Prop := {
  he_decided : decided = entered;
  he_before : entered <= upto;
  he_inside : ds_start session < entered < ds_end session;
  he_grid : (entered - ds_start session) mod FIVE = 0;
  he_liquid : liquid_before entered;
  he_entry : exists eb factor value, bars !! entered = Some eb /\ padd (dZ 1) slip = Ok factor /\
    pmul (b_open eb) factor = Ok entry /\ pmul entry (dZ (se_quantity settings)) = Ok value /\
    se_allow_long settings = true /\ exists buffered, pmul value (se_price_buffer settings) = Ok buffered /\
      (dval buffered <= dval (se_order_ceiling settings))%Q;
  he_waiting : forall t b, entered <= t < upto -> (t - ds_start session) mod FIVE = 0 ->
    bars !! t = Some b -> exists reference, exit_reference b entry definition false = Ok (reference, None)
}.

(** The first candle whose exit rule fires; [liq] says whether it can absorb the exit. *)
Record left_at (decided entered exit_at : Z) (entry : dec) (reason : exit_reason) (liq : bool)
    (reference : dec) : Prop := {
  le_session : exists session xb, session ∈ sessions /\ held session decided entered entry (exit_at - FIVE) /\
    entered < exit_at <= ds_end session /\ bars !! (exit_at - FIVE) = Some xb /\
    liquid settings xb = Ok liq /\
    exit_reference xb entry definition (exit_at =? ds_end session) = Ok (reference, Some reason)
}.

Record closed_trade (t : Trade) : Prop := {
  ct_left : exists reference down,
    left_at (t_signal_at t) (t_entry_at t) (t_exit_at t) (t_entry t) (t_reason t) true reference /\
    psub (dZ 1) slip = Ok down /\ pmul reference down = Ok (t_exit t);
  ct_quantity : t_quantity t = se_quantity settings;
  ct_profit : exists buy sell, pmul (t_entry t) (dZ (t_quantity t)) = Ok buy /\
    pmul (t_exit t) (dZ (t_quantity t)) = Ok sell /\
    psub sell buy = Ok (t_gross t) /\ psub (t_gross t) (t_fees t) = Ok (t_net t)
}.

Record retained (u : Unresolved) : Prop := {
  rt_left : exists reference,
    left_at (u_signal_at u) (u_entry_at u) (u_exit_at u) (u_entry u) (u_reason u) false reference;
  rt_quantity : u_quantity u = se_quantity settings
}.

(** The trades so far: well formed, one after the other, before [upto]. *)
Record closed_ok (upto : Z) (l : list Trade) : Prop := {
  co_all : Forall closed_trade l;
  co_order : StronglySorted (fun t u => t_exit_at t <= t_signal_at u) l;
  co_before : Forall (fun t => t_exit_at t <= upto) l
}.

Lemma closed_ok_mono u v l : u <= v -> closed_ok u l -> closed_ok v l.
Proof. intros H [A B C]. split; [done|done|]. eapply Forall_impl; [exact C|]. cbn. lia. Qed.
Lemma closed_ok_snoc u v l t : closed_ok u l -> closed_trade t -> u <= t_signal_at t ->
  t_exit_at t <= v -> u <= v -> closed_ok v (l ++ [t]).
Proof.
  intros [A B C] Ht Hs He Huv. split.
  - apply Forall_app. split; [done|by constructor].
  - apply StronglySorted_snoc; [done|]. eapply Forall_impl; [exact C|]. cbn. lia.
  - apply Forall_app. split; [|by constructor]. eapply Forall_impl; [exact C|]. cbn. lia.
Qed.

(** ** The journal of entry decisions *)

(** The instants of the decisions with a given outcome. *)
Definition decided (outcome : string) (l : list (gmap string string)) : list string :=
  omap (fun m => if bool_decide (m !! "decision"%string = Some outcome)
                 then m !! "order_created_at"%string else None) l.

(** The filled decisions are the entries, the rejected ones the refused fills. *)
Record journal (r : Run) (entries : list Z) : Prop := {
  jn_filled : decided "FILLED" (r_decisions r) = iso <$> entries;
  jn_rejected : r_no_fills r = (fun at_ => (at_ +:+ ":ENTRY_LIMIT_OR_LIQUIDITY")%string) <$>
    decided "REJECTED" (r_decisions r)
}.

Definition books (r : Run) := (r_trades r, r_no_fills r, r_unresolved r, r_decisions r).

Lemma journal_books r r' l : books r' = books r -> journal r l -> journal r' l.
Proof. unfold books. intros [= _ E1 _ E2] [H1 H2]. split; by rewrite ?E1, E2. Qed.

Lemma decided_snoc outcome l m : decided outcome (l ++ [m]) = decided outcome l ++ decided outcome [m].
Proof. apply omap_app. Qed.

(** The entries recorded so far. *)
Definition entries (r : Run) (position : option Open) : list Z :=
  (t_entry_at <$> r_trades r) ++ match position with Some o => [o_entered o] | None => [] end.

(** ** The invariant *)

(** The state before the candle at [nxt]. *)
Record walking (session : DatedSession) (nxt : Z) (r : Run) (w : Walk) : Prop := {
  wa_closed : exists upto, closed_ok upto (r_trades r) /\ upto <= nxt /\
    forall o, w_position w = Some o -> upto <= o_decided o;
  wa_resolved : r_unresolved r = [];
  wa_position : forall o, w_position w = Some o ->
    held session (o_decided o) (o_entered o) (o_entry o) nxt;
  wa_pending : forall p, w_pending w = Some p -> p = nxt /\ ds_start session < nxt;
  wa_exclusive : is_Some (w_position w) -> w_pending w = None;
  wa_journal : journal r (entries r (w_position w))
}.

(** The state after a session: flat, or halted with one unresolved position. *)
Record settled (upto : Z) (r : Run) : Prop := {
  se_closed : closed_ok upto (r_trades r);
  se_unresolved : r_unresolved r = [] \/ exists u, r_unresolved r = [u] /\ retained u /\
    Forall (fun t => t_exit_at t <= u_signal_at u) (r_trades r);
  se_journal : journal r ((t_entry_at <$> r_trades r) ++ (u_entry_at <$> r_unresolved r))
}.
End executor.

Definition execution_error : exn -> Prop := among
  (quote_messages ++ ["SESSION_RESOURCE_LIMIT"; "OPENING_RANGE_REQUIRES_REGULAR_SESSION"]%string).
#[export] Instance execution_arithmetic : Arithmetic execution_error.
Proof. apply among_arithmetic. Qed.
#[export] Instance execution_quotes : Raises execution_error quote_messages.
Proof. by apply among_raises. Qed.

Section loop.
Context (series : Series) (definition : Definition_) (settings : Settings) (tariff : IntradayCostSchedule).
Context (slip : dec).
Notation bars := (by_start (sr_bars series)).
Notation sessions := (sr_sessions series).
Context (Hgrid : forall session t, session ∈ sessions -> t ∈ grid FIVE (ds_start session) (ds_end session) ->
  exists b, bars !! t = Some b /\ b_start b = t).
Context (Hvalid : Forall (fun b => candle_validate b = Ok b) (sr_bars series)).
Notation walking := (walking series definition settings slip).
Notation held := (held series definition settings slip).
Notation settled := (settled series definition settings slip).

Lemma liquidity_ok session at_ : session ∈ sessions -> ds_start session < at_ < ds_end session ->
  (at_ - ds_start session) mod FIVE = 0 ->
  exists prev, liquidity_bar series at_ = Ok prev /\ prev ∈ sr_bars series /\ candle_end prev = at_.
Proof.
  intros Hin Hat Hg. unfold liquidity_bar. pose proof FIVE_pos.
  assert (Hex : existsb (fun d => (ds_start d <? at_) && (at_ <? ds_end d)) sessions = true).
  { apply existsb_exists. exists session. split; [by apply list_elem_of_In|]. autorewrite with kite. lia. }
  rewrite Hex. cbn [raise_unless mbind res_bind].
  destruct (Hgrid session (at_ - FIVE) Hin) as (b & Hb & Hs).
  { apply Z.mod_divide in Hg as [k Hk]; [|done]. assert (0 < k) by nia.
    apply grid_elem; [done|]. split; [nia|].
    replace (at_ - FIVE - ds_start session) with ((k - 1) * FIVE) by lia. by apply Z.mod_mul. }
  apply by_start_Some in Hb as [Hb _].
  destruct (List.find _ _) as [prev|] eqn:Ef.
  - apply List.find_some in Ef as [Hp He]. bool_inv. apply list_elem_of_In in Hp.
    rewrite Forall_forall in Hvalid. exists prev. split_and!; [by apply Hvalid|done|done].
  - exfalso. apply list_elem_of_In in Hb. pose proof (List.find_none _ _ Ef b Hb) as Hn. cbn in Hn.
    bool_inv. unfold candle_end in Hn. lia.
Qed.

Lemma timing_ok session at_ : session ∈ sessions -> ds_start session < at_ < ds_end session ->
  (at_ - ds_start session) mod FIVE = 0 ->
  exists m, entry_timing series settings at_ = Ok m /\ m !! "order_created_at"%string = Some (iso at_).
Proof.
  intros Hin Hat Hg. destruct (liquidity_ok session at_ Hin Hat Hg) as (prev & E & _ & _).
  unfold entry_timing, decision_timing. rewrite E. cbn [mbind res_bind]. eexists. split; [done|].
  do 2 (rewrite lookup_insert_ne by done). cbn [list_to_map foldr].
  rewrite lookup_insert_ne by done. by rewrite lookup_insert_eq.
Qed.

Lemma no_fill_iso at_ : no_fill_text at_ = (iso at_ +:+ ":ENTRY_LIMIT_OR_LIQUIDITY")%string.
Proof.
  unfold no_fill_text, iso. generalize (datetime_text at_). intros s. induction s as [|c s IH]; [done|].
  exact (f_equal (String c) IH).
Qed.

Lemma decided_one outcome m at_ : m !! "order_created_at"%string = Some (iso at_) ->
  decided outcome [m] = if bool_decide (m !! "decision"%string = Some outcome) then [iso at_] else [].
Proof. intros H. unfold decided. cbn [omap list_omap]. destruct (bool_decide _); [by rewrite H|done]. Qed.

Lemma wp_entry_denied session at_ last cash value fee : session ∈ sessions ->
  ds_start session < at_ < ds_end session -> (at_ - ds_start session) mod FIVE = 0 ->
  wp execution_error (entry_denied series settings at_ last cash value fee) (fun denied => denied = false ->
    se_allow_long settings = true /\ liquid_before series settings at_ /\
    exists buffered, pmul value (se_price_buffer settings) = Ok buffered /\
    (dval buffered <= dval (se_order_ceiling settings))%Q).
Proof.
  intros Hin Hat Hg. unfold entry_denied. destruct (negb _ || last) eqn:Eg; [done|]. bool_inv.
  destruct (liquidity_ok session at_ Hin Hat Hg) as (prev & El & Hp & He). rewrite El.
  cbn [mbind res_bind]. op share E1. destruct (dltb share _) eqn:Es; [done|]. op need E2.
  destruct (dltb cash need); [done|]. op buffered E3. intros Hlt. apply dltb_false in Hlt, Es.
  split; [done|]. split; [by exists prev, share|by exists buffered].
Qed.

(** The pending entry is resolved at its candle. *)
Lemma wp_try_entry session at_ bar last r w : session ∈ sessions -> walking session at_ r w ->
  bars !! at_ = Some bar -> ds_start session <= at_ < ds_end session ->
  (at_ - ds_start session) mod FIVE = 0 ->
  wp execution_error (try_entry series settings tariff slip at_ bar last r w) (fun st =>
    walking session at_ st.1 st.2 /\ w_pending st.2 = None).
Proof.
  intros Hin Hw Eb Hat Hg. unfold try_entry. destruct (w_pending w) as [p|] eqn:Ep; [|done].
  destruct Hw as [(u & Hc & Hu & _) Hr Hpos Hpe Hx Hj]. destruct (Hpe _ Ep) as [-> Hs].
  destruct (w_position w) as [o|] eqn:Epo; [specialize (Hx ltac:(by eexists)); congruence|].
  op factor E1. op entry E2. op value E3. eapply wp_bind; [apply wp_quote_any|]. intros fee _ _.
  destruct (timing_ok session at_ Hin ltac:(lia) Hg) as (timing & Et & Hcreated). rewrite Et.
  cbn [mbind res_bind].
  eapply wp_bind; [apply (wp_entry_denied session at_); [done|lia|done]|]. intros [|] _ Hok; cbn beta in Hok.
  - apply wp_Ok. cbn [fst snd]. split; [|done]. split; cbn [w_position w_pending r_trades r_unresolved]; try done.
    + by exists u.
    + destruct Hj as [J1 J2]. split; cbn [r_decisions r_no_fills].
      * rewrite decided_snoc, J1, (decided_one _ _ at_).
        -- rewrite lookup_insert_ne, lookup_insert_eq by done. cbn. unfold entries. cbn [r_trades].
           by rewrite app_nil_r.
        -- by rewrite !lookup_insert_ne by done.
      * rewrite decided_snoc, J2, fmap_app, no_fill_iso, (decided_one _ _ at_).
        -- by rewrite lookup_insert_ne, lookup_insert_eq by done.
        -- by rewrite !lookup_insert_ne by done.
  - destruct (Hok eq_refl) as (Hal & Hl & Hb). op spent E4. op cash E5. apply wp_Ok. cbn [fst snd].
    split; [|done]. split; cbn [w_position w_pending r_trades r_unresolved]; try done.
    + exists u. split; [done|]. split; [done|]. by intros o [= <-].
    + intros o [= <-]. cbn [o_decided o_entered o_entry]. split; [done|lia|lia|done|done| |intros t b Ht; lia].
      exists bar, factor, value. by split_and!.
    + destruct Hj as [J1 J2]. split; cbn [r_decisions r_no_fills].
      * rewrite decided_snoc, J1, (decided_one _ _ at_).
        -- rewrite lookup_insert_eq. cbn. unfold entries. cbn [r_trades o_entered].
           by rewrite app_nil_r, fmap_app.
        -- by rewrite !lookup_insert_ne by done.
      * rewrite decided_snoc, J2, (decided_one _ _ at_).
        -- rewrite lookup_insert_eq. cbn. by rewrite app_nil_r.
        -- by rewrite !lookup_insert_ne by done.
Qed.

Lemma walking_books session nxt r r' w : books r' = books r -> walking session nxt r w -> walking session nxt r' w.
Proof.
  intros Hb [H1 H2 H3 H4 H5 H6]. pose proof (journal_books _ _ (entries r (w_position w)) Hb H6) as Hj.
  unfold books in Hb. injection Hb as E1 _ E2 _. split; rewrite ?E1, ?E2; try done.
  unfold entries in *. by rewrite E1.
Qed.

Lemma exit_last b entry r : exit_reference b entry definition true = Ok r -> r.2 <> None.
Proof.
  unfold exit_reference. intros E. do 4 (apply bind_Ok in E as (? & _ & E)). injection E as <-.
  destruct (dleb _ _); [done|]. by destruct (dleb _ _).
Qed.

(** A candle that does not exit a held position extends the wait. *)
Lemma held_extend session o at_ bar reference : held session (o_decided o) (o_entered o) (o_entry o) at_ ->
  bars !! at_ = Some bar -> (at_ - ds_start session) mod FIVE = 0 ->
  exit_reference bar (o_entry o) definition false = Ok (reference, None) ->
  held session (o_decided o) (o_entered o) (o_entry o) (at_ + FIVE).
Proof.
  intros [H1 H2 H3 H4 H5 H6 H7] Eb Hg Ed. pose proof FIVE_pos. split; try done; [lia|].
  intros t b Ht Hgt Hb. destruct (Z.lt_ge_cases t at_); [by apply (H7 t b); [lia|..]|].
  assert (t = at_) as ->.
  { apply Z.mod_divide in Hgt as [k Hk]; [|done]. apply Z.mod_divide in Hg as [k' Hk']; [|done].
    assert (k = k'); [|lia]. assert (t - at_ = (k - k') * FIVE) by lia.
    assert (0 <= (k - k') * FIVE < FIVE) by lia. nia. }
  rewrite Eb in Hb. injection Hb as <-. by exists reference.
Qed.

Lemma wp_mark_drawdown at_ bar o r :
  wp execution_error (mark_drawdown settings tariff slip at_ bar o r) (fun r' => books r' = books r).
Proof.
  unfold mark_drawdown. op d1 E1. op d2 E2. op d3 E3. op d4 E4.
  eapply wp_bind; [apply wp_quote_any|]. intros fee _ _. op d5 E5. op d6 E6. op d7 E7. op d8 E8. done.
Qed.

(** A candle that exits the position, with liquidity. *)
Lemma wp_close_position session at_ bar o reference reason r : session ∈ sessions ->
  bars !! at_ = Some bar -> candle_end bar = at_ + FIVE -> liquid settings bar = Ok true ->
  at_ + FIVE <= ds_end session -> held session (o_decided o) (o_entered o) (o_entry o) at_ ->
  exit_reference bar (o_entry o) definition (candle_end bar =? ds_end session) = Ok (reference, Some reason) ->
  wp execution_error (close_position settings tariff slip at_ bar o reference reason r) (fun r' =>
    r_unresolved r' = r_unresolved r /\ r_decisions r' = r_decisions r /\ r_no_fills r' = r_no_fills r /\
    exists t, r_trades r' = r_trades r ++ [t] /\ closed_trade series definition settings slip t /\
      t_signal_at t = o_decided o /\ t_entry_at t = o_entered o /\ t_exit_at t = at_ + FIVE).
Proof.
  intros Hin Eb Hend Hliq Hs Hh Ed. unfold close_position.
  op down E1. op exit E2. op buy E3. op sell E4. eapply wp_bind; [apply wp_quote_any|]. intros exit_fee _ _.
  op fee E5. op gross E6. op net E7. op paid E8. op got E9. op cash E10. apply wp_Ok. split_and!; try done.
  eexists. split; [done|]. split; [|done].
  split; cbn [t_signal_at t_entry_at t_exit_at t_entry t_exit t_quantity t_reason t_gross t_fees t_net]; [|done|].
  - exists reference, down. split; [|done]. split. exists session, bar. rewrite Hend in *.
    replace (at_ + FIVE - FIVE) with at_ by lia. pose proof Hh as []. pose proof FIVE_pos. split_and!; try done. lia.
  - by exists buy, sell.
Qed.

(** The management of the open position. *)
Lemma wp_try_exit session at_ bar liq r w : session ∈ sessions ->
  bars !! at_ = Some bar -> candle_end bar = at_ + FIVE -> liquid settings bar = Ok liq ->
  ds_start session <= at_ -> at_ + FIVE <= ds_end session -> (at_ - ds_start session) mod FIVE = 0 ->
  walking session at_ r w -> w_pending w = None ->
  wp execution_error
    (try_exit definition settings tariff slip at_ bar (candle_end bar =? ds_end session) liq r w)
    (fun out => match out with
      | inl (r, w) => walking session (at_ + FIVE) r w /\ w_pending w = None /\
          (at_ + FIVE = ds_end session -> w_position w = None)
      | inr r => settled (at_ + FIVE) r /\ r_unresolved r <> []
      end).
Proof.
  intros Hin Eb Hend Hliq Hs1 Hs2 Hg Hw Hpe. unfold try_exit. pose proof FIVE_pos as HF.
  destruct (w_position w) as [o|] eqn:Eo.
  2: { apply wp_Ok. destruct Hw as [(u & H1 & H2 & H3) H4 H5 H6 H7 H8]. split_and!; [|done|by intros _].
       rewrite Eo in *. split; rewrite ?Eo; try done; [|by rewrite Hpe].
       exists u. split; [done|]. split; [lia|done]. }
  eapply wp_bind; [apply wp_mark_drawdown|]. intros r' _ Hb. cbn beta in Hb.
  apply (walking_books _ _ _ _ _ Hb) in Hw. clear Hb r. rename r' into r.
  destruct Hw as [(u & Hc & Hu & Hud) Hr Hpos _ _ Hj]. specialize (Hud _ Eo). pose proof (Hpos _ Eo) as Hh.
  eapply wp_bind with (R := fun _ => True).
  { unfold exit_reference. op x1 E1. op x2 E2. op x3 E3. op x4 E4. done. }
  intros [reference reason] Ed _. destruct reason as [reason|].
  - destruct liq.
    + eapply wp_bind; [by apply (wp_close_position session)|].
      intros r2 _ (R1 & R2 & R3 & t & Rt & Ht & T1 & T2 & T3). apply wp_Ok.
      cbn [w_pending w_position]. split_and!; try done. split; cbn [w_pending w_position]; try done.
      * exists (at_ + FIVE). rewrite Rt. split; [|done]. apply (closed_ok_snoc series definition settings slip u); [done|done|by rewrite T1|lia|lia].
      * by rewrite R1.
      * by rewrite Hpe.
      * destruct Hj as [J1 J2]. split; [|by rewrite R2, R3]. rewrite R2, J1, Eo. unfold entries.
        by rewrite Rt, !fmap_app, app_nil_r, <- T2.
    + apply wp_Ok. cbn [r_unresolved leave_unresolved]. rewrite Hr. split; [|done].
      split; cbn [r_trades r_unresolved leave_unresolved]; rewrite ?Hr.
      * by apply (closed_ok_mono _ _ _ _ u); [lia|].
      * right. eexists. split; [done|]. split; [|].
        -- split; [|done]. exists reference. split. exists session, bar. cbn. rewrite Hend in *.
           replace (at_ + FIVE - FIVE) with at_ by lia. pose proof Hh as []. split_and!; try done. lia.
        -- destruct Hc as [_ _ Hc]. eapply Forall_impl; [exact Hc|]. cbn. lia.
      * destruct Hj as [J1 J2]. split; cbn [r_decisions r_no_fills leave_unresolved]; [|done].
        rewrite J1, Eo. unfold entries. done.
  - apply wp_Ok. assert (Hl : candle_end bar <> ds_end session).
    { intros Hl. rewrite Hl, Z.eqb_refl in Ed. by apply exit_last in Ed. }
    rewrite (proj2 (Z.eqb_neq _ _) Hl) in Ed. rewrite Hend in Hl. split_and!; [|done|done].
    split; rewrite ?Eo; try done.
    + exists u. split; [done|]. split; [lia|]. by intros o' [= <-].
    + intros o' [= <-]. by eapply held_extend.
    + by rewrite Hpe.
    + by rewrite Eo in Hj.
Qed.

Lemma wp_lift_peak bar r position :
  wp execution_error (lift_peak settings bar r position) (fun r' => books r' = books r).
Proof.
  unfold lift_peak. eapply wp_bind with (R := fun _ => True); [|by intros].
  destruct position; [|done]. op held E1. any_wp.
Qed.

(** One candle moves the invariant five minutes forward, or settles the run. *)
Lemma wp_candle_step session at_ bar r w : session ∈ sessions -> walking session at_ r w ->
  bars !! at_ = Some bar -> b_start bar = at_ -> ds_start session <= at_ ->
  at_ + FIVE <= ds_end session -> (at_ - ds_start session) mod FIVE = 0 ->
  wp execution_error (candle_step series definition settings tariff slip (ds_end session) at_ bar (r, w))
    (fun out => match out with
      | inl (r, w) => walking session (at_ + FIVE) r w /\ (at_ + FIVE = ds_end session -> w_position w = None)
      | inr r => settled (at_ + FIVE) r /\ r_unresolved r <> []
      end).
Proof.
  intros Hin Hw Eb Est Hs1 Hs2 Hg. unfold candle_step. pose proof FIVE_pos.
  assert (Hend : candle_end bar = at_ + FIVE) by (unfold candle_end; lia).
  eapply wp_bind; [apply (wp_liquid settings (Es := execution_error))|]. intros liq _ Hliq. cbn beta in Hliq.
  eapply wp_bind; [eapply (wp_try_entry session); try done; lia|]. intros [r1 w1] _ [Hw1 Hp1]. cbn [fst snd] in *.
  eapply wp_bind; [by eapply (wp_try_exit session)|]. intros [[r2 w2]|r2] _ Hout; [|exact Hout].
  destruct Hout as (Hw2 & Hp2 & Hpos2).
  eapply wp_bind; [apply wp_lift_peak|]. intros r3 _ Hb. cbn beta in Hb.
  apply (walking_books _ _ _ _ _ Hb) in Hw2.
  eapply wp_bind with (R := fun fire => fire = true -> w_position w2 = None).
  { destruct (w_position w2); [done|]. destruct (candle_end bar =? ds_end session); [done|].
    eapply wp_mono; [apply wp_entry_signal|]. done. }
  intros fire _ Hfire. cbn beta in Hfire. apply wp_Ok. split; [|done].
  destruct Hw2 as [H1 H2 H3 H4 H5 H6]. split; cbn [w_position w_pending]; try done.
  - destruct fire; [|by rewrite Hp2]. intros p [= <-]. lia.
  - destruct fire; [|by rewrite Hp2]. rewrite Hfire by done. by intros [? ?].
Qed.

Lemma wp_candle_loop session n at_ r w : session ∈ sessions -> walking session at_ r w ->
  at_ + Z.of_nat n * FIVE = ds_end session -> ds_start session <= at_ ->
  (at_ - ds_start session) mod FIVE = 0 -> (n = 0%nat -> w_position w = None) ->
  wp execution_error
    (candle_loop series definition settings tariff slip bars (ds_end session) (grid FIVE at_ (ds_end session)) (r, w))
    (settled (ds_end session)).
Proof.
  intros Hin. pose proof FIVE_pos as HF. revert at_ r w.
  induction n as [|n IH]; intros at_ r w Hw Hn Hs Hg H0; rewrite grid_unfold by done.
  - rewrite (proj2 (Z.ltb_ge _ _)) by lia. apply wp_Ok. cbn [fst].
    destruct Hw as [(u & Hc & Hu & _) Hr _ _ _ Hj]. split.
    + by apply (closed_ok_mono _ _ _ _ u); [lia|].
    + by left.
    + rewrite Hr. unfold entries in Hj. by rewrite H0 in Hj.
  - rewrite (proj2 (Z.ltb_lt _ _)) by nia. cbn [candle_loop].
    destruct (Hgrid session at_ Hin) as (bar & Eb & Est); [apply grid_elem; [done|]; split; [nia|done]|].
    rewrite Eb. cbn [of_option mbind res_bind].
    eapply wp_bind; [apply (wp_candle_step session); try done; nia|].
    intros [[r' w']|r'] _ Hout; cbn beta in Hout.
    + destruct Hout as [Hw' Hlast]. apply IH; [done|lia|lia| |].
      * replace (at_ + FIVE - ds_start session) with (at_ - ds_start session + 1 * FIVE) by lia.
        by rewrite Z.mod_add.
      * intros ->. apply Hlast. lia.
    + destruct Hout as [[H1 H2 H3] _]. apply wp_Ok. split; [|done|done].
      apply (closed_ok_mono _ _ _ _ (at_ + FIVE)); [nia|done].
Qed.

(** Between sessions. *)
Lemma wp_executor_sessions l r to previous final : (forall s, s ∈ l -> s ∈ sessions) -> Forall dated_ok l ->
  foldR (check_session to) previous l = Ok final -> settled previous r -> r_unresolved r = [] ->
  wp execution_error (session_loop series definition settings tariff slip bars l r)
    (fun r' => exists upto, settled upto r').
Proof.
  revert r previous. induction l as [|s l IH]; intros r previous Hin Hd E Hs Hr; cbn [session_loop foldR] in *.
  - apply wp_Ok. by exists previous.
  - apply Forall_cons in Hd as [[Ho Hm] Hd]. apply bind_Ok in E as (p & Ep & E).
    unfold check_session in Ep. apply bind_Ok in Ep as (u & Hg & Ep). injection Ep as <-.
    apply raise_if_Ok in Hg. bool_inv. pose proof FIVE_pos.
    eapply wp_bind with (R := fun _ => True).
    { unfold session_guard. apply wp_reject; [intros; raise|]. intros _. by apply wp_reject; [intros; raise|]. }
    intros _ _ _. apply Z.mod_divide in Hm as [k Hk]; [|done]. assert (0 < k) by nia.
    eapply wp_bind; [apply (wp_candle_loop s (Z.to_nat k)); try done|].
    + apply Hin. set_solver.
    + destruct Hs as [J1 J2 J3]. split; cbn [w_position w_pending]; try done.
      * exists previous. split_and!; [done|lia|done].
      * unfold entries. by rewrite Hr in J3.
    + rewrite Z2Nat.id by lia. lia.
    + by rewrite Z.sub_diag.
    + intros r' _ Hs'. cbn beta in Hs'. destruct (is_nil (r_unresolved r')) eqn:En; [|apply wp_Ok; by eexists].
      eapply (IH r'); [set_solver|done|exact E|done|]. by destruct (r_unresolved r').
Qed.
End loop.

(** ** The whole run *)

Definition executor_error : exn -> Prop := among
  (quote_messages ++ ["SESSION_RESOURCE_LIMIT"; "OPENING_RANGE_REQUIRES_REGULAR_SESSION";
    "UNRECOGNIZED_DEFINITION_VERSION"; "INCOMPLETE_OR_OUT_OF_SESSION_DATA"; "SERIES_RESOURCE_LIMIT";
    "CORPORATE_ACTION_REVIEW_REQUIRED"]%string).
#[export] Instance executor_arithmetic : Arithmetic executor_error.
Proof. apply among_arithmetic. Qed.

Lemma execution_executor e : execution_error e -> executor_error e.
Proof. by apply among_mono. Qed.

Lemma series_validate_bars s0 s : series_validate s0 = Ok s ->
  Forall (fun b => candle_validate b = Ok b) (sr_bars s).
Proof.
  unfold series_validate. intros E. apply bind_Ok in E as (? & _ & E).
  apply bind_Ok in E as (us & Hd & E). apply bind_Ok in E as (bars & Hb & E). cbv zeta in E.
  apply bind_Ok in E as (u & Hv & E). injection E as <-. cbn [sr_bars].
  apply mapR_Forall2 in Hb. clear -Hb. induction Hb; constructor; [by eapply candle_validate_idem|done].
Qed.

(** The candles of a complete series are where its sessions need them. *)
Lemma complete_series s : quality s = ([], []) ->
  forall session t, session ∈ sr_sessions s -> t ∈ grid FIVE (ds_start session) (ds_end session) ->
  exists b, by_start (sr_bars s) !! t = Some b /\ b_start b = t.
Proof.
  intros Hq session t Hin Ht. assert (Hb : t ∈ b_start <$> sr_bars s).
  { apply quality_complete; [done|]. by exists session. }
  apply by_start_elem in Hb as [b Hb]. exists b. split; [done|]. by apply by_start_Some in Hb as [_ ?].
Qed.

Lemma wp_validate_one d : wp executor_error (validate_registry [d]) (fun _ => True).
Proof.
  unfold validate_registry. cbn [fmap list_fmap is_nil]. rewrite bool_decide_true by apply NoDup_singleton.
  cbn [orb negb raise_if mbind res_bind mapR].
  assert (Hr : exists l, registry = Ok l /\ forall i, is_Some (List.find (fun x => bool_decide (df_identifier x = i)) l)).
  { eexists. split; [vm_compute; reflexivity|]. intros i. destruct i; vm_compute; by eexists. }
  destruct Hr as (l & -> & Hf). destruct (Hf (df_identifier d)) as [reference Ef].
  cbn [mbind res_bind]. rewrite Ef. cbn [of_option mbind res_bind].
  destruct (same_semantics d reference); [done|]. cbn. raise.
Qed.

Lemma wp_executor s0 series definition settings tariff : series_validate s0 = Ok series ->
  wp executor_error (execute series definition settings tariff) (fun x =>
    quality series = ([], []) /\ exists slip, pdiv (se_slippage_bps settings) (dZ 10000) = Ok slip /\
    exists r, (exists upto, settled series definition settings slip upto r) /\
      x_trades x = r_trades r /\ x_unresolved x = r_unresolved r /\ x_entry_decisions x = r_decisions r /\
      x_no_fills x = r_no_fills r /\ metrics (x_trades x) (se_capital settings) = Ok (x_metrics x)).
Proof.
  intros Hv. pose proof (series_validate_bars _ _ Hv) as Hbars.
  apply series_validate_sessions in Hv as [Hd [final Hf]]. unfold execute.
  eapply wp_bind; [apply wp_validate_one|]. intros _ _ _.
  destruct (quality series) as [missing unexpected] eqn:Eq.
  apply wp_reject; [intros; raise|]. intros Hg. bool_inv.
  assert (Hq : quality series = ([], [])) by (rewrite Eq; destruct missing, unexpected; done).
  apply wp_reject; [intros; raise|]. intros _. apply wp_require; [intros; raise|]. intros _. op slip Es.
  eapply wp_bind.
  { eapply wp_weaken; [exact execution_executor|].
    eapply (wp_executor_sessions series definition settings tariff slip); [by apply complete_series|done|done|done|exact Hf| |done].
    split; cbn [r_trades r_unresolved run_init]; [|by left|done]. split; constructor. }
  intros r _ Hs. cbn beta in Hs.
  eapply wp_bind with (R := fun m => metrics (r_trades r) (se_capital settings) = Ok m).
  { destruct (metrics _ _) as [m|e] eqn:Em; [done|]. by eapply (arithmetic e), metrics_error. }
  intros m _ Hm. apply wp_Ok. split; [congruence|]. exists slip. split; [done|]. exists r.
  cbn. by split_and!.
Qed.
