(* ===== verification/ResearchTheorems.v ===== *)
(** * Properties of the research strategies and the causal executor *)
From S2P Require Import Prelude Decimal DecimalFacts Text Dataset Costs Errors.
From S2P Require Import Phase14 Phase14Facts Strategies StrategiesFacts Execution ExecutionFacts.
From stdpp Require Import sorting.
From S2P Require Sample.
Open Scope list_scope.
Open Scope Z_scope.

(** Every entry signal is edge-triggered: after a signal the next completed candle of
    the session cannot signal again, whichever of the six strategies is run. *)
Theorem entry_signal_edge bars bar definition r : entry_signal bars definition = Ok true ->
  entry_signal (bars ++ [bar]) definition = Ok r -> r = false.
Proof.
  unfold entry_signal. intros E E'. destruct (_ <? 2) eqn:Hl in E; [done|]. bool_inv.
  rewrite length_app in E'. destruct (_ <? 2) eqn:Hl' in E'; [bool_inv; lia|]. cbv zeta in *.
  rewrite drop_last_closes in E'. destruct (df_identifier definition).
  - rewrite fmap_app in E'. by eapply signal_edge.
  - rewrite fmap_app in E'. by eapply trend_edge.
  - rewrite fmap_app in E'. by eapply momentum_edge.
  - rewrite fmap_app in E'. by eapply reversion_edge.
  - by eapply reclaim_edge.
  - injection E' as <-. injection E as E. by eapply breakout_edge.
Qed.

(** The Bollinger bands exist exactly when the period is complete, and enclose the
    moving average, although the root and the products are rounded. *)
Theorem bands_enclose values period r : 1 <= period -> bands values period = Ok r ->
  (r = None <-> Z.of_nat (length values) < period) /\
  forall lower upper, r = Some (lower, upper) -> exists mean, sma values period = Ok (Some mean) /\
    (dval lower <= dval mean <= dval upper)%Q.
Proof. apply bands_spec. Qed.

(** C23. Positions of the executor: every trade was filled at the open of the candle after
    its signal, against the volume of the preceding completed candle, and left at the
    first candle whose exit rule fires; trades never overlap; at most one position is
    left unresolved, after every trade, at a candle that cannot absorb its exit. *)
Theorem execute_positions s0 series definition settings tariff x : series_validate s0 = Ok series ->
  execute series definition settings tariff = Ok x ->
  exists slip, pdiv (se_slippage_bps settings) (dZ 10000) = Ok slip /\
    Forall (closed_trade series definition settings slip) (x_trades x) /\
    StronglySorted (fun t u => t_exit_at t <= t_signal_at u) (x_trades x) /\
    (x_unresolved x = [] \/ exists u, x_unresolved x = [u] /\
      retained series definition settings slip u /\
      Forall (fun t => t_exit_at t <= u_signal_at u) (x_trades x)).
Proof.
  intros Hv E. destruct (wp_elim _ _ _ _ (wp_executor s0 series definition settings tariff Hv) E)
    as (_ & slip & Hs & r & (upto & [[H1 H2 _] H3 _]) & -> & -> & _).
  exists slip. by split_and!.
Qed.

(** The journal of entry decisions is complete: its filled decisions are, in order,
    the entries of the trades and of the unresolved position, and its rejected ones are
    the refused fills. *)
Theorem execute_journal s0 series definition settings tariff x : series_validate s0 = Ok series ->
  execute series definition settings tariff = Ok x ->
  decided "FILLED" (x_entry_decisions x) =
    iso <$> ((t_entry_at <$> x_trades x) ++ (u_entry_at <$> x_unresolved x)) /\
  x_no_fills x = (fun at_ => (at_ +:+ ":ENTRY_LIMIT_OR_LIQUIDITY")%string) <$>
    decided "REJECTED" (x_entry_decisions x).
Proof.
  intros Hv E. destruct (wp_elim _ _ _ _ (wp_executor s0 series definition settings tariff Hv) E)
    as (_ & slip & _ & r & (upto & [_ _ [J1 J2]]) & -> & -> & -> & -> & _). done.
Qed.

(** The executor of a validated series fails only for its documented reasons: the
    causal liquidity of an entry is always available, and no candle is missing. *)
Theorem execute_errors s0 series definition settings tariff e : series_validate s0 = Ok series ->
  execute series definition settings tariff = Err e -> executor_error e.
Proof. intros Hv E. exact (wp_error _ _ _ _ (wp_executor s0 series definition settings tariff Hv) E). Qed.

(** ** The theorems at concrete inputs *)

Import Sample.

Definition breakout : Definition_ :=
  mkDefinition S06 "Opening Range Breakout" RESEARCH_EQUIVALENT SOURCE
    "close crosses first15minute range high" ["OR15"%string] (cents 2) (cents 2) 1000.
Definition five_execution : res Execution := execute five_series breakout five_settings sample_schedule.
Definition thin_execution : res Execution := execute thin_series breakout five_settings sample_schedule.

Lemma five_execution_trades : (fun x => (t_reason <$> x_trades x, x_unresolved x)) <$> five_execution = Ok ([EOD], []).
Proof. vm_compute. reflexivity. Qed.
Lemma thin_execution_halts : (fun x => (x_trades x, u_reason <$> x_unresolved x)) <$> thin_execution = Ok ([], [EOD]).
Proof. vm_compute. reflexivity. Qed.
Lemma thin_execution_ok : is_ok thin_execution = true.
Proof. vm_compute. reflexivity. Qed.

Lemma entry_signal_edge_witness : entry_signal (take 5 five_bars) breakout = Ok false.
Proof.
  assert (E : is_ok (entry_signal (take 4 five_bars ++ [five_bar 4 10361 10363 10221 10231]) breakout) = true)
    by (vm_compute; reflexivity).
  apply is_ok_true in E as [r E].
  rewrite <- (entry_signal_edge (take 4 five_bars) (five_bar 4 10361 10363 10221 10231) breakout r);
    [exact E|vm_compute; reflexivity|exact E].
Defined.
Lemma bands_enclose_witness : exists lower upper mean, bands (dZ <$> [100; 104; 99; 101]) 3 = Ok (Some (lower, upper)) /\
  (dval lower <= dval mean <= dval upper)%Q.
Proof.
  assert (E : exists lower upper, bands (dZ <$> [100; 104; 99; 101]) 3 = Ok (Some (lower, upper)))
    by (do 2 eexists; vm_compute; reflexivity).
  destruct E as (lower & upper & E). exists lower, upper.
  destruct (bands_enclose (dZ <$> [100; 104; 99; 101]) 3 _ ltac:(lia) E) as [_ H].
  destruct (H lower upper eq_refl) as (mean & _ & Hm). exists mean. split; [exact E|exact Hm].
Defined.
Lemma execute_positions_witness : exists x, thin_execution = Ok x /\
  exists slip u, x_unresolved x = [u] /\ retained thin_series breakout five_settings slip u.
Proof.
  destruct (proj1 (is_ok_true _) thin_execution_ok) as [x E]. exists x. split; [exact E|].
  destruct (execute_positions thin_series thin_series breakout five_settings sample_schedule x thin_series_valid E)
    as (slip & _ & _ & _ & [H|(u & H & Hr & _)]).
  - exfalso. pose proof thin_execution_halts as Hh. rewrite E in Hh. injection Hh as _ Hh. by rewrite H in Hh.
  - exists slip, u. by split.
Defined.
Lemma execute_journal_witness : exists x, thin_execution = Ok x /\
  decided "FILLED" (x_entry_decisions x) = iso <$> ((t_entry_at <$> x_trades x) ++ (u_entry_at <$> x_unresolved x)).
Proof.
  destruct (proj1 (is_ok_true _) thin_execution_ok) as [x E]. exists x. split; [exact E|].
  exact (proj1 (execute_journal thin_series thin_series breakout five_settings sample_schedule x thin_series_valid E)).
Defined.
Definition altered : Definition_ :=
  mkDefinition S06 "Renamed" RESEARCH_EQUIVALENT SOURCE "close" ["OR15"%string] (cents 2) (cents 2) 1000.
Lemma execute_errors_witness : exists e, execute five_series altered five_settings sample_schedule = Err e /\ executor_error e.
Proof.
  assert (E : execute five_series altered five_settings sample_schedule =
    Err (ValueError "UNRECOGNIZED_DEFINITION_VERSION")) by (vm_compute; reflexivity).
  exists (ValueError "UNRECOGNIZED_DEFINITION_VERSION"). split; [exact E|].
  exact (execute_errors five_series five_series altered five_settings sample_schedule _ five_series_valid E).
Defined.
