(* ===== verification/Json.v ===== *)
(** * Canonical JSON ([phase1416/imports.py], [canonical] and [sha])

    The values the components publish and hash, and the canonical text of a value:
    [json.dumps(value, sort_keys=True, separators=(",", ":"))].  A string is a list of
    characters below 256, each one code point; floats are not represented (no canonical
    text of the modelled components holds one). *)
From S2P Require Import Prelude Text.
From Stdlib Require Import Ascii.
Open Scope list_scope.
Open Scope Z_scope.

Inductive json :=
| JNull
| JBool (b : bool)
| JInt (n : Z)
| JStr (s : string)
| JArr (l : list json)
| JObj (l : list (string * json)).

Notation bytes := (list ascii).
Definition text (s : string) : bytes := String.list_ascii_of_string s.
Definition dquote : ascii := ascii_of_N 34.
Definition backslash : ascii := ascii_of_N 92.

(** ** Strings *)

(** The two-character escapes. *)
Definition short_escape (c : ascii) : option ascii :=
  if is_char 34 c then Some dquote
  else if is_char 92 c then Some backslash
  else if is_char 10 c then Some "n"%char
  else if is_char 13 c then Some "r"%char
  else if is_char 9 c then Some "t"%char
  else if is_char 12 c then Some "f"%char
  else if is_char 8 c then Some "b"%char
  else None.
Definition escape (c : ascii) : bytes :=
  match short_escape c with
  | Some e => [backslash; e]
  | None =>
      if in_range 32 126 c then [c]
      else [backslash; "u"; "0"; "0"; Sha256.hex_digit (code c / 16); Sha256.hex_digit (code c mod 16)]%char
  end.
Definition quote (s : string) : bytes := dquote :: (text s ≫= escape) ++ [dquote].

(** ** Values *)

(** [sort_keys=True] *)
Section sort.
Context {A : Type}.
Fixpoint insert_field (x : string * A) (l : list (string * A)) : list (string * A) :=
  match l with
  | [] => [x]
  | y :: l' => if String.leb x.1 y.1 then x :: l else y :: insert_field x l'
  end.
Fixpoint sort_fields (l : list (string * A)) : list (string * A) :=
  match l with
  | [] => []
  | x :: l => insert_field x (sort_fields l)
  end.
End sort.

(** [",".join(items)] *)
Definition commas (items : list bytes) : bytes :=
  match items with
  | [] => []
  | x :: items => x ++ (items ≫= fun y => ","%char :: y)
  end.
Definition field (f : string * bytes) : bytes := quote f.1 ++ ":"%char :: f.2.

Fixpoint canonical (v : json) : bytes :=
  match v with
  | JNull => text "null"
  | JBool true => text "true"
  | JBool false => text "false"
  | JInt n => text (int_text n)
  | JStr s => quote s
  | JArr l => "["%char :: commas (List.map canonical l) ++ ["]"%char]
  | JObj l => "{"%char :: commas (field <$> sort_fields (List.map (fun f => (f.1, canonical f.2)) l)) ++ ["}"%char]
  end.

(** [sha(raw)] *)
Definition sha (raw : bytes) : string := Sha256.hexdigest (String.string_of_list_ascii raw).

Example canonical_sample :
  canonical (JObj [("b"%string, JArr [JInt (-1); JNull; JBool true]); ("a"%string, JStr "x")]) =
  text ("{" +:+ String dquote "a" +:+ String dquote ":" +:+ String dquote "x" +:+ String dquote "," +:+
        String dquote "b" +:+ String dquote ":[-1,null,true]}").
Proof. reflexivity. Qed.
