(* ===== verification/JsonFacts.v ===== *)
(** * Canonical JSON is unambiguous

    The canonical text of a value determines the value up to the order of the fields of
    its objects: a text cannot be read as two values, whatever follows it. *)
From S2P Require Import Prelude Text Dataset MoneyFacts Json.
From Stdlib Require Import Ascii.
Open Scope list_scope.
Open Scope Z_scope.

(** Induction over nested values. *)
Section json_ind.
Context (P : json -> Prop).
Context (Hnull : P JNull) (Hbool : forall b, P (JBool b)) (Hint : forall n, P (JInt n))
  (Hstr : forall s, P (JStr s)) (Harr : forall l, Forall P l -> P (JArr l))
  (Hobj : forall l, Forall (fun f => P f.2) l -> P (JObj l)).
Fixpoint json_nested_ind (v : json) : P v :=
  match v with
  | JNull => Hnull
  | JBool b => Hbool b
  | JInt n => Hint n
  | JStr s => Hstr s
  | JArr l => Harr l ((fix go l := match l return Forall P l with
                       | [] => List.Forall_nil _
                       | x :: l => List.Forall_cons _ _ _ (json_nested_ind x) (go l)
                       end) l)
  | JObj l => Hobj l ((fix go l := match l return Forall (fun f => P f.2) l with
                       | [] => List.Forall_nil _
                       | x :: l => List.Forall_cons _ _ _ (json_nested_ind x.2) (go l)
                       end) l)
  end.
End json_ind.

(** ** Values whose objects are sorted *)

Fixpoint norm (v : json) : json :=
  match v with
  | JArr l => JArr (List.map norm l)
  | JObj l => JObj (sort_fields (List.map (fun f => (f.1, norm f.2)) l))
  | _ => v
  end.

(** The text of a value in the order of its fields. *)
Fixpoint render (v : json) : bytes :=
  match v with
  | JNull => text "null"
  | JBool true => text "true"
  | JBool false => text "false"
  | JInt n => text (int_text n)
  | JStr s => quote s
  | JArr l => "["%char :: commas (List.map render l) ++ ["]"%char]
  | JObj l => "{"%char :: commas (List.map (fun f => field (f.1, render f.2)) l) ++ ["}"%char]
  end.

Lemma insert_field_perm {A} (x : string * A) l : insert_field x l ≡ₚ x :: l.
Proof.
  induction l as [|y l IH]; [done|]. cbn. destruct (String.leb _ _); [done|]. rewrite IH. apply Permutation_swap.
Qed.
Lemma sort_fields_perm {A} (l : list (string * A)) : sort_fields l ≡ₚ l.
Proof. induction l as [|x l IH]; [done|]. cbn. by rewrite insert_field_perm, IH. Qed.
Lemma insert_field_map {A B} (f : A -> B) x l :
  List.map (fun y => (y.1, f y.2)) (insert_field x l) =
  insert_field (x.1, f x.2) (List.map (fun y => (y.1, f y.2)) l).
Proof. induction l as [|y l IH]; [done|]. cbn. destruct (String.leb x.1 y.1); cbn; by rewrite ?IH. Qed.
Lemma sort_fields_map {A B} (f : A -> B) l :
  List.map (fun y => (y.1, f y.2)) (sort_fields l) = sort_fields (List.map (fun y => (y.1, f y.2)) l).
Proof. induction l as [|x l IH]; [done|]. cbn. by rewrite insert_field_map, IH. Qed.

Lemma map_Forall_ext {A B} (f g : A -> B) l : Forall (fun x => f x = g x) l -> List.map f l = List.map g l.
Proof. induction 1 as [|x l H _ IH]; [done|]. cbn. by rewrite H, IH. Qed.

Lemma canonical_render v : canonical v = render (norm v).
Proof.
  induction v as [| | | |l IH|l IH] using json_nested_ind; [done..| |]; cbn [canonical norm render].
  - rewrite List.map_map. by rewrite (map_Forall_ext _ _ _ IH).
  - do 2 f_equal. f_equal. change (fmap field) with (List.map field).
    rewrite (map_Forall_ext (fun f => (f.1, canonical f.2)) (fun f => (f.1, render (norm f.2))) l)
      by (eapply Forall_impl; [exact IH|]; intros f H; cbn; by rewrite H).
    replace (List.map (fun f => (f.1, render (norm f.2))) l)
      with (List.map (fun y => (y.1, render y.2)) (List.map (fun f => (f.1, norm f.2)) l))
      by (by rewrite List.map_map).
    rewrite <- sort_fields_map. by rewrite List.map_map.
Qed.

(** ** Unambiguous strings *)

(** Reading one escaped character. *)
Definition unhex (c : ascii) : N := if is_digit c then N_of_ascii c - 48 else N_of_ascii c - 87.
Definition unshort (c : ascii) : ascii :=
  if is_char 110 c then ascii_of_N 10 else if is_char 114 c then ascii_of_N 13
  else if is_char 116 c then ascii_of_N 9 else if is_char 102 c then ascii_of_N 12
  else if is_char 98 c then ascii_of_N 8 else c.
Definition unescape (l : bytes) : option (ascii * bytes) :=
  match l with
  | c :: l =>
      if is_char 92 c then
        match l with
        | e :: l =>
            if is_char 117 e then
              match l with _ :: _ :: h :: k :: l => Some (ascii_of_N (16 * unhex h + unhex k), l) | _ => None end
            else Some (unshort e, l)
        | [] => None
        end
      else if is_char 34 c then None else Some (c, l)
  | [] => None
  end.
Lemma unescape_escape c x : unescape (escape c ++ x) = Some (c, x).
Proof. by destruct c as [[] [] [] [] [] [] [] []]. Qed.

Lemma escape_cancel c d x y : escape c ++ x = escape d ++ y -> c = d /\ x = y.
Proof. intros E%(f_equal unescape). rewrite !unescape_escape in E. by injection E. Qed.
Lemma escape_quote c x y : escape c ++ x = dquote :: y -> False.
Proof. intros E%(f_equal unescape). by rewrite unescape_escape in E. Qed.

Lemma escapes_cancel l l' x y : (l ≫= escape) ++ dquote :: x = (l' ≫= escape) ++ dquote :: y ->
  l = l' /\ x = y.
Proof.
  revert l'. induction l as [|c l IH]; intros [|d l'] E; cbn in E.
  - by injection E.
  - exfalso. rewrite <- app_assoc in E. by symmetry in E; apply escape_quote in E.
  - exfalso. rewrite <- app_assoc in E. by apply escape_quote in E.
  - rewrite <- !app_assoc in E. apply escape_cancel in E as [-> E]. apply IH in E as [-> ->]. done.
Qed.

Lemma text_inj s s' : text s = text s' -> s = s'.
Proof. intros E. apply (f_equal String.string_of_list_ascii) in E. by rewrite !String.string_of_list_ascii_of_string in E. Qed.

Lemma quote_cancel s s' x y : quote s ++ x = quote s' ++ y -> s = s' /\ x = y.
Proof.
  unfold quote. intros E. cbn in E. injection E as E. rewrite <- !app_assoc in E.
  apply escapes_cancel in E as [E ->]. by apply text_inj in E.
Qed.

(** ** Unambiguous values *)

(** What may follow a value. *)
Definition delimited (s : bytes) : Prop :=
  match s with [] => True | c :: _ => c = ","%char \/ c = "]"%char \/ c = "}"%char end.
Lemma delimited_not_digit s c s' : delimited s -> s = c :: s' -> is_digit c = false.
Proof. by intros H ->; destruct H as [->|[->| ->]]. Qed.

Lemma digits_cancel l l' s t : forallb is_digit l = true -> forallb is_digit l' = true ->
  delimited s -> delimited t -> l ++ s = l' ++ t -> l = l' /\ s = t.
Proof.
  intros Hl Hl' Hs Ht E. assert (Hspan : span is_digit (l ++ s) = (l, s)).
  { destruct s as [|c s]; [rewrite app_nil_r; by apply span_digits_nil|].
    apply span_digits; [done|by apply (delimited_not_digit (c :: s) c s)]. }
  assert (Hspan' : span is_digit (l' ++ t) = (l', t)).
  { destruct t as [|c t]; [rewrite app_nil_r; by apply span_digits_nil|].
    apply span_digits; [done|by apply (delimited_not_digit (c :: t) c t)]. }
  rewrite E, Hspan' in Hspan. by injection Hspan as -> ->.
Qed.

Lemma nat_text_cancel n m s t : 0 <= n -> 0 <= m -> delimited s -> delimited t ->
  text (nat_text n) ++ s = text (nat_text m) ++ t -> n = m /\ s = t.
Proof.
  intros Hn Hm Hs Ht E. destruct (nat_text_prints n Hn) as [D1 V1 _], (nat_text_prints m Hm) as [D2 V2 _].
  apply (digits_cancel _ _ s t D1 D2 Hs Ht) in E as [E ->]. split; [|done]. unfold text in E. congruence.
Qed.

Lemma nat_text_head n : 0 <= n -> exists c l, text (nat_text n) = c :: l /\ is_digit c = true.
Proof.
  intros Hn. destruct (nat_text_prints n Hn) as [D _ (c & l & E & _)]. exists c, l. unfold text.
  rewrite E in D |- *. cbn in D. bool_inv. done.
Qed.

Lemma int_text_cancel n m s t : delimited s -> delimited t ->
  text (int_text n) ++ s = text (int_text m) ++ t -> n = m /\ s = t.
Proof.
  intros Hs Ht E. unfold int_text in E. destruct (n <? 0) eqn:Hn, (m <? 0) eqn:Hm; bool_inv.
  - cbn in E. injection E as E. apply nat_text_cancel in E as [H ->]; [|lia|lia|done|done]. split; [lia|done].
  - exfalso. destruct (nat_text_head m Hm) as (c & l & Hc & Hd). unfold text in *. rewrite Hc in E. cbn in E.
    injection E as <- _. done.
  - exfalso. destruct (nat_text_head n Hn) as (c & l & Hc & Hd). unfold text in *. rewrite Hc in E. cbn in E.
    injection E as -> _. done.
  - by apply nat_text_cancel in E.
Qed.

(** The first character of a value tells its form. *)
Definition form_of (c : ascii) : nat :=
  if Ascii.eqb c "n"%char then 0 else if Ascii.eqb c "t"%char then 1 else if Ascii.eqb c "f"%char then 2
  else if is_digit c || Ascii.eqb c "-"%char then 3 else if Ascii.eqb c dquote then 4
  else if Ascii.eqb c "["%char then 5 else if Ascii.eqb c "{"%char then 6 else 7.
Definition form (v : json) : nat :=
  match v with
  | JNull => 0 | JBool true => 1 | JBool false => 2 | JInt _ => 3 | JStr _ => 4 | JArr _ => 5 | JObj _ => 6
  end.

Lemma form_of_digit c : is_digit c = true -> form_of c = 3%nat.
Proof.
  intros H. unfold form_of. rewrite H. cbn.
  by repeat (match goal with |- context [Ascii.eqb c ?x] => destruct (Ascii.eqb_spec c x) as [->|] end; [done|]).
Qed.
Lemma render_head v : exists c s, render v = c :: s /\ form_of c = form v.
Proof.
  destruct v as [|[]|n|s|l|l]; cbn [render]; try (by do 2 eexists).
  unfold int_text. destruct (n <? 0) eqn:Hn; bool_inv; [by do 2 eexists|].
  destruct (nat_text_head n Hn) as (c & l & Hc & Hd). exists c, l. split; [done|by apply form_of_digit].
Qed.
Lemma render_form a b s t : render a ++ s = render b ++ t -> form a = form b.
Proof.
  destruct (render_head a) as (c & u & Hc & <-), (render_head b) as (d & v & Hd & <-).
  rewrite Hc, Hd. by injection 1 as ->.
Qed.
Lemma render_open v : exists c s, render v = c :: s /\ ~ delimited [c].
Proof.
  destruct (render_head v) as (c & s & Hc & Hf). exists c, s. split; [done|].
  intros [->|[->| ->]]; destruct v as [|[]| | | |]; done.
Qed.

(** A separated list, up to its closing character. *)
Lemma tails_cancel {A} (f : A -> bytes) l l' e s t :
  (e = "]"%char \/ e = "}"%char) ->
  Forall (fun x => forall y s t, delimited s -> delimited t -> f x ++ s = f y ++ t -> x = y /\ s = t) l ->
  ((f <$> l) ≫= fun y => ","%char :: y) ++ e :: s = ((f <$> l') ≫= fun y => ","%char :: y) ++ e :: t ->
  l = l' /\ s = t.
Proof.
  intros He. revert l'. induction l as [|x l IH]; intros [|y l'] Hl E; cbn in E.
  - by injection E.
  - injection E as -> _. destruct He; done.
  - injection E as <- _. destruct He; done.
  - apply Forall_cons in Hl as [Hx Hl]. injection E as E. rewrite <- !app_assoc in E.
    assert (Hd : forall (m : list A) u, delimited (((f <$> m) ≫= fun y => ","%char :: y) ++ e :: u)).
    { intros [|z m] u; cbn; [by right; destruct He as [->| ->]; [left|right]|by left]. }
    apply Hx in E as [-> E]; [|apply Hd..]. apply IH in E as [-> ->]; done.
Qed.

Lemma commas_cancel {A} (f : A -> bytes) l l' e s t :
  (e = "]"%char \/ e = "}"%char) -> (forall x, exists c u, f x = c :: u /\ ~ delimited [c]) ->
  Forall (fun x => forall y s t, delimited s -> delimited t -> f x ++ s = f y ++ t -> x = y /\ s = t) l ->
  commas (f <$> l) ++ e :: s = commas (f <$> l') ++ e :: t -> l = l' /\ s = t.
Proof.
  intros He Hh Hl E. destruct l as [|x l], l' as [|y l']; cbn in E.
  - by injection E.
  - exfalso. destruct (Hh y) as (c & u & Hc & Hn). rewrite Hc in E. injection E as <- _. apply Hn. cbn. tauto.
  - exfalso. destruct (Hh x) as (c & u & Hc & Hn). rewrite Hc in E. injection E as -> _. apply Hn. cbn. tauto.
  - rewrite <- !app_assoc in E. apply Forall_cons in Hl as [Hx Hl].
    assert (Hd : forall (m : list A) u, delimited (((f <$> m) ≫= fun y => ","%char :: y) ++ e :: u)).
    { intros [|z m] u; cbn; [by right; destruct He as [->| ->]; [left|right]|by left]. }
    apply Hx in E as [-> E]; [|apply Hd..]. apply tails_cancel in E as [-> ->]; done.
Qed.

Definition cancels {A} (f : A -> bytes) (x : A) : Prop :=
  forall y s t, delimited s -> delimited t -> f x ++ s = f y ++ t -> x = y /\ s = t.

Lemma field_app k x s : field (k, x) ++ s = quote k ++ ":"%char :: x ++ s.
Proof. unfold field. cbn [fst snd]. by rewrite <- app_assoc. Qed.
Lemma field_cancel (f : string * json) : cancels render f.2 -> cancels (fun f => field (f.1, render f.2)) f.
Proof.
  destruct f as [k v]. cbn [snd]. intros Hv [k' v'] s t Hs Ht E. rewrite !field_app in E. cbn [fst snd] in E.
  apply quote_cancel in E as [-> E]. injection E as E. by apply Hv in E as [-> ->].
Qed.

Lemma render_cancel a : cancels render a.
Proof.
  induction a as [|ba|n|sa|l IH|l IH] using json_nested_ind; intros v s t Hs Ht E;
    pose proof (render_form _ _ _ _ E) as Hf.
  - destruct v as [|[]| | | |]; try done. cbn in E. by injection E.
  - destruct ba, v as [|[]| | | |]; try done; cbn in E; by injection E.
  - destruct v as [|[]|m| | |]; try done. by apply int_text_cancel in E as [-> ->].
  - destruct v as [|[]| |sb| |]; try done. by apply quote_cancel in E as [-> ->].
  - destruct v as [|[]| | |l'|]; try done. cbn in E. injection E as E. rewrite <- !app_assoc in E. cbn in E.
    apply (commas_cancel render) in E as [-> ->]; [done|by left|apply render_open|exact IH].
  - destruct v as [|[]| | | |l']; try done. cbn in E. injection E as E. rewrite <- !app_assoc in E. cbn in E.
    apply (commas_cancel (fun f => field (f.1, render f.2))) in E as [-> ->]; [done|by right| |].
    + intros [k x]. do 2 eexists. split; [reflexivity|]. cbn. by intros [|[|]].
    + eapply Forall_impl; [exact IH|]. intros f. apply field_cancel.
Qed.

(** Two values have the same canonical text exactly when they are the same value, up to
    the order of the fields of their objects. *)
Lemma canonical_inj a b : canonical a = canonical b <-> norm a = norm b.
Proof.
  rewrite !canonical_render. split; [|by intros ->]. intros E.
  apply (render_cancel (norm a) (norm b) [] []); [done|done|by rewrite E].
Qed.
