(* ===== verification/JsonRead.v ===== *)
(** * Reading JSON ([json.loads])

    The reader of the standard library on the texts without floats and without
    characters above 255, the texts of the values of [Json]; any other text is rejected.
    An object keeps the order of its fields, a key written twice included.  [loads_canonical] is the round trip with
    the canonical text.  [unique] is the hook that refuses a key written twice. *)
From S2P Require Import Prelude Text Dataset MoneyFacts Json JsonFacts.
From Stdlib Require Import Ascii.
Open Scope list_scope.
Open Scope Z_scope.

(** ** The reader *)

Definition is_blank (c : ascii) : bool := is_char 32 c || is_char 9 c || is_char 10 c || is_char 13 c.
Fixpoint skip (s : bytes) : bytes :=
  match s with
  | c :: s' => if is_blank c then skip s' else s
  | [] => []
  end.

Definition read_short (c : ascii) : option ascii :=
  if is_char 34 c || is_char 92 c || is_char 47 c then Some c
  else if is_char 110 c then Some (ascii_of_N 10) else if is_char 114 c then Some (ascii_of_N 13)
  else if is_char 116 c then Some (ascii_of_N 9) else if is_char 102 c then Some (ascii_of_N 12)
  else if is_char 98 c then Some (ascii_of_N 8) else None.
Definition read_hex (c : ascii) : option Z :=
  if is_digit c then Some (code c - 48) else if in_range 97 102 c then Some (code c - 87)
  else if in_range 65 70 c then Some (code c - 55) else None.
Definition read_char (s : bytes) : option (ascii * bytes) :=
  match s with
  | c :: s =>
      if is_char 92 c then
        match s with
        | e :: s =>
            if is_char 117 e then
              match s with
              | a :: b :: h :: k :: s =>
                  if is_char 48 a && is_char 48 b then
                    h ← read_hex h; k ← read_hex k; Some (ascii_of_N (Z.to_N (16 * h + k)), s)
                  else None
              | _ => None
              end
            else c ← read_short e; Some (c, s)
        | [] => None
        end
      else if code c <? 32 then None else Some (c, s)
  | [] => None
  end.
(** A string after its opening quote. *)
Fixpoint read_chars (fuel : nat) (s : bytes) : option (bytes * bytes) :=
  match fuel, s with
  | S fuel, c :: s' =>
      if is_char 34 c then Some ([], s')
      else
        '(c, s) ← read_char s;
        '(l, s) ← read_chars fuel s;
        Some (c :: l, s)
  | _, _ => None
  end.
Definition read_string (s : bytes) : option (string * bytes) :=
  '(l, s) ← read_chars (length s) s; Some (String.string_of_list_ascii l, s).

(** [0|[1-9][0-9]*] *)
Definition natural_pattern (l : bytes) : bool :=
  match l with
  | [c] => is_digit c
  | c :: _ => in_range 49 57 c
  | [] => false
  end.
Definition read_natural (s : bytes) : option (Z * bytes) :=
  let '(digits, s) := span is_digit s in
  if natural_pattern digits then Some (parse_digits digits, s) else None.
Definition read_number (c : ascii) (s : bytes) : option (json * bytes) :=
  if is_char 45 c then '(n, s) ← read_natural s; Some (JInt (- n), s)
  else '(n, s) ← read_natural (c :: s); Some (JInt n, s).

Fixpoint strip (word s : bytes) : option bytes :=
  match word, s with
  | [], _ => Some s
  | c :: word, d :: s => if Ascii.eqb c d then strip word s else None
  | _ :: _, [] => None
  end.
Definition read_word (s : bytes) : option (json * bytes) :=
  match strip (text "null") s, strip (text "true") s, strip (text "false") s with
  | Some s, _, _ => Some (JNull, s)
  | None, Some s, _ => Some (JBool true, s)
  | None, None, Some s => Some (JBool false, s)
  | None, None, None => None
  end.

(** The items of a list, up to its closing character. *)
Fixpoint items {A} (read : bytes -> option (A * bytes)) (close : Z) (fuel : nat) (s : bytes) : option (list A * bytes) :=
  match fuel with
  | O => None
  | S fuel =>
      '(x, s) ← read s;
      match skip s with
      | c :: s =>
          if is_char 44 c then '(l, s) ← items read close fuel s; Some (x :: l, s)
          else if is_char close c then Some ([x], s) else None
      | [] => None
      end
  end.
Definition listed {A} (read : bytes -> option (A * bytes)) (close : Z) (s : bytes) : option (list A * bytes) :=
  match skip s with
  | c :: s' => if is_char close c then Some ([], s') else items read close (length s) s
  | [] => None
  end.
Definition member (read : bytes -> option (json * bytes)) (s : bytes) : option (string * json * bytes) :=
  match skip s with
  | c :: s =>
      if is_char 34 c then
        '(k, s) ← read_string s;
        match skip s with
        | c :: s => if is_char 58 c then '(v, s) ← read s; Some (k, v, s) else None
        | [] => None
        end
      else None
  | [] => None
  end.

Fixpoint read_value (fuel : nat) (s : bytes) : option (json * bytes) :=
  match fuel with
  | O => None
  | S fuel =>
      match skip s with
      | c :: s =>
          if is_char 34 c then '(t, s) ← read_string s; Some (JStr t, s)
          else if is_char 91 c then '(l, s) ← listed (read_value fuel) 93 s; Some (JArr l, s)
          else if is_char 123 c then '(l, s) ← listed (member (read_value fuel)) 125 s; Some (JObj l, s)
          else if is_digit c || is_char 45 c then read_number c s
          else read_word (c :: s)
      | [] => None
      end
  end.

(** [json.loads(raw)]; the exception of a text that is not read is a [ValueError]. *)
Definition json_loads (raw : bytes) : res json :=
  match read_value (S (length raw)) raw with
  | Some (v, s) => if is_nil (skip s) then Ok v else Err (ValueError "JSONDecodeError")
  | None => Err (ValueError "JSONDecodeError")
  end.
(** [unique], the hook of [json.loads] that refuses a key written twice. *)
Fixpoint unique (v : json) : bool :=
  match v with
  | JArr l => forallb (fun b => b) (List.map unique l)
  | JObj l => bool_decide (NoDup l.*1) && forallb (fun b => b) (List.map (fun f => unique f.2) l)
  | _ => true
  end.
(** [bool(v)] *)
Definition truthy (v : json) : bool :=
  match v with
  | JNull => false
  | JBool b => b
  | JInt n => negb (n =? 0)
  | JStr s => negb (bool_decide (s = ""%string))
  | JArr l => negb (is_nil l)
  | JObj l => negb (is_nil l)
  end.

Example loads_spaced : json_loads (text " [ 1 , {} , -20, true ,null ] ") = Ok (JArr [JInt 1; JObj []; JInt (-20); JBool true; JNull]).
Proof. reflexivity. Qed.

(** ** Reading what was written *)

Lemma read_char_escape c x : read_char (escape c ++ x) = Some (c, x).
Proof. by destruct c as [[] [] [] [] [] [] [] []]. Qed.
Lemma escape_open c : exists d l, escape c = d :: l /\ is_char 34 d = false.
Proof. by destruct c as [[] [] [] [] [] [] [] []]; do 2 eexists. Qed.
Lemma read_chars_escapes l fuel x : (length l < fuel)%nat ->
  read_chars fuel ((l ≫= escape) ++ dquote :: x) = Some (l, x).
Proof.
  revert fuel. induction l as [|c l IH]; intros [|fuel] Hf; cbn in Hf; try lia; [done|].
  destruct (escape_open c) as (d & e & He & Hd). cbn [mbind list_bind]. rewrite <- app_assoc.
  pose proof (read_char_escape c ((l ≫= escape) ++ dquote :: x)) as Hc. rewrite He in Hc |- *.
  cbn [app] in Hc |- *. cbn [read_chars]. rewrite Hd, Hc. cbn. rewrite IH by lia. done.
Qed.
Lemma escapes_length l : (length l <= length (l ≫= escape))%nat.
Proof.
  induction l as [|c l IH]; [done|]. destruct (escape_open c) as (d & e & He & _). cbn. rewrite He, length_app. cbn in *. lia.
Qed.
Lemma read_string_quote s x : read_string ((text s ≫= escape) ++ dquote :: x) = Some (s, x).
Proof.
  unfold read_string. rewrite read_chars_escapes.
  - cbn. unfold text. by rewrite String.string_of_list_ascii_of_string.
  - rewrite length_app. cbn. pose proof (escapes_length (text s)). lia.
Qed.

Lemma read_natural_text n s : 0 <= n -> delimited s -> read_natural (text (nat_text n) ++ s) = Some (n, s).
Proof.
  intros Hn Hs. destruct (nat_text_prints n Hn) as [D V (c & l & E & Hl)]. unfold read_natural.
  replace (span is_digit (text (nat_text n) ++ s)) with (text (nat_text n), s).
  2: { destruct s as [|d s]; [rewrite app_nil_r; by rewrite span_digits_nil|].
       rewrite span_digits; [done|done|]. by apply (delimited_not_digit (d :: s) d s). }
  change (text (nat_text n)) with (chars (nat_text n)). rewrite E in D, V |- *. rewrite V.
  assert (natural_pattern (c :: l) = true) as ->; [|done]. cbn in D. bool_inv.
  destruct l; cbn; [done|]. by destruct Hl.
Qed.

Lemma skip_open c s : is_blank c = false -> skip (c :: s) = c :: s.
Proof. intros H. cbn. by rewrite H. Qed.
Lemma delimited_blank c s : delimited (c :: s) -> is_blank c = false.
Proof. by intros [->|[->| ->]]. Qed.

Definition reads {A} (read : bytes -> option (A * bytes)) (write : A -> bytes) (x : A) : Prop :=
  forall s, delimited s -> read (write x ++ s) = Some (x, s).
Definition closing (c : ascii) : Prop := c = "]"%char \/ c = "}"%char.

Lemma items_read {A} (read : bytes -> option (A * bytes)) (write : A -> bytes) (e : ascii) l fuel s :
  closing e -> l <> [] -> Forall (reads read write) l -> (length l <= fuel)%nat ->
  items read (code e) fuel (commas (write <$> l) ++ e :: s) = Some (l, s).
Proof.
  intros He Hl Hr. destruct l as [|x l]; [done|]. clear Hl. revert x fuel Hr.
  induction l as [|y l IH]; intros x [|fuel] Hr Hf; cbn in Hf; try lia; apply Forall_cons in Hr as [Hx Hr]; cbn [items].
  - cbn [commas fmap list_fmap mbind list_bind]. rewrite app_nil_r, Hx by (right; exact He). cbn [mbind option_bind].
    destruct He as [->| ->]; done.
  - change (commas (write <$> x :: y :: l)) with (write x ++ ","%char :: commas (write <$> y :: l)).
    rewrite <- app_assoc. cbn [app]. rewrite Hx by (left; reflexivity). cbn [mbind option_bind].
    change (skip (","%char :: ?t)) with (","%char :: t). cbn [is_char]. change (is_char 44 ","%char) with true. cbn iota.
    rewrite IH; [done|exact Hr|cbn; lia].
Qed.

Lemma commas_length l : (length l <= S (length (commas l)))%nat.
Proof.
  destruct l as [|x l]; [cbn; lia|]. cbn. rewrite length_app. enough (length l <= length (l ≫= fun y => ","%char :: y))%nat by lia.
  induction l as [|y l IH]; [done|]. cbn in *. rewrite length_app. lia.
Qed.
Lemma listed_read {A} (read : bytes -> option (A * bytes)) (write : A -> bytes) (e : ascii) l s :
  closing e -> (forall x, exists c u, write x = c :: u /\ is_blank c = false /\ Ascii.eqb c e = false) ->
  Forall (reads read write) l -> listed read (code e) (commas (write <$> l) ++ e :: s) = Some (l, s).
Proof.
  intros He Hw Hr. assert (Hcode : forall c, Ascii.eqb c e = false -> is_char (code e) c = false).
  { intros c Hc. unfold is_char. apply Z.eqb_neq. intros E. apply Ascii.eqb_neq in Hc. apply Hc.
    unfold code in E. apply (f_equal Z.to_N) in E. rewrite !N2Z.id in E. apply (f_equal ascii_of_N) in E.
    by rewrite !ascii_N_embedding in E. }
  destruct l as [|x l].
  - unfold listed. cbn [fmap list_fmap commas app]. rewrite skip_open by (by destruct He as [->| ->]).
    assert (is_char (code e) e = true) as -> by (unfold is_char; apply Z.eqb_refl). done.
  - unfold listed. destruct (Hw x) as (c & u & Hc & Hb & Hn).
    assert (exists t, commas (write <$> x :: l) ++ e :: s = c :: t) as [t Ht].
    { cbn [fmap list_fmap commas]. rewrite Hc. cbn [app]. by eexists. }
    rewrite Ht, skip_open, Hcode by done. rewrite <- Ht. apply items_read; [done|done|done|].
    rewrite length_app. pose proof (commas_length (write <$> x :: l)) as Hlen. rewrite length_fmap in Hlen.
    cbn [length] in *. lia.
Qed.

Lemma member_read read k v : is_nil (render v) = false -> reads read render v ->
  reads (member read) (fun f => field (f.1, render f.2)) (k, v).
Proof.
  intros _ Hv s Hs. cbn [fst snd]. rewrite field_app. unfold quote. cbn [app]. unfold member.
  rewrite skip_open by done. change (is_char 34 dquote) with true. cbn iota. rewrite <- app_assoc. cbn [app].
  rewrite read_string_quote. cbn [mbind option_bind]. rewrite skip_open by done.
  change (is_char 58 ":"%char) with true. cbn iota. rewrite Hv by done. done.
Qed.

Lemma read_int fuel n : reads (read_value (S fuel)) render (JInt n).
Proof.
  intros s Hs. cbn [render]. unfold int_text. destruct (n <? 0) eqn:Hn; bool_inv.
  - change (text (String "-" (nat_text (- n)))) with ("-"%char :: text (nat_text (- n))). cbn [app read_value].
    rewrite skip_open by done. change (read_number "-"%char (text (nat_text (- n)) ++ s) = Some (JInt n, s)).
    unfold read_number. change (is_char 45 "-"%char) with true. cbn iota. rewrite read_natural_text by (lia || done).
    cbn. do 3 f_equal. lia.
  - destruct (nat_text_head n Hn) as (c & l & Hc & Hd). pose proof (read_natural_text n s Hn Hs) as Hr.
    rewrite Hc in Hr |- *. cbn [app] in Hr |- *. cbn [read_value].
    assert (is_blank c = false /\ is_char 34 c = false /\ is_char 91 c = false /\ is_char 123 c = false /\ is_char 45 c = false)
      as (Hb & H1 & H2 & H3 & H4).
    { unfold is_digit, in_range in Hd. bool_inv. unfold is_blank, is_char.
      repeat match goal with |- context [?x =? ?y] => destruct (Z.eqb_spec x y); [lia|] end. done. }
    rewrite skip_open, H1, H2, H3, Hd by done. cbn [orb]. unfold read_number. rewrite H4, Hr. done.
Qed.

(** The text of a value is read back, by more fuel than its length. *)
Fixpoint depth (v : json) : nat :=
  match v with
  | JArr l => S (foldr (fun v n => depth v `max` n) 0 l)
  | JObj l => S (foldr (fun f n => depth f.2 `max` n) 0 l)
  | _ => 1
  end%nat.
Lemma depth_items {A} (d : A -> nat) l x : x ∈ l -> (d x <= foldr (fun v n => d v `max` n) 0 l)%nat.
Proof. induction 1; cbn; lia. Qed.

Lemma read_render v fuel : (depth v <= fuel)%nat -> reads (read_value fuel) render v.
Proof.
  revert fuel. induction v as [|b|n|t|l IH|l IH] using json_nested_ind; intros [|fuel] Hf; cbn in Hf; try lia.
  - by intros s Hs.
  - intros s Hs. by destruct b.
  - apply read_int.
  - intros s Hs. cbn [render]. unfold quote. cbn [app read_value]. rewrite skip_open by done.
    change (is_char 34 dquote) with true. cbn iota. rewrite <- app_assoc. cbn [app]. by rewrite read_string_quote.
  - intros s Hs. cbn [render app]. cbn [read_value]. rewrite skip_open by done.
    change (is_char 34 "["%char) with false. change (is_char 91 "["%char) with true. cbn iota. rewrite <- app_assoc. cbn [app].
    change (List.map render l) with (render <$> l). change 93 with (code "]"%char).
    rewrite (listed_read _ render "]"%char); [done|by left| |].
    + intros x. destruct (render_head x) as (c & u & Hc & Hx). exists c, u. split; [done|].
      by destruct c as [[] [] [] [] [] [] [] []], x as [|[]| | | |].
    + rewrite Forall_forall in IH |- *. intros x Hx. apply IH; [done|]. pose proof (depth_items depth l x Hx). lia.
  - intros s Hs. cbn [render app]. cbn [read_value]. rewrite skip_open by done.
    change (is_char 34 "{"%char) with false. change (is_char 91 "{"%char) with false.
    change (is_char 123 "{"%char) with true. cbn iota. rewrite <- app_assoc. cbn [app].
    change (List.map (fun f => field (f.1, render f.2)) l) with ((fun f => field (f.1, render f.2)) <$> l).
    change 125 with (code "}"%char). rewrite (listed_read _ (fun f => field (f.1, render f.2)) "}"%char); [done|by right| |].
    + intros [k x]. by do 2 eexists.
    + rewrite Forall_forall in IH |- *. intros [k x] Hx. apply member_read; [by destruct (render_head x) as (c & u & -> & _)|].
      apply (IH (k, x) Hx). pose proof (depth_items (fun f => depth f.2) l (k, x) Hx). cbn in *. lia.
Qed.
Lemma depth_length v : (depth v <= S (length (render v)))%nat.
Proof.
  induction v as [|b|n|t|l IH|l IH] using json_nested_ind; cbn [depth render length]; try lia.
  - enough (forall m : list json, Forall (fun v => depth v <= S (length (render v)))%nat m ->
      foldr (fun v n => depth v `max` n) 0 m <= S (length (commas (List.map render m))))%nat as Hm.
    { specialize (Hm l IH). rewrite length_app. cbn. lia. }
    intros m. destruct m as [|x m]; [cbn; lia|]. cbn [List.map commas]. intros Hm. rewrite length_app. revert x Hm.
    induction m as [|y m IHm]; intros x Hm; apply Forall_cons in Hm as [Hx Hm]; cbn [foldr List.map mbind list_bind]; [cbn; lia|].
    specialize (IHm y Hm). cbn [foldr] in IHm. rewrite length_app. cbn [length]. lia.
  - enough (forall m : list (string * json), Forall (fun f => depth f.2 <= S (length (render f.2)))%nat m ->
      foldr (fun f n => depth f.2 `max` n) 0 m <= S (length (commas (List.map (fun f => field (f.1, render f.2)) m))))%nat as Hm.
    { specialize (Hm l IH). rewrite length_app. cbn [length]. lia. }
    intros m. destruct m as [|x m]; [cbn; lia|]. cbn [List.map commas]. intros Hm. rewrite length_app. revert x Hm.
    assert (forall f : string * json, length (render f.2) <= length (field (f.1, render f.2)))%nat as Hfield.
    { intros f. unfold field. rewrite length_app. cbn. lia. }
    induction m as [|y m IHm]; intros x Hm; apply Forall_cons in Hm as [Hx Hm]; pose proof (Hfield x);
      cbn [foldr List.map mbind list_bind]; [cbn [length]; lia|].
    specialize (IHm y Hm). cbn [foldr] in IHm. rewrite length_app. cbn [length]. lia.
Qed.

Lemma loads_render v : json_loads (render v) = Ok v.
Proof.
  unfold json_loads. pose proof (read_render v (S (length (render v))) (depth_length v) [] I) as Hr.
  rewrite app_nil_r in Hr. by rewrite Hr.
Qed.
(** Reading a canonical text gives the value, its objects sorted. *)
Lemma loads_canonical v : json_loads (canonical v) = Ok (norm v).
Proof. rewrite canonical_render. apply loads_render. Qed.

(** ** Keys written once *)

Lemma unique_arr l : unique (JArr l) = true <-> Forall (fun v => unique v = true) l.
Proof. cbn [unique]. rewrite forallb_forall, Forall_forall. setoid_rewrite in_map_iff. setoid_rewrite list_elem_of_In. naive_solver. Qed.
Lemma unique_obj l : unique (JObj l) = true <-> NoDup l.*1 /\ Forall (fun f => unique f.2 = true) l.
Proof.
  cbn [unique]. rewrite andb_true, bool_decide_eq_true, forallb_forall, Forall_forall. setoid_rewrite in_map_iff.
  setoid_rewrite list_elem_of_In. naive_solver.
Qed.
Lemma unique_norm v : unique v = true -> unique (norm v) = true.
Proof.
  induction v as [| | | |l IH|l IH] using json_nested_ind; [done..| |]; cbn [norm].
  - rewrite !unique_arr. intros Hl. apply List.Forall_map. rewrite Forall_forall in *. auto.
  - rewrite !unique_obj. intros [Hn Hl]. rewrite sort_fields_perm. split.
    + replace (List.map (fun f => (f.1, norm f.2)) l).*1 with l.*1; [exact Hn|]. clear. induction l as [|x l IH]; [done|]. cbn. by f_equal.
    + apply List.Forall_map. rewrite Forall_forall in *. cbn. auto.
Qed.
(** ** Sorted values *)

Definition ordered {A} (l : list (string * A)) : Prop := Sorted (fun x y => String.leb x.1 y.1 = true) l.
Lemma insert_ordered {A} (x : string * A) l : ordered l -> ordered (insert_field x l).
Proof.
  unfold ordered. induction l as [|y l IH]; intros Hl; cbn; [by repeat constructor|].
  destruct (String.leb x.1 y.1) eqn:E; [constructor; [done|by constructor]|].
  apply Sorted_inv in Hl as [Hl Hy]. constructor; [by apply IH|].
  assert (String.leb y.1 x.1 = true) by (destruct (String.leb_total x.1 y.1); [congruence|done]).
  destruct l as [|z l]; cbn; [by constructor|]. destruct (String.leb x.1 z.1); constructor; [done|].
  by apply HdRel_inv in Hy.
Qed.
Lemma sort_ordered {A} (l : list (string * A)) : ordered (sort_fields l).
Proof. induction l as [|x l IH]; [constructor|]. by apply insert_ordered. Qed.
Lemma ordered_sort {A} (l : list (string * A)) : ordered l -> sort_fields l = l.
Proof.
  unfold ordered. induction l as [|x l IH]; intros Hl; [done|]. apply Sorted_inv in Hl as [Hl Hx]. cbn. rewrite IH by done.
  destruct l as [|y l]; [done|]. cbn. apply HdRel_inv in Hx. by rewrite Hx.
Qed.
Lemma norm_norm v : norm (norm v) = norm v.
Proof.
  induction v as [| | | |l IH|l IH] using json_nested_ind; [done..| |]; cbn [norm].
  - f_equal. rewrite List.map_map. by apply map_Forall_ext.
  - f_equal. rewrite <- (sort_fields_map norm (sort_fields _)), (ordered_sort (sort_fields _)) by apply sort_ordered.
    rewrite sort_fields_map, List.map_map. f_equal. apply map_Forall_ext.
    eapply Forall_impl; [exact IH|]. intros f Hf. cbn. by rewrite Hf.
Qed.
Lemma canonical_norm v : canonical (norm v) = canonical v.
Proof. by rewrite !canonical_render, norm_norm. Qed.
