(* ===== verification/CanonicalPolicy.v ===== *)
(** * Canonical risk policies ([phase1418/canonical_policy.py])

    A policy is a tree of Python values; [normalize] turns it into typed nodes, so that a
    number, a text and a mapping never share a form, and [payload] is the canonical text
    that is fingerprinted.  A mapping is the list of its items (its keys are distinct);
    a key that is not a [str] is [None]. *)
From S2P Require Import Prelude Decimal Text Json.
Open Scope list_scope.
Open Scope Z_scope.

Inductive pyval :=
| PNone
| PBool (b : bool)
| PInt (n : Z)
| PStr (s : string)
| PDecimal (d : dec)
| PNonFinite
| PMap (items : list (option string * pyval))
| PSeq (items : list pyval)
| POther (type_name : string).

Definition VERSION : string := "Phase1418RiskPolicyCanonical.v2".

(** [while digits[-1] == 0: digits.pop(); exponent += 1] *)
Fixpoint pop_zeros (fuel : nat) (n e : Z) : Z * Z :=
  match fuel with
  | O => (n, e)
  | S fuel => if n mod 10 =? 0 then pop_zeros fuel (n / 10) (e + 1) else (n, e)
  end.
Definition decimal_node (d : dec) : json :=
  if coef d =? 0 then JArr [JStr "decimal"; JInt 0; JStr "0"; JInt 0]
  else
    let '(n, e) := pop_zeros (Z.to_nat (Z.log2 (Z.abs (coef d)) + 1)) (Z.abs (coef d)) (dexp d) in
    JArr [JStr "decimal"; JInt (if coef d <? 0 then 1 else 0); JStr (nat_text n); JInt e].

Definition string_key {A} (x : option string * A) : bool :=
  match x.1 with Some _ => true | None => false end.
Definition keyed {A B} (f : A -> B) (x : option string * A) : string * B := (default ""%string x.1, f x.2).
(** One item of a normalized mapping. *)
Definition map_item (x : string * res json) : res json := j ← x.2; Ok (JArr [JStr x.1; j]).

Fixpoint normalize (v : pyval) : res json :=
  match v with
  | PNone => Ok (JArr [JStr "null"])
  | PBool b => Ok (JArr [JStr "bool"; JBool b])
  | PInt n => Ok (JArr [JStr "int"; JStr (int_text n)])
  | PStr s => Ok (JArr [JStr "str"; JStr s])
  | PDecimal d => Ok (decimal_node d)
  | PNonFinite => Err (ValueError "NONFINITE_POLICY_NUMBER")
  | PMap l =>
      require! forallb string_key l else "POLICY_MAPPING_KEYS_MUST_BE_STRINGS";
      items ← mapR map_item (sort_fields (List.map (keyed normalize) l));
      Ok (JArr [JStr "map"; JArr items])
  | PSeq l =>
      items ← mapR (fun r => r) (List.map normalize l);
      Ok (JArr [JStr "sequence"; JArr items])
  | POther name => Err (ValueError ("UNSUPPORTED_POLICY_VALUE:" +:+ name))
  end.

Definition payload (value : pyval) (version : string) : res bytes :=
  require! (version =? VERSION)%string else "UNSUPPORTED_POLICY_FINGERPRINT_VERSION";
  policy ← normalize value;
  Ok (canonical (JObj [("schema"%string, JStr version); ("policy"%string, policy)])).
