(* ===== verification/CanonicalPolicyFacts.v ===== *)
(** * Canonical policies are exact

    Two policies have the same payload exactly when they are equal as typed values:
    numbers by their numeric value, mappings by their items in the order of the keys,
    sequences element by element. *)
From S2P Require Import Prelude Decimal DecimalFacts Text Dataset MoneyFacts Json JsonFacts CanonicalPolicy.
Open Scope list_scope.
Open Scope Z_scope.

Section pyval_ind.
Context (P : pyval -> Prop).
Context (Hnone : P PNone) (Hbool : forall b, P (PBool b)) (Hint : forall n, P (PInt n))
  (Hstr : forall s, P (PStr s)) (Hdec : forall d, P (PDecimal d)) (Hnf : P PNonFinite)
  (Hmap : forall l, Forall (fun x => P x.2) l -> P (PMap l)) (Hseq : forall l, Forall P l -> P (PSeq l))
  (Hother : forall s, P (POther s)).
Fixpoint pyval_nested_ind (v : pyval) : P v :=
  match v with
  | PNone => Hnone
  | PBool b => Hbool b
  | PInt n => Hint n
  | PStr s => Hstr s
  | PDecimal d => Hdec d
  | PNonFinite => Hnf
  | PMap l => Hmap l ((fix go l := match l return Forall (fun x => P x.2) l with
                       | [] => List.Forall_nil _
                       | x :: l => List.Forall_cons _ _ _ (pyval_nested_ind x.2) (go l)
                       end) l)
  | PSeq l => Hseq l ((fix go l := match l return Forall P l with
                       | [] => List.Forall_nil _
                       | x :: l => List.Forall_cons _ _ _ (pyval_nested_ind x) (go l)
                       end) l)
  | POther s => Hother s
  end.
End pyval_ind.

(** ** Equality of policies *)

(** The items of a mapping in the order of their keys. *)
Definition items_of (l : list (option string * pyval)) : list (string * pyval) :=
  sort_fields (List.map (keyed id) l).

Inductive policy_eq : pyval -> pyval -> Prop :=
| pe_none : policy_eq PNone PNone
| pe_bool b : policy_eq (PBool b) (PBool b)
| pe_int n : policy_eq (PInt n) (PInt n)
| pe_str s : policy_eq (PStr s) (PStr s)
| pe_decimal d e : dval d == dval e -> policy_eq (PDecimal d) (PDecimal e)
| pe_map l m : Forall2 (fun x y => x.1 = y.1 /\ policy_eq x.2 y.2) (items_of l) (items_of m) ->
    policy_eq (PMap l) (PMap m)
| pe_seq l m : Forall2 policy_eq l m -> policy_eq (PSeq l) (PSeq m).

(** ** Numbers *)

Lemma pop_zeros_spec fuel n e : 0 < n < 2 ^ Z.of_nat fuel ->
  let '(m, x) := pop_zeros fuel n e in 0 < m /\ m mod 10 <> 0 /\ e <= x /\ n = m * 10 ^ (x - e).
Proof.
  revert n e. induction fuel as [|fuel IH]; intros n e Hn; cbn [pop_zeros].
  { change (2 ^ Z.of_nat 0) with 1 in Hn. lia. }
  destruct (n mod 10 =? 0) eqn:E; bool_inv.
  - rewrite Nat2Z.inj_succ, Z.pow_succ_r in Hn by lia.
    pose proof (Z.div_mod n 10 ltac:(lia)) as Hd. rewrite E in Hd.
    specialize (IH (n / 10) (e + 1) ltac:(lia)). destruct (pop_zeros fuel (n / 10) (e + 1)) as [m x].
    destruct IH as (H1 & H2 & H3 & H4). split_and!; [done|done|lia|].
    replace (x - e) with (Z.succ (x - (e + 1))) by lia. rewrite Z.pow_succ_r by lia. lia.
  - rewrite Z.sub_diag. split_and!; lia.
Qed.

(** A stripped coefficient and its exponent are determined by the value. *)
Lemma stripped_unique m n x y : m mod 10 <> 0 -> n mod 10 <> 0 ->
  inject_Z m * p10 x == inject_Z n * p10 y -> m = n /\ x = y.
Proof.
  assert (Hlt : forall m n x y, m mod 10 <> 0 -> x < y -> ~ inject_Z m * p10 x == inject_Z n * p10 y).
  { clear. intros m n x y Hm Hxy E. rewrite (p10_split x y) in E by lia.
    rewrite Qmult_assoc, <- inject_Z_mult in E. apply scaled_eq in E. apply Hm. subst m.
    replace (y - x) with (Z.succ (y - x - 1)) by lia. rewrite Z.pow_succ_r by lia.
    replace (n * (10 * 10 ^ (y - x - 1))) with (n * 10 ^ (y - x - 1) * 10) by lia. by apply Z.mod_mul. }
  intros Hm Hn E. destruct (Z.lt_total x y) as [H|[->|H]].
  - by destruct (Hlt m n x y).
  - by apply scaled_eq in E.
  - by destruct (Hlt n m y x).
Qed.

Lemma log2_fuel n : 0 < n -> n < 2 ^ Z.of_nat (Z.to_nat (Z.log2 n + 1)).
Proof.
  intros Hn. pose proof (Z.log2_nonneg n). rewrite Z2Nat.id by lia.
  rewrite Z.add_1_r. apply Z.log2_spec, Hn.
Qed.

Lemma nat_text_inj n m : 0 <= n -> 0 <= m -> nat_text n = nat_text m -> n = m.
Proof.
  intros Hn Hm E. apply (nat_text_cancel n m [] []); [done..|]. by rewrite E.
Qed.

Lemma int_text_inj n m : int_text n = int_text m -> n = m.
Proof. intros E. apply (int_text_cancel n m [] []); [done..|]. by rewrite E. Qed.

Record decimal_parts (d : dec) (sign n e : Z) : Prop := {
  dp_value : dval d == inject_Z ((if sign =? 1 then -1 else 1) * n) * p10 e;
  dp_sign : sign = 0 \/ sign = 1;
  dp_positive : 0 < n;
  dp_stripped : n mod 10 <> 0
}.

Lemma decimal_node_parts d : coef d <> 0 -> exists sign n e,
  decimal_node d = JArr [JStr "decimal"; JInt sign; JStr (nat_text n); JInt e] /\ decimal_parts d sign n e.
Proof.
  intros Hd. unfold decimal_node. rewrite (proj2 (Z.eqb_neq _ _) Hd).
  assert (Hp : 0 < Z.abs (coef d)) by lia.
  pose proof (pop_zeros_spec _ (Z.abs (coef d)) (dexp d) (conj Hp (log2_fuel _ Hp))) as H.
  destruct (pop_zeros _ _ _) as [n e]. destruct H as (H1 & H2 & H3 & H4).
  exists (if coef d <? 0 then 1 else 0), n, e. split; [done|]. split; [|destruct (_ <? _); auto|done|done].
  unfold dval. rewrite (p10_split (dexp d) e) by done.
  rewrite Qmult_assoc, <- inject_Z_mult. apply scaled_eq.
  destruct (coef d <? 0) eqn:E; bool_inv; cbn [Z.eqb Pos.eqb]; lia.
Qed.

Lemma decimal_node_zero d : coef d = 0 -> decimal_node d = JArr [JStr "decimal"; JInt 0; JStr "0"; JInt 0].
Proof. intros H. unfold decimal_node. by rewrite H. Qed.
Lemma nat_text_nonzero n : 0 < n -> nat_text n <> "0"%string.
Proof. intros Hn E. apply (nat_text_inj n 0) in E; lia. Qed.

Lemma signed_stripped (b : bool) n : n mod 10 <> 0 -> ((if b then -1 else 1) * n) mod 10 <> 0.
Proof.
  intros Hn H. apply Hn, Z.mod_divide; [done|]. apply Z.mod_divide in H as [k H]; [|done].
  destruct b; [exists (- k)|exists k]; lia.
Qed.

Lemma decimal_node_eq d e : decimal_node d = decimal_node e <-> dval d == dval e.
Proof.
  destruct (Z.eq_dec (coef d) 0) as [Hd|Hd], (Z.eq_dec (coef e) 0) as [He|He].
  - rewrite !decimal_node_zero, !dval_zero by done. by split.
  - rewrite (decimal_node_zero d Hd), (dval_zero d Hd).
    destruct (decimal_node_parts e He) as (sg & n & x & -> & []). split.
    + injection 1 as _ H _. by apply nat_text_nonzero in dp_positive0.
    + intros H. symmetry in H. by apply coef_zero in H.
  - rewrite (decimal_node_zero e He), (dval_zero e He).
    destruct (decimal_node_parts d Hd) as (sg & n & x & -> & []). split.
    + injection 1 as _ H _. by apply nat_text_nonzero in dp_positive0.
    + intros H. by apply coef_zero in H.
  - destruct (decimal_node_parts d Hd) as (sg & n & x & -> & [V1 S1 P1 T1]).
    destruct (decimal_node_parts e He) as (sg' & n' & x' & -> & [V2 S2 P2 T2]). split.
    + injection 1 as -> H ->. apply nat_text_inj in H as ->; [|lia..]. by rewrite V1, V2.
    + rewrite V1, V2. intros H. apply stripped_unique in H as [H ->].
      * assert (sg = sg' /\ n = n') as [-> ->]; [|done].
        destruct S1 as [->| ->], S2 as [->| ->]; cbn in H; lia.
      * by apply signed_stripped.
      * by apply signed_stripped.
Qed.

(** ** Items and sequences *)

Lemma normalized_items l : sort_fields (List.map (keyed normalize) l) =
  List.map (fun x => (x.1, normalize x.2)) (items_of l).
Proof. unfold items_of. by rewrite sort_fields_map, List.map_map. Qed.

(** The forms determine the values they come from. *)
Definition exact (v : pyval) : Prop := forall w a b, normalize v = Ok a -> normalize w = Ok b ->
  (a = b <-> policy_eq v w).

(** The normalized items of a mapping, and of a sequence. *)
Lemma items_Forall2 (l : list (string * pyval)) js :
  mapR map_item (List.map (fun x => (x.1, normalize x.2)) l) = Ok js ->
  Forall2 (fun x j => exists n, normalize x.2 = Ok n /\ j = JArr [JStr x.1; n]) l js.
Proof.
  intros E. apply mapR_Forall2 in E. change (List.map ?f l) with (f <$> l) in E.
  apply Forall2_fmap_l in E. eapply Forall2_impl; [exact E|]. intros x j H. unfold map_item in H.
  apply bind_Ok in H as (n & Hn & H). injection H as <-. by exists n.
Qed.
Lemma sequence_Forall2 l js : mapR (fun r => r) (List.map normalize l) = Ok js ->
  Forall2 (fun x j => normalize x = Ok j) l js.
Proof.
  intros E. apply mapR_Forall2 in E. change (List.map ?f l) with (f <$> l) in E. by apply Forall2_fmap_l in E.
Qed.

Lemma items_exact (l m : list (string * pyval)) ja jb : Forall (fun x => exact x.2) l ->
  Forall2 (fun x j => exists n, normalize x.2 = Ok n /\ j = JArr [JStr x.1; n]) l ja ->
  Forall2 (fun x j => exists n, normalize x.2 = Ok n /\ j = JArr [JStr x.1; n]) m jb ->
  (ja = jb <-> Forall2 (fun x y => x.1 = y.1 /\ policy_eq x.2 y.2) l m).
Proof.
  intros Hl E1. revert m jb Hl. induction E1 as [|[k v] j l ja (n & En & ->) _ IH]; intros m jb Hl E2;
    destruct E2 as [|[k' v'] j' m jb (n' & En' & ->) E2]; try (by split; [done|intros H; inversion H]).
  apply Forall_cons in Hl as [Hv Hl]. cbn [fst snd] in *. rewrite Forall2_cons.
  rewrite <- (Hv v' n n' En En'), <- (IH m jb Hl E2). cbn [fst snd]. naive_solver.
Qed.
Lemma sequence_exact l m ja jb : Forall exact l ->
  Forall2 (fun x j => normalize x = Ok j) l ja -> Forall2 (fun x j => normalize x = Ok j) m jb ->
  (ja = jb <-> Forall2 policy_eq l m).
Proof.
  intros Hl E1. revert m jb Hl. induction E1 as [|v n l ja En _ IH]; intros m jb Hl E2;
    destruct E2 as [|v' n' m jb En' E2]; try (by split; [done|intros H; inversion H]).
  apply Forall_cons in Hl as [Hv Hl]. rewrite Forall2_cons, <- (Hv v' n n' En En'), <- (IH m jb Hl E2).
  naive_solver.
Qed.

(** Each form carries its type. *)
Lemma normalize_tag v j : normalize v = Ok j -> exists l, j = JArr (JStr (match v with
  | PNone => "null" | PBool _ => "bool" | PInt _ => "int" | PStr _ => "str" | PDecimal _ => "decimal"
  | PMap _ => "map" | PSeq _ => "sequence" | _ => "" end) :: l) /\
  match v with PNonFinite | POther _ => False | _ => True end.
Proof.
  destruct v; cbn [normalize]; intros E; try done; ok_inv; try by eexists.
  unfold decimal_node. destruct (_ =? 0); [by eexists|]. destruct (pop_zeros _ _ _). by eexists.
Qed.

Lemma normalize_exact v : exact v.
Proof.
  induction v as [|b|n|s|d| |l IH|l IH|s] using pyval_nested_ind; intros w a b' Ea Eb;
    destruct (normalize_tag _ _ Ea) as (la & Ha & Hva), (normalize_tag _ _ Eb) as (lb & Hb & Hvb);
    destruct w as [|b2|n2|s2|d2| |l2|l2|s2]; try done;
    try (by subst; split; [done|intros H; inversion H]); clear Ha Hb Hva Hvb la lb; cbn [normalize] in Ea, Eb.
  - injection Ea as <-. injection Eb as <-. split; [constructor|done].
  - injection Ea as <-. injection Eb as <-. split; [injection 1 as <-; constructor|intros H; by inversion H].
  - injection Ea as <-. injection Eb as <-. split.
    + injection 1 as H. apply int_text_inj in H as ->. constructor.
    + intros H. by inversion H.
  - injection Ea as <-. injection Eb as <-. split; [injection 1 as <-; constructor|intros H; by inversion H].
  - injection Ea as <-. injection Eb as <-. rewrite decimal_node_eq. split; [by constructor|intros H; by inversion H].
  - rewrite normalized_items in Ea, Eb. apply bind_Ok in Ea as (_ & _ & Ea). apply bind_Ok in Eb as (_ & _ & Eb).
    apply bind_Ok in Ea as (ja & Ja & Ea). apply bind_Ok in Eb as (jb & Jb & Eb).
    injection Ea as <-. injection Eb as <-. apply items_Forall2 in Ja, Jb.
    assert (Hl : Forall (fun x => exact x.2) (items_of l)).
    { unfold items_of. rewrite sort_fields_perm. change (List.map ?f l) with (f <$> l).
      apply Forall_fmap. eapply Forall_impl; [exact IH|]. by intros [k v]. }
    pose proof (items_exact _ _ _ _ Hl Ja Jb) as H. split.
    + injection 1 as E. constructor. by apply H.
    + intros E. inversion E as [| | | | |? ? E'|]; subst. by apply H in E' as ->.
  - apply bind_Ok in Ea as (ja & Ja & Ea). apply bind_Ok in Eb as (jb & Jb & Eb).
    injection Ea as <-. injection Eb as <-. apply sequence_Forall2 in Ja, Jb.
    pose proof (sequence_exact _ _ _ _ IH Ja Jb) as H. split.
    + injection 1 as E. constructor. by apply H.
    + intros E. inversion E as [| | | | | |? ? E']; subst. by apply H in E' as ->.
Qed.

(** The forms hold no object, so that their canonical text determines them. *)
Lemma mapR_norm {A} (f : A -> res json) l js : (forall x j, x ∈ l -> f x = Ok j -> norm j = j) ->
  mapR f l = Ok js -> List.map norm js = js.
Proof.
  revert js. induction l as [|x l IH]; intros js Hf E; cbn in E; ok_inv; [done|].
  cbn. f_equal; [eapply Hf; [|done]; set_solver|]. apply IH; [|done]. intros y j Hy. apply Hf. set_solver.
Qed.

Lemma normalize_norm v : forall j, normalize v = Ok j -> norm j = j.
Proof.
  induction v as [|b|n|s|d| |l IH|l IH|s] using pyval_nested_ind; intros j E; cbn [normalize] in E; try done;
    try (by injection E as <-).
  - injection E as <-. unfold decimal_node. destruct (_ =? 0); [done|]. by destruct (pop_zeros _ _ _).
  - rewrite normalized_items in E. apply bind_Ok in E as (_ & _ & E). apply bind_Ok in E as (js & Js & E).
    injection E as <-. cbn [norm List.map]. rewrite (fun H => mapR_norm map_item _ js H Js); [done|].
    intros [k r] j Hin. unfold map_item. cbn [fst snd]. intros Hj. apply bind_Ok in Hj as (n & Hn & Hj).
    injection Hj as <-. cbn [norm List.map]. enough (norm n = n) as -> by done. revert n Hn.
    change (List.map ?f ?l) with (f <$> l) in Hin. apply list_elem_of_fmap in Hin as ([k' v] & Hp & Hin).
    injection Hp as -> ->. cbn [snd]. unfold items_of in Hin. rewrite sort_fields_perm in Hin.
    change (List.map ?f l) with (f <$> l) in Hin. apply list_elem_of_fmap in Hin as (x & Hx & Hin).
    injection Hx as -> ->. rewrite Forall_forall in IH. exact (IH x Hin).
  - apply bind_Ok in E as (js & Js & E). injection E as <-. cbn [norm List.map].
    rewrite (fun H => mapR_norm _ _ js H Js); [done|]. intros r j Hin ->.
    change (List.map ?f l) with (f <$> l) in Hin. apply list_elem_of_fmap in Hin as (v & Hv & Hin).
    rewrite Forall_forall in IH. by eapply IH.
Qed.

Lemma payload_eq v w version p q : payload v version = Ok p -> payload w version = Ok q ->
  (p = q <-> policy_eq v w).
Proof.
  unfold payload. intros Ep Eq. apply bind_Ok in Ep as (_ & _ & Ep). apply bind_Ok in Eq as (_ & _ & Eq).
  apply bind_Ok in Ep as (a & Ea & Ep). apply bind_Ok in Eq as (b & Eb & Eq).
  apply Ok_inj in Ep as <-, Eq as <-. rewrite canonical_inj, <- (normalize_exact v w a b Ea Eb).
  cbn [norm List.map fst snd sort_fields insert_field].
  rewrite (normalize_norm _ _ Ea), (normalize_norm _ _ Eb). split; [|by intros ->]. by injection 1.
Qed.
