(* ===== verification/Research.v ===== *)
(** * Research windows and evaluation ([phase1415/research.py], [phase14/reporting.py])

    The predeclared window of an evaluation and its chronological splits, the data gates
    of a dataset, the summaries, and the result of one (symbol, strategy, window) pair.
    The Wilson interval of a [Summary] is computed in floating point and is not
    represented; the adjusted bound of [qualify] is the parameter [uncertain], as in the
    five-minute engine.  [model_dump_json], the serializer of a third-party package that
    fingerprints records, is the interface [Dump]. *)
From S2P Require Import Prelude Decimal DecimalFacts Text Dataset Costs Phase14 Strategies Execution.
Open Scope list_scope.
Open Scope Z_scope.

(** [value.model_dump_json()] *)
Class Dump (A : Type) := model_dump_json : A -> string.

(** ** Calendar months *)

(** The day number of a date of the proleptic Gregorian calendar. *)
Definition civil_days (y m d : Z) : Z :=
  let y := if m <=? 2 then y - 1 else y in
  let era := y / 400 in
  let yoe := y mod 400 in
  let doy := (153 * (if 2 <? m then m - 3 else m + 9) + 2) / 5 + d - 1 in
  let doe := yoe * 365 + yoe / 4 - yoe / 100 + doy in
  era * 146097 + doe - 719468.
Definition leap (y : Z) : bool := (y mod 4 =? 0) && (negb (y mod 100 =? 0) || (y mod 400 =? 0)).
(** [calendar.monthrange(year, month)[1]] *)
Definition month_days (y m : Z) : Z :=
  if m =? 2 then (if leap y then 29 else 28)
  else if (m =? 4) || (m =? 6) || (m =? 9) || (m =? 11) then 30 else 31.

(** The local date some months before a local date. *)
Definition date_before_civil (date : Z * Z * Z) (months : Z) : Z :=
  let '(y, m, d) := date in
  let number := y * 12 + m - 1 - months in
  let year := number / 12 in
  let month0 := number mod 12 in
  civil_days year (month0 + 1) (Z.min d (month_days year (month0 + 1))).
Definition date_before (date months : Z) : Z := date_before_civil (civil date) months.
(** [months_before] of the NSE form of an instant, back in UTC. *)
Definition months_before (end_ months : Z) : res Z :=
  require! (months =? 6) || (months =? 12) else "SIX_OR_TWELVE_MONTH_WINDOW_REQUIRED";
  Ok (nse_combine (date_before (nse_date end_) months) (nse_time end_)).

(** ** Windows *)

Record ResearchWindow := mkWindow {
  rw_months : Z; rw_end : Z; rw_validation_start : Z; rw_holdout_start : Z; rw_folds : list Z;
  rw_parameters_frozen_at : Z
}.
Definition window_start (w : ResearchWindow) : res Z := months_before (rw_end w) (rw_months w).

Definition ist_midnight (t : Z) : bool := nse_time t =? 0.

Definition window_valid (w : ResearchWindow) : res ResearchWindow :=
  require! (rw_months w =? 6) || (rw_months w =? 12) else "INVALID_FIELD";
  require! forallb ist_midnight (rw_end w :: rw_validation_start w :: rw_holdout_start w :: rw_folds w)
    else "IST_MIDNIGHT_BOUNDARY_REQUIRED";
  start ← window_start w;
  require! (start <? rw_validation_start w) && (rw_validation_start w <? rw_holdout_start w) &&
           (rw_holdout_start w <? rw_end w) else "OUT_OF_SAMPLE_NOT_AVAILABLE";
  reject! rw_validation_start w <? rw_parameters_frozen_at w as "PARAMETERS_NOT_FROZEN_BEFORE_VALIDATION";
  require! (Z.of_nat (length (rw_folds w)) =? 4) &&
           bool_decide (head (rw_folds w) = Some (rw_holdout_start w)) &&
           bool_decide (last (rw_folds w) = Some (rw_end w)) && strictly_sorted (rw_folds w)
    else "THREE_PREDECLARED_HOLDOUT_FOLDS_REQUIRED";
  Ok w.

Definition standard_window (end_ months : Z) : res ResearchWindow :=
  require! ist_midnight end_ else "IST_MIDNIGHT_END_REQUIRED";
  start ← months_before end_ months;
  let days := (end_ - start) / DAY in
  let validation := start + days * 5 / 10 * DAY in
  let holdout := start + days * 7 / 10 * DAY in
  let remaining := (end_ - holdout) / DAY in
  window_valid (mkWindow months end_ validation holdout
    [holdout; holdout + remaining / 3 * DAY; holdout + 2 * remaining / 3 * DAY; end_] start).

(** ** Datasets *)

Record Dataset_ := mkDataset_ {
  rd_series : Series; rd_sha256 : string; rd_acquired_at : Z; rd_calendar_version : string;
  rd_calendar_source : string; rd_calendar_verified : bool; rd_corporate_action_evidence : string;
  rd_missing_sessions : Z; rd_duplicate_candles : Z; rd_out_of_order : Z; rd_quarantined : bool;
  rd_mapping_verified : bool
}.

Definition research_dataset_valid `{Dump Series} (d : Dataset_) : res Dataset_ :=
  require! hash_ok (rd_sha256 d) && (1 <=? len (rd_calendar_version d)) &&
           (1 <=? len (rd_calendar_source d)) && (1 <=? len (rd_corporate_action_evidence d)) &&
           (0 <=? rd_missing_sessions d) && (0 <=? rd_duplicate_candles d) && (0 <=? rd_out_of_order d)
    else "INVALID_FIELD";
  require! (digest (model_dump_json (rd_series d)) =? rd_sha256 d)%string else "DATASET_FINGERPRINT_MISMATCH";
  reject! rd_acquired_at d <? sr_to (rd_series d) as "ACQUISITION_BEFORE_COMPLETED_DATA";
  Ok d.

(** ** Summaries *)

Record Summary := mkSummary {
  su_basic : Metrics; su_gross : dec; su_average_return : option dec; su_profit_factor : option dec;
  su_average_holding_seconds : option dec; su_exposure : dec; su_max_consecutive_wins : Z;
  su_max_consecutive_losses : Z
}.

(** One trade of the runs scan: [(win, loss, max_win, max_loss)]. *)
Definition run_step (st : Z * Z * Z * Z) (t : Trade) : Z * Z * Z * Z :=
  let '(win, loss, max_win, max_loss) := st in
  let win := if dltb d0 (t_net t) then win + 1 else 0 in
  let loss := if dltb (t_net t) d0 then loss + 1 else 0 in
  (win, loss, Z.max max_win win, Z.max max_loss loss).
Definition return_of (t : Trade) : res dec :=
  basis ← pmul (t_entry t) (dZ (t_quantity t)); pdiv (t_net t) basis.

Definition summarize (trades : list Trade) (capital : dec) (seconds : Z) : res Summary :=
  let count := Z.of_nat (length trades) in
  basic ← metrics trades capital;
  positives ← psum ((fun t => dmax (t_net t) d0) <$> trades);
  shortfall ← psum ((fun t => dmin (t_net t) d0) <$> trades);
  negatives ← dneg PRECISION shortfall;
  let holding := foldr Z.add 0 ((fun t => (t_exit_at t - t_entry_at t) / SECOND) <$> trades) in
  let '(_, _, max_win, max_loss) := foldl run_step (0, 0, 0, 0) trades in
  gross ← psum (t_gross <$> trades);
  average ← (if count =? 0 then Ok None
             else returns ← mapR return_of trades; total ← psum returns; Some <$> pdiv total (dZ count));
  factor ← (if deqb negatives d0 then Ok None else Some <$> pdiv positives negatives);
  held ← (if count =? 0 then Ok None else Some <$> pdiv (dZ holding) (dZ count));
  exposure ← (if seconds =? 0 then Ok d0 else pdiv (dZ holding) (dZ seconds));
  Ok (mkSummary basic gross average factor held exposure max_win max_loss).

(** ** Results *)

Record Result := mkResult {
  rs_family_run_id : option string; rs_hypothesis_family_size : option Z; rs_symbol : string;
  rs_strategy_id : identifier; rs_strategy_version : string; rs_strategy_hash : string;
  rs_window : ResearchWindow; rs_policy_hash : string; rs_dataset_hash : option string;
  rs_data_status : string; rs_synthetic : option bool; rs_qualified : bool; rs_reasons : list string;
  rs_coverage : option dec; rs_training : option Summary; rs_validation : option Summary;
  rs_holdout : option Summary; rs_total : option Summary; rs_qualification : option Qualification;
  rs_trades : list Trade
}.

Section evaluate.
Context `{Dump Definition_} `{Dump Policy}.
Context (uncertain : Metrics -> bool).
Context (symbol : string) (definition : Definition_) (window : ResearchWindow).

(** The identity of the pair with a status and its reasons, without performance. *)
Definition bare_result (policy : Policy) (dataset : option Dataset_) (status : string)
    (reasons : list string) : Result :=
  mkResult None None symbol (df_identifier definition) "1" (digest (model_dump_json definition)) window
    (digest (model_dump_json policy)) (rd_sha256 <$> dataset) status
    ((sr_synthetic ∘ rd_series) <$> dataset) false reasons None None None None None None [].

Definition boundaries : list Z := rw_validation_start window :: rw_folds window.

(** The data gates, in the order of the source. *)
Definition gate_reasons (start : Z) (dataset : Dataset_) : list string :=
  let series := rd_series dataset in
  reason_if (negb (sr_symbol series =? symbol)%string || negb (sr_from series =? start) ||
             negb (sr_to series =? rw_end window)) "INSUFFICIENT_HISTORY_OR_IDENTITY_MISMATCH" ++
  reason_if (negb (rd_calendar_verified dataset)) "CALENDAR_NOT_VERIFIED" ++
  reason_if (negb (rd_mapping_verified dataset)) "MASTER_UNAVAILABLE" ++
  reason_if (negb (sr_corporate_actions_reviewed series) ||
             (rd_corporate_action_evidence dataset =? "UNRESOLVED")%string) "CORPORATE_ACTION_REVIEW_REQUIRED" ++
  reason_if (rd_quarantined dataset || negb (rd_missing_sessions dataset =? 0) ||
             negb (rd_duplicate_candles dataset =? 0) || negb (rd_out_of_order dataset =? 0))
    "DATA_QUARANTINED" ++
  reason_if (negb (is_nil (quality series).1) || negb (is_nil (quality series).2)) "DATA_INCOMPLETE" ++
  reason_if (existsb (fun s => existsb (fun b => (ds_start s <? b) && (b <? ds_end s)) boundaries)
               (sr_sessions series)) "SPLIT_CUTS_SESSION".

(** [part(a, b)] *)
Definition entered_in (a b : Z) (t : Trade) : bool := (a <=? t_entry_at t) && (t_entry_at t <? b).
Definition session_seconds (series : Series) (a b : Z) : Z :=
  foldr Z.add 0 ((fun s => (ds_end s - ds_start s) / SECOND) <$>
    List.filter (fun s => (a <=? ds_start s) && (ds_start s <? b)) (sr_sessions series)).
Definition part (series : Series) (trades : list Trade) (capital : dec) (a b : Z) : res Summary :=
  summarize (List.filter (entered_in a b) trades) capital (session_seconds series a b).

(** [except ValueError]: a signal of the decimal module is not one. *)
Definition straddles (trades : list Trade) : bool :=
  existsb (fun t => existsb (fun b => (t_signal_at t <? b) && (b <? t_exit_at t)) boundaries) trades.

Definition measured (policy : Policy) (dataset : Dataset_) (settings : Settings) (start : Z)
    (simulation : Execution) : res Result :=
  let series := rd_series dataset in
  let trades := x_trades simulation in
  if straddles trades then
    Ok (bare_result policy (Some dataset) "QUARANTINED" ["SPLIT_TRADE_LEAKAGE"%string])
  else
    q ← qualify uncertain trades (se_capital settings) (rw_holdout_start window) (rw_folds window) policy;
    let reasons := q_reasons q ++
      reason_if (dltb (po_max_drawdown policy) (x_marked_drawdown simulation)) "MARKED_DRAWDOWN_LIMIT" ++
      reason_if (sr_synthetic series) "SYNTHETIC_NOT_HISTORICAL_PERFORMANCE" in
    let part := part series trades (se_capital settings) in
    training ← part start (rw_validation_start window);
    validation ← part (rw_validation_start window) (rw_holdout_start window);
    holdout ← part (rw_holdout_start window) (rw_end window);
    total ← part start (rw_end window);
    Ok (mkResult None None symbol (df_identifier definition) "1" (digest (model_dump_json definition))
          window (digest (model_dump_json policy)) (Some (rd_sha256 dataset))
          (if sr_synthetic series then "SYNTHETIC" else "LOCAL_VERIFIED") (Some (sr_synthetic series))
          (is_nil reasons) reasons (Some (dZ 1)) (Some training) (Some validation) (Some holdout)
          (Some total) (Some q) trades).

Definition evaluate (dataset : option Dataset_) (settings : Settings) (tariff : IntradayCostSchedule)
    (policy : Policy) : res Result :=
  match dataset with
  | None => Ok (bare_result policy None "UNAVAILABLE"
      ["NO_SOURCED_HISTORY_OR_RESOLVED_MAPPING"; "OUT_OF_SAMPLE_NOT_AVAILABLE"]%string)
  | Some dataset =>
      start ← window_start window;
      let reasons := gate_reasons start dataset in
      if negb (is_nil reasons) then Ok (bare_result policy (Some dataset) "QUARANTINED" reasons)
      else
        let rejected := Ok (bare_result policy (Some dataset) "QUARANTINED" ["EXECUTION_OR_DATA_REJECTED"%string]) in
        match execute (rd_series dataset) definition settings tariff with
        | Err (ValueError _) => rejected
        | Err e => Err e
        | Ok simulation =>
            if negb (is_nil (x_unresolved simulation)) then rejected
            else measured policy dataset settings start simulation
        end
  end.
End evaluate.

(** ** The published status ([phase1417/qualification.py], [primary]) *)

Definition status_of_reason : list (string * string) :=
  [("OUT_OF_SAMPLE_NOT_AVAILABLE", "REJECTED_OUT_OF_SAMPLE");
   ("INSUFFICIENT_OOS_TRADES", "REJECTED_TRADE_COUNT");
   ("OOS_WIN_RATE_BELOW_THRESHOLD", "REJECTED_WIN_RATE");
   ("NON_POSITIVE_NET_EXPECTANCY", "REJECTED_NET_PROFIT");
   ("DRAWDOWN_LIMIT", "REJECTED_DRAWDOWN");
   ("MARKED_DRAWDOWN_LIMIT", "REJECTED_DRAWDOWN");
   ("MULTIPLE_TESTING_UNCERTAINTY", "REJECTED_CONFIDENCE");
   ("UNSTABLE_OR_INSUFFICIENT_WALK_FORWARD", "REJECTED_OUT_OF_SAMPLE")]%string.

Definition primary (r : Result) : string :=
  if (rs_data_status r =? "UNAVAILABLE")%string then "DATA_UNAVAILABLE"
  else if (rs_data_status r =? "QUARANTINED")%string then "DATA_QUARANTINED"
  else if default false (rs_synthetic r) then "INSUFFICIENT_EVIDENCE"
  else
    match List.find (fun '(reason, _) => existsb (String.eqb reason) (rs_reasons r)) status_of_reason with
    | Some (_, status) => status
    | None =>
        if negb (is_nil (rs_reasons r)) then "REJECTED_DATA_QUALITY"
        else if rs_qualified r && match rs_qualification r with Some _ => true | None => false end
             then "QUALIFIED" else "INSUFFICIENT_EVIDENCE"
    end.
