(* ===== verification/ResearchFacts.v ===== *)
(** * Theory of windows and evaluation

    The standard windows are valid for every trading midnight of 2015-2034, by exhaustive
    evaluation; the outcome of an evaluation, by cases. *)
From S2P Require Import Prelude Decimal DecimalFacts Text Dataset Costs Errors.
From S2P Require Import Phase14 Phase14Facts Strategies Execution Research.
Open Scope list_scope.
Open Scope Z_scope.

(** ** Windows *)

(** The dates from 2015-01-01 to 2034-12-31. *)
Definition FIRST_DAY : Z := 16436.
Definition DAYS : Z := 7305.

(** Six months last 181 to 184 days, twelve 365 or 366. *)
Definition between (lo hi x : Z) : bool := (lo <=? x) && (x <=? hi).
Definition span_ok (day : Z) : bool :=
  let date := civil day in
  between 181 184 (day - date_before_civil date 6) && between 365 366 (day - date_before_civil date 12).
Lemma spans_ok : forallb span_ok (seqZ FIRST_DAY DAYS) = true.
Proof. vm_compute. reflexivity. Qed.

Lemma forallb_range (f : Z -> bool) a n d : forallb f (seqZ a n) = true -> a <= d < a + n -> f d = true.
Proof. intros H Hd. rewrite forallb_forall in H. apply H, list_elem_of_In, elem_of_seqZ. lia. Qed.

Lemma date_before_span day months : FIRST_DAY <= day < FIRST_DAY + DAYS -> months = 6 \/ months = 12 ->
  181 <= day - date_before day months <= 366.
Proof.
  intros Hd Hm. pose proof (forallb_range span_ok FIRST_DAY DAYS day spans_ok Hd) as H.
  unfold span_ok, between in H. cbv zeta in H. unfold date_before.
  generalize dependent (civil day). intros date H. bool_inv. destruct Hm as [->| ->]; lia.
Qed.

Lemma midnight_combine t : ist_midnight t = true -> t = nse_combine (nse_date t) 0.
Proof.
  unfold ist_midnight, nse_combine, nse_date, nse_time. intros H. bool_inv.
  pose proof (Z.div_mod (t + NSE_OFFSET) DAY ltac:(done)). lia.
Qed.

Lemma window_valid_id w r : window_valid w = Ok r -> r = w.
Proof. unfold window_valid. intros E. ok_inv. done. Qed.

Lemma ist_days t n : ist_midnight t = true -> ist_midnight (t + n * DAY) = true.
Proof.
  intros H. rewrite (midnight_combine t H).
  replace (nse_combine (nse_date t) 0 + n * DAY) with (nse_combine (nse_date t + n) 0) by (unfold nse_combine; lia).
  unfold ist_midnight. by rewrite nse_time_combine.
Qed.

Section shape.
Context (start n : Z) (Hn : 181 <= n <= 366).
Notation day k := (start + k * DAY).

Lemma day_lt x y : x < y -> (day x <? day y) = true.
Proof. intros Hxy. apply Z.ltb_lt, Zplus_lt_compat_l. by apply Z.mul_lt_mono_pos_r. Qed.
Lemma days_between x y : (day x - day y) / DAY = x - y.
Proof. replace (day x - day y) with ((x - y) * DAY) by lia. by rewrite Z.div_mul. Qed.

(** The split points, in days. *)
Lemma split_points : let v := n * 5 / 10 in let h := n * 7 / 10 in
  let a := (n - h) / 3 in let b := 2 * (n - h) / 3 in
  0 < v < h /\ h < h + a < h + b /\ h + b < n.
Proof.
  cbv zeta. pose proof (Z.div_mod (n * 5) 10 ltac:(done)). pose proof (Z.mod_pos_bound (n * 5) 10 ltac:(done)).
  pose proof (Z.div_mod (n * 7) 10 ltac:(done)). pose proof (Z.mod_pos_bound (n * 7) 10 ltac:(done)).
  set (h := n * 7 / 10) in *. clearbody h.
  pose proof (Z.div_mod (n - h) 3 ltac:(done)). pose proof (Z.mod_pos_bound (n - h) 3 ltac:(done)).
  pose proof (Z.div_mod (2 * (n - h)) 3 ltac:(done)). pose proof (Z.mod_pos_bound (2 * (n - h)) 3 ltac:(done)). lia.
Qed.

Lemma window_valid_days months v h a b : (months =? 6) || (months =? 12) = true ->
  months_before (day n) months = Ok start -> ist_midnight start = true ->
  0 < v < h -> h < a < b -> b < n ->
  window_valid (mkWindow months (day n) (day v) (day h) [day h; day a; day b; day n] start) =
  Ok (mkWindow months (day n) (day v) (day h) [day h; day a; day b; day n] start).
Proof.
  intros Hm Hb Hs Hv Ha Hbn. unfold window_valid, window_start.
  cbn [rw_months rw_end rw_validation_start rw_holdout_start rw_folds rw_parameters_frozen_at forallb].
  rewrite Hm, Hb, !ist_days by done. cbn [andb raise_unless mbind res_bind].
  assert (H1 : (start <? day v) = true) by (rewrite <- (day_lt 0 v) by lia; f_equal; lia).
  assert (H3 : (day v <? start) = false) by (apply Z.ltb_ge; bool_inv; lia).
  rewrite H1, H3, !day_lt by lia.
  cbn [andb raise_unless raise_if mbind res_bind length head last strictly_sorted].
  rewrite !bool_decide_true, !day_lt by (done || lia). done.
Qed.
End shape.

Lemma standard_window_ok t months : ist_midnight t = true -> FIRST_DAY <= nse_date t < FIRST_DAY + DAYS ->
  months = 6 \/ months = 12 -> exists w, standard_window t months = Ok w.
Proof.
  intros Ht Hd Hm. pose proof (date_before_span _ _ Hd Hm) as Hs.
  assert (Hmb : (months =? 6) || (months =? 12) = true) by (destruct Hm as [->| ->]; done).
  assert (Hb : months_before t months = Ok (nse_combine (date_before (nse_date t) months) 0)).
  { unfold months_before. rewrite Hmb. unfold ist_midnight in Ht. bool_inv. by rewrite Ht. }
  pose proof (midnight_combine t Ht) as Et.
  generalize dependent (date_before (nse_date t) months). intros s Hs Hb.
  assert (Hst : ist_midnight (nse_combine s 0) = true) by (unfold ist_midnight; by rewrite nse_time_combine).
  assert (Etn : t = nse_combine s 0 + (nse_date t - s) * DAY) by (rewrite Et at 1; unfold nse_combine; lia).
  generalize dependent (nse_combine s 0). generalize dependent (nse_date t - s). clear Et Hd s.
  intros n Hn start Hb Hst ->. unfold standard_window. rewrite Ht, Hb. cbn [raise_unless mbind res_bind].
  pose proof (split_points n Hn) as (H1 & H2 & H3). cbv zeta in H1, H2, H3.
  pose proof (days_between start n 0) as D0. rewrite Z.mul_0_l, Z.add_0_r, Z.sub_0_r in D0. rewrite D0.
  rewrite days_between, <- !Z.add_assoc, <- !Z.mul_add_distr_r.
  rewrite (window_valid_days start n); [by eexists|done..].
Qed.

(** ** Outcomes of an evaluation *)

Lemma reason_if_nil b text l : reason_if b text ++ l = [] <-> b = false /\ l = [].
Proof. unfold reason_if. destruct b, l; cbn; naive_solver. Qed.
Lemma reason_if_nil_last b text : reason_if b text = [] <-> b = false.
Proof. by destruct b. Qed.
Lemma is_nil_true {A} (l : list A) : is_nil l = true <-> l = [].
Proof. by destruct l. Qed.

Lemma metrics_count trades capital m : metrics trades capital = Ok m -> m_trades m = Z.of_nat (length trades).
Proof. intros E. apply metrics_spec in E. apply E. Qed.
Lemma part_count series trades capital a b s : part series trades capital a b = Ok s ->
  m_trades (su_basic s) = Z.of_nat (length (List.filter (entered_in a b) trades)).
Proof.
  unfold part, summarize. intros E. apply bind_Ok in E as (basic & Eb & E). apply metrics_count in Eb.
  apply bind_Ok in E as (? & _ & E). apply bind_Ok in E as (? & _ & E). apply bind_Ok in E as (? & _ & E).
  cbv zeta in E. destruct (foldl _ _ _) as [[[w l] mw] ml].
  do 5 (apply bind_Ok in E as (? & _ & E)). by injection E as <-.
Qed.

(** Three consecutive intervals split the trades of the whole one. *)
Lemma three_parts trades a b c d : a < b < c -> c < d ->
  length (List.filter (entered_in a d) trades) =
  (length (List.filter (entered_in a b) trades) + length (List.filter (entered_in b c) trades) +
   length (List.filter (entered_in c d) trades))%nat.
Proof.
  intros H1 H2. pose proof (folds_partition a [b; c; d] trades) as H. cbn [strictly_sorted last default] in H.
  specialize (H ltac:(autorewrite with kite; lia)). cbn in H. unfold entered_in.
  change (fun t => (?x <=? t_entry_at t) && (t_entry_at t <? ?y)) with (within x y) in *. lia.
Qed.

(** A measured result: what the pair went through. *)
Record measured_ok (uncertain : Metrics -> bool) (symbol : string) (window : ResearchWindow) (d : Dataset_) (definition : Definition_)
    (settings : Settings) (tariff : IntradayCostSchedule) (policy : Policy) (r : Result) : Prop := {
  mk_gates : exists start, window_start window = Ok start /\ gate_reasons symbol window start d = [];
  mk_run : exists sim q, execute (rd_series d) definition settings tariff = Ok sim /\
    x_unresolved sim = [] /\ straddles window (x_trades sim) = false /\ rs_trades r = x_trades sim /\
    qualify uncertain (x_trades sim) (se_capital settings) (rw_holdout_start window) (rw_folds window) policy = Ok q /\
    rs_qualification r = Some q /\
    (rs_qualified r = true <-> q_reasons q = [] /\
      (dval (x_marked_drawdown sim) <= dval (po_max_drawdown policy))%Q /\ sr_synthetic (rd_series d) = false) /\
    (rs_qualified r = true <-> rs_reasons r = []);
  mk_synthetic : rs_synthetic r = Some (sr_synthetic (rd_series d));
  mk_status : rs_data_status r = (if sr_synthetic (rd_series d) then "SYNTHETIC" else "LOCAL_VERIFIED")%string;
  mk_parts : exists training validation holdout total, rs_training r = Some training /\
    rs_validation r = Some validation /\ rs_holdout r = Some holdout /\ rs_total r = Some total /\
    (forall start, window_start window = Ok start ->
      start < rw_validation_start window < rw_holdout_start window -> rw_holdout_start window < rw_end window ->
      m_trades (su_basic total) = m_trades (su_basic training) + m_trades (su_basic validation) +
        m_trades (su_basic holdout))
}.

(** A result without performance. *)
Record bare_ok (r : Result) : Prop := {
  bk_status : rs_data_status r = "UNAVAILABLE"%string \/ rs_data_status r = "QUARANTINED"%string;
  bk_qualified : rs_qualified r = false; bk_trades : rs_trades r = []; bk_none : rs_qualification r = None;
  bk_total : rs_total r = None; bk_reasons : rs_reasons r <> []
}.

Section outcomes.
Context `{Dump Definition_} `{Dump Policy}.
Context (uncertain : Metrics -> bool) (symbol : string) (definition : Definition_) (window : ResearchWindow).

Lemma bare_bare policy dataset status reasons : status = "UNAVAILABLE"%string \/ status = "QUARANTINED"%string ->
  reasons <> [] -> bare_ok (bare_result symbol definition window policy dataset status reasons).
Proof. intros Hs Hr. by split. Qed.

Lemma measured_cases policy d settings tariff start sim r :
  window_start window = Ok start -> gate_reasons symbol window start d = [] ->
  execute (rd_series d) definition settings tariff = Ok sim -> x_unresolved sim = [] ->
  measured uncertain symbol definition window policy d settings start sim = Ok r ->
  bare_ok r \/ measured_ok uncertain symbol window d definition settings tariff policy r.
Proof.
  intros Hst Hg Hx Hu. unfold measured. destruct (straddles window (x_trades sim)) eqn:Est.
  { intros E. apply Ok_inj in E as <-. left. apply bare_bare; [by right|done]. }
  intros E. apply bind_Ok in E as (q & Eq & E). cbv zeta in E.
  apply bind_Ok in E as (training & E1 & E). apply bind_Ok in E as (validation & E2 & E).
  apply bind_Ok in E as (holdout & E3 & E). apply bind_Ok in E as (total & E4 & E).
  apply Ok_inj in E as <-. right. apply part_count in E1, E2, E3, E4. split; try done.
  - by exists start.
  - exists sim, q. split_and!; try done; cbn [rs_qualified rs_reasons].
    + rewrite is_nil_true. rewrite app_nil, reason_if_nil, reason_if_nil_last, dltb_false. tauto.
    + by rewrite is_nil_true.
  - exists training, validation, holdout, total. split_and!; try done. intros s Hs Ha Hb.
    assert (s = start) as -> by congruence. rewrite E1, E2, E3, E4, (three_parts _ start _ _ _ Ha Hb). lia.
Qed.

Lemma evaluate_cases dataset settings tariff policy r :
  evaluate uncertain symbol definition window dataset settings tariff policy = Ok r ->
  bare_ok r \/ exists d, dataset = Some d /\
    measured_ok uncertain symbol window d definition settings tariff policy r.
Proof.
  unfold evaluate. destruct dataset as [d|].
  2: { intros E. apply Ok_inj in E as <-. left. apply bare_bare; [by left|done]. }
  intros E. apply bind_Ok in E as (start & Es & E). cbv zeta in E.
  assert (Hrej : bare_ok (bare_result symbol definition window policy (Some d) "QUARANTINED"
    ["EXECUTION_OR_DATA_REJECTED"%string])) by (apply bare_bare; [by right|done]).
  destruct (gate_reasons symbol window start d) as [|x l] eqn:Eg; cbn [is_nil negb] in E.
  2: { apply Ok_inj in E as <-. left. apply bare_bare; [by right|done]. }
  destruct (execute _ _ _ _) as [sim|e] eqn:Ex.
  2: { destruct e; try done. apply Ok_inj in E as <-. by left. }
  destruct (x_unresolved sim) as [|u l] eqn:Eu; cbn [is_nil negb] in E.
  2: { apply Ok_inj in E as <-. by left. }
  destruct (measured_cases policy d settings tariff start sim r Es Eg Ex Eu E); [by left|right]. by exists d.
Qed.
End outcomes.

(** ** The published status *)

Lemma find_status s : In s status_of_reason -> s.2 <> "QUALIFIED"%string.
Proof. cbn. intros H. repeat (destruct H as [<-|H]; [done|]). done. Qed.

Lemma primary_qualified r : primary r = "QUALIFIED"%string ->
  rs_data_status r <> "UNAVAILABLE"%string /\ rs_data_status r <> "QUARANTINED"%string /\
  rs_synthetic r <> Some true /\ rs_reasons r = [] /\ rs_qualified r = true /\ rs_qualification r <> None.
Proof.
  unfold primary. destruct (String.eqb_spec (rs_data_status r) "UNAVAILABLE"); [done|].
  destruct (String.eqb_spec (rs_data_status r) "QUARANTINED"); [done|].
  destruct (default false (rs_synthetic r)) eqn:Es; [done|]. destruct (List.find _ _) as [[reason status]|] eqn:Ef.
  { intros ->. apply List.find_some in Ef as [Hin _]. by apply find_status in Hin. }
  destruct (rs_reasons r); [|done]. cbn [is_nil negb]. destruct (rs_qualified r); [|done].
  destruct (rs_qualification r); [|done]. intros _. split_and!; try done.
  intros E. by rewrite E in Es.
Qed.
