(* ===== verification/EvaluationTheorems.v ===== *)
(** * Properties of canonical publication and of research evaluation *)
From S2P Require Import Prelude Decimal DecimalFacts Text Dataset Costs Errors Json JsonFacts.
From S2P Require Import CanonicalPolicy CanonicalPolicyFacts Phase14 Phase14Facts Strategies Execution Research ResearchFacts.
From S2P Require Sample.
Open Scope list_scope.
Open Scope Z_scope.

(** C26. The fingerprinted payload of a risk policy is exact: two policies have the same
    payload exactly when they are equal as typed values (numbers by numeric value,
    whatever their digits; mappings by their items in the order of the keys). *)
Theorem payload_exact v w version p q : payload v version = Ok p -> payload w version = Ok q ->
  (p = q <-> policy_eq v w).
Proof. apply payload_eq. Qed.

(** C27. Canonical JSON is unambiguous: followed by a delimiter or the end of the text, a
    canonical text is read as one value only, up to the order of the fields of objects. *)
Theorem canonical_unambiguous a b s t : delimited s -> delimited t ->
  canonical a ++ s = canonical b ++ t <-> norm a = norm b /\ s = t.
Proof.
  intros Hs Ht. rewrite !canonical_render. split.
  - by apply render_cancel.
  - by intros [-> ->].
Qed.

(** The standard six- and twelve-month windows of every trading midnight of 2015-2034
    are built and pass the validation of a window. *)
Theorem standard_window_valid t months : ist_midnight t = true -> FIRST_DAY <= nse_date t < FIRST_DAY + DAYS ->
  months = 6 \/ months = 12 ->
  exists w, standard_window t months = Ok w /\ window_valid w = Ok w /\ rw_end w = t.
Proof.
  intros Ht Hd Hm. destruct (standard_window_ok t months Ht Hd Hm) as [w Hw]. exists w. split; [done|].
  unfold standard_window in Hw. apply bind_Ok in Hw as (? & _ & Hw). apply bind_Ok in Hw as (start & _ & Hw).
  cbv zeta in Hw. pose proof (window_valid_id _ _ Hw) as ->. by split.
Qed.

(** A result is published as QUALIFIED exactly when the evaluation qualified it; an
    evaluation either reports no performance at all, with its reasons, or measured an
    executed dataset that passed every gate, with no unresolved position and no trade
    across a split, and whose three parts count every trade once. *)
Theorem evaluate_published `{Dump Definition_} `{Dump Policy} uncertain symbol definition window dataset settings
    tariff policy r :
  evaluate uncertain symbol definition window dataset settings tariff policy = Ok r ->
  (primary r = "QUALIFIED"%string <-> rs_qualified r = true) /\
  (bare_ok r \/ exists d, dataset = Some d /\
    measured_ok uncertain symbol window d definition settings tariff policy r).
Proof.
  intros E. pose proof (evaluate_cases _ _ _ _ _ _ _ _ _ E) as Hc. split; [|done].
  split; [intros Hp; by apply primary_qualified in Hp as (_ & _ & _ & _ & ? & _)|].
  intros Hq. destruct Hc as [[_ Hf _ _ _ _]|(d & -> & [_ (sim & q & _ & _ & _ & _ & _ & Hqq & H1 & H2) Hs Hst _])].
  - congruence.
  - apply H1 in Hq as Hr. destruct Hr as (_ & _ & Hsyn). apply H2 in Hq as Hr. unfold primary.
    rewrite Hst, Hs, Hsyn, Hr, Hqq, Hq. reflexivity.
Qed.

(** ** The theorems at concrete inputs *)

Definition plain (l : list (option string * pyval)) : pyval := PMap l.
Definition policy_a : pyval := PMap [(Some "capital", PDecimal (Dec 10000 0)); (Some "limits", PSeq [PInt 3; PNone])]%string.
Definition policy_b : pyval := PMap [(Some "limits", PSeq [PInt 3; PNone]); (Some "capital", PDecimal (Dec 1000000 (-2)))]%string.
Lemma payload_exact_witness : policy_eq policy_a policy_b.
Proof.
  assert (E : exists p, payload policy_a VERSION = Ok p /\ payload policy_b VERSION = Ok p)
    by (eexists; split; vm_compute; reflexivity).
  destruct E as (p & Ea & Eb). by apply (payload_exact policy_a policy_b VERSION p p Ea Eb).
Defined.
Lemma canonical_unambiguous_witness :
  norm (JObj [("a", JInt 1); ("b", JNull)])%string = norm (JObj [("b", JNull); ("a", JInt 1)])%string.
Proof.
  refine (proj1 (proj1 (canonical_unambiguous (JObj [("a", JInt 1); ("b", JNull)])%string
    (JObj [("b", JNull); ("a", JInt 1)])%string [] [] I I) _)).
  vm_compute. reflexivity.
Defined.
Lemma standard_window_valid_witness : exists w, standard_window (nse_combine 20500 0) 6 = Ok w.
Proof.
  destruct (standard_window_valid (nse_combine 20500 0) 6) as (w & Hw & _); [reflexivity| |by left|by exists w].
  rewrite nse_date_combine by done. unfold FIRST_DAY, DAYS. lia.
Defined.

Import Sample.

#[local] Instance dump_definition : Dump Definition_ := fun d => df_name d.
#[local] Instance dump_policy : Dump Policy := fun p => int_text (po_min_oos_trades p).
Definition six_months : Z * ResearchWindow :=
  match standard_window (nse_combine 20030 0) 6 with
  | Ok w => (rw_parameters_frozen_at w, w)
  | Err _ => (0, mkWindow 0 0 0 0 [] 0)
  end.
Definition half_year_series : Series :=
  mkSeries "INFY" "408065" "feed" false sample_hash sample_hash sample_hash
    (nse_combine 20030 0) six_months.1 (nse_combine 20030 0) true
    [mkDated (nse_combine 20000 (hm 9 15)) (nse_combine 20000 (hm 9 45))] [] five_bars.
Definition half_year : Dataset_ :=
  mkDataset_ half_year_series sample_hash (nse_combine 20030 0) "1" "calendar" true "REVIEWED" 0 0 0 false true.
Definition breakout_definition : Definition_ :=
  mkDefinition S06 "Opening Range Breakout" RESEARCH_EQUIVALENT SOURCE
    "close crosses first15minute range high" ["OR15"%string] (cents 2) (cents 2) 1000.
Definition half_year_policy : Policy := mkPolicy 100 30 (cents 70) (cents 10) (cents 60) 13380 (cents 5).
Definition half_year_result : res Result :=
  evaluate (fun _ => true) "INFY" breakout_definition six_months.2 (Some half_year) five_settings sample_schedule half_year_policy.
Lemma half_year_measured : (fun r => (rs_data_status r, length (rs_trades r), primary r)) <$> half_year_result =
  Ok ("LOCAL_VERIFIED"%string, 1%nat, "REJECTED_TRADE_COUNT"%string).
Proof. vm_compute. reflexivity. Qed.

Lemma evaluate_published_witness : exists r, half_year_result = Ok r /\ rs_qualified r = false /\
  measured_ok (fun _ => true) "INFY" six_months.2 half_year breakout_definition five_settings sample_schedule half_year_policy r.
Proof.
  assert (E : is_ok half_year_result = true) by (vm_compute; reflexivity).
  apply is_ok_true in E as [r E]. exists r. split; [exact E|]. pose proof half_year_measured as Hm. rewrite E in Hm.
  injection Hm as Hs Ht Hp. unfold half_year_result in E.
  destruct (evaluate_published (fun _ => true) "INFY" breakout_definition six_months.2 (Some half_year) five_settings
    sample_schedule half_year_policy r E) as [[_ Hq] [Hb|(d & [= <-] & Hm)]].
  - exfalso. destruct Hb as [[Hb|Hb] _ _ _ _ _]; rewrite Hs in Hb; discriminate Hb.
  - split; [|exact Hm]. destruct (rs_qualified r); [|reflexivity]. rewrite (Hq eq_refl) in Hp. discriminate Hp.
Defined.
