(* ===== verification/Exec.v ===== *)
(** * Stateful computations that can fail, and ordered dictionaries

    A method of the portfolio and session objects mutates the object and may raise an
    exception, which leaves the mutations made so far in place: [exec S A] is a function
    of the state to the state left behind and a result.  A dictionary whose iteration
    order matters is the list of its items in insertion order. *)
From S2P Require Import Prelude.
Open Scope list_scope.
Open Scope Z_scope.

(** ** The monad *)

Definition exec (S A : Type) : Type := S -> S * res A.

Section exec.
Context {S : Type}.
#[export] Instance exec_ret : MRet (exec S) := fun A a s => (s, Ok a).
#[export] Instance exec_bind : MBind (exec S) := fun A B f m s =>
  match m s with
  | (s', Ok a) => f a s'
  | (s', Err e) => (s', Err e)
  end.
Definition get : exec S S := fun s => (s, Ok s).
Definition modify (f : S -> S) : exec S unit := fun s => (f s, Ok tt).
(** A computation that reads no state and changes none. *)
Definition lift {A} (r : res A) : exec S A := fun s => (s, r).
Definition raises_if (b : bool) (msg : string) : exec S unit := lift (raise_if b msg).
Definition when (b : bool) (m : exec S unit) : exec S unit := if b then m else mret tt.
End exec.
Notation "'when!' b 'do' m" := (when b m) (at level 100, b at level 99, m at level 99).

(** [for x in l: f(x)] *)
Fixpoint each {S A} (f : A -> exec S unit) (l : list A) : exec S unit :=
  match l with
  | [] => mret tt
  | x :: l => _ ← f x; each f l
  end.

(** [try: m except ValueError as exc: handler(str(exc))]; the text of the exception. *)
Definition catch {S} (m : exec S unit) (handler : string -> exec S unit) : exec S (option string) := fun s =>
  match m s with
  | (s', Ok _) => (s', Ok None)
  | (s', Err (ValueError msg)) => let '(s', r) := handler msg s' in (s', _ ← r; Ok (Some msg))
  | (s', Err e) => (s', Err e)
  end.

(** A method of a component of the state. *)
Definition focus {S T A} (get_ : S -> T) (set_ : T -> S -> S) (m : exec T A) : exec S A :=
  fun s => let '(t, r) := m (get_ s) in (set_ t s, r).

(** [wpx m Q X s]: from [s], [m] ends with a value and a state in [Q], or with an
    exception and a state in [X]. *)
Definition wpx {S A} (m : exec S A) (Q : A -> S -> Prop) (X : exn -> S -> Prop) (s : S) : Prop :=
  match m s with (s', Ok a) => Q a s' | (s', Err e) => X e s' end.

Section wpx.
Context {S A B : Type}.
Implicit Types (s : S) (X : exn -> S -> Prop).

Lemma wpx_ret (a : A) Q X s : Q a s -> wpx (mret a) Q X s.
Proof. done. Qed.
Lemma wpx_get Q X s : Q s s -> wpx (get (S := S)) Q X s.
Proof. done. Qed.
Lemma wpx_modify f (Q : unit -> S -> Prop) X s : Q tt (f s) -> wpx (modify f) Q X s.
Proof. done. Qed.
Lemma wpx_lift (r : res A) Q X s :
  (forall a, r = Ok a -> Q a s) -> (forall e, r = Err e -> X e s) -> wpx (lift r) Q X s.
Proof. unfold wpx, lift. destruct r; auto. Qed.
Lemma wpx_bind (m : exec S A) (f : A -> exec S B) Q X s :
  wpx m (fun a s => wpx (f a) Q X s) X s -> wpx (m ≫= f) Q X s.
Proof. unfold wpx, mbind, exec_bind. destruct (m s) as [s' [a|e]]; done. Qed.
Lemma wpx_mono (m : exec S A) (P Q : A -> S -> Prop) (X Y : exn -> S -> Prop) s :
  wpx m P X s -> (forall a s, P a s -> Q a s) -> (forall e s, X e s -> Y e s) -> wpx m Q Y s.
Proof. unfold wpx. destruct (m s) as [s' [a|e]]; auto. Qed.
Lemma wpx_raises_if b msg (Q : unit -> S -> Prop) X s :
  (b = false -> Q tt s) -> (b = true -> X (ValueError msg) s) -> wpx (raises_if b msg) Q X s.
Proof. unfold raises_if, wpx, lift. destruct b; cbn; auto. Qed.
Lemma wpx_when b (m : exec S unit) Q X s :
  (b = true -> wpx m Q X s) -> (b = false -> Q tt s) -> wpx (when b m) Q X s.
Proof. destruct b; cbn; auto. Qed.
End wpx.

(** The invariant rule of a loop; a failing step may leave the weaker [X]. *)
Lemma wpx_each {S A} (f : A -> exec S unit) (I : S -> Prop) X l s :
  (forall x s, x ∈ l -> I s -> wpx (f x) (fun _ => I) X s) -> I s -> wpx (each f l) (fun _ => I) X s.
Proof.
  revert s. induction l as [|x l IH]; intros s Hf Hs; cbn [each]; [done|].
  apply wpx_bind. eapply wpx_mono; [apply Hf; [by left|done]| |done]. intros [] s' Hs'.
  apply IH; [|done]. intros y s0 Hy. apply Hf. by right.
Qed.

Lemma wpx_focus {S T A} (get_ : S -> T) (set_ : T -> S -> S) (m : exec T A) Q X s :
  wpx m (fun a t => Q a (set_ t s)) (fun e t => X e (set_ t s)) (get_ s) -> wpx (focus get_ set_ m) Q X s.
Proof. unfold wpx, focus. by destruct (m (get_ s)) as [t [a|e]]. Qed.

(** ** Invariants that also survive exceptions *)

(** Whatever its outcome, [m] leaves a state in [I]. *)
Definition always {S A} (I : S -> Prop) (m : exec S A) : Prop := forall s, I s -> wpx m (fun _ => I) (fun _ => I) s.

Section always.
Context {S : Type} (I : S -> Prop).

Lemma always_bind {A B} (m : exec S A) (f : A -> exec S B) : always I m -> (forall a, always I (f a)) -> always I (m ≫= f).
Proof. intros Hm Hf s Hs. apply wpx_bind. eapply wpx_mono; [by apply Hm|intros a s' Hs'; by apply Hf|done]. Qed.
Lemma always_ret {A} (a : A) : always I (mret a).
Proof. intros s Hs. by apply wpx_ret. Qed.
Lemma always_get : always I get.
Proof. intros s Hs. by apply wpx_get. Qed.
(** A computation on the state just read. *)
Lemma always_get_bind {A} (f : S -> exec S A) : (forall s, I s -> wpx (f s) (fun _ => I) (fun _ => I) s) -> always I (get ≫= f).
Proof. intros Hf s Hs. apply wpx_bind, wpx_get. by apply Hf. Qed.
Lemma always_lift {A} (r : res A) : always I (lift r).
Proof. intros s Hs. by apply wpx_lift. Qed.
Lemma always_modify f : (forall s, I s -> I (f s)) -> always I (modify f).
Proof. intros Hf s Hs. by apply wpx_modify, Hf. Qed.
Lemma always_when b m : (b = true -> always I m) -> always I (when b m).
Proof. intros Hm. destruct b; [by apply Hm|apply always_ret]. Qed.
Lemma always_each {A} (f : A -> exec S unit) l : (forall x, always I (f x)) -> always I (each f l).
Proof. intros Hf s Hs. apply wpx_each; [intros x s' _ Hs'; by apply Hf|done]. Qed.
Lemma always_run {A} (m : exec S A) s s' r : always I m -> I s -> m s = (s', r) -> I s'.
Proof. intros Hm Hs E. specialize (Hm s Hs). unfold wpx in Hm. rewrite E in Hm. by destruct r. Qed.
Lemma always_catch m (handler : string -> exec S unit) :
  always I m -> (forall msg, always I (handler msg)) -> always I (catch m handler).
Proof.
  intros Hm Hh s Hs. unfold wpx, catch. specialize (Hm s Hs). unfold wpx in Hm. destruct (m s) as [s' [a|e]]; [done|].
  destruct e; try done. specialize (Hh msg s' Hm). unfold wpx in Hh. by destruct (handler msg s') as [s'' [[]|e]].
Qed.
End always.
Lemma always_focus {S T A} (I : S -> Prop) (get_ : S -> T) (set_ : T -> S -> S) (m : exec T A) :
  (forall s, I s -> wpx m (fun _ t => I (set_ t s)) (fun _ t => I (set_ t s)) (get_ s)) -> always I (focus get_ set_ m).
Proof. intros Hm s Hs. apply wpx_focus. by apply Hm. Qed.

(** [always_tac] takes a computation apart; what is left are its changes of the state. *)
Ltac always_tac :=
  repeat lazymatch goal with
  | |- always _ (_ ≫= _) => apply always_bind; [|intros ?]
  | |- always _ get => apply always_get
  | |- always _ (mret _) => apply always_ret
  | |- always _ (lift _) => apply always_lift
  | |- always _ (raises_if _ _) => apply always_lift
  | |- always _ (when _ _) => apply always_when; intros ?
  | |- always _ (each _ _) => apply always_each; intros ?
  | |- always _ (match ?x with _ => _ end) => destruct x
  end.

(** ** Inversion of runs that succeed *)

Section inversion.
Context {S A B : Type}.
Implicit Types (s : S).

Lemma run_bind (m : exec S A) (f : A -> exec S B) s s' b :
  (m ≫= f) s = (s', Ok b) <-> exists a s1, m s = (s1, Ok a) /\ f a s1 = (s', Ok b).
Proof. unfold mbind, exec_bind. destruct (m s) as [s1 [a|e]]; naive_solver. Qed.
Lemma run_lift (r : res A) s s' a : lift r s = (s', Ok a) <-> s' = s /\ r = Ok a.
Proof. unfold lift. naive_solver. Qed.
Lemma run_ret (a a' : A) s s' : (mret a : exec S A) s = (s', Ok a') <-> s' = s /\ a' = a.
Proof. unfold mret, exec_ret. naive_solver. Qed.
Lemma run_get s s' a : get s = (s', Ok a) <-> s' = s /\ a = s.
Proof. unfold get. naive_solver. Qed.
Lemma run_modify f s s' u : modify f s = (s', Ok u) <-> s' = f s.
Proof. unfold modify. destruct u. naive_solver. Qed.
End inversion.
Lemma run_raises_if {S} b msg (s s' : S) u : raises_if b msg s = (s', Ok u) <-> s' = s /\ b = false.
Proof. unfold raises_if. rewrite run_lift, raise_if_Ok. done. Qed.

Lemma catch_inv {S} (m : exec S unit) handler s s' reason : catch m handler s = (s', Ok reason) ->
  (reason = None /\ m s = (s', Ok tt)) \/
  (exists msg s1, reason = Some msg /\ m s = (s1, Err (ValueError msg)) /\ handler msg s1 = (s', Ok tt)).
Proof.
  unfold catch. destruct (m s) as [s1 [[]|e]] eqn:Em; [intros E; left; naive_solver|].
  destruct e; try discriminate. destruct (handler msg s1) as [s2 [[]|e]] eqn:Eh; intros E; [|discriminate E].
  apply pair_equal_spec in E as [<- E]. apply Ok_inj in E as <-. right. eauto.
Qed.

(** The invariant rule of a loop that succeeds. *)
Lemma run_each {S A} (f : A -> exec S unit) (I : S -> Prop) l s s' :
  (forall x s s', x ∈ l -> I s -> f x s = (s', Ok tt) -> I s') -> I s -> each f l s = (s', Ok tt) -> I s'.
Proof.
  revert s. induction l as [|x l IH]; intros s Hf Hs E; cbn [each] in E; [apply run_ret in E as [-> _]; done|].
  apply run_bind in E as ([] & s1 & E1 & E). eapply IH; [| |exact E].
  - intros y s0 s2 Hy. apply Hf. by right.
  - eapply Hf; [by left|exact Hs|exact E1].
Qed.

(** [run_step E]: one step of a run that succeeds; [run_inv E]: all of them. *)
Ltac run_step E :=
  lazymatch type of E with
  | mbind _ _ _ = (_, Ok _) =>
      let a := fresh "x" in let s := fresh "s" in let E1 := fresh "E" in
      apply run_bind in E as (a & s & E1 & E); run_atom E1
  end
with run_atom E :=
  lazymatch type of E with
  | lift (raise_unless _ _) _ = (_, Ok _) => let H := fresh "G" in apply run_lift in E as [-> H]; apply raise_unless_Ok in H
  | lift _ _ = (_, Ok _) => let H := fresh "G" in apply run_lift in E as [-> H]
  | get _ = (_, Ok _) => let H := fresh in apply run_get in E as [-> H]; subst
  | modify _ _ = (_, Ok _) => apply run_modify in E; subst
  | raises_if _ _ _ = (_, Ok _) => let H := fresh "G" in apply run_raises_if in E as [-> H]
  | mret _ _ = (_, Ok _) => let H := fresh in apply run_ret in E as [-> H]
  | _ => idtac
  end.
Ltac run_inv E := repeat run_step E; run_atom E.

(** ** Ordered dictionaries *)

Section dict.
Context {K V : Type} `{EqDecision K}.
Implicit Types (d : list (K * V)) (k : K) (v : V).

Fixpoint find d k : option V :=
  match d with
  | [] => None
  | (h, v) :: d => if decide (h = k) then Some v else find d k
  end.
(** [d[k] = v]: in place when the key is there, at the end otherwise. *)
Fixpoint store d k v : list (K * V) :=
  match d with
  | [] => [(k, v)]
  | (h, w) :: d => if decide (h = k) then (h, v) :: d else (h, w) :: store d k v
  end.
(** [del d[k]], [d.pop(k, None)] *)
Fixpoint discard d k : list (K * V) :=
  match d with
  | [] => []
  | (h, w) :: d => if decide (h = k) then d else (h, w) :: discard d k
  end.
(** [{key(v): v for v in l}] *)
Definition dict_by (key : V -> K) (l : list V) : list (K * V) := foldl (fun d v => store d (key v) v) [] l.
Definition has d k : bool := match find d k with Some _ => true | None => false end.

Lemma find_store d k v h : find (store d k v) h = if decide (k = h) then Some v else find d h.
Proof.
  induction d as [|[h' w] d IH]; cbn; [done|]. destruct (decide (h' = k)) as [->|]; cbn.
  - by destruct (decide (k = h)).
  - destruct (decide (h' = h)) as [->|]; [by rewrite decide_False by done|]. apply IH.
Qed.
Lemma find_store_eq d k v : find (store d k v) k = Some v.
Proof. by rewrite find_store, decide_True. Qed.
Lemma find_store_ne d k v h : k <> h -> find (store d k v) h = find d h.
Proof. intros. by rewrite find_store, decide_False. Qed.

Lemma store_store d k v w : store (store d k v) k w = store d k w.
Proof.
  induction d as [|[h x] d IH]; cbn; [by rewrite decide_True|]. destruct (decide (h = k)) as [->|]; cbn.
  - by rewrite decide_True.
  - by rewrite decide_False, IH.
Qed.

Lemma find_elem d k v : find d k = Some v -> (k, v) ∈ d.
Proof.
  induction d as [|[h w] d IH]; cbn; [done|]. destruct (decide (h = k)) as [->|]; [intros [= ->]; by left|].
  intros. right. by apply IH.
Qed.
Lemma find_none d k : find d k = None <-> k ∉ d.*1.
Proof.
  induction d as [|[h w] d IH]; cbn; [set_solver|]. destruct (decide (h = k)) as [->|]; [set_solver|].
  rewrite IH, elem_of_cons. naive_solver.
Qed.
Lemma elem_find d k v : NoDup d.*1 -> (k, v) ∈ d -> find d k = Some v.
Proof.
  induction d as [|[h w] d IH]; cbn; intros Hn Hin; [set_solver|]. apply NoDup_cons in Hn as [Hh Hn].
  apply elem_of_cons in Hin as [[= -> ->]|Hin]; [by rewrite decide_True|].
  rewrite decide_False; [by apply IH|]. intros ->. apply Hh. apply list_elem_of_fmap. by exists (k, v).
Qed.
Lemma store_keys d k v : (store d k v).*1 = if decide (k ∈ d.*1) then d.*1 else d.*1 ++ [k].
Proof.
  induction d as [|[h w] d IH]; cbn; [done|]. destruct (decide (h = k)) as [->|]; cbn.
  - rewrite decide_True by set_solver. done.
  - rewrite IH. destruct (decide (k ∈ d.*1)).
    + by rewrite decide_True by set_solver.
    + rewrite decide_False; [done|]. rewrite elem_of_cons. naive_solver.
Qed.
Lemma store_NoDup d k v : NoDup d.*1 -> NoDup (store d k v).*1.
Proof.
  intros H. rewrite store_keys. destruct (decide (k ∈ d.*1)); [done|]. apply NoDup_app. split_and!; [done| |apply NoDup_singleton].
  intros x Hx ->%list_elem_of_singleton. done.
Qed.
Lemma discard_keys d k : (discard d k).*1 ⊆ d.*1.
Proof. induction d as [|[h w] d IH]; cbn; [done|]. destruct (decide (h = k)); cbn; set_solver. Qed.
Lemma discard_NoDup d k : NoDup d.*1 -> NoDup (discard d k).*1.
Proof.
  induction d as [|[h w] d IH]; cbn; intros Hn; [done|]. apply NoDup_cons in Hn as [Hh Hn].
  destruct (decide (h = k)); [done|]. cbn. apply NoDup_cons. split; [|by apply IH].
  intros Hx. by apply Hh, (discard_keys d k).
Qed.
Lemma find_discard d k h : NoDup d.*1 -> find (discard d k) h = if decide (k = h) then None else find d h.
Proof.
  induction d as [|[h' w] d IH]; cbn; intros Hn; [by destruct (decide _)|]. apply NoDup_cons in Hn as [Hh Hn].
  destruct (decide (h' = k)) as [->|]; cbn.
  - destruct (decide (k = h)) as [->|]; [by apply find_none|done].
  - destruct (decide (h' = h)) as [->|]; [by rewrite decide_False by done|]. by apply IH.
Qed.

Lemma length_store d k v : length (store d k v) = (if has d k then length d else S (length d)).
Proof.
  unfold has. induction d as [|[h w] d IH]; cbn; [done|]. destruct (decide (h = k)); cbn; [done|].
  rewrite IH. by destruct (find d k).
Qed.
Lemma length_discard d k : length (discard d k) = (if has d k then pred (length d) else length d).
Proof.
  unfold has. induction d as [|[h w] d IH]; cbn; [done|]. destruct (decide (h = k)); cbn; [done|].
  rewrite IH. destruct (find d k) eqn:E; [|done]. destruct d; [discriminate E|done].
Qed.
Lemma has_find d k : has d k = true <-> is_Some (find d k).
Proof. unfold has. destruct (find d k); split; intros Hx; [eauto|done|discriminate Hx|by destruct Hx]. Qed.
End dict.
#[global] Hint Rewrite @find_store_eq : kite.
