(* ===== verification/Qualification.v ===== *)
(** * The hypothesis family and qualification rows ([phase14/universe.py],
    [phase1415/hardening.py], [phase1417/qualification.py])

    The normalization of the universe, the frozen policy and the binding of the full
    family of hypotheses, the keys of a partition, the binding of a result, and the
    numerical gate of a qualification row.  What the source reads from files (the
    universe, the software inventory) is an argument.  Texts are ASCII: [strip] and
    [casefold] are those of ASCII characters. *)
From S2P Require Import Prelude Decimal DecimalFacts Text Dataset Costs Phase14 Strategies Json Research.
From Stdlib Require Import Ascii.
Open Scope list_scope.
Open Scope Z_scope.

(** ** The universe *)

Record Member := mkMember { mb_symbol : string; mb_exchange : string; mb_enabled : string }.

Fixpoint lstrip (l : bytes) : bytes :=
  match l with c :: l' => if is_space c then lstrip l' else l | [] => [] end.
Definition strip (s : string) : string :=
  String.string_of_list_ascii (rev (lstrip (rev (lstrip (text s))))).
Definition casefold (s : string) : string :=
  String.string_of_list_ascii ((fun c => if is_upper c then ascii_of_N (Z.to_N (code c + 32)) else c) <$> text s).

Definition member_key (r : Member) : string * string :=
  (casefold (strip (mb_exchange r)), casefold (strip (mb_symbol r))).
Definition member_ok (r : Member) : bool :=
  negb (strip (mb_symbol r) =? "")%string && (casefold (strip (mb_exchange r)) =? "nse")%string &&
  (casefold (strip (mb_enabled r)) =? "true")%string.

(** The local variables of [normalize]: the seen keys, the kept members, the removed
    rows (physical line and symbol). *)
Definition normalize_step (st : gset (string * string) * list Member * list (Z * string))
    (x : Z * Member) : res (gset (string * string) * list Member * list (Z * string)) :=
  let '(seen, unique, removed) := st in
  let '(line, row) := x in
  require! member_ok row else "INVALID_OR_DISABLED_UNIVERSE_MEMBER";
  if bool_decide (member_key row ∈ seen) then Ok (seen, unique, removed ++ [(line, mb_symbol row)])
  else Ok ({[member_key row]} ∪ seen, unique ++ [row], removed).
Definition normalize (rows : list Member) : res (list Member * list (Z * string)) :=
  '(_, unique, removed) ← foldR normalize_step (∅, [], []) (zip (seqZ 2 (Z.of_nat (length rows))) rows);
  Ok (unique, removed).

(** ** The frozen policy *)

Definition SYMBOL_COUNT : Z := 1115.
Definition STRATEGY_IDS : list identifier := [S01; S02; S03; S04; S05; S06].
Definition MONTHS : list Z := [6; 12].
Definition family_size : Z := SYMBOL_COUNT * Z.of_nat (length STRATEGY_IDS) * Z.of_nat (length MONTHS).

Definition default_policy (family : Z) : Policy :=
  mkPolicy 100 30 (Dec 70 (-2)) (Dec 10 (-2)) (Dec 60 (-2)) family (Dec 5 (-2)).
(** Equality of policies: decimals compare by value. *)
Definition policy_eqb (p q : Policy) : bool :=
  (po_min_oos_trades p =? po_min_oos_trades q) && (po_min_fold_trades p =? po_min_fold_trades q) &&
  deqb (po_min_win_rate p) (po_min_win_rate q) && deqb (po_max_drawdown p) (po_max_drawdown q) &&
  deqb (po_min_fold_win_rate p) (po_min_fold_win_rate q) && (po_family_size p =? po_family_size q) &&
  deqb (po_alpha p) (po_alpha q).
Definition frozen_policy (policy : option Policy) : res Policy :=
  let expected := default_policy family_size in
  let actual := default expected policy in
  require! policy_eqb actual expected else "FROZEN_FULL_FAMILY_POLICY_REQUIRED";
  Ok actual.

(** ** The dependency inventory *)

Definition SCHEMA : string := "Phase1415Checkpoint.v2".
Definition DEPENDENCIES : list string :=
  sort_by String.leb (
    ["strategy_engine/__init__.py"; "strategy_engine/backtest/__init__.py"; "strategy_engine/backtest/costs.py";
     "strategy_engine/backtest/dataset.py"; "strategy_engine/phase14/__init__.py"; "strategy_engine/phase14/engine.py";
     "strategy_engine/phase14/imports.py"; "strategy_engine/phase14/reporting.py"; "strategy_engine/phase14/universe.py"]%string ++
    ((fun n => "strategy_engine/phase1415/" +:+ n +:+ ".py")%string <$>
       ["__init__"; "execution"; "jobs"; "paper"; "reports"; "research"; "strategies"; "hardening"]%string)).

(** A dependency: its path and the digest of its bytes. *)
Record Dependency := mkDependency { dp_path : string; dp_sha256 : string }.
#[export] Instance dependency_eq_dec : EqDecision Dependency.
Proof. solve_decision. Defined.
Definition dependency_json (d : Dependency) : json :=
  JObj [("path", JStr (dp_path d)); ("sha256", JStr (dp_sha256 d))]%string.
Definition validate_dependencies (items : list Dependency) : res string :=
  require! bool_decide (dp_path <$> items = DEPENDENCIES) else "DEPENDENCY_INVENTORY_MISSING_DUPLICATE_OR_UNEXPECTED";
  Ok (sha (canonical (JArr (dependency_json <$> items)))).

(** ** The binding of the family *)

#[export] Instance window_eq_dec : EqDecision ResearchWindow.
Proof. solve_decision. Defined.

Record FamilyBinding := mkFamily {
  fb_schema : string; fb_universe_hash : string; fb_symbols : list string; fb_registry_hash : string;
  fb_windows : list ResearchWindow; fb_policy_hash : string; fb_software_hash : string;
  fb_dependency_inventory : list Dependency; fb_settings_hash : string; fb_costs_hash : string;
  fb_hypotheses : Z
}.
#[export] Instance family_eq_dec : EqDecision FamilyBinding.
Proof. solve_decision. Defined.

(** [definition == reference]: decimals compare by value. *)
Definition definition_eqb (d r : Definition_) : bool :=
  same_semantics d r && deqb (df_stop d) (df_stop r) && deqb (df_target d) (df_target r) &&
  (df_minimum_volume d =? df_minimum_volume r).

Section family.
Context `{Dump Definition_} `{Dump Policy} `{Dump Settings} `{Dump IntradayCostSchedule} `{Dump FamilyBinding}.
Context (definition_json : Definition_ -> json).
(** The rows and the digest of the universe file, and the inventory of the software. *)
Context (universe : list Member) (universe_hash : string) (inventory : list Dependency).

Definition run_id (b : FamilyBinding) : string := digest (model_dump_json b).
Definition registry_hash : res string :=
  ds ← registry; Ok (sha (canonical (JArr (definition_json <$> ds)))).

Definition family_binding (end_ : Z) (settings : Settings) (costs : IntradayCostSchedule)
    (policy : option Policy) : res FamilyBinding :=
  '(members, duplicate) ← normalize universe;
  require! is_nil duplicate && (Z.of_nat (length members) =? SYMBOL_COUNT) else "CANONICAL_UNIVERSE_REQUIRED";
  registry_ ← registry_hash;
  six ← standard_window end_ 6;
  twelve ← standard_window end_ 12;
  policy_ ← frozen_policy policy;
  software ← validate_dependencies inventory;
  Ok (mkFamily SCHEMA universe_hash (mb_symbol <$> members) registry_ [six; twelve]
        (digest (model_dump_json policy_)) software inventory (digest (model_dump_json settings))
        (digest (model_dump_json costs)) family_size).

Definition verify_family (binding : option FamilyBinding) (settings : Settings) (costs : IntradayCostSchedule)
    (policy : Policy) : res FamilyBinding :=
  binding ← of_option (ValueError "FULL_FAMILY_BINDING_REQUIRED") binding;
  require! bool_decide (fb_schema binding = SCHEMA) && (Z.of_nat (length (fb_windows binding)) =? 2)
    else "INCOMPATIBLE_CHECKPOINT_SCHEMA_OR_FAMILY";
  _ ← validate_dependencies (fb_dependency_inventory binding);
  first ← of_option IndexError (head (fb_windows binding));
  expected ← family_binding (rw_end first) settings costs (Some policy);
  require! bool_decide (binding = expected) else "FULL_FAMILY_BINDING_CONFLICT";
  Ok binding.

Definition verify_identity (binding : FamilyBinding) : res unit :=
  '(members, duplicate) ← normalize universe;
  expected_windows ← (match fb_windows binding with
                      | [] => Ok []
                      | first :: _ => six ← standard_window (rw_end first) 6; twelve ← standard_window (rw_end first) 12;
                                      Ok [six; twelve]
                      end);
  let conflict := Err (ValueError "FULL_FAMILY_BINDING_CONFLICT") in
  if negb (bool_decide (fb_schema binding = SCHEMA)) || negb (is_nil duplicate) ||
     negb (Z.of_nat (length members) =? SYMBOL_COUNT) || negb (bool_decide (fb_symbols binding = mb_symbol <$> members)) ||
     negb (bool_decide (fb_universe_hash binding = universe_hash)) || negb (fb_hypotheses binding =? family_size) ||
     negb (bool_decide (fb_windows binding = expected_windows)) then conflict
  else
    policy ← frozen_policy None;
    if negb (bool_decide (fb_policy_hash binding = digest (model_dump_json policy))) then conflict
    else
      registry_ ← registry_hash;
      if negb (bool_decide (fb_registry_hash binding = registry_)) then conflict
      else
        software ← validate_dependencies (fb_dependency_inventory binding);
        if negb (bool_decide (fb_software_hash binding = software)) ||
           negb (bool_decide (fb_dependency_inventory binding = inventory)) then conflict
        else Ok tt.

(** ** Partitions and results *)

Definition known_definition (d : Definition_) (known : list Definition_) : bool :=
  match List.find (fun r => bool_decide (df_identifier r = df_identifier d)) known with
  | Some r => definition_eqb d r
  | None => false
  end.

Definition partition_keys (symbols : list string) (definitions : list Definition_)
    (windows : list ResearchWindow) (binding : FamilyBinding) : res (list (string * identifier * Z)) :=
  reject! is_nil symbols || negb (bool_decide (NoDup symbols)) ||
          negb (forallb (fun s => bool_decide (s ∈ fb_symbols binding)) symbols) as "PARTITION_UNIVERSE_CONFLICT";
  full ← registry;
  reject! is_nil definitions || negb (bool_decide (NoDup (df_identifier <$> definitions)))
    as "PARTITION_REGISTRY_CONFLICT";
  reject! existsb (fun d => negb (known_definition d full)) definitions as "PARTITION_REGISTRY_CONFLICT";
  reject! is_nil windows || negb (bool_decide (NoDup (rw_months <$> windows))) as "PARTITION_WINDOWS_CONFLICT";
  reject! existsb (fun w => negb (bool_decide (w ∈ fb_windows binding))) windows as "PARTITION_WINDOWS_CONFLICT";
  Ok (s ← symbols; w ← windows; d ← definitions; [(s, df_identifier d, rw_months w)]).

Definition bind_result (r : Result) (binding : FamilyBinding) : res Result :=
  reject! negb (bool_decide (rs_policy_hash r = fb_policy_hash binding)) ||
          negb (bool_decide (rs_window r ∈ fb_windows binding)) as "RESULT_FAMILY_CONFLICT";
  known ← registry;
  let reference := List.find (fun d => bool_decide (df_identifier d = rs_strategy_id r)) known in
  require! bool_decide (rs_symbol r ∈ fb_symbols binding) &&
           match reference with
           | Some d => bool_decide (rs_strategy_hash r = digest (model_dump_json d)) &&
                       bool_decide (rs_strategy_version r = "1"%string)
           | None => false
           end else "RESULT_FAMILY_CONFLICT";
  Ok (mkResult (Some (run_id binding)) (Some (fb_hypotheses binding)) (rs_symbol r) (rs_strategy_id r)
        (rs_strategy_version r) (rs_strategy_hash r) (rs_window r) (rs_policy_hash r) (rs_dataset_hash r)
        (rs_data_status r) (rs_synthetic r) (rs_qualified r) (rs_reasons r) (rs_coverage r) (rs_training r)
        (rs_validation r) (rs_holdout r) (rs_total r) (rs_qualification r) (rs_trades r)).
End family.

(** ** Qualification rows *)

(** [Series.adjustment] *)
Definition ADJUSTMENT : string := "PROVIDER_UNSPECIFIED_NO_LOCAL_ADJUSTMENT".

Record Row := mkRow {
  qr_schema : string; qr_run_id : string; qr_software_hash : string; qr_calendar_hash : option string;
  qr_corporate_action_policy : option string; qr_risk_policy_hash : string; qr_capital : dec; qr_result : Result
}.
(** The row of a bound result: binding it again must change nothing. *)
Definition row `{Dump Definition_} `{Dump FamilyBinding} (r : Result) (family : FamilyBinding)
    (data : option Dataset_) (run : string) (risk_hash : string) (capital : dec) (software_hash : string) : res Row :=
  bound ← bind_result r family;
  require! bool_decide (rs_family_run_id bound = rs_family_run_id r) &&
           bool_decide (rs_hypothesis_family_size bound = rs_hypothesis_family_size r) else "UNBOUND_QUALIFICATION_RESULT";
  require! bool_decide (rs_dataset_hash r = rd_sha256 <$> data) else "DATASET_BINDING_CONFLICT";
  Ok (mkRow "Phase1417Qualification.v1" run software_hash ((sr_calendar_hash ∘ rd_series) <$> data)
        ((fun _ => ADJUSTMENT) <$> data) risk_hash capital r).

(** [not value] of an optional text. *)
Definition no_text (o : option string) : bool := match o with Some s => len s =? 0 | None => true end.

Definition row_status (r : Row) : string := primary (qr_result r).
Definition row_fingerprint `{Dump Row} (r : Row) : string := digest (model_dump_json r).

Definition metrics_eqb (a b : Metrics) : bool :=
  (m_trades a =? m_trades b) && (m_wins a =? m_wins b) && (m_losses a =? m_losses b) &&
  (m_breakeven a =? m_breakeven b) && deqb (m_win_rate a) (m_win_rate b) && deqb (m_expectancy a) (m_expectancy b) &&
  deqb (m_net a) (m_net b) && deqb (m_net_return a) (m_net_return b) && deqb (m_costs a) (m_costs b) &&
  deqb (m_drawdown a) (m_drawdown b).
Fixpoint all_eqb {A} (eqb : A -> A -> bool) (l l' : list A) : bool :=
  match l, l' with
  | [], [] => true
  | x :: l, y :: l' => eqb x y && all_eqb eqb l l'
  | _, _ => false
  end.
Definition qualification_eqb (a b : Qualification) : bool :=
  Bool.eqb (q_qualified a) (q_qualified b) && bool_decide (q_reasons a = q_reasons b) &&
  metrics_eqb (q_out_of_sample a) (q_out_of_sample b) && all_eqb metrics_eqb (q_folds a) (q_folds b).

Section gate.
Context `{Dump Policy} (uncertain : Metrics -> bool) (software_hash : string).

(** The identity and completeness checks of the gate. *)
Definition gate_identity (row : Row) (policy : Policy) : bool :=
  let r := qr_result row in
  bool_decide (qr_schema row = "Phase1417Qualification.v1"%string) &&
  bool_decide (qr_software_hash row = software_hash) &&
  match rs_coverage r with Some c => deqb c (dZ 1) | None => false end &&
  negb (no_text (qr_calendar_hash row)) &&
  bool_decide (rs_policy_hash r = digest (model_dump_json policy)) &&
  bool_decide (rs_hypothesis_family_size r = Some 13380) &&
  negb (no_text (rs_family_run_id r)) && negb (no_text (rs_dataset_hash r)) &&
  match rs_holdout r with Some _ => true | None => false end &&
  bool_decide (rs_data_status r ∈ ["SYNTHETIC"; "LOCAL_VERIFIED"]%string).

Definition numerical_gate (row : Row) : res bool :=
  let r := qr_result row in
  policy ← frozen_policy None;
  match rs_qualification r with
  | None => Ok false
  | Some expected =>
      if negb (gate_identity row policy) then Ok false
      else
        q ← qualify uncertain (rs_trades r) (qr_capital row) (rw_holdout_start (rs_window r))
              (rw_folds (rs_window r)) policy;
        Ok (qualification_eqb q expected && q_qualified q &&
            forallb (fun reason => reason =? "SYNTHETIC_NOT_HISTORICAL_PERFORMANCE")%string (rs_reasons r))
  end.
End gate.
