(* ===== verification/Chain.v ===== *)
(** * Hash-chained journals

    Every paper component keeps its events in a list in which a row stores the hash of
    the previous row and the hash of its own canonical text.  [Journal] is the interface
    of such a row; the theory (a journal that ends in the same hash is the same journal,
    unless the digest collides) is proved once, for every component; so are the paths of
    a transition table and the order of chronological journals. *)
From S2P Require Import Prelude Text Json JsonFacts.
From Stdlib Require Import Ascii.
Open Scope list_scope.
Open Scope Z_scope.

(** ["0" * 64] *)
Definition GENESIS : string := String.string_of_list_ascii (repeat "0"%char 64).

(** The hashed text of a row, and the two hashes it stores. *)
Class Journal (R : Type) := {
  row_text : R -> bytes;
  previous_hash : R -> string;
  current_hash : R -> string;
  row_text_links : forall r r', row_text r = row_text r' -> previous_hash r = previous_hash r'
}.

Section journal.
Context `{Journal R}.
Implicit Types (l : list R) (r : R).

(** [events[-1]["current_hash"] if events else "0" * 64] *)
Definition tip l : string := match last l with Some r => current_hash r | None => GENESIS end.

Inductive chained : list R -> Prop :=
| chained_nil : chained []
| chained_snoc l r : chained l -> previous_hash r = tip l -> current_hash r = sha (row_text r) ->
    chained (l ++ [r]).

Lemma tip_snoc l r : tip (l ++ [r]) = current_hash r.
Proof. unfold tip. by rewrite last_snoc. Qed.

Lemma chained_inv l r : chained (l ++ [r]) ->
  chained l /\ previous_hash r = tip l /\ current_hash r = sha (row_text r).
Proof.
  intros Hc. remember (l ++ [r]) as l' eqn:E. destruct Hc as [|l0 r0 Hc Hp Hh]; [by destruct l|].
  apply app_inj_tail in E as [-> ->]. done.
Qed.

(** Two rows with different texts and the same digest. *)
Definition collision l l' : Prop :=
  exists r r', r ∈ l /\ r' ∈ l' /\ row_text r <> row_text r' /\ sha (row_text r) = sha (row_text r').
(** A row whose digest is the starting value of a chain. *)
Definition zero_digest l : Prop := exists r, r ∈ l /\ sha (row_text r) = GENESIS.

Lemma collision_mono l l' m m' : l ⊆ m -> l' ⊆ m' -> collision l l' -> collision m m'.
Proof. intros Hl Hl' (r & r' & Hr & Hr' & Hx). exists r, r'. split; [by apply Hl|]. split; [by apply Hl'|done]. Qed.
Lemma zero_digest_mono l m : l ⊆ m -> zero_digest l -> zero_digest m.
Proof. intros Hl (r & Hr & Hx). exists r. split; [by apply Hl|done]. Qed.

(** The final hash determines the journal. *)
Lemma chained_determined l l' : chained l -> chained l' -> tip l = tip l' ->
  row_text <$> l = row_text <$> l' \/ collision l l' \/ zero_digest l \/ zero_digest l'.
Proof.
  intros Hc. revert l'. induction Hc as [|l r Hc IH Hp Hh]; intros l' Hc' Ht.
  - destruct l' as [|r' l' _] using rev_ind; [by left|]. right. right. right.
    apply chained_inv in Hc' as (_ & _ & Hh'). rewrite tip_snoc in Ht. exists r'.
    split; [set_solver|]. by rewrite <- Hh', <- Ht.
  - destruct l' as [|r' l' _] using rev_ind.
    { right. right. left. rewrite tip_snoc in Ht. exists r. split; [set_solver|]. by rewrite <- Hh, Ht. }
    apply chained_inv in Hc' as (Hc' & Hp' & Hh'). rewrite !tip_snoc in Ht.
    destruct (decide (row_text r = row_text r')) as [E|E].
    + destruct (IH l' Hc') as [IH'|[IH'|[IH'|IH']]].
      * by rewrite <- Hp, <- Hp', (row_text_links _ _ E).
      * left. rewrite !fmap_app, IH'. cbn. by rewrite E.
      * right. left. eapply collision_mono; [..|exact IH']; set_solver.
      * right. right. left. eapply zero_digest_mono; [|exact IH']; set_solver.
      * right. right. right. eapply zero_digest_mono; [|exact IH']; set_solver.
    + right. left. exists r, r'. split; [set_solver|]. split; [set_solver|]. split; [done|]. congruence.
Qed.
End journal.

(** ** Lifecycles *)

(** A path of a transition table from a state; the last argument is the state reached. *)
Inductive path {S} (next : option S -> list S) : option S -> list S -> option S -> Prop :=
| path_nil s : path next s [] s
| path_snoc s l t u : path next s l t -> u ∈ next t -> path next s (l ++ [u]) (Some u).

(** A measure that every transition decreases bounds the paths. *)
Lemma path_length {S} (next : option S -> list S) (remaining : option S -> nat) :
  (forall s u, u ∈ next s -> (remaining (Some u) < remaining s)%nat) ->
  forall s l t, path next s l t -> (length l + remaining t <= remaining s)%nat.
Proof.
  intros Hstep s l t. induction 1 as [|s l t u _ IH Hu]; [cbn; lia|]. rewrite length_app. cbn [length].
  pose proof (Hstep t u Hu). lia.
Qed.
Lemma path_last {S} (next : option S -> list S) l t : path next None l t -> t = last l.
Proof. remember None as s eqn:Es. intros H. destruct H; [by subst|]. by rewrite last_snoc. Qed.

(** ** Chronological lists *)

Lemma sorted_snoc {A} (R : A -> A -> Prop) l x : StronglySorted R l -> Forall (fun y => R y x) l ->
  StronglySorted R (l ++ [x]).
Proof.
  induction 1 as [|y l Hs IH Hy]; intros Hf; cbn; [by repeat constructor|]. inversion Hf; subst.
  constructor; [by apply IH|]. apply Forall_app. split; [done|]. by constructor.
Qed.

(** Everything is at most the last element of a sorted list. *)
Lemma sorted_last {A} (f : A -> Z) l t : StronglySorted (fun x y => f x <= f y) l ->
  match last l with Some x => f x <= t | None => True end -> Forall (fun x => f x <= t) l.
Proof.
  destruct l as [|x l _] using rev_ind; [done|]. rewrite last_snoc. intros Hs Hx. apply Forall_app.
  split; [|by constructor]. clear -Hs Hx. induction l as [|y l IH]; [done|]. cbn in Hs. inversion Hs; subst.
  constructor; [|by apply IH]. apply Forall_app in H2 as [_ H2]. inversion H2; subst. lia.
Qed.

(** ** Rows as dictionaries *)

(** The canonical text of a dictionary. *)
Definition dict_text (m : gmap string json) : bytes := canonical (JObj (map_to_list m)).

(** A dictionary is read back from its text, up to the order of nested fields. *)
Lemma dict_text_inj m m' : dict_text m = dict_text m' -> norm <$> m = norm <$> m'.
Proof.
  intros E%canonical_inj. cbn [norm] in E. injection E as E.
  assert (P : (prod_map id norm <$> map_to_list m) ≡ₚ (prod_map id norm <$> map_to_list m')).
  { assert (Hf : forall l : list (string * json), List.map (fun f => (f.1, norm f.2)) l = prod_map id norm <$> l)
      by (intros l; apply list_fmap_ext; by intros i [] _).
    rewrite <- !Hf, <- (sort_fields_perm (List.map _ (map_to_list m))),
      <- (sort_fields_perm (List.map _ (map_to_list m'))). by rewrite E. }
  rewrite <- !map_to_list_fmap in P. by apply map_to_list_inj in P.
Qed.

(** ** Equality of values *)

Fixpoint json_eqb (a b : json) : bool :=
  match a, b with
  | JNull, JNull => true
  | JBool x, JBool y => Bool.eqb x y
  | JInt n, JInt m => n =? m
  | JStr s, JStr t => (s =? t)%string
  | JArr l, JArr m =>
      (fix all l m := match l, m with
                      | [], [] => true
                      | x :: l, y :: m => json_eqb x y && all l m
                      | _, _ => false
                      end) l m
  | JObj l, JObj m =>
      (fix all l m := match l, m with
                      | [], [] => true
                      | (k, x) :: l, (h, y) :: m => (k =? h)%string && json_eqb x y && all l m
                      | _, _ => false
                      end) l m
  | _, _ => false
  end.

Lemma json_eqb_spec a b : json_eqb a b = true <-> a = b.
Proof.
  revert b. induction a as [|x|n|s|l IH|l IH] using json_nested_ind; intros b; destruct b as [|y|m|t|l'|l']; cbn;
    try (split; [done|discriminate] || done).
  - rewrite Bool.eqb_true_iff. naive_solver.
  - rewrite Z.eqb_eq. naive_solver.
  - rewrite String.eqb_eq. naive_solver.
  - transitivity (l = l'); [|naive_solver]. revert l'. induction IH as [|x l Hx _ IH]; intros [|y l']; try done.
    rewrite andb_true, Hx, IH. naive_solver.
  - transitivity (l = l'); [|naive_solver]. revert l'. induction IH as [|[k x] l Hx _ IH]; intros [|[h y] l']; try done.
    rewrite !andb_true, Hx, IH, String.eqb_eq. naive_solver.
Qed.
#[export] Instance json_eq_dec : EqDecision json.
Proof.
  intros a b. destruct (json_eqb a b) eqn:E; [left; by apply json_eqb_spec|right].
  intros H%json_eqb_spec. congruence.
Defined.
