(* ===== verification/PyText.v ===== *)
(** * Numbers and instants as text

    [str(Decimal)] and [Decimal(str)], [datetime.isoformat] and [datetime.fromisoformat]:
    the texts in which the paper components write amounts and instants into their events
    and read them back.  The state of these components is modelled with the numbers
    themselves; [dec_of_str_str] is what makes that faithful: reading a written amount
    gives the same coefficient and exponent. *)
From S2P Require Import Prelude Decimal DecimalFacts Text Dataset Json JsonFacts Research.
From S2P Require Import MoneyFacts.
From Stdlib Require Import Ascii.
Open Scope list_scope.
Open Scope Z_scope.

(** ** Decimals *)

Definition zeros_text (n : Z) : bytes := repeat "0"%char (Z.to_nat n).
Definition signed_text (n : Z) : bytes := if n <? 0 then text (int_text n) else "+"%char :: text (nat_text n).

(** [Decimal.__str__]: plain notation unless the exponent is positive or the number is
    below 10^-6, scientific notation otherwise. *)
Definition dec_text (d : dec) : bytes :=
  let digits := text (nat_text (Z.abs (coef d))) in
  let n := Z.of_nat (length digits) in
  let left := dexp d + n in
  let dot := if (dexp d <=? 0) && (-6 <? left) then left else 1 in
  let body :=
    if dot <=? 0 then "0"%char :: "."%char :: zeros_text (- dot) ++ digits
    else if n <=? dot then digits ++ zeros_text (dot - n)
    else take (Z.to_nat dot) digits ++ "."%char :: drop (Z.to_nat dot) digits in
  (if coef d <? 0 then ["-"%char] else []) ++ body ++
  (if left =? dot then [] else "E"%char :: signed_text (left - dot)).
Definition dec_str (d : dec) : string := String.string_of_list_ascii (dec_text d).

(** [Decimal(text)] of a finite number. *)
Definition parse_exponent (l : bytes) : option Z :=
  match l with
  | [] => Some 0
  | e :: s :: ds =>
      if (is_char 69 e || is_char 101 e) && forallb is_digit ds && (1 <=? Z.of_nat (length ds)) then
        if is_char 43 s then Some (parse_digits ds)
        else if is_char 45 s then Some (- parse_digits ds) else None
      else None
  | _ => None
  end.
Definition dec_of_text (l : bytes) : option dec :=
  let '(negative, l) :=
    match l with c :: l' => if is_char 45 c then (true, l') else (false, l) | [] => (false, l) end in
  let '(ip, rest) := span is_digit l in
  let '(frac, rest) :=
    match rest with
    | c :: rest' => if is_char 46 c then span is_digit rest' else ([], rest)
    | [] => ([], rest)
    end in
  if is_nil (ip ++ frac) then None
  else
    e ← parse_exponent rest;
    let n := parse_digits (ip ++ frac) in
    Some (Dec (if negative : bool then - n else n) (e - Z.of_nat (length frac))).
Definition dec_of_str (s : string) : option dec := dec_of_text (text s).

Example dec_str_plain : dec_str (Dec (-12345) (-2)) = "-123.45"%string.
Proof. reflexivity. Qed.
Example dec_str_small : dec_str (Dec 5 (-3)) = "0.005"%string /\ dec_str (Dec 5 (-9)) = "5E-9"%string.
Proof. done. Qed.
Example dec_str_large : dec_str (Dec 120 3) = "1.20E+5"%string /\ dec_str (Dec 0 (-2)) = "0.00"%string.
Proof. done. Qed.

(** ** Instants *)

(** [datetime.fromisoformat] of the texts that [isoformat] writes for an aware UTC
    instant: [YYYY-MM-DDTHH:MM:SS[.ffffff]+00:00]. *)
Definition slice (i n : nat) (l : bytes) : bytes := take n (drop i l).
Definition number_at (i n : nat) (l : bytes) : option Z :=
  let ds := slice i n l in
  if forallb is_digit ds && (length ds =? n)%nat then Some (parse_digits ds) else None.
Definition separators_ok (l : bytes) : bool :=
  bool_decide (slice 4 1 l = text "-") && bool_decide (slice 7 1 l = text "-") &&
  bool_decide (slice 10 1 l = text "T") && bool_decide (slice 13 1 l = text ":") &&
  bool_decide (slice 16 1 l = text ":").
Definition microseconds (l : bytes) : option Z :=
  if bool_decide (l = text "+00:00") then Some 0
  else if bool_decide (slice 0 1 l = text ".") && bool_decide (drop 7 l = text "+00:00")
       then number_at 1 6 l else None.
Definition fromisoformat (s : string) : res Z :=
  let l := text s in
  of_option (ValueError "Invalid isoformat string") (
    if negb (separators_ok l) then None
    else
      y ← number_at 0 4 l; m ← number_at 5 2 l; d ← number_at 8 2 l;
      hh ← number_at 11 2 l; mi ← number_at 14 2 l; ss ← number_at 17 2 l;
      us ← microseconds (drop 19 l);
      if (1 <=? y) && (1 <=? m) && (m <=? 12) && (1 <=? d) && (d <=? month_days y m) &&
         (hh <=? 23) && (mi <=? 59) && (ss <=? 59)
      then Some (civil_days y m d * DAY + hh * HOUR + mi * MINUTE + ss * SECOND + us)
      else None).

Example fromisoformat_sample : fromisoformat "2026-10-03T03:30:00+00:00" = Ok 1790998200000000
  /\ fromisoformat "2026-10-03T03:30:00.000250+00:00" = Ok 1790998200000250.
Proof. vm_compute. done. Qed.

(** ** Reading back a written amount

    [dec_of_str_str]: [Decimal(str(d))] is [d], coefficient and exponent. *)

Lemma span_stops l rest : forallb is_digit l = true ->
  match rest with [] => True | c :: _ => is_digit c = false end -> span is_digit (l ++ rest) = (l, rest).
Proof.
  intros Hl Hr. destruct rest as [|c rest]; [rewrite app_nil_r; by apply span_digits_nil|by apply span_digits].
Qed.

(** ** The exponent *)

Definition exponent_text (e : Z) : bytes := if e =? 0 then [] else "E"%char :: signed_text e.

Lemma nat_digits n : 0 <= n ->
  forallb is_digit (text (nat_text n)) = true /\ parse_digits (text (nat_text n)) = n /\ text (nat_text n) <> [].
Proof.
  intros Hn. destruct (nat_text_prints n Hn) as [D V (c & l & E & _)]. unfold text.
  split; [done|]. split; [done|]. by rewrite E.
Qed.

Lemma nonempty_length (l : bytes) : l <> [] -> (1 <=? Z.of_nat (length l)) = true.
Proof. destruct l; [done|]. intros _. apply Z.leb_le. cbn. lia. Qed.

Lemma parse_exponent_text e : parse_exponent (exponent_text e) = Some e.
Proof.
  unfold exponent_text. destruct (e =? 0) eqn:E0; bool_inv; [by subst|].
  unfold signed_text, int_text. destruct (e <? 0) eqn:En; bool_inv.
  - destruct (nat_digits (- e) ltac:(lia)) as (D & V & N). cbn [text String.list_ascii_of_string parse_exponent].
    change (String.list_ascii_of_string (nat_text (- e))) with (text (nat_text (- e))).
    rewrite D, V, (nonempty_length _ N). change (Some (- - e) = Some e). f_equal. lia.
  - destruct (nat_digits e ltac:(lia)) as (D & V & N). cbn [parse_exponent].
    by rewrite D, V, (nonempty_length _ N).
Qed.

Lemma exponent_text_head e : match exponent_text e with [] => True | c :: _ => c = "E"%char end.
Proof. unfold exponent_text. by destruct (e =? 0). Qed.

(** ** The number *)

Definition fraction_digits (f : option bytes) : bytes := match f with Some f => f | None => [] end.
(** An integer part, maybe a point and a fraction, and an exponent. *)
Definition number_text (negative : bool) (ip : bytes) (frac : option bytes) (e : Z) : bytes :=
  (if negative then ["-"%char] else []) ++
  (ip ++ match frac with Some f => "."%char :: f | None => [] end) ++ exponent_text e.

Lemma parse_number negative ip frac e : forallb is_digit ip = true -> ip <> [] ->
  forallb is_digit (fraction_digits frac) = true ->
  let n := parse_digits (ip ++ fraction_digits frac) in
  dec_of_text (number_text negative ip frac e) =
  Some (Dec (if negative then - n else n) (e - Z.of_nat (length (fraction_digits frac)))).
Proof.
  intros Hip Hne Hf n. unfold dec_of_text, number_text.
  pose proof (exponent_text_head e) as He. pose proof (parse_exponent_text e) as Hp.
  set (x := exponent_text e) in *. clearbody x.
  assert (Hsign : (match (if negative then ["-"%char] else []) ++
      (ip ++ match frac with Some f => "."%char :: f | None => [] end) ++ x with
      | c :: l' => if is_char 45 c then (true, l') else (false, c :: l') | [] => (false, []) end) =
    (negative, (ip ++ match frac with Some f => "."%char :: f | None => [] end) ++ x)).
  { destruct negative; [done|]. destruct ip as [|c ip]; [done|]. cbn in Hip |- *. bool_inv.
    enough (is_char 45 c = false) as -> by done. unfold is_digit, in_range, is_char in *. bool_inv. lia. }
  destruct ((if negative then ["-"%char] else []) ++
      (ip ++ match frac with Some f => "."%char :: f | None => [] end) ++ x) as [|c0 l0] eqn:El.
  { destruct negative; [done|]. by destruct ip. }
  rewrite Hsign. rewrite <- app_assoc. destruct frac as [f|]; cbn [fraction_digits] in *.
  - rewrite span_stops by done. cbn [app]. change (is_char 46 ".") with true. cbn iota.
    rewrite span_stops; [|done|destruct x; [done|by subst]]. destruct ip as [|c ip]; [done|].
    cbn [app is_nil]. rewrite Hp. done.
  - cbn [app]. rewrite span_stops; [|done|destruct x; [done|by subst]].
    destruct ip as [|c ip]; [done|]. destruct x as [|c1 x].
    + cbn [app is_nil]. rewrite Hp. unfold n. by rewrite !app_nil_r.
    + subst c1. change (is_char 46 "E") with false. cbn [app is_nil]. rewrite Hp. unfold n. by rewrite !app_nil_r.
Qed.

Lemma zeros_digits n : forallb is_digit (zeros_text n) = true /\ parse_digits (zeros_text n) = 0.
Proof.
  unfold zeros_text. induction (Z.to_nat n) as [|k [IH1 IH2]]; [done|]. cbn [repeat forallb].
  rewrite IH1. split; [done|]. change ("0"%char :: repeat "0"%char k) with (["0"%char] ++ repeat "0"%char k).
  by rewrite parse_digits_app, IH2.
Qed.

Lemma dec_text_number d :
  exists ip frac e, dec_text d = number_text (coef d <? 0) ip frac e /\
    forallb is_digit ip = true /\ ip <> [] /\ forallb is_digit (fraction_digits frac) = true /\
    parse_digits (ip ++ fraction_digits frac) = Z.abs (coef d) /\
    e - Z.of_nat (length (fraction_digits frac)) = dexp d.
Proof.
  destruct (nat_digits (Z.abs (coef d)) ltac:(lia)) as (D & V & N). unfold dec_text.
  set (digits := text (nat_text (Z.abs (coef d)))) in *.
  assert (Hn : 1 <= Z.of_nat (length digits)) by (destruct digits; [done|cbn; lia]).
  set (n := Z.of_nat (length digits)) in *. set (left := dexp d + n).
  set (dot := if (dexp d <=? 0) && (-6 <? left) then left else 1).
  assert (Hdot : dot = left /\ dexp d <= 0 \/ dot = 1).
  { unfold dot. destruct ((dexp d <=? 0) && (-6 <? left)) eqn:E; [left|by right]. bool_inv. done. }
  assert (He : (if left =? dot then [] else "E"%char :: signed_text (left - dot)) = exponent_text (left - dot)).
  { unfold exponent_text. destruct (left =? dot) eqn:E1, (left - dot =? 0) eqn:E2; bool_inv; lia || done. }
  rewrite He. destruct (dot <=? 0) eqn:E1; [|destruct (n <=? dot) eqn:E2]; bool_inv.
  - exists ["0"%char], (Some (zeros_text (- dot) ++ digits)), (left - dot). cbn [fraction_digits].
    destruct (zeros_digits (- dot)) as [Z1 Z2]. split; [done|]. split; [done|]. split; [done|].
    split; [by rewrite forallb_app, Z1, D|]. split.
    + change (["0"%char] ++ ?l) with ("0"%char :: l).
      change ("0"%char :: zeros_text (- dot) ++ digits) with (("0"%char :: zeros_text (- dot)) ++ digits).
      rewrite parse_digits_app. change ("0"%char :: ?l) with (["0"%char] ++ l).
      rewrite parse_digits_app, Z2, V. change (parse_digits ["0"%char]) with 0. lia.
    + rewrite length_app. unfold zeros_text. rewrite repeat_length. lia.
  - exists digits, None, (left - dot). cbn [fraction_digits length]. rewrite app_nil_r.
    assert (dot - n = 0) by lia. replace (zeros_text (dot - n)) with (@nil ascii) by (by rewrite H).
    rewrite app_nil_r. unfold number_text. rewrite app_nil_r.
    split; [done|]. split; [done|]. split; [done|]. split; [done|]. split; [done|]. lia.
  - exists (take (Z.to_nat dot) digits), (Some (drop (Z.to_nat dot) digits)), (left - dot). cbn [fraction_digits].
    rewrite take_drop. rewrite <- (take_drop (Z.to_nat dot) digits), forallb_app in D. bool_inv.
    split; [done|]. split; [done|]. split.
    { intros E%(f_equal length). rewrite length_take in E. cbn in E. lia. }
    split; [done|]. split; [done|]. rewrite length_drop. lia.
Qed.

(** Reading back what [str] wrote. *)
Lemma dec_of_str_str d : dec_of_str (dec_str d) = Some d.
Proof.
  unfold dec_of_str, dec_str, text. rewrite String.list_ascii_of_string_of_list_ascii.
  destruct (dec_text_number d) as (ip & frac & e & -> & Hip & Hne & Hf & Hv & He).
  rewrite parse_number by done. cbn zeta. rewrite Hv, He. destruct d as [c x]. cbn [coef dexp].
  f_equal. f_equal. destruct (c <? 0) eqn:E; bool_inv; lia.
Qed.

(** Two amounts written alike are the same number. *)
Lemma dec_str_inj d d' : dec_str d = dec_str d' -> d = d'.
Proof. intros E. assert (Some d = Some d') as [=]; [|done]. rewrite <- !dec_of_str_str. by rewrite E. Qed.
