(* ===== verification/Paper.v ===== *)
(** * Paper simulation ([phase1417/paper.py], [phase1415/paper.py])

    The explicit risk policy and its sizing of an order, the offline event of a signal,
    the chained audit with its transition table and its replay, the admission of a
    qualified pair, and the serialized simulation of the frozen candidate stream.
    An event row is a record; the keyword values of [emit] are the record [Values]. *)
From S2P Require Import Prelude Decimal DecimalFacts Text Dataset Costs Phase14 Strategies Execution Json Research Qualification Chain PyText.
Open Scope list_scope.
Open Scope Z_scope.

(** ** The risk policy *)

Record Risk := mkRisk {
  rk_fixture_only : bool; rk_reviewed_evidence : option string; rk_capital : option dec;
  rk_risk_per_trade : option dec; rk_daily_loss : option dec; rk_simultaneous_positions : option Z;
  rk_symbol_exposure : option dec; rk_portfolio_exposure : option dec; rk_max_quantity : option Z;
  rk_correlation_reviewed : bool
}.

(** The falsy values: [None], [Decimal] zero, [0]. *)
Definition no_money (o : option dec) : bool := match o with Some d => coef d =? 0 | None => true end.
Definition no_count (o : option Z) : bool := match o with Some n => n =? 0 | None => true end.

Definition gap_checks (r : Risk) : list (string * bool) :=
  [("reviewed_evidence", no_text (rk_reviewed_evidence r)); ("capital", no_money (rk_capital r));
   ("risk_per_trade", no_money (rk_risk_per_trade r)); ("daily_loss", no_money (rk_daily_loss r));
   ("simultaneous_positions", no_count (rk_simultaneous_positions r));
   ("symbol_exposure", no_money (rk_symbol_exposure r));
   ("portfolio_exposure", no_money (rk_portfolio_exposure r));
   ("max_quantity", no_count (rk_max_quantity r)); ("correlation_reviewed", negb (rk_correlation_reviewed r))]%string.
Definition gaps (r : Risk) : list string :=
  (fun x : string * bool => ("RISK_POLICY_GAP:" +:+ x.1)%string) <$> List.filter snd (gap_checks r).

Record Authorization := mkAuthorization {
  au_synthetic : bool; (* [mode == "SYNTHETIC_FIXTURE"] *)
  au_enabled : bool; au_evidence_hash : string; au_qualification_hash : string; au_risk_hash : string;
  au_dataset_hash : string; au_valid_from : Z; au_valid_to : Z; au_partial_fills : bool; au_paper_halt : bool
}.
Definition au_mode (a : Authorization) : string :=
  if au_synthetic a then "SYNTHETIC_FIXTURE" else "AUTHORIZED_LOCAL_PAPER".

(** ** The size of an order *)

(** [min(first, *rest)] *)
Definition min_list (first : Z) (rest : list Z) : Z := foldl Z.min first rest.

Section size.
Context (settings : Settings) (costs : IntradayCostSchedule).
Context (price : dec) (at_ : Z) (cash : dec) (volume : Z) (stop_fraction : dec).

(** The six caps of the quantity. *)
Definition quantity_cap (max_quantity : Z) (risk_per_trade symbol_exposure portfolio_exposure : dec) : res Z :=
  loss ← pmul price stop_fraction;
  by_risk ← pdiv risk_per_trade loss;
  buffered ← pmul price (se_price_buffer settings);
  by_exposure ← pdiv (dmin (dmin symbol_exposure portfolio_exposure) (se_order_ceiling settings)) buffered;
  by_volume ← pmul (dZ volume) (se_participation settings);
  by_cash ← pdiv cash price;
  Ok (min_list (se_quantity settings)
        [max_quantity; dtrunc by_risk; dtrunc by_exposure; dtrunc by_volume; dtrunc by_cash]).

(** The body of the loop: both limits of one quantity. *)
Definition quantity_fits (risk_per_trade : dec) (quantity : Z) : res bool :=
  buy ← pmul price (dZ quantity);
  buy_fee ← quote_total costs BUY buy at_ None;
  kept ← psub (dZ 1) stop_fraction;
  stopped ← pmul buy kept;
  slip ← pdiv (se_slippage_bps settings) (dZ 10000);
  down ← psub (dZ 1) slip;
  stop_value ← pmul stopped down;
  exit_fee ← quote_total costs SELL stop_value at_ (Some buy);
  need ← padd buy buy_fee;
  if dltb cash need then Ok false
  else
    loss ← psub buy stop_value;
    loss ← padd loss buy_fee;
    loss ← padd loss exit_fee;
    Ok (dleb loss risk_per_trade).

(** [while quantity > 0: ...; quantity -= 1] *)
Fixpoint size_loop (risk_per_trade : dec) (quantity : nat) : res Z :=
  match quantity with
  | O => Ok 0
  | S smaller =>
      fits ← quantity_fits risk_per_trade (Z.of_nat quantity);
      if fits : bool then Ok (Z.of_nat quantity) else size_loop risk_per_trade smaller
  end.

Definition size (risk : Risk) : res Z :=
  if negb (is_nil (gaps risk)) || dleb price d0 || dleb cash d0 then Ok 0
  else
    match rk_risk_per_trade risk, rk_symbol_exposure risk, rk_portfolio_exposure risk, rk_max_quantity risk with
    | Some risk_per_trade, Some symbol_exposure, Some portfolio_exposure, Some max_quantity =>
        cap ← quantity_cap max_quantity risk_per_trade symbol_exposure portfolio_exposure;
        size_loop risk_per_trade (Z.to_nat cap)
    | _, _, _, _ => Err AssertionError
    end.
End size.

(** ** The event of a signal *)

Record PaperEvent := mkPaperEvent {
  pe_strategy_id : identifier; pe_strategy_hash : string; pe_symbol : string; pe_signal_at : Z;
  pe_candle_hash : string; pe_reference : dec; pe_stop : dec; pe_target : dec; pe_expiry : Z;
  pe_idempotency_key : string; pe_rejection : string
}.

Definition event_valid (e : PaperEvent) : res PaperEvent :=
  reject! negb (dltb d0 (pe_stop e) && dltb (pe_stop e) (pe_reference e) && dltb (pe_reference e) (pe_target e)) ||
          (pe_expiry e <=? pe_signal_at e) as "INVALID_PAPER_EVENT";
  Ok e.

Definition event `{Dump Definition_} `{Dump Bar} (symbol : string) (definition : Definition_) (candle : Bar)
    (now : Z) : res PaperEvent :=
  reject! now <? candle_end candle as "INCOMPLETE_SIGNAL_CANDLE";
  below ← psub (dZ 1) (df_stop definition);
  stop ← pmul (b_close candle) below;
  above ← padd (dZ 1) (df_target definition);
  target ← pmul (b_close candle) above;
  let fingerprint := digest (model_dump_json definition) in
  event_valid (mkPaperEvent (df_identifier definition) fingerprint symbol (candle_end candle)
    (digest (model_dump_json candle)) (b_close candle) stop target (candle_end candle + FIVE)
    (digest (symbol +:+ fingerprint +:+ model_dump_json candle)%string)
    (if candle_end candle + FIVE <=? now then "EXPIRED" else "OFFLINE_ONLY_NO_TRANSPORT")).

(** ** The audit *)

Inductive PaperState :=
| SIGNAL_RECEIVED | ELIGIBILITY_CHECKED | RISK_APPROVED | PAPER_ORDER_CREATED | PAPER_ORDER_ACCEPTED
| PAPER_ORDER_REJECTED | PAPER_FILLED | PAPER_POSITION_OPEN | PAPER_EXIT_PENDING | PAPER_POSITION_CLOSED
| PAPER_CANCELLED | PAPER_HALTED.
#[export] Instance paper_state_eq_dec : EqDecision PaperState.
Proof. solve_decision. Defined.

Definition state_text (s : PaperState) : string :=
  match s with
  | SIGNAL_RECEIVED => "SIGNAL_RECEIVED" | ELIGIBILITY_CHECKED => "ELIGIBILITY_CHECKED"
  | RISK_APPROVED => "RISK_APPROVED" | PAPER_ORDER_CREATED => "PAPER_ORDER_CREATED"
  | PAPER_ORDER_ACCEPTED => "PAPER_ORDER_ACCEPTED" | PAPER_ORDER_REJECTED => "PAPER_ORDER_REJECTED"
  | PAPER_FILLED => "PAPER_FILLED" | PAPER_POSITION_OPEN => "PAPER_POSITION_OPEN"
  | PAPER_EXIT_PENDING => "PAPER_EXIT_PENDING" | PAPER_POSITION_CLOSED => "PAPER_POSITION_CLOSED"
  | PAPER_CANCELLED => "PAPER_CANCELLED" | PAPER_HALTED => "PAPER_HALTED"
  end.

Definition TRANSITIONS (previous : option PaperState) : list PaperState :=
  match previous with
  | None => [SIGNAL_RECEIVED]
  | Some SIGNAL_RECEIVED => [ELIGIBILITY_CHECKED; PAPER_HALTED]
  | Some ELIGIBILITY_CHECKED => [RISK_APPROVED; PAPER_ORDER_REJECTED; PAPER_HALTED]
  | Some RISK_APPROVED => [PAPER_ORDER_CREATED]
  | Some PAPER_ORDER_CREATED => [PAPER_ORDER_ACCEPTED; PAPER_ORDER_REJECTED; PAPER_CANCELLED]
  | Some PAPER_ORDER_ACCEPTED => [PAPER_FILLED; PAPER_CANCELLED; PAPER_HALTED]
  | Some PAPER_FILLED => [PAPER_POSITION_OPEN]
  | Some PAPER_POSITION_OPEN => [PAPER_EXIT_PENDING; PAPER_HALTED]
  | Some PAPER_EXIT_PENDING => [PAPER_POSITION_CLOSED; PAPER_HALTED]
  | Some _ => []
  end.

(** The keyword values of an event, with the defaults of the row. *)
Record Values := mkValues {
  v_price : option dec; v_quantity : Z; v_fees : option dec; v_cash : option dec; v_position : Z;
  v_rejection : option string; v_timing : option (gmap string string)
}.
Definition no_values : Values := mkValues None 0 None None 0 None None.

Record PaperRow := mkPaperRow {
  pr_event_id : string; pr_run_id : string; pr_signal : string; pr_identity : gmap string json;
  pr_order_id : string; pr_at : Z; pr_previous : option PaperState; pr_state : PaperState;
  pr_previous_hash : string; pr_values : Values; pr_current_hash : string
}.

Record Audit := mkAudit {
  ad_binding : gmap string json; ad_run_id : string; ad_events : list PaperRow;
  ad_states : gmap string PaperState; ad_keys : gset string
}.

(** Optional columns. *)
Definition jopt {A} (f : A -> json) (o : option A) : json := match o with Some x => f x | None => JNull end.
Definition jdec (d : dec) : json := JStr (dec_str d).
Definition jtexts (m : gmap string string) : json := JObj (map_to_list (JStr <$> m)).

Definition audit_init (binding : gmap string json) : res Audit :=
  require! bool_decide (canonical <$> binding !! "execution_policy_version"%string =
                        Some (canonical (JStr EXECUTION_VERSION))) &&
           bool_decide (canonical <$> binding !! "execution_policy_hash"%string =
                        Some (canonical (JStr execution_fingerprint))) else "INCOMPATIBLE_EXECUTION_POLICY";
  Ok (mkAudit binding (sha (dict_text binding)) [] ∅ ∅).

(** The columns an event copies from its binding: (column, key of the binding). *)
Definition identity_columns : list (string * string) :=
  [("qualification_fingerprint", "qualification_hash"); ("risk_policy_fingerprint", "risk_hash");
   ("symbol", "symbol"); ("strategy_id", "strategy_id"); ("strategy_version", "strategy_version");
   ("scope", "scope")]%string.
Definition identity (binding : gmap string json) : res (gmap string json) :=
  list_to_map <$> mapR (fun '(column, key) => v ← of_option KeyError (binding !! key); Ok (column, v)) identity_columns.

(** The row as a dictionary, without its own hash. *)
Definition row_fields (r : PaperRow) : list (string * json) :=
  let v := pr_values r in
  [("event_id", JStr (pr_event_id r)); ("run_id", JStr (pr_run_id r));
   ("signal_fingerprint", JStr (pr_signal r)); ("execution_policy_version", JStr EXECUTION_VERSION);
   ("execution_policy_fingerprint", JStr execution_fingerprint); ("simulated_order_id", JStr (pr_order_id r));
   ("timestamp", JStr (iso (pr_at r))); ("previous_state", jopt (JStr ∘ state_text) (pr_previous r));
   ("state", JStr (state_text (pr_state r))); ("previous_hash", JStr (pr_previous_hash r));
   ("price", jopt jdec (v_price v)); ("quantity", JInt (v_quantity v)); ("fees", jopt jdec (v_fees v));
   ("cash", jopt jdec (v_cash v)); ("position", JInt (v_position v)); ("rejection", jopt JStr (v_rejection v))]%string ++
  match v_timing v with Some t => [("timing"%string, jtexts t)] | None => [] end.
Definition row_dict (r : PaperRow) : gmap string json := list_to_map (row_fields r) ∪ pr_identity r.

(** The transition is allowed, its key is new, the journal has room, time does not go back. *)
Definition emit_guard (a : Audit) (signal : string) (state : PaperState) (key : string) (at_ : Z) : res unit :=
  require! bool_decide (state ∈ TRANSITIONS (ad_states a !! signal)) else "INVALID_OR_REPEATED_PAPER_TRANSITION";
  reject! bool_decide (key ∈ ad_keys a) || (200000 <=? Z.of_nat (length (ad_events a)))
    as "PAPER_IDEMPOTENCY_OR_RESOURCE_LIMIT";
  reject! match last (ad_events a) with Some e => at_ <? pr_at e | None => false end
    as "NON_CHRONOLOGICAL_PAPER_EVENT";
  Ok tt.

Definition last_hash (l : list PaperRow) : string :=
  match last l with Some e => pr_current_hash e | None => GENESIS end.

Definition emit (a : Audit) (signal : string) (state : PaperState) (at_ : Z) (values : Values) : res Audit :=
  let key := digest (ad_run_id a +:+ signal +:+ state_text state)%string in
  _ ← emit_guard a signal state key at_;
  columns ← identity (ad_binding a);
  let row hash := mkPaperRow key (ad_run_id a) signal columns (digest (ad_run_id a +:+ signal)%string) at_
                    (ad_states a !! signal) state (last_hash (ad_events a)) values hash in
  Ok (mkAudit (ad_binding a) (ad_run_id a) (ad_events a ++ [row (sha (dict_text (row_dict (row ""%string))))])
        (<[signal := state]> (ad_states a)) ({[key]} ∪ ad_keys a)).

(** [audit.events[-1] != value]: the rows as records, apart from the values that the
    replayed row has taken from [value]. *)
Definition row_eqb (r s : PaperRow) : bool :=
  bool_decide (pr_event_id r = pr_event_id s) && bool_decide (pr_run_id r = pr_run_id s) &&
  bool_decide (pr_signal r = pr_signal s) && bool_decide (pr_identity r = pr_identity s) &&
  bool_decide (pr_order_id r = pr_order_id s) && (pr_at r =? pr_at s) &&
  bool_decide (pr_previous r = pr_previous s) && bool_decide (pr_state r = pr_state s) &&
  bool_decide (pr_previous_hash r = pr_previous_hash s) && bool_decide (pr_current_hash r = pr_current_hash s).

(** One event of a replay; its values are those of the row itself. *)
Definition replay_step (a : Audit) (value : PaperRow) : res Audit :=
  a ← emit a (pr_signal value) (pr_state value) (pr_at value) (pr_values value);
  require! match last (ad_events a) with Some e => row_eqb e value | None => false end else "PAPER_AUDIT_TAMPERED";
  Ok a.
Definition replay (binding : gmap string json) (events : list PaperRow) : res Audit :=
  a ← audit_init binding; foldR replay_step a events.

(** ** Admission *)

Definition identifier_text (i : identifier) : string :=
  match i with S01 => "S01" | S02 => "S02" | S03 => "S03" | S04 => "S04" | S05 => "S05" | S06 => "S06" end.

(** [value.model_dump(mode="json")] *)
Class DumpJson (A : Type) := model_dump_json_value : A -> json.

Section paper.
Context `{Dump Definition_} `{Dump Bar} `{Dump Row} `{Dump Risk} `{Dump Dataset_} `{Dump Phase14.Policy}.
Context `{DumpJson ResearchWindow} `{DumpJson IntradayCostSchedule} `{DumpJson Settings} `{DumpJson Authorization}.
Context (definition_json : Definition_ -> json).
(** The adjusted Wilson bound of [qualify]; the digests of the software and of the
    universe file. *)
Context (uncertain : Metrics -> bool) (software_hash universe_hash : string).

Definition risk_fingerprint (r : Risk) : string := digest (model_dump_json r).
Definition definition_fingerprint (d : Definition_) : string := digest (model_dump_json d).

Definition authorization_missing (a : Authorization) (series : Series) : bool :=
  negb (au_enabled a) || (sr_from series <? au_valid_from a) || (au_valid_to a <? sr_to series) ||
  (au_valid_to a <=? au_valid_from a).
Definition binding_conflict (q : Row) (data : Dataset_) (risk : Risk) (a : Authorization) : bool :=
  negb (bool_decide (au_qualification_hash a = row_fingerprint q)) ||
  negb (bool_decide (au_risk_hash a = risk_fingerprint risk)) ||
  negb (bool_decide (au_dataset_hash a = rd_sha256 data)) ||
  negb (bool_decide (qr_risk_policy_hash q = risk_fingerprint risk)).
Definition pair_unqualified (gate : bool) (q : Row) (series : Series) (risk : Risk) (synthetic : bool) : bool :=
  negb gate || (negb synthetic && negb (bool_decide (row_status q = "QUALIFIED"%string))) ||
  negb (Bool.eqb (default false (rs_synthetic (qr_result q))) synthetic) ||
  negb (Bool.eqb (sr_synthetic series) synthetic) || negb (Bool.eqb (rk_fixture_only risk) synthetic).
Definition history_conflict (r : Result) (series : Series) (definition : Definition_) : bool :=
  negb (bool_decide (rs_symbol r = sr_symbol series)) ||
  negb (bool_decide (rs_strategy_hash r = definition_fingerprint definition)) ||
  negb (bool_decide (rs_strategy_version r = "1"%string)) || (sr_from series <? rw_end (rs_window r)).
Definition data_defective (data : Dataset_) : bool :=
  rd_quarantined data || negb (rd_calendar_verified data) || negb (rd_mapping_verified data) ||
  negb (sr_corporate_actions_reviewed (rd_series data)) || negb (rd_missing_sessions data =? 0) ||
  negb (rd_duplicate_candles data =? 0) || negb (rd_out_of_order data =? 0) ||
  negb (is_nil (quality (rd_series data)).1) || negb (is_nil (quality (rd_series data)).2).
Definition capital_conflict (risk : Risk) (settings : Settings) : bool :=
  match rk_capital risk with Some c => negb (deqb c (se_capital settings)) | None => true end.

Definition admission (q : Row) (data : Dataset_) (definition : Definition_) (settings : Settings) (risk : Risk)
    (a : Authorization) : res (list string) :=
  let series := rd_series data in
  gate ← numerical_gate uncertain software_hash q;
  Ok (gaps risk ++
      reason_if (authorization_missing a series) "PAPER_AUTHORIZATION_REQUIRED" ++
      reason_if (binding_conflict q data risk a) "PAPER_BINDING_CONFLICT" ++
      reason_if (pair_unqualified gate q series risk (au_synthetic a)) "QUALIFIED_PAIR_REQUIRED" ++
      reason_if (history_conflict (qr_result q) series definition) "STRATEGY_OR_HISTORY_BOUNDARY_CONFLICT" ++
      reason_if (data_defective data) "PAPER_DATA_QUALITY" ++
      reason_if (capital_conflict risk settings) "SIMULATED_CAPITAL_CONFLICT" ++
      reason_if (au_partial_fills a) "PARTIAL_FILLS_UNSUPPORTED_FROZEN_EXECUTOR").

(** ** The serialized simulation *)

(** What the frozen executor offers: trades, unresolved positions, refused entries. *)
Inductive Candidate := Filled (t : Trade) | Retained (u : Unresolved) | Denied (reason : string).

(** [reason.rsplit(":", 1)[0]] *)
Definition before_last_colon (s : string) : string :=
  match list_find (fun c => is_char 58 c = true) (rev (text s)) with
  | Some (i, _) => String.string_of_list_ascii (take (length (text s) - S i) (text s))
  | None => s
  end.

Definition candidates_of (x : Execution) : res (list (Z * Candidate)) :=
  refused ← mapR (fun reason => at_ ← fromisoformat (before_last_colon reason); Ok (at_, Denied reason)) (x_no_fills x);
  Ok (sort_by (fun a b => a.1 <=? b.1)
        (((fun t => (t_entry_at t, Filled t)) <$> x_trades x) ++
         ((fun u => (u_entry_at u, Retained u)) <$> x_unresolved x) ++ refused)).

(** The local variables of the loop. *)
Record Sim := mkSim { si_audit : Audit; si_cash : dec; si_day : option Z; si_day_start_cash : dec }.

Definition reason_text (r : exit_reason) : string :=
  match r with STOP => "STOP" | TARGET => "TARGET" | EOD => "EOD" end.
Definition rejected (reason : string) (cash : dec) : Values := mkValues None 0 None (Some cash) 0 (Some reason) None.

Section run.
Context (series : Series) (definition : Definition_) (settings : Settings) (costs : IntradayCostSchedule) (risk : Risk).
Abbreviation bars := (by_start (sr_bars series)).

(** A refused entry: received, checked, rejected. *)
Definition deny (at_ : Z) (reason : string) (s : Sim) : res Sim :=
  candle ← of_option KeyError (bars !! (at_ - FIVE));
  e ← event (sr_symbol series) definition candle at_;
  let key := pe_idempotency_key e in
  a ← emit (si_audit s) key SIGNAL_RECEIVED at_ no_values;
  a ← emit a key ELIGIBILITY_CHECKED at_ no_values;
  a ← emit a key PAPER_ORDER_REJECTED at_ (rejected reason (si_cash s));
  Ok (mkSim a (si_cash s) (si_day s) (si_day_start_cash s)).

(** [reason] of a sized candidate, or [None]. *)
Definition refusal (at_ expiry : Z) (daily_loss : dec) (quantity : Z) (s : Sim) : res (option string) :=
  if expiry <=? at_ then Ok (Some "SIGNAL_EXPIRED"%string)
  else
    lost ← psub (si_day_start_cash s) (si_cash s);
    Ok (if dleb daily_loss lost then Some "DAILY_LOSS_GUARD"%string
        else if quantity <? 1 then Some "POSITION_SIZE_OR_EXPOSURE_OR_LIQUIDITY"%string else None).

(** The events of a fill, from approval to the open position; the result is the audit,
    the buy value and the cash left. *)
Definition open_position (key : string) (at_ quantity : Z) (entry : dec) (a : Audit) (cash : dec)
    : res (Audit * dec * dec) :=
  timing ← decision_timing series at_;
  let decided := mkValues None quantity None None 0 None (Some timing) in
  a ← emit a key RISK_APPROVED at_ decided;
  a ← emit a key PAPER_ORDER_CREATED at_ decided;
  a ← emit a key PAPER_ORDER_ACCEPTED at_ decided;
  buy ← pmul entry (dZ quantity);
  fee ← quote_total costs BUY buy at_ None;
  spent ← padd buy fee;
  cash ← psub cash spent;
  a ← emit a key PAPER_FILLED at_ (mkValues (Some entry) quantity (Some fee) (Some cash) quantity None (Some timing));
  a ← emit a key PAPER_POSITION_OPEN at_ (mkValues None quantity None (Some cash) quantity None None);
  Ok (a, buy, cash).

(** The exit of a position; [inr] is the [break] of an exit without liquidity. *)
Definition leave_position (key : string) (c : Candidate) (exit_at quantity : Z) (reason : string) (buy : dec)
    (s : Sim) : res (Sim + Sim) :=
  bar ← of_option KeyError (bars !! (exit_at - FIVE));
  a ← emit (si_audit s) key PAPER_EXIT_PENDING exit_at (mkValues None quantity None None quantity (Some reason) None);
  let halted := a ← emit a key PAPER_HALTED exit_at
                      (mkValues None quantity None (Some (si_cash s)) quantity (Some "EXIT_LIQUIDITY_UNVALUED"%string) None);
                Ok (inr (mkSim a (si_cash s) (si_day s) (si_day_start_cash s))) in
  match c with
  | Filled t =>
      share ← pmul (dZ (b_volume bar)) (se_participation settings);
      if dltb share (dZ quantity) then halted
      else
        sell ← pmul (t_exit t) (dZ quantity);
        sell_fee ← quote_total costs SELL sell (b_start bar) (Some buy);
        got ← psub sell sell_fee;
        cash ← padd (si_cash s) got;
        a ← emit a key PAPER_POSITION_CLOSED exit_at
              (mkValues (Some (t_exit t)) quantity (Some sell_fee) (Some cash) 0 (Some reason) None);
        Ok (inl (mkSim a cash (si_day s) (si_day_start_cash s)))
  | _ => halted
  end.

(** A candidate with a position: sized, refused or carried to its exit. *)
Definition take_position (c : Candidate) (signal_at at_ exit_at : Z) (entry : dec) (reason : exit_reason) (s : Sim)
    : res (Sim + Sim) :=
  candle ← of_option KeyError (bars !! (signal_at - FIVE));
  e ← event (sr_symbol series) definition candle at_;
  let key := pe_idempotency_key e in
  let s := if bool_decide (si_day s = Some (nse_date at_)) then s
           else mkSim (si_audit s) (si_cash s) (Some (nse_date at_)) (si_cash s) in
  a ← emit (si_audit s) key SIGNAL_RECEIVED signal_at no_values;
  a ← emit a key ELIGIBILITY_CHECKED at_ no_values;
  liquidity ← liquidity_bar series at_;
  quantity ← size settings costs entry at_ (si_cash s) (b_volume liquidity) (df_stop definition) risk;
  daily_loss ← of_option AssertionError (rk_daily_loss risk);
  refused ← refusal at_ (pe_expiry e) daily_loss quantity s;
  match refused with
  | Some reason =>
      a ← emit a key PAPER_ORDER_REJECTED at_ (rejected reason (si_cash s));
      Ok (inl (mkSim a (si_cash s) (si_day s) (si_day_start_cash s)))
  | None =>
      '(a, buy, cash) ← open_position key at_ quantity entry a (si_cash s);
      leave_position key c exit_at quantity (reason_text reason) buy (mkSim a cash (si_day s) (si_day_start_cash s))
  end.

Definition candidate_step (s : Sim) (x : Z * Candidate) : res (Sim + Sim) :=
  match x.2 with
  | Denied reason => inl <$> deny x.1 reason s
  | Filled t => take_position x.2 (t_signal_at t) (t_entry_at t) (t_exit_at t) (t_entry t) (t_reason t) s
  | Retained u => take_position x.2 (u_signal_at u) (u_entry_at u) (u_exit_at u) (u_entry u) (u_reason u) s
  end.
Fixpoint candidate_loop (l : list (Z * Candidate)) (s : Sim) : res Sim :=
  match l with
  | [] => Ok s
  | x :: l =>
      out ← candidate_step s x;
      match out with inl s => candidate_loop l s | inr s => Ok s end
  end.
End run.

(** The binding of a run. *)
Definition paper_binding (q : Row) (data : Dataset_) (definition : Definition_) (settings : Settings)
    (costs : IntradayCostSchedule) (risk : Risk) (a : Authorization) : res (gmap string json) :=
  let series := rd_series data in
  let r := qr_result q in
  registry_ ← registry_hash definition_json;
  Ok (list_to_map
    [("schema", JStr "Phase1417Paper.v2"); ("execution_policy_version", JStr EXECUTION_VERSION);
     ("execution_policy_hash", JStr execution_fingerprint); ("universe_hash", JStr universe_hash);
     ("registry_hash", JStr registry_); ("family_run_id", jopt JStr (rs_family_run_id r));
     ("qualification_policy_hash", JStr (rs_policy_hash r));
     ("walk_forward", model_dump_json_value (rs_window r));
     ("dataset_provenance_hash", JStr (digest (model_dump_json data)));
     ("corporate_action_policy", JStr ADJUSTMENT); ("qualification_hash", JStr (row_fingerprint q));
     ("risk_hash", JStr (risk_fingerprint risk)); ("dataset_hash", JStr (rd_sha256 data));
     ("calendar_hash", JStr (sr_calendar_hash series)); ("software_hash", JStr software_hash);
     ("strategy_hash", JStr (definition_fingerprint definition)); ("symbol", JStr (sr_symbol series));
     ("strategy_id", JStr (identifier_text (df_identifier definition))); ("strategy_version", JStr "1");
     ("scope", JStr (au_mode a)); ("costs", model_dump_json_value costs);
     ("settings", model_dump_json_value settings); ("authorization", model_dump_json_value a)])%string.

(** The run that is not admitted, or halted by its authorization. *)
Definition refuse_admission (audit : Audit) (start : Z) (failures : list string) (halt : bool) (cash : dec) : res Audit :=
  let signal := digest (ad_run_id audit +:+ "admission")%string in
  a ← emit audit signal SIGNAL_RECEIVED start no_values;
  a ← emit a signal ELIGIBILITY_CHECKED start no_values;
  emit a signal (if halt then PAPER_HALTED else PAPER_ORDER_REJECTED) start
    (rejected (if halt then "PAPER_HALT" else String.concat ";" failures) cash).
(** The run whose data the executor refuses. *)
Definition halt_quality (audit : Audit) (start : Z) (message : string) (cash : dec) : res Audit :=
  let signal := digest (ad_run_id audit +:+ "quality")%string in
  a ← emit audit signal SIGNAL_RECEIVED start no_values;
  emit a signal PAPER_HALTED start (rejected message cash).

(** The run up to its complete transcript: the audit and the final cash. *)
Definition paper_run (q : Row) (data : Dataset_) (definition : Definition_) (settings : Settings)
    (costs : IntradayCostSchedule) (risk : Risk) (a : Authorization) : res (Audit * dec) :=
  let series := rd_series data in
  let cash := se_capital settings in
  binding ← paper_binding q data definition settings costs risk a;
  audit ← audit_init binding;
  failures ← admission q data definition settings risk a;
  if negb (is_nil failures) || au_paper_halt a then
    audit ← refuse_admission audit (sr_from series) failures (au_paper_halt a) cash;
    Ok (audit, cash)
  else
    let single := mkSettings (se_capital settings) (se_order_ceiling settings) (se_price_buffer settings) 1
                    (se_slippage_bps settings) (se_participation settings) (se_allow_long settings) in
    match execute series definition single costs with
    | Err (ValueError message) => audit ← halt_quality audit (sr_from series) message cash; Ok (audit, cash)
    | Err e => Err e
    | Ok x =>
        offered ← candidates_of x;
        s ← candidate_loop series definition settings costs risk offered (mkSim audit cash None cash);
        Ok (si_audit s, si_cash s)
    end.

Record Output := mkOutput {
  ou_binding : gmap string json; ou_run_id : string; ou_events : list PaperRow; ou_cash : dec;
  ou_final_hash : string; ou_genuine_qualified : bool
}.
(** The transcript is replayed before it is published. *)
Definition simulate (q : Row) (data : Dataset_) (definition : Definition_) (settings : Settings)
    (costs : IntradayCostSchedule) (risk : Risk) (a : Authorization) : res Output :=
  '(audit, cash) ← paper_run q data definition settings costs risk a;
  _ ← replay (ad_binding audit) (ad_events audit);
  Ok (mkOutput (ad_binding audit) (ad_run_id audit) (ad_events audit) cash (last_hash (ad_events audit))
        (bool_decide (row_status q = "QUALIFIED"%string) && negb (au_synthetic a))).
End paper.
