(* ===== verification/PaperFacts.v ===== *)
(** * The paper audit and the size of an order

    Reachable audits ([emitted]) are hash-chained, chronological, follow the transition
    table signal by signal and are reproduced by a replay; the size of an order is the
    largest quantity within its cap that both limits admit. *)
From S2P Require Import Prelude Decimal DecimalFacts Text Dataset Costs Errors Phase14 Strategies Execution Json JsonFacts Research Qualification Chain PyText Paper.
Open Scope list_scope.
Open Scope Z_scope.

(** ** Rows as a journal *)

Lemma row_dict_prev r : row_dict r !! "previous_hash"%string = Some (JStr (pr_previous_hash r)).
Proof.
  unfold row_dict. apply lookup_union_Some_l. unfold row_fields.
  cbn [app list_to_map foldr fst snd]. repeat (rewrite lookup_insert_ne by done). apply lookup_insert_eq.
Qed.

#[export] Program Instance paper_journal : Journal PaperRow := {|
  row_text r := dict_text (row_dict r);
  previous_hash := pr_previous_hash;
  current_hash := pr_current_hash
|}.
Next Obligation.
  intros r r' E%dict_text_inj. apply (f_equal (fun m => m !! "previous_hash"%string)) in E.
  rewrite !lookup_fmap, !row_dict_prev in E. cbn in E. by injection E.
Qed.

Lemma last_hash_tip l : last_hash l = tip l.
Proof. done. Qed.

(** ** Lifecycles *)

(** How far a state is from the end of its lifecycle. *)
Definition remaining (s : option PaperState) : nat :=
  match s with
  | None => 9
  | Some SIGNAL_RECEIVED => 8 | Some ELIGIBILITY_CHECKED => 7 | Some RISK_APPROVED => 6
  | Some PAPER_ORDER_CREATED => 5 | Some PAPER_ORDER_ACCEPTED => 4 | Some PAPER_FILLED => 3
  | Some PAPER_POSITION_OPEN => 2 | Some PAPER_EXIT_PENDING => 1 | Some _ => 0
  end.
Lemma remaining_step s u : u ∈ TRANSITIONS s -> (remaining (Some u) < remaining s)%nat.
Proof.
  destruct s as [s|]; [destruct s|]; cbn; intros Hu;
    repeat first [apply elem_of_cons in Hu as [->|Hu] | apply elem_of_nil in Hu as []]; cbn; lia.
Qed.
(** ** Reachable audits *)

Inductive emitted (binding : gmap string json) : Audit -> Prop :=
| emitted_init a : audit_init binding = Ok a -> emitted binding a
| emitted_step a signal state at_ values a' : emitted binding a ->
    emit a signal state at_ values = Ok a' -> emitted binding a'.

(** The states of a signal, in order. *)
Definition trace (signal : string) (l : list PaperRow) : list PaperState :=
  pr_state <$> List.filter (fun r => (pr_signal r =? signal)%string) l.
Lemma trace_app signal l l' : trace signal (l ++ l') = trace signal l ++ trace signal l'.
Proof. unfold trace. by rewrite List.filter_app, fmap_app. Qed.
Lemma trace_one signal r : trace signal [r] = if (pr_signal r =? signal)%string then [pr_state r] else [].
Proof. unfold trace. cbn. by destruct (_ =? _)%string. Qed.

(** What a row repeats of its audit. *)
Record row_of (a : Audit) (r : PaperRow) : Prop := {
  ro_run : pr_run_id r = ad_run_id a;
  ro_event : pr_event_id r = digest (ad_run_id a +:+ pr_signal r +:+ state_text (pr_state r))%string;
  ro_order : pr_order_id r = digest (ad_run_id a +:+ pr_signal r)%string;
  ro_identity : identity (ad_binding a) = Ok (pr_identity r)
}.

Record audit_ok (a : Audit) : Prop := {
  ao_chain : chained (ad_events a);
  ao_time : StronglySorted (fun r s => pr_at r <= pr_at s) (ad_events a);
  ao_rows : Forall (row_of a) (ad_events a);
  ao_paths : forall signal, path TRANSITIONS None (trace signal (ad_events a)) (ad_states a !! signal);
  ao_keys : forall r, r ∈ ad_events a -> pr_event_id r ∈ ad_keys a;
  ao_unique : NoDup (pr_event_id <$> ad_events a);
  ao_bound : Z.of_nat (length (ad_events a)) <= 200000
}.

Lemma emit_inv a signal state at_ values a' : emit a signal state at_ values = Ok a' ->
  exists r, ad_events a' = ad_events a ++ [r] /\ pr_signal r = signal /\ pr_state r = state /\ pr_at r = at_ /\
    pr_values r = values /\ row_of a r /\ pr_previous r = ad_states a !! signal /\
    pr_previous_hash r = tip (ad_events a) /\ pr_current_hash r = sha (row_text r) /\
    ad_binding a' = ad_binding a /\ ad_run_id a' = ad_run_id a /\
    ad_states a' = <[signal := state]> (ad_states a) /\ ad_keys a' = {[pr_event_id r]} ∪ ad_keys a /\
    state ∈ TRANSITIONS (ad_states a !! signal) /\ pr_event_id r ∉ ad_keys a /\
    Z.of_nat (length (ad_events a)) < 200000 /\
    match last (ad_events a) with Some e => pr_at e <= at_ | None => True end.
Proof.
  unfold emit, emit_guard. intros E. apply bind_Ok in E as (u & Eg & E). apply bind_Ok in E as (columns & Ec & E).
  apply bind_Ok in Eg as (u1 & E1 & Eg). apply bind_Ok in Eg as (u2 & E2 & Eg).
  apply bind_Ok in Eg as (u3 & E3 & _). apply raise_unless_Ok in E1. apply raise_if_Ok in E2, E3.
  apply Ok_inj in E. subst a'. bool_inv.
  eexists. split; [reflexivity|]. cbn [pr_signal pr_state pr_at pr_values pr_previous pr_previous_hash
    pr_current_hash pr_event_id ad_binding ad_run_id ad_states ad_keys].
  split; [done|]. split; [done|]. split; [done|]. split; [done|]. split; [by split|].
  split; [done|]. split; [done|]. split; [done|]. do 4 (split; [done|]). split; [done|]. split; [done|].
  split; [lia|]. destruct (last (ad_events a)); [|done]. bool_inv. lia.
Qed.

Lemma audit_init_ok binding a : audit_init binding = Ok a -> audit_ok a /\ ad_binding a = binding /\
  ad_run_id a = sha (dict_text binding) /\ ad_events a = [].
Proof.
  unfold audit_init. intros E. apply bind_Ok in E as (u & _ & E). apply Ok_inj in E. subst a. cbn.
  split; [|done]. split; cbn; try constructor; try done; set_solver.
Qed.

Lemma emit_ok a signal state at_ values a' : audit_ok a -> emit a signal state at_ values = Ok a' -> audit_ok a'.
Proof.
  intros [Hc Ht Hr Hp Hk Hu Hb] E.
  apply emit_inv in E as (r & Ee & Es & Est & Ea & _ & Hrow & _ & Hprev & Hcur & Eb & Er & Ess & Ek & Htr & Hnew & Hlen & Hlast).
  assert (Hmono : forall r, row_of a r -> row_of a' r) by (intros x [? ? ? ?]; split; by rewrite ?Eb, ?Er).
  split; rewrite ?Ee.
  - by constructor.
  - apply sorted_snoc; [done|]. rewrite Ea. by apply sorted_last.
  - apply Forall_app. split; [eapply Forall_impl; [exact Hr|exact Hmono]|]. constructor; [by apply Hmono|done].
  - intros sg. rewrite trace_app, trace_one, Ess, Es, Est. destruct (String.eqb_spec signal sg) as [->|Hne].
    + rewrite lookup_insert_eq. by econstructor.
    + rewrite lookup_insert_ne by done. rewrite app_nil_r. apply Hp.
  - intros x Hx. rewrite Ek. apply elem_of_app in Hx as [Hx|Hx%list_elem_of_singleton]; [|set_solver].
    specialize (Hk x Hx). set_solver.
  - rewrite fmap_app. apply NoDup_app. split; [done|]. split; [|apply NoDup_singleton]. cbn.
    intros k Hk' Hk''. apply list_elem_of_singleton in Hk''. subst k.
    apply list_elem_of_fmap in Hk' as (x & Hx & Hin). apply Hnew. rewrite Hx. by apply Hk.
  - rewrite length_app. cbn. lia.
Qed.

Lemma emitted_ok binding a : emitted binding a -> audit_ok a /\ ad_binding a = binding.
Proof.
  induction 1 as [a E|a signal state at_ values a' _ [IH IHb] E].
  - apply audit_init_ok in E as (H1 & H2 & _). done.
  - split; [by eapply emit_ok|]. apply emit_inv in E as (r & _ & _ & _ & _ & _ & _ & _ & _ & _ & Eb & _). congruence.
Qed.

(** ** Replays *)

Lemma row_eqb_refl r : row_eqb r r = true.
Proof. unfold row_eqb. by rewrite !bool_decide_eq_true_2, Z.eqb_refl by done. Qed.
Lemma row_eqb_eq r s : row_eqb r s = true -> pr_values r = pr_values s -> r = s.
Proof. unfold row_eqb. intros H Hv. bool_inv. destruct r, s; cbn in *. congruence. Qed.

Lemma replay_step_inv a value a' : replay_step a value = Ok a' ->
  emit a (pr_signal value) (pr_state value) (pr_at value) (pr_values value) = Ok a' /\
  ad_events a' = ad_events a ++ [value].
Proof.
  unfold replay_step. intros E. apply bind_Ok in E as (a1 & E1 & E). apply bind_Ok in E as (u & Ev & E).
  apply Ok_inj in E. subst a1. split; [done|]. apply raise_unless_Ok in Ev.
  apply emit_inv in E1 as (r & Ee & _ & _ & _ & Hv & _). rewrite Ee in *. rewrite last_snoc in Ev.
  f_equal. f_equal. by apply row_eqb_eq.
Qed.

(** A log replays exactly when it is the journal of a reachable audit, and the replay
    rebuilds that audit. *)
Lemma replay_emitted binding l a : replay binding l = Ok a <-> emitted binding a /\ ad_events a = l.
Proof.
  split.
  - unfold replay. intros E. apply bind_Ok in E as (a0 & E0 & E).
    pose proof (audit_init_ok _ _ E0) as (_ & _ & _ & Hl).
    refine (foldR_prefix_inv (fun pre a => emitted binding a /\ ad_events a = pre) _ _ _ _ _ _ E).
    2:{ split; [by constructor|done]. }
    intros pre x post s s' _ [He Hpre] Hs. apply replay_step_inv in Hs as [Hs Hl']. rewrite Hl', Hpre.
    split; [by econstructor|done].
  - intros [He <-]. induction He as [a E|a signal state at_ values a' He IH E].
    + unfold replay. rewrite E. cbn. by destruct (audit_init_ok _ _ E) as (_ & _ & _ & ->).
    + pose proof (emit_inv _ _ _ _ _ _ E) as (r & Ee & <- & <- & <- & <- & _). rewrite Ee.
      unfold replay in *. apply bind_Ok in IH as (a0 & E0 & IH). rewrite E0. cbn. rewrite foldR_app, IH. cbn.
      unfold replay_step. rewrite E. cbn. rewrite Ee, last_snoc, row_eqb_refl. done.
Qed.

(** ** The size of an order *)

Lemma no_money_some o : no_money o = false -> exists d, o = Some d /\ coef d <> 0.
Proof. destruct o as [d|]; [|done]. cbn. intros H. bool_inv. eauto. Qed.
Lemma no_count_some o : no_count o = false -> exists n, o = Some n /\ n <> 0.
Proof. destruct o as [n|]; [|done]. cbn. intros H. bool_inv. eauto. Qed.

(** A policy without gaps declares every limit. *)
Record declared (r : Risk) : Prop := {
  dc_capital : exists d, rk_capital r = Some d /\ coef d <> 0;
  dc_risk_per_trade : exists d, rk_risk_per_trade r = Some d /\ coef d <> 0;
  dc_daily_loss : exists d, rk_daily_loss r = Some d /\ coef d <> 0;
  dc_positions : exists n, rk_simultaneous_positions r = Some n /\ n <> 0;
  dc_symbol : exists d, rk_symbol_exposure r = Some d /\ coef d <> 0;
  dc_portfolio : exists d, rk_portfolio_exposure r = Some d /\ coef d <> 0;
  dc_max_quantity : exists n, rk_max_quantity r = Some n /\ n <> 0;
  dc_correlation : rk_correlation_reviewed r = true
}.
Lemma gaps_nil r : gaps r = [] -> declared r.
Proof.
  intros E%fmap_nil_inv. assert (H : forall x, x ∈ gap_checks r -> x.2 = false).
  { intros x Hx. destruct (x.2) eqn:E2; [|done]. apply list_elem_of_In in Hx.
    assert (Hin : In x (List.filter snd (gap_checks r))) by (apply filter_In; done). by rewrite E in Hin. }
  assert (Hall : Forall (fun x : string * bool => x.2 = false) (gap_checks r)) by (by apply Forall_forall).
  unfold gap_checks in Hall.
  repeat match goal with H : Forall _ (_ :: _) |- _ => apply Forall_cons in H as [? H]; cbn [snd] in * end.
  split; try (by apply no_money_some); try (by apply no_count_some). by apply negb_false.
Qed.

Section size.
Context (settings : Settings) (costs : IntradayCostSchedule) (price : dec) (at_ : Z) (cash : dec) (volume : Z).
Context (stop_fraction : dec).
Abbreviation fits := (quantity_fits settings costs price at_ cash stop_fraction).

(** The loop returns the first admitted quantity on its way down. *)
Lemma size_loop_spec risk_per_trade n q : size_loop settings costs price at_ cash stop_fraction risk_per_trade n = Ok q ->
  0 <= q <= Z.of_nat n /\ (0 < q -> fits risk_per_trade q = Ok true) /\
  (forall q', q < q' <= Z.of_nat n -> fits risk_per_trade q' = Ok false).
Proof.
  revert q. induction n as [|n IH]; intros q E; cbn [size_loop] in E.
  { apply Ok_inj in E as <-. split; [lia|]. split; lia. }
  apply bind_Ok in E as (b & Eb & E). destruct b.
  - apply Ok_inj in E as <-. split; [lia|]. split; [done|lia].
  - destruct (IH q E) as (H1 & H2 & H3). split; [lia|]. split; [done|].
    intros q' Hq'. destruct (decide (q' = Z.of_nat (S n))) as [->|]; [done|]. apply H3. lia.
Qed.

(** ** The limits of a quantity, one by one *)

(** The six caps: the settings, the policy, the risk per trade over the planned loss of a
    share, the exposures and the order ceiling over the buffered price, the share of the
    volume, the cash. *)
Record capped (per_trade symbol portfolio : dec) (max_quantity q : Z) : Prop := {
  cp_settings : q <= se_quantity settings;
  cp_max : q <= max_quantity;
  cp_risk : exists loss ratio, pmul price stop_fraction = Ok loss /\ pdiv per_trade loss = Ok ratio /\ (inject_Z q <= dval ratio)%Q;
  cp_exposure : exists buffered ratio, pmul price (se_price_buffer settings) = Ok buffered /\
    pdiv (dmin (dmin symbol portfolio) (se_order_ceiling settings)) buffered = Ok ratio /\ (inject_Z q <= dval ratio)%Q;
  cp_volume : exists share, pmul (dZ volume) (se_participation settings) = Ok share /\ (inject_Z q <= dval share)%Q;
  cp_cash : exists ratio, pdiv cash price = Ok ratio /\ (inject_Z q <= dval ratio)%Q
}.
(** The purchase of a quantity and its sale at the stop, slippage included. *)
Record planned (q : Z) (buy buy_fee stop_value exit_fee : dec) : Prop := {
  pl_buy : pmul price (dZ q) = Ok buy;
  pl_buy_fee : quote_total costs BUY buy at_ None = Ok buy_fee;
  pl_stop : exists kept stopped slip down, psub (dZ 1) stop_fraction = Ok kept /\ pmul buy kept = Ok stopped /\
    pdiv (se_slippage_bps settings) (dZ 10000) = Ok slip /\ psub (dZ 1) slip = Ok down /\ pmul stopped down = Ok stop_value;
  pl_exit_fee : quote_total costs SELL stop_value at_ (Some buy) = Ok exit_fee
}.
Definition planned_loss (buy buy_fee stop_value exit_fee loss : dec) : Prop :=
  exists l1 l2, psub buy stop_value = Ok l1 /\ padd l1 buy_fee = Ok l2 /\ padd l2 exit_fee = Ok loss.
(** The cash covers the cost and the risk per trade covers the planned loss; or not. *)
Definition affordable (per_trade : dec) (q : Z) : Prop :=
  exists buy buy_fee stop_value exit_fee need loss, planned q buy buy_fee stop_value exit_fee /\
    padd buy buy_fee = Ok need /\ (dval need <= dval cash)%Q /\
    planned_loss buy buy_fee stop_value exit_fee loss /\ (dval loss <= dval per_trade)%Q.
Definition unaffordable (per_trade : dec) (q : Z) : Prop :=
  exists buy buy_fee stop_value exit_fee need, planned q buy buy_fee stop_value exit_fee /\ padd buy buy_fee = Ok need /\
    ((dval cash < dval need)%Q \/
     exists loss, planned_loss buy buy_fee stop_value exit_fee loss /\ (dval per_trade < dval loss)%Q).

Lemma quantity_fits_spec per_trade q b : fits per_trade q = Ok b -> if b then affordable per_trade q else unaffordable per_trade q.
Proof.
  unfold quantity_fits. intros E. unbind E buy E1. unbind E buy_fee E2. unbind E kept E3. unbind E stopped E4.
  unbind E slip E5. unbind E down E6. unbind E stop_value E7. unbind E exit_fee E8. unbind E need E9.
  assert (Hp : planned q buy buy_fee stop_value exit_fee) by (split; eauto 10).
  destruct (dltb cash need) eqn:Ec.
  { apply Ok_inj in E as <-. apply dltb_spec in Ec. exists buy, buy_fee, stop_value, exit_fee, need. auto. }
  apply dltb_false in Ec. unbind E l1 E10. unbind E l2 E11. unbind E loss E12. apply Ok_inj in E as <-.
  assert (Hl : planned_loss buy buy_fee stop_value exit_fee loss) by (exists l1, l2; done).
  destruct (dleb loss per_trade) eqn:Er; [apply dleb_spec in Er|apply dleb_false in Er].
  - exists buy, buy_fee, stop_value, exit_fee, need, loss. done.
  - exists buy, buy_fee, stop_value, exit_fee, need. split; [done|]. split; [done|]. right. by exists loss.
Qed.

(** The caps are those of [quantity_cap]. *)
Lemma min_list_spec x l q : q <= min_list x l <-> q <= x /\ Forall (fun y => q <= y) l.
Proof.
  unfold min_list. revert x. induction l as [|z l IH]; intros x; cbn; [split; [by split|by intros [? _]]|].
  rewrite IH, Forall_cons. split; intros; intuition lia.
Qed.
Lemma dtrunc_le q a : 1 <= q -> q <= dtrunc a <-> (inject_Z q <= dval a)%Q.
Proof.
  intros Hq. unfold dtrunc, dval. destruct (Z.leb_spec 0 (dexp a)) as [He|He].
  - rewrite p10_Z, <- inject_Z_mult, <- Zle_Qle by done. done.
  - set (n := - dexp a). assert (Hp : 0 < 10 ^ n) by (apply Z.pow_pos_nonneg; lia).
    assert (Hv : p10 (dexp a) * inject_Z (10 ^ n) == 1).
    { rewrite <- p10_Z, <- p10_add by (unfold n; lia). by replace (dexp a + n) with 0 by (unfold n; lia). }
    assert (Hpos : (0 < inject_Z (10 ^ n))%Q) by (by rewrite <- (Zlt_Qlt 0)).
    rewrite <- (Qmult_le_r _ _ _ Hpos), <- Qmult_assoc, Hv, Qmult_1_r, <- inject_Z_mult, <- Zle_Qle.
    destruct (Z.le_gt_cases 0 (coef a)) as [Hc|Hc].
    + rewrite Z.quot_div_nonneg by lia. split; intros H.
      * pose proof (Z.mul_div_le (coef a) (10 ^ n) Hp). nia.
      * apply Z.div_le_lower_bound; lia.
    + split; intros H; [|nia]. exfalso. pose proof (Z.quot_opp_l (- coef a) (10 ^ n) ltac:(lia)) as Ho.
      rewrite Z.opp_involutive in Ho. pose proof (Z.quot_pos (- coef a) (10 ^ n) ltac:(lia) ltac:(lia)). lia.
Qed.
Lemma quantity_cap_spec max_quantity per_trade symbol portfolio cap q : 1 <= q ->
  quantity_cap settings price cash volume stop_fraction max_quantity per_trade symbol portfolio = Ok cap ->
  q <= cap <-> capped per_trade symbol portfolio max_quantity q.
Proof.
  intros Hq E. unfold quantity_cap in E. unbind E loss E1. unbind E by_risk E2. unbind E buffered E3. unbind E by_exposure E4.
  unbind E by_volume E5. unbind E by_cash E6. apply Ok_inj in E as <-.
  rewrite min_list_spec, !Forall_cons, !dtrunc_le by done. split.
  - intros (H1 & H2 & H3 & H4 & H5 & H6 & _). split; eauto 10.
  - intros [H1 H2 (loss' & r1 & F1 & F2 & F3) (buffered' & r2 & F4 & F5 & F6) (share & F7 & F8) (r3 & F9 & F10)].
    rewrite E1 in F1. apply Ok_inj in F1 as <-. rewrite E2 in F2. apply Ok_inj in F2 as <-. rewrite E3 in F4. apply Ok_inj in F4 as <-.
    rewrite E4 in F5. apply Ok_inj in F5 as <-. rewrite E5 in F7. apply Ok_inj in F7 as <-. rewrite E6 in F9. apply Ok_inj in F9 as <-.
    by repeat split.
Qed.

(** The outcome of [size], by cases. *)
Lemma size_cases risk q : size settings costs price at_ cash volume stop_fraction risk = Ok q ->
  (q = 0 /\ (gaps risk <> [] \/ (dval price <= 0)%Q \/ (dval cash <= 0)%Q)) \/
  exists per_trade symbol portfolio max_quantity,
    rk_risk_per_trade risk = Some per_trade /\ rk_symbol_exposure risk = Some symbol /\
    rk_portfolio_exposure risk = Some portfolio /\ rk_max_quantity risk = Some max_quantity /\ 0 <= q /\
    (0 < q -> capped per_trade symbol portfolio max_quantity q /\ affordable per_trade q) /\
    (forall q', q < q' -> capped per_trade symbol portfolio max_quantity q' -> unaffordable per_trade q').
Proof.
  unfold size. intros E. destruct (_ || _) eqn:Eg.
  { left. apply Ok_inj in E. split; [done|]. apply orb_true_iff in Eg as [Eg|Eg%dleb_spec]; [|by right; right].
    apply orb_true_iff in Eg as [Eg|Eg%dleb_spec]; [left|by right; left]. by destruct (gaps risk). }
  right. bool_inv. destruct (gaps risk) eqn:G; [|done].
  apply gaps_nil in G as [_ (rp & Hrp & _) _ _ (sx & Hsx & _) (px & Hpx & _) (mq & Hmq & _) _].
  rewrite Hrp, Hsx, Hpx, Hmq in E. unbind E cap Ec. exists rp, sx, px, mq. do 4 (split; [done|]).
  apply size_loop_spec in E as (Hq & Hfit & Hmax). split; [lia|]. split.
  - intros Hpos. split; [eapply quantity_cap_spec; [lia|exact Ec|lia]|].
    exact (quantity_fits_spec _ _ _ (Hfit Hpos)).
  - intros q' Hq' Hc. pose proof (proj2 (quantity_cap_spec mq rp sx px cap q' ltac:(lia) Ec) Hc). refine (quantity_fits_spec _ _ _ (Hmax q' _)). lia.
Qed.
End size.
