(* ===== verification/PaperRunFacts.v ===== *)
(** * The books of a paper run

    The cash of a run is a fold of the fills of its journal: [ledger_step] recomputes it
    from the recorded prices, quantities and fees, and checks every recorded balance.
    Every journal of a run satisfies it, and every fill respects the limits of the risk
    policy and leaves a cash that is not negative. *)
From S2P Require Import Prelude Decimal DecimalFacts Text Dataset Costs Errors Phase14 Strategies Execution Json Research Qualification Chain PyText Paper PaperFacts.
Open Scope list_scope.
Open Scope Z_scope.

Lemma precision_ok : context_ok PRECISION.
Proof. by apply mk_context_ok. Qed.

(** ** The ledger *)

Definition ledger_move (cash : dec) (r : PaperRow) : res dec :=
  let v := pr_values r in
  match pr_state r, v_price v, v_fees v with
  | PAPER_FILLED, Some price, Some fee =>
      buy ← pmul price (dZ (v_quantity v)); spent ← padd buy fee; psub cash spent
  | PAPER_POSITION_CLOSED, Some price, Some fee =>
      sell ← pmul price (dZ (v_quantity v)); got ← psub sell fee; padd cash got
  | PAPER_FILLED, _, _ => Err AssertionError
  | PAPER_POSITION_CLOSED, _, _ => Err AssertionError
  | _, _, _ => Ok cash
  end.
Definition ledger_step (cash : dec) (r : PaperRow) : res dec :=
  cash ← ledger_move cash r;
  match v_cash (pr_values r) with
  | Some recorded => if decide (recorded = cash) then Ok cash else Err AssertionError
  | None => Ok cash
  end.

Section fills.
Context (series : Series) (definition : Definition_) (settings : Settings) (costs : IntradayCostSchedule) (risk : Risk).

(** The rows before a fill, as the daily loss sees them: the rows of its day that count,
    and what was there before, with no fill of that day. *)
Record day_split (before : list PaperRow) (day : Z) (pre mid : list PaperRow) : Prop := {
  ds_rows : before = pre ++ mid;
  ds_pre : Forall (fun x => pr_state x = PAPER_FILLED -> nse_date (pr_at x) < day) pre;
  ds_mid : Forall (fun x => nse_date (pr_at x) = day) mid
}.

(** A fill within the policy.  With the cash that the rows before it leave: the quantity
    is under its six caps, the cash covers its cost and the risk per trade its planned
    loss; it is paid for; and the day has lost less than the daily loss so far. *)
Record fill_ok (before : list PaperRow) (r : PaperRow) : Prop := {
  fo_sized : exists cash price per_trade symbol portfolio max_quantity bar,
    foldR ledger_step (se_capital settings) before = Ok cash /\ v_price (pr_values r) = Some price /\
    rk_risk_per_trade risk = Some per_trade /\ rk_symbol_exposure risk = Some symbol /\
    rk_portfolio_exposure risk = Some portfolio /\ rk_max_quantity risk = Some max_quantity /\
    liquidity_bar series (pr_at r) = Ok bar /\ 1 <= v_quantity (pr_values r) /\
    capped settings price cash (b_volume bar) (df_stop definition) per_trade symbol portfolio max_quantity (v_quantity (pr_values r)) /\
    affordable settings costs price (pr_at r) cash (df_stop definition) per_trade (v_quantity (pr_values r));
  fo_paid : exists cash price buy fee spent left,
    foldR ledger_step (se_capital settings) before = Ok cash /\ v_price (pr_values r) = Some price /\
    pmul price (dZ (v_quantity (pr_values r))) = Ok buy /\ quote_total costs BUY buy (pr_at r) None = Ok fee /\
    v_fees (pr_values r) = Some fee /\ padd buy fee = Ok spent /\ psub cash spent = Ok left /\
    v_cash (pr_values r) = Some left /\ (0 <= dval left)%Q;
  fo_daily : exists daily pre mid start_cash cash lost, rk_daily_loss risk = Some daily /\
    day_split before (nse_date (pr_at r)) pre mid /\
    foldR ledger_step (se_capital settings) pre = Ok start_cash /\ foldR ledger_step (se_capital settings) before = Ok cash /\
    psub start_cash cash = Ok lost /\ (dval lost < dval daily)%Q
}.
Definition fills_ok (l : list PaperRow) : Prop :=
  forall before r after, l = before ++ r :: after -> pr_state r = PAPER_FILLED -> fill_ok before r.

Record books (binding : gmap string json) (a : Audit) (cash : dec) : Prop := {
  bk_emitted : emitted binding a;
  bk_ledger : foldR ledger_step (se_capital settings) (ad_events a) = Ok cash;
  bk_fills : fills_ok (ad_events a)
}.

Lemma fills_snoc l r : fills_ok l -> (pr_state r = PAPER_FILLED -> fill_ok l r) -> fills_ok (l ++ [r]).
Proof.
  intros Hl Hr before x after E Hx. destruct after as [|y after _] using rev_ind.
  - apply app_inj_tail in E as [-> ->]. by apply Hr.
  - rewrite app_comm_cons, app_assoc in E. apply app_inj_tail in E as [-> ->]. by eapply Hl.
Qed.
End fills.

(** ** The day *)

Definition filled (r : PaperRow) : Prop := pr_state r = PAPER_FILLED.
(** The day whose losses are guarded, and its cash at the start: the rows from [first] on
    are of that day or later, and the fills among them of that day. *)
Definition day_ok (capital : dec) (a : Audit) (day : option Z) (start_cash : dec) : Prop :=
  match day with
  | None => Forall (fun r => ~ filled r) (ad_events a)
  | Some d => exists pre first mid, ad_events a = pre ++ first :: mid /\ foldR ledger_step capital pre = Ok start_cash /\
      nse_date (pr_at first) = d /\ Forall (fun r => filled r -> nse_date (pr_at r) < d) pre /\
      Forall (fun r => filled r -> nse_date (pr_at r) = d) (first :: mid)
  end.

Lemma day_emit capital a day start_cash key state at_ v a' : day_ok capital a day start_cash -> emit a key state at_ v = Ok a' ->
  state <> PAPER_FILLED \/ day = Some (nse_date at_) -> day_ok capital a' day start_cash.
Proof.
  intros Hd E Hs. apply emit_inv in E as (r & Ee & _ & Es & Ea & _). unfold day_ok. rewrite Ee. destruct day as [d|].
  - destruct Hd as (pre & first & mid & E0 & Hl & Hf & Hpre & Hmid). exists pre, first, (mid ++ [r]).
    split; [by rewrite E0, <- app_assoc|]. do 3 (split; [done|]). rewrite app_comm_cons. apply Forall_app. split; [done|].
    constructor; [|done]. intros Hr. destruct Hs as [Hs|[= ->]]; [|by rewrite Ea]. unfold filled in Hr. congruence.
  - apply Forall_app. split; [done|]. constructor; [|done]. destruct Hs as [Hs|?]; [|done]. unfold filled. congruence.
Qed.

(** The first row of another day opens it. *)
Lemma day_open capital a day start_cash cash key state at_ v a' : day_ok capital a day start_cash ->
  foldR ledger_step capital (ad_events a) = Ok cash -> audit_ok a' -> emit a key state at_ v = Ok a' ->
  state <> PAPER_FILLED -> day <> Some (nse_date at_) -> day_ok capital a' (Some (nse_date at_)) cash.
Proof.
  intros Hd Hl Hok E Hs Hne. apply emit_inv in E as (r & Ee & _ & Es & Ea & _).
  exists (ad_events a), r, []. split; [done|]. split; [done|]. split; [by rewrite Ea|].
  assert (Hr : ~ filled r) by (unfold filled; congruence). split; [|by constructor].
  destruct day as [d|]; [|by eapply Forall_impl; [exact Hd|]].
  destruct Hd as (pre & first & mid & E0 & _ & Hf & Hpre & Hmid).
  assert (Hlt : d < nse_date at_).
  { pose proof (ao_time _ Hok) as Ht. rewrite Ee, E0 in Ht.
    assert (Hle : pr_at first <= pr_at r).
    { refine (StronglySorted_app_1_elem_of (fun r s => pr_at r <= pr_at s) (pre ++ first :: mid) [r] first r Ht _ _); set_solver. }
    apply nse_date_mono in Hle. rewrite Hf, Ea in Hle. enough (d <> nse_date at_) by lia. congruence. }
  rewrite E0. apply Forall_app. split; [eapply Forall_impl; [exact Hpre|]; cbn; intros x Hx Hxf; specialize (Hx Hxf); lia|].
  eapply Forall_impl; [exact Hmid|]. cbn. intros x Hx Hxf. rewrite (Hx Hxf). lia.
Qed.

(** The rows of the day of a fill. *)
Lemma day_split_ok capital a start_cash at_ : audit_ok a -> day_ok capital a (Some (nse_date at_)) start_cash ->
  (forall x, x ∈ ad_events a -> pr_at x <= at_) ->
  exists pre mid, day_split (ad_events a) (nse_date at_) pre mid /\ foldR ledger_step capital pre = Ok start_cash.
Proof.
  intros Hok (pre & first & mid & E0 & Hl & Hf & Hpre & Hmid) Hle. exists pre, (first :: mid). split; [|done]. split; [done|done|].
  apply Forall_forall. intros x Hx. pose proof (ao_time _ Hok) as Ht. rewrite E0 in Ht.
  assert (H1 : nse_date (pr_at x) <= nse_date at_) by (apply nse_date_mono, Hle; rewrite E0; set_solver).
  enough (nse_date (pr_at first) <= nse_date (pr_at x)) by lia. apply nse_date_mono.
  apply elem_of_cons in Hx as [->|Hx]; [lia|]. apply StronglySorted_app_1_r in Ht. inversion Ht; subst.
  match goal with H : Forall _ mid |- _ => rewrite Forall_forall in H; by apply H end.
Qed.

Definition moves_cash (s : PaperState) : bool :=
  match s with PAPER_FILLED | PAPER_POSITION_CLOSED => true | _ => false end.

Lemma ledger_step_still cash r : moves_cash (pr_state r) = false ->
  v_cash (pr_values r) = None \/ v_cash (pr_values r) = Some cash -> ledger_step cash r = Ok cash.
Proof.
  intros Hm Hv. unfold ledger_step.
  assert (ledger_move cash r = Ok cash) as -> by (unfold ledger_move; by destruct (pr_state r)).
  cbn. destruct Hv as [->| ->]; [done|]. by rewrite decide_True.
Qed.

Section steps.
Context (series : Series) (definition : Definition_) (settings : Settings) (costs : IntradayCostSchedule) (risk : Risk).
Abbreviation books := (books series definition settings costs risk).

(** An event that moves no cash keeps the books. *)
Lemma books_emit binding a cash key state at_ v a' :
  books binding a cash -> emit a key state at_ v = Ok a' -> moves_cash state = false ->
  v_cash v = None \/ v_cash v = Some cash -> books binding a' cash.
Proof.
  intros [He Hl Hf] E Hm Hv. pose proof (emit_inv _ _ _ _ _ _ E) as (r & Ee & _ & Hs & _ & Hrv & _).
  split; [by econstructor|rewrite Ee, foldR_app, Hl|rewrite Ee; apply fills_snoc; [done|]].
  - cbn [mbind res_bind foldR]. rewrite ledger_step_still; [reflexivity|by rewrite Hs|by rewrite Hrv].
  - intros Hfill. rewrite Hs in Hfill. rewrite Hfill in Hm. discriminate Hm.
Qed.

(** A fill moves the cash the way the ledger does. *)
Lemma books_fill binding a cash key at_ quantity price fee buy spent cash' timing a' :
  books binding a cash ->
  pmul price (dZ quantity) = Ok buy -> padd buy fee = Ok spent -> psub cash spent = Ok cash' ->
  emit a key PAPER_FILLED at_ (mkValues (Some price) quantity (Some fee) (Some cash') quantity None timing) = Ok a' ->
  (forall r, pr_at r = at_ -> pr_values r = mkValues (Some price) quantity (Some fee) (Some cash') quantity None timing ->
             fill_ok series definition settings costs risk (ad_events a) r) ->
  books binding a' cash'.
Proof.
  intros [He Hl Hf] E1 E2 E3 E Hok. pose proof (emit_inv _ _ _ _ _ _ E) as (r & Ee & _ & Hs & Ha & Hrv & _).
  split; [by econstructor|rewrite Ee, foldR_app, Hl|rewrite Ee; apply fills_snoc; [done|]].
  - cbn. unfold ledger_step, ledger_move. rewrite Hs, Hrv. cbn. rewrite E1. cbn. rewrite E2. cbn. rewrite E3. cbn.
    by rewrite decide_True.
  - intros _. by apply Hok.
Qed.

Lemma books_close binding a cash key at_ quantity price fee sell got cash' reason a' :
  books binding a cash ->
  pmul price (dZ quantity) = Ok sell -> psub sell fee = Ok got -> padd cash got = Ok cash' ->
  emit a key PAPER_POSITION_CLOSED at_ (mkValues (Some price) quantity (Some fee) (Some cash') 0 reason None) = Ok a' ->
  books binding a' cash'.
Proof.
  intros [He Hl Hf] E1 E2 E3 E. pose proof (emit_inv _ _ _ _ _ _ E) as (r & Ee & _ & Hs & _ & Hrv & _).
  split; [by econstructor|rewrite Ee, foldR_app, Hl|rewrite Ee; apply fills_snoc; [done|]].
  - cbn. unfold ledger_step, ledger_move. rewrite Hs, Hrv. cbn. rewrite E1. cbn. rewrite E2. cbn. rewrite E3. cbn.
    by rewrite decide_True.
  - intros Hfill. by rewrite Hs in Hfill.
Qed.
End steps.

Section run.
Context `{Dump Definition_} `{Dump Bar}.
Context (binding : gmap string json).
Context (series : Series) (definition : Definition_) (settings : Settings) (costs : IntradayCostSchedule) (risk : Risk).
Abbreviation books := (books series definition settings costs risk binding).
Abbreviation day_ok := (day_ok (se_capital settings)).
(** The books of an audit, and its day. *)
Definition kept (a : Audit) (cash : dec) (day : option Z) (start_cash : dec) : Prop := books a cash /\ day_ok a day start_cash.
Definition sim_ok (s : Sim) : Prop := kept (si_audit s) (si_cash s) (si_day s) (si_day_start_cash s).
Definition either_ok (out : Sim + Sim) : Prop := match out with inl s => sim_ok s | inr s => sim_ok s end.

Lemma kept_emit a cash day start_cash key state at_ v a' : kept a cash day start_cash -> emit a key state at_ v = Ok a' ->
  moves_cash state = false -> v_cash v = None \/ v_cash v = Some cash -> kept a' cash day start_cash.
Proof.
  intros [Hb Hd] E Hm Hv. split; [by eapply books_emit|]. eapply day_emit; [exact Hd|exact E|]. left. by intros ->.
Qed.

Lemma deny_ok at_ reason s s' : sim_ok s -> deny series definition at_ reason s = Ok s' -> sim_ok s'.
Proof.
  unfold deny, sim_ok. intros Hs E. unbind E candle E1. unbind E e E2. unbind E a1 E3. unbind E a2 E4.
  unbind E a3 E5. apply Ok_inj in E. subst s'. cbn.
  eapply kept_emit in E3; [|done..|by left]. eapply kept_emit in E4; [|done..|by left].
  eapply kept_emit in E5; [done|done..|by right].
Qed.

(** A sized entry opens a position within the limits. *)
Lemma open_position_ok key at_ quantity entry bar daily lost start_cash a cash a' buy cash' :
  kept a cash (Some (nse_date at_)) start_cash -> liquidity_bar series at_ = Ok bar ->
  size settings costs entry at_ cash (b_volume bar) (df_stop definition) risk = Ok quantity -> 1 <= quantity ->
  rk_daily_loss risk = Some daily -> psub start_cash cash = Ok lost -> (dval lost < dval daily)%Q ->
  open_position series costs key at_ quantity entry a cash = Ok (a', buy, cash') ->
  kept a' cash' (Some (nse_date at_)) start_cash.
Proof.
  intros Hk Hbar Hsize Hq Hdl Hlost Hlt E. unfold open_position in E. unbind E timing E0. unbind E a1 E1. unbind E a2 E2.
  unbind E a3 E3. unbind E b E4. unbind E fee E5. unbind E spent E6. unbind E c E7. unbind E a4 E8. unbind E a5 E9.
  apply Ok_inj in E. injection E as -> -> ->.
  eapply kept_emit in E1; [|done..|by left]. eapply kept_emit in E2; [|done..|by left].
  eapply kept_emit in E3; [|done..|by left]. eapply kept_emit in E9; [done| |done|by right].
  destruct E3 as [Hb Hd]. split; [|eapply day_emit; [exact Hd|exact E8|by right]].
  eapply books_fill; [exact Hb|exact E4|exact E6|exact E7|exact E8|]. intros r Ha Hv.
  apply size_cases in Hsize as [[-> _]|(rp & sx & px & mq & Hrp & Hsx & Hpx & Hmq & _ & Hfit & _)]; [lia|].
  destruct (Hfit ltac:(lia)) as [Hcap Haff]. pose proof (bk_ledger _ _ _ _ _ _ _ _ Hb) as Hl.
  assert (Hle : (dval spent <= dval cash)%Q).
  { destruct Haff as (b' & f' & sv & xf & need & loss & [P1 P2 _ _] & Hn & Hc & _). rewrite E4 in P1. apply Ok_inj in P1 as <-.
    rewrite E5 in P2. apply Ok_inj in P2 as <-. rewrite E6 in Hn. by apply Ok_inj in Hn as <-. }
  split; rewrite Ha, ?Hv; cbn [v_price v_quantity v_fees v_cash].
  - exists cash, entry, rp, sx, px, mq, bar. done.
  - exists cash, entry, buy, fee, spent, cash'. do 8 (split; [done|]).
    apply (dsub_ge PRECISION precision_ok 0 (repr_0 _ precision_ok) cash spent cash' E7). lra.
  - pose proof (emitted_ok _ _ (bk_emitted _ _ _ _ _ _ _ _ Hb)) as [Hok _].
    destruct (day_split_ok (se_capital settings) a3 start_cash at_ Hok Hd) as (pre & mid & Hsp & Hpre).
    { apply emit_inv in E8 as (_ & _ & _ & _ & _ & _ & _ & _ & _ & _ & _ & _ & _ & _ & _ & _ & _ & Hlast).
      intros x Hx. assert (Hall : Forall (fun x => pr_at x <= at_) (ad_events a3)) by (apply sorted_last; [apply (ao_time _ Hok)|exact Hlast]).
      rewrite Forall_forall in Hall. by apply Hall. }
    exists daily, pre, mid, start_cash, cash, lost. done.
Qed.

Lemma leave_position_ok key c exit_at quantity reason buy s out : sim_ok s ->
  leave_position series settings costs key c exit_at quantity reason buy s = Ok out -> either_ok out.
Proof.
  intros Hs E. unfold leave_position in E. unbind E bar E1. unbind E a1 E2.
  eapply kept_emit in E2; [|exact Hs|done|by left].
  assert (Hhalt : forall out, (a ← emit a1 key PAPER_HALTED exit_at
      (mkValues None quantity None (Some (si_cash s)) quantity (Some "EXIT_LIQUIDITY_UNVALUED"%string) None);
      Ok (inr (mkSim a (si_cash s) (si_day s) (si_day_start_cash s)))) = Ok out -> either_ok out).
  { intros out' E'. unbind E' a2 E3. apply Ok_inj in E'. subst out'. cbn.
    eapply kept_emit in E3; [exact E3|exact E2|done|by right]. }
  destruct c as [t|u|r]; [|by apply Hhalt..]. unbind E share E3. destruct (dltb _ _); [by apply Hhalt|].
  unbind E sell E4. unbind E fee E5. unbind E got E6. unbind E cash E7. unbind E a2 E8.
  apply Ok_inj in E. subst out. cbn. destruct E2 as [Hb Hd]. split; cbn.
  - eapply books_close; [exact Hb|exact E4|exact E6|exact E7|exact E8].
  - eapply day_emit; [exact Hd|exact E8|by left].
Qed.

(** The first two events of a candidate open its day. *)
Lemma candidate_day s key signal_at at_ a1 a2 : sim_ok s ->
  emit (si_audit s) key SIGNAL_RECEIVED signal_at no_values = Ok a1 -> emit a1 key ELIGIBILITY_CHECKED at_ no_values = Ok a2 ->
  kept a2 (si_cash s) (Some (nse_date at_))
    (if bool_decide (si_day s = Some (nse_date at_)) then si_day_start_cash s else si_cash s).
Proof.
  intros Hs E1 E2. pose proof (kept_emit _ _ _ _ _ _ _ _ _ Hs E1 eq_refl ltac:(by left)) as H1.
  pose proof (kept_emit _ _ _ _ _ _ _ _ _ H1 E2 eq_refl ltac:(by left)) as H2.
  case_bool_decide as Hd; [by rewrite <- Hd|]. split; [apply H2|].
  eapply day_open; [apply H1|apply (bk_ledger _ _ _ _ _ _ _ _ (proj1 H1))| |exact E2|done|done].
  apply (emitted_ok binding), (bk_emitted _ _ _ _ _ _ _ _ (proj1 H2)).
Qed.

Lemma take_position_ok c signal_at at_ exit_at entry reason s out : sim_ok s ->
  take_position series definition settings costs risk c signal_at at_ exit_at entry reason s = Ok out -> either_ok out.
Proof.
  intros Hs E. unfold take_position in E. unbind E candle E1. unbind E e E2. cbn zeta in E.
  set (s1 := if bool_decide _ then s else _) in E. unbind E a1 E3. unbind E a2 E4.
  assert (Ea : si_audit s1 = si_audit s) by (unfold s1; by case_bool_decide).
  assert (Ec : si_cash s1 = si_cash s) by (unfold s1; by case_bool_decide).
  assert (Ed : si_day s1 = Some (nse_date at_)) by (unfold s1; by case_bool_decide).
  assert (Es : si_day_start_cash s1 = if bool_decide (si_day s = Some (nse_date at_)) then si_day_start_cash s else si_cash s)
    by (unfold s1; by case_bool_decide).
  clearbody s1. rewrite Ea in E3. pose proof (candidate_day s _ _ _ _ _ Hs E3 E4) as Hk. rewrite <- Es, <- Ec, <- Ed in Hk.
  unbind E liquidity E5. unbind E quantity E6. unbind E daily_loss E7. apply of_option_Ok in E7. unbind E refused E8.
  destruct refused as [why|].
  - unbind E a3 E9. apply Ok_inj in E. subst out. cbn. by eapply kept_emit in E9; [exact E9|exact Hk|done|by right].
  - unbind E r E9. destruct r as [[a3 buy] cash]. unfold refusal in E8. destruct (_ <=? _); [done|]. unbind E8 lost E10.
    apply Ok_inj in E8. destruct (dleb daily_loss lost) eqn:Edl; [done|]. apply dleb_false in Edl.
    destruct (quantity <? 1) eqn:Eq; [done|]. bool_inv. rewrite Ed in Hk.
    eapply leave_position_ok in E; [exact E|]. unfold sim_ok. cbn [si_audit si_cash si_day si_day_start_cash]. rewrite Ed.
    eapply open_position_ok; [exact Hk|exact E5|exact E6|done|exact E7|exact E10|exact Edl|exact E9].
Qed.

Lemma candidate_step_ok s x out : sim_ok s -> candidate_step series definition settings costs risk s x = Ok out ->
  either_ok out.
Proof.
  intros Hs E. unfold candidate_step in E. destruct (x.2) as [t|u|reason].
  - by eapply take_position_ok.
  - by eapply take_position_ok.
  - unfold fmap, res_fmap in E. destruct (deny _ _ _ _ _) as [s'|] eqn:E1; [|done]. apply Ok_inj in E. subst out.
    by eapply deny_ok.
Qed.
Lemma candidate_loop_ok l s s' : sim_ok s -> candidate_loop series definition settings costs risk l s = Ok s' -> sim_ok s'.
Proof.
  revert s. induction l as [|x l IH]; intros s Hs E; cbn [candidate_loop] in E; [by apply Ok_inj in E as <-|].
  unbind E out Eo. apply candidate_step_ok in Eo; [|done]. destruct out as [s1|s1]; [by eapply IH|].
  by apply Ok_inj in E as <-.
Qed.
End run.

(** ** The whole run *)

Section whole.
Context `{Dump Definition_} `{Dump Bar} `{Dump Row} `{Dump Risk} `{Dump Dataset_} `{Dump Phase14.Policy}.
Context `{DumpJson ResearchWindow} `{DumpJson IntradayCostSchedule} `{DumpJson Settings} `{DumpJson Authorization}.

Lemma refuse_admission_books series definition settings costs risk binding a cash start failures halt a' :
  books series definition settings costs risk binding a cash -> refuse_admission a start failures halt cash = Ok a' ->
  books series definition settings costs risk binding a' cash.
Proof.
  intros Hb E. unfold refuse_admission in E. unbind E a1 E1. unbind E a2 E2.
  eapply books_emit in E1; [|exact Hb|done|by left]. eapply books_emit in E2; [|exact E1|done|by left].
  eapply books_emit in E; [exact E|exact E2|by destruct halt|by right].
Qed.
Lemma halt_quality_books series definition settings costs risk binding a cash start message a' :
  books series definition settings costs risk binding a cash -> halt_quality a start message cash = Ok a' ->
  books series definition settings costs risk binding a' cash.
Proof.
  intros Hb E. unfold halt_quality in E. unbind E a1 E1.
  eapply books_emit in E1; [|exact Hb|done|by left]. eapply books_emit in E; [exact E|exact E1|done|by right].
Qed.

Lemma paper_run_books definition_json uncertain software universe q data definition settings costs risk a audit cash :
  paper_run definition_json uncertain software universe q data definition settings costs risk a = Ok (audit, cash) ->
  exists binding, books (rd_series data) definition settings costs risk binding audit cash.
Proof.
  unfold paper_run. intros E. unbind E binding Eb. unbind E audit0 E0. unbind E failures Ef.
  exists binding. assert (Hb : books (rd_series data) definition settings costs risk binding audit0 (se_capital settings)).
  { pose proof (audit_init_ok _ _ E0) as (_ & _ & _ & Hl).
    split; [by constructor|by rewrite Hl|]. rewrite Hl. intros before r after E'. by destruct before. }
  destruct (negb (is_nil failures) || au_paper_halt a).
  - unbind E a1 E1. apply Ok_inj in E. injection E as <- <-. by eapply refuse_admission_books.
  - destruct (execute _ _ _ _) as [x|[]] eqn:Ex; try done.
    + unbind E offered E1. unbind E s E2. apply Ok_inj in E. injection E as <- <-.
      eapply (candidate_loop_ok binding) in E2; [exact (proj1 E2)|]. split; [exact Hb|]. cbn.
      by destruct (audit_init_ok _ _ E0) as (_ & _ & _ & ->).
    + unbind E a1 E1. apply Ok_inj in E. injection E as <- <-. by eapply halt_quality_books.
Qed.
End whole.
