(* ===== verification/PaperSample.v ===== *)
(** * A worked paper run

    A synthetic qualified pair (its 102 winning trades cover the three folds of a
    standard window), the risk policy and the authorization that admit it, and the run
    over the six-candle session of [Sample]. *)
From S2P Require Import Prelude Decimal DecimalFacts Text Dataset Costs Phase14 Strategies Execution Json Research Qualification Chain PyText Paper.
From S2P Require Sample.
Import Sample.
Open Scope list_scope.
Open Scope Z_scope.

#[export] Instance dump_definition : Dump Definition_ := fun d => df_name d.
#[export] Instance dump_bar : Dump Bar := fun b => iso (b_start b).
#[export] Instance dump_policy : Dump Phase14.Policy := fun p => int_text (po_family_size p).
#[export] Instance dump_risk : Dump Risk := fun r => "risk"%string.
#[export] Instance dump_row : Dump Row := fun r => qr_run_id r.
#[export] Instance dump_dataset : Dump Dataset_ := fun d => rd_sha256 d.
#[export] Instance json_window : DumpJson ResearchWindow := fun w => JInt (rw_end w).
#[export] Instance json_costs : DumpJson IntradayCostSchedule := fun c => JStr (cs_version c).
#[export] Instance json_settings : DumpJson Settings := fun s => JInt (se_quantity s).
#[export] Instance json_authorization : DumpJson Authorization := fun a => JStr (au_mode a).
Definition definition_value (d : Definition_) : json := JStr (df_name d).

Definition breakout : Definition_ :=
  mkDefinition S06 "Opening Range Breakout" RESEARCH_EQUIVALENT SOURCE
    "close crosses first15minute range high" ["OR15"%string] (cents 2) (cents 2) 1000.
Definition paper_window : ResearchWindow :=
  Eval vm_compute in
  match standard_window (nse_combine 20000 0) 6 with Ok w => w | Err _ => mkWindow 0 0 0 0 [] 0 end.
(** Thirty-four winning trades per holdout fold. *)
Definition winning (at_ : Z) : Trade := mkTrade at_ at_ (at_ + FIVE) (dZ 100) (dZ 101) 1 TARGET (dZ 1) d0 (dZ 1).
Definition paper_trades : list Trade :=
  f ← take 3 (rw_folds paper_window); k ← seqZ 0 34; [winning (f + k * HOUR)].
Definition paper_qualification : option Qualification :=
  Eval vm_compute in
  match qualify (fun _ => false) paper_trades (dZ 10000) (rw_holdout_start paper_window) (rw_folds paper_window)
          (default_policy family_size) with Ok q => Some q | Err _ => None end.
Definition flat_metrics : Metrics := mkMetrics 0 0 0 0 d0 d0 d0 d0 d0 d0.
Definition paper_result : Result :=
  mkResult (Some sample_hash) (Some 13380) "INFY" S06 "1" (digest (model_dump_json breakout)) paper_window
    (digest (model_dump_json (default_policy family_size))) (Some sample_hash) "SYNTHETIC" (Some true) true
    ["SYNTHETIC_NOT_HISTORICAL_PERFORMANCE"%string] (Some (dZ 1)) None None
    (Some (mkSummary flat_metrics d0 None None None d0 0 0)) None paper_qualification paper_trades.
Definition paper_risk : Risk :=
  mkRisk true (Some sample_hash) (Some (dZ 10000)) (Some (dZ 100)) (Some (dZ 500)) (Some 3) (Some (dZ 5000))
    (Some (dZ 8000)) (Some 20) true.
Definition paper_row : Row :=
  mkRow "Phase1417Qualification.v1" sample_hash sample_hash (Some sample_hash) (Some ADJUSTMENT)
    (digest (model_dump_json paper_risk)) (dZ 10000) paper_result.
Definition paper_dataset : Dataset_ :=
  mkDataset_ five_series sample_hash (nse_combine 20000 (hm 16 0)) "1" "calendar" true "REVIEWED" 0 0 0 false true.
Definition paper_authorization : Authorization :=
  mkAuthorization true true sample_hash (digest (model_dump_json paper_row)) (digest (model_dump_json paper_risk))
    sample_hash (nse_combine 20000 (hm 9 0)) (nse_combine 20000 (hm 10 0)) false false.
Definition paper_settings : Settings := mkSettings (dZ 10000) (dZ 10000) (cents 105) 12 (dZ 5) (cents 1) true.

Definition paper_output : res Output :=
  simulate definition_value (fun _ => false) sample_hash sample_hash paper_row paper_dataset breakout
    paper_settings sample_schedule paper_risk paper_authorization.
