(* ===== verification/PaperTheorems.v ===== *)
(** * Properties of the paper simulation

    The size of an order, the lifecycle of a signal in the audit, the replay of an audit
    and its evidence of tampering, and the books of a run. *)
From S2P Require Import Prelude Decimal DecimalFacts Text Dataset Costs Phase14 Strategies Execution Json Research Qualification Chain PyText.
From S2P Require Import Paper PaperFacts PaperRunFacts PaperSample.
From S2P Require Sample.
Open Scope list_scope.
Open Scope Z_scope.


(** C31. In a reachable audit the journal is hash-chained and chronological, its event
    identifiers are distinct, and the events of every signal follow the transition table
    from the first state to the recorded one: at most nine of them. *)
Theorem audit_lifecycle binding a : emitted binding a ->
  chained (ad_events a) /\ StronglySorted (fun r s => pr_at r <= pr_at s) (ad_events a) /\
  NoDup (pr_event_id <$> ad_events a) /\
  forall signal, path TRANSITIONS None (trace signal (ad_events a)) (ad_states a !! signal) /\
                 (length (trace signal (ad_events a)) <= 9)%nat.
Proof.
  intros He. apply emitted_ok in He as [[Hc Ht _ Hp _ Hu _] _]. split_and!; try done.
  intros signal. split; [done|]. pose proof (path_length TRANSITIONS remaining remaining_step _ _ _ (Hp signal)). cbn in *. lia.
Qed.

(** C32. A log replays exactly when it is the journal of a reachable audit, and the
    replay rebuilds that audit: binding, states and keys included. *)
Theorem audit_replay binding l a : replay binding l = Ok a <-> emitted binding a /\ ad_events a = l.
Proof. apply replay_emitted. Qed.

(** C33. Two logs that replay and end in the same hash have the same rows, text for
    text, unless the digest has a collision between two of their rows, or maps a row to
    the starting value of a chain. *)
Theorem audit_tamper binding binding' l l' a a' :
  replay binding l = Ok a -> replay binding' l' = Ok a' -> last_hash l = last_hash l' ->
  row_text <$> l = row_text <$> l' \/ collision l l' \/ zero_digest l \/ zero_digest l'.
Proof.
  intros [Hl <-]%replay_emitted [Hl' <-]%replay_emitted Ht.
  apply emitted_ok in Hl as [[Hc _ _ _ _ _ _] _], Hl' as [[Hc' _ _ _ _ _ _] _]. by apply chained_determined.
Qed.

(** C34. A published run replays, and ends in its last hash; its final cash, and every
    balance it records, is the capital moved by the recorded fills.  Every fill is within
    the policy, with the cash that the rows before it leave: its quantity is under the six
    caps (exposures and liquidity included), the cash covers it and the risk per trade its
    planned loss, it pays the fees of the tariff and leaves a cash that is not negative, and
    the day has lost less than the daily loss before it. *)
Theorem simulate_books `{Dump Definition_} `{Dump Bar} `{Dump Row} `{Dump Risk} `{Dump Dataset_} `{Dump Phase14.Policy}
    `{DumpJson ResearchWindow} `{DumpJson IntradayCostSchedule} `{DumpJson Settings} `{DumpJson Authorization}
    definition_json uncertain software universe q data definition settings costs risk a out :
  simulate definition_json uncertain software universe q data definition settings costs risk a = Ok out ->
  (exists audit, replay (ou_binding out) (ou_events out) = Ok audit) /\
  foldR ledger_step (se_capital settings) (ou_events out) = Ok (ou_cash out) /\
  fills_ok (rd_series data) definition settings costs risk (ou_events out) /\ ou_final_hash out = last_hash (ou_events out).
Proof.
  intros E. unfold simulate in E. unbind E r Er. destruct r as [audit cash]. unbind E replayed Ep.
  apply Ok_inj in E. subst out. cbn. apply paper_run_books in Er as (binding & [_ Hl Hf]). eauto.
Qed.

(** The transcript check never refuses a run. *)
Lemma simulate_total `{Dump Definition_} `{Dump Bar} `{Dump Row} `{Dump Risk} `{Dump Dataset_} `{Dump Phase14.Policy}
    `{DumpJson ResearchWindow} `{DumpJson IntradayCostSchedule} `{DumpJson Settings} `{DumpJson Authorization}
    definition_json uncertain software universe q data definition settings costs risk a r :
  paper_run definition_json uncertain software universe q data definition settings costs risk a = Ok r ->
  exists out, simulate definition_json uncertain software universe q data definition settings costs risk a = Ok out.
Proof.
  intros E. unfold simulate. rewrite E. destruct r as [audit cash].
  apply paper_run_books in E as (binding & [He _ _]). pose proof (emitted_ok _ _ He) as [_ Hb]. cbn.
  assert (replay (ad_binding audit) (ad_events audit) = Ok audit) as ->; [|cbn; eauto].
  rewrite Hb. by apply replay_emitted.
Qed.

(** ** Witnesses *)

Import Sample.

(** The sample run fills twelve shares and closes them: nine events. *)
Lemma paper_output_shape :
  (fun o => (pr_state <$> ou_events o, ou_cash o)) <$> paper_output =
  Ok ([SIGNAL_RECEIVED; ELIGIBILITY_CHECKED; RISK_APPROVED; PAPER_ORDER_CREATED; PAPER_ORDER_ACCEPTED; PAPER_FILLED;
       PAPER_POSITION_OPEN; PAPER_EXIT_PENDING; PAPER_POSITION_CLOSED], Dec 99789769076609547280 (-16)).
Proof. vm_compute. reflexivity. Qed.
Lemma paper_output_ok : exists out, paper_output = Ok out /\ length (ou_events out) = 9%nat.
Proof.
  pose proof paper_output_shape as E. destruct paper_output as [out|]; [|discriminate E]. exists out.
  split; [done|]. apply Ok_inj in E. apply (f_equal (fun x => length x.1)) in E. cbn in E. by rewrite length_fmap in E.
Qed.
Lemma paper_audit : exists binding audit, replay binding (ad_events audit) = Ok audit /\ length (ad_events audit) = 9%nat.
Proof.
  destruct paper_output_ok as (out & E & Hl). unfold paper_output, simulate in E.
  unbind E r Er. destruct r as [audit cash]. unbind E replayed Ep. apply Ok_inj in E. subst out. cbn in Hl.
  apply paper_run_books in Er as (binding & [He _ _]). exists binding, audit. split; [by apply replay_emitted|done].
Qed.


Lemma audit_lifecycle_witness : exists binding audit, length (ad_events audit) = 9%nat /\
  emitted binding audit /\ chained (ad_events audit).
Proof.
  destruct paper_audit as (binding & audit & Hr & Hl). apply replay_emitted in Hr as [He _].
  exists binding, audit. split; [exact Hl|]. split; [exact He|]. exact (proj1 (audit_lifecycle binding audit He)).
Defined.
Lemma audit_tamper_witness : exists l, length l = 9%nat /\
  (row_text <$> l = row_text <$> l \/ collision l l \/ zero_digest l \/ zero_digest l).
Proof.
  destruct paper_audit as (binding & audit & Hr & Hl). exists (ad_events audit). split; [exact Hl|].
  exact (audit_tamper binding binding (ad_events audit) (ad_events audit) audit audit Hr Hr eq_refl).
Defined.
Lemma simulate_books_witness : exists out, paper_output = Ok out /\ length (ou_events out) = 9%nat /\
  foldR ledger_step (dZ 10000) (ou_events out) = Ok (ou_cash out) /\ fills_ok (rd_series paper_dataset) breakout paper_settings sample_schedule paper_risk (ou_events out).
Proof.
  destruct paper_output_ok as (out & E & Hl). exists out. split; [exact E|]. split; [exact Hl|].
  unfold paper_output in E.
  destruct (simulate_books definition_value (fun _ => false) sample_hash sample_hash paper_row paper_dataset breakout
    paper_settings sample_schedule paper_risk paper_authorization out E) as (_ & H1 & H2 & _).
  split; [exact H1|exact H2].
Defined.
