(* ===== verification/Portfolio.v ===== *)
(** * The portfolio coordinator ([phase1418/portfolio.py])

    One writer owns cash, orders, positions, reservations and marks; every mutation is an
    event of a hash-chained journal that records the reconciled account after it.  The
    dictionaries of the coordinator whose iteration order matters are [Exec]'s ordered
    dictionaries.  The class [Portfolio] of the session scheduler extends the coordinator by
    one attribute, [co_crash], and the class [GuardedPortfolio] of the multi-session runs by
    the cumulative drawdown, [co_watch]; the coordinator itself never sets them.  Amounts that the
    source keeps as text ([str] of a decimal, read back with [Decimal]) are the decimals
    themselves: [PyText.dec_of_str_str]. *)
From S2P Require Import Prelude Decimal DecimalFacts Text Dataset Costs Phase14 Strategies Execution Json CanonicalPolicy Research Exec Qualification Chain PyText Paper.
Open Scope list_scope.
Open Scope Z_scope.

Definition LIMIT : Z := 200000.

(** ** The policy and the requests *)

Record Policy := mkPortfolioPolicy {
  pp_version : string; pp_base : Risk; pp_strategy_exposure : option dec; pp_sector_exposure : option dec;
  pp_sectors : gmap string string; pp_sector_evidence : option string; pp_correlation_positions : option Z
}.
(** [value.model_dump(mode="python")] *)
Class DumpPython (A : Type) := model_dump_python : A -> pyval.
Definition policy_fingerprint `{DumpPython Policy} (p : Policy) : res string :=
  sha <$> payload (model_dump_python p) (pp_version p).

Definition policy_gaps (p : Policy) (symbols : list string) : list string :=
  gaps (pp_base p) ++
  reason_if (no_money (pp_strategy_exposure p)) "RISK_POLICY_GAP:strategy_exposure" ++
  reason_if (no_money (pp_sector_exposure p)) "RISK_POLICY_GAP:sector_exposure" ++
  reason_if (no_text (pp_sector_evidence p)) "RISK_POLICY_GAP:sector_evidence" ++
  reason_if (no_count (pp_correlation_positions p)) "RISK_POLICY_GAP:correlation_positions" ++
  reason_if (existsb (fun s => no_text (pp_sectors p !! s)) symbols) "RISK_POLICY_GAP:sector_mapping".

Record Request := mkRequest {
  rq_qualification : Row; rq_data : Dataset_; rq_definition : Definition_; rq_settings : Settings;
  rq_costs : IntradayCostSchedule; rq_authorization : Authorization
}.
Definition rq_symbol (r : Request) : string := sr_symbol (rd_series (rq_data r)).

Record Control := mkControl {
  ct_version : string; ct_policy_hash : string; ct_authorization_evidence : string; ct_enabled : bool;
  ct_paper_halt : bool; ct_delivery_end : option Z; ct_cancel_signals : list string
}.

(** ** Orders *)

Inductive OrderState :=
| PROPOSED | RISK_CHECKED | RESERVED | ACCEPTED | FILLED | EXIT_PENDING | CLOSED | REJECTED | CANCELLED
| MARK | SESSION_END | PAPER_HALTED.
#[export] Instance order_state_eq_dec : EqDecision OrderState.
Proof. solve_decision. Defined.

Definition order_state_text (s : OrderState) : string :=
  match s with
  | PROPOSED => "PROPOSED" | RISK_CHECKED => "RISK_CHECKED" | RESERVED => "RESERVED" | ACCEPTED => "ACCEPTED"
  | FILLED => "FILLED" | EXIT_PENDING => "EXIT_PENDING" | CLOSED => "CLOSED" | REJECTED => "REJECTED"
  | CANCELLED => "CANCELLED" | MARK => "MARK" | SESSION_END => "SESSION_END" | PAPER_HALTED => "PAPER_HALTED"
  end.
Definition TRANSITIONS (previous : option OrderState) : list OrderState :=
  match previous with
  | None => [PROPOSED]
  | Some PROPOSED => [RISK_CHECKED; REJECTED; CANCELLED]
  | Some RISK_CHECKED => [RESERVED; REJECTED; CANCELLED]
  | Some RESERVED => [ACCEPTED; CANCELLED]
  | Some ACCEPTED => [FILLED; CANCELLED]
  | Some FILLED => [EXIT_PENDING]
  | Some EXIT_PENDING => [CLOSED]
  | Some _ => []
  end.
(** The events that are not transitions of an order. *)
Definition portfolio_event (s : OrderState) : bool :=
  match s with MARK | SESSION_END | PAPER_HALTED => true | _ => false end.

(** What a closed order adds: exit price, instant, net result, reason. *)
Record Exit := mkExit { xt_price : dec; xt_at : Z; xt_net : dec; xt_reason : string }.
Record Order := mkOrder {
  or_state : OrderState; or_symbol : string; or_strategy_id : identifier; or_signal : string; or_signal_at : Z;
  or_qualification_hash : string; or_quantity : Z; or_entry : dec; or_entry_fee : dec; or_stop : option dec;
  or_target : option dec; or_entry_at : option Z; or_order_id : string; or_exit : option Exit
}.
Definition set_state (s : OrderState) (o : Order) : Order :=
  mkOrder s (or_symbol o) (or_strategy_id o) (or_signal o) (or_signal_at o) (or_qualification_hash o) (or_quantity o)
    (or_entry o) (or_entry_fee o) (or_stop o) (or_target o) (or_entry_at o) (or_order_id o) (or_exit o).

(** The keyword values of an event. *)
Record Details := mkDetails {
  dt_signal : option string; dt_amount : option dec; dt_quantity : option Z; dt_price : option dec;
  dt_fees : option dec; dt_stop : option dec; dt_target : option dec; dt_reason : option string;
  dt_symbol : option string; dt_complete : option bool; dt_timing : option (gmap string string)
}.
Definition no_details : Details := mkDetails None None None None None None None None None None None.
Definition because (reason : string) : Details :=
  mkDetails None None None None None None None (Some reason) None None None.

(** ** The account *)

Record PaperAccount := mkPaperAccount {
  pa_cash : dec; pa_available : dec; pa_reserved : dec; pa_cost_basis : dec; pa_marked_value : dec; pa_equity : dec;
  pa_realized : dec; pa_unrealized : dec; pa_fees : dec; pa_positions : list (string * Order);
  pa_reservations : list (string * dec); pa_halted : bool
}.

Record PortfolioEvent := mkPortfolioEvent {
  pv_sequence : Z; pv_run_id : string; pv_event_id : string; pv_at : Z; pv_order_id : string; pv_state : OrderState;
  pv_previous : option OrderState; pv_order : option Order; pv_policy_hash : string; pv_policy_version : string;
  pv_scope : json; pv_cash_delta : dec; pv_reservation_delta : dec; pv_position_delta : Z; pv_details : Details;
  pv_account : PaperAccount; pv_previous_hash : string; pv_current_hash : string
}.

(** The attributes of [GuardedPortfolio]. *)
Record Watch := mkWatch { wt_high_water : dec; wt_maximum_drawdown : dec; wt_cumulative_limit : dec }.
Record Coordinator := mkCoordinator {
  co_binding : gmap string json; co_run_id : string; co_policy : Policy; co_cash : dec; co_opening : dec;
  co_fees : dec; co_realized : dec; co_orders : list (string * Order); co_positions : list (string * string);
  co_reservations : list (string * dec); co_marks : list (string * dec); co_consumed : gset string;
  co_events : list PortfolioEvent; co_halted : bool; co_day : option Z; co_day_equity : dec; co_crash : option string;
  co_watch : option Watch
}.

Definition coordinator_init (binding : gmap string json) (policy : Policy) : Coordinator :=
  let cash := match rk_capital (pp_base policy) with Some c => if coef c =? 0 then d0 else c | None => d0 end in
  mkCoordinator binding (sha (dict_text binding)) policy cash cash d0 d0 [] [] [] [] ∅ [] false None cash None None.

(** Sums over the open positions. *)
Definition entry_value (c : Coordinator) (k : string) : res dec :=
  o ← of_option KeyError (find (co_orders c) k); pmul (or_entry o) (dZ (or_quantity o)).
Definition mark_of (c : Coordinator) (s : string) (o : Order) : dec := default (or_entry o) (find (co_marks c) s).
Definition marked_value (c : Coordinator) (x : string * string) : res dec :=
  o ← of_option KeyError (find (co_orders c) x.2); pmul (mark_of c x.1 o) (dZ (or_quantity o)).
Definition unrealized_value (c : Coordinator) (x : string * string) : res dec :=
  o ← of_option KeyError (find (co_orders c) x.2);
  gain ← psub (mark_of c x.1 o) (or_entry o);
  gain ← pmul gain (dZ (or_quantity o));
  psub gain (or_entry_fee o).
Definition sum_over {A} (f : A -> res dec) (l : list A) : res dec :=
  foldR (fun total x => v ← f x; padd total v) d0 l.

Definition by_key {A} : list (string * A) -> list (string * A) := sort_by (fun a b => String.leb a.1 b.1).
Definition position_orders (c : Coordinator) : res (list (string * Order)) :=
  mapR (fun x => o ← of_option KeyError (find (co_orders c) x.2); Ok (x.1, o)) (by_key (co_positions c)).

Definition account (c : Coordinator) : res PaperAccount :=
  reserved ← psum (co_reservations c).*2;
  basis ← sum_over (entry_value c) (co_positions c).*2;
  marked ← sum_over (marked_value c) (co_positions c);
  unrealized ← sum_over (unrealized_value c) (co_positions c);
  require! dleb reserved (co_cash c) && dleb d0 reserved else "PAPER_HALTED:INVALID_ACCOUNTING";
  equity ← padd (co_cash c) marked;
  explained ← padd (co_opening c) (co_realized c);
  explained ← padd explained unrealized;
  require! deqb equity explained else "PAPER_HALTED:UNBALANCED_EQUITY";
  available ← psub (co_cash c) reserved;
  positions ← position_orders c;
  Ok (mkPaperAccount (co_cash c) available reserved basis marked equity (co_realized c) unrealized (co_fees c)
        positions (by_key (co_reservations c)) (co_halted c)).

(** Assignments to the attributes of a coordinator. *)
Definition with_orders (x : list (string * Order)) (c : Coordinator) : Coordinator :=
  mkCoordinator (co_binding c) (co_run_id c) (co_policy c) (co_cash c) (co_opening c) (co_fees c) (co_realized
    c) x (co_positions c) (co_reservations c) (co_marks c) (co_consumed c) (co_events c) (co_halted c) (co_day
    c) (co_day_equity c) (co_crash c) (co_watch c).
Definition with_positions (x : list (string * string)) (c : Coordinator) : Coordinator :=
  mkCoordinator (co_binding c) (co_run_id c) (co_policy c) (co_cash c) (co_opening c) (co_fees c) (co_realized
    c) (co_orders c) x (co_reservations c) (co_marks c) (co_consumed c) (co_events c) (co_halted c) (co_day c)
    (co_day_equity c) (co_crash c) (co_watch c).
Definition with_reservations (x : list (string * dec)) (c : Coordinator) : Coordinator :=
  mkCoordinator (co_binding c) (co_run_id c) (co_policy c) (co_cash c) (co_opening c) (co_fees c) (co_realized
    c) (co_orders c) (co_positions c) x (co_marks c) (co_consumed c) (co_events c) (co_halted c) (co_day c)
    (co_day_equity c) (co_crash c) (co_watch c).
Definition with_marks (x : list (string * dec)) (c : Coordinator) : Coordinator :=
  mkCoordinator (co_binding c) (co_run_id c) (co_policy c) (co_cash c) (co_opening c) (co_fees c) (co_realized
    c) (co_orders c) (co_positions c) (co_reservations c) x (co_consumed c) (co_events c) (co_halted c)
    (co_day c) (co_day_equity c) (co_crash c) (co_watch c).
Definition with_money (cash fees realized : dec) (c : Coordinator) : Coordinator :=
  mkCoordinator (co_binding c) (co_run_id c) (co_policy c) cash (co_opening c) fees realized (co_orders c)
    (co_positions c) (co_reservations c) (co_marks c) (co_consumed c) (co_events c) (co_halted c) (co_day c)
    (co_day_equity c) (co_crash c) (co_watch c).
Definition with_consumed (x : gset string) (c : Coordinator) : Coordinator :=
  mkCoordinator (co_binding c) (co_run_id c) (co_policy c) (co_cash c) (co_opening c) (co_fees c) (co_realized
    c) (co_orders c) (co_positions c) (co_reservations c) (co_marks c) x (co_events c) (co_halted c) (co_day
    c) (co_day_equity c) (co_crash c) (co_watch c).
Definition with_events (x : list PortfolioEvent) (c : Coordinator) : Coordinator :=
  mkCoordinator (co_binding c) (co_run_id c) (co_policy c) (co_cash c) (co_opening c) (co_fees c) (co_realized
    c) (co_orders c) (co_positions c) (co_reservations c) (co_marks c) (co_consumed c) x (co_halted c) (co_day
    c) (co_day_equity c) (co_crash c) (co_watch c).
Definition with_halted (x : bool) (c : Coordinator) : Coordinator :=
  mkCoordinator (co_binding c) (co_run_id c) (co_policy c) (co_cash c) (co_opening c) (co_fees c) (co_realized
    c) (co_orders c) (co_positions c) (co_reservations c) (co_marks c) (co_consumed c) (co_events c) x (co_day
    c) (co_day_equity c) (co_crash c) (co_watch c).
Definition with_day (day : option Z) (equity : dec) (c : Coordinator) : Coordinator :=
  mkCoordinator (co_binding c) (co_run_id c) (co_policy c) (co_cash c) (co_opening c) (co_fees c) (co_realized
    c) (co_orders c) (co_positions c) (co_reservations c) (co_marks c) (co_consumed c) (co_events c)
    (co_halted c) day equity (co_crash c) (co_watch c).

Definition with_crash (x : option string) (c : Coordinator) : Coordinator :=
  mkCoordinator (co_binding c) (co_run_id c) (co_policy c) (co_cash c) (co_opening c) (co_fees c) (co_realized
    c) (co_orders c) (co_positions c) (co_reservations c) (co_marks c) (co_consumed c) (co_events c)
    (co_halted c) (co_day c) (co_day_equity c) x (co_watch c).
Definition with_watch (x : option Watch) (c : Coordinator) : Coordinator :=
  mkCoordinator (co_binding c) (co_run_id c) (co_policy c) (co_cash c) (co_opening c) (co_fees c) (co_realized
    c) (co_orders c) (co_positions c) (co_reservations c) (co_marks c) (co_consumed c) (co_events c)
    (co_halted c) (co_day c) (co_day_equity c) (co_crash c) x.

(** ** Events as dictionaries *)

Definition order_fields (o : Order) : list (string * json) :=
  [("state", JStr (order_state_text (or_state o))); ("symbol", JStr (or_symbol o));
   ("strategy_id", JStr (identifier_text (or_strategy_id o))); ("strategy_version", JStr "1");
   ("signal", JStr (or_signal o)); ("signal_at", JStr (iso (or_signal_at o)));
   ("qualification_hash", JStr (or_qualification_hash o)); ("quantity", JInt (or_quantity o));
   ("entry", jdec (or_entry o)); ("entry_fee", jdec (or_entry_fee o)); ("stop", jopt jdec (or_stop o));
   ("target", jopt jdec (or_target o)); ("entry_at", jopt (JStr ∘ iso) (or_entry_at o));
   ("order_id", JStr (or_order_id o))]%string ++
  match or_exit o with
  | Some x => [("exit", jdec (xt_price x)); ("exit_at", JStr (iso (xt_at x))); ("net", jdec (xt_net x));
               ("exit_reason", JStr (xt_reason x))]%string
  | None => []
  end.
Definition account_fields (a : PaperAccount) : list (string * json) :=
  [("cash", jdec (pa_cash a)); ("available", jdec (pa_available a)); ("reserved", jdec (pa_reserved a));
   ("cost_basis", jdec (pa_cost_basis a)); ("marked_value", jdec (pa_marked_value a));
   ("equity", jdec (pa_equity a)); ("realized", jdec (pa_realized a)); ("unrealized", jdec (pa_unrealized a));
   ("fees", jdec (pa_fees a));
   ("positions", JObj ((fun x => (x.1, JObj (order_fields x.2))) <$> pa_positions a));
   ("reservations", JObj ((fun x => (x.1, jdec x.2)) <$> pa_reservations a)); ("halted", JBool (pa_halted a))]%string.
(** A keyword that is present. *)
Definition jkey {A} (key : string) (f : A -> json) (o : option A) : list (string * json) :=
  match o with Some x => [(key, f x)] | None => [] end.
Definition details_fields (d : Details) : list (string * json) :=
  (jkey "signal" JStr (dt_signal d) ++ jkey "amount" jdec (dt_amount d) ++ jkey "quantity" JInt (dt_quantity d) ++
   jkey "price" jdec (dt_price d) ++ jkey "fees" jdec (dt_fees d) ++ jkey "stop" jdec (dt_stop d) ++
   jkey "target" jdec (dt_target d) ++ jkey "reason" JStr (dt_reason d) ++ jkey "symbol" JStr (dt_symbol d) ++
   jkey "complete" JBool (dt_complete d) ++ jkey "timing" jtexts (dt_timing d))%list.
Definition event_fields (e : PortfolioEvent) : list (string * json) :=
  [("sequence", JInt (pv_sequence e)); ("run_id", JStr (pv_run_id e)); ("event_id", JStr (pv_event_id e));
   ("timestamp", JStr (iso (pv_at e))); ("order_id", JStr (pv_order_id e));
   ("state", JStr (order_state_text (pv_state e)));
   ("previous_state", jopt (JStr ∘ order_state_text) (pv_previous e));
   ("symbol", match pv_order e with Some o => JStr (or_symbol o) | None => jopt JStr (dt_symbol (pv_details e)) end);
   ("strategy_id", jopt (JStr ∘ identifier_text ∘ or_strategy_id) (pv_order e));
   ("signal_fingerprint", jopt (JStr ∘ or_signal) (pv_order e));
   ("qualification_fingerprint", jopt (JStr ∘ or_qualification_hash) (pv_order e));
   ("execution_policy_version", JStr EXECUTION_VERSION);
   ("execution_policy_fingerprint", JStr execution_fingerprint);
   ("risk_policy_fingerprint", JStr (pv_policy_hash e));
   ("risk_policy_fingerprint_version", JStr (pv_policy_version e)); ("scope", pv_scope e);
   ("cash_delta", jdec (pv_cash_delta e)); ("reservation_delta", jdec (pv_reservation_delta e));
   ("position_delta", JInt (pv_position_delta e)); ("fees", jdec (default d0 (dt_fees (pv_details e))));
   ("details", JObj (details_fields (pv_details e))); ("account", JObj (account_fields (pv_account e)));
   ("previous_hash", JStr (pv_previous_hash e))]%string.
Definition event_dict (e : PortfolioEvent) : gmap string json := list_to_map (event_fields e).
Definition event_text (e : PortfolioEvent) : bytes := dict_text (event_dict e).

(** ** Mutations of an event *)

Section coordinator.
Context `{Dump Row} `{DumpPython Policy}.
Implicit Types (key : string) (state : OrderState) (values : Details).

Definition store_order key (o : Order) : exec Coordinator unit :=
  modify (fun c => with_orders (store (co_orders c) key o) c).
Definition new_order key (at_ : Z) (r : Request) (signal : string) : Order :=
  mkOrder PROPOSED (rq_symbol r) (df_identifier (rq_definition r)) signal at_ (row_fingerprint (rq_qualification r))
    0 d0 d0 None None None key None.

(** The guards of an event, before any mutation. *)
Definition event_guard (at_ : Z) (c : Coordinator) : res unit :=
  reject! LIMIT <=? Z.of_nat (length (co_events c)) as "PAPER_HALTED:JOURNAL_LIMIT";
  reject! match last (co_events c) with Some e => at_ <? pv_at e | None => false end
    as "PAPER_HALTED:OUT_OF_ORDER_EVENT";
  Ok tt.

(** The transition of the order: a new order, or the new state of a known one. *)
Definition move_order key state (at_ : Z) (request : option Request) values : exec Coordinator unit :=
  c ← get;
  let order := find (co_orders c) key in
  _ ← lift (raise_unless (bool_decide (state ∈ TRANSITIONS (or_state <$> order))) "INVALID_OR_DUPLICATE_TRANSITION");
  match order with
  | None =>
      r ← lift (of_option AssertionError request);
      signal ← lift (of_option KeyError (dt_signal values));
      store_order key (new_order key at_ r signal)
  | Some o => store_order key (set_state state o)
  end.

Definition reserve key values : exec Coordinator unit :=
  c ← get;
  _ ← raises_if (has (co_reservations c) key) "DOUBLE_RESERVATION";
  amount ← lift (of_option KeyError (dt_amount values));
  modify (with_reservations (store (co_reservations c) key amount)).

Definition fill key (at_ : Z) values : exec Coordinator unit :=
  c ← get;
  o ← lift (of_option AssertionError (find (co_orders c) key));
  _ ← raises_if (has (co_positions c) (or_symbol o)) "SYMBOL_ALREADY_OWNED";
  price ← lift (of_option KeyError (dt_price values));
  quantity ← lift (of_option KeyError (dt_quantity values));
  fees ← lift (of_option KeyError (dt_fees values));
  value ← lift (pmul price (dZ quantity));
  debit ← lift (padd value fees);
  _ ← raises_if (match find (co_reservations c) key with Some amount => negb (deqb amount debit) | None => true end)
        "PAPER_HALTED:UNRECONCILED_RESERVATION";
  _ ← modify (fun c => with_reservations (discard (co_reservations c) key) c);
  cash ← lift (psub (co_cash c) debit);
  _ ← modify (fun c => with_money cash (co_fees c) (co_realized c) c);
  paid ← lift (padd (co_fees c) fees);
  _ ← modify (fun c => with_money (co_cash c) paid (co_realized c) c);
  stop ← lift (of_option KeyError (dt_stop values));
  target ← lift (of_option KeyError (dt_target values));
  _ ← store_order key (mkOrder (or_state o) (or_symbol o) (or_strategy_id o) (or_signal o) (or_signal_at o)
        (or_qualification_hash o) quantity price fees (Some stop) (Some target) (Some at_) (or_order_id o) (or_exit o));
  _ ← modify (fun c => with_positions (store (co_positions c) (or_symbol o) key) c);
  modify (fun c => with_marks (store (co_marks c) (or_symbol o) price) c).

Definition close key (at_ : Z) values : exec Coordinator unit :=
  c ← get;
  o ← lift (of_option AssertionError (find (co_orders c) key));
  _ ← raises_if (negb (bool_decide (find (co_positions c) (or_symbol o) = Some key)))
        "PAPER_HALTED:POSITION_OWNERSHIP_MISMATCH";
  _ ← modify (fun c => with_positions (discard (co_positions c) (or_symbol o)) c);
  price ← lift (of_option KeyError (dt_price values));
  sell ← lift (pmul price (dZ (or_quantity o)));
  fee ← lift (of_option KeyError (dt_fees values));
  buy ← lift (pmul (or_entry o) (dZ (or_quantity o)));
  net ← lift (psub sell buy);
  net ← lift (psub net (or_entry_fee o));
  net ← lift (psub net fee);
  got ← lift (psub sell fee);
  cash ← lift (padd (co_cash c) got);
  _ ← modify (fun c => with_money cash (co_fees c) (co_realized c) c);
  paid ← lift (padd (co_fees c) fee);
  _ ← modify (fun c => with_money (co_cash c) paid (co_realized c) c);
  realized ← lift (padd (co_realized c) net);
  _ ← modify (fun c => with_money (co_cash c) (co_fees c) realized c);
  reason ← lift (of_option KeyError (dt_reason values));
  store_order key (mkOrder (or_state o) (or_symbol o) (or_strategy_id o) (or_signal o) (or_signal_at o)
    (or_qualification_hash o) (or_quantity o) (or_entry o) (or_entry_fee o) (or_stop o) (or_target o) (or_entry_at o)
    (or_order_id o) (Some (mkExit price at_ net reason))).

Definition apply_event key state (at_ : Z) values : exec Coordinator unit :=
  match state with
  | RESERVED => reserve key values
  | FILLED => fill key at_ values
  | CLOSED => close key at_ values
  | CANCELLED => modify (fun c => with_reservations (discard (co_reservations c) key) c)
  | MARK =>
      symbol ← lift (of_option KeyError (dt_symbol values));
      price ← lift (of_option KeyError (dt_price values));
      modify (fun c => with_marks (store (co_marks c) symbol price) c)
  | PAPER_HALTED => modify (with_halted true)
  | _ => mret tt
  end.

Definition last_event_hash (l : list PortfolioEvent) : string :=
  match last l with Some e => pv_current_hash e | None => GENESIS end.

(** The event of a mutation: the order and the account after it, and the account before. *)
Definition record_event key state (at_ : Z) values (previous : option OrderState) (before : PaperAccount)
    : exec Coordinator unit :=
  c ← get;
  after ← lift (account c);
  hash ← lift (policy_fingerprint (co_policy c));
  scope ← lift (of_option KeyError (co_binding c !! "scope"%string));
  cash_delta ← lift (psub (pa_cash after) (pa_cash before));
  reservation_delta ← lift (psub (pa_reserved after) (pa_reserved before));
  let n := Z.of_nat (length (co_events c)) in
  let order := find (co_orders c) key in
  let e current :=
    mkPortfolioEvent n (co_run_id c) (digest (co_run_id c +:+ int_text n)%string) at_ key state previous order hash
      (pp_version (co_policy c)) scope cash_delta reservation_delta
      (Z.of_nat (length (pa_positions after)) - Z.of_nat (length (pa_positions before))) values after
      (last_event_hash (co_events c)) current in
  modify (with_events (co_events c ++ [e (sha (event_text (e ""%string)))])).

(** The method [emit] of [Coordinator]. *)
Definition super_emit key state (at_ : Z) (request : option Request) values : exec Coordinator unit :=
  c ← get;
  _ ← lift (event_guard at_ c);
  before ← lift (account c);
  let previous := or_state <$> find (co_orders c) key in
  _ ← when! negb (portfolio_event state) do move_order key state at_ request values;
  _ ← apply_event key state at_ values;
  record_event key state at_ values previous before.

(** The method [emit] of its subclass [Portfolio], which can stop after an event; with
    no [crash] it is that of [Coordinator]. *)
Definition portfolio_emit key state (at_ : Z) (request : option Request) values : exec Coordinator unit :=
  _ ← super_emit key state at_ request values;
  c ← get;
  lift (if bool_decide (co_crash c = Some (order_state_text state))
        then Err (InterruptedError ("SYNTHETIC_CRASH:" +:+ order_state_text state)) else Ok tt).

(** ** Halting and the guards *)

(** The event of a halt is one that [GuardedPortfolio.emit] does not guard. *)
Definition halt (at_ : Z) (reason : string) : exec Coordinator unit :=
  c ← get;
  when! negb (co_halted c) do portfolio_emit "portfolio" PAPER_HALTED at_ None (because reason).

(** The method [guard] of [Coordinator]: the daily loss. *)
Definition daily_guard (at_ : Z) : exec Coordinator unit :=
  c ← get;
  _ ← when! negb (bool_decide (co_day c = Some (nse_date at_))) do (
        a ← lift (account c);
        modify (with_day (Some (nse_date at_)) (pa_equity a)));
  c ← get;
  match rk_daily_loss (pp_base (co_policy c)) with
  | Some limit =>
      when! negb (coef limit =? 0) do (
        a ← lift (account c);
        lost ← lift (psub (co_day_equity c) (pa_equity a));
        when! dleb limit lost do halt at_ "DAILY_LOSS_BREACH")
  | None => mret tt
  end.

(** The method [guard] of [GuardedPortfolio]: the cumulative drawdown too.  Without the
    attributes of that class it is the method of [Coordinator]. *)
Definition watch_drawdown (at_ : Z) (w : Watch) : exec Coordinator unit :=
  c ← get;
  a ← lift (account c);
  let high := dmax (wt_high_water w) (pa_equity a) in
  _ ← modify (with_watch (Some (mkWatch high (wt_maximum_drawdown w) (wt_cumulative_limit w))));
  below ← lift (psub high (pa_equity a));
  _ ← modify (with_watch (Some (mkWatch high (dmax (wt_maximum_drawdown w) below) (wt_cumulative_limit w))));
  when! dleb (wt_cumulative_limit w) below do halt at_ "CUMULATIVE_DRAWDOWN_BREACH".
Definition guard (at_ : Z) : exec Coordinator unit :=
  _ ← daily_guard at_;
  c ← get;
  match co_watch c with Some w => watch_drawdown at_ w | None => mret tt end.

(** The method [emit] of [GuardedPortfolio]; without its attributes, of [Portfolio]. *)
Definition guarded_state (c : Coordinator) state : bool :=
  match co_watch c, state with Some _, FILLED | Some _, CLOSED => true | _, _ => false end.
Definition emit key state (at_ : Z) (request : option Request) values : exec Coordinator unit :=
  _ ← portfolio_emit key state at_ request values;
  c ← get;
  when! guarded_state c state do guard at_.

(** ** Entering a position *)

(** The market value held in all positions, in those of the strategy, and in those of
    the sector of a symbol. *)
Definition exposure_step (c : Coordinator) (o : Order) (total : dec * dec * dec) (x : string * string)
    : res (dec * dec * dec) :=
  let '(all, strategy, sector) := total in
  mark ← of_option KeyError (find (co_marks c) x.1);
  held ← of_option KeyError (find (co_orders c) x.2);
  value ← pmul mark (dZ (or_quantity held));
  all ← padd all value;
  strategy ← (if bool_decide (or_strategy_id held = or_strategy_id o) then padd strategy value else Ok strategy);
  theirs ← of_option KeyError (pp_sectors (co_policy c) !! x.1);
  ours ← of_option KeyError (pp_sectors (co_policy c) !! or_symbol o);
  sector ← (if bool_decide (theirs = ours) then padd sector value else Ok sector);
  Ok (all, strategy, sector).
(** The smallest of the exposures that remain. *)
Definition remaining_exposure (c : Coordinator) (o : Order) : res dec :=
  '(total, strategy, sector) ← foldR (exposure_step c o) (d0, d0, d0) (co_positions c);
  let base := pp_base (co_policy c) in
  if no_money (rk_portfolio_exposure base) || no_money (pp_strategy_exposure (co_policy c)) ||
     no_money (pp_sector_exposure (co_policy c)) then Err AssertionError
  else
    a ← psub (default d0 (rk_portfolio_exposure base)) total;
    b ← psub (default d0 (pp_strategy_exposure (co_policy c))) strategy;
    s ← psub (default d0 (pp_sector_exposure (co_policy c))) sector;
    Ok (dmin (dmin a b) s).

(** The first reason to refuse an order, if any. *)
Definition entry_refusal (at_ : Z) (c : Coordinator) (o : Order) : option string :=
  let base := pp_base (co_policy c) in
  let reason := if co_halted c then Some "PAPER_HALT"%string
                else if has (co_positions c) (or_symbol o) then Some "ONE_POSITION_PER_SYMBOL"%string else None in
  let reason := if or_signal_at o + FIVE <=? at_ then Some "EXPIRED_SIGNAL"%string else reason in
  let held := Z.of_nat (length (co_positions c)) + Z.of_nat (length (co_reservations c)) in
  if Z.min (default 0 (rk_simultaneous_positions base)) (default 0 (pp_correlation_positions (co_policy c))) <=? held
  then Some (default "POSITION_OR_CORRELATION_LIMIT"%string reason) else reason.

Definition with_portfolio_exposure (x : dec) (r : Risk) : Risk :=
  mkRisk (rk_fixture_only r) (rk_reviewed_evidence r) (rk_capital r) (rk_risk_per_trade r) (rk_daily_loss r)
    (rk_simultaneous_positions r) (rk_symbol_exposure r) (Some x) (rk_max_quantity r) (rk_correlation_reviewed r).
Definition with_quantity (q : Z) (s : Settings) : Settings :=
  mkSettings (se_capital s) (se_order_ceiling s) (se_price_buffer s) q (se_slippage_bps s) (se_participation s)
    (se_allow_long s).

Definition order_size (r : Request) (price : dec) (quantity at_ : Z) (c : Coordinator) (remaining : dec) : res Z :=
  if dleb remaining d0 then Ok 0
  else
    a ← account c;
    liquidity ← liquidity_bar (rd_series (rq_data r)) at_;
    size (with_quantity quantity (rq_settings r)) (rq_costs r) price at_ (pa_available a) (b_volume liquidity)
      (df_stop (rq_definition r)) (with_portfolio_exposure remaining (pp_base (co_policy c))).

(** Reservation, acceptance and fill of a sized order. *)
Definition buy key (r : Request) (price : dec) (qty at_ : Z) (signal : string) (control : Control)
    : exec Coordinator unit :=
  value ← lift (pmul price (dZ qty));
  fee ← lift (quote_total (rq_costs r) BUY value at_ None);
  amount ← lift (padd value fee);
  timing ← lift (decision_timing (rd_series (rq_data r)) at_);
  _ ← emit key RESERVED at_ None
        (mkDetails None (Some amount) (Some qty) None None None None None None None (Some timing));
  if bool_decide (signal ∈ ct_cancel_signals control) then emit key CANCELLED at_ None (because "EXPLICIT_PAPER_CANCEL")
  else
    _ ← emit key ACCEPTED at_ None no_details;
    below ← lift (psub (dZ 1) (df_stop (rq_definition r)));
    stop ← lift (pmul price below);
    above ← lift (padd (dZ 1) (df_target (rq_definition r)));
    target ← lift (pmul price above);
    emit key FILLED at_ None
      (mkDetails None None (Some qty) (Some price) (Some fee) (Some stop) (Some target) None None None (Some timing)).

Definition enter key (r : Request) (price : dec) (quantity at_ : Z) (control : Control) : exec Coordinator unit :=
  c ← get;
  o ← lift (of_option KeyError (find (co_orders c) key));
  if negb (bool_decide (or_state o = PROPOSED)) then mret tt
  else
    _ ← emit key RISK_CHECKED at_ None no_details;
    c ← get;
    match entry_refusal at_ c o with
    | Some reason => emit key REJECTED at_ None (because reason)
    | None =>
        remaining ← lift (remaining_exposure c o);
        match by_start (sr_bars (rd_series (rq_data r))) !! at_ with
        | None =>
            _ ← halt at_ "MISSING_ENTRY_DATA";
            emit key REJECTED at_ None (because "MISSING_ENTRY_DATA")
        | Some _ =>
            qty ← lift (order_size r price quantity at_ c remaining);
            if qty <=? 0 then emit key REJECTED at_ None (because "CASH_EXPOSURE_LIQUIDITY_OR_RISK")
            else buy key r price qty at_ (or_signal o) control
        end
    end.
End coordinator.
