(* ===== verification/PortfolioRun.v ===== *)
(** * The portfolio run ([phase1418/portfolio.py], [_run] and [reports])

    The candidate streams of the requests become actions, sorted by instant, priority
    (exits, halts, marks, proposals, entries, rejections, ends of session), canonical
    rank, strategy, signal and request; the coordinator performs them in that order. *)
From S2P Require Import Prelude Decimal DecimalFacts Text Dataset Costs Phase14 Strategies Execution Json CanonicalPolicy Research Exec Qualification Chain PyText Paper.
From S2P Require Import Portfolio.
Open Scope list_scope.
Open Scope Z_scope.

Definition ORDERING : string := "timestamp-exits-marks-canonical-symbol-strategy-signal-v1".

(** ** Actions *)

Inductive Kind := KExit | KHalt | KMark | KPropose | KEnter | KReject | KEnd.
Definition priority (k : Kind) : Z :=
  match k with KExit => 0 | KHalt => 1 | KMark => 2 | KPropose => 3 | KEnter => 4 | KReject => 5 | KEnd => 6 end.

Record Action := mkAction {
  ax_at : Z; ax_rank : Z; ax_identifier : string; ax_signal : string; ax_index : Z; ax_kind : Kind;
  ax_price : option dec; ax_quantity : Z; ax_rejection : option string
}.

(** The order of the sort keys. *)
Definition string_cmp (a b : string) : comparison := String.compare a b.
Definition lex (c d : comparison) : comparison := match c with Eq => d | _ => c end.
Definition action_cmp (a b : Action) : comparison :=
  lex (ax_at a ?= ax_at b) (lex (priority (ax_kind a) ?= priority (ax_kind b)) (lex (ax_rank a ?= ax_rank b)
    (lex (string_cmp (ax_identifier a) (ax_identifier b)) (lex (string_cmp (ax_signal a) (ax_signal b))
      (ax_index a ?= ax_index b))))).
Definition action_le (a b : Action) : bool := match action_cmp a b with Gt => false | _ => true end.

(** Neighbours of a sorted list with the same key: the comparison of their events, which
    are dictionaries, raises. *)
Fixpoint tied (l : list Action) : bool :=
  match l with
  | a :: (b :: _ as l) => match action_cmp a b with Eq => true | _ => tied l end
  | _ => false
  end.

(** The action of a paper event. *)
Definition kind_of (s : PaperState) : option Kind :=
  match s with
  | SIGNAL_RECEIVED => Some KPropose
  | PAPER_FILLED => Some KEnter
  | PAPER_POSITION_CLOSED => Some KExit
  | PAPER_ORDER_REJECTED => Some KReject
  | Paper.PAPER_HALTED => Some KHalt
  | _ => None
  end.
(** [control.delivery_end and at > control.delivery_end] *)
Definition undelivered (control : Control) (at_ : Z) : bool :=
  match ct_delivery_end control with Some end_ => end_ <? at_ | None => false end.

Section actions.
Context (control : Control).

Definition event_action (rank : Z) (r : Request) (index : Z) (e : PaperRow) : option Action :=
  if undelivered control (pr_at e) then None
  else
    kind ← kind_of (pr_state e);
    Some (mkAction (pr_at e) rank (identifier_text (df_identifier (rq_definition r))) (pr_signal e) index kind
            (v_price (pr_values e)) (v_quantity (pr_values e)) (v_rejection (pr_values e))).

(** The marks of a dataset that no earlier request has added. *)
Definition mark_step (rank : Z) (r : Request) (index : Z) (st : gset (string * Z) * list Action) (b : Bar)
    : gset (string * Z) * list Action :=
  let '(marks, actions) := st in
  let mark := (rq_symbol r, candle_end b) in
  if undelivered control (candle_end b) || bool_decide (mark ∈ marks) then (marks, actions)
  else ({[mark]} ∪ marks,
        actions ++ [mkAction (candle_end b) rank "" "" index KMark (Some (b_close b)) 0 None]).

Definition end_action (at_ : Z) : Action := mkAction at_ 0 "" "" 0 KEnd None 0 None.
Definition missing_action (at_ : Z) : Action :=
  mkAction at_ 0 "" "" 0 KHalt None 0 (Some "MANDATORY_DELIVERY_MISSING"%string).
End actions.

(** [min(values)], [max(values)] of a nonempty collection *)
Definition min_of (l : list Z) : res Z := match l with [] => Err (ValueError "min()") | x :: l => Ok (min_list x l) end.
Definition max_of (l : list Z) : res Z :=
  match l with [] => Err (ValueError "max()") | x :: l => Ok (foldl Z.max x l) end.

(** ** Performing an action *)

Section perform.
Context `{Dump Row} `{DumpPython Policy}.
Context (requests : list Request) (control : Control).

Definition open_state (s : OrderState) : bool :=
  match s with PROPOSED | RISK_CHECKED | RESERVED | ACCEPTED => true | _ => false end.

(** The rejections that reveal bad data. *)
Definition contains (part s : string) : bool :=
  existsb (fun n => String.prefix part (String.substring n (String.length s) s)) (seq 0 (String.length s + 1)).
Definition data_conflict (reason : string) : bool :=
  contains "PAPER_DATA_QUALITY" reason || contains "PAPER_BINDING_CONFLICT" reason.

Definition propose (key : string) (at_ : Z) (r : Request) (signal : string) : exec Coordinator unit :=
  _ ← emit key PROPOSED at_ (Some r)
        (mkDetails (Some signal) None None None None None None None None None None);
  c ← get;
  if bool_decide (signal ∈ co_consumed c) then emit key REJECTED at_ None (because "DUPLICATE_SIGNAL")
  else modify (fun c => with_consumed ({[signal]} ∪ co_consumed c) c).

Definition refuse (key : string) (at_ : Z) (reason : string) : exec Coordinator unit :=
  _ ← when! data_conflict reason do halt at_ reason;
  c ← get;
  o ← lift (of_option KeyError (find (co_orders c) key));
  when! bool_decide (or_state o = PROPOSED) do emit key REJECTED at_ None (because reason).

Definition mark (at_ : Z) (symbol : string) (price : dec) : exec Coordinator unit :=
  _ ← emit "portfolio" MARK at_ None (mkDetails None None None (Some price) None None None None (Some symbol) None None);
  guard at_.

Definition leave (key : string) (at_ : Z) (r : Request) (price : option dec) (reason : option string)
    : exec Coordinator unit :=
  c ← get;
  match find (co_orders c) key with
  | Some o =>
      when! bool_decide (or_state o = FILLED) do (
        price ← lift (of_option TypeError price);
        value ← lift (pmul price (dZ (or_quantity o)));
        basis ← lift (pmul (or_entry o) (dZ (or_quantity o)));
        fee ← lift (quote_total (rq_costs r) SELL value (at_ - FIVE) (Some basis));
        reason ← lift (of_option TypeError reason);
        _ ← emit key EXIT_PENDING at_ None (because reason);
        _ ← emit key CLOSED at_ None
              (mkDetails None None None (Some price) (Some fee) None None (Some reason) None None None);
        guard at_)
  | None => mret tt
  end.

(** The end of a session: open orders are cancelled, a position left halts the run. *)
Definition cancel_open (at_ : Z) (key : string) : exec Coordinator unit :=
  c ← get;
  match find (co_orders c) key with
  | Some o => when! open_state (or_state o) do emit key CANCELLED at_ None (because "EOD_CANCEL")
  | None => mret tt
  end.
Definition end_session (at_ : Z) : exec Coordinator unit :=
  c ← get;
  _ ← each (cancel_open at_) (co_orders c).*1;
  c ← get;
  _ ← when! negb (is_nil (co_positions c)) do halt at_ "EOD_UNRESOLVED_POSITION";
  c ← get;
  emit "portfolio" SESSION_END at_ None
    (mkDetails None None None None None None None None None
       (Some (is_nil (co_positions c) && is_nil (co_reservations c))) None).

Definition perform (a : Action) : exec Coordinator unit :=
  r ← lift (of_option IndexError (requests !! Z.to_nat (ax_index a)));
  c ← get;
  let at_ := ax_at a in
  let key := digest (co_run_id c +:+ int_text (ax_index a) +:+ ax_signal a)%string in
  _ ← guard at_;
  match ax_kind a with
  | KPropose => propose key at_ r (ax_signal a)
  | KEnter => price ← lift (of_option TypeError (ax_price a)); enter key r price (ax_quantity a) at_ control
  | KReject => reason ← lift (of_option TypeError (ax_rejection a)); refuse key at_ reason
  | KHalt => reason ← lift (of_option TypeError (ax_rejection a)); halt at_ reason
  | KMark => price ← lift (of_option TypeError (ax_price a)); mark at_ (rq_symbol r) price
  | KExit => leave key at_ r (ax_price a) (ax_rejection a)
  | KEnd => end_session at_
  end.
End perform.

(** ** The run *)

Section run.
Context `{Dump Definition_} `{Dump Bar} `{Dump Row} `{Dump Risk} `{Dump Dataset_} `{Dump Phase14.Policy} `{Dump Request}.
Context `{DumpJson ResearchWindow} `{DumpJson IntradayCostSchedule} `{DumpJson Settings} `{DumpJson Authorization}.
Context `{DumpJson Policy} `{DumpJson Control} `{DumpPython Policy}.
Context (definition_json : Definition_ -> json) (uncertain : Metrics -> bool) (software_hash universe_hash : string).
(** The symbols of the universe file and the inventory of the software. *)
Context (universe : list string) (inventory : json).

Definition request_fingerprint (r : Request) : string := digest (model_dump_json r).

(** [rank.get(symbol, 1115)] *)
Definition rank_of (symbol : string) : Z :=
  match list_find (fun s => s = symbol) universe with Some (i, _) => Z.of_nat i | None => 1115 end.
Definition request_le (a b : Request) : bool :=
  match lex (rank_of (rq_symbol a) ?= rank_of (rq_symbol b))
        (lex (string_cmp (identifier_text (df_identifier (rq_definition a))) (identifier_text (df_identifier (rq_definition b))))
          (string_cmp (request_fingerprint a) (request_fingerprint b))) with
  | Gt => false | _ => true end.

(** Two requests of one symbol run on one dataset. *)
Definition dataset_step (datasets : gmap string string) (r : Request) : res (gmap string string) :=
  reject! match datasets !! rq_symbol r with
          | Some h => negb (bool_decide (h = rd_sha256 (rq_data r)))
          | None => false
          end as "CONFLICTING_SYMBOL_DATASETS";
  Ok (<[rq_symbol r := rd_sha256 (rq_data r)]> datasets).

Definition scope_of (policy : Policy) : string :=
  if rk_fixture_only (pp_base policy) then "SYNTHETIC_FIXTURE" else "AUTHORIZED_LOCAL_PAPER".
Definition portfolio_binding (requests : list Request) (policy : Policy) (control : Control) : res (gmap string json) :=
  registry_ ← registry_hash definition_json;
  Ok (list_to_map
    [("schema", JStr "Phase1418Portfolio.v3"); ("execution_policy_version", JStr EXECUTION_VERSION);
     ("execution_policy_hash", JStr execution_fingerprint); ("policy_fingerprint_version", JStr VERSION);
     ("ordering", JStr ORDERING); ("universe_hash", JStr universe_hash); ("registry_hash", JStr registry_);
     ("software", inventory); ("policy", model_dump_json_value policy); ("control", model_dump_json_value control);
     ("requests", JArr ((JStr ∘ request_fingerprint) <$> requests)); ("scope", JStr (scope_of policy));
     ("family_size", JInt 13380)])%string.

Definition run_gaps (requests : list Request) (policy : Policy) (control : Control) : res (list string) :=
  fingerprint ← policy_fingerprint policy;
  Ok (policy_gaps policy (rq_symbol <$> requests) ++
      reason_if (negb (bool_decide (ct_policy_hash control = fingerprint))) "RISK_POLICY_MISMATCH" ++
      reason_if (negb (ct_enabled control)) "PAPER_AUTHORIZATION_REQUIRED" ++
      reason_if (existsb (fun r => negb (bool_decide (rq_symbol r ∈ universe))) requests) "NONCANONICAL_SYMBOL").

(** The actions of one request, after those of the earlier ones. *)
Definition request_actions (policy : Policy) (control : Control) (st : gset (string * Z) * list Action)
    (x : Z * Request) : res (gset (string * Z) * list Action) :=
  let '(index, r) := x in
  out ← simulate definition_json uncertain software_hash universe_hash (rq_qualification r) (rq_data r)
          (rq_definition r) (rq_settings r) (rq_costs r) (pp_base policy) (rq_authorization r);
  let rank := rank_of (rq_symbol r) in
  let '(marks, actions) := st in
  let actions := actions ++ omap (event_action control rank r index) (ou_events out) in
  Ok (foldl (mark_step control rank r index) (marks, actions) (sr_bars (rd_series (rq_data r)))).

Definition session_ends (requests : list Request) : list Z :=
  remove_dups (r ← requests; ds_end <$> sr_sessions (rd_series (rq_data r))).

Definition actions_of (requests : list Request) (policy : Policy) (control : Control) (start : Z) : res (list Action) :=
  '(_, actions) ← foldR (request_actions policy control) (∅, []) (zip (seqZ 0 (Z.of_nat (length requests))) requests);
  let ends := session_ends requests in
  let actions := actions ++ (end_action <$> ends) in
  actions ← (match ct_delivery_end control with
             | None => Ok actions
             | Some delivery =>
                 latest ← max_of ends;
                 Ok (if delivery <? latest
                     then actions ++ [missing_action (Z.max start (Z.min (delivery + FIVE) latest))] else actions)
             end);
  reject! LIMIT <? Z.of_nat (length actions) as "PORTFOLIO_EVENT_BUDGET";
  let sorted := sort_by action_le actions in
  if tied sorted then Err TypeError else Ok sorted.

(** The budgets and the identity of the requests. *)
Definition admit_requests (requests : list Request) (policy : Policy) (control : Control) : res (list Request) :=
  require! bool_decide (pp_version policy = VERSION) && bool_decide (ct_version control = VERSION)
    else "PAPER_HALTED:UNSUPPORTED_POLICY_FINGERPRINT_VERSION";
  reject! is_nil requests || (6690 <? Z.of_nat (length requests)) ||
          (100000 <? foldr Z.add 0 ((fun r => Z.of_nat (length (sr_bars (rd_series (rq_data r))))) <$> requests))
    as "PORTFOLIO_INPUT_BUDGET";
  if negb ((Z.of_nat (length universe) =? 1115) && bool_decide (NoDup universe)) then Err AssertionError
  else
    let requests := sort_by request_le requests in
    _ ← foldR dataset_step ∅ requests;
    Ok requests.

(** The coordinator once every action has been performed, before publication. *)
Definition portfolio_run (requests : list Request) (policy : Policy) (control : Control) : res Coordinator :=
  requests ← admit_requests requests policy control;
  binding ← portfolio_binding requests policy control;
  reject! 256 * 1024 * 1024 <? Z.of_nat (length (dict_text binding)) as "PORTFOLIO_INPUT_BUDGET";
  let c := coordinator_init binding policy in
  start ← min_of ((sr_from ∘ rd_series ∘ rq_data) <$> requests);
  gaps ← run_gaps requests policy control;
  let '(c, outcome) :=
    if negb (is_nil gaps) || ct_paper_halt control
    then halt start (if is_nil gaps then "EXPLICIT_PAPER_HALT" else String.concat ";" gaps) c
    else match actions_of requests policy control start with
         | Ok actions => each (perform requests control) actions c
         | Err e => (c, Err e)
         end in
  _ ← outcome; Ok c.
End run.

(** ** Reports *)

(** [table[key] = str(D(table.get(key, "0")) + D(net))] *)
Definition add_to (table : list (string * dec)) (key : string) (net : dec) : res (list (string * dec)) :=
  total ← padd (default d0 (find table key)) net; Ok (store table key total).
Definition pnl_step (st : list (string * dec) * list (string * dec) * list (string * dec)) (o : Order)
    : res (list (string * dec) * list (string * dec) * list (string * dec)) :=
  let '(daily, strategies, symbols) := st in
  match or_state o, or_exit o with
  | CLOSED, Some x =>
      daily ← add_to daily (date_text (nse_date (xt_at x))) (xt_net x);
      strategies ← add_to strategies (identifier_text (or_strategy_id o)) (xt_net x);
      symbols ← add_to symbols (or_symbol o) (xt_net x);
      Ok (daily, strategies, symbols)
  | CLOSED, None => Err KeyError
  | _, _ => Ok st
  end.

Definition event_json (e : PortfolioEvent) : json :=
  JObj (event_fields e ++ [("current_hash"%string, JStr (pv_current_hash e))]).
Definition events_in (states : list OrderState) (c : Coordinator) : json :=
  JArr (event_json <$> List.filter (fun e => bool_decide (pv_state e ∈ states)) (co_events c)).
Definition table_json (t : list (string * dec)) : json := JObj ((fun x => (x.1, jdec x.2)) <$> t).
Definition ledger_json (e : PortfolioEvent) : json :=
  JObj [("sequence", JInt (pv_sequence e)); ("timestamp", JStr (iso (pv_at e))); ("cash_delta", jdec (pv_cash_delta e));
        ("reservation_delta", jdec (pv_reservation_delta e)); ("account", JObj (account_fields (pv_account e)))]%string.
Definition equity_json (e : PortfolioEvent) : json :=
  JObj [("timestamp", JStr (iso (pv_at e))); ("equity", jdec (pa_equity (pv_account e)))]%string.
Definition exposure_json (e : PortfolioEvent) : json :=
  JObj [("timestamp", JStr (iso (pv_at e)));
        ("positions", JObj ((fun x => (x.1, JObj (order_fields x.2))) <$> pa_positions (pv_account e)));
        ("marked_value", jdec (pa_marked_value (pv_account e))); ("reserved", jdec (pa_reserved (pv_account e)))]%string.

Definition reports (c : Coordinator) : res (list (string * json)) :=
  '(daily, strategies, symbols) ← foldR pnl_step ([], [], []) (co_orders c).*2;
  a ← account c;
  Ok [("signal-decisions.json", events_in [PROPOSED; REJECTED; RISK_CHECKED] c);
      ("orders.json", JArr ((JObj ∘ order_fields) <$> (co_orders c).*2));
      ("positions.json", JObj ((fun x => (x.1, JObj (order_fields x.2))) <$> pa_positions a));
      ("cash-ledger.json", JArr (ledger_json <$> co_events c)); ("equity-curve.json", JArr (equity_json <$> co_events c));
      ("daily-pnl.json", table_json daily); ("strategy-pnl.json", table_json strategies);
      ("symbol-pnl.json", table_json symbols); ("exposure.json", JArr (exposure_json <$> co_events c));
      ("risk-rejections.json", events_in [REJECTED; CANCELLED] c); ("paper-halt.json", events_in [PAPER_HALTED] c);
      ("eod-reconciliation.json", events_in [SESSION_END] c)]%string.

(** [simulation_complete] of the summary. *)
Definition simulation_complete (c : Coordinator) : bool :=
  negb (co_halted c) && is_nil (co_positions c) && is_nil (co_reservations c).
