(* ===== verification/PortfolioFacts.v ===== *)
(** * Invariants of the coordinator

    What every successful event keeps: orders, positions and reservations agree, the
    journal is a hash chain, and every order follows the transition table. *)
From S2P Require Import Prelude Decimal DecimalFacts Text Dataset Costs Phase14 Strategies Execution Json JsonFacts CanonicalPolicy Research Exec Qualification Chain PyText Paper PaperFacts.
From S2P Require Import Portfolio.
Open Scope list_scope.
Open Scope Z_scope.

(** ** Events as a journal *)

Lemma event_dict_prev e : event_dict e !! "previous_hash"%string = Some (JStr (pv_previous_hash e)).
Proof.
  unfold event_dict, event_fields. cbn [list_to_map foldr fst snd]. repeat (rewrite lookup_insert_ne by done).
  apply lookup_insert_eq.
Qed.
Lemma event_text_prev e e' : event_text e = event_text e' -> pv_previous_hash e = pv_previous_hash e'.
Proof.
  intros E%dict_text_inj. apply (f_equal (fun m => m !! "previous_hash"%string)) in E.
  rewrite !lookup_fmap, !event_dict_prev in E. cbn in E. by injection E.
Qed.
#[export] Instance portfolio_journal : Journal PortfolioEvent := {|
  row_text := event_text; previous_hash := pv_previous_hash; current_hash := pv_current_hash;
  row_text_links := event_text_prev
|}.

(** ** The effect of an event on the books *)

Inductive effect (key : string) (c c1 : Coordinator) : OrderState -> Prop :=
| eff_portfolio state : portfolio_event state = true -> co_orders c1 = co_orders c ->
    co_positions c1 = co_positions c -> co_reservations c1 = co_reservations c ->
    (forall s, is_Some (find (co_marks c) s) -> is_Some (find (co_marks c1) s)) -> effect key c c1 state
| eff_proposed o : find (co_orders c) key = None -> or_state o = PROPOSED ->
    co_orders c1 = store (co_orders c) key o -> co_positions c1 = co_positions c ->
    co_reservations c1 = co_reservations c -> co_marks c1 = co_marks c -> effect key c c1 PROPOSED
| eff_moved o state : find (co_orders c) key = Some o -> state ∈ TRANSITIONS (Some (or_state o)) ->
    state ∈ [RISK_CHECKED; ACCEPTED; EXIT_PENDING; REJECTED] ->
    co_orders c1 = store (co_orders c) key (set_state state o) -> co_positions c1 = co_positions c ->
    co_reservations c1 = co_reservations c -> co_marks c1 = co_marks c -> effect key c c1 state
| eff_reserved o amount : find (co_orders c) key = Some o -> or_state o = RISK_CHECKED ->
    find (co_reservations c) key = None ->
    co_orders c1 = store (co_orders c) key (set_state RESERVED o) -> co_positions c1 = co_positions c ->
    co_reservations c1 = store (co_reservations c) key amount -> co_marks c1 = co_marks c -> effect key c c1 RESERVED
| eff_cancelled o : find (co_orders c) key = Some o -> CANCELLED ∈ TRANSITIONS (Some (or_state o)) ->
    co_orders c1 = store (co_orders c) key (set_state CANCELLED o) -> co_positions c1 = co_positions c ->
    co_reservations c1 = discard (co_reservations c) key -> co_marks c1 = co_marks c -> effect key c c1 CANCELLED
| eff_filled o o1 price : find (co_orders c) key = Some o -> or_state o = ACCEPTED ->
    find (co_positions c) (or_symbol o) = None -> or_symbol o1 = or_symbol o -> or_state o1 = FILLED ->
    co_orders c1 = store (co_orders c) key o1 -> co_positions c1 = store (co_positions c) (or_symbol o) key ->
    co_reservations c1 = discard (co_reservations c) key ->
    co_marks c1 = store (co_marks c) (or_symbol o) price -> effect key c c1 FILLED
| eff_closed o o1 : find (co_orders c) key = Some o -> or_state o = EXIT_PENDING ->
    find (co_positions c) (or_symbol o) = Some key -> or_symbol o1 = or_symbol o -> or_state o1 = CLOSED ->
    co_orders c1 = store (co_orders c) key o1 -> co_positions c1 = discard (co_positions c) (or_symbol o) ->
    co_reservations c1 = co_reservations c -> co_marks c1 = co_marks c -> effect key c c1 CLOSED.

(** The attributes that no event changes before it is recorded. *)
Record kept (c c1 : Coordinator) : Prop := {
  kp_binding : co_binding c1 = co_binding c; kp_run : co_run_id c1 = co_run_id c; kp_policy : co_policy c1 = co_policy c;
  kp_opening : co_opening c1 = co_opening c; kp_consumed : co_consumed c1 = co_consumed c;
  kp_events : co_events c1 = co_events c; kp_day : co_day c1 = co_day c; kp_equity : co_day_equity c1 = co_day_equity c;
  kp_crash : co_crash c1 = co_crash c; kp_watch : co_watch c1 = co_watch c
}.

Section effects.
Context `{Dump Row} `{DumpPython Policy}.

Lemma has_false {V} (d : list (string * V)) k : has d k = false -> find d k = None.
Proof. unfold has. by destruct (find d k). Qed.

Lemma transition_from state s : state ∈ TRANSITIONS (Some s) ->
  (state = RESERVED -> s = RISK_CHECKED) /\ (state = FILLED -> s = ACCEPTED) /\ (state = CLOSED -> s = EXIT_PENDING) /\
  state <> PROPOSED.
Proof.
  intros Hin. destruct s; cbn in Hin;
    repeat first [apply elem_of_cons in Hin as [->|Hin] | apply elem_of_nil in Hin as []]; naive_solver.
Qed.

Lemma move_order_effect key state at_ r v c c' : move_order key state at_ r v c = (c', Ok tt) ->
  (find (co_orders c) key = None /\ state = PROPOSED /\
   exists o, or_state o = PROPOSED /\ c' = with_orders (store (co_orders c) key o) c) \/
  (exists o, find (co_orders c) key = Some o /\ state ∈ TRANSITIONS (Some (or_state o)) /\
             c' = with_orders (store (co_orders c) key (set_state state o)) c).
Proof.
  unfold move_order. intros E. run_step E. run_step E. bool_inv. destruct (find (co_orders c) key) as [o|] eqn:Ef.
  - right. exists o. unfold store_order in E. apply run_modify in E. subst. done.
  - left. cbn in G. apply list_elem_of_singleton in G. run_step E. run_step E. unfold store_order in E.
    apply run_modify in E. subst. split; [done|]. split; [done|].
    eexists. split; [|reflexivity]. done.
Qed.

Lemma apply_event_effect key state at_ v o c c' : find (co_orders c) key = Some o -> or_state o = state ->
  portfolio_event state = false -> apply_event key state at_ v c = (c', Ok tt) ->
  kept c c' /\ co_halted c' = co_halted c /\
  match state with
  | RESERVED => exists amount, find (co_reservations c) key = None /\ co_orders c' = co_orders c /\
      co_positions c' = co_positions c /\ co_reservations c' = store (co_reservations c) key amount /\ co_marks c' = co_marks c
  | FILLED => exists o1 price, find (co_positions c) (or_symbol o) = None /\ or_symbol o1 = or_symbol o /\
      or_state o1 = FILLED /\ co_orders c' = store (co_orders c) key o1 /\
      co_positions c' = store (co_positions c) (or_symbol o) key /\
      co_reservations c' = discard (co_reservations c) key /\ co_marks c' = store (co_marks c) (or_symbol o) price
  | CLOSED => exists o1, find (co_positions c) (or_symbol o) = Some key /\ or_symbol o1 = or_symbol o /\
      or_state o1 = CLOSED /\ co_orders c' = store (co_orders c) key o1 /\
      co_positions c' = discard (co_positions c) (or_symbol o) /\
      co_reservations c' = co_reservations c /\ co_marks c' = co_marks c
  | CANCELLED => co_orders c' = co_orders c /\ co_positions c' = co_positions c /\
      co_reservations c' = discard (co_reservations c) key /\ co_marks c' = co_marks c
  | _ => c' = c
  end.
Proof.
  intros Hf Hs Hp E. destruct state; try discriminate Hp; cbn [apply_event] in E;
    try (apply run_ret in E as [-> _]; split; [by split|done]).
  - unfold reserve in E. run_inv E. apply has_false in G. split; [by split|]. split; [done|]. by eexists.
  - unfold fill, store_order in E. run_step E. run_step E. rewrite Hf in G. apply of_option_Ok in G. injection G as <-.
    run_inv E. apply has_false in G. split; [by split|]. split; [done|]. eexists _, _. cbn.
    split; [exact G|]. split; [|split; [|done]]; done.
  - unfold close, store_order in E. run_step E. run_step E. rewrite Hf in G. apply of_option_Ok in G. injection G as <-.
    run_inv E. bool_inv. split; [by split|]. split; [done|]. eexists. cbn. split; [exact G|]. split; [|split; [|done]]; done.
Qed.

(** What a recorded event says. *)
Record recorded (c c1 : Coordinator) (key : string) (state : OrderState) (at_ : Z) (v : Details)
    (e : PortfolioEvent) : Prop := {
  re_sequence : pv_sequence e = Z.of_nat (length (co_events c));
  re_at : pv_at e = at_;
  re_order_id : pv_order_id e = key;
  re_state : pv_state e = state;
  re_previous : pv_previous e = or_state <$> find (co_orders c) key;
  re_order : pv_order e = find (co_orders c1) key;
  re_details : pv_details e = v;
  re_account : account c1 = Ok (pv_account e);
  re_before : exists before, account c = Ok before /\
    psub (pa_cash (pv_account e)) (pa_cash before) = Ok (pv_cash_delta e);
  re_link : pv_previous_hash e = tip (co_events c);
  re_hash : pv_current_hash e = sha (row_text e)
}.

Lemma record_event_inv key state at_ v previous before c c' :
  record_event key state at_ v previous before c = (c', Ok tt) ->
  exists e, c' = with_events (co_events c ++ [e]) c /\ pv_sequence e = Z.of_nat (length (co_events c)) /\
    pv_at e = at_ /\ pv_order_id e = key /\ pv_state e = state /\ pv_previous e = previous /\
    pv_order e = find (co_orders c) key /\ pv_details e = v /\ account c = Ok (pv_account e) /\
    psub (pa_cash (pv_account e)) (pa_cash before) = Ok (pv_cash_delta e) /\
    pv_previous_hash e = tip (co_events c) /\ pv_current_hash e = sha (row_text e).
Proof.
  unfold record_event. intros E. do 6 run_step E. cbn zeta in E. apply run_modify in E.
  match type of E with _ = with_events (_ ++ [?x]) _ => exists x end. split; [exact E|].
  cbn [pv_sequence pv_at pv_order_id pv_state pv_previous pv_order pv_details
    pv_account pv_cash_delta pv_previous_hash pv_current_hash].
  do 7 (split; [reflexivity|]). split; [assumption|]. split; [assumption|]. split; reflexivity.
Qed.

Lemma mutation_effect key state at_ r v c c1 c2 :
  when (negb (portfolio_event state)) (move_order key state at_ r v) c = (c1, Ok tt) ->
  apply_event key state at_ v c1 = (c2, Ok tt) ->
  kept c c2 /\ effect key c c2 state /\
  co_halted c2 = (match state with PAPER_HALTED => true | _ => co_halted c end) /\
  state ∈ (if portfolio_event state then [state] else TRANSITIONS (or_state <$> find (co_orders c) key)).
Proof.
  intros Em Ea. unfold when in Em. destruct (portfolio_event state) eqn:Hp; cbn [negb] in Em.
  - apply run_ret in Em as [-> _]. destruct state; try discriminate Hp; cbn [apply_event] in Ea.
    + run_inv Ea. split; [by split|]. split; [|split; [done|by left]]. apply eff_portfolio; [done..|].
      cbn. intros s Hs. rewrite find_store. destruct (decide _); [by eexists|done].
    + apply run_ret in Ea as [-> _]. split; [by split|]. split; [|split; [done|by left]]. by apply eff_portfolio.
    + run_inv Ea. split; [by split|]. split; [|split; [done|by left]]. by apply eff_portfolio.
  - apply move_order_effect in Em as [(Hn & -> & o & Ho & ->)|(o & Hf & Htr & ->)].
    + cbn [apply_event] in Ea. apply run_ret in Ea as [-> _]. split; [by split|]. rewrite Hn.
      split; [by eapply (eff_proposed _ _ _ o)|]. split; [done|]. by left.
    + apply (apply_event_effect key state at_ v (set_state state o)) in Ea as (Hk & Hh & Hm);
        [|cbn; by rewrite find_store_eq|done|done].
      assert (Hk' : kept c c2) by (destruct Hk; by split).
      split; [done|]. rewrite Hf. split; [|split; [rewrite Hh; by destruct state|exact Htr]].
      pose proof (transition_from _ _ Htr) as (T1 & T2 & T3 & T4).
      destruct state; try discriminate Hp; try done; try (subst c2; eapply (eff_moved _ _ _ o); [done|exact Htr| | | |..]; [set_solver|done..]).
      * destruct Hm as (amount & M1 & M2 & M3 & M4 & M5). eapply (eff_reserved _ _ _ o amount); cbn in *; try done. by apply T1.
      * destruct Hm as (o1 & price & M1 & M2 & M3 & M4 & M5 & M6 & M7). cbn in *. rewrite store_store in M4.
        eapply (eff_filled _ _ _ o o1 price); try done. by apply T2.
      * destruct Hm as (o1 & M1 & M2 & M3 & M4 & M5 & M6 & M7). cbn in *. rewrite store_store in M4.
        eapply (eff_closed _ _ _ o o1); try done. by apply T3.
      * destruct Hm as (M1 & M2 & M3 & M4). by eapply (eff_cancelled _ _ _ o).
Qed.

Lemma super_emit_run key state at_ r v c c' : portfolio_emit key state at_ r v c = (c', Ok tt) ->
  super_emit key state at_ r v c = (c', Ok tt).
Proof. unfold portfolio_emit. intros E. apply run_bind in E as ([] & c1 & E1 & E). run_inv E. exact E1. Qed.

(** Only a fill and a close are guarded. *)
Definition watched (state : OrderState) : bool := match state with FILLED | CLOSED => true | _ => false end.
Lemma emit_plain key state at_ r v c c' : watched state = false -> emit key state at_ r v c = (c', Ok tt) ->
  portfolio_emit key state at_ r v c = (c', Ok tt).
Proof.
  intros Hw E. unfold emit in E. run_step E. destruct x. run_step E.
  assert (guarded_state s state = false) as Hg by (unfold guarded_state; destruct (co_watch s), state; done).
  rewrite Hg in E. apply run_ret in E as [-> _]. assumption.
Qed.

Lemma coordinator_emit_inv key state at_ r v c c' : portfolio_emit key state at_ r v c = (c', Ok tt) ->
  exists c1 e, c' = with_events (co_events c ++ [e]) c1 /\ kept c c1 /\ effect key c c1 state /\
    co_halted c1 = (match state with PAPER_HALTED => true | _ => co_halted c end) /\
    recorded c c1 key state at_ v e /\ Z.of_nat (length (co_events c)) < LIMIT /\
    match last (co_events c) with Some e => pv_at e <= at_ | None => True end /\
    state ∈ (if portfolio_event state then [state] else TRANSITIONS (or_state <$> find (co_orders c) key)).
Proof.
  intros E. apply super_emit_run in E. revert E. unfold super_emit. intros E. run_step E. run_step E. rename G into Hguard. run_step E. rename x0 into before. rename G into Hbefore.
  unfold event_guard in Hguard. apply bind_Ok in Hguard as (u1 & G1%raise_if_Ok & Hguard).
  apply bind_Ok in Hguard as (u2 & G2%raise_if_Ok & _). bool_inv.
  assert (Hlast : match last (co_events c) with Some e => pv_at e <= at_ | None => True end).
  { destruct (last (co_events c)); [bool_inv; lia|done]. }
  apply run_bind in E as ([] & s2 & Em & E). apply run_bind in E as ([] & s3 & Ea & E).
  pose proof (mutation_effect _ _ _ _ _ _ _ _ Em Ea) as (Hk & He & Hh & Hin). clear Em Ea.
  apply record_event_inv in E as (e & -> & R1 & R2 & R3 & R4 & R5 & R6 & R7 & R8 & R9 & R10 & R11).
  exists s3, e. pose proof (kp_events _ _ Hk) as Hev. rewrite Hev in R1, R10 |- *.
  split; [reflexivity|]. split; [exact Hk|]. split; [exact He|]. split; [exact Hh|].
  split; [|split; [lia|split; [exact Hlast|exact Hin]]].
  exact (Build_recorded _ _ _ _ _ _ _ R1 R2 R3 R4 R5 R6 R7 R8 (ex_intro _ before (conj Hbefore R9)) R10 R11).
Qed.
End effects.
