(* ===== verification/PortfolioInvariant.v ===== *)
(** * Reachable coordinators

    The step relation of the coordinator: the events that its methods emit, with the
    conditions under which an order is reserved, accepted or filled.  The invariants are
    proved by induction on the steps; [PortfolioSteps] shows that a run is a sequence of
    steps. *)
From S2P Require Import Prelude Decimal DecimalFacts Text Dataset Costs Phase14 Strategies Execution Json JsonFacts CanonicalPolicy Research Exec Qualification Chain PyText Paper PaperFacts.
From S2P Require Import Portfolio PortfolioFacts.
Open Scope list_scope.
Open Scope Z_scope.

(** ** Positions and reservations agree with the orders *)

Definition holding (s : OrderState) : bool := match s with FILLED | EXIT_PENDING => true | _ => false end.
Definition reserving (s : OrderState) : bool := match s with RESERVED | ACCEPTED => true | _ => false end.

Definition holds (orders : list (string * Order)) (s k : string) : Prop :=
  exists o, find orders k = Some o /\ or_symbol o = s /\ holding (or_state o) = true.
Definition reserves (orders : list (string * Order)) (k : string) : Prop :=
  exists o, find orders k = Some o /\ reserving (or_state o) = true.

Lemma holds_store orders key o s k :
  holds (store orders key o) s k <-> (key = k /\ or_symbol o = s /\ holding (or_state o) = true) \/ (key <> k /\ holds orders s k).
Proof. unfold holds. rewrite find_store. destruct (decide (key = k)); naive_solver. Qed.
Lemma reserves_store orders key o k :
  reserves (store orders key o) k <-> (key = k /\ reserving (or_state o) = true) \/ (key <> k /\ reserves orders k).
Proof. unfold reserves. rewrite find_store. destruct (decide (key = k)); naive_solver. Qed.

(** One order owns a symbol exactly while it is filled; money is reserved for an order
    exactly while it is reserved or accepted; what is held has a mark. *)
Record books_ok (c : Coordinator) : Prop := {
  bo_orders : NoDup (co_orders c).*1;
  bo_positions : NoDup (co_positions c).*1;
  bo_reservations : NoDup (co_reservations c).*1;
  bo_owner : forall s k, find (co_positions c) s = Some k <-> holds (co_orders c) s k;
  bo_reserved : forall k, is_Some (find (co_reservations c) k) <-> reserves (co_orders c) k;
  bo_marks : forall s, is_Some (find (co_positions c) s) -> is_Some (find (co_marks c) s)
}.

Definition open_count (c : Coordinator) : nat := length (co_positions c) + length (co_reservations c).

Lemma books_init binding policy : books_ok (coordinator_init binding policy).
Proof.
  split; cbn; try apply NoDup_nil_2.
  - intros s k. unfold holds. naive_solver.
  - intros k. unfold reserves. split; [by intros []|naive_solver].
  - by intros s [].
Qed.

(** Moves of an order that keep what it holds and reserves. *)
Lemma same_holder orders key o o1 s k : find orders key = Some o -> or_symbol o1 = or_symbol o ->
  holding (or_state o1) = holding (or_state o) -> holds (store orders key o1) s k <-> holds orders s k.
Proof.
  intros Hf Hs Hh. rewrite holds_store. unfold holds. destruct (decide (key = k)) as [->|]; naive_solver congruence.
Qed.
Lemma same_reserver orders key o o1 k : find orders key = Some o ->
  reserving (or_state o1) = reserving (or_state o) -> reserves (store orders key o1) k <-> reserves orders k.
Proof. intros Hf Hh. rewrite reserves_store. unfold reserves. destruct (decide (key = k)) as [->|]; naive_solver congruence. Qed.

Lemma move_keeps s t : t ∈ TRANSITIONS (Some s) ->
  (t ∉ [FILLED; CLOSED] -> holding t = holding s) /\ (t ∉ [RESERVED; FILLED; CANCELLED] -> reserving t = reserving s).
Proof.
  intros Hin. destruct s; cbn in Hin;
    repeat first [apply elem_of_cons in Hin as [->|Hin] | apply elem_of_nil in Hin as []];
    split; intros Hn; try reflexivity; exfalso; apply Hn; set_solver.
Qed.

Lemma books_effect key c c1 state : books_ok c -> effect key c c1 state -> books_ok c1.
Proof.
  intros [Ho Hp Hr Hown Hres Hm] E.
  destruct E as [state _ E1 E2 E3 E4|o Hf Hs E1 E2 E3 E4|o state Hf Htr Hin E1 E2 E3 E4|o amount Hf Hs Hn E1 E2 E3 E4
    |o Hf Htr E1 E2 E3 E4|o o1 price Hf Hs Hn Hsy Hst E1 E2 E3 E4|o o1 Hf Hs Hp1 Hsy Hst E1 E2 E3 E4];
    split; rewrite ?E1, ?E2, ?E3, ?E4; auto using store_NoDup, discard_NoDup.
  (* a new order *)
  - intros s k. rewrite Hown, holds_store, Hs. unfold holds. destruct (decide (key = k)); naive_solver.
  - intros k. rewrite Hres, reserves_store, Hs. unfold reserves. destruct (decide (key = k)); naive_solver.
  (* a move *)
  - intros s k. rewrite Hown. symmetry. apply (same_holder _ _ o); [done..|]. apply move_keeps; [exact Htr|set_solver].
  - intros k. rewrite Hres. symmetry. apply (same_reserver _ _ o); [done..|]. apply move_keeps; [exact Htr|set_solver].
  (* a reservation *)
  - intros s k. rewrite Hown. symmetry. apply (same_holder _ _ o); [done..|]. cbn. by rewrite Hs.
  - intros k. rewrite find_store, reserves_store. destruct (decide (key = k)); naive_solver.
  (* a cancellation *)
  - intros s k. rewrite Hown. symmetry. apply (same_holder _ _ o); [done..|]. apply move_keeps; [exact Htr|set_solver].
  - intros k. rewrite find_discard, reserves_store by done. destruct (decide (key = k)); [|naive_solver].
    split; [by intros []|naive_solver].
  (* a fill *)
  - intros s k. rewrite find_store, holds_store, Hst, Hsy. destruct (decide (or_symbol o = s)) as [<-|Hne].
    + split; [intros [= ->]; by left|]. intros [(-> & _)|(Hne & Hh)]; [done|]. apply Hown in Hh. congruence.
    + rewrite Hown. unfold holds. destruct (decide (key = k)); naive_solver.
  - intros k. rewrite find_discard, reserves_store, Hst by done. destruct (decide (key = k)); [|naive_solver].
    split; [by intros []|naive_solver].
  - intros s. rewrite !find_store. destruct (decide (or_symbol o = s)); [by eexists|]. apply Hm.
  (* a close *)
  - intros s k. rewrite find_discard, holds_store, Hst by done. destruct (decide (or_symbol o = s)) as [<-|Hne].
    + split; [done|]. intros [(_ & _ & [=])|(Hne & Hh)]. apply Hown in Hh. congruence.
    + rewrite Hown. unfold holds. destruct (decide (key = k)); naive_solver.
  - intros k. rewrite Hres. symmetry. apply (same_reserver _ _ o); [done|]. by rewrite Hst, Hs.
  - intros s. rewrite find_discard by done. destruct (decide (or_symbol o = s)); [by intros []|apply Hm].
Qed.

(** What is held grows by reservations only. *)
Lemma open_count_effect key c c1 state : books_ok c -> effect key c c1 state ->
  (open_count c1 <= open_count c + (if decide (state = RESERVED) then 1 else 0))%nat.
Proof.
  intros Hb E. unfold open_count.
  destruct E as [state Hp E1 E2 E3 E4|o Hf Hs E1 E2 E3 E4|o state Hf Htr Hin E1 E2 E3 E4|o amount Hf Hs Hn E1 E2 E3 E4
    |o Hf Htr E1 E2 E3 E4|o o1 price Hf Hs Hn Hsy Hst E1 E2 E3 E4|o o1 Hf Hs Hp1 Hsy Hst E1 E2 E3 E4];
    rewrite E2, E3, ?length_store, ?length_discard.
  - destruct (decide _); lia.
  - destruct (decide _); lia.
  - destruct (decide _); lia.
  - destruct (has _ _); destruct (decide _); [lia|done|lia|done].
  - destruct (has _ _); destruct (decide _); lia.
  - assert (has (co_reservations c) key = true) as ->.
    { apply has_find, (bo_reserved _ Hb). exists o. by rewrite Hs. }
    assert (has (co_positions c) (or_symbol o) = false) as -> by (unfold has; by rewrite Hn).
    assert (co_reservations c <> []).
    { intros E. assert (is_Some (find (co_reservations c) key)) as [x Hx]; [|by rewrite E in Hx].
      apply (bo_reserved _ Hb). exists o. by rewrite Hs. }
    destruct (co_reservations c); [done|]. cbn. destruct (decide _); lia.
  - destruct (has _ _); destruct (decide _); lia.
Qed.

(** ** The journal *)

(** The states of an order in the journal, in order. *)
Definition order_event (key : string) (e : PortfolioEvent) : bool :=
  (pv_order_id e =? key)%string && negb (portfolio_event (pv_state e)).
Definition history (key : string) (l : list PortfolioEvent) : list OrderState :=
  pv_state <$> List.filter (order_event key) l.
Definition halts (l : list PortfolioEvent) : bool := existsb (fun e => bool_decide (pv_state e = PAPER_HALTED)) l.
(** The events that take on risk. *)
Definition entering (s : OrderState) : bool := match s with RESERVED | ACCEPTED | FILLED => true | _ => false end.
Definition position_limit (p : Policy) : Z :=
  Z.min (default 0 (rk_simultaneous_positions (pp_base p))) (default 0 (pp_correlation_positions p)).

(** The identities of a recorded account. *)
Record balanced (opening : dec) (a : PaperAccount) : Prop := {
  bl_reserved : (0 <= dval (pa_reserved a))%Q;
  bl_cash : (dval (pa_reserved a) <= dval (pa_cash a))%Q;
  bl_available : psub (pa_cash a) (pa_reserved a) = Ok (pa_available a);
  bl_equity : padd (pa_cash a) (pa_marked_value a) = Ok (pa_equity a);
  bl_explained : exists x y, padd opening (pa_realized a) = Ok x /\ padd x (pa_unrealized a) = Ok y /\
                             (dval (pa_equity a) == dval y)%Q
}.

(** The cash that each event records follows from that of the event before. *)
Definition ledger (l : list PortfolioEvent) : Prop :=
  forall l1 e e' l2, l = l1 ++ e :: e' :: l2 ->
    psub (pa_cash (pv_account e')) (pa_cash (pv_account e)) = Ok (pv_cash_delta e').
(** Nothing is entered after a halt. *)
Definition no_entry_after_halt (l : list PortfolioEvent) : Prop :=
  forall l1 e l2, l = l1 ++ e :: l2 -> entering (pv_state e) = true -> halts l1 = false.

Record journal_ok (c : Coordinator) : Prop := {
  jo_chain : chained (co_events c);
  jo_time : StronglySorted (fun e e' => pv_at e <= pv_at e') (co_events c);
  jo_sequence : forall i e, co_events c !! i = Some e -> pv_sequence e = Z.of_nat i;
  jo_path : forall key, path TRANSITIONS None (history key (co_events c)) (or_state <$> find (co_orders c) key);
  jo_bound : Z.of_nat (length (co_events c)) <= LIMIT;
  jo_halted : co_halted c = halts (co_events c);
  jo_entries : no_entry_after_halt (co_events c);
  jo_current : match last (co_events c) with Some e => account c = Ok (pv_account e) | None => True end;
  jo_balanced : Forall (fun e => balanced (co_opening c) (pv_account e)) (co_events c);
  jo_ledger : ledger (co_events c)
}.

Lemma journal_init binding policy : journal_ok (coordinator_init binding policy).
Proof.
  split; cbn; try constructor; try done.
  - intros l1 e l2 E. by destruct l1.
  - intros l1 e e' l2 E. by destruct l1.
Qed.

Lemma account_balanced c a : account c = Ok a -> balanced (co_opening c) a.
Proof.
  unfold account. intros E. unbind E held Er. unbind E cost Eb. unbind E mv Em. unbind E latent Eu.
  unbind E u1 E1. apply raise_unless_Ok in E1. unbind E worth Ee. unbind E x Ex. unbind E y Ey.
  unbind E u2 E2. apply raise_unless_Ok in E2. unbind E free Ea. unbind E open Ep. apply Ok_inj in E. subst a.
  apply andb_true in E1 as [H1 H2]. apply dleb_spec in H1, H2. apply deqb_spec in E2. split; cbn; eauto.
Qed.

(** ** Steps *)

(** When an event that takes on risk is emitted. *)
Definition admissible (state : OrderState) (c : Coordinator) : Prop :=
  match state with
  | RESERVED => co_halted c = false /\ Z.of_nat (open_count c) < position_limit (co_policy c)
  | ACCEPTED | FILLED => co_halted c = false
  | _ => True
  end.

Section steps.
Context `{Dump Row} `{DumpPython Policy}.

Inductive stepped : Coordinator -> Coordinator -> Prop :=
| stepped_event key state at_ r v c c' : admissible state c -> portfolio_emit key state at_ r v c = (c', Ok tt) -> stepped c c'
| stepped_day day equity c : stepped c (with_day day equity c)
| stepped_watch w c : stepped c (with_watch w c)
| stepped_consumed signals c : stepped c (with_consumed signals c).
Definition reachable (binding : gmap string json) (policy : Policy) (c : Coordinator) : Prop :=
  rtc stepped (coordinator_init binding policy) c.

Lemma history_snoc key l e : history key (l ++ [e]) = history key l ++ (if order_event key e then [pv_state e] else []).
Proof. unfold history. rewrite List.filter_app, fmap_app. cbn. by destruct (order_event key e). Qed.
Lemma halts_snoc l e : halts (l ++ [e]) = halts l || bool_decide (pv_state e = PAPER_HALTED).
Proof. unfold halts. rewrite existsb_app. cbn. by rewrite orb_false_r. Qed.

Lemma no_entry_snoc l e : no_entry_after_halt l -> (entering (pv_state e) = true -> halts l = false) ->
  no_entry_after_halt (l ++ [e]).
Proof.
  intros Hl He l1 x l2 E Hx. destruct l2 as [|y l2 _] using rev_ind.
  - apply app_inj_tail in E as [-> ->]. by apply He.
  - rewrite app_comm_cons, app_assoc in E. apply app_inj_tail in E as [-> _]. by eapply Hl.
Qed.
Lemma ledger_snoc l e : ledger l ->
  match last l with Some x => psub (pa_cash (pv_account e)) (pa_cash (pv_account x)) = Ok (pv_cash_delta e) | None => True end ->
  ledger (l ++ [e]).
Proof.
  intros Hl He l1 x y l2 E. destruct l2 as [|z l2 _] using rev_ind.
  - change (l1 ++ [x; y]) with (l1 ++ [x] ++ [y]) in E. rewrite app_assoc in E. apply app_inj_tail in E as [-> ->].
    by rewrite last_snoc in He.
  - rewrite !app_comm_cons, app_assoc in E. apply app_inj_tail in E as [-> _]. by eapply Hl.
Qed.

Lemma account_events c l : account (with_events l c) = account c.
Proof. done. Qed.

(** The state of an order after an event, and the event itself in the history. *)
Lemma effect_state key c c1 state k : effect key c c1 state ->
  or_state <$> find (co_orders c1) k =
    (if negb (portfolio_event state) && bool_decide (key = k) then Some state else or_state <$> find (co_orders c) k).
Proof.
  destruct 1 as [state Hp E1|o Hf Hs E1|o state Hf Htr Hin E1|o amount Hf Hs Hn E1|o Hf Htr E1
    |o o1 price Hf Hs Hn Hsy Hst E1|o o1 Hf Hs Hp1 Hsy Hst E1]; rewrite E1, ?find_store.
  - by rewrite Hp.
  - cbn. case_bool_decide; [rewrite decide_True by done; cbn; by rewrite Hs|by rewrite decide_False].
  - replace (portfolio_event state) with false by (repeat (apply elem_of_cons in Hin as [->|Hin]; [done|]); set_solver).
    cbn. case_bool_decide; [by rewrite decide_True|by rewrite decide_False].
  - cbn. case_bool_decide; [by rewrite decide_True|by rewrite decide_False].
  - cbn. case_bool_decide; [by rewrite decide_True|by rewrite decide_False].
  - cbn. case_bool_decide; [rewrite decide_True by done; cbn; by rewrite Hst|by rewrite decide_False].
  - cbn. case_bool_decide; [rewrite decide_True by done; cbn; by rewrite Hst|by rewrite decide_False].
Qed.

Lemma journal_emit key state at_ r v c c' : journal_ok c -> admissible state c ->
  portfolio_emit key state at_ r v c = (c', Ok tt) -> journal_ok c'.
Proof.
  intros [Jc Jt Js Jp Jb Jh Je Ja Jbal Jl] Hadm E.
  apply coordinator_emit_inv in E as (c1 & e & -> & Hk & Heff & Hhalt & [R1 R2 R3 R4 R5 R6 R7 R8 R9 R10 R11] & Hlen & Hlast & Htr).
  destruct Hk as [_ _ _ K4 _ _ _ _ _ _].
  split; cbn [with_events co_events co_orders co_halted co_opening].
  - constructor; assumption.
  - apply sorted_snoc; [assumption|]. rewrite R2. apply sorted_last; assumption.
  - intros i x Hx. apply lookup_app_Some in Hx as [Hx|[Hi Hx]]; [by apply Js|].
    apply list_lookup_singleton_Some in Hx as [Hi0 <-]. rewrite R1. f_equal. lia.
  - intros k. rewrite history_snoc, (effect_state _ _ _ _ _ Heff). unfold order_event. rewrite R3, R4.
    destruct (portfolio_event state) eqn:Hp; cbn [negb andb];
      [by rewrite andb_false_r, app_nil_r|rewrite andb_true_r].
    destruct (String.eqb_spec key k) as [->|Hne].
    + rewrite bool_decide_true by reflexivity. econstructor; [apply Jp|exact Htr].
    + rewrite bool_decide_false by assumption. rewrite app_nil_r. apply Jp.
  - rewrite length_app. cbn. lia.
  - rewrite halts_snoc, R4, <- Jh, Hhalt. destruct state; cbn; by rewrite ?orb_false_r, ?orb_true_r.
  - apply no_entry_snoc; [assumption|]. rewrite R4, <- Jh. intros He. destruct state; try discriminate He; cbn in Hadm; [apply Hadm|exact Hadm..].
  - rewrite last_snoc. exact R8.
  - apply Forall_app. rewrite K4. split; [exact Jbal|]. apply List.Forall_cons; [|constructor]. rewrite <- K4. by apply account_balanced.
  - apply ledger_snoc; [assumption|]. destruct (last (co_events c)) as [x|]; [|exact I].
    destruct R9 as (before & Hb & Hd). rewrite Ja in Hb. apply Ok_inj in Hb. subst before. exact Hd.
Qed.

Lemma books_frame c c' : co_orders c' = co_orders c -> co_positions c' = co_positions c ->
  co_reservations c' = co_reservations c -> co_marks c' = co_marks c -> books_ok c -> books_ok c'.
Proof. intros E1 E2 E3 E4 [? ? ? ? ? ?]. by split; rewrite ?E1, ?E2, ?E3, ?E4. Qed.

(** The whole invariant; [policy] and [binding] are those of the start. *)
Record coordinator_ok (binding : gmap string json) (policy : Policy) (c : Coordinator) : Prop := {
  cc_policy : co_policy c = policy;
  cc_binding : co_binding c = binding;
  cc_run : co_run_id c = sha (dict_text binding);
  cc_books : books_ok c;
  cc_journal : journal_ok c;
  cc_limit : Z.of_nat (open_count c) <= Z.max 0 (position_limit policy)
}.

Lemma stepped_books c c' : books_ok c -> stepped c c' -> books_ok c'.
Proof.
  intros Hb Hs. destruct Hs as [key state at_ r v c c' _ E|day equity c|w c|signals c].
  - apply coordinator_emit_inv in E as (c2 & e & -> & _ & Heff & _). apply (books_frame c2); [reflexivity..|by eapply books_effect].
  - by apply (books_frame c).
  - by apply (books_frame c).
  - by apply (books_frame c).
Qed.
Lemma steps_books c c' : books_ok c -> rtc stepped c c' -> books_ok c'.
Proof. intros Hb. induction 1 as [|c c1 c2 Hs _ IH]; [done|]. apply IH. by eapply stepped_books. Qed.

Lemma stepped_ok binding policy c c' : coordinator_ok binding policy c -> stepped c c' -> coordinator_ok binding policy c'.
Proof.
  intros Hc Hs. pose proof (stepped_books _ _ (cc_books _ _ _ Hc) Hs) as Hb.
  destruct Hs as [key state at_ r v c0 c1 Hadm E|day equity c0|w c0|signals c0]; destruct Hc as [C1 C2 C3 C4 C5 C6].
  - pose proof (journal_emit _ _ _ _ _ _ _ C5 Hadm E) as Hj.
    apply coordinator_emit_inv in E as (c2 & e & -> & [K1 K2 K3 _ _ _ _ _ _ _] & Heff & _).
    split; cbn [with_events co_policy co_binding co_run_id]; [congruence|congruence|congruence|exact Hb|exact Hj|].
    change (open_count (with_events (co_events c0 ++ [e]) c2)) with (open_count c2).
    pose proof (open_count_effect _ _ _ _ C4 Heff) as Hc. destruct (decide (state = RESERVED)) as [->|]; [|lia].
    destruct Hadm as [_ Hl]. rewrite C1 in Hl. lia.
  - split; [exact C1|exact C2|exact C3|exact Hb| |exact C6]. destruct C5. by split.
  - split; [exact C1|exact C2|exact C3|exact Hb| |exact C6]. destruct C5. by split.
  - split; [exact C1|exact C2|exact C3|exact Hb| |exact C6]. destruct C5. by split.
Qed.

Lemma coordinator_start binding policy : coordinator_ok binding policy (coordinator_init binding policy).
Proof. split; cbn; try done; [apply books_init|apply journal_init|lia]. Qed.
Lemma steps_ok binding policy c c' : coordinator_ok binding policy c -> rtc stepped c c' -> coordinator_ok binding policy c'.
Proof. intros Hc. induction 1 as [|c c1 c2 Hs _ IH]; [done|]. apply IH. by eapply stepped_ok. Qed.
Lemma reachable_ok binding policy c : reachable binding policy c -> coordinator_ok binding policy c.
Proof. apply steps_ok, coordinator_start. Qed.
End steps.
