(* ===== verification/PortfolioSteps.v ===== *)
(** * Every run is a sequence of steps

    The methods of the coordinator and the actions of a run emit their events under the
    conditions of [PortfolioInvariant.stepped], and the end of a session settles every
    order that holds no position. *)
From S2P Require Import Prelude Decimal DecimalFacts Text Dataset Costs Phase14 Strategies Execution Json JsonFacts CanonicalPolicy Research Exec Qualification Chain PyText Paper PaperFacts.
From S2P Require Import Portfolio PortfolioRun PortfolioFacts PortfolioInvariant.
Open Scope list_scope.
Open Scope Z_scope.

Section steps.
Context `{Dump Row} `{DumpPython Policy}.

(** A computation that, when it succeeds, is a sequence of steps. *)
Definition stepping {A} (m : exec Coordinator A) : Prop :=
  forall c c' a, m c = (c', Ok a) -> rtc stepped c c'.

Lemma stepping_bind {A B} (m : exec Coordinator A) (f : A -> exec Coordinator B) :
  stepping m -> (forall a, stepping (f a)) -> stepping (m ≫= f).
Proof. intros Hm Hf c c' b E. apply run_bind in E as (a & c1 & E1 & E2). etrans; [by eapply Hm|by eapply Hf]. Qed.
Lemma stepping_ret {A} (a : A) : stepping (mret a).
Proof. intros c c' b E. apply run_ret in E as [-> _]. done. Qed.
Lemma stepping_get : stepping get.
Proof. intros c c' b E. apply run_get in E as [-> _]. done. Qed.
Lemma stepping_lift {A} (r : res A) : stepping (lift r).
Proof. intros c c' b E. apply run_lift in E as [-> _]. done. Qed.
Lemma stepping_when b (m : exec Coordinator unit) : stepping m -> stepping (when b m).
Proof. intros Hm. destruct b; [exact Hm|apply stepping_ret]. Qed.
Lemma stepping_each {A} (f : A -> exec Coordinator unit) l : (forall x, stepping (f x)) -> stepping (each f l).
Proof. intros Hf. induction l as [|x l IH]; cbn [each]; [apply stepping_ret|]. apply stepping_bind; [apply Hf|by intros []]. Qed.
Lemma stepping_day day equity : stepping (modify (with_day day equity)).
Proof. intros c c' [] E. apply run_modify in E as ->. apply rtc_once. constructor. Qed.
Lemma stepping_consumed f : stepping (modify (fun c => with_consumed (f c) c)).
Proof. intros c c' [] E. apply run_modify in E as ->. apply rtc_once. constructor. Qed.
Lemma stepping_watch w : stepping (modify (with_watch w)).
Proof. intros c c' [] E. apply run_modify in E as ->. apply rtc_once. constructor. Qed.
Lemma stepping_plain key state at_ r v : entering state = false -> stepping (portfolio_emit key state at_ r v).
Proof. intros Hs c c' [] E. apply rtc_once. econstructor; [|exact E]. by destruct state. Qed.

(** [stepping_tac] proves [stepping m] for an [m] that enters no position. *)
Ltac stepping_tac :=
  repeat lazymatch goal with
  | |- stepping (_ ≫= _) => apply stepping_bind; [|intros ?]
  | |- stepping get => apply stepping_get
  | |- stepping (mret _) => apply stepping_ret
  | |- stepping (lift _) => apply stepping_lift
  | |- stepping (raises_if _ _) => apply stepping_lift
  | |- stepping (when _ _) => apply stepping_when
  | |- stepping (each _ _) => apply stepping_each; intros ?
  | |- stepping (modify (with_day _ _)) => apply stepping_day
  | |- stepping (modify (fun c => with_consumed _ c)) => apply stepping_consumed
  | |- stepping (modify (with_watch _)) => apply stepping_watch
  | |- stepping (portfolio_emit _ _ _ _ _) => apply stepping_plain; reflexivity
  | |- stepping (match ?x with _ => _ end) => destruct x
  end.

Lemma stepping_halt at_ reason : stepping (halt at_ reason).
Proof. unfold halt. stepping_tac. Qed.
Hint Resolve stepping_halt : core.
Lemma stepping_guard at_ : stepping (guard at_).
Proof. unfold guard, daily_guard, watch_drawdown. stepping_tac; done. Qed.
Hint Resolve stepping_guard : core.

(** An event, and the guard that may follow it. *)
Lemma emit_stepped key state at_ r v c c' : emit key state at_ r v c = (c', Ok tt) -> admissible state c -> rtc stepped c c'.
Proof.
  unfold emit. intros E Ha. apply run_bind in E as ([] & c1 & E1 & E). etrans; [by eapply rtc_once, stepped_event|].
  revert E. assert (Hs : stepping (c ← get; when! guarded_state c state do guard at_)) by (stepping_tac; done). apply Hs.
Qed.
Lemma stepping_emit key state at_ r v : entering state = false -> stepping (emit key state at_ r v).
Proof. intros Hs c c' [] E. eapply emit_stepped; [exact E|]. by destruct state. Qed.
Ltac emits_tac :=
  repeat (stepping_tac; try lazymatch goal with |- stepping (emit _ _ _ _ _) => apply stepping_emit; reflexivity end).

(** Emission keeps the flag, and counts what it opens. *)
Lemma emit_halted key state at_ r v c c' : watched state = false -> emit key state at_ r v c = (c', Ok tt) ->
  state <> PAPER_HALTED -> co_halted c' = co_halted c.
Proof. intros Hw E%emit_plain Hs; [|done]. apply coordinator_emit_inv in E as (c1 & e & -> & _ & _ & Hh & _). cbn. rewrite Hh. by destruct state. Qed.

Lemma stepping_buy key r price qty at_ signal control c c' :
  buy key r price qty at_ signal control c = (c', Ok tt) ->
  co_halted c = false -> Z.of_nat (open_count c) < position_limit (co_policy c) -> rtc stepped c c'.
Proof.
  intros E Hh Hl. unfold buy in E. do 4 run_step E. run_step E. destruct x3.
  match goal with Er : emit _ RESERVED _ _ _ _ = _ |- _ => pose proof (emit_halted _ RESERVED _ _ _ _ _ eq_refl Er) as Hh1;
    apply emit_stepped in Er; [|by split]; etrans; [exact Er|] end.
  rewrite Hh in Hh1. specialize (Hh1 ltac:(discriminate)). case_bool_decide.
  { by eapply (stepping_emit _ CANCELLED). }
  run_step E. destruct x3.
  match goal with Er : emit _ ACCEPTED _ _ _ _ = _ |- _ => pose proof (emit_halted _ ACCEPTED _ _ _ _ _ eq_refl Er) as Hh2;
    apply emit_stepped in Er; [|exact Hh1]; etrans; [exact Er|] end.
  rewrite Hh1 in Hh2. specialize (Hh2 ltac:(discriminate)). do 4 run_step E. by apply emit_stepped in E.
Qed.

(** An order that is not refused: no halt, and room for a position. *)
Lemma entry_refusal_none at_ c o : entry_refusal at_ c o = None ->
  co_halted c = false /\ Z.of_nat (open_count c) < position_limit (co_policy c).
Proof.
  unfold entry_refusal, open_count, position_limit. intros E. rewrite Nat2Z.inj_add.
  destruct (Z.leb_spec (Z.min (default 0 (rk_simultaneous_positions (pp_base (co_policy c))))
    (default 0 (pp_correlation_positions (co_policy c)))) (Z.of_nat (length (co_positions c)) + Z.of_nat (length (co_reservations c)))) as [|Hl];
    [discriminate E|]. split; [|exact Hl]. destruct (co_halted c); [|done]. by destruct (_ <=? at_).
Qed.

Lemma stepping_enter key r price quantity at_ control : stepping (enter key r price quantity at_ control).
Proof.
  unfold enter. do 2 (apply stepping_bind; [emits_tac|intros ?]). destruct (negb _); [emits_tac|].
  apply stepping_bind; [emits_tac|intros _]. intros c c' [] E. run_step E. destruct (entry_refusal at_ _ _) as [reason|] eqn:Hr.
  - by eapply (stepping_emit _ REJECTED).
  - apply entry_refusal_none in Hr as [Hh Hl]. run_step E. destruct (_ !! at_) as [b|].
    + run_step E. destruct (_ <=? 0); [by eapply (stepping_emit _ REJECTED)|by eapply stepping_buy].
    + revert E. assert (Hs : stepping (halt at_ "MISSING_ENTRY_DATA" ≫= fun _ : unit =>
        emit key REJECTED at_ None (because "MISSING_ENTRY_DATA"))) by (emits_tac; done).
      apply Hs.
Qed.

Lemma stepping_perform requests control a : stepping (perform requests control a).
Proof.
  unfold perform, propose, refuse, mark, leave, end_session, cancel_open. emits_tac; auto using stepping_enter.
Qed.

Lemma stepping_performs requests control actions : stepping (each (perform requests control) actions).
Proof. apply stepping_each. intros a. apply stepping_perform. Qed.

(** ** The end of a session *)

(** No order is proposed, checked, reserved or accepted. *)
Definition settled (key : string) (c : Coordinator) : Prop :=
  match or_state <$> find (co_orders c) key with Some s => open_state s = false | None => True end.

Lemma emit_state key state at_ r v c c' k : watched state = false -> emit key state at_ r v c = (c', Ok tt) ->
  or_state <$> find (co_orders c') k =
    (if negb (portfolio_event state) && bool_decide (key = k) then Some state else or_state <$> find (co_orders c) k).
Proof.
  intros Hw E%emit_plain; [|done]. apply coordinator_emit_inv in E as (c1 & e & -> & _ & Heff & _). cbn.
  by eapply effect_state.
Qed.
Lemma emit_settled key state at_ r v c c' k : watched state = false -> emit key state at_ r v c = (c', Ok tt) -> open_state state = false ->
  settled k c -> settled k c'.
Proof.
  unfold settled. intros Hw E Hs. rewrite (emit_state _ _ _ _ _ _ _ _ Hw E). destruct (_ && _); [done|auto].
Qed.

Lemma cancel_open_settles at_ key c c' : cancel_open at_ key c = (c', Ok tt) ->
  settled key c' /\ (forall k, settled k c -> settled k c').
Proof.
  unfold cancel_open. intros E. run_step E. unfold settled at 1. destruct (find (co_orders c) key) as [o|] eqn:Hf.
  - destruct (open_state (or_state o)) eqn:Ho; cbn [when] in E.
    + split; [|intros k; by eapply (emit_settled _ CANCELLED)]. rewrite (emit_state _ CANCELLED _ _ _ _ _ key eq_refl E). cbn. by rewrite bool_decide_true.
    + apply run_ret in E as [-> _]. by rewrite Hf.
  - apply run_ret in E as [-> _]. by rewrite Hf.
Qed.
Lemma cancel_all_settles at_ keys c c' : each (cancel_open at_) keys c = (c', Ok tt) ->
  forall k, k ∈ keys \/ settled k c -> settled k c'.
Proof.
  revert c. induction keys as [|key keys IH]; intros c E k Hk; cbn [each] in E.
  - apply run_ret in E as [-> _]. destruct Hk as [Hk|Hk]; [by apply elem_of_nil in Hk|exact Hk].
  - apply run_bind in E as ([] & c1 & E1 & E). apply cancel_open_settles in E1 as [H1 H2].
    apply (IH _ E). rewrite elem_of_cons in Hk. naive_solver.
Qed.

Lemma stepping_cancel_all at_ keys : stepping (each (cancel_open at_) keys).
Proof. unfold cancel_open. emits_tac. Qed.

(** Nothing stays reserved when every order is settled. *)
Lemma settled_free c : books_ok c -> (forall k, settled k c) -> co_reservations c = [].
Proof.
  intros Hb Hs. destruct (co_reservations c) as [|[k amount] l] eqn:E; [done|exfalso].
  assert (Hr : is_Some (find (co_reservations c) k)) by (rewrite E; cbn; rewrite decide_True by done; by eexists).
  apply (bo_reserved _ Hb) in Hr as (o & Hf & Ho). specialize (Hs k). unfold settled in Hs. rewrite Hf in Hs. cbn in Hs.
  by destruct (or_state o).
Qed.

(** An event of the portfolio keeps the books. *)
Lemma emit_portfolio key state at_ r v c c' : portfolio_emit key state at_ r v c = (c', Ok tt) -> portfolio_event state = true ->
  co_orders c' = co_orders c /\ co_positions c' = co_positions c /\ co_reservations c' = co_reservations c.
Proof.
  intros E Hp. apply coordinator_emit_inv in E as (c1 & e & -> & _ & Heff & _). cbn. destruct Heff as [state| |o state Hf Htr Hin| | | |];
    try done; try discriminate Hp. exfalso. destruct state; try discriminate Hp; set_solver.
Qed.

Lemma halt_spec at_ reason c c' : halt at_ reason c = (c', Ok tt) ->
  co_halted c' = true /\ co_orders c' = co_orders c /\ co_positions c' = co_positions c /\
  co_reservations c' = co_reservations c.
Proof.
  unfold halt. intros E. run_step E. destruct (co_halted c) eqn:Hh; cbn [when negb] in E.
  - apply run_ret in E as [-> _]. done.
  - split; [|by eapply emit_portfolio]. apply coordinator_emit_inv in E as (c1 & e & -> & _ & _ & Hc & _). exact Hc.
Qed.

Lemma end_session_settles at_ c c' : books_ok c -> end_session at_ c = (c', Ok tt) ->
  (forall k, settled k c') /\ co_reservations c' = [] /\ (co_positions c' <> [] -> co_halted c' = true) /\
  exists e, last (co_events c') = Some e /\ pv_state e = SESSION_END /\
    dt_complete (pv_details e) = Some (is_nil (co_positions c')).
Proof.
  unfold end_session. intros Hb E. run_step E. apply run_bind in E as ([] & s0 & E1 & E).
  assert (Hall : forall k, settled k s0).
  { intros k. apply (cancel_all_settles _ _ _ _ E1). destruct (find (co_orders c) k) as [o|] eqn:Hf.
    - left. apply find_elem in Hf. apply list_elem_of_fmap. by exists (k, o).
    - right. unfold settled. by rewrite Hf. }
  pose proof (settled_free _ (steps_books _ _ Hb (stepping_cancel_all _ _ _ _ _ E1)) Hall) as Hfree.
  run_step E. apply run_bind in E as ([] & s1 & E2 & E). run_step E.
  assert (H1 : co_orders s1 = co_orders s0 /\ co_positions s1 = co_positions s0 /\ co_reservations s1 = co_reservations s0 /\
               (co_positions s1 <> [] -> co_halted s1 = true)).
  { destruct (co_positions s0) eqn:Hp; cbn [when negb is_nil] in E2.
    - apply run_ret in E2 as [-> _]. by rewrite Hp.
    - apply halt_spec in E2 as (? & ? & ? & ?). by rewrite Hp in *. }
  destruct H1 as (O1 & P1 & R1 & H1).
  pose proof (emit_portfolio _ _ _ _ _ _ _ (emit_plain _ SESSION_END _ _ _ _ _ eq_refl E) eq_refl) as (O2 & P2 & R2).
  split; [intros k; specialize (Hall k); unfold settled in *; by rewrite O2, O1|].
  split; [by rewrite R2, R1|]. rewrite P2. split.
  - intros Hp. rewrite (emit_halted _ SESSION_END _ _ _ _ _ eq_refl E); [by apply H1|discriminate].
  - apply emit_plain, coordinator_emit_inv in E as (c1 & e & -> & _ & _ & _ & Hr & _); [|done]. exists e. split; [apply last_snoc|].
    split; [exact (re_state _ _ _ _ _ _ _ Hr)|]. rewrite (re_details _ _ _ _ _ _ _ Hr). cbn. by rewrite R1, Hfree, andb_true_r.
Qed.

(** ** The run *)

Context `{Dump Definition_} `{Dump Bar} `{Dump Risk} `{Dump Dataset_} `{Dump Phase14.Policy} `{Dump Request}.
Context `{DumpJson ResearchWindow} `{DumpJson IntradayCostSchedule} `{DumpJson Settings} `{DumpJson Authorization}.
Context `{DumpJson Policy} `{DumpJson Control}.

Lemma portfolio_run_reachable definition_json uncertain software universe_hash universe inventory requests policy control c :
  portfolio_run definition_json uncertain software universe_hash universe inventory requests policy control = Ok c ->
  exists binding, portfolio_binding definition_json universe_hash inventory (sort_by (request_le universe) requests) policy control = Ok binding /\
    reachable binding policy c.
Proof.
  unfold portfolio_run. intros E. unbind E rs Ers. unbind E bg Eb. unbind E u Eu. unbind E start Es. unbind E gs Eg.
  assert (rs = sort_by (request_le universe) requests) as ->.
  { unfold admit_requests in Ers. unbind Ers u1 E1. unbind Ers u2 E2. destruct (negb _); [discriminate Ers|].
    unbind Ers u3 E3. by apply Ok_inj in Ers. }
  exists bg. split; [exact Eb|]. unfold reachable. destruct (negb (is_nil gs) || ct_paper_halt control).
  - destruct (halt _ _ _) as [c1 [[]|e]] eqn:Eh in E; [|discriminate E]. apply Ok_inj in E. subst c1.
    by eapply stepping_halt.
  - destruct (actions_of _ _ _ _ _ _ _ _ _) as [actions|]; [|discriminate E].
    destruct (each _ _ _) as [c1 [[]|e]] eqn:Eh in E; [|discriminate E]. apply Ok_inj in E. subst c1.
    by eapply stepping_performs.
Qed.
End steps.
