(* ===== verification/Scheduler.v ===== *)
(** * The session scheduler ([phase1419/scheduler.py])

    An explicit clock drives one trading session over the coordinator: commands (preflight,
    open, step, close) move a session through its states, feed completed candles and
    openings, and leave one hash-chained audit row each.  A [ValueError] inside a command
    halts the session and is the rejection of its row; the mutations made before it stay.
    The attributes that never change are a record of their own, [Setup].

    [session_run] is the function [run] over the directory of a session, [SessionFolder]:
    it reads the recovery flag of every row that is there, compares the row with the one
    that its command gives, publishes the others, and writes or compares the reports and
    the summary of a session that has stopped. *)
From S2P Require Import Prelude Decimal DecimalFacts Text Dataset Costs Phase14 Strategies Execution Json JsonFacts JsonRead CanonicalPolicy Research Exec Qualification Chain PyText Paper.
From S2P Require Import Portfolio PortfolioRun.
Open Scope list_scope.
Open Scope Z_scope.

Definition RISK_HASH : string := "3dd7a1cf99042ce027011f6a99ca1f298ab62c6254bc85e584171250a925c7d1".
Definition EXECUTION_HASH : string := "2078a10ecad7df0faef638e3e6e37eb4808c4a8c33af5fb81883b427d0ed5925".
Definition SCHEMA : string := "Phase1419Session.v1".
Definition LIMIT : Z := 200000.
Definition MAX_BARS : Z := 100000.

(** ** States of a session *)

Inductive SessionState :=
| CREATED | PREMARKET_CHECK | READY | SESSION_OPEN | RUNNING | ENTRY_CUTOFF | EOD_LIQUIDATION | RECONCILING
| COMPLETED | PAPER_HALTED | FAILED | RECOVERY_PENDING.
#[export] Instance session_state_eq_dec : EqDecision SessionState.
Proof. solve_decision. Defined.
Definition session_state_text (s : SessionState) : string :=
  match s with
  | CREATED => "CREATED" | PREMARKET_CHECK => "PREMARKET_CHECK" | READY => "READY" | SESSION_OPEN => "SESSION_OPEN"
  | RUNNING => "RUNNING" | ENTRY_CUTOFF => "ENTRY_CUTOFF" | EOD_LIQUIDATION => "EOD_LIQUIDATION"
  | RECONCILING => "RECONCILING" | COMPLETED => "COMPLETED" | PAPER_HALTED => "PAPER_HALTED" | FAILED => "FAILED"
  | RECOVERY_PENDING => "RECOVERY_PENDING"
  end.
Definition TRANSITIONS (s : SessionState) : list SessionState :=
  match s with
  | CREATED => [PREMARKET_CHECK]
  | PREMARKET_CHECK => [READY]
  | READY => [SESSION_OPEN]
  | SESSION_OPEN => [RUNNING; ENTRY_CUTOFF; EOD_LIQUIDATION]
  | RUNNING => [ENTRY_CUTOFF; EOD_LIQUIDATION]
  | ENTRY_CUTOFF => [EOD_LIQUIDATION]
  | EOD_LIQUIDATION => [RECONCILING]
  | RECONCILING => [COMPLETED]
  | PAPER_HALTED => [EOD_LIQUIDATION]
  | FAILED => []
  | COMPLETED => []
  | RECOVERY_PENDING => [CREATED; READY; SESSION_OPEN; RUNNING; ENTRY_CUTOFF]
  end.
Definition terminal (s : SessionState) : bool := match s with COMPLETED | FAILED => true | _ => false end.
Definition stopped (s : SessionState) : bool := match s with COMPLETED | PAPER_HALTED | FAILED => true | _ => false end.
Definition allowed (s : SessionState) : list SessionState :=
  TRANSITIONS s ++ [PAPER_HALTED; FAILED] ++ (if stopped s then [] else [RECOVERY_PENDING]).

(** ** Calendar, configuration, commands *)

#[export] Instance dated_session_eq_dec : EqDecision DatedSession.
Proof. solve_decision. Defined.
Record Calendar := mkSessionCalendar {
  ca_version : string; ca_source_hash : string; ca_sessions : list DatedSession; ca_holidays : list Z
}.
Definition session_day (s : DatedSession) : Z := nse_date (ds_start s).
Definition calendar_valid (c : Calendar) : res Calendar :=
  let days := session_day <$> ca_sessions c in
  reject! negb (bool_decide (NoDup days)) || existsb (fun d => bool_decide (d ∈ ca_holidays c)) days as "CALENDAR_CONFLICT";
  require! bool_decide (sort_by (fun s t => ds_start s <=? ds_start t) (ca_sessions c) = ca_sessions c) else "CALENDAR_ORDER";
  Ok c.

Record Configuration := mkConfiguration {
  cf_name : string; cf_trading_date : Z; cf_cutoff : Z; cf_authorization : string; cf_prior_session_resolved : bool;
  cf_risk_version : string; cf_risk_hash : string; cf_execution_version : string; cf_execution_hash : string
}.
Record Completed := mkCompleted { cm_symbol : string; cm_token : string; cm_bar : Bar; cm_complete : bool }.
Record Opening := mkOpening { op_symbol : string; op_token : string; op_price : dec }.
Inductive CommandKind := Preflight | OpenSession | Step | CloseSession.
#[export] Instance command_kind_eq_dec : EqDecision CommandKind.
Proof. solve_decision. Defined.
Record Command := mkCommand {
  cd_kind : CommandKind; cd_at : Z; cd_completed : list Completed; cd_openings : list Opening
}.

(** ** The engine *)

Record Decision := mkDecision {
  dn_at : Z; dn_symbol : string; dn_strategy : identifier; dn_signal : string; dn_rejection : option string
}.
Record SessionRow := mkSessionRow {
  sn_sequence : Z; sn_session_id : string; sn_trading_date : Z; sn_at : Z; sn_command : json; sn_recovered : bool;
  sn_state : SessionState; sn_transitions : list (SessionState * SessionState); sn_calendar_hash : string;
  sn_registry : json; sn_qualifications : json; sn_datasets : json; sn_risk_hash : string;
  sn_candle_ids : list string; sn_events : list PortfolioEvent; sn_account : PaperAccount;
  sn_rejection : option string; sn_previous_hash : string; sn_current_hash : string
}.
Record Setup := mkSetup {
  st_requests : list Request; st_sources : list (string * Request); st_policy : Policy; st_control : Control;
  st_calendar : Calendar; st_config : Configuration; st_session : option DatedSession;
  st_binding : gmap string json; st_identifier : string; st_crash : option string
}.
(** [en_candle_ids] is the local variable of [_apply] that its exception handler keeps. *)
Record Engine := mkEngine {
  en_setup : Setup; en_portfolio : Coordinator; en_state : SessionState; en_clock : option Z;
  en_history : list (string * list Bar); en_pending : list (string * Request); en_seen : gset (string * Z);
  en_audit : list SessionRow; en_transitions : list (SessionState * SessionState); en_gaps : list string;
  en_decisions : list Decision; en_candle_ids : list string
}.

Definition with_portfolio (x : Coordinator) (e : Engine) : Engine :=
  mkEngine (en_setup e) x (en_state e) (en_clock e) (en_history e) (en_pending e) (en_seen e) (en_audit e)
    (en_transitions e) (en_gaps e) (en_decisions e) (en_candle_ids e).
Definition with_state (x : SessionState) (l : list (SessionState * SessionState)) (e : Engine) : Engine :=
  mkEngine (en_setup e) (en_portfolio e) x (en_clock e) (en_history e) (en_pending e) (en_seen e) (en_audit e)
    l (en_gaps e) (en_decisions e) (en_candle_ids e).
Definition with_clock (x : option Z) (e : Engine) : Engine :=
  mkEngine (en_setup e) (en_portfolio e) (en_state e) x (en_history e) (en_pending e) (en_seen e) (en_audit e)
    (en_transitions e) (en_gaps e) (en_decisions e) (en_candle_ids e).
(** The bookkeeping of a processed candle. *)
Definition with_candle (history : list (string * list Bar)) (seen : gset (string * Z)) (ids : list string) (e : Engine) : Engine :=
  mkEngine (en_setup e) (en_portfolio e) (en_state e) (en_clock e) history (en_pending e) seen (en_audit e)
    (en_transitions e) (en_gaps e) (en_decisions e) ids.
Definition with_pending (x : list (string * Request)) (e : Engine) : Engine :=
  mkEngine (en_setup e) (en_portfolio e) (en_state e) (en_clock e) (en_history e) x (en_seen e) (en_audit e)
    (en_transitions e) (en_gaps e) (en_decisions e) (en_candle_ids e).
Definition with_audit (x : list SessionRow) (e : Engine) : Engine :=
  mkEngine (en_setup e) (en_portfolio e) (en_state e) (en_clock e) (en_history e) (en_pending e) (en_seen e) x
    (en_transitions e) (en_gaps e) (en_decisions e) (en_candle_ids e).
Definition with_gaps (x : list string) (e : Engine) : Engine :=
  mkEngine (en_setup e) (en_portfolio e) (en_state e) (en_clock e) (en_history e) (en_pending e) (en_seen e)
    (en_audit e) (en_transitions e) x (en_decisions e) (en_candle_ids e).
Definition with_decisions (x : list Decision) (e : Engine) : Engine :=
  mkEngine (en_setup e) (en_portfolio e) (en_state e) (en_clock e) (en_history e) (en_pending e) (en_seen e)
    (en_audit e) (en_transitions e) (en_gaps e) x (en_candle_ids e).

Section scheduler.
Context `{Dump Definition_} `{Dump Bar} `{Dump Row} `{Dump Risk} `{Dump Dataset_} `{Dump Phase14.Policy} `{Dump Request}.
Context `{DumpJson ResearchWindow} `{DumpJson IntradayCostSchedule} `{DumpJson Settings} `{DumpJson Authorization}.
Context `{DumpJson Policy} `{DumpJson Control} `{DumpPython Policy}.
Context `{DumpJson Calendar} `{DumpJson Configuration} `{DumpJson Command}.
Context (definition_json : Definition_ -> json) (uncertain : Metrics -> bool) (software_hash universe_hash : string).
(** The symbols of the universe file and the inventory of the software. *)
Context (universe : list string) (inventory : json).

Definition calendar_fingerprint (c : Calendar) : string := sha (canonical (model_dump_json_value c)).

(** ** Construction *)

Definition pair_of (r : Request) : string * identifier := (rq_symbol r, df_identifier (rq_definition r)).
Definition pair_le (a b : Request) : bool :=
  match lex (rank_of universe (rq_symbol a) ?= rank_of universe (rq_symbol b))
        (string_cmp (identifier_text (df_identifier (rq_definition a))) (identifier_text (df_identifier (rq_definition b)))) with
  | Gt => false | _ => true end.
Definition bar_count (sources : list (string * Request)) : Z :=
  foldr Z.add 0 ((fun r => Z.of_nat (length (sr_bars (rd_series (rq_data r))))) <$> sources.*2).
(** A request whose dataset is not that of its symbol. *)
Definition foreign_dataset (sources : list (string * Request)) (r : Request) : bool :=
  match find sources (rq_symbol r) with
  | Some s => negb (bool_decide (rd_sha256 (rq_data r) = rd_sha256 (rq_data s)))
  | None => false
  end.

Definition session_binding (requests : list Request) (sources : list (string * Request)) (policy : Policy)
    (control : Control) (calendar : Calendar) (config : Configuration) : res (gmap string json) :=
  risk ← policy_fingerprint policy;
  registry_ ← registry_hash definition_json;
  Ok (list_to_map
    [("schema", JStr SCHEMA); ("config", model_dump_json_value config); ("calendar", model_dump_json_value calendar);
     ("calendar_hash", JStr (calendar_fingerprint calendar)); ("policy", model_dump_json_value policy);
     ("risk_version", JStr VERSION); ("risk_hash", JStr risk); ("execution_version", JStr EXECUTION_VERSION);
     ("execution_hash", JStr execution_fingerprint); ("control", model_dump_json_value control);
     ("requests", JArr ((JStr ∘ request_fingerprint) <$> requests));
     ("qualifications", JArr ((JStr ∘ row_fingerprint ∘ rq_qualification) <$> requests));
     ("datasets", JObj ((fun x => (x.1, JStr (rd_sha256 (rq_data x.2)))) <$> sources)); ("registry", JStr registry_);
     ("universe", JStr universe_hash); ("family_size", JInt 13380); ("software", inventory);
     ("scope", JStr "SYNTHETIC_FIXTURE")])%string.

Definition engine_init (requests : list Request) (policy : Policy) (control : Control) (calendar : Calendar)
    (config : Configuration) (crash : option string) : res Engine :=
  reject! is_nil requests || (6690 <? Z.of_nat (length requests)) as "SESSION_RESOURCE_LIMIT";
  require! (Z.of_nat (length universe) =? 1115) && bool_decide (NoDup universe) else "UNIVERSE_CONFLICT";
  let sorted := sort_by pair_le requests in
  require! bool_decide (NoDup (pair_of <$> sorted)) else "DUPLICATE_PAIR";
  let sources := dict_by rq_symbol sorted in
  reject! MAX_BARS <? bar_count sources as "SESSION_RESOURCE_LIMIT";
  reject! (1115 <? Z.of_nat (length sources)) || existsb (foreign_dataset sources) requests as "CONFLICTING_DATASET";
  let session := head (List.filter (fun s => session_day s =? cf_trading_date config) (ca_sessions calendar)) in
  binding ← session_binding sorted sources policy control calendar config;
  Ok (mkEngine (mkSetup sorted sources policy control calendar config session binding (sha (dict_text binding)) crash)
        (with_crash crash (coordinator_init binding policy)) CREATED None ((fun x => (x.1, [])) <$> sources) [] ∅
        [] [] [] [] []).

(** ** Transitions *)

Definition transition (state : SessionState) : exec Engine unit :=
  e ← get;
  _ ← raises_if (terminal (en_state e)) "TERMINAL_SESSION";
  _ ← raises_if (negb (bool_decide (state ∈ allowed (en_state e))) || bool_decide (state = en_state e))
        ("INVALID_SESSION_TRANSITION:" +:+ session_state_text (en_state e) +:+ ":" +:+ session_state_text state);
  _ ← modify (with_state state (en_transitions e ++ [(en_state e, state)]));
  lift (if bool_decide (st_crash (en_setup e) = Some (session_state_text state))
        then Err (InterruptedError ("SYNTHETIC_CRASH:" +:+ session_state_text state)) else Ok tt).

(** A method of the portfolio. *)
Definition trade {A} (m : exec Coordinator A) : exec Engine A := focus en_portfolio with_portfolio m.

Definition session_halt (reason : string) (at_ : Z) : exec Engine unit :=
  _ ← trade (halt at_ reason);
  e ← get;
  when! negb (bool_decide (en_state e = PAPER_HALTED)) do transition PAPER_HALTED.

(** ** Readiness *)

Definition policy_mismatch (config : Configuration) (policy : Policy) (control : Control) (fingerprint : string) : bool :=
  negb (bool_decide (cf_risk_version config = VERSION)) || negb (bool_decide (pp_version policy = VERSION)) ||
  negb (bool_decide (ct_version control = VERSION)) || negb (bool_decide (cf_risk_hash config = RISK_HASH)) ||
  negb (bool_decide (fingerprint = RISK_HASH)) || negb (bool_decide (ct_policy_hash control = RISK_HASH)) ||
  negb (bool_decide (cf_execution_version config = EXECUTION_VERSION)) ||
  negb (bool_decide (cf_execution_hash config = EXECUTION_HASH)) ||
  negb (bool_decide (execution_fingerprint = EXECUTION_HASH)).
Definition unauthorized (config : Configuration) (control : Control) : bool :=
  negb (ct_enabled control) || ct_paper_halt control ||
  negb (bool_decide (cf_authorization config = ct_authorization_evidence control)).
Definition trading_day (s : Setup) : list string :=
  match st_session s with
  | None => ["NON_TRADING_DAY"%string]
  | Some session =>
      if bool_decide (cf_trading_date (st_config s) ∈ ca_holidays (st_calendar s)) then ["NON_TRADING_DAY"%string]
      else reason_if (negb ((ds_start session <? cf_cutoff (st_config s)) && (cf_cutoff (st_config s) <? ds_end session)))
             "INVALID_CUTOFF"
  end.
Definition request_failures (s : Setup) (known : list Definition_) (r : Request) : res (list string) :=
  failures ← admission uncertain software_hash (rq_qualification r) (rq_data r) (rq_definition r) (rq_settings r)
    (pp_base (st_policy s)) (rq_authorization r);
  let a := rq_authorization r in
  reference ← of_option StopIteration
    (List.find (fun d => bool_decide (df_identifier d = df_identifier (rq_definition r))) known);
  Ok (failures ++
      reason_if (negb (au_synthetic a) || negb (rk_fixture_only (pp_base (st_policy s))) || au_paper_halt a ||
                 negb (bool_decide (rq_symbol r ∈ universe))) "SYNTHETIC_ONLY_OR_AUTHORIZATION" ++
      reason_if (match st_session s with
                 | Some session =>
                     negb (bool_decide (sr_sessions (rd_series (rq_data r)) = [session])) ||
                     negb (bool_decide (sr_calendar_hash (rd_series (rq_data r)) = ca_source_hash (st_calendar s)))
                 | None => false
                 end) "CALENDAR_BINDING" ++
      reason_if (negb (definition_eqb (rq_definition r) reference)) "STRATEGY_MUTATION").

Definition readiness (s : Setup) : res (list string) :=
  fingerprint ← policy_fingerprint (st_policy s);
  known ← registry;
  of_requests ← mapR (request_failures s known) (st_requests s);
  Ok (sort_by String.leb (remove_dups
    (policy_gaps (st_policy s) (st_sources s).*1 ++ trading_day s ++
     reason_if (negb (cf_prior_session_resolved (st_config s))) "UNRESOLVED_PRIOR_SESSION" ++
     reason_if (unauthorized (st_config s) (st_control s)) "PAPER_AUTHORIZATION_OR_HALT" ++
     reason_if (policy_mismatch (st_config s) (st_policy s) (st_control s) fingerprint) "POLICY_MISMATCH" ++
     concat of_requests))).

(** ** Commands *)

Definition preflight (command : Command) : exec Engine unit :=
  e ← get;
  let s := en_setup e in
  _ ← raises_if (negb (is_nil (cd_completed command)) || negb (is_nil (cd_openings command)) ||
        match st_session s with Some session => ds_start session <=? cd_at command | None => false end)
        "INVALID_PREFLIGHT_TIME";
  _ ← transition PREMARKET_CHECK;
  gaps ← lift (readiness s);
  _ ← modify (with_gaps gaps);
  _ ← raises_if (negb (is_nil gaps)) (String.concat ";" gaps);
  transition READY.

Definition open_session (command : Command) : exec Engine unit :=
  e ← get;
  _ ← raises_if (match st_session (en_setup e) with
        | Some session => negb (cd_at command =? ds_start session)
        | None => true
        end || negb (is_nil (cd_completed command)) || negb (is_nil (cd_openings command))) "INVALID_OPEN";
  transition SESSION_OPEN.

(** A completed candle continues the history of its symbol and is a candle of its dataset. *)
Definition bar_eqb (b b' : Bar) : bool :=
  (b_start b =? b_start b') && deqb (b_open b) (b_open b') && deqb (b_high b) (b_high b') && deqb (b_low b) (b_low b') &&
  deqb (b_close b) (b_close b') && (b_volume b =? b_volume b').
Definition check_completed (e : Engine) (session : DatedSession) (at_ : Z) (x : string * Completed) : res unit :=
  let '(symbol, o) := x in
  r ← of_option KeyError (find (st_sources (en_setup e)) symbol);
  bars ← of_option KeyError (find (en_history e) symbol);
  let expected := match last bars with Some b => candle_end b | None => ds_start session end in
  reject! negb (cm_complete o) || negb (candle_end (cm_bar o) =? at_) || negb (b_start (cm_bar o) =? expected)
    as "INCOMPLETE_OR_NONCONTIGUOUS_CANDLE";
  reject! bool_decide ((symbol, b_start (cm_bar o)) ∈ en_seen e) as "DUPLICATE_CANDLE";
  reject! negb (bool_decide (cm_token o = sr_token (rd_series (rq_data r)))) ||
          negb (existsb (bar_eqb (cm_bar o)) (sr_bars (rd_series (rq_data r)))) as "DATASET_OBSERVATION_MISMATCH";
  Ok tt.
Definition check_opening (e : Engine) (session : DatedSession) (at_ : Z) (x : string * Opening) : res unit :=
  let '(symbol, o) := x in
  match find (st_sources (en_setup e)) symbol with
  | None => Err (ValueError "UNEXPECTED_OPENING")
  | Some r =>
      reject! at_ =? ds_end session as "UNEXPECTED_OPENING";
      require! match List.find (fun b => b_start b =? at_) (sr_bars (rd_series (rq_data r))) with
               | Some b => bool_decide (op_token o = sr_token (rd_series (rq_data r))) && deqb (op_price o) (b_open b)
               | None => false
               end else "OPENING_IDENTITY_OR_PRICE";
      Ok tt
  end.

(** The dictionaries of a command, checked. *)
Definition observations (e : Engine) (session : DatedSession) (command : Command)
    : res (list (string * Completed) * list (string * Opening)) :=
  let completed := dict_by cm_symbol (cd_completed command) in
  let opening := dict_by op_symbol (cd_openings command) in
  reject! negb (Nat.eqb (length completed) (length (cd_completed command))) ||
          negb (Nat.eqb (length opening) (length (cd_openings command))) as "DUPLICATE_OBSERVATION";
  require! bool_decide (list_to_set completed.*1 =@{gset string} list_to_set (st_sources (en_setup e)).*1)
    else "MANDATORY_CANDLE_MISSING";
  _ ← mapR (check_completed e session (cd_at command)) completed;
  _ ← mapR (check_opening e session (cd_at command)) opening;
  Ok (completed, opening).

(** The exit of the position of a symbol, if its candle decides one. *)
Definition exit_order (key : string) (o : Order) (r : Request) (bar : Bar) (at_ : Z) (reference : dec) (why : string)
    : exec Engine unit :=
  _ ← when! bool_decide (or_state o = FILLED) do trade (emit key EXIT_PENDING at_ None (because why));
  most ← lift (pmul (dZ (b_volume bar)) (se_participation (rq_settings r)));
  if dltb most (dZ (or_quantity o)) then session_halt "EXIT_LIQUIDITY_UNVALUED" at_
  else
    slip ← lift (pdiv (se_slippage_bps (rq_settings r)) (dZ 10000));
    factor ← lift (psub (dZ 1) slip);
    price ← lift (pmul reference factor);
    value ← lift (pmul price (dZ (or_quantity o)));
    basis ← lift (pmul (or_entry o) (dZ (or_quantity o)));
    fee ← lift (quote_total (rq_costs r) SELL value (b_start bar) (Some basis));
    trade (emit key CLOSED at_ None
      (mkDetails None None None (Some price) (Some fee) None None (Some why) None None None)).
Definition exit_position (symbol : string) (bar : Bar) (session : DatedSession) (at_ : Z) : exec Engine unit :=
  e ← get;
  match find (co_positions (en_portfolio e)) symbol with
  | None => mret tt
  | Some key =>
      o ← lift (of_option KeyError (find (co_orders (en_portfolio e)) key));
      r ← lift (of_option StopIteration (List.find
            (fun r => bool_decide (rq_symbol r = symbol) && bool_decide (df_identifier (rq_definition r) = or_strategy_id o))
            (st_requests (en_setup e))));
      '(reference, why) ← lift (exit_reference bar (or_entry o) (rq_definition r) (at_ =? ds_end session));
      match why with
      | Some why => exit_order key o r bar at_ reference (reason_text why)
      | None => mret tt
      end
  end.

(** One completed candle: exit, mark, guard, history. *)
Definition process_candle (completed : list (string * Completed)) (session : DatedSession) (at_ : Z) (symbol : string)
    : exec Engine unit :=
  o ← lift (of_option KeyError (find completed symbol));
  let bar := cm_bar o in
  _ ← exit_position symbol bar session at_;
  _ ← trade (emit "portfolio" MARK at_ None
        (mkDetails None None None (Some (b_close bar)) None None None None (Some symbol) None None));
  _ ← trade (guard at_);
  e ← get;
  bars ← lift (of_option KeyError (find (en_history e) symbol));
  modify (with_candle (store (en_history e) symbol (bars ++ [bar])) ({[(symbol, b_start bar)]} ∪ en_seen e)
            (en_candle_ids e ++ [digest (symbol +:+ model_dump_json bar)%string])).

(** [sorted(completed, key=self.rank.__getitem__)] *)
Definition rank_exactly (symbol : string) : res Z :=
  match list_find (fun s => s = symbol) universe with Some (i, _) => Ok (Z.of_nat i) | None => Err KeyError end.
Definition ranked (symbols : list string) : res (list string) :=
  keyed ← mapR (fun s => k ← rank_exactly s; Ok (k, s)) symbols;
  Ok (sort_by (fun a b => a.1 <=? b.1) keyed).*2.

(** The signal of a request on its completed candle. *)
Definition decide_signal (completed : list (string * Completed)) (at_ : Z) (r : Request) : exec Engine unit :=
  let symbol := rq_symbol r in
  e ← get;
  bars ← lift (of_option KeyError (find (en_history e) symbol));
  fires ← lift (entry_signal bars (rq_definition r));
  when! fires do (
    o ← lift (of_option KeyError (find completed symbol));
    signal ← lift (event symbol (rq_definition r) (cm_bar o) at_);
    let reject := if co_halted (en_portfolio e) then Some "PAPER_HALT"%string
                  else if cf_cutoff (st_config (en_setup e)) <=? at_ then Some "ENTRY_CUTOFF"%string else None in
    let k := pe_idempotency_key signal in
    let key := digest (st_identifier (en_setup e) +:+ k)%string in
    _ ← modify (fun e => with_decisions
          (en_decisions e ++ [mkDecision at_ symbol (df_identifier (rq_definition r)) k reject]) e);
    _ ← trade (emit key PROPOSED at_ (Some r)
          (mkDetails (Some k) None None None None None None None None None None));
    e ← get;
    match reject with
    | Some why => trade (emit key REJECTED at_ None (because why))
    | None =>
        if bool_decide (k ∈ co_consumed (en_portfolio e)) then trade (emit key REJECTED at_ None (because "DUPLICATE_SIGNAL"))
        else
          _ ← trade (modify (fun c => with_consumed ({[k]} ∪ co_consumed c) c));
          modify (fun e => with_pending (store (en_pending e) key r) e)
    end).

(** A pending order is entered at its opening, or cancelled. *)
Definition settle_pending (opening : list (string * Opening)) (at_ : Z) (x : string * Request) : exec Engine unit :=
  let '(key, r) := x in
  let symbol := rq_symbol r in
  e ← get;
  let cutoff := cf_cutoff (st_config (en_setup e)) in
  _ ← (match find opening symbol with
       | Some o =>
           if (cutoff <=? at_) || co_halted (en_portfolio e)
           then trade (emit key CANCELLED at_ None (because "CUTOFF_HALT_OR_MISSING_OPENING"))
           else
             slip ← lift (pdiv (se_slippage_bps (rq_settings r)) (dZ 10000));
             factor ← lift (padd (dZ 1) slip);
             price ← lift (pmul (op_price o) factor);
             trade (enter key r price (se_quantity (rq_settings r)) at_ (st_control (en_setup e)))
       | None =>
           _ ← trade (emit key CANCELLED at_ None (because "CUTOFF_HALT_OR_MISSING_OPENING"));
           when! at_ <? cutoff do session_halt "MISSING_ENTRY_OPENING" at_
       end);
  modify (fun e => with_pending (discard (en_pending e) key) e).

Definition reconcile (at_ : Z) : exec Engine unit :=
  e ← get;
  _ ← when! bool_decide (en_state e = PAPER_HALTED) do transition EOD_LIQUIDATION;
  _ ← transition RECONCILING;
  e ← get;
  a ← lift (account (en_portfolio e));
  _ ← (if co_halted (en_portfolio e) || negb (is_nil (pa_positions a)) || negb (is_nil (pa_reservations a))
       then session_halt "EOD_INCOMPLETE" at_ else transition COMPLETED);
  e ← get;
  trade (emit "portfolio" SESSION_END at_ None
    (mkDetails None None None None None None None None None (Some (bool_decide (en_state e = COMPLETED))) None)).

(** The states in which a session accepts candles. *)
Definition in_session (s : SessionState) : bool :=
  match s with SESSION_OPEN | RUNNING | ENTRY_CUTOFF | PAPER_HALTED => true | _ => false end.

(** A step up to its end of day: transitions, candles, signals, pending orders. *)
Definition trading_step (session : DatedSession) (command : Command) : exec Engine unit :=
  e ← get;
  let at_ := cd_at command in
  _ ← (if (cf_cutoff (st_config (en_setup e)) <=? at_) &&
          bool_decide (en_state e ∈ [SESSION_OPEN; RUNNING]) then transition ENTRY_CUTOFF
       else when! bool_decide (en_state e = SESSION_OPEN) do transition RUNNING);
  e ← get;
  '(completed, opening) ← lift (observations e session command);
  _ ← when! bool_decide (cd_kind command = CloseSession) do transition EOD_LIQUIDATION;
  symbols ← lift (ranked completed.*1);
  _ ← each (process_candle completed session at_) symbols;
  e ← get;
  _ ← when! (co_halted (en_portfolio e) && negb (bool_decide (en_state e = PAPER_HALTED))) do transition PAPER_HALTED;
  _ ← each (decide_signal completed at_) (st_requests (en_setup e));
  e ← get;
  each (settle_pending opening at_) (en_pending e).

Definition step_session (command : Command) : exec Engine unit :=
  e ← get;
  let at_ := cd_at command in
  match st_session (en_setup e) with
  | None => lift (Err (ValueError "SESSION_NOT_OPEN"))
  | Some session =>
      _ ← raises_if (negb (in_session (en_state e))) "SESSION_NOT_OPEN";
      _ ← raises_if (negb ((ds_start session <? at_) && (at_ <=? ds_end session))) "OUT_OF_SESSION";
      let closing := bool_decide (cd_kind command = CloseSession) in
      _ ← raises_if (negb (Bool.eqb closing (at_ =? ds_end session))) "CLOSE_BOUNDARY";
      _ ← trading_step session command;
      when! closing do reconcile at_
  end.

(** The body of the [try]. *)
Definition perform_command (command : Command) : exec Engine unit :=
  e ← get;
  _ ← raises_if (terminal (en_state e)) "TERMINAL_SESSION";
  _ ← raises_if (match en_clock e with Some now => cd_at command <=? now | None => false end) "CLOCK_ROLLBACK_OR_DUPLICATE";
  risk ← lift (policy_fingerprint (st_policy (en_setup e)));
  bound ← lift (of_option KeyError (st_binding (en_setup e) !! "risk_hash"%string));
  execution ← lift (of_option KeyError (st_binding (en_setup e) !! "execution_hash"%string));
  _ ← raises_if (negb (bool_decide (bound = JStr risk)) || negb (bool_decide (execution = JStr execution_fingerprint)))
        "POLICY_MUTATION";
  match cd_kind command with
  | Preflight => preflight command
  | OpenSession => open_session command
  | Step | CloseSession => step_session command
  end.

(** [max(at, self.clock) if self.clock else at] *)
Definition clock_after (e : Engine) (at_ : Z) : Z := match en_clock e with Some now => Z.max at_ now | None => at_ end.
Definition recover : exec Engine unit :=
  e ← get;
  let prior := en_state e in
  _ ← raises_if (stopped prior) "RECOVERY_REJECTED";
  _ ← transition RECOVERY_PENDING;
  transition prior.

(** ** The audit row of a command *)

Definition transition_json (x : SessionState * SessionState) : json :=
  JObj [("previous", JStr (session_state_text x.1)); ("state", JStr (session_state_text x.2))]%string.
Definition session_row_fields (r : SessionRow) : list (string * json) :=
  [("sequence", JInt (sn_sequence r)); ("session_id", JStr (sn_session_id r));
   ("trading_date", JStr (date_text (sn_trading_date r))); ("timestamp", JStr (iso (sn_at r)));
   ("command", sn_command r); ("recovered", JBool (sn_recovered r)); ("state", JStr (session_state_text (sn_state r)));
   ("transitions", JArr (transition_json <$> sn_transitions r)); ("calendar_hash", JStr (sn_calendar_hash r));
   ("registry_hash", sn_registry r); ("qualifications", sn_qualifications r); ("datasets", sn_datasets r);
   ("risk_version", JStr VERSION); ("risk_hash", JStr (sn_risk_hash r)); ("execution_version", JStr EXECUTION_VERSION);
   ("execution_hash", JStr execution_fingerprint); ("candle_ids", JArr (JStr <$> sn_candle_ids r));
   ("portfolio_events", JArr (event_json <$> sn_events r)); ("account", JObj (account_fields (sn_account r)));
   ("rejection", jopt JStr (sn_rejection r)); ("previous_hash", JStr (sn_previous_hash r))]%string.
Definition session_row_dict (r : SessionRow) : gmap string json := list_to_map (session_row_fields r).
Definition session_row_text (r : SessionRow) : bytes := dict_text (session_row_dict r).
Definition last_row_hash (l : list SessionRow) : string :=
  match last l with Some r => sn_current_hash r | None => GENESIS end.

(** The row that closes a command; [begin] counts the portfolio events before it. *)
Definition append_row (command : Command) (recovered : bool) (begin : nat) (reason : option string) : exec Engine SessionRow :=
  e ← get;
  let s := en_setup e in
  _ ← raises_if ((LIMIT <=? Z.of_nat (length (en_audit e))) ||
                 (LIMIT <=? Z.of_nat (length (co_events (en_portfolio e))))) "SESSION_JOURNAL_LIMIT";
  now ← lift (of_option AssertionError (en_clock e));
  registry_ ← lift (of_option KeyError (st_binding s !! "registry"%string));
  qualifications ← lift (of_option KeyError (st_binding s !! "qualifications"%string));
  datasets ← lift (of_option KeyError (st_binding s !! "datasets"%string));
  risk ← lift (policy_fingerprint (st_policy s));
  a ← lift (account (en_portfolio e));
  let row current :=
    mkSessionRow (Z.of_nat (length (en_audit e))) (st_identifier s) (cf_trading_date (st_config s)) now
      (model_dump_json_value command) recovered (en_state e) (en_transitions e) (calendar_fingerprint (st_calendar s))
      registry_ qualifications datasets risk (en_candle_ids e) (drop begin (co_events (en_portfolio e))) a reason
      (last_row_hash (en_audit e)) current in
  let r := row (sha (session_row_text (row ""%string))) in
  _ ← modify (fun e => with_audit (en_audit e ++ [r]) e);
  mret r.

Definition apply (command : Command) (recovered : bool) : exec Engine SessionRow :=
  e ← get;
  _ ← raises_if (terminal (en_state e)) "TERMINAL_SESSION";
  _ ← modify (fun e => with_candle (en_history e) (en_seen e) [] (with_state (en_state e) [] e));
  let begin := length (co_events (en_portfolio e)) in
  _ ← when! recovered do recover;
  reason ← catch (perform_command command)
             (fun reason => e ← get; session_halt reason (clock_after e (cd_at command)));
  _ ← modify (fun e => with_clock (Some (clock_after e (cd_at command))) e);
  append_row command recovered begin reason.

(** ** Reports *)

Definition decision_json (d : Decision) : json :=
  JObj [("timestamp", JStr (iso (dn_at d))); ("symbol", JStr (dn_symbol d));
        ("strategy", JStr (identifier_text (dn_strategy d))); ("signal", JStr (dn_signal d));
        ("rejection", jopt JStr (dn_rejection d))]%string.
Definition session_row_json (r : SessionRow) : json :=
  JObj (session_row_fields r ++ [("current_hash"%string, JStr (sn_current_hash r))]).
Definition session_output (e : Engine) : res (list (string * json)) :=
  of_portfolio ← reports (en_portfolio e);
  a ← account (en_portfolio e);
  Ok (of_portfolio ++
    [("readiness.json", JObj [("scope", JStr "SYNTHETIC_FIXTURE"); ("genuine_ready", JBool false);
                              ("gaps", JArr (JStr <$> en_gaps e)); ("binding", JObj (map_to_list (st_binding (en_setup e))))]);
     ("session-events.json", JArr (session_row_json <$> en_audit e));
     ("candle-processing.json", JArr ((fun x => JObj [("symbol", JStr x.1);
                                                      ("completed", JInt (Z.of_nat (length x.2)))]) <$> en_history e));
     ("session-signals.json", JArr (decision_json <$> en_decisions e));
     ("session-eod.json", JObj [("state", JStr (session_state_text (en_state e)));
                                ("complete", JBool (bool_decide (en_state e = COMPLETED)));
                                ("account", JObj (account_fields a))]);
     ("replay-verification.json", JObj [("schema", JStr SCHEMA); ("session_id", JStr (st_identifier (en_setup e)));
                                        ("final_hash", JStr (last_row_hash (en_audit e)));
                                        ("scope", JStr "DETERMINISTIC_LOCAL_CHAIN_NOT_ROLLBACK_RESISTANT")])]%string).

(** ** The run over a journal *)

(** The engine, the bytes of the rows so far, and the rows published by this run. *)
Record SessionRun := mkSessionRun { run_engine : Engine; run_bytes : Z; run_published : list bytes }.
Definition ROW_LIMIT : Z := 4 * 1024 * 1024.
Definition JOURNAL_LIMIT : Z := 128 * 1024 * 1024.
Definition row_raw (r : SessionRow) : bytes := canonical (session_row_json r).

(** [bool(read_json(file)[1]["recovered"])] *)
Definition row_recovered (raw : bytes) : res bool :=
  require! Z.of_nat (length raw) <=? ROW_LIMIT else "INPUT_FILE_LIMIT_OR_TYPE";
  v ← json_loads raw;
  require! unique v else "DUPLICATE_JSON_KEY";
  match v with
  | JObj fields => flag ← of_option KeyError (find fields "recovered"%string); Ok (truthy flag)
  | _ => Err TypeError
  end.
(** [existing] holds the files that an earlier run left. *)
Definition recovered_flag (existing : list bytes) (resume : bool) (i : nat) : res bool :=
  match existing !! i with
  | Some raw => row_recovered raw
  | None => Ok (resume && Nat.eqb i (length existing) && Nat.ltb 0 i)
  end.
Definition journal_step (existing : list bytes) (resume verify_only : bool) (x : nat * Command)
    : exec SessionRun unit :=
  let '(i, command) := x in
  recovered ← lift (recovered_flag existing resume i);
  row ← focus run_engine (fun e s => mkSessionRun e (run_bytes s) (run_published s)) (apply command recovered);
  let raw := row_raw row in
  let size := Z.of_nat (length raw) in
  s ← get;
  _ ← modify (fun s => mkSessionRun (run_engine s) (run_bytes s + size) (run_published s));
  _ ← raises_if ((ROW_LIMIT <? size) || (JOURNAL_LIMIT <? run_bytes s + size)) "SESSION_JOURNAL_BYTE_LIMIT";
  match existing !! i with
  | Some old => raises_if (negb (bool_decide (old = raw))) "JOURNAL_REPLAY_MISMATCH"
  | None => when! negb verify_only do modify (fun s => mkSessionRun (run_engine s) (run_bytes s) (run_published s ++ [raw]))
  end.
Definition journal_loop (existing : list bytes) (resume verify_only : bool) (commands : list Command)
    : exec SessionRun unit :=
  each (journal_step existing resume verify_only) (zip (seq 0 (length commands)) commands).

(** ** The directory of a session *)

(** The plan, the rows in order, the reports and the summary by name; [sf_busy] when the
    directory holds a lock or a pending write. *)
Record SessionFolder := mkSessionFolder {
  sf_plan : option bytes; sf_journal : list bytes; sf_reports : gmap string bytes; sf_busy : bool
}.
Definition with_session_plan (raw : bytes) (d : SessionFolder) : SessionFolder :=
  mkSessionFolder (Some raw) (sf_journal d) (sf_reports d) (sf_busy d).
Definition with_session_rows (rows : list bytes) (d : SessionFolder) : SessionFolder :=
  mkSessionFolder (sf_plan d) (sf_journal d ++ rows) (sf_reports d) (sf_busy d).
Definition with_session_report (name : string) (raw : bytes) (d : SessionFolder) : SessionFolder :=
  mkSessionFolder (sf_plan d) (sf_journal d) (<[name := raw]> (sf_reports d)) (sf_busy d).

Definition run_summary (e : Engine) (payloads : list (string * bytes)) : res json :=
  let s := en_setup e in
  a ← account (en_portfolio e);
  risk ← policy_fingerprint (st_policy s);
  Ok (JObj [("schema", JStr SCHEMA); ("session_id", JStr (st_identifier s)); ("state", JStr (session_state_text (en_state e)));
            ("scope", JStr "SYNTHETIC_FIXTURE"); ("complete", JBool (bool_decide (en_state e = COMPLETED)));
            ("genuine_qualified", JInt 0); ("account", JObj (account_fields a)); ("risk_version", JStr VERSION);
            ("risk_hash", JStr risk); ("execution_version", JStr EXECUTION_VERSION);
            ("execution_hash", JStr execution_fingerprint); ("calendar_hash", JStr (calendar_fingerprint (st_calendar s)));
            ("cutoff_hash", JStr (sha (canonical (model_dump_json_value (st_config s)))));
            ("reports", JObj ((fun x => (x.1, JStr (sha x.2))) <$> payloads));
            ("final_hash", JStr (last_row_hash (en_audit e))); ("operational", JStr "NO_GO");
            ("Gate_A", JStr "NOT_AUTHORIZED"); ("Gate_B", JStr "NOT_AUTHORIZED")])%string.
(** The files of a session that has stopped, its summary last, and the summary. *)
Definition session_files (e : Engine) : res (list (string * bytes) * json) :=
  output ← session_output e;
  let payloads := (fun x => (x.1, canonical x.2)) <$> output in
  reject! 256 * 1024 * 1024 <? foldr (fun x n => Z.of_nat (length x.2) + n) 0 payloads as "REPORT_BUDGET";
  summary ← run_summary e payloads;
  Ok (payloads ++ [("summary.json"%string, canonical summary)], summary).
Definition report_step (verify_only : bool) (x : string * bytes) : exec SessionFolder unit :=
  d ← get;
  match sf_reports d !! x.1 with
  | Some old => raises_if (negb (bool_decide (old = x.2))) (if verify_only then "COMPLETED_REPORT_MISMATCH" else "CONTENT_CONFLICT")
  | None => if verify_only then raises_if true "COMPLETED_REPORT_MISMATCH" else modify (with_session_report x.1 x.2)
  end.

(** What a run returns, besides the engine that it leaves. *)
Inductive SessionResult :=
| Checkpointed (report : json)
| Summarised (summary : json).
Definition finish_session (verify_only : bool) (e : Engine) : exec SessionFolder SessionResult :=
  if negb (stopped (en_state e)) then
    _ ← raises_if verify_only "INCOMPLETE_REPLAY";
    a ← lift (account (en_portfolio e));
    mret (Checkpointed (JObj [("schema", JStr SCHEMA); ("state", JStr (session_state_text (en_state e)));
                              ("checkpointed", JBool true); ("complete", JBool false);
                              ("account", JObj (account_fields a))]%string))
  else
    '(files, summary) ← lift (session_files e);
    _ ← each (report_step verify_only) files;
    mret (Summarised summary).

(** The checks on the directory, before the lock is taken. *)
Definition folder_checks (plan : bytes) (commands : list Command) (resume verify_only : bool) (d : SessionFolder) : res unit :=
  let existing := sf_journal d in
  let closed := bool_decide (is_Some (sf_reports d !! "summary.json"%string)) in
  reject! match sf_plan d with Some old => negb (bool_decide (old = plan)) | None => false end as "CHECKPOINT_BINDING_MISMATCH";
  reject! closed && negb verify_only as "COMPLETED_OR_HALTED_SESSION_CANNOT_REOPEN";
  reject! Nat.ltb (length commands) (length existing) as "CORRUPT_OR_MISSING_JOURNAL";
  reject! negb (is_nil existing) && negb resume && negb verify_only as "EXPLICIT_RECOVERY_REQUIRED";
  reject! verify_only && (negb (Nat.eqb (length existing) (length commands)) || negb closed) as "INCOMPLETE_REPLAY";
  reject! sf_busy d as "AMBIGUOUS_OWNER_OR_PENDING_WRITE";
  Ok tt.
Definition session_run (requests : list Request) (policy : Policy) (control : Control) (calendar : Calendar)
    (config : Configuration) (crash : option string) (commands : list Command) (resume verify_only : bool)
    : exec SessionFolder (Engine * SessionResult) :=
  _ ← raises_if (is_nil commands || (1000 <? Z.of_nat (length commands))) "COMMAND_BUDGET";
  e ← lift (engine_init requests policy control calendar config crash);
  let plan := dict_text (st_binding (en_setup e)) in
  d ← get;
  _ ← lift (folder_checks plan commands resume verify_only d);
  _ ← when! negb verify_only do modify (with_session_plan plan);
  _ ← lift (if bool_decide (crash = Some "CREATED"%string) then Err (InterruptedError "SYNTHETIC_CRASH:CREATED") else Ok tt);
  let '(s, outcome) := journal_loop (sf_journal d) resume verify_only commands (mkSessionRun e 0 []) in
  _ ← modify (with_session_rows (run_published s));
  _ ← lift outcome;
  result ← finish_session verify_only (run_engine s);
  mret (run_engine s, result).
End scheduler.
