(* ===== verification/SchedulerFacts.v ===== *)
(** * Invariants of the session scheduler

    What every command keeps, whether it succeeds, is rejected or stops: the portfolio's
    journal only grows, a halt is never undone, and every change of the session's state
    is recorded and allowed.  [executes] specifies the rows that the commands write, and
    [session_run_spec] that a run, of any kind, is an execution of its commands. *)
From S2P Require Import Prelude Decimal DecimalFacts Text Dataset Costs Phase14 Strategies Execution Json JsonFacts JsonRead CanonicalPolicy Research Exec Qualification Chain PyText Paper.
From S2P Require Import Portfolio PortfolioRun PortfolioFacts PortfolioInvariant PortfolioSteps Scheduler.
Open Scope list_scope.
Open Scope Z_scope.

(** ** The portfolio, exceptions included *)

(** The high-water mark and the drawdown of a watch only rise, its limit stays. *)
Definition watch_le (w w' : option Watch) : Prop :=
  match w, w' with
  | Some w, Some w' =>
      (dval (wt_high_water w) <= dval (wt_high_water w'))%Q /\
      (dval (wt_maximum_drawdown w) <= dval (wt_maximum_drawdown w'))%Q /\
      wt_cumulative_limit w' = wt_cumulative_limit w
  | None, None => True
  | _, _ => False
  end.
#[export] Instance watch_le_preorder : PreOrder watch_le.
Proof.
  split.
  - intros [w|]; [|done]. split; [apply Qle_refl|]. split; [apply Qle_refl|done].
  - intros [w|] [w1|] [w2|]; try done. intros (A1 & A2 & A3) (B1 & B2 & B3).
    split; [by eapply Qle_trans|]. split; [by eapply Qle_trans|congruence].
Qed.

(** The journal has grown and the flag has not been cleared. *)
Record grown (c0 c : Coordinator) : Prop := {
  gr_events : exists l, co_events c = co_events c0 ++ l;
  gr_halted : co_halted c0 = true -> co_halted c = true;
  gr_watch : watch_le (co_watch c0) (co_watch c)
}.
Lemma grown_refl c : grown c c.
Proof. split; [exists []; by rewrite app_nil_r|done|reflexivity]. Qed.
Lemma grown_same c0 c c' : co_events c' = co_events c -> (co_halted c = true -> co_halted c' = true) ->
  watch_le (co_watch c) (co_watch c') -> grown c0 c -> grown c0 c'.
Proof. intros He Hh Hw [H1 H2 H3]. split; [by rewrite He|auto|by etrans]. Qed.
Lemma grown_trans c0 c1 c2 : grown c0 c1 -> grown c1 c2 -> grown c0 c2.
Proof. intros [(l1 & E1) H1 W1] [(l2 & E2) H2 W2]. split; [exists (l1 ++ l2); by rewrite E2, E1, app_assoc|auto|by etrans]. Qed.

Section portfolio.
Context `{Dump Row} `{DumpPython Policy}.

Ltac grown_tac := always_tac; try (apply always_modify; intros ? Hg; eapply grown_same; [| | |exact Hg]; [reflexivity|exact (fun h => h)|reflexivity]).

Lemma grown_record key state at_ v previous before c0 : always (grown c0) (record_event key state at_ v previous before).
Proof.
  unfold record_event. apply always_get_bind. intros c Hc.
  apply wpx_bind, wpx_lift; [intros after _|done]. apply wpx_bind, wpx_lift; [intros hash _|done].
  apply wpx_bind, wpx_lift; [intros scope _|done]. apply wpx_bind, wpx_lift; [intros delta _|done].
  apply wpx_bind, wpx_lift; [intros delta' _|done]. apply wpx_modify.
  eapply grown_trans; [exact Hc|]. split; [|exact (fun h => h)|reflexivity]. eexists. reflexivity.
Qed.
Lemma grown_plain key state at_ r v c0 : always (grown c0) (portfolio_emit key state at_ r v).
Proof.
  unfold portfolio_emit, super_emit, move_order, apply_event, reserve, fill, close, store_order. grown_tac.
  - apply always_modify. intros c Hg. eapply grown_same; [| | |exact Hg]; [reflexivity|done|reflexivity].
  - apply grown_record.
Qed.
Lemma grown_halt at_ reason c0 : always (grown c0) (halt at_ reason).
Proof. unfold halt. grown_tac. apply grown_plain. Qed.
Lemma grown_guard at_ c0 : always (grown c0) (guard at_).
Proof.
  unfold guard. apply always_bind; [unfold daily_guard; grown_tac; apply grown_halt|intros _].
  apply always_get_bind. intros c Hc. destruct (co_watch c) as [w|] eqn:Hw; [|by apply wpx_ret].
  unfold watch_drawdown. apply wpx_bind, wpx_get, wpx_bind, wpx_lift; [intros a _|done].
  apply wpx_bind, wpx_modify. set (high := dmax _ _).
  assert (Hhigh : (dval (wt_high_water w) <= dval high)%Q) by apply dmax_ge_l.
  apply wpx_bind, wpx_lift; [intros below _|intros e _]; [apply wpx_bind, wpx_modify|];
    [eapply wpx_mono; [apply (always_when (grown c0)); [intros _; apply grown_halt|]|done..]|];
    (eapply grown_same; [| | |exact Hc]; [reflexivity|exact (fun h => h)|]); rewrite Hw; cbn;
    (split; [exact Hhigh|split; [first [apply Qle_refl|apply dmax_ge_l]|reflexivity]]).
Qed.
Lemma grown_emit key state at_ r v c0 : always (grown c0) (emit key state at_ r v).
Proof. unfold emit. grown_tac; [apply grown_plain|apply grown_guard]. Qed.
Lemma grown_enter key r price quantity at_ control c0 : always (grown c0) (enter key r price quantity at_ control).
Proof. unfold enter, buy. grown_tac; auto using grown_emit, grown_halt. Qed.
End portfolio.

(** ** The engine, exceptions included *)

(** A walk of the session: each move leaves a state that is not terminal for another
    state that is allowed from it. *)
Inductive walk : SessionState -> list (SessionState * SessionState) -> SessionState -> Prop :=
| walk_nil s : walk s [] s
| walk_snoc s l t u : walk s l t -> terminal t = false -> u ∈ allowed t -> u <> t -> walk s (l ++ [(t, u)]) u.
(** The states that a session reaches before it reconciles. *)
Definition early (s : SessionState) : bool := match s with RECONCILING | COMPLETED => false | _ => true end.

Lemma walk_early s l t : walk s l t -> Forall (fun x => early x.2 = true) l -> early s = true -> early t = true.
Proof.
  destruct 1 as [s|s l t u _ _ _ _]; [done|]. intros Hl _. apply Forall_app in Hl as [_ Hl]. by apply Forall_cons in Hl as [Hl _].
Qed.
Lemma walk_trans s l t l' u : walk s l t -> walk t l' u -> walk s (l ++ l') u.
Proof.
  intros Hw. induction 1 as [t|t l' v w _ IH Ht Hin Hne]; [by rewrite app_nil_r|]. rewrite app_assoc. econstructor; eauto.
Qed.

(** What the steps from [e0] to [e] keep; every state they enter satisfies [P]. *)
Record ran (P : SessionState -> Prop) (e0 e : Engine) : Prop := {
  rn_setup : en_setup e = en_setup e0;
  rn_clock : en_clock e = en_clock e0;
  rn_audit : en_audit e = en_audit e0;
  rn_walk : exists l, en_transitions e = en_transitions e0 ++ l /\ walk (en_state e0) l (en_state e) /\ Forall (fun x => P x.2) l;
  rn_portfolio : grown (en_portfolio e0) (en_portfolio e)
}.

Section engine.
Context (P : SessionState -> Prop).

Lemma ran_refl e : ran P e e.
Proof. split; try done; [|apply grown_refl]. exists []. rewrite app_nil_r. split_and!; [done|constructor|constructor]. Qed.
Lemma ran_frame e0 e e' : en_setup e' = en_setup e -> en_clock e' = en_clock e -> en_audit e' = en_audit e ->
  en_transitions e' = en_transitions e -> en_state e' = en_state e -> en_portfolio e' = en_portfolio e ->
  ran P e0 e -> ran P e0 e'.
Proof. intros E1 E2 E3 E4 E5 E6 [? ? ? ? ?]. by split; rewrite ?E1, ?E2, ?E3, ?E4, ?E5, ?E6. Qed.

Lemma ran_transition state e0 : P state -> always (ran P e0) (transition state).
Proof.
  intros HP. unfold transition. apply always_get_bind. intros e Hr.
  apply wpx_bind, wpx_raises_if; [|done]. intros Ht. apply wpx_bind, wpx_raises_if; [|done]. intros Hg.
  apply wpx_bind, wpx_modify, wpx_lift; intros; destruct Hr as [R1 R2 R3 (l & R4 & R5 & R6) R7]; split; try done;
    (exists (l ++ [(en_state e, state)]); cbn [with_state en_transitions en_state]; rewrite R4, app_assoc;
     split; [done|]; split; [bool_inv; by constructor|apply Forall_app; split; [done|by apply Forall_singleton]]).
Qed.
Lemma ran_trade {A} (m : exec Coordinator A) e0 : (forall c0, always (grown c0) m) -> always (ran P e0) (trade m).
Proof.
  intros Hm. apply always_focus. intros e [R1 R2 R3 R4 R5]. eapply wpx_mono; [apply (Hm _ _ R5)| |];
    intros; by split.
Qed.

Context (HP : forall s, early s = true -> P s).
Context `{Dump Definition_} `{Dump Bar} `{Dump Row} `{Dump Risk} `{Dump Dataset_} `{Dump Phase14.Policy}.
Context `{DumpPython Policy}.
Context (uncertain : Metrics -> bool) (software_hash : string) (universe : list string).

Lemma ran_halt reason at_ e0 : always (ran P e0) (session_halt reason at_).
Proof.
  unfold session_halt. always_tac; [apply ran_trade; intros; apply grown_halt|]. by apply ran_transition, HP.
Qed.

(** [ran_tac] closes the changes of the state that are left by [always_tac]. *)
Ltac ran_tac :=
  always_tac;
  try first
    [ apply ran_transition; apply HP; reflexivity
    | apply ran_halt
    | apply ran_trade; intros ?; first [apply grown_emit | apply grown_guard | apply grown_enter]
    | apply always_modify; intros ? Hr; eapply ran_frame; [.. |exact Hr]; reflexivity ].

Lemma ran_preflight command e0 : always (ran P e0) (preflight uncertain software_hash universe command).
Proof. unfold preflight. ran_tac. Qed.
Lemma ran_open command e0 : always (ran P e0) (open_session command).
Proof. unfold open_session. ran_tac. Qed.
Lemma ran_candle completed session at_ symbol e0 : always (ran P e0) (process_candle completed session at_ symbol).
Proof. unfold process_candle, exit_position, exit_order. ran_tac. Qed.
Lemma ran_signal completed at_ r e0 : always (ran P e0) (decide_signal completed at_ r).
Proof.
  unfold decide_signal. ran_tac. apply ran_trade. intros c0. apply always_modify. intros c Hg.
  eapply grown_same; [| | |exact Hg]; [reflexivity|exact (fun h => h)|reflexivity].
Qed.
Lemma ran_pending opening at_ x e0 : always (ran P e0) (settle_pending opening at_ x).
Proof. unfold settle_pending. ran_tac. Qed.

Lemma ran_trading session command e0 : always (ran P e0) (trading_step universe session command).
Proof. unfold trading_step. ran_tac; [apply ran_candle|apply ran_signal|apply ran_pending]. Qed.
End engine.

(** ** Commands *)

Definition any (s : SessionState) : Prop := True.
Lemma any_early s : early s = true -> any s.
Proof. done. Qed.

Section commands.
Context `{Dump Definition_} `{Dump Bar} `{Dump Row} `{Dump Risk} `{Dump Dataset_} `{Dump Phase14.Policy} `{Dump Request}.
Context `{DumpPython Policy} `{DumpJson Calendar} `{DumpJson Command}.
Context (uncertain : Metrics -> bool) (software_hash : string) (universe : list string).

Lemma ran_reconcile at_ e0 : always (ran any e0) (reconcile at_).
Proof.
  unfold reconcile. always_tac; try (by apply ran_transition); try (apply ran_halt, any_early).
  apply ran_trade. intros ?. apply grown_emit.
Qed.
Lemma ran_perform command e0 : always (ran any e0) (perform_command uncertain software_hash universe command).
Proof.
  unfold perform_command, step_session. always_tac;
    auto using ran_preflight, ran_open, ran_trading, ran_reconcile, any_early.
Qed.
Lemma ran_recover e0 : always (ran any e0) recover.
Proof. unfold recover. always_tac; by apply ran_transition. Qed.

(** What a command does to an engine, and what its row says. *)
Record applied (e : Engine) (command : Command) (row : SessionRow) (e' : Engine) : Prop := {
  ap_open : terminal (en_state e) = false;
  ap_setup : en_setup e' = en_setup e;
  ap_audit : en_audit e' = en_audit e ++ [row];
  ap_sequence : sn_sequence row = Z.of_nat (length (en_audit e));
  ap_clock : en_clock e' = Some (sn_at row);
  ap_at : sn_at row = clock_after e (cd_at command);
  ap_state : sn_state row = en_state e';
  ap_walk : walk (en_state e) (sn_transitions row) (en_state e');
  ap_events : co_events (en_portfolio e') = co_events (en_portfolio e) ++ sn_events row;
  ap_halted : co_halted (en_portfolio e) = true -> co_halted (en_portfolio e') = true;
  ap_watch : watch_le (co_watch (en_portfolio e)) (co_watch (en_portfolio e'));
  ap_rejected : sn_rejection row <> None -> co_halted (en_portfolio e') = true /\ en_state e' = PAPER_HALTED;
  ap_account : account (en_portfolio e') = Ok (sn_account row);
  ap_previous : sn_previous_hash row = last_row_hash (en_audit e);
  ap_hash : sn_current_hash row = sha (session_row_text row)
}.

Lemma session_halt_spec reason at_ e e' : session_halt reason at_ e = (e', Ok tt) ->
  co_halted (en_portfolio e') = true /\ en_state e' = PAPER_HALTED.
Proof.
  unfold session_halt. intros E. apply run_bind in E as ([] & e1 & E1 & E). run_step E.
  unfold trade, focus in E1. destruct (halt at_ reason (en_portfolio e)) as [c r] eqn:Eh.
  apply pair_equal_spec in E1 as [<- ->]. apply halt_spec in Eh as [Hh _].
  case_bool_decide as Hs; cbn [when negb] in E.
  - apply run_ret in E as [-> _]. done.
  - unfold transition in E. run_inv E. done.
Qed.

Lemma append_row_inv command recovered begin reason e e' row :
  append_row command recovered begin reason e = (e', Ok row) ->
  e' = with_audit (en_audit e ++ [row]) e /\ sn_sequence row = Z.of_nat (length (en_audit e)) /\
  en_clock e = Some (sn_at row) /\ sn_state row = en_state e /\ sn_transitions row = en_transitions e /\
  sn_events row = drop begin (co_events (en_portfolio e)) /\ sn_rejection row = reason /\
  account (en_portfolio e) = Ok (sn_account row) /\ sn_previous_hash row = last_row_hash (en_audit e) /\
  sn_current_hash row = sha (session_row_text row).
Proof.
  unfold append_row. intros E. run_step E. run_step E. run_step E. apply of_option_Ok in G0. do 5 run_step E.
  cbn zeta in E. run_step E. apply run_ret in E as [-> ->].
  cbn [sn_sequence sn_at sn_state sn_transitions sn_events sn_rejection sn_account sn_previous_hash sn_current_hash].
  split; [reflexivity|]. split; [reflexivity|]. split; [assumption|]. do 4 (split; [reflexivity|]).
  split; [assumption|]. split; reflexivity.
Qed.

(** The steps of a command, from the cleared engine to the row. *)
Lemma apply_steps command recovered e e' row : apply uncertain software_hash universe command recovered e = (e', Ok row) ->
  let e1 := with_candle (en_history e) (en_seen e) [] (with_state (en_state e) [] e) in
  exists e2 e3 reason, terminal (en_state e) = false /\ ran any e1 e2 /\ ran any e2 e3 /\
    catch (perform_command uncertain software_hash universe command)
      (fun reason => e ← get; session_halt reason (clock_after e (cd_at command))) e2 = (e3, Ok reason) /\
    append_row command recovered (length (co_events (en_portfolio e))) reason
      (with_clock (Some (clock_after e3 (cd_at command))) e3) = (e', Ok row).
Proof.
  unfold apply. intros E. run_step E. run_step E. run_step E. apply run_bind in E as ([] & e2 & E2 & E).
  apply run_bind in E as (reason & e3 & E3 & E). run_step E. exists e2, e3, reason.
  split; [exact G|]. split; [|split; [|split; [exact E3|]]].
  - eapply (always_run _ (when recovered recover)); [|apply ran_refl|exact E2]. apply always_when. intros _. apply ran_recover.
  - eapply always_run; [|apply ran_refl|exact E3]. apply always_catch; [apply ran_perform|]. intros msg.
    apply always_bind; [apply always_get|intros ?]. apply ran_halt, any_early.
  - exact E.
Qed.

Lemma apply_applied command recovered e e' row : apply uncertain software_hash universe command recovered e = (e', Ok row) ->
  applied e command row e'.
Proof.
  intros (e2 & e3 & reason & Ht & R1 & R2 & Ec & Ea)%apply_steps.
  apply append_row_inv in Ea as (-> & A1 & A2 & A3 & A4 & A5 & A6 & A7 & A8 & A9).
  destruct R1 as [S1 C1 U1 (l1 & T1 & W1 & _) [(v1 & V1) H1' Q1']], R2 as [S2 C2 U2 (l2 & T2 & W2 & _) [(v2 & V2) H2' Q2']].
  cbn [en_setup en_clock en_audit en_transitions en_state en_portfolio with_candle with_state with_clock] in *.
  rewrite U2, U1 in *. split; cbn [with_audit with_clock en_setup en_audit en_clock en_state en_portfolio]; try assumption; try congruence.
  - injection A2 as <-. unfold clock_after. by rewrite C2, C1.
  - rewrite A4, T2, T1. by eapply walk_trans.
  - rewrite A5, V2, V1, <- app_assoc. by rewrite drop_app_length.
  - auto.
  - by etrans.
  - rewrite A6. intros Hr. apply catch_inv in Ec as [[-> _]|(msg & s1 & -> & _ & Eh)];
      [exfalso; exact (Hr eq_refl)|]. run_step Eh. exact (session_halt_spec _ _ _ _ Eh).
Qed.
End commands.

#[export] Program Instance session_journal : Journal SessionRow := {|
  row_text := session_row_text; previous_hash := sn_previous_hash; current_hash := sn_current_hash
|}.
Next Obligation.
  intros r r' E. apply dict_text_inj in E. apply (f_equal (fun m => m !! "previous_hash"%string)) in E.
  assert (Hd : forall x, session_row_dict x !! "previous_hash"%string = Some (JStr (sn_previous_hash x))).
  { intros x. unfold session_row_dict, session_row_fields. cbn [list_to_map foldr fst snd].
    repeat (rewrite lookup_insert_ne by done). apply lookup_insert_eq. }
  rewrite !lookup_fmap, !Hd in E. cbn in E. by injection E.
Qed.

(** ** Completion *)

Lemma by_key_nil {A} (l : list (string * A)) : by_key l = [] -> l = [].
Proof. unfold by_key. intros E. pose proof (sort_by_perm (fun a b : string * A => String.leb a.1 b.1) l) as Hp. rewrite E in Hp. by apply Permutation_nil_l in Hp. Qed.
Lemma account_nil c a : account c = Ok a -> is_nil (pa_positions a) = true -> is_nil (pa_reservations a) = true ->
  co_positions c = [] /\ co_reservations c = [].
Proof.
  unfold account. intros E Hp Hr. do 9 (let x := fresh in let Hx := fresh in apply bind_Ok in E as (x & Hx & E)).
  unbind E free Ea. unbind E open Eo. apply Ok_inj in E. subst a. cbn in Hp, Hr.
  split.
  - apply by_key_nil. unfold position_orders in Eo. destruct (by_key (co_positions c)) as [|x l]; [done|].
    cbn in Eo. apply bind_Ok in Eo as (y & _ & Eo). apply bind_Ok in Eo as (z & _ & Eo). apply Ok_inj in Eo. by subst open.
  - apply by_key_nil. by destruct (by_key (co_reservations c)).
Qed.

Section completion.
Context `{Dump Definition_} `{Dump Bar} `{Dump Row} `{Dump Risk} `{Dump Dataset_} `{Dump Phase14.Policy} `{Dump Request}.
Context `{DumpPython Policy} `{DumpJson Calendar} `{DumpJson Command}.
Context (uncertain : Metrics -> bool) (software_hash : string) (universe : list string).

Lemma transition_state state e e' : transition state e = (e', Ok tt) ->
  en_state e' = state /\ en_portfolio e' = en_portfolio e.
Proof. unfold transition. intros E. run_inv E. done. Qed.

Lemma trade_inv {A} (m : exec Coordinator A) e e' a : trade m e = (e', Ok a) ->
  exists c, m (en_portfolio e) = (c, Ok a) /\ e' = with_portfolio c e.
Proof.
  unfold trade, focus. destruct (m (en_portfolio e)) as [c r]. intros E. apply pair_equal_spec in E as [<- ->]. eauto.
Qed.

(** Nothing is open, reserved or halted, and the journal ends in a complete session. *)
Definition all_clear (c : Coordinator) : Prop :=
  co_positions c = [] /\ co_reservations c = [] /\ co_halted c = false /\
  exists x, last (co_events c) = Some x /\ pv_state x = SESSION_END /\ dt_complete (pv_details x) = Some true.

Lemma reconcile_clear at_ e e' : reconcile at_ e = (e', Ok tt) -> en_state e' = COMPLETED -> all_clear (en_portfolio e').
Proof.
  unfold reconcile. intros E Hs. run_step E. apply run_bind in E as ([] & e1 & _ & E).
  apply run_bind in E as ([] & e2 & _ & E). run_step E.
  apply run_bind in E as (a & e4 & [-> Ha]%run_lift & E).
  apply run_bind in E as ([] & e3 & E3 & E). run_step E. apply trade_inv in E as (c & E & ->).
  cbn [with_portfolio en_state en_portfolio] in *. rewrite Hs in E.
  destruct (co_halted (en_portfolio e2) || negb (is_nil (pa_positions a)) || negb (is_nil (pa_reservations a))) eqn:Hc.
  - apply session_halt_spec in E3 as [_ E3]. congruence.
  - apply transition_state in E3 as [_ E3]. rewrite E3 in E. apply orb_false_iff in Hc as [Hc Hr].
    apply orb_false_iff in Hc as [Hh Hp]. apply negb_false_iff in Hp, Hr.
    pose proof (account_nil _ _ Ha Hp Hr) as [P1 P2].
    pose proof (emit_portfolio _ _ _ _ _ _ _ (emit_plain _ SESSION_END _ _ _ _ _ eq_refl E) eq_refl) as (_ & Q1 & Q2).
    split; [congruence|]. split; [congruence|].
    split; [rewrite (emit_halted _ SESSION_END _ _ _ _ _ eq_refl E); [exact Hh|discriminate]|].
    apply emit_plain, coordinator_emit_inv in E as (c1 & x & -> & _ & _ & _ & Hx & _); [|done]. exists x. split; [apply last_snoc|].
    split; [exact (re_state _ _ _ _ _ _ _ Hx)|]. by rewrite (re_details _ _ _ _ _ _ _ Hx).
Qed.

Lemma step_completes command e e' : step_session universe command e = (e', Ok tt) -> en_state e' = COMPLETED ->
  cd_kind command = CloseSession /\
  (exists session, st_session (en_setup e) = Some session /\ cd_at command = ds_end session) /\ all_clear (en_portfolio e').
Proof.
  unfold step_session. intros E Hs. run_step E. destruct (st_session (en_setup e)) as [session|] eqn:Hse;
    [|apply run_lift in E as [_ E]; discriminate E].
  do 3 run_step E. apply run_bind in E as ([] & e1 & E1 & E).
  assert (Hearly : early (en_state e1) = true).
  { pose proof (always_run _ _ _ _ _ (ran_trading (fun s => early s = true) (fun _ h => h) universe session command e)
      (ran_refl _ e) E1) as [_ _ _ (l & _ & Hw & Hl) _].
    eapply walk_early; [exact Hw|exact Hl|]. apply negb_false_iff in G. by destruct (en_state e). }
  apply negb_false_iff, Bool.eqb_prop in G1. case_bool_decide as Hk; cbn [when] in E.
  - split; [exact Hk|]. split; [exists session; split; [reflexivity|]; by apply Z.eqb_eq|]. by eapply reconcile_clear.
  - apply run_ret in E as [-> _]. rewrite Hs in Hearly. discriminate Hearly.
Qed.

Lemma perform_completes command e e' : perform_command uncertain software_hash universe command e = (e', Ok tt) ->
  en_state e' = COMPLETED ->
  cd_kind command = CloseSession /\
  (exists session, st_session (en_setup e) = Some session /\ cd_at command = ds_end session) /\ all_clear (en_portfolio e').
Proof.
  unfold perform_command. intros E Hs. do 7 run_step E. destruct (cd_kind command) eqn:Hk.
  - unfold preflight in E. do 6 run_step E. apply transition_state in E as [E _]. congruence.
  - unfold open_session in E. do 2 run_step E. apply transition_state in E as [E _]. congruence.
  - apply step_completes in E as [E _]; [|exact Hs]. congruence.
  - apply step_completes in E; [|exact Hs]. rewrite Hk in E. exact E.
Qed.
End completion.

(** ** Runs of commands *)

Section runs.
Context `{Dump Definition_} `{Dump Bar} `{Dump Row} `{Dump Risk} `{Dump Dataset_} `{Dump Phase14.Policy} `{Dump Request}.
Context `{DumpJson Policy} `{DumpJson Control} `{DumpPython Policy}.
Context `{DumpJson Calendar} `{DumpJson Configuration} `{DumpJson Command}.
Context (uncertain : Metrics -> bool) (software_hash : string) (universe : list string).

(** The audit of a session that started in [CREATED] with an empty journal. *)
Record recorded_session (e : Engine) : Prop := {
  rs_chain : chained (en_audit e);
  rs_time : StronglySorted (fun r s => sn_at r <= sn_at s) (en_audit e);
  rs_clock : en_clock e = sn_at <$> last (en_audit e);
  rs_walk : walk CREATED (concat (sn_transitions <$> en_audit e)) (en_state e);
  rs_events : co_events (en_portfolio e) = concat (sn_events <$> en_audit e)
}.

Lemma engine_init_recorded definition_json universe_hash inventory requests policy control calendar config crash e :
  engine_init definition_json universe_hash universe inventory requests policy control calendar config crash = Ok e ->
  recorded_session e /\ en_audit e = [].
Proof.
  unfold engine_init. intros E. do 5 (let x := fresh in let Hx := fresh in apply bind_Ok in E as (x & Hx & E)).
  apply bind_Ok in E as (bg & _ & E). apply Ok_inj in E. subst e. split; [|reflexivity]. split; cbn; constructor.
Qed.

Lemma apply_recorded command recovered e e' row : recorded_session e ->
  apply uncertain software_hash universe command recovered e = (e', Ok row) ->
  recorded_session e' /\ en_audit e' = en_audit e ++ [row].
Proof.
  intros [Hc Ht Hk Hw He] [A1 A2 A3 A4 A5 A6 A7 A8 A9 A10 AW A11 A12 A13 A14]%apply_applied.
  split; [|exact A3]. split; rewrite ?A3.
  - apply chained_snoc; [exact Hc|exact A13|exact A14].
  - apply sorted_snoc; [exact Ht|]. rewrite A6. apply sorted_last; [exact Ht|]. unfold clock_after. rewrite Hk.
    destruct (last (en_audit e)); cbn; [lia|exact I].
  - rewrite last_snoc. exact A5.
  - rewrite fmap_app, concat_app. cbn [fmap list_fmap concat]. rewrite app_nil_r. by eapply walk_trans.
  - rewrite fmap_app, concat_app. cbn [fmap list_fmap concat]. rewrite app_nil_r, A9, He. reflexivity.
Qed.

(** ** The loop over the journal *)

Abbreviation step := (journal_step uncertain software_hash universe).

(** The rows that the commands write, each with its recovery flag, and the engine after
    them; [n] and [n'] count the bytes of the rows before and after. *)
Inductive executes : Engine -> Z -> list (Command * bool) -> list SessionRow -> Engine -> Z -> Prop :=
| executes_nil e n : executes e n [] [] e n
| executes_cons command recovered l row rows e1 e2 e3 n n' :
    apply uncertain software_hash universe command recovered e1 = (e2, Ok row) ->
    Z.of_nat (length (row_raw row)) <= ROW_LIMIT -> n + Z.of_nat (length (row_raw row)) <= JOURNAL_LIMIT ->
    executes e2 (n + Z.of_nat (length (row_raw row))) l rows e3 n' ->
    executes e1 n ((command, recovered) :: l) (row :: rows) e3 n'.
Lemma executes_length e n l rows e' n' : executes e n l rows e' n' -> length rows = length l.
Proof. induction 1; cbn; lia. Qed.
Lemma executes_recorded e n l rows e' n' : recorded_session e -> executes e n l rows e' n' ->
  recorded_session e' /\ en_audit e' = en_audit e ++ rows.
Proof.
  intros Hr E. revert Hr. induction E as [|command recovered l row rows e1 e2 e3 n n' Ea _ _ _ IH]; intros Hr.
  - by rewrite app_nil_r.
  - apply apply_recorded in Ea as [Hr2 Hl]; [|exact Hr]. destruct (IH Hr2) as [Hr3 Hl3]. split; [exact Hr3|].
    rewrite Hl3, Hl. by rewrite <- app_assoc.
Qed.
(** The flag of a row is the one it was executed with. *)
Lemma apply_flag command recovered e e' row : apply uncertain software_hash universe command recovered e = (e', Ok row) ->
  sn_recovered row = recovered.
Proof.
  intros (e2 & e3 & reason & _ & _ & _ & _ & Ea)%apply_steps. unfold append_row in Ea. do 8 run_step Ea.
  cbn zeta in Ea. run_step Ea. apply run_ret in Ea as [_ ->]. reflexivity.
Qed.
Lemma executes_flags e n l rows e' n' : executes e n l rows e' n' -> sn_recovered <$> rows = l.*2.
Proof. induction 1 as [|? ? ? ? ? ? ? ? ? ? Ea]; [done|]. cbn. f_equal; [by eapply apply_flag|done]. Qed.
Lemma executes_same e n l rows rows' e' e'' n' n'' : executes e n l rows e' n' -> executes e n l rows' e'' n'' ->
  rows = rows' /\ e' = e'' /\ n' = n''.
Proof.
  intros E. revert rows' e'' n''. induction E as [|command recovered l row rows e1 e2 e3 n n' Ea _ _ _ IH]; intros rows' e'' n'' E';
    inversion E' as [|? ? ? row' rows2 ? e2' ? ? ? Ea' _ _ E2]; subst; [done|].
  rewrite Ea in Ea'. injection Ea' as <- <-. apply IH in E2 as (-> & -> & ->). done.
Qed.

(** One command of a run, and the row it compares or publishes. *)
Definition published_by (existing : list bytes) (verify_only : bool) (i : nat) (raw : bytes) : list bytes :=
  match existing !! i with Some _ => [] | None => if verify_only then [] else [raw] end.
Lemma journal_step_spec existing resume verify_only i command s s' :
  step existing resume verify_only (i, command) s = (s', Ok tt) <->
  exists recovered row, recovered_flag existing resume i = Ok recovered /\
    apply uncertain software_hash universe command recovered (run_engine s) = (run_engine s', Ok row) /\
    Z.of_nat (length (row_raw row)) <= ROW_LIMIT /\ run_bytes s + Z.of_nat (length (row_raw row)) <= JOURNAL_LIMIT /\
    (forall raw, existing !! i = Some raw -> raw = row_raw row) /\
    run_bytes s' = run_bytes s + Z.of_nat (length (row_raw row)) /\
    run_published s' = run_published s ++ published_by existing verify_only i (row_raw row).
Proof.
  unfold journal_step, published_by. destruct (recovered_flag existing resume i) as [flag|e]; [|by split; [|intros (? & ? & [=] & _)]].
  unfold mbind, exec_bind, lift, focus, get, modify, raises_if.
  destruct (apply uncertain software_hash universe command flag (run_engine s)) as [e1 [row|x]] eqn:Ea; [|split; [discriminate|]].
  2: { intros (? & ? & [= <-] & Eb & _). by rewrite Ea in Eb. }
  cbn [run_engine run_bytes run_published]. set (size := Z.of_nat (length (row_raw row))).
  destruct ((ROW_LIMIT <? size) || (JOURNAL_LIMIT <? run_bytes s + size)) eqn:Hl; cbn [raise_if].
  { split; [discriminate|]. intros (? & row' & [= <-] & Eb & L1 & L2 & _). rewrite Ea in Eb. injection Eb as _ <-.
    unfold size in Hl. bool_inv. lia. }
  bool_inv. transitivity (mkSessionRun e1 (run_bytes s + size) (run_published s ++
    match existing !! i with Some _ => [] | None => if verify_only then [] else [row_raw row] end) = s' /\
    (forall raw, existing !! i = Some raw -> raw = row_raw row)).
  { unfold when, mret, exec_ret. destruct (existing !! i) as [old|]; [|destruct verify_only; cbn [negb]; rewrite ?app_nil_r;
      (split; [intros [<- _]%pair_equal_spec; by split|by intros [<- _]])].
    rewrite app_nil_r. case_bool_decide as Hx; cbn [negb raise_if].
    - split; [intros [<- _]%pair_equal_spec; split; [done|by intros raw [= <-]]|by intros [<- _]].
    - split; [intros [_ [=]]%pair_equal_spec|intros [_ Hall]; destruct Hx; by apply Hall]. }
  destruct s' as [e2 n2 p2]. cbn [run_engine run_bytes run_published]. split.
  - intros [E Hx]. injection E as <- <- <-. by exists flag, row.
  - intros (? & row' & [= <-] & Eb & _ & _ & Hx & -> & ->). rewrite Ea in Eb. injection Eb as <- <-. done.
Qed.

(** A loop that succeeds executes its commands: a row that was there is the row of its
    command, and the others are published in order. *)
Definition row_at (existing : list bytes) (resume : bool) (i : nat) (row : SessionRow) : Prop :=
  recovered_flag existing resume i = Ok (sn_recovered row) /\ forall raw, existing !! i = Some raw -> raw = row_raw row.
Lemma loop_spec existing resume verify_only k commands s s' :
  each (step existing resume verify_only) (zip (seq k (length commands)) commands) s = (s', Ok tt) <->
  exists rows, length rows = length commands /\
    executes (run_engine s) (run_bytes s) (zip commands (sn_recovered <$> rows)) rows (run_engine s') (run_bytes s') /\
    (forall i row, rows !! i = Some row -> row_at existing resume (k + i) row) /\
    run_published s' = run_published s ++ (if verify_only then [] else row_raw <$> drop (length existing - k) rows).
Proof.
  revert k s. induction commands as [|command commands IH]; intros k s; cbn [zip seq length zip_with each].
  - split.
    + intros [-> _]%run_ret. exists []. split; [done|]. split; [constructor|]. split; [by intros|].
      rewrite drop_nil. destruct verify_only; by rewrite app_nil_r.
    + intros (rows & Hl & E & _ & Hp). destruct rows; [|discriminate Hl]. rewrite drop_nil in Hp. inversion E; subst.
      destruct s, s'; cbn in *. subst. destruct verify_only; by rewrite app_nil_r.
  - split.
    + intros ([] & s1 & E1 & E)%run_bind. apply journal_step_spec in E1 as (flag & row & Hf & Ea & L1 & L2 & Hx & Hb & Hp).
      apply IH in E as (rows & Hl & E & Hr & Hp2). pose proof (apply_flag _ _ _ _ _ Ea) as Hflag. exists (row :: rows).
      split; [cbn; lia|]. split; [|split].
      * cbn. rewrite Hflag. eapply executes_cons; [exact Ea|done|done|]. by rewrite <- Hb.
      * intros [|i] r Hi; cbn in Hi; [injection Hi as <-; rewrite Nat.add_0_r; split; [by rewrite Hflag|exact Hx]|].
        rewrite <- Nat.add_succ_comm. by apply Hr.
      * rewrite Hp2, Hp, <- app_assoc. f_equal. unfold published_by. destruct (existing !! k) as [old|] eqn:Hk.
        -- apply lookup_lt_Some in Hk. by replace (length existing - k)%nat with (S (length existing - S k)) by lia.
        -- apply lookup_ge_None in Hk. replace (length existing - k)%nat with 0%nat by lia.
           replace (length existing - S k)%nat with 0%nat by lia. by destruct verify_only.
    + intros (rows & Hl & E & Hr & Hp). destruct rows as [|row rows]; [discriminate Hl|]. cbn [fmap list_fmap zip zip_with] in E.
      inversion E as [|? ? ? ? ? ? e2 ? ? ? Ea L1 L2 E2]; subst. apply run_bind.
      exists tt, (mkSessionRun e2 (run_bytes s + Z.of_nat (length (row_raw row)))
        (run_published s ++ published_by existing verify_only k (row_raw row))). split.
      * apply journal_step_spec. destruct (Hr 0%nat row eq_refl) as [Hf Hx]. rewrite Nat.add_0_r in Hf, Hx.
        exists (sn_recovered row), row. cbn [run_engine run_bytes run_published]. done.
      * apply IH. exists rows. cbn [run_engine run_bytes run_published]. split; [cbn in Hl; lia|]. split; [exact E2|]. split.
        -- intros i r Hi. rewrite Nat.add_succ_comm. by apply Hr.
        -- rewrite Hp, <- app_assoc. f_equal. unfold published_by. destruct (existing !! k) as [old|] eqn:Hk.
           ++ apply lookup_lt_Some in Hk. by replace (length existing - k)%nat with (S (length existing - S k)) by lia.
           ++ apply lookup_ge_None in Hk. replace (length existing - k)%nat with 0%nat by lia.
              replace (length existing - S k)%nat with 0%nat by lia. by destruct verify_only.
Qed.

Lemma apply_completes command recovered e e' row :
  apply uncertain software_hash universe command recovered e = (e', Ok row) -> en_state e' = COMPLETED ->
  cd_kind command = CloseSession /\
  (exists session, st_session (en_setup e) = Some session /\ cd_at command = ds_end session) /\
  sn_rejection row = None /\ all_clear (en_portfolio e').
Proof.
  intros (e2 & e3 & reason & Ht & R1 & R2 & Ec & Ea)%apply_steps Hs.
  apply append_row_inv in Ea as (-> & _ & _ & _ & _ & _ & A6 & _ & _ & _).
  cbn [with_audit with_clock en_state en_portfolio] in *.
  apply catch_inv in Ec as [[-> E]|(msg & s1 & _ & _ & Eh)].
  - apply perform_completes in E as (Hk & (session & Hse & Ha) & Hc); [|exact Hs].
    split; [exact Hk|]. split; [|split; [exact A6|exact Hc]]. exists session.
    rewrite (rn_setup _ _ _ R1) in Hse. split; [exact Hse|exact Ha].
  - run_step Eh. apply session_halt_spec in Eh as [_ Eh]. congruence.
Qed.

(** ** The flag that a row records *)

(** A row is a dictionary: no key is written twice. *)
Definition written_once (r : SessionRow) : Prop := unique (session_row_json r) = true.
Lemma all_written_once l : forallb (fun r => unique (session_row_json r)) l = true -> Forall written_once l.
Proof.
  induction l as [|r l IH]; [constructor|]. cbn [forallb]. intros [Hr Hl]%andb_true_iff. constructor; [exact Hr|by apply IH].
Qed.
Lemma find_norm l k v : unique (JObj l) = true -> (k, v) ∈ l -> exists l', norm (JObj l) = JObj l' /\ find l' k = Some (norm v).
Proof.
  intros Hu Hin. pose proof (unique_norm _ Hu) as Hn. cbn [norm] in *. eexists. split; [reflexivity|].
  apply unique_obj in Hn as [Hn _]. apply elem_find; [exact Hn|]. rewrite sort_fields_perm. apply list_elem_of_In, in_map_iff.
  exists (k, v). split; [done|by apply list_elem_of_In].
Qed.
Lemma recovered_canonical l flag : unique (JObj l) = true -> ("recovered"%string, JBool flag) ∈ l ->
  Z.of_nat (length (canonical (JObj l))) <= ROW_LIMIT -> row_recovered (canonical (JObj l)) = Ok flag.
Proof.
  intros Hu Hin Hl. unfold row_recovered. rewrite (proj2 (Z.leb_le _ _) Hl), loads_canonical. cbn [raise_unless mbind res_bind].
  rewrite (unique_norm _ Hu). destruct (find_norm l _ _ Hu Hin) as (l' & -> & Ef). cbn [raise_unless mbind res_bind].
  rewrite Ef. reflexivity.
Qed.
Lemma row_recovered_raw r : written_once r -> Z.of_nat (length (row_raw r)) <= ROW_LIMIT ->
  row_recovered (row_raw r) = Ok (sn_recovered r).
Proof.
  unfold written_once, row_raw, session_row_json. intros Hu Hl. apply recovered_canonical; [exact Hu| |exact Hl].
  apply elem_of_app. left. unfold session_row_fields. do 5 apply list_elem_of_further. apply list_elem_of_here.
Qed.
Lemma executes_small e n l rows e' n' : executes e n l rows e' n' ->
  Forall (fun r => Z.of_nat (length (row_raw r)) <= ROW_LIMIT) rows.
Proof. induction 1; constructor; assumption. Qed.
Lemma rows_at_flags existing resume rows : length existing = length rows ->
  (forall i row, rows !! i = Some row -> row_at existing resume i row) ->
  existing = row_raw <$> rows /\ mapR row_recovered existing = Ok (sn_recovered <$> rows).
Proof.
  revert rows. induction existing as [|raw existing IH]; intros [|row rows] Hl Hr; try discriminate Hl; [done|].
  destruct (Hr 0%nat row eq_refl) as [Hf Hx]. unfold recovered_flag in Hf. cbn [lookup list_lookup] in Hf.
  destruct (IH rows) as [E1 E2]; [cbn in Hl; lia| |].
  - intros i r Hi. destruct (Hr (S i) r Hi) as [Hf' Hx']. split; [|exact Hx']. unfold recovered_flag in *. cbn [lookup list_lookup] in Hf'.
    destruct (existing !! i) eqn:Ei; [exact Hf'|]. apply lookup_lt_Some in Hi. apply lookup_ge_None in Ei. cbn in Hl. lia.
  - split; [cbn; f_equal; [by apply Hx|exact E1]|]. cbn [mapR]. rewrite Hf. cbn [mbind res_bind]. by rewrite E2.
Qed.
Lemma rows_kept existing resume rows : (length existing <= length rows)%nat ->
  (forall i row, rows !! i = Some row -> row_at existing resume i row) ->
  existing ++ (row_raw <$> drop (length existing) rows) = row_raw <$> rows.
Proof.
  intros Hl Hr. rewrite <- (take_drop (length existing) rows) at 2. rewrite fmap_app. f_equal.
  apply list_eq_same_length with (length existing); [by rewrite length_fmap, length_take_le|done|].
  intros i x y Hi Hx Hy. rewrite list_lookup_fmap, lookup_take_lt in Hy by done.
  destruct (rows !! i) as [row|] eqn:Er; [|discriminate Hy]. injection Hy as <-. by apply (Hr i row Er).
Qed.

(** ** The files of a run *)

Definition holds (d : SessionFolder) (files : list (string * bytes)) : Prop :=
  Forall (fun x => sf_reports d !! x.1 = Some x.2) files.
Lemma reports_verified files d d' : each (report_step true) files d = (d', Ok tt) <-> d' = d /\ holds d files.
Proof.
  unfold holds. revert d. induction files as [|x files IH]; intros d; cbn [each].
  - rewrite run_ret. split; [intros [-> _]; by split|by intros [-> _]].
  - rewrite run_bind, Forall_cons. unfold report_step at 1. split.
    + intros ([] & d1 & E1 & E). run_step E1. destruct (sf_reports d !! x.1) as [old|] eqn:Ex.
      * apply run_raises_if in E1 as [-> Hb]. apply negb_false_iff, bool_decide_eq_true in Hb. subst old.
        apply IH in E as [-> Hf]. done.
      * apply run_raises_if in E1 as [_ [=]].
    + intros (-> & Hx & Hf). exists tt, d. split; [|by apply IH]. apply run_bind. exists d, d. split; [done|]. rewrite Hx.
      apply run_raises_if. split; [done|]. by rewrite bool_decide_true.
Qed.
(** Publishing never changes a file that is there. *)
Lemma reports_published files d d' : each (report_step false) files d = (d', Ok tt) ->
  sf_plan d' = sf_plan d /\ sf_journal d' = sf_journal d /\ sf_busy d' = sf_busy d /\ sf_reports d ⊆ sf_reports d' /\ holds d' files.
Proof.
  unfold holds. revert d. induction files as [|x files IH]; intros d E; cbn [each] in E.
  - apply run_ret in E as [-> _]. by repeat split.
  - apply run_bind in E as ([] & d1 & E1 & E). apply IH in E as (P1 & P2 & P3 & P4 & P5). unfold report_step in E1. run_step E1.
    assert (Hd1 : sf_plan d1 = sf_plan d /\ sf_journal d1 = sf_journal d /\ sf_busy d1 = sf_busy d /\ sf_reports d ⊆ sf_reports d1 /\
      sf_reports d1 !! x.1 = Some x.2).
    { destruct (sf_reports d !! x.1) as [old|] eqn:Ex.
      - apply run_raises_if in E1 as [-> Hb]. apply negb_false_iff, bool_decide_eq_true in Hb. subst old. done.
      - apply run_modify in E1 as ->. cbn [with_session_report sf_plan sf_journal sf_busy sf_reports]. split_and!; [done..| |].
        + by apply insert_subseteq.
        + apply lookup_insert_eq. }
    destruct Hd1 as (Q1 & Q2 & Q3 & Q4 & Q5). rewrite P1, P2, P3. split_and!; [done..|by etrans|].
    constructor; [|exact P5]. by apply (lookup_weaken _ _ _ _ Q5 P4).
Qed.

(** ** A run *)

Definition plan_of (e : Engine) : bytes := dict_text (st_binding (en_setup e)).
(** The directory when the reports are due: the plan and all the rows are in it. *)
Definition journalled (e0 : Engine) (verify_only : bool) (rows : list SessionRow) (d : SessionFolder) : SessionFolder :=
  if verify_only then d
  else with_session_rows (row_raw <$> drop (length (sf_journal d)) rows) (with_session_plan (plan_of e0) d).
Record runs_over (crash : option string) (commands : list Command) (resume verify_only : bool) (d : SessionFolder)
    (e0 : Engine) (rows : list SessionRow) (e : Engine) : Prop := {
  ro_commands : is_nil commands || (1000 <? Z.of_nat (length commands)) = false;
  ro_checks : folder_checks (plan_of e0) commands resume verify_only d = Ok tt;
  ro_crash : bool_decide (crash = Some "CREATED"%string) = false;
  ro_length : length rows = length commands;
  ro_executes : exists n, executes e0 0 (zip commands (sn_recovered <$> rows)) rows e n;
  ro_rows : forall i row, rows !! i = Some row -> row_at (sf_journal d) resume i row
}.
Lemma with_no_rows d : with_session_rows [] d = d.
Proof. unfold with_session_rows. rewrite app_nil_r. by destruct d. Qed.
Lemma session_run_spec definition_json universe_hash inventory requests policy control calendar config crash commands
    resume verify_only d d' e result :
  session_run definition_json uncertain software_hash universe_hash universe inventory requests policy control calendar
    config crash commands resume verify_only d = (d', Ok (e, result)) <->
  exists e0 rows,
    engine_init definition_json universe_hash universe inventory requests policy control calendar config crash = Ok e0 /\
    runs_over crash commands resume verify_only d e0 rows e /\
    finish_session verify_only e (journalled e0 verify_only rows d) = (d', Ok result).
Proof.
  unfold session_run. split.
  - intros (u1 & d1 & [-> Hc1]%run_raises_if & E)%run_bind. apply run_bind in E as (e0 & d2 & [-> Hc2]%run_lift & E).
    apply run_bind in E as (? & ? & [-> ->]%run_get & E). apply run_bind in E as ([] & ? & [-> Hc3]%run_lift & E).
    apply run_bind in E as ([] & d2 & Ep & E). apply run_bind in E as ([] & ? & [-> Hc4]%run_lift & E).
    destruct (journal_loop _ _ _ _ _ _ _ _) as [s outcome] eqn:El. apply run_bind in E as ([] & ? & ->%run_modify & E).
    apply run_bind in E as ([] & ? & [-> ->]%run_lift & E). apply run_bind in E as (r & d3 & Ef & [-> Er]%run_ret).
    injection Er as -> ->. apply loop_spec in El as (rows & Hl & Ex & Hr & Hp). cbn [run_engine run_bytes run_published app] in *.
    exists e0, rows. split; [exact Hc2|]. split.
    + split; [exact Hc1|exact Hc3|by case_bool_decide|exact Hl|by exists (run_bytes s)|exact Hr].
    + rewrite <- Ef, Hp. unfold journalled, when in *. rewrite Nat.sub_0_r. destruct verify_only; cbn [negb] in Ep.
      * apply run_ret in Ep as [-> _]. by rewrite with_no_rows.
      * by apply run_modify in Ep as ->.
  - intros (e0 & rows & Hc2 & [Hc1 Hc3 Hc4 Hl (n & Ex) Hr] & Ef). unfold raises_if, mbind, exec_bind, lift, get. rewrite Hc1, Hc2. cbn [raise_if].
    cbv zeta. change (dict_text (st_binding (en_setup e0))) with (plan_of e0). rewrite Hc3, Hc4.
    set (d2 := if verify_only then d else with_session_plan (plan_of e0) d).
    replace (when (negb verify_only) (modify (with_session_plan (plan_of e0))) d) with (d2, Ok tt) by (by destruct verify_only).
    assert (El : journal_loop uncertain software_hash universe (sf_journal d) resume verify_only commands (mkSessionRun e0 0 []) =
      (mkSessionRun e n (if verify_only then [] else row_raw <$> drop (length (sf_journal d)) rows), Ok tt)).
    { apply loop_spec. exists rows. cbn [run_engine run_bytes run_published app]. by rewrite Nat.sub_0_r. }
    rewrite El. cbn [modify run_published run_engine]. replace (with_session_rows _ d2) with (journalled e0 verify_only rows d).
    { by rewrite Ef. }
    unfold journalled, d2. destruct verify_only; [by rewrite with_no_rows|done].
Qed.

Lemma folder_checks_length plan commands resume verify_only d : folder_checks plan commands resume verify_only d = Ok tt ->
  (length (sf_journal d) <= length commands)%nat /\ (verify_only = true -> length (sf_journal d) = length commands).
Proof.
  unfold folder_checks. intros E. unbind E u1 E1. unbind E u2 E2. unbind E u3 E3. unbind E u4 E4. unbind E u5 E5. unbind E u6 E6.
  apply raise_if_Ok in E3, E5. split; [by apply Nat.ltb_ge|]. intros ->. cbn in E5. apply orb_false_iff in E5 as [E5 _].
  apply negb_false_iff in E5. by apply Nat.eqb_eq.
Qed.
(** What a run leaves: the rows of its engine are the files of the journal. *)
Lemma runs_rows crash commands resume verify_only d e0 rows e : recorded_session e0 -> en_audit e0 = [] ->
  runs_over crash commands resume verify_only d e0 rows e ->
  recorded_session e /\ en_audit e = rows /\ sf_journal (journalled e0 verify_only rows d) = row_raw <$> rows.
Proof.
  intros Hr Hn [_ Hc _ Hl (n & Ex) Hrow]. apply executes_recorded in Ex as [Hr' Ha]; [|exact Hr]. rewrite Hn in Ha.
  apply folder_checks_length in Hc as [Hle Hlen]. split; [exact Hr'|]. split; [exact Ha|]. unfold journalled.
  destruct verify_only; cbn [with_session_rows with_session_plan sf_journal].
  - apply (rows_at_flags (sf_journal d) resume rows); [rewrite Hl; by apply Hlen|exact Hrow].
  - apply (rows_kept (sf_journal d) resume rows); [by rewrite Hl|exact Hrow].
Qed.
(** The end of a run that has stopped. *)
Lemma finish_stopped verify_only e d d' result : stopped (en_state e) = true ->
  finish_session verify_only e d = (d', Ok result) <->
  exists files summary, session_files e = Ok (files, summary) /\ result = Summarised summary /\
    each (report_step verify_only) files d = (d', Ok tt).
Proof.
  intros Hs. unfold finish_session. rewrite Hs. cbn [negb]. rewrite run_bind. setoid_rewrite run_lift. split.
  - intros ([files summary] & d1 & [-> Ef] & E). apply run_bind in E as ([] & d2 & E1 & [-> ->]%run_ret). by exists files, summary.
  - intros (files & summary & Ef & -> & E). exists (files, summary), d. split; [done|]. apply run_bind. by exists tt, d'.
Qed.
Lemma session_finished verify_only e d d' result : finish_session verify_only e d = (d', Ok result) ->
  sf_journal d' = sf_journal d /\ (verify_only = true -> stopped (en_state e) = true).
Proof.
  intros E. destruct (stopped (en_state e)) eqn:Hs.
  - split; [|done]. apply finish_stopped in E as (files & summary & _ & _ & E); [|exact Hs].
    destruct verify_only; [by apply reports_verified in E as [-> _]|by apply reports_published in E as (_ & ? & _)].
  - unfold finish_session in E. rewrite Hs in E. cbn [negb] in E. apply run_bind in E as (u & d1 & [-> Hv]%run_raises_if & E).
    run_step E. apply run_ret in E as [-> _]. by rewrite Hv.
Qed.
Lemma summary_last e files summary : session_files e = Ok (files, summary) -> ("summary.json"%string, canonical summary) ∈ files.
Proof.
  unfold session_files. intros E. unbind E out_ Eo. unbind E u Eu. unbind E sm Es. apply Ok_inj in E. injection E as <- <-.
  apply elem_of_app. right. by apply list_elem_of_singleton.
Qed.

(** What verification accepts. *)
Lemma verified_run crash commands resume d d' e0 rows e result : runs_over crash commands resume true d e0 rows e ->
  finish_session true e (journalled e0 true rows d) = (d', Ok result) -> d' = d /\
  exists n files summary, mapR row_recovered (sf_journal d) = Ok (sn_recovered <$> rows) /\
    executes e0 0 (zip commands (sn_recovered <$> rows)) rows e n /\ sf_journal d = row_raw <$> rows /\
    stopped (en_state e) = true /\ session_files e = Ok (files, summary) /\ holds d files /\ result = Summarised summary.
Proof.
  intros [_ Hc _ Hl (n & Ex) Hrow] Ef. pose proof (session_finished _ _ _ _ _ Ef) as [_ Hs]. specialize (Hs eq_refl).
  apply finish_stopped in Ef as (files & summary & Es & -> & E); [|exact Hs]. apply reports_verified in E as [-> Hh].
  apply folder_checks_length in Hc as [_ Hlen]. split; [done|]. exists n, files, summary.
  destruct (rows_at_flags (sf_journal d) resume rows) as [Hj Hf]; [rewrite Hl; by apply Hlen|exact Hrow|]. done.
Qed.
(** Verification of what a run that stopped has left. *)
Lemma accepted_run crash commands resume resume' d d' e0 rows e result : recorded_session e0 -> en_audit e0 = [] ->
  runs_over crash commands resume false d e0 rows e -> finish_session false e (journalled e0 false rows d) = (d', Ok result) ->
  stopped (en_state e) = true -> Forall written_once (en_audit e) ->
  runs_over crash commands resume' true d' e0 rows e /\ finish_session true e (journalled e0 true rows d') = (d', Ok result).
Proof.
  intros Hr Hn Ho Ef Hs Hu. destruct (runs_rows _ _ _ _ _ _ _ _ Hr Hn Ho) as (_ & Ha & Hj). rewrite Ha in Hu.
  apply finish_stopped in Ef as (files & summary & Es & -> & E); [|exact Hs].
  apply reports_published in E as (P1 & P2 & P3 & P4 & P5). rewrite Hj in P2.
  destruct Ho as [Hc1 Hc2 Hc3 Hl (n & Ex) Hrow]. split.
  - split; [exact Hc1| |exact Hc3|exact Hl|by exists n|].
    + assert (Hsum : sf_reports d' !! "summary.json"%string = Some (canonical summary)).
      { unfold holds in P5. rewrite Forall_forall in P5. by apply (P5 ("summary.json"%string, canonical summary)), (summary_last e). }
      unfold folder_checks in *. unbind Hc2 u1 E1. unbind Hc2 u2 E2. unbind Hc2 u3 E3. unbind Hc2 u4 E4. unbind Hc2 u5 E5.
      unbind Hc2 u6 E6. apply raise_if_Ok in E6. cbn [journalled with_session_rows with_session_plan sf_plan sf_busy] in P1, P3.
      rewrite P1, P2, P3, Hsum, E6, length_fmap, Hl, Nat.ltb_irrefl, Nat.eqb_refl, !bool_decide_true by done.
      by destruct (negb (is_nil _) && negb resume').
    + intros i row Hi. unfold row_at, recovered_flag. rewrite P2, list_lookup_fmap, Hi. cbn [fmap option_fmap option_map].
      split; [|by intros raw [= <-]]. pose proof (executes_small _ _ _ _ _ _ Ex) as Hsm.
      apply row_recovered_raw; [by apply (Forall_lookup_1 _ _ _ _ Hu Hi)|by apply (Forall_lookup_1 _ _ _ _ Hsm Hi)].
  - apply finish_stopped; [exact Hs|]. exists files, summary. split; [exact Es|]. split; [done|]. by apply reports_verified.
Qed.

(** The last command of a run. *)
Lemma executes_last e n l x rows e' n' : executes e n (l ++ [x]) rows e' n' ->
  exists e1 row, apply uncertain software_hash universe x.1 x.2 e1 = (e', Ok row).
Proof.
  revert e n rows. induction l as [|y l IH]; intros e n rows E; cbn [app] in E; inversion E as [|? ? ? ? ? ? ? ? ? ? Ea _ _ E2]; subst;
    [inversion E2; subst; eauto|by eapply IH].
Qed.
Lemma runs_last crash commands command resume verify_only d e0 rows e :
  runs_over crash (commands ++ [command]) resume verify_only d e0 rows e ->
  exists e1 recovered row, apply uncertain software_hash universe command recovered e1 = (e, Ok row).
Proof.
  intros [_ _ _ Hl (n & Ex) _]. destruct rows as [|r rows' _] using rev_ind.
  - rewrite length_app in Hl. cbn in Hl. lia.
  - rewrite fmap_app, zip_with_app in Ex by (rewrite length_fmap; rewrite !length_app in Hl; cbn in Hl; lia).
    cbn [fmap list_fmap zip zip_with] in Ex. apply executes_last in Ex as (e1 & row & Ex). by exists e1, (sn_recovered r), row.
Qed.
End runs.
