(* ===== verification/PortfolioSample.v ===== *)
(** * A worked portfolio run and session

    The coordinator over one request: the dataset of [Sample] with the qualification and
    authorization of [PaperSample], a universe of 1,115 symbols, and the policy of the
    repository's portfolio tests; then the six candles of [Sample] delivered by eight
    commands: a preflight that is ready (the policy is the one whose digest the source
    pins), the opening, five steps and the close. *)
From S2P Require Import Prelude Decimal DecimalFacts Text Dataset Costs Phase14 Strategies Execution Json JsonFacts JsonRead CanonicalPolicy Research Exec Qualification Chain PyText Paper.
From S2P Require Import PaperSample Portfolio PortfolioRun.
From S2P Require Sample.
From S2P Require Import Scheduler.
From Stdlib Require Import Ascii.
Import Sample.
Open Scope list_scope.
Open Scope Z_scope.

(** [policy.model_dump(mode="python")]: every field, in the order of the class. *)
Definition pyopt {A} (f : A -> pyval) (o : option A) : pyval := match o with Some x => f x | None => PNone end.
Definition python_risk (r : Risk) : pyval :=
  PMap [(Some "fixture_only", PBool (rk_fixture_only r)); (Some "reviewed_evidence", pyopt PStr (rk_reviewed_evidence r));
        (Some "capital", pyopt PDecimal (rk_capital r)); (Some "risk_per_trade", pyopt PDecimal (rk_risk_per_trade r));
        (Some "daily_loss", pyopt PDecimal (rk_daily_loss r));
        (Some "simultaneous_positions", pyopt PInt (rk_simultaneous_positions r));
        (Some "symbol_exposure", pyopt PDecimal (rk_symbol_exposure r));
        (Some "portfolio_exposure", pyopt PDecimal (rk_portfolio_exposure r));
        (Some "max_quantity", pyopt PInt (rk_max_quantity r)); (Some "correlation_reviewed", PBool (rk_correlation_reviewed r))]%string.
#[export] Instance python_policy : DumpPython Policy := fun p =>
  PMap [(Some "fingerprint_version", PStr (pp_version p)); (Some "base", python_risk (pp_base p));
        (Some "strategy_exposure", pyopt PDecimal (pp_strategy_exposure p));
        (Some "sector_exposure", pyopt PDecimal (pp_sector_exposure p));
        (Some "sectors", PMap ((fun x => (Some x.1, PStr x.2)) <$> map_to_list (pp_sectors p)));
        (Some "sector_evidence", pyopt PStr (pp_sector_evidence p));
        (Some "correlation_positions", pyopt PInt (pp_correlation_positions p))]%string.
#[export] Instance json_policy : DumpJson Policy := fun p => JStr (pp_version p).
#[export] Instance json_control : DumpJson Control := fun c => JBool (ct_enabled c).
#[export] Instance dump_request : Dump Request := fun r => qr_run_id (rq_qualification r).

(** The policy of the repository's portfolio tests. *)
Definition hex64 (c : ascii) : string := String.string_of_list_ascii (repeat c 64).
Definition fixture_risk : Risk :=
  mkRisk true (Some (hex64 "a"%char)) (Some (dZ 10000)) (Some (dZ 100)) (Some (dZ 100)) (Some 4) (Some (dZ 10000))
    (Some (dZ 10000)) (Some 10) true.
Definition sample_policy : Policy :=
  mkPortfolioPolicy VERSION fixture_risk (Some (dZ 10000)) (Some (dZ 10000))
    (list_to_map [("SBIN", "BANK"); ("TCS", "IT"); ("INFY", "IT")]%string) (Some (hex64 "d"%char)) (Some 4).
Definition sample_request : Request :=
  mkRequest paper_row paper_dataset breakout paper_settings sample_schedule paper_authorization.
Definition sample_policy_hash : string :=
  Eval vm_compute in match policy_fingerprint sample_policy with Ok h => h | Err _ => ""%string end.
Definition sample_control : Control := mkControl VERSION sample_policy_hash sample_hash true false None [].
Definition sample_universe : list string := "INFY"%string :: (int_text <$> seqZ 0 1114).
(** The run itself; a notation, so that a proof about it never unfolds it. *)
Notation sample_portfolio :=
  (portfolio_run definition_value (fun _ => false) sample_hash sample_hash sample_universe JNull [sample_request]
    sample_policy sample_control).

(** ** A worked session

    The six candles of [Sample] delivered by eight commands: a preflight that is
    ready (the policy is the one whose digest the source pins), the opening, five steps
    and the close. *)

(** The pinned digests are those of the fixture policy and of the execution policy. *)
Example risk_hash_fixture : policy_fingerprint sample_policy = Ok RISK_HASH.
Proof. vm_compute. reflexivity. Qed.
Example execution_hash_policy : execution_fingerprint = EXECUTION_HASH.
Proof. vm_compute. reflexivity. Qed.

#[export] Instance json_calendar : DumpJson Calendar := fun c => JStr (ca_version c).
#[export] Instance json_configuration : DumpJson Configuration := fun c => JStr (cf_name c).
#[export] Instance json_command : DumpJson Command := fun c => JInt (cd_at c).

Definition day_at (h m : Z) : Z := nse_combine 20000 (hm h m).
Definition session_calendar : Calendar := mkSessionCalendar "calendar" sample_hash [mkDated (day_at 9 15) (day_at 9 45)] [].
Definition sample_configuration : Configuration :=
  mkConfiguration "session" 20000 (day_at 9 40) sample_hash true VERSION RISK_HASH EXECUTION_VERSION EXECUTION_HASH.
Definition closed_candle (k : nat) : list Completed :=
  match five_bars !! k with Some b => [mkCompleted "INFY" "408065" b true] | None => [] end.
Definition next_opening (k : nat) : list Opening :=
  match five_bars !! S k with Some b => [mkOpening "INFY" "408065" (b_open b)] | None => [] end.
Definition step_command (k : nat) : Command :=
  mkCommand Step (day_at 9 (20 + 5 * Z.of_nat k)) (closed_candle k) (next_opening k).
Definition close_command : Command := mkCommand CloseSession (day_at 9 45) (closed_candle 5) [].
Definition day_commands : list Command :=
  mkCommand Preflight (day_at 9 0) [] [] :: mkCommand OpenSession (day_at 9 15) [] [] :: (step_command <$> seq 0 5).

(** A notation, so that a proof about the session never unfolds it. *)
Definition no_session : SessionFolder := mkSessionFolder None [] ∅ false.
Definition all_commands : list Command := day_commands ++ [close_command].
Notation paper_day commands resume verify_only d :=
  (session_run definition_value (fun _ => false) sample_hash sample_hash sample_universe JNull [sample_request]
    sample_policy sample_control session_calendar sample_configuration None commands resume verify_only d).
(** The day stopped after three commands; it is resumed from there. *)
Notation paper_morning := (paper_day (take 3 all_commands) false false no_session).1.
Notation paper_resumed := (paper_day all_commands true false paper_morning).

(** The order is filled at 9:35 and closed at the end of the day; the fourth row says that
    the day was resumed there. *)
Lemma paper_resumed_shape :
  (fun x => (en_state x.1, sn_recovered <$> en_audit x.1, co_cash (en_portfolio x.1),
             forallb (fun r => unique (session_row_json r)) (en_audit x.1))) <$>
    paper_resumed.2 = Ok (COMPLETED, [false; false; false; true; false; false; false; false], Dec 99824807563841289400 (-16), true).
Proof. vm_compute. reflexivity. Qed.
Lemma paper_resumed_ok : exists d e result, paper_resumed = (d, Ok (e, result)) /\ en_state e = COMPLETED /\
  sn_recovered <$> en_audit e = [false; false; false; true; false; false; false; false] /\
  forallb (fun r => unique (session_row_json r)) (en_audit e) = true.
Proof.
  pose proof paper_resumed_shape as E. destruct paper_resumed as [d [[e result]|]]; [|discriminate E].
  apply Ok_inj in E. apply pair_equal_spec in E as [E Hu]. apply pair_equal_spec in E as [E _]. apply pair_equal_spec in E as [Hs Hf].
  exists d, e, result.
  split; [reflexivity|]. split; [exact Hs|]. split; [exact Hf|exact Hu].
Qed.
