(* ===== verification/PortfolioTheorems.v ===== *)
(** * Properties of the portfolio coordinator

    The books and the journal of a finished run, and the end of a session. *)
From S2P Require Import Prelude Decimal DecimalFacts Text Dataset Costs Phase14 Strategies Execution Json CanonicalPolicy Research Exec Qualification Chain PyText Paper.
From S2P Require Import PaperSample Portfolio PortfolioRun PortfolioFacts PortfolioInvariant PortfolioSteps PortfolioSample.
From S2P Require Sample.
Open Scope list_scope.
Open Scope Z_scope.

(** How far an order is from the end of its lifecycle. *)
Definition remaining (s : option OrderState) : nat :=
  match s with
  | None => 7
  | Some PROPOSED => 6 | Some RISK_CHECKED => 5 | Some RESERVED => 4 | Some ACCEPTED => 3 | Some FILLED => 2
  | Some EXIT_PENDING => 1 | Some _ => 0
  end.
Lemma order_remaining_step s u : u ∈ TRANSITIONS s -> (remaining (Some u) < remaining s)%nat.
Proof.
  destruct s as [s|]; [destruct s|]; cbn; intros Hu;
    repeat first [apply elem_of_cons in Hu as [->|Hu] | apply elem_of_nil in Hu as []]; cbn; lia.
Qed.

(** C35. When a run finishes, a symbol is owned by an order exactly while that order is
    filled, so at most one order owns it; money is reserved for an order exactly while it
    is reserved or accepted; positions and reservations together never exceed the
    position and correlation limits of the policy; and the account after every event
    reconciles: the reserved money is covered by cash and not negative, the equity is
    the opening capital with realized and unrealized results, and the recorded cash
    differences are those of consecutive accounts. *)
Theorem portfolio_books `{Dump Definition_} `{Dump Bar} `{Dump Row} `{Dump Risk} `{Dump Dataset_} `{Dump Phase14.Policy}
    `{Dump Request} `{DumpJson ResearchWindow} `{DumpJson IntradayCostSchedule} `{DumpJson Settings}
    `{DumpJson Authorization} `{DumpJson Policy} `{DumpJson Control} `{DumpPython Policy}
    definition_json uncertain software universe_hash universe inventory requests policy control c :
  portfolio_run definition_json uncertain software universe_hash universe inventory requests policy control = Ok c ->
  books_ok c /\ Z.of_nat (length (co_positions c) + length (co_reservations c)) <= Z.max 0 (position_limit policy) /\
  Forall (fun e => balanced (co_opening c) (pv_account e)) (co_events c) /\ ledger (co_events c).
Proof.
  intros (binding & _ & Hr)%portfolio_run_reachable. apply reachable_ok in Hr as [_ _ _ Hb [_ _ _ _ _ _ _ _ Ha Hl] Hc].
  done.
Qed.

(** C36. The journal of a finished run is hash-chained, chronological and numbered from
    zero; the events of every order follow the transition table from PROPOSED to the
    state of the order, in at most seven events; and once the portfolio has halted, no
    order is reserved, accepted or filled. *)
Theorem portfolio_journal_ok `{Dump Definition_} `{Dump Bar} `{Dump Row} `{Dump Risk} `{Dump Dataset_} `{Dump Phase14.Policy}
    `{Dump Request} `{DumpJson ResearchWindow} `{DumpJson IntradayCostSchedule} `{DumpJson Settings}
    `{DumpJson Authorization} `{DumpJson Policy} `{DumpJson Control} `{DumpPython Policy}
    definition_json uncertain software universe_hash universe inventory requests policy control c :
  portfolio_run definition_json uncertain software universe_hash universe inventory requests policy control = Ok c ->
  chained (co_events c) /\ StronglySorted (fun e e' => pv_at e <= pv_at e') (co_events c) /\
  (forall i e, co_events c !! i = Some e -> pv_sequence e = Z.of_nat i) /\
  (forall key, path TRANSITIONS None (history key (co_events c)) (or_state <$> find (co_orders c) key) /\
               (length (history key (co_events c)) <= 7)%nat) /\
  co_halted c = halts (co_events c) /\ no_entry_after_halt (co_events c).
Proof.
  intros (binding & _ & Hr)%portfolio_run_reachable. apply reachable_ok in Hr as [_ _ _ _ [Hc Ht Hs Hp _ Hh He _ _ _] _].
  split_and!; try done. intros key. split; [done|].
  pose proof (path_length TRANSITIONS remaining order_remaining_step _ _ _ (Hp key)). cbn in *. lia.
Qed.

(** C37. The end of a session settles the portfolio: whatever the reachable state before
    it, afterwards no order is pending, no money is reserved, a position that is still
    open has halted the portfolio, and the event that ends the journal says whether the
    session is complete. *)
Theorem session_end_settles `{Dump Row} `{DumpPython Policy} binding policy at_ c c' :
  reachable binding policy c -> end_session at_ c = (c', Ok tt) ->
  (forall key o, find (co_orders c') key = Some o -> open_state (or_state o) = false) /\
  co_reservations c' = [] /\ (co_positions c' <> [] -> co_halted c' = true) /\
  exists e, last (co_events c') = Some e /\ pv_state e = SESSION_END /\
    dt_complete (pv_details e) = Some (is_nil (co_positions c')).
Proof.
  intros Hr%reachable_ok E. apply end_session_settles in E as (Hs & Hrest); [|apply Hr].
  split; [|exact Hrest]. intros key o Hf. specialize (Hs key). unfold settled in Hs. by rewrite Hf in Hs.
Qed.

(** ** Witnesses *)

Import Sample.

(** The sample run opens one position and closes it: fourteen events. *)
Lemma sample_portfolio_shape :
  (fun c => (pv_state <$> co_events c, co_cash c, co_halted c)) <$> sample_portfolio =
  Ok ([MARK; MARK; MARK; MARK; PROPOSED; RISK_CHECKED; RESERVED; ACCEPTED; FILLED; MARK; EXIT_PENDING; CLOSED; MARK;
       SESSION_END], Dec 99824807563841289400 (-16), false).
Proof. vm_compute. reflexivity. Qed.
Lemma sample_portfolio_ok : exists c, sample_portfolio = Ok c /\ length (co_events c) = 14%nat.
Proof.
  pose proof sample_portfolio_shape as E. destruct sample_portfolio as [c|]; [|discriminate E]. exists c.
  split; [reflexivity|]. apply Ok_inj in E. apply (f_equal (fun x => length x.1.1)) in E. cbn [fst] in E.
  by rewrite length_fmap in E.
Qed.

Lemma portfolio_books_witness : exists c, sample_portfolio = Ok c /\ length (co_events c) = 14%nat /\ books_ok c.
Proof.
  destruct sample_portfolio_ok as (c & E & Hl). exists c. split; [exact E|]. split; [exact Hl|].
  exact (proj1 (portfolio_books definition_value (fun _ => false) sample_hash sample_hash sample_universe JNull
    [sample_request] sample_policy sample_control c E)).
Defined.
Lemma portfolio_journal_ok_witness : exists c, sample_portfolio = Ok c /\ length (co_events c) = 14%nat /\ chained (co_events c).
Proof.
  destruct sample_portfolio_ok as (c & E & Hl). exists c. split; [exact E|]. split; [exact Hl|].
  exact (proj1 (portfolio_journal_ok definition_value (fun _ => false) sample_hash sample_hash sample_universe JNull
    [sample_request] sample_policy sample_control c E)).
Defined.

(** A proposed order that the end of the session cancels. *)
Definition sample_time : Z := nse_combine 20000 (hm 9 35).
Notation proposed :=
  (emit "order" PROPOSED sample_time (Some sample_request)
    (mkDetails (Some "signal"%string) None None None None None None None None None None)
    (coordinator_init {["scope"%string := JStr "SYNTHETIC_FIXTURE"]} sample_policy)).
Lemma proposed_ended :
  (fun '(c, r) => (r, (fun '(c', r') => (r', (or_state ∘ snd) <$> co_orders c')) (end_session sample_time c))) proposed =
  (Ok tt, (Ok tt, [CANCELLED])).
Proof. vm_compute. reflexivity. Qed.
Lemma session_end_settles_witness : exists c c', end_session sample_time c = (c', Ok tt) /\ co_orders c' <> [] /\
  (forall key o, find (co_orders c') key = Some o -> open_state (or_state o) = false).
Proof.
  pose proof proposed_ended as E. destruct proposed as [c r] eqn:Ep. destruct (end_session sample_time c) as [c' r'] eqn:Ee.
  apply pair_equal_spec in E as [-> E]. apply pair_equal_spec in E as [-> E]. exists c, c'. split; [exact Ee|].
  split; [intros E0; rewrite E0 in E; discriminate E|].
  assert (Hr : reachable {["scope"%string := JStr "SYNTHETIC_FIXTURE"]} sample_policy c).
  { eapply stepping_emit; [|exact Ep]. reflexivity. }
  exact (proj1 (session_end_settles {["scope"%string := JStr "SYNTHETIC_FIXTURE"]} sample_policy sample_time c c' Hr Ee)).
Defined.
