(* ===== verification/SchedulerTheorems.v ===== *)
(** * Properties of the session scheduler

    The audit of a session is a complete, ordered and chained record of it, and a session
    completes only at its close, with nothing open, reserved or halted; verification
    accepts what a run leaves, and only the work of the commands. *)
From S2P Require Import Prelude Decimal DecimalFacts Text Dataset Costs Phase14 Strategies Execution Json JsonFacts JsonRead CanonicalPolicy Research Exec Qualification Chain PyText Paper.
From S2P Require Import PaperSample Portfolio PortfolioRun PortfolioSample Scheduler SchedulerFacts.
From S2P Require Sample.
Import Sample.
Open Scope list_scope.
Open Scope Z_scope.

(** C38. The audit of a run has one row per command, is hash-chained and chronological;
    the transitions of its rows, in order, are a walk of the session's state machine from
    CREATED to the state reached; and the portfolio events of its rows, in order, are the
    whole journal of the portfolio.  The files of the journal are the texts of these rows.
    This holds for a fresh run, a resumed one and a verification. *)
Theorem session_audit `{Dump Definition_} `{Dump Bar} `{Dump Row} `{Dump Risk} `{Dump Dataset_} `{Dump Phase14.Policy}
    `{Dump Request} `{DumpJson Policy} `{DumpJson Control} `{DumpPython Policy} `{DumpJson Calendar}
    `{DumpJson Configuration} `{DumpJson Command} definition_json uncertain software universe_hash universe inventory
    requests policy control calendar config crash commands resume verify_only d d' e result :
  session_run definition_json uncertain software universe_hash universe inventory requests policy control calendar config
    crash commands resume verify_only d = (d', Ok (e, result)) ->
  length (en_audit e) = length commands /\ chained (en_audit e) /\
  StronglySorted (fun r r' => sn_at r <= sn_at r') (en_audit e) /\
  walk CREATED (concat (sn_transitions <$> en_audit e)) (en_state e) /\
  co_events (en_portfolio e) = concat (sn_events <$> en_audit e) /\
  sf_journal d' = row_raw <$> en_audit e.
Proof.
  intros (e0 & rows & [Hr Hn]%engine_init_recorded & Ho & Ef)%session_run_spec.
  destruct (runs_rows _ _ _ _ _ _ _ _ _ _ _ Hr Hn Ho) as ([R1 R2 R3 R4 R5] & Ha & Hj). apply session_finished in Ef as [Hd _].
  rewrite Hd, Hj, Ha at 1. rewrite (ro_length _ _ _ _ _ _ _ _ _ _ _ Ho). by rewrite <- Ha.
Qed.

(** C39. A command is refused once the session is COMPLETED or FAILED.  A command whose
    row has a rejection leaves the portfolio halted and the session in PAPER_HALTED.  A
    command that reaches COMPLETED is the close at the end of the session, has no
    rejection, and leaves no position, no reservation and no halt, with a complete
    SESSION_END as the last event; so a halted portfolio never completes its session. *)
Theorem session_completion `{Dump Definition_} `{Dump Bar} `{Dump Row} `{Dump Risk} `{Dump Dataset_} `{Dump Phase14.Policy}
    `{DumpPython Policy} `{DumpJson Calendar} `{DumpJson Command} uncertain software universe command recovered e e' row :
  apply uncertain software universe command recovered e = (e', Ok row) ->
  terminal (en_state e) = false /\
  (sn_rejection row <> None -> co_halted (en_portfolio e') = true /\ en_state e' = PAPER_HALTED) /\
  (en_state e' = COMPLETED ->
     cd_kind command = CloseSession /\
     (exists session, st_session (en_setup e) = Some session /\ cd_at command = ds_end session) /\
     sn_rejection row = None /\ all_clear (en_portfolio e')) /\
  (co_halted (en_portfolio e) = true -> co_halted (en_portfolio e') = true /\ en_state e' <> COMPLETED).
Proof.
  intros E. pose proof (apply_applied _ _ _ _ _ _ _ _ E) as Ha.
  split; [exact (ap_open _ _ _ _ Ha)|]. split; [exact (ap_rejected _ _ _ _ Ha)|].
  pose proof (apply_completes _ _ _ _ _ _ _ _ E) as Hc. split; [exact Hc|].
  intros Hh. apply (ap_halted _ _ _ _ Ha) in Hh. split; [exact Hh|]. intros Hs.
  destruct (Hc Hs) as (_ & _ & _ & (_ & _ & Hn & _)). congruence.
Qed.

(** C40. Verification accepts what a run leaves and nothing else.  A run, fresh or resumed
    over any rows, that stops leaves a directory that verification accepts, with the same
    summary and the same engine, and does not change (each key of a row being written
    once).  Whatever verification accepts is the work of the commands: its rows are, byte
    for byte, those that the commands write when the recoveries happen where the rows say
    they did, and its reports and its summary are, byte for byte, those of the engine
    reached.  So two directories that verification accepts, whose rows record the same
    recoveries, have the same rows, the same engine and the same summary. *)
Theorem session_verification `{Dump Definition_} `{Dump Bar} `{Dump Row} `{Dump Risk} `{Dump Dataset_} `{Dump Phase14.Policy}
    `{Dump Request} `{DumpJson Policy} `{DumpJson Control} `{DumpPython Policy} `{DumpJson Calendar}
    `{DumpJson Configuration} `{DumpJson Command} definition_json uncertain software universe_hash universe inventory
    requests policy control calendar config crash commands :
  let run := session_run definition_json uncertain software universe_hash universe inventory requests policy control
    calendar config crash commands in
  (forall resume resume' d d' e result, run resume false d = (d', Ok (e, result)) -> stopped (en_state e) = true ->
     Forall written_once (en_audit e) -> run resume' true d' = (d', Ok (e, result))) /\
  (forall resume d d' e result, run resume true d = (d', Ok (e, result)) -> d' = d /\
     exists e0 rows n files summary,
       engine_init definition_json universe_hash universe inventory requests policy control calendar config crash = Ok e0 /\
       mapR row_recovered (sf_journal d) = Ok (sn_recovered <$> rows) /\
       executes uncertain software universe e0 0 (zip commands (sn_recovered <$> rows)) rows e n /\
       sf_journal d = row_raw <$> rows /\ stopped (en_state e) = true /\
       session_files e = Ok (files, summary) /\ holds d files /\ result = Summarised summary) /\
  (forall resume resume' d1 d2 d1' d2' e1 e2 result1 result2, run resume true d1 = (d1', Ok (e1, result1)) ->
     run resume' true d2 = (d2', Ok (e2, result2)) -> mapR row_recovered (sf_journal d1) = mapR row_recovered (sf_journal d2) ->
     sf_journal d1 = sf_journal d2 /\ e1 = e2 /\ result1 = result2).
Proof.
  intros run. assert (Hsound : forall resume d d' e result, run resume true d = (d', Ok (e, result)) -> d' = d /\
     exists e0 rows n files summary,
       engine_init definition_json universe_hash universe inventory requests policy control calendar config crash = Ok e0 /\
       mapR row_recovered (sf_journal d) = Ok (sn_recovered <$> rows) /\
       executes uncertain software universe e0 0 (zip commands (sn_recovered <$> rows)) rows e n /\
       sf_journal d = row_raw <$> rows /\ stopped (en_state e) = true /\
       session_files e = Ok (files, summary) /\ holds d files /\ result = Summarised summary).
  { intros resume d d' e result (e0 & rows & Ei & Ho & Ef)%session_run_spec. destruct (verified_run _ _ _ _ _ _ _ _ _ _ _ _ Ho Ef) as (-> & n & files & summary & Hv).
    split; [done|]. by exists e0, rows, n, files, summary. }
  split; [|split; [exact Hsound|]].
  - intros resume resume' d d' e result (e0 & rows & Ei & Ho & Ef)%session_run_spec Hs Hu. apply session_run_spec.
    exists e0, rows. split; [exact Ei|]. pose proof (engine_init_recorded _ _ _ _ _ _ _ _ _ _ _ Ei) as [Hr Hn].
    by apply (accepted_run _ _ _ _ _ _ _ _ _ _ _ _ _ Hr Hn Ho Ef Hs).
  - intros resume resume' d1 d2 d1' d2' e1 e2 result1 result2 E1 E2 Hflags.
    apply Hsound in E1 as (-> & e0 & rows1 & n1 & files1 & summary1 & Ei1 & Hf1 & Ex1 & Hj1 & _ & Es1 & _ & ->).
    apply Hsound in E2 as (-> & e0' & rows2 & n2 & files2 & summary2 & Ei2 & Hf2 & Ex2 & Hj2 & _ & Es2 & _ & ->).
    rewrite Ei1 in Ei2. injection Ei2 as <-. rewrite Hf1, Hf2 in Hflags. injection Hflags as Hflags. rewrite <- Hflags in Ex2.
    destruct (executes_same _ _ _ _ _ _ _ _ _ _ _ _ Ex1 Ex2) as (<- & <- & _). rewrite Es1 in Es2. injection Es2 as _ <-.
    by rewrite Hj1, Hj2.
Qed.

(** ** Witnesses *)

Lemma session_audit_witness : exists d e result, paper_resumed = (d, Ok (e, result)) /\
  length (en_audit e) = 8%nat /\ sf_journal d = row_raw <$> en_audit e.
Proof.
  destruct paper_resumed_ok as (d & e & result & E & _). exists d, e, result. split; [exact E|].
  destruct (session_audit definition_value (fun _ => false) sample_hash sample_hash sample_universe JNull [sample_request]
    sample_policy sample_control session_calendar sample_configuration None all_commands true false _ d e result E)
    as (Hl & _ & _ & _ & _ & Hj).
  split; [exact Hl|exact Hj].
Defined.
Lemma session_completion_witness : exists e e' recovered row,
  apply (fun _ => false) sample_hash sample_universe close_command recovered e = (e', Ok row) /\ en_state e' = COMPLETED /\
  all_clear (en_portfolio e').
Proof.
  destruct paper_resumed_ok as (d & e' & result & E & Hs & _). apply session_run_spec in E as (e0 & rows & _ & Ho & _).
  destruct (runs_last _ _ _ _ day_commands close_command _ _ _ _ _ _ Ho) as (e & recovered & row & E).
  exists e, e', recovered, row. split; [exact E|]. split; [exact Hs|].
  exact (proj2 (proj2 (proj2 (proj1 (proj2 (proj2
    (session_completion (fun _ => false) sample_hash sample_universe close_command recovered e e' row E))) Hs)))).
Defined.
(** A day that was resumed after three commands is verified, and left as it is. *)
Lemma session_verification_witness : exists d e result, paper_resumed = (d, Ok (e, result)) /\
  sn_recovered <$> en_audit e = [false; false; false; true; false; false; false; false] /\
  paper_day all_commands false true d = (d, Ok (e, result)).
Proof.
  destruct paper_resumed_ok as (d & e & result & E & Hs & Hf & Hu). exists d, e, result. split; [exact E|]. split; [exact Hf|].
  exact (proj1 (session_verification definition_value (fun _ => false) sample_hash sample_hash sample_universe JNull
    [sample_request] sample_policy sample_control session_calendar sample_configuration None all_commands)
    true false _ d e result E (f_equal stopped Hs) (all_written_once _ Hu)).
Defined.
