(* ===== verification/Lease.v ===== *)
(** * The lease model ([phase1444ej/enforcement.py])

    A decision is checked against what is expected and becomes a lease; a lease is
    reserved by compare-and-swap on a ledger of spent identities and nonces, and then
    moves through a table of states.  [Decision], [Ledger] and [Lease] are frozen
    dataclasses: every operation returns new values, and a ledger is what its last
    reservation returned.  Leases of one ledger are spent once, and end.  Nothing is claimed
    about two copies of a ledger: the model is sequential, as the code says of itself. *)
From S2P Require Import Prelude Dataset.
Open Scope list_scope.
Open Scope Z_scope.

Inductive State := PENDING | VERIFIED | RESERVED | CONSUMED | EXPIRED | REVOKED | REJECTED | ABORTED.
#[export] Instance lease_state_eq_dec : EqDecision State.
Proof. solve_decision. Defined.

Definition BASELINE : string := "54b15bece6fee2b3be8a039011010cccfc93a4ee".

(** The fields that must be those of the expected decision. *)
Record Decision_scope := mkScope {
  ds_owner : string; ds_role : string; ds_root : string; ds_payload : string; ds_baseline : string;
  ds_integration : string; ds_policy : string; ds_supervisor : string; ds_helper : string; ds_command : string;
  ds_tests : list string; ds_limits : list Z; ds_cleanup : string; ds_operation : string
}.
#[export] Instance scope_eq_dec : EqDecision Decision_scope.
Proof. solve_decision. Defined.

Record Decision := mkLeaseDecision {
  dc_scope : Decision_scope; dc_signature_valid : bool; dc_trusted_time : bool; dc_not_before : Z; dc_expiry : Z;
  dc_revoked : bool; dc_identity : string; dc_nonce : string; dc_checkpoint : bool; dc_fixture : bool
}.
(** [Decision()], [Ledger()]: the defaults of the dataclass fields. *)
Definition default_scope : Decision_scope :=
  mkScope "TEST_ONLY" "TEST_ONLY_QUALIFICATION" "TEST_ONLY" "TEST_ONLY_PAYLOAD" BASELINE "TEST_ONLY_INTEGRATION"
    "TEST_ONLY_POLICY" "TEST_ONLY_SUPERVISOR" "TEST_ONLY_HELPER" "TEST_ONLY_COMMAND" ["TEST_ONLY_A"; "TEST_ONLY_B"]%string
    [4; 10; 256; 8] "TEST_ONLY" "TEST_ONLY_QUALIFICATION".
Definition default_decision : Decision :=
  mkLeaseDecision default_scope true true 10 20 false "TEST_ONLY_DECISION" "TEST_ONLY_NONCE" true true.
Record Ledger := mkLedger { lg_version : Z; lg_decisions : gset string; lg_nonces : gset string; lg_checkpoint_version : Z }.
Definition default_ledger : Ledger := mkLedger 0 ∅ ∅ 0.
Record Lease := mkLease { ls_state : State; ls_identity : string; ls_nonce : string; ls_fixture : bool }.

Definition execution_authorized (l : Lease) : bool := false.
Definition authorize_real {A} (decision : A) : bool := false.

(** [replace(lease, state=s)] *)
Definition with_lease_state (s : State) (l : Lease) : Lease := mkLease s (ls_identity l) (ls_nonce l) (ls_fixture l).
(** [Lease(s)] *)
Definition bare (s : State) : Lease := mkLease s "" "" true.
Definition no_string (s : string) : bool := bool_decide (s = ""%string).

(** Usage within the limits, entry by entry. *)
Fixpoint within (usage limits : list Z) : bool :=
  match usage, limits with
  | actual :: usage, limit :: limits => (0 <=? actual) && (actual <=? limit) && within usage limits
  | _, _ => true
  end.

Definition verify_fixture (decision expected : Decision) (ledger : Ledger) (now previous_time : Z) (usage : list Z) : Lease :=
  let scope := dc_scope decision in
  if negb (dc_fixture decision) || negb (dc_fixture expected) then bare REJECTED
  else if negb (bool_decide (scope = dc_scope expected)) then bare REJECTED
  else if negb (bool_decide (ds_owner scope = "TEST_ONLY"%string)) || negb (bool_decide (ds_root scope = "TEST_ONLY"%string))
       then bare REJECTED
  else if negb (dc_signature_valid decision) || negb (dc_trusted_time decision) || negb (dc_checkpoint decision)
       then bare REJECTED
  else if dc_revoked decision then bare REVOKED
  else if dc_expiry decision <=? now then bare EXPIRED
  else if (now <? dc_not_before decision) || (now <? previous_time) || (2 <? now - previous_time) then bare REJECTED
  else if dc_expiry decision <=? dc_not_before decision then bare REJECTED
  else if no_string (dc_identity decision) || no_string (dc_nonce decision) || no_string (ds_cleanup scope) then bare REJECTED
  else if is_nil (ds_tests scope) || negb (bool_decide (NoDup (ds_tests scope))) then bare REJECTED
  else if negb (Nat.eqb (length (ds_limits scope)) 4) || negb (Nat.eqb (length usage) 4) then bare REJECTED
  else if existsb (fun limit => limit <=? 0) (ds_limits scope) then bare REJECTED
  else if negb (within usage (ds_limits scope)) then bare REJECTED
  else if lg_version ledger <? lg_checkpoint_version ledger then bare REJECTED
  else if bool_decide (dc_identity decision ∈ lg_decisions ledger) || bool_decide (dc_nonce decision ∈ lg_nonces ledger)
       then bare REJECTED
  else mkLease VERIFIED (dc_identity decision) (dc_nonce decision) true.

Definition reserve (lease : Lease) (ledger : Ledger) (expected_version : Z) : Lease * Ledger :=
  if negb (ls_fixture lease) || negb (bool_decide (ls_state lease = VERIFIED)) || no_string (ls_identity lease) ||
     no_string (ls_nonce lease) || negb (lg_version ledger =? expected_version) ||
     (lg_version ledger <? lg_checkpoint_version ledger) || bool_decide (ls_identity lease ∈ lg_decisions ledger) ||
     bool_decide (ls_nonce lease ∈ lg_nonces ledger)
  then (with_lease_state REJECTED lease, ledger)
  else (with_lease_state RESERVED lease,
        mkLedger (lg_version ledger + 1) ({[ls_identity lease]} ∪ lg_decisions ledger)
          ({[ls_nonce lease]} ∪ lg_nonces ledger) (lg_checkpoint_version ledger)).

Definition allowed (s : State) : list State :=
  match s with
  | PENDING => [REJECTED; EXPIRED; REVOKED; ABORTED]
  | VERIFIED => [REJECTED; EXPIRED; REVOKED; ABORTED]
  | RESERVED => [CONSUMED; EXPIRED; REVOKED; ABORTED]
  | CONSUMED => [ABORTED; REVOKED]
  | EXPIRED | REVOKED | REJECTED | ABORTED => []
  end.
Definition transition (lease : Lease) (target : State) (critical_revalidated : bool) : res Lease :=
  require! ls_fixture lease && bool_decide (target ∈ allowed (ls_state lease)) else "INVALID_TRANSITION";
  reject! bool_decide (target = CONSUMED) && negb critical_revalidated as "CRITICAL_REVALIDATION_REQUIRED";
  Ok (with_lease_state target lease).

Definition crash (lease : Lease) : Lease :=
  if bool_decide (ls_state lease ∈ [EXPIRED; REVOKED; REJECTED; ABORTED]) then lease else with_lease_state ABORTED lease.

(** ** Leases are spent once, and end

    One ledger is threaded through a sequence of operations: a lease is verified against
    any copy of the ledger, old or new, reserved on the ledger itself with the version that
    its holder expects, moved, or crashed.  [wd_versions] is the history of the versions
    that successful reservations expected, for the theorem. *)

(** ** The sequence *)

Record World := mkWorld { wd_ledger : Ledger; wd_leases : list Lease; wd_versions : list Z }.
Definition empty_world (checkpoint : Z) : World := mkWorld (mkLedger 0 ∅ ∅ checkpoint) [] [].

(** [lease, ledger = reserve(lease, ledger, expected_version)] *)
Definition reserved_world (i : nat) (lease : Lease) (expected_version : Z) (w : World) : World :=
  let '(lease', ledger') := reserve lease (wd_ledger w) expected_version in
  mkWorld ledger' (<[i := lease']> (wd_leases w))
    (if bool_decide (ls_state lease' = RESERVED) then wd_versions w ++ [expected_version] else wd_versions w).
Inductive world_step (w : World) : World -> Prop :=
| step_verify decision expected copy now previous_time usage :
    world_step w (mkWorld (wd_ledger w) (wd_leases w ++ [verify_fixture decision expected copy now previous_time usage])
                          (wd_versions w))
| step_reserve i lease expected_version : wd_leases w !! i = Some lease -> world_step w (reserved_world i lease expected_version w)
| step_transition i lease target revalidated lease' : wd_leases w !! i = Some lease ->
    transition lease target revalidated = Ok lease' -> world_step w (mkWorld (wd_ledger w) (<[i := lease']> (wd_leases w)) (wd_versions w))
| step_crash i lease : wd_leases w !! i = Some lease ->
    world_step w (mkWorld (wd_ledger w) (<[i := crash lease]> (wd_leases w)) (wd_versions w)).

(** Reserved, and not yet ended. *)
Definition spent (l : Lease) : bool := match ls_state l with RESERVED | CONSUMED => true | _ => false end.

Record world_ok (w : World) : Prop := {
  wo_spent : forall i l, wd_leases w !! i = Some l -> spent l = true ->
    ls_identity l ∈ lg_decisions (wd_ledger w) /\ ls_nonce l ∈ lg_nonces (wd_ledger w);
  wo_distinct : forall i j l l', wd_leases w !! i = Some l -> wd_leases w !! j = Some l' -> i <> j ->
    spent l = true -> spent l' = true -> ls_identity l <> ls_identity l' /\ ls_nonce l <> ls_nonce l';
  wo_decisions : Z.of_nat (size (lg_decisions (wd_ledger w))) = lg_version (wd_ledger w);
  wo_nonces : Z.of_nat (size (lg_nonces (wd_ledger w))) = lg_version (wd_ledger w);
  wo_versions : wd_versions w = seqZ 0 (lg_version (wd_ledger w))
}.

Lemma verify_not_spent decision expected copy now previous_time usage :
  spent (verify_fixture decision expected copy now previous_time usage) = false.
Proof. unfold verify_fixture. repeat case_match; reflexivity. Qed.

Lemma reserve_cases lease ledger v :
  reserve lease ledger v = (with_lease_state REJECTED lease, ledger) \/
  (reserve lease ledger v =
     (with_lease_state RESERVED lease,
      mkLedger (lg_version ledger + 1) ({[ls_identity lease]} ∪ lg_decisions ledger) ({[ls_nonce lease]} ∪ lg_nonces ledger)
        (lg_checkpoint_version ledger)) /\
   ls_state lease = VERIFIED /\ ls_identity lease ∉ lg_decisions ledger /\ ls_nonce lease ∉ lg_nonces ledger /\
   lg_version ledger = v).
Proof.
  unfold reserve. destruct (_ || _) eqn:E; [by left|right]. split; [done|]. rewrite !orb_false_iff in E.
  destruct E as [[[[[[[_ E1] _] _] E2] _] E3] E4]. apply negb_false_iff in E1, E2.
  apply bool_decide_eq_true in E1. apply bool_decide_eq_false in E3, E4. apply Z.eqb_eq in E2. done.
Qed.

(** A lease that replaces one of the same identity, and is spent only if that was. *)
Lemma world_ok_insert g leases versions i l l' : leases !! i = Some l ->
  ls_identity l' = ls_identity l -> ls_nonce l' = ls_nonce l -> (spent l' = true -> spent l = true) ->
  world_ok (mkWorld g leases versions) -> world_ok (mkWorld g (<[i := l']> leases) versions).
Proof.
  intros Hi Hid Hn Hs [W1 W2 W3 W4 W5].
  assert (Hback : forall j x, <[i := l']> leases !! j = Some x -> spent x = true ->
    exists y, leases !! j = Some y /\ spent y = true /\ ls_identity y = ls_identity x /\ ls_nonce y = ls_nonce x).
  { intros j x Hx Hsx. apply list_lookup_insert_Some in Hx as [(<- & <- & _)|[_ Hx]]; [exists l|exists x]; auto. }
  split; [| |exact W3|exact W4|exact W5]; cbn [wd_leases wd_ledger].
  - intros j x Hx Hsx. destruct (Hback j x Hx Hsx) as (y & Hy & Hsy & <- & <-). exact (W1 j y Hy Hsy).
  - intros j k x y Hx Hy Hjk Hsx Hsy. destruct (Hback j x Hx Hsx) as (x' & Hx' & Hsx' & <- & <-).
    destruct (Hback k y Hy Hsy) as (y' & Hy' & Hsy' & <- & <-). exact (W2 j k x' y' Hx' Hy' Hjk Hsx' Hsy').
Qed.

Lemma transition_spent lease target revalidated lease' : transition lease target revalidated = Ok lease' ->
  lease' = with_lease_state target lease /\ target ∈ allowed (ls_state lease) /\
  (target = CONSUMED -> ls_state lease = RESERVED /\ revalidated = true).
Proof.
  unfold transition. intros E. unbind E u1 E1. unbind E u2 E2. apply raise_unless_Ok in E1. apply raise_if_Ok in E2.
  apply Ok_inj in E. bool_inv. split; [done|]. split; [done|]. intros ->. split.
  - destruct (ls_state lease); cbn in *; set_solver.
  - destruct revalidated; [done|]. by rewrite bool_decide_true in E2.
Qed.

Lemma world_reserve w i lease v : world_ok w -> wd_leases w !! i = Some lease -> world_ok (reserved_world i lease v w).
Proof.
  intros Hw Hi. destruct w as [g leases versions]. unfold reserved_world. cbn [wd_ledger wd_leases wd_versions] in *.
  destruct (reserve_cases lease g v) as [->|(-> & Hv & Hd & Hn & Hversion)]; [by apply (world_ok_insert _ _ _ _ lease)|].
  rewrite bool_decide_true by done. destruct Hw as [W1 W2 W3 W4 W5]. cbn [wd_ledger wd_leases wd_versions] in *.
  assert (Hother : forall j x, i <> j -> leases !! j = Some x -> spent x = true ->
    ls_identity x <> ls_identity lease /\ ls_nonce x <> ls_nonce lease).
  { intros j x _ Hx Hsx. destruct (W1 j x Hx Hsx) as [H1 H2]. split; intros E; congruence. }
  split; cbn [wd_ledger wd_leases wd_versions lg_decisions lg_nonces lg_version].
  - intros j x Hx Hsx. apply list_lookup_insert_Some in Hx as [(<- & <- & _)|[_ Hx]]; [cbn; set_solver|].
    destruct (W1 j x Hx Hsx). set_solver.
  - intros j k x y Hx Hy Hjk Hsx Hsy.
    apply list_lookup_insert_Some in Hx as [(<- & <- & _)|[Hij Hx]];
      apply list_lookup_insert_Some in Hy as [(<- & <- & _)|[Hik Hy]]; [done| | |exact (W2 j k x y Hx Hy Hjk Hsx Hsy)].
    + destruct (Hother k y Hjk Hy Hsy). cbn. split; congruence.
    + destruct (Hother j x Hij Hx Hsx). cbn. split; congruence.
  - rewrite size_union by set_solver. rewrite size_singleton. lia.
  - rewrite size_union by set_solver. rewrite size_singleton. lia.
  - rewrite W5, <- Hversion, seqZ_app by lia. done.
Qed.

Lemma world_step_ok w w' : world_ok w -> world_step w w' -> world_ok w'.
Proof.
  intros Hw Hs. destruct Hs as [decision expected copy now previous usage|i lease v Hi|i lease target rev lease' Hi E|i lease Hi].
  - destruct Hw as [W1 W2 W3 W4 W5].
    assert (Hold : forall j x, (wd_leases w ++ [verify_fixture decision expected copy now previous usage]) !! j = Some x ->
      spent x = true -> wd_leases w !! j = Some x).
    { intros j x Hx Hsx. apply lookup_app_Some in Hx as [Hx|[_ Hx]]; [done|].
      apply list_lookup_singleton_Some in Hx as [_ <-]. by rewrite verify_not_spent in Hsx. }
    split; cbn [wd_ledger wd_leases wd_versions]; [| |exact W3|exact W4|exact W5].
    + intros j x Hx Hsx. eauto.
    + intros j k x y Hx Hy Hjk Hsx Hsy. eauto.
  - by apply world_reserve.
  - apply transition_spent in E as (-> & Hin & Hc). destruct w. apply (world_ok_insert _ _ _ _ lease); try done.
    unfold spent at 1. cbn. intros Ht. destruct target; try discriminate Ht.
    + by destruct (ls_state lease); cbn in Hin; set_solver.
    + destruct (Hc eq_refl) as [Hr _]. unfold spent. by rewrite Hr.
  - destruct w. apply (world_ok_insert _ _ _ _ lease); try done; unfold crash; case_bool_decide; done.
Qed.

Lemma world_steps_ok w w' : world_ok w -> rtc world_step w w' -> world_ok w'.
Proof. intros Hw. induction 1 as [|w w1 w2 Hs _ IH]; [done|]. by apply IH, (world_step_ok w). Qed.
Lemma world_empty_ok checkpoint : world_ok (empty_world checkpoint).
Proof. split; cbn; try done; intros i; set_solver. Qed.

(** ** Every lease ends *)

(** The operations on one lease. *)
Inductive lease_step (l : Lease) : Lease -> Prop :=
| lstep_reserve ledger v : lease_step l (reserve l ledger v).1
| lstep_transition target revalidated l' : transition l target revalidated = Ok l' -> lease_step l l'
| lstep_crash : lease_step l (crash l).

(** What is left to a lease: a failed reservation relabels even an ended lease as rejected. *)
Definition rank (s : State) : nat :=
  match s with PENDING | VERIFIED => 4 | RESERVED => 3 | CONSUMED => 2 | EXPIRED | REVOKED | ABORTED => 1 | REJECTED => 0 end%nat.
Definition changing (l' l : Lease) : Prop := lease_step l l' /\ l' <> l.

Lemma with_own_state l : with_lease_state (ls_state l) l = l.
Proof. by destruct l. Qed.
Lemma lease_step_rank l l' : lease_step l l' -> l' <> l -> (rank (ls_state l') < rank (ls_state l))%nat.
Proof.
  intros Hs Hne. destruct Hs as [ledger v|target rev l' E|].
  - destruct (reserve_cases l ledger v) as [E|(E & Hv & _)]; rewrite E in *; cbn [fst ls_state with_lease_state] in *.
    + destruct (ls_state l) eqn:El; cbn; try lia. exfalso. apply Hne. rewrite <- El. apply with_own_state.
    + rewrite Hv. cbn. lia.
  - apply transition_spent in E as (-> & Hin & _). destruct (ls_state l); cbn in Hin; set_unfold in Hin; cbn;
      intuition (subst; cbn; lia).
  - unfold crash in *. case_bool_decide as Hc; [done|]. cbn. destruct (ls_state l); cbn; try lia; exfalso; apply Hc; set_solver.
Qed.

(** A lease changes at most four times, whatever the clients do. *)
Inductive changes : nat -> Lease -> Lease -> Prop :=
| changes_none l : changes 0 l l
| changes_same n l l' : lease_step l l -> changes n l l' -> changes n l l'
| changes_more n l m l' : lease_step l m -> m <> l -> changes n m l' -> changes (S n) l l'.
Lemma changes_rank n l l' : changes n l l' -> (n + rank (ls_state l') <= rank (ls_state l))%nat.
Proof. induction 1 as [l|n l l' _ _ IH|n l m l' Hs Hne _ IH]; [lia|done|]. pose proof (lease_step_rank _ _ Hs Hne). lia. Qed.

(** ** The properties *)

(** C8: Whatever sequence of operations runs on one ledger - verifications against any copy
    of it, reservations on what the last one returned with any expected version, moves,
    crashes - two leases that are reserved or consumed never share an identity or a nonce,
    each is entered in the ledger, the version of the ledger is the number of identities and
    of nonces spent, and the successful reservations expected the versions 0, 1, 2, ..., each
    once: a version that another reservation has used is refused. *)
Theorem lease_spent_once checkpoint w : rtc world_step (empty_world checkpoint) w ->
  (forall i l, wd_leases w !! i = Some l -> spent l = true ->
     ls_identity l ∈ lg_decisions (wd_ledger w) /\ ls_nonce l ∈ lg_nonces (wd_ledger w)) /\
  (forall i j l l', wd_leases w !! i = Some l -> wd_leases w !! j = Some l' -> i <> j ->
     spent l = true -> spent l' = true -> ls_identity l <> ls_identity l' /\ ls_nonce l <> ls_nonce l') /\
  lg_version (wd_ledger w) = Z.of_nat (size (lg_decisions (wd_ledger w))) /\
  lg_version (wd_ledger w) = Z.of_nat (size (lg_nonces (wd_ledger w))) /\
  wd_versions w = seqZ 0 (lg_version (wd_ledger w)).
Proof.
  intros Hr. destruct (world_steps_ok _ _ (world_empty_ok checkpoint) Hr) as [W1 W2 W3 W4 W5].
  split; [exact W1|]. split; [exact W2|]. by split.
Qed.

(** C17: A lease ends: no operation can change it for ever (the relation of the
    operations that change a lease is well-founded), it changes at most four times from
    its verification, and a lease that was consumed is never reserved again. *)
Theorem lease_ends :
  well_founded changing /\
  (forall n l l', changes n l l' -> (n <= 4)%nat) /\
  (forall n l l', changes n l l' -> ls_state l = CONSUMED -> ls_state l' <> RESERVED).
Proof.
  split; [|split].
  - apply (well_founded_lt_compat _ (fun l => rank (ls_state l))). intros l' l [Hs Hne]. by apply lease_step_rank.
  - intros n l l' H%changes_rank. destruct (ls_state l), (ls_state l'); cbn in H; lia.
  - intros n l l' H%changes_rank Hc Hr. rewrite Hc, Hr in H. cbn in H. lia.
Qed.

(** Two verifications of the same decision; the second reservation fails. *)
Notation first_lease := (verify_fixture default_decision default_decision default_ledger 15 15 [1; 1; 1; 1]).
Lemma lease_spent_once_witness :
  exists w, rtc world_step (empty_world 0) w /\ map ls_state (wd_leases w) = [RESERVED; REJECTED] /\ lg_version (wd_ledger w) = 1 /\
  "TEST_ONLY_DECISION"%string ∈ lg_decisions (wd_ledger w).
Proof.
  pose (w1 := mkWorld (wd_ledger (empty_world 0)) ([] ++ [first_lease]) []).
  pose (w2 := mkWorld (wd_ledger w1) (wd_leases w1 ++ [first_lease]) []).
  pose (w3 := reserved_world 0 first_lease 0 w2).
  pose (w4 := reserved_world 1 first_lease 1 w3).
  assert (Hr : rtc world_step (empty_world 0) w4).
  { apply (rtc_l _ _ w1); [exact (step_verify (empty_world 0) default_decision default_decision default_ledger 15 15 [1; 1; 1; 1])|].
    apply (rtc_l _ _ w2); [exact (step_verify w1 default_decision default_decision default_ledger 15 15 [1; 1; 1; 1])|].
    apply (rtc_l _ _ w3); [exact (step_reserve w2 0 first_lease 0 eq_refl)|].
    apply (rtc_l _ _ w4); [exact (step_reserve w3 1 first_lease 1 eq_refl)|]. apply rtc_refl. }
  exists w4. split; [exact Hr|]. split; [vm_compute; reflexivity|]. split; [vm_compute; reflexivity|].
  exact (proj1 (proj1 (lease_spent_once 0 w4 Hr) 0%nat (with_lease_state RESERVED first_lease) eq_refl eq_refl)).
Defined.
