(* ===== verification/Multi.v ===== *)
(** * Runs over several sessions ([phase1420/multi.py])

    The sessions of a calendar are run one after the other, each by the engine of
    [Scheduler] over a guarded portfolio that starts with what the session before it left.
    Every session leaves an outcome file and a record; the records form a hash chain.  A
    run that stopped is resumed from its files; a run that ended is verified against them.

    The dictionaries that the source builds, writes and reads back are values of [Json]
    with their fields sorted ([dict]): nothing in the source depends on the order of their
    fields, which the files do not keep.  Two dictionaries are equal when their canonical
    texts are.  A directory of numbered
    files is a finite map from numbers; a file that is not one of those of a run is not
    represented.  The lock file is taken and released within a call, so that only a lock
    that is already there matters. *)
From S2P Require Import Prelude Decimal DecimalFacts Text Dataset Costs Phase14 Strategies Execution Json JsonFacts JsonRead CanonicalPolicy Research Exec Qualification Chain PyText Paper.
From S2P Require Import Portfolio PortfolioRun Scheduler.
Open Scope list_scope.
Open Scope Z_scope.

Definition ZERO : string := GENESIS.
Definition SCHEMA : string := "Phase1420MultiSession.v1".
Definition FILE_LIMIT : Z := 64 * 1024 * 1024.
Definition TOTAL_LIMIT : Z := 256 * 1024 * 1024.

Record Day := mkTradingDay { dy_requests : list Request; dy_config : Configuration; dy_commands : list Command }.
Record Limits := mkLimits { lm_cumulative_drawdown : option dec; lm_daily_reset_authorization : option string }.

(** ** Dictionaries *)

Definition dict (fields : list (string * json)) : json := norm (JObj fields).
Definition same (a b : json) : bool := bool_decide (canonical a = canonical b).
(** [d[k]] *)
Definition key (k : string) (d : json) : res json :=
  match d with JObj l => of_option KeyError (find l k) | _ => Err TypeError end.
(** [Decimal(v)] *)
Definition amount (v : json) : res dec :=
  match v with
  | JStr s => of_option (DecimalException InvalidOperation) (dec_of_str s)
  | JInt n => Ok (dZ n)
  | _ => Err TypeError
  end.
Definition amount_at (k : string) (d : json) : res dec := v ← key k d; amount v.
(** [d | {k: v}] *)
Definition updated (d : json) (k : string) (v : json) : res json :=
  match d with JObj l => Ok (JObj (store l k v)) | _ => Err TypeError end.
(** [v.items()] *)
Definition fields_of (v : json) : res (list (string * json)) := match v with JObj l => Ok l | _ => Err TypeError end.
(** Iteration over a list. *)
Definition elements_of (v : json) : res (list json) := match v with JArr l => Ok l | _ => Err TypeError end.

(** ** Files *)

Definition load (file : option bytes) : res json :=
  raw ← of_option (ValueError "REPORT_MISSING") file;
  reject! FILE_LIMIT <? Z.of_nat (length raw) as "RESOURCE_BUDGET";
  v ← json_loads raw;
  require! match v with JObj _ => true | _ => false end else "JOURNAL_CORRUPTED";
  Ok v.
Definition envelope (value : json) : bytes :=
  canonical (JObj [("fingerprint", JStr (sha (canonical value))); ("value", value)])%string.
Definition unpack (file : option bytes) : res json :=
  e ← load file;
  fields ← fields_of e;
  require! bool_decide (list_to_set fields.*1 =@{gset string} {["fingerprint"; "value"]})%string else "JOURNAL_CORRUPTED";
  value ← key "value" e;
  fingerprint ← key "fingerprint" e;
  require! same fingerprint (JStr (sha (canonical value))) else "JOURNAL_CORRUPTED";
  Ok value.

(** The files of a run. *)
Record Directory := mkDirectory {
  dr_plan : option bytes; dr_outcomes : gmap nat bytes; dr_records : gmap nat bytes; dr_views : gmap string bytes;
  dr_summary : option bytes; dr_acks : gmap nat bytes; dr_owned : bool
}.
Definition empty_directory : Directory := mkDirectory None ∅ ∅ ∅ None ∅ false.
Definition with_plan (x : option bytes) (d : Directory) : Directory :=
  mkDirectory x (dr_outcomes d) (dr_records d) (dr_views d) (dr_summary d) (dr_acks d) (dr_owned d).
Definition with_outcome (i : nat) (raw : bytes) (d : Directory) : Directory :=
  mkDirectory (dr_plan d) (<[i := raw]> (dr_outcomes d)) (dr_records d) (dr_views d) (dr_summary d) (dr_acks d) (dr_owned d).
Definition with_record (i : nat) (raw : bytes) (d : Directory) : Directory :=
  mkDirectory (dr_plan d) (dr_outcomes d) (<[i := raw]> (dr_records d)) (dr_views d) (dr_summary d) (dr_acks d) (dr_owned d).
Definition with_view (name : string) (raw : bytes) (d : Directory) : Directory :=
  mkDirectory (dr_plan d) (dr_outcomes d) (dr_records d) (<[name := raw]> (dr_views d)) (dr_summary d) (dr_acks d) (dr_owned d).
Definition with_summary (x : option bytes) (d : Directory) : Directory :=
  mkDirectory (dr_plan d) (dr_outcomes d) (dr_records d) (dr_views d) x (dr_acks d) (dr_owned d).
Definition with_ack (i : nat) (raw : bytes) (d : Directory) : Directory :=
  mkDirectory (dr_plan d) (dr_outcomes d) (dr_records d) (dr_views d) (dr_summary d) (<[i := raw]> (dr_acks d)) (dr_owned d).

(** [publish(path, raw)], for the file at [path] and the assignment of its content. *)
Definition publish (path : Directory -> option bytes) (write : bytes -> Directory -> Directory) (raw : bytes)
    : exec Directory unit :=
  d ← get;
  match path d with
  | Some old => raises_if (negb (bool_decide (old = raw))) "CONTENT_CONFLICT"
  | None => modify (write raw)
  end.

(** [sorted(glob("*"))] of the names [f"{i:04}.json"]: the files, when they are numbered
    from zero without a gap. *)
Definition numbered (files : gmap nat bytes) (msg : string) : res (list bytes) :=
  mapR (fun i => of_option (ValueError msg) (files !! i)) (seq 0 (base.size files)).
Definition record_step (rows : list json * string) (raw : bytes) : res (list json * string) :=
  row ← unpack (Some raw);
  previous ← key "previous" row;
  sequence ← key "sequence" row;
  require! same previous (JStr rows.2) && same sequence (JInt (Z.of_nat (length rows.1))) else "JOURNAL_CORRUPTED";
  Ok (rows.1 ++ [row], sha raw).
Definition records (d : Directory) : res (list json) :=
  files ← numbered (dr_records d) "SESSION_RECORD_MISSING";
  rows ← foldR record_step ([], ZERO) files;
  Ok rows.1.
Definition head (d : Directory) : res string :=
  rows ← records d;
  match rows with
  | [] => Ok ZERO
  | _ => raw ← of_option (ValueError "SESSION_RECORD_MISSING") (dr_records d !! pred (length rows)); Ok (sha raw)
  end.

(** ** Alerts *)

Definition alert (run_id day at_ code evidence severity : string) : res json :=
  require! bool_decide (severity ∈ ["INFO"; "WARNING"; "ERROR"; "CRITICAL"]%string) else "INVALID_ALERT_SEVERITY";
  let row := [("run_id", JStr run_id); ("session_date", JStr day); ("timestamp", JStr at_); ("severity", JStr severity);
              ("source", JStr "phase1420"); ("reason", JStr code); ("evidence", JStr evidence);
              ("acknowledgment", JStr "UNACKNOWLEDGED")]%string in
  Ok (JObj (("alert_id"%string, JStr (sha (canonical (JObj row)))) :: row)).

Section multi.
Context `{Dump Definition_} `{Dump Bar} `{Dump Row} `{Dump Risk} `{Dump Dataset_} `{Dump Phase14.Policy} `{Dump Request}.
Context `{DumpJson ResearchWindow} `{DumpJson IntradayCostSchedule} `{DumpJson Settings} `{DumpJson Authorization}.
Context `{DumpJson Policy} `{DumpJson Control} `{DumpPython Policy}.
Context `{DumpJson Calendar} `{DumpJson Configuration} `{DumpJson Command} `{DumpJson Day} `{DumpJson Limits}.
Context (definition_json : Definition_ -> json) (uncertain : Metrics -> bool) (software_hash universe_hash : string).
Context (universe : list string) (inventory : json).
(** The inventories of the software, [software()] and [scheduler_software()]. *)
Context (software scheduler_software : json).

(** ** One session *)

Definition watch_of (c : Coordinator) : Watch := default (mkWatch d0 d0 d0) (co_watch c).

(** [GuardedPortfolio(binding, policy)], and the attributes of the starting state. *)
Definition guarded_start (binding : gmap string json) (policy : Policy) (day : Z) (cash : dec) (w : Watch) : Coordinator :=
  let c := coordinator_init binding policy in
  mkCoordinator (co_binding c) (co_run_id c) (co_policy c) cash cash (co_fees c) (co_realized c) (co_orders c)
    (co_positions c) (co_reservations c) (co_marks c) (co_consumed c) (co_events c) (co_halted c) (Some day) cash
    (co_crash c) (Some w).
Definition unresolved (start : json) : res bool :=
  halted ← key "halted" start;
  if truthy halted then Ok true
  else
    positions ← key "positions" start;
    if truthy positions then Ok true else reservations ← key "reservations" start; Ok (truthy reservations).

Definition session_engine (day : Day) (policy : Policy) (control : Control) (calendar : Calendar) (limits : Limits)
    (start binding : json) : res Engine :=
  e ← engine_init definition_json universe_hash universe inventory (dy_requests day) policy control calendar
        (dy_config day) None;
  let s := en_setup e in
  let extended := <["starting_state"%string := start]> (<["multi_session"%string := binding]> (st_binding s)) in
  cash ← amount_at "cash" start;
  high_water ← amount_at "high_water" start;
  maximum_drawdown ← amount_at "maximum_drawdown" start;
  limit ← of_option AssertionError (lm_cumulative_drawdown limits);
  let portfolio := guarded_start extended policy (cf_trading_date (dy_config day)) cash
                     (mkWatch high_water maximum_drawdown limit) in
  stop ← unresolved start;
  reject! stop as "UNRESOLVED_PRIOR_SESSION";
  Ok (mkEngine
        (mkSetup (st_requests s) (st_sources s) (st_policy s) (st_control s) (st_calendar s) (st_config s) (st_session s)
           extended (sha (dict_text extended)) (st_crash s))
        portfolio (en_state e) (en_clock e) (en_history e) (en_pending e) (en_seen e) (en_audit e) (en_transitions e)
        (en_gaps e) (en_decisions e) (en_candle_ids e)).

(** The commands of the day; a session that they leave unfinished is halted. *)
Definition session_commands (day : Day) : exec Engine unit :=
  _ ← each (fun command => _ ← apply uncertain software_hash universe command false; mret tt) (dy_commands day);
  e ← get;
  when! negb (bool_decide (en_state e = COMPLETED)) && negb (bool_decide (en_state e = PAPER_HALTED)) do (
    command ← lift (of_option IndexError (last (dy_commands day)));
    session_halt "INCOMPLETE_SESSION" (cd_at command)).

Definition completed_session (e : Engine) (a : PaperAccount) : bool :=
  bool_decide (en_state e = COMPLETED) && is_nil (pa_positions a) && is_nil (pa_reservations a).
Definition positions_json (a : PaperAccount) : json := JObj ((fun x => (x.1, JObj (order_fields x.2))) <$> pa_positions a).
Definition reservations_json (a : PaperAccount) : json := JObj ((fun x => (x.1, jdec x.2)) <$> pa_reservations a).
Definition end_state (start : json) (e : Engine) (a : PaperAccount) : res json :=
  net ← amount_at "cumulative_net" start;
  net ← padd net (pa_realized a);
  fees ← amount_at "cumulative_fees" start;
  fees ← padd fees (pa_fees a);
  let w := watch_of (en_portfolio e) in
  Ok (JObj
    [("cash", jdec (pa_cash a)); ("equity", jdec (pa_equity a)); ("cumulative_net", jdec net);
     ("cumulative_fees", jdec fees); ("high_water", jdec (wt_high_water w));
     ("maximum_drawdown", jdec (wt_maximum_drawdown w)); ("positions", positions_json a);
     ("reservations", reservations_json a); ("halted", JBool (negb (completed_session e a) || pa_halted a))]%string).

Definition execute (day : Day) (policy : Policy) (control : Control) (calendar : Calendar) (limits : Limits)
    (start binding : json) : res json :=
  e ← session_engine day policy control calendar limits start binding;
  let '(e, outcome) := session_commands day e in
  _ ← outcome;
  a ← account (en_portfolio e);
  end_ ← end_state start e a;
  equity ← amount_at "equity" start;
  explained ← padd equity (pa_realized a);
  explained ← padd explained (pa_unrealized a);
  require! deqb (pa_equity a) explained else "PORTFOLIO_RECONCILIATION";
  reports ← session_output e;
  Ok (dict
    [("binding", binding); ("start", start); ("end", end_); ("complete", JBool (completed_session e a));
     ("daily", JObj (account_fields a)); ("reports", JObj reports);
     ("session_id", JStr (st_identifier (en_setup e)))]%string).
(** The outcome of a session of the calendar that no day covers. *)
Definition missing (start binding : json) : res json :=
  end_ ← updated start "halted" (JBool true);
  Ok (dict [("binding", binding); ("start", start); ("end", end_); ("complete", JBool false); ("daily", JNull);
            ("reports", JObj []); ("session_id", JNull)]%string).

(** ** The sessions of a calendar *)

(** The options of a run. *)
Record Options := mkOptions {
  op_resume : bool; op_verify_only : bool; op_expected_head : option string; op_crash : option string
}.
(** The arguments that a run binds, and its digest. *)
Record Plan := mkPlan {
  pl_days : list Day; pl_policy : Policy; pl_control : Control; pl_calendar : Calendar; pl_limits : Limits;
  pl_run_id : string; pl_options : Options; pl_prior : nat
}.
(** The variables of the loop. *)
Record Carry := mkCarry {
  cy_state : json; cy_previous : string; cy_accepted : list json; cy_notifications : list json; cy_daily : list json;
  cy_strategies : list (string * dec); cy_symbols : list (string * dec); cy_total : Z
}.

Definition crashes (o : Options) (points : list string) : bool :=
  match op_crash o with Some c => bool_decide (c ∈ points) | None => false end.
Definition crash_if (b : bool) (o : Options) : exec Directory unit :=
  lift (if b then Err (InterruptedError (default ""%string (op_crash o))) else Ok tt).

Definition day_of (days : list Day) (date : Z) : option Day :=
  List.find (fun d => bool_decide (cf_trading_date (dy_config d) = date)) days.
Definition day_hash (d : Day) : string := sha (canonical (model_dump_json_value d)).
Definition multi_binding (p : Plan) (c : Carry) (i : nat) (date : Z) (d : option Day) : json :=
  dict [("run_id", JStr (pl_run_id p)); ("sequence", JInt (Z.of_nat i)); ("date", JStr (date_text date));
        ("previous", JStr (cy_previous c)); ("starting_state", JStr (sha (canonical (cy_state c))));
        ("calendar", JStr (calendar_fingerprint (pl_calendar p))); ("day", jopt (JStr ∘ day_hash) d)]%string.

(** The outcome of a session, read back or computed and published, and its bytes. *)
Definition session_outcome (p : Plan) (c : Carry) (i : nat) (d : option Day) (binding : json)
    : exec Directory (json * bytes) :=
  dir ← get;
  _ ← raises_if (Nat.ltb i (pl_prior p) && negb (bool_decide (is_Some (dr_outcomes dir !! i)))) "REPORT_MISSING";
  match dr_outcomes dir !! i with
  | Some raw =>
      outcome ← lift (unpack (Some raw));
      bound ← lift (key "binding" outcome);
      start ← lift (key "start" outcome);
      _ ← raises_if (negb (same bound binding) || negb (same start (cy_state c))) "CARRY_FORWARD_MISMATCH";
      mret (outcome, raw)
  | None =>
      _ ← raises_if (op_verify_only (pl_options p)) "REPORT_MISSING";
      outcome ← lift (match d with
        | None => missing (cy_state c) binding
        | Some d => execute d (pl_policy p) (pl_control p) (pl_calendar p) (pl_limits p) (cy_state c) binding
        end);
      let raw := envelope outcome in
      _ ← raises_if ((FILE_LIMIT <? Z.of_nat (length raw)) || (TOTAL_LIMIT <? cy_total c + Z.of_nat (length raw))) "RESOURCE_BUDGET";
      _ ← publish (fun dir => dr_outcomes dir !! i) (with_outcome i) raw;
      mret (outcome, raw)
  end.

Definition session_alerts (p : Plan) (session : DatedSession) (d : option Day) (binding : json) (complete : bool) (raw : bytes)
    : res (list json) :=
  let date := date_text (session_day session) in
  started ← match d with
    | Some d =>
        command ← of_option IndexError (dy_commands d !! 0%nat);
        a ← alert (pl_run_id p) date (iso (cd_at command)) "SESSION_STARTED" (sha (canonical binding)) "INFO";
        Ok [a]
    | None => Ok []
    end;
  let code := if complete then "SESSION_COMPLETED" else match d with None => "SESSION_MISSING" | _ => "PAPER_HALT_TRIGGERED" end in
  ended ← alert (pl_run_id p) date (iso (ds_end session)) code (sha raw) (if complete then "INFO" else "CRITICAL");
  Ok (started ++ [ended]).

Definition publish_record (p : Plan) (i : nat) (raw : bytes) : exec Directory unit :=
  dir ← get;
  if Nat.ltb i (pl_prior p)
  then raises_if (negb (bool_decide (dr_records dir !! i = Some raw))) "JOURNAL_CORRUPTED"
  else
    _ ← raises_if (op_verify_only (pl_options p)) "SESSION_RECORD_MISSING";
    publish (fun dir => dr_records dir !! i) (with_record i) raw.

(** [target[key] = target.get(key, D(0)) + D(value)] over a table of a session. *)
Definition accumulate (target : list (string * dec)) (x : string * json) : res (list (string * dec)) :=
  v ← amount x.2;
  total ← padd (default d0 (find target x.1)) v;
  Ok (store target x.1 total).
Definition daily_tables (c : Carry) (date : string) (outcome : json)
    : res (list json * list (string * dec) * list (string * dec)) :=
  daily ← key "daily" outcome;
  if truthy daily then
    fields ← fields_of daily;
    reports ← key "reports" outcome;
    by_strategy ← key "strategy-pnl.json" reports;
    by_strategy ← fields_of by_strategy;
    strategies ← foldR accumulate (cy_strategies c) by_strategy;
    by_symbol ← key "symbol-pnl.json" reports;
    by_symbol ← fields_of by_symbol;
    symbols ← foldR accumulate (cy_symbols c) by_symbol;
    Ok (cy_daily c ++ [JObj (("date"%string, JStr date) :: fields)], strategies, symbols)
  else Ok (cy_daily c, cy_strategies c, cy_symbols c).

Definition session_step (p : Plan) (c : Carry) (i : nat) (session : DatedSession) : exec Directory Carry :=
  let date := session_day session in
  let d := day_of (pl_days p) date in
  let binding := multi_binding p c i date d in
  '(outcome, raw) ← session_outcome p c i d binding;
  let total := cy_total c + Z.of_nat (length raw) in
  _ ← raises_if (TOTAL_LIMIT <? total) "RESOURCE_BUDGET";
  _ ← crash_if (crashes (pl_options p) ["before_record"%string] && Nat.eqb i 0) (pl_options p);
  complete ← lift (key "complete" outcome);
  alerts ← lift (session_alerts p session d binding (truthy complete) raw);
  let row := JObj [("sequence", JInt (Z.of_nat i)); ("previous", JStr (cy_previous c)); ("binding", binding);
                   ("outcome_hash", JStr (sha raw)); ("alerts", JArr alerts)]%string in
  let raw_record := envelope row in
  _ ← publish_record p i raw_record;
  _ ← crash_if (crashes (pl_options p) ["after_record"; "during_carry"; "after_completed"]%string && Nat.eqb i 0) (pl_options p);
  end_ ← lift (key "end" outcome);
  start ← lift (key "start" outcome);
  let accepted := JObj [("date", JStr (date_text date)); ("complete", complete); ("head", JStr (sha raw_record));
                        ("starting_state", start); ("closing_state", end_)]%string in
  '(daily, strategies, symbols) ← lift (daily_tables c (date_text date) outcome);
  mret (mkCarry end_ (sha raw_record) (cy_accepted c ++ [accepted]) (cy_notifications c ++ alerts) daily strategies symbols total).

(** The loop stops at the first state that is halted. *)
Fixpoint sessions_loop (p : Plan) (c : Carry) (l : list (nat * DatedSession)) : exec Directory Carry :=
  match l with
  | [] => mret c
  | (i, session) :: l =>
      halted ← lift (key "halted" (cy_state c));
      if truthy halted then mret c
      else c ← session_step p c i session; sessions_loop p c l
  end.

Definition initial_state (policy : Policy) : json :=
  let capital := match rk_capital (pp_base policy) with Some c => if coef c =? 0 then d0 else c | None => d0 end in
  dict [("cash", jdec capital); ("equity", jdec capital); ("cumulative_net", JStr "0"); ("cumulative_fees", JStr "0");
        ("high_water", jdec capital); ("maximum_drawdown", JStr "0"); ("positions", JObj []); ("reservations", JObj []);
        ("halted", JBool false)]%string.
Definition start_carry (policy : Policy) : Carry := mkCarry (initial_state policy) ZERO [] [] [] [] [] 0.

(** ** Reports *)

Definition table_text (l : list (string * dec)) : json := JObj ((fun x => (x.1, jdec x.2)) <$> by_key l).
Definition count_days (test : dec -> bool) (daily : list json) : res Z :=
  foldR (fun n d => realized ← amount_at "realized" d; Ok (if test realized then n + 1 else n)) 0 daily.
(** An entry of a view: fields of the closing state of a session. *)
Definition session_view (fields : list string) (s : json) : res json :=
  date ← key "date" s;
  closing ← key "closing_state" s;
  values ← mapR (fun k => v ← key k closing; Ok (k, v)) fields;
  Ok (JObj (("date"%string, date) :: values)).
Definition halted_session (s : json) : res bool := closing ← key "closing_state" s; v ← key "halted" closing; Ok (truthy v).
Definition missing_alert (a : json) : res bool := reason ← key "reason" a; Ok (same reason (JStr "SESSION_MISSING")).
Fixpoint filterR {A} (f : A -> res bool) (l : list A) : res (list A) :=
  match l with
  | [] => Ok []
  | x :: l => keep ← f x; l ← filterR f l; Ok (if keep : bool then x :: l else l)
  end.

Definition report_views (report : json) (limits : Limits) : res (list (string * json)) :=
  sessions_json ← key "sessions" report;
  sessions ← elements_of sessions_json;
  daily ← key "daily" report;
  equity ← mapR (session_view ["equity"%string]) sessions;
  drawdown ← mapR (session_view ["high_water"; "maximum_drawdown"]%string) sessions;
  strategies ← key "strategies" report;
  symbols ← key "symbols" report;
  state ← key "state" report;
  halted ← key "halted" state;
  complete ← key "complete" report;
  halts ← filterR halted_session sessions;
  alerts_json ← key "alerts" report;
  alerts ← elements_of alerts_json;
  missing_alerts ← filterR missing_alert alerts;
  head_ ← key "head" report;
  Ok [("session-status.json", sessions_json); ("daily-pnl.json", daily); ("equity-curve.json", JArr equity);
      ("drawdown.json", JArr drawdown); ("strategy-pnl.json", strategies); ("symbol-pnl.json", symbols);
      ("risk-health.json", JObj [("limits", model_dump_json_value limits); ("halted", halted); ("reconciled", JBool true);
                                 ("complete", complete); ("scope", JStr "SYNTHETIC_FIXTURE")]);
      ("cross-session-halt.json", JArr halts); ("missing-sessions.json", JArr missing_alerts);
      ("alerts.json", alerts_json); ("carry-forward.json", sessions_json);
      ("recovery.json", JObj [("head", head_); ("completed_sessions_reexecuted", JBool false);
                              ("independent_rollback_resistance", JBool false);
                              ("external_anchor_required", JBool true)])]%string.

Definition multi_report (p : Plan) (c : Carry) : res json :=
  halted ← key "halted" (cy_state c);
  winning ← count_days (fun r => dltb d0 r) (cy_daily c);
  losing ← count_days (fun r => dltb r d0) (cy_daily c);
  let report :=
    [("schema", JStr SCHEMA); ("scope", JStr "SYNTHETIC_FIXTURE"); ("run_id", JStr (pl_run_id p)); ("head", JStr (cy_previous c));
     ("complete", JBool (negb (truthy halted) && Nat.eqb (length (cy_accepted c)) (length (ca_sessions (pl_calendar p)))));
     ("state", cy_state c); ("sessions", JArr (cy_accepted c)); ("daily", JArr (cy_daily c));
     ("alerts", JArr (cy_notifications c)); ("strategies", table_text (cy_strategies c));
     ("symbols", table_text (cy_symbols c)); ("winning_sessions", JInt winning); ("losing_sessions", JInt losing);
     ("genuine_qualified", JInt 0); ("operational", JStr "NO_GO"); ("Gate_A", JStr "NOT_AUTHORIZED");
     ("Gate_B", JStr "NOT_AUTHORIZED")]%string in
  Ok (JObj report).

(** A view, and the summary: compared with its file, or published. *)
Definition publish_view (verify_only : bool) (x : string * json) : exec Directory unit :=
  let payload := canonical x.2 in
  if verify_only
  then d ← get; raises_if (negb (bool_decide (dr_views d !! x.1 = Some payload))) "REPORT_MISSING_OR_CHANGED"
  else publish (fun d => dr_views d !! x.1) (with_view x.1) payload.
Definition publish_summary (verify_only : bool) (raw : bytes) : exec Directory unit :=
  if verify_only
  then d ← get; raises_if (negb (bool_decide (dr_summary d = Some raw))) "REPORT_REPLAY_MISMATCH"
  else publish dr_summary (fun raw => with_summary (Some raw)) raw.

Definition finish (p : Plan) (c : Carry) : exec Directory json :=
  _ ← raises_if (Nat.ltb (length (cy_accepted c)) (pl_prior p)) "UNEXPECTED_SESSION_RECORD";
  dir ← get;
  _ ← raises_if (negb (Nat.eqb (base.size (dr_outcomes dir)) (length (cy_accepted c)))) "UNEXPECTED_SESSION_OUTCOME";
  report ← lift (multi_report p c);
  views ← lift (report_views report (pl_limits p));
  report ← lift (updated report "reports" (JObj ((fun x => (x.1, JStr (sha (canonical x.2)))) <$> views)));
  _ ← each (publish_view (op_verify_only (pl_options p))) views;
  _ ← publish_summary (op_verify_only (pl_options p)) (canonical report);
  mret report.

(** ** The run *)

Definition run_binding (days : list Day) (policy : Policy) (control : Control) (calendar : Calendar) (limits : Limits)
    : res json :=
  fingerprint ← policy_fingerprint policy;
  Ok (JObj
    [("schema", JStr SCHEMA); ("days", JArr ((JStr ∘ day_hash) <$> days)); ("calendar", JStr (calendar_fingerprint calendar));
     ("policy", JStr fingerprint); ("policy_version", JStr (pp_version policy)); ("control", model_dump_json_value control);
     ("limits", model_dump_json_value limits); ("software", software);
     ("scheduler_software", JStr (sha (canonical scheduler_software)))]%string).

Definition total_bars (days : list Day) : Z :=
  foldr Z.add 0 ((fun d => bar_count (dict_by rq_symbol (dy_requests d))) <$> days).
Definition run_checks (days : list Day) (calendar : Calendar) (limits : Limits) : res unit :=
  reject! is_nil days || (64 <? Z.of_nat (length days)) || is_nil (ca_sessions calendar) ||
          (64 <? Z.of_nat (length (ca_sessions calendar))) as "RESOURCE_BUDGET";
  reject! no_money (lm_cumulative_drawdown limits) || no_text (lm_daily_reset_authorization limits) as "RISK_POLICY_GAP";
  reject! 200000 <? total_bars days as "RESOURCE_BUDGET";
  let dates := (cf_trading_date ∘ dy_config) <$> days in
  require! bool_decide (NoDup dates) else "SESSION_DUPLICATE";
  require! bool_decide (sort_by Z.leb dates = dates) else "SESSION_OUT_OF_ORDER";
  require! forallb (fun d => bool_decide (d ∈ session_day <$> ca_sessions calendar)) dates else "CALENDAR_MISMATCH";
  Ok tt.
(** What the files of the directory allow; the number of records in it. *)
Definition directory_checks (o : Options) (binding : json) (d : Directory) : res nat :=
  reject! match dr_plan d with Some old => negb (bool_decide (old = canonical binding)) | None => false end
    as "POLICY_DATASET_SOFTWARE_BINDING_MISMATCH";
  reject! bool_decide (is_Some (dr_summary d)) && negb (op_verify_only o) as "TERMINAL_RUN_NO_AUTOMATIC_RESUME";
  prior ← records d;
  reject! (negb (is_nil prior) || bool_decide (is_Some (dr_plan d))) && negb (op_resume o || op_verify_only o)
    as "EXPLICIT_RECOVERY_REQUIRED";
  _ ← (if op_resume o || op_verify_only o then
         match op_expected_head o with
         | None => Err (ValueError "EXTERNAL_HEAD_MISMATCH")
         | Some expected => tip ← head d; require! bool_decide (expected = tip) else "EXTERNAL_HEAD_MISMATCH"; Ok tt
         end
       else Ok tt);
  reject! op_verify_only o && negb (bool_decide (is_Some (dr_summary d))) as "REPORT_MISSING";
  reject! dr_owned d as "AMBIGUOUS_OWNER";
  Ok (length prior).

Definition run_sessions (days : list Day) (policy : Policy) (control : Control) (calendar : Calendar) (limits : Limits)
    (o : Options) (binding : json) : exec Directory json :=
  _ ← lift (run_checks days calendar limits);
  d ← get;
  prior ← lift (directory_checks o binding d);
  _ ← when! negb (op_verify_only o) do publish dr_plan (fun raw => with_plan (Some raw)) (canonical binding);
  _ ← crash_if (crashes o ["before_first"%string]) o;
  let p := mkPlan days policy control calendar limits (sha (canonical binding)) o prior in
  c ← sessions_loop p (start_carry policy) (zip (seq 0 (length (ca_sessions calendar))) (ca_sessions calendar));
  finish p c.

(** The exception [Rejected] carries the alert of a run that failed; what [str] makes of
    an exception other than [ValueError] is the argument [key_text]. *)
Definition exception_text (key_text : string) (e : exn) : option string :=
  match e with
  | ValueError msg => Some msg
  | KeyError => Some key_text
  | _ => None
  end.
Definition rejection_alert (days : list Day) (run_id msg : string) (binding : json) : res json :=
  match days with
  | [] => alert run_id "UNAVAILABLE" "UNAVAILABLE" msg (sha (canonical binding)) "CRITICAL"
  | d :: _ =>
      command ← of_option IndexError (dy_commands d !! 0%nat);
      alert run_id (date_text (cf_trading_date (dy_config d))) (iso (cd_at command)) msg (sha (canonical binding)) "CRITICAL"
  end.
(** What a run gives: a report, the alert of a rejection, or another exception. *)
Inductive Ran := Reported (report : json) | Rejected (notification : json) | Raised (e : exn).
Definition run (key_text : string) (days : list Day) (policy : Policy) (control : Control) (calendar : Calendar)
    (limits : Limits) (o : Options) (d : Directory) : Directory * Ran :=
  match run_binding days policy control calendar limits with
  | Err e => (d, Raised e)
  | Ok binding =>
      let '(d, r) := run_sessions days policy control calendar limits o binding d in
      (d, match r with
          | Ok report => Reported report
          | Err e =>
              match exception_text key_text e with
              | None => Raised e
              | Some msg =>
                  match rejection_alert days (sha (canonical binding)) msg binding with
                  | Ok a => Rejected a
                  | Err e => Raised e
                  end
              end
          end)
  end.
End multi.

(** ** Acknowledgments *)

Record Acks := mkAcks { ak_rows : list json; ak_previous : string; ak_seen : list json }.
Definition alert_ids (report : json) : res (list json) :=
  alerts ← key "alerts" report; alerts ← elements_of alerts; mapR (key "alert_id") alerts.
Definition contains_json (l : list json) (v : json) : bool := existsb (same v) l.
Definition ack_step (ids : list json) (x : Acks) (raw : bytes) : res Acks :=
  row ← unpack (Some raw);
  previous ← key "previous" row;
  id ← key "alert_id" row;
  reject! negb (same previous (JStr (ak_previous x))) || negb (contains_json ids id) || contains_json (ak_seen x) id
    as "ACK_JOURNAL_CORRUPTED";
  Ok (mkAcks (ak_rows x ++ [row]) (sha raw) (ak_seen x ++ [id])).
Definition ack_journal (d : Directory) : res Acks :=
  report ← load (dr_summary d);
  ids ← alert_ids report;
  files ← numbered (dr_acks d) "ACK_JOURNAL_CORRUPTED";
  foldR (ack_step ids) (mkAcks [] ZERO []) files.
Definition acknowledgments (expected_head : option string) (d : Directory) : res (list json) :=
  x ← ack_journal d;
  reject! match expected_head with Some h => negb (bool_decide (h = ak_previous x)) | None => false end
    as "ACK_EXTERNAL_HEAD_MISMATCH";
  Ok (ak_rows x).

(** The first row, or alert, of an identifier. *)
Definition with_id (id : string) (v : json) : res bool := i ← key "alert_id" v; Ok (same i (JStr id)).
Definition ack_row (report : json) (id : string) (at_ : Z) (evidence previous : string) : res json :=
  run_id ← key "run_id" report;
  Ok (JObj [("alert_id", JStr id); ("run_id", run_id); ("timestamp", JStr (iso at_)); ("evidence", JStr evidence);
            ("status", JStr "ACKNOWLEDGED"); ("resume_authorized", JBool false); ("previous", JStr previous)])%string.
Definition acknowledge (id : string) (at_ : Z) (evidence : string) : exec Directory json :=
  d ← get;
  report ← lift (load (dr_summary d));
  alerts ← lift (v ← key "alerts" report; elements_of v);
  found ← lift (filterR (with_id id) alerts);
  a ← lift (of_option (ValueError "INVALID_ACKNOWLEDGMENT") (found !! 0%nat));
  raised ← lift (v ← key "timestamp" a; match v with JStr t => fromisoformat t | _ => Err TypeError end);
  _ ← raises_if ((at_ <? raised) || negb (len evidence =? 64)) "INVALID_ACKNOWLEDGMENT";
  rows ← lift (acknowledgments None d);
  prior ← lift (filterR (with_id id) rows);
  match prior with
  | row :: _ =>
      timestamp ← lift (key "timestamp" row);
      reason ← lift (key "evidence" row);
      _ ← raises_if (negb (same timestamp (JStr (iso at_))) || negb (same reason (JStr evidence))) "ACK_CONFLICT";
      mret row
  | [] =>
      let n := length rows in
      previous ← lift (match rows with
        | [] => Ok ZERO
        | _ => raw ← of_option (ValueError "ACK_JOURNAL_CORRUPTED") (dr_acks d !! pred n); Ok (sha raw)
        end);
      row ← lift (ack_row report id at_ evidence previous);
      _ ← publish (fun d => dr_acks d !! n) (with_ack n) (envelope row);
      mret row
  end.

Definition alert_view (expected_head : option string) (d : Directory) : res (list json) :=
  rows ← acknowledgments expected_head d;
  acknowledged ← mapR (key "alert_id") rows;
  report ← load (dr_summary d);
  alerts ← key "alerts" report;
  alerts ← elements_of alerts;
  mapR (fun a =>
    id ← key "alert_id" a;
    updated a "acknowledgment"
      (JStr (if contains_json acknowledged id then "ACKNOWLEDGED" else "UNACKNOWLEDGED"))) alerts.
