(* ===== verification/MultiFacts.v ===== *)
(** * Files that only grow, and what is read back

    A directory is below another when it holds some of its files.  Every step of a run
    only adds files, and reads back what an earlier step wrote; so a run over part of the
    files of another one does the same ([loop_sim], [finish_sim]). *)
From S2P Require Import Prelude Decimal DecimalFacts Text Dataset Costs Phase14 Strategies Execution Json JsonFacts JsonRead CanonicalPolicy Research Exec Qualification Chain PyText Paper.
From S2P Require Import Portfolio PortfolioRun Scheduler Multi.
Open Scope list_scope.
Open Scope Z_scope.

(** ** The order of directories *)

Record sub (d d' : Directory) : Prop := {
  sb_plan : forall x, dr_plan d = Some x -> dr_plan d' = Some x;
  sb_outcomes : dr_outcomes d ⊆ dr_outcomes d';
  sb_records : dr_records d ⊆ dr_records d';
  sb_views : dr_views d ⊆ dr_views d';
  sb_summary : forall x, dr_summary d = Some x -> dr_summary d' = Some x;
  sb_acks : dr_acks d = dr_acks d';
  sb_owned : dr_owned d = dr_owned d'
}.
#[export] Instance sub_preorder : PreOrder sub.
Proof.
  split.
  - intros d. by split.
  - intros d d1 d2 [? ? ? ? ? ? ?] [? ? ? ? ? ? ?]. split; eauto; try (by etrans); congruence.
Qed.
Lemma option_antisym {A} (x y : option A) :
  (forall a, x = Some a -> y = Some a) -> (forall a, y = Some a -> x = Some a) -> x = y.
Proof. intros H1 H2. destruct x as [a|], y as [b|]; try done; [by symmetry; apply H1|by specialize (H1 _ eq_refl)|by specialize (H2 _ eq_refl)]. Qed.
#[export] Instance sub_antisym : AntiSymm eq sub.
Proof.
  intros [p o r v s a w] [p' o' r' v' s' a' w'] [P O R V S A W] [P' O' R' V' S' A' W']. cbn in *.
  rewrite (option_antisym p p'), (option_antisym s s') by done. f_equal; try done; by apply (anti_symm (⊆)).
Qed.

(** A file of the directory: what reading and writing it promise. *)
Class Slot (path : Directory -> option bytes) (write : bytes -> Directory -> Directory) : Prop := {
  slot_read : forall raw d, path (write raw d) = Some raw;
  slot_sub : forall d d' x, sub d d' -> path d = Some x -> path d' = Some x;
  slot_below : forall raw d d', sub d d' -> path d' = Some raw -> sub (write raw d) d';
  slot_extend : forall raw d, path d = None -> sub d (write raw d)
}.
#[export] Instance plan_slot : Slot dr_plan (fun raw => with_plan (Some raw)).
Proof.
  split.
  - done.
  - intros d d' x Hs. apply Hs.
  - intros raw d d' [? ? ? ? ? ? ?] E. split; try done. cbn. by intros x [= <-].
  - intros raw d E. split; try done. cbn. congruence.
Qed.
#[export] Instance summary_slot : Slot dr_summary (fun raw => with_summary (Some raw)).
Proof.
  split.
  - done.
  - intros d d' x Hs. apply Hs.
  - intros raw d d' [? ? ? ? ? ? ?] E. split; try done. cbn. by intros x [= <-].
  - intros raw d E. split; try done. cbn. congruence.
Qed.
Lemma insert_below `{Countable K} {A} (m m' : gmap K A) k x : m ⊆ m' -> m' !! k = Some x -> <[k := x]> m ⊆ m'.
Proof. intros Hm Hk. apply map_subseteq_spec. intros j y. rewrite lookup_insert_Some. intros [[<- <-]|[_ Hj]]; [done|]. by eapply lookup_weaken. Qed.
#[export] Instance outcome_slot i : Slot (fun d => dr_outcomes d !! i) (with_outcome i).
Proof.
  split.
  - intros raw d. apply lookup_insert_eq.
  - intros d d' x Hs E. by eapply lookup_weaken; [|apply Hs].
  - intros raw d d' [? ? ? ? ? ? ?] E. split; try done. by apply insert_below.
  - intros raw d E. split; try done. by apply insert_subseteq.
Qed.
#[export] Instance record_slot i : Slot (fun d => dr_records d !! i) (with_record i).
Proof.
  split.
  - intros raw d. apply lookup_insert_eq.
  - intros d d' x Hs E. by eapply lookup_weaken; [|apply Hs].
  - intros raw d d' [? ? ? ? ? ? ?] E. split; try done. by apply insert_below.
  - intros raw d E. split; try done. by apply insert_subseteq.
Qed.
#[export] Instance view_slot name : Slot (fun d => dr_views d !! name) (with_view name).
Proof.
  split.
  - intros raw d. apply lookup_insert_eq.
  - intros d d' x Hs E. by eapply lookup_weaken; [|apply Hs].
  - intros raw d d' [? ? ? ? ? ? ?] E. split; try done. by apply insert_below.
  - intros raw d E. split; try done. by apply insert_subseteq.
Qed.

Section publish.
Context {path : Directory -> option bytes} {write : bytes -> Directory -> Directory} `{!Slot path write}.

Lemma publish_inv raw d d' : publish path write raw d = (d', Ok tt) ->
  path d' = Some raw /\ ((path d = Some raw /\ d' = d) \/ (path d = None /\ d' = write raw d)).
Proof.
  unfold publish. intros E. run_step E. destruct (path d) as [old|] eqn:Hp; run_atom E.
  - bool_inv. subst. rewrite Hp. auto.
  - split; [apply slot_read|auto].
Qed.
Lemma publish_grows raw d d' : publish path write raw d = (d', Ok tt) -> sub d d'.
Proof. intros [_ [[_ ->]|[E ->]]]%publish_inv; [done|by apply slot_extend]. Qed.
Lemma publish_sim raw dA dA' dB dF : publish path write raw dA = (dA', Ok tt) -> sub dA dB -> sub dB dF -> sub dA' dF ->
  exists dB', publish path write raw dB = (dB', Ok tt) /\ sub dA' dB' /\ sub dB' dF.
Proof.
  intros [HA EA]%publish_inv HAB HBF HAF. pose proof (slot_sub _ _ _ HAF HA) as HF.
  unfold publish, mbind, exec_bind, get, modify, raises_if, lift. destruct (path dB) as [old|] eqn:HB.
  - pose proof (slot_sub _ _ _ HBF HB) as HB'. assert (old = raw) as -> by congruence. rewrite bool_decide_true by done. cbn.
    exists dB. split; [done|]. split; [|done]. destruct EA as [[_ ->]|[_ ->]]; [done|]. by apply slot_below.
  - exists (write raw dB). split; [done|]. split; [|by apply slot_below]. destruct EA as [[HA' ->]|[_ ->]].
    + rewrite (slot_sub _ _ _ HAB HA') in HB. discriminate HB.
    + apply slot_below; [|apply slot_read]. etrans; [exact HAB|by apply slot_extend].
Qed.
End publish.

(** ** Reading back *)

Lemma same_refl v : same v v = true.
Proof. by apply bool_decide_true. Qed.
Lemma same_norm v : same (norm v) v = true.
Proof. apply bool_decide_true. apply canonical_inj, norm_norm. Qed.
Lemma same_spec a b : same a b = true <-> norm a = norm b.
Proof. unfold same. by rewrite bool_decide_eq_true, canonical_inj. Qed.

(** The fields of a sorted dictionary are those it was built from. *)
Lemma find_cons {A} (l : list (string * A)) k v h : find ((k, v) :: l) h = if decide (k = h) then Some v else find l h.
Proof. done. Qed.
Lemma find_insert_field {A} (x : string * A) l k : find (insert_field x l) k = find (x :: l) k.
Proof.
  induction l as [|y l IH]; [done|]. cbn [insert_field]. destruct (String.leb x.1 y.1) eqn:E; [done|].
  destruct x as [kx vx], y as [ky vy]. rewrite find_cons, IH, !find_cons. cbn [fst] in E.
  destruct (decide (ky = k)) as [->|]; [|done]. rewrite decide_False; [done|]. intros ->.
  destruct (String.leb_total k k); congruence.
Qed.
Lemma find_sort_fields {A} (l : list (string * A)) k : find (sort_fields l) k = find l k.
Proof.
  induction l as [|[h v] l IH]; [done|]. cbn [sort_fields]. by rewrite find_insert_field, !find_cons, IH.
Qed.
Lemma find_map {A B} (f : A -> B) (l : list (string * A)) k : find (List.map (fun x => (x.1, f x.2)) l) k = f <$> find l k.
Proof. induction l as [|[h v] l IH]; [done|]. cbn. by destruct (decide (h = k)). Qed.
Lemma key_obj k l v : find l k = Some v -> key k (JObj l) = Ok v.
Proof. cbn. by intros ->. Qed.
Lemma key_norm k v : key k (norm v) = norm <$> key k v.
Proof. destruct v; try done. cbn. rewrite find_sort_fields, find_map. by destruct (find l k). Qed.
Lemma find_hit {A} (l : list (string * A)) k v : find ((k, v) :: l) k = Some v.
Proof. by rewrite find_cons, decide_True. Qed.
Lemma find_miss {A} (l : list (string * A)) k v h : k <> h -> find ((k, v) :: l) h = find l h.
Proof. intros. by rewrite find_cons, decide_False. Qed.
(** [find_key]: the value of a key of a literal dictionary. *)
Ltac find_key := unfold dict; rewrite ?key_norm; unfold key at 1; repeat first [rewrite find_hit | rewrite find_miss by discriminate]; cbn [of_option fmap res_fmap].

Lemma load_canonical v : Z.of_nat (length (canonical (JObj v))) <= FILE_LIMIT -> load (Some (canonical (JObj v))) = Ok (norm (JObj v)).
Proof.
  intros Hl. unfold load. cbn [of_option mbind res_bind].
  assert (raise_if (FILE_LIMIT <? Z.of_nat (length (canonical (JObj v)))) "RESOURCE_BUDGET" = Ok tt) as ->.
  { apply raise_if_Ok. by apply Z.ltb_ge. }
  cbn [mbind res_bind]. by rewrite loads_canonical.
Qed.
Lemma norm_sealed fp v : norm (JObj [("fingerprint", fp); ("value", v)]%string) = JObj [("fingerprint", norm fp); ("value", norm v)]%string.
Proof. reflexivity. Qed.
Lemma unpack_sealed file fp v : load file = Ok (JObj [("fingerprint", fp); ("value", v)]%string) ->
  same fp (JStr (sha (canonical v))) = true -> unpack file = Ok v.
Proof.
  intros Hl Hs. unfold unpack. rewrite Hl. cbn [mbind res_bind fields_of]. rewrite bool_decide_true by (cbn; set_solver).
  cbn [raise_unless mbind res_bind]. unfold key. cbn beta iota. rewrite (find_miss _ "fingerprint" fp "value") by discriminate. rewrite !find_hit.
  cbn [of_option mbind res_bind]. by rewrite Hs.
Qed.
Lemma unpack_envelope v : Z.of_nat (length (envelope v)) <= FILE_LIMIT -> unpack (Some (envelope v)) = Ok (norm v).
Proof.
  unfold envelope. intros Hl. apply (unpack_sealed _ (norm (JStr (sha (canonical v))))).
  - by rewrite load_canonical, norm_sealed.
  - assert (canonical (norm v) = canonical v) as -> by apply canonical_inj, norm_norm. apply same_norm.
Qed.
Lemma unpack_dict fields : Z.of_nat (length (envelope (dict fields))) <= FILE_LIMIT ->
  unpack (Some (envelope (dict fields))) = Ok (dict fields).
Proof. intros Hl. rewrite unpack_envelope by done. unfold dict. by rewrite norm_norm. Qed.

(** ** A run over part of the files of another *)

Section sim.
Context `{Dump Definition_} `{Dump Bar} `{Dump Row} `{Dump Risk} `{Dump Dataset_} `{Dump Phase14.Policy} `{Dump Request}.
Context `{DumpJson ResearchWindow} `{DumpJson IntradayCostSchedule} `{DumpJson Settings} `{DumpJson Authorization}.
Context `{DumpJson Policy} `{DumpJson Control} `{DumpPython Policy}.
Context `{DumpJson Calendar} `{DumpJson Configuration} `{DumpJson Command} `{DumpJson Day} `{DumpJson Limits}.
Context (definition_json : Definition_ -> json) (uncertain : Metrics -> bool) (software_hash universe_hash : string).
Context (universe : list string) (inventory software scheduler_software : json).
Notation session_outcome_ := (session_outcome definition_json uncertain software_hash universe_hash universe inventory).
Notation session_step_ := (session_step definition_json uncertain software_hash universe_hash universe inventory).
Notation sessions_loop_ := (sessions_loop definition_json uncertain software_hash universe_hash universe inventory).
Notation execute_ := (execute definition_json uncertain software_hash universe_hash universe inventory).

Lemma execute_dict d policy control calendar limits start binding out :
  execute_ d policy control calendar limits start binding = Ok out ->
  exists rest, out = dict (("binding", binding) :: ("start", start) :: rest)%string.
Proof.
  unfold execute. intros E. unbind E e Ee. destruct (session_commands _ _ _ _ _) as [e' r]. unbind E u Eu.
  unbind E a Ea. unbind E x1 E1. unbind E x2 E2. unbind E x3 E3. unbind E x4 E4. unbind E x5 E5. unbind E x6 E6.
  apply Ok_inj in E. subst out. eexists. reflexivity.
Qed.
Lemma missing_dict start binding out : missing start binding = Ok out ->
  exists rest, out = dict (("binding", binding) :: ("start", start) :: rest)%string.
Proof. unfold missing. intros E. unbind E e Ee. apply Ok_inj in E. subst out. eexists. reflexivity. Qed.
Lemma dict_binding binding start rest : key "binding" (dict (("binding", binding) :: ("start", start) :: rest)%string) = Ok (norm binding).
Proof. unfold dict. rewrite key_norm. unfold key. by rewrite find_hit. Qed.
Lemma dict_start binding start rest : key "start" (dict (("binding", binding) :: ("start", start) :: rest)%string) = Ok (norm start).
Proof. unfold dict. rewrite key_norm. unfold key. cbn beta iota. rewrite (find_miss _ "binding") by discriminate. by rewrite find_hit. Qed.

(** Two runs of the same plan: [pA] writes and never crashes; [pB] may verify. *)
Record rerun (pA pB : Plan) : Prop := {
  rr_days : pl_days pB = pl_days pA; rr_policy : pl_policy pB = pl_policy pA; rr_control : pl_control pB = pl_control pA;
  rr_calendar : pl_calendar pB = pl_calendar pA; rr_limits : pl_limits pB = pl_limits pA;
  rr_run_id : pl_run_id pB = pl_run_id pA;
  rr_writes : op_verify_only (pl_options pA) = false; rr_whole : op_crash (pl_options pA) = None;
  rr_again : op_crash (pl_options pB) = None
}.
Context (pA pB : Plan) (Hr : rerun pA pB).

Context (dF : Directory).
Record within (dA dB : Directory) : Prop := {
  wi_below : sub dA dB;
  wi_final : sub dB dF;
  wi_verify : op_verify_only (pl_options pB) = true -> dB = dF;
  wi_prior : forall i, (i < pl_prior pB)%nat -> is_Some (dr_outcomes dB !! i) /\ is_Some (dr_records dB !! i);
  wi_records : forall i, is_Some (dr_records dF !! i) -> op_verify_only (pl_options pB) = true -> (i < pl_prior pB)%nat
}.
Lemma within_next dA dB dA' dB' : within dA dB -> sub dB dB' -> sub dA' dB' -> sub dB' dF -> within dA' dB'.
Proof.
  intros [W1 W2 W3 W4 W5] Hg Hb Hf. split; [done|done| | |done].
  - intros Hv. apply (anti_symm sub); [done|]. rewrite <- (W3 Hv). done.
  - intros i Hi. destruct (W4 i Hi) as [[x Hx] [y Hy]].
    split; [exists x; exact (slot_sub (Slot := outcome_slot i) _ _ _ Hg Hx)|exists y; exact (slot_sub (Slot := record_slot i) _ _ _ Hg Hy)].
Qed.

Lemma publish_within {path write} `{!Slot path write} raw dA dA' dB :
  publish path write raw dA = (dA', Ok tt) -> within dA dB -> sub dA' dF ->
  exists dB', publish path write raw dB = (dB', Ok tt) /\ within dA' dB'.
Proof.
  intros E Hw HF. destruct (publish_sim raw dA dA' dB dF E (wi_below _ _ Hw) (wi_final _ _ Hw) HF) as (dB' & EB & S1 & S2).
  exists dB'. split; [done|]. eapply within_next; [done| |done|done]. by eapply publish_grows.
Qed.

Lemma same_binding c i date d : multi_binding pB c i date d = multi_binding pA c i date d.
Proof. unfold multi_binding. by rewrite (rr_run_id _ _ Hr), (rr_calendar _ _ Hr). Qed.

(** What reading an outcome that the run wrote gives. *)
Lemma outcome_read c binding d out :
  match d with
  | None => missing (cy_state c) binding
  | Some d => execute_ d (pl_policy pA) (pl_control pA) (pl_calendar pA) (pl_limits pA) (cy_state c) binding
  end = Ok out -> Z.of_nat (length (envelope out)) <= FILE_LIMIT ->
  unpack (Some (envelope out)) = Ok out /\ key "binding" out = Ok (norm binding) /\ key "start" out = Ok (norm (cy_state c)).
Proof.
  intros E Hl. assert (exists rest, out = dict (("binding", binding) :: ("start", cy_state c) :: rest)%string) as [rest ->].
  { destruct d; [by eapply execute_dict|by apply missing_dict]. }
  rewrite unpack_dict, dict_binding, dict_start by done. done.
Qed.

Lemma outcome_sim c i d binding dA dA' dB x : session_outcome_ pA c i d binding dA = (dA', Ok x) ->
  within dA dB -> sub dA' dF ->
  exists dB', session_outcome_ pB c i d binding dB = (dB', Ok x) /\ within dA' dB'.
Proof.
  unfold session_outcome. intros E Hw HF. rewrite (rr_policy _ _ Hr), (rr_control _ _ Hr), (rr_calendar _ _ Hr), (rr_limits _ _ Hr).
  run_step E. run_step E. clear G.
  assert (Hprior : Nat.ltb i (pl_prior pB) && negb (bool_decide (is_Some (dr_outcomes dB !! i))) = false).
  { destruct (Nat.ltb_spec i (pl_prior pB)); [|done]. by rewrite bool_decide_true by (apply (wi_prior _ _ Hw); lia). }
  destruct (dr_outcomes dA !! i) as [raw|] eqn:HA.
  - pose proof (slot_sub (Slot := outcome_slot i) _ _ _ (wi_below _ _ Hw) HA) as HB. cbn beta in HB.
    exists dB. unfold mbind, exec_bind, get, raises_if, lift in E |- *. rewrite Hprior, HB. cbn beta iota in E |- *.
    destruct (unpack _); [|discriminate E]. destruct (key "binding" _); [|discriminate E]. destruct (key "start" _); [|discriminate E].
    destruct (_ || _); [discriminate E|]. apply pair_equal_spec in E as [<- E]. split; [|exact Hw]. by apply pair_equal_spec.
  - run_step E. clear G. apply run_bind in E as (out & s1 & E1 & E). apply run_lift in E1 as [-> Eout].
    run_step E. bool_inv. apply run_bind in E as ([] & s2 & Ep & E). run_atom E. subst.
    destruct (outcome_read c binding d out Eout) as (Hu & Hb & Hs); [lia|].
    destruct (dr_outcomes dB !! i) as [old|] eqn:HB.
    + assert (old = envelope out) as ->.
      { pose proof (publish_inv _ _ _ Ep) as [Hp _]. pose proof (slot_sub (Slot := outcome_slot i) _ _ _ HF Hp) as S1.
        pose proof (slot_sub (Slot := outcome_slot i) _ _ _ (wi_final _ _ Hw) HB) as S2. cbn beta in S1, S2. congruence. }
      exists dB. unfold mbind, exec_bind, get, raises_if, lift. rewrite HB, Hprior. cbn beta iota. rewrite Hu. cbn beta iota.
      rewrite Hb, Hs. cbn beta iota. rewrite !same_norm. split; [done|].
      eapply within_next; [exact Hw|reflexivity| |exact (wi_final _ _ Hw)].
      destruct (publish_inv _ _ _ Ep) as [_ [[_ ->]|[_ ->]]]; [exact (wi_below _ _ Hw)|].
      apply (slot_below (Slot := outcome_slot i)); [exact (wi_below _ _ Hw)|exact HB].
    + destruct (publish_within _ _ _ _ Ep Hw HF) as (dB' & EB & Hw'). exists dB'. split; [|exact Hw'].
      assert (Hv : op_verify_only (pl_options pB) = false).
      { destruct (op_verify_only (pl_options pB)) eqn:Hv; [|done]. rewrite (wi_verify _ _ Hw Hv) in HB.
        pose proof (publish_inv _ _ _ Ep) as [Hp _]. pose proof (slot_sub (Slot := outcome_slot i) _ _ _ HF Hp) as S1.
        cbn beta in S1. congruence. }
      unfold mbind, exec_bind, get, raises_if, lift. rewrite HB, Hprior, Hv. cbn beta iota. rewrite Eout. cbn beta iota.
      assert ((FILE_LIMIT <? Z.of_nat (length (envelope out))) || (TOTAL_LIMIT <? cy_total c + Z.of_nat (length (envelope out))) = false) as ->
        by (apply orb_false_iff; split; apply Z.ltb_ge; lia).
      cbn [raise_if]. rewrite EB. done.
Qed.

Lemma record_sim i raw dA dA' dB : publish_record pA i raw dA = (dA', Ok tt) -> (pl_prior pA <= i)%nat ->
  within dA dB -> sub dA' dF -> exists dB', publish_record pB i raw dB = (dB', Ok tt) /\ within dA' dB'.
Proof.
  unfold publish_record. intros E Hi Hw HF. run_step E. destruct (Nat.ltb_spec i (pl_prior pA)); [lia|].
  run_step E. clear G. destruct (publish_inv _ _ _ E) as [Hp _].
  pose proof (slot_sub (Slot := record_slot i) _ _ _ HF Hp) as Hraw. cbn beta in Hraw.
  destruct (Nat.ltb_spec i (pl_prior pB)) as [Hlt|Hge].
  - destruct (wi_prior _ _ Hw i Hlt) as [_ [old HB]].
    pose proof (slot_sub (Slot := record_slot i) _ _ _ (wi_final _ _ Hw) HB) as HB'. cbn beta in HB'.
    assert (old = raw) as -> by congruence. exists dB. split.
    + apply run_bind. eexists _, _. split; [apply run_get; split; reflexivity|]. apply run_raises_if. split; [done|].
      rewrite HB. by rewrite bool_decide_true.
    + eapply within_next; [exact Hw|reflexivity| |exact (wi_final _ _ Hw)].
      destruct (publish_inv _ _ _ E) as [_ [[_ ->]|[_ ->]]]; [exact (wi_below _ _ Hw)|].
      apply (slot_below (Slot := record_slot i)); [exact (wi_below _ _ Hw)|exact HB].
  - destruct (publish_within _ _ _ _ E Hw HF) as (dB' & EB & Hw'). exists dB'. split; [|exact Hw'].
    apply run_bind. eexists _, _. split; [apply run_get; split; reflexivity|]. apply run_bind. exists tt, dB. split; [|exact EB].
    apply run_raises_if. split; [done|]. destruct (op_verify_only (pl_options pB)) eqn:Hv; [|done].
    assert (i < pl_prior pB)%nat; [|lia]. apply (wi_records _ _ Hw); [by eexists|exact Hv].
Qed.

(** Every part of a run adds files only. *)
Lemma grows_publish {path write} `{!Slot path write} (raw : bytes) (dir0 : Directory) : always (sub dir0) (publish path write raw).
Proof.
  unfold publish. apply always_get_bind. intros d Hd. destruct (path d) eqn:Hp.
  - apply wpx_lift; done.
  - apply wpx_modify. etrans; [exact Hd|]. by apply slot_extend.
Qed.
Lemma grows_session p c i d binding (dir0 : Directory) : always (sub dir0) (session_outcome_ p c i d binding).
Proof. unfold session_outcome. always_tac. apply grows_publish. Qed.
Lemma grows_step p c i session (dir0 : Directory) : always (sub dir0) (session_step_ p c i session).
Proof.
  unfold session_step, publish_record, crash_if. always_tac; first [apply grows_session|apply grows_publish].
Qed.
Lemma grows_loop p l : forall c (dir0 : Directory), always (sub dir0) (sessions_loop_ p c l).
Proof.
  induction l as [|[i session] l IH]; intros c dir0; cbn [sessions_loop]; always_tac; [apply grows_step|apply IH].
Qed.
Lemma grows_finish p c (dir0 : Directory) : always (sub dir0) (finish p c).
Proof.
  unfold finish, publish_view, publish_summary. always_tac; apply grows_publish.
Qed.
Lemma grows_run {A} (m : exec Directory A) d d' r : (forall dir0, always (sub dir0) m) -> m d = (d', r) -> sub d d'.
Proof. intros Hm E. eapply (always_run (sub d)); [apply Hm|reflexivity|exact E]. Qed.

Lemma no_crash o points : op_crash o = None -> crashes o points = false.
Proof. unfold crashes. by intros ->. Qed.

Lemma step_sim c i session dA dA' dB c' : session_step_ pA c i session dA = (dA', Ok c') -> (pl_prior pA <= i)%nat ->
  within dA dB -> sub dA' dF -> exists dB', session_step_ pB c i session dB = (dB', Ok c') /\ within dA' dB'.
Proof.
  unfold session_step. rewrite (rr_days _ _ Hr), same_binding. unfold session_alerts. rewrite (rr_run_id _ _ Hr).
  rewrite !(no_crash (pl_options pB)) by apply (rr_again _ _ Hr). intros E Hi Hw HF.
  apply run_bind in E as ([out raw] & s1 & E1 & E). run_step E. apply run_bind in E as ([] & s2 & E2 & E).
  apply run_lift in E2 as [-> _]. apply run_bind in E as (complete & s2 & E2 & E). apply run_lift in E2 as [-> E2].
  apply run_bind in E as (alerts & s2 & E3 & E). apply run_lift in E3 as [-> E3].
  apply run_bind in E as ([] & s2 & E4 & E). apply run_bind in E as ([] & s3 & E5 & E). apply run_lift in E5 as [-> _].
  apply run_bind in E as (end_ & s3 & E6 & E). apply run_lift in E6 as [-> E6].
  apply run_bind in E as (start & s3 & E7 & E). apply run_lift in E7 as [-> E7].
  apply run_bind in E as ([[daily strategies] symbols] & s3 & E8 & E). apply run_lift in E8 as [-> E8].
  apply run_ret in E as [-> ->].
  assert (Hs1 : sub s1 dF).
  { etrans; [|exact HF]. eapply grows_run; [|exact E4]. intros dir0. unfold publish_record. always_tac. apply grows_publish. }
  destruct (outcome_sim _ _ _ _ _ _ _ _ E1 Hw Hs1) as (d1 & O1 & Hw1).
  destruct (record_sim _ _ _ _ _ E4 Hi Hw1 HF) as (d2 & O2 & Hw2).
  exists d2. split; [|exact Hw2].
  apply run_bind. exists (out, raw), d1. split; [exact O1|]. cbn beta iota.
  apply run_bind. exists tt, d1. split; [apply run_raises_if; split; [reflexivity|exact G]|].
  apply run_bind. exists tt, d1. split; [apply run_lift; split; reflexivity|].
  apply run_bind. exists complete, d1. split; [apply run_lift; split; [reflexivity|exact E2]|].
  apply run_bind. exists alerts, d1. split; [apply run_lift; split; [reflexivity|exact E3]|].
  apply run_bind. exists tt, d2. split; [exact O2|].
  apply run_bind. exists tt, d2. split; [apply run_lift; split; reflexivity|].
  apply run_bind. exists end_, d2. split; [apply run_lift; split; [reflexivity|exact E6]|].
  apply run_bind. exists start, d2. split; [apply run_lift; split; [reflexivity|exact E7]|].
  apply run_bind. exists (daily, strategies, symbols), d2. split; [apply run_lift; split; [reflexivity|exact E8]|]. done.
Qed.

Lemma loop_sim l : forall c dA dA' dB c', sessions_loop_ pA c l dA = (dA', Ok c') -> Forall (fun x => pl_prior pA <= x.1)%nat l ->
  within dA dB -> sub dA' dF -> exists dB', sessions_loop_ pB c l dB = (dB', Ok c') /\ within dA' dB'.
Proof.
  induction l as [|[i session] l IH]; intros c dA dA' dB c' E Hl Hw HF; cbn [sessions_loop] in E |- *.
  - apply run_ret in E as [-> ->]. by exists dB.
  - apply Forall_cons in Hl as [Hi Hl]. apply run_bind in E as (halted & s1 & E1 & E). apply run_lift in E1 as [-> E1].
    destruct (truthy halted) eqn:Ht.
    + apply run_ret in E as [-> ->]. exists dB. split; [|exact Hw]. apply run_bind. exists halted, dB.
      split; [apply run_lift; split; [reflexivity|exact E1]|]. by rewrite Ht.
    + apply run_bind in E as (c1 & s1 & E2 & E).
      assert (Hs1 : sub s1 dF) by (etrans; [|exact HF]; eapply grows_run; [intros; apply grows_loop|exact E]).
      destruct (step_sim _ _ _ _ _ _ _ E2 Hi Hw Hs1) as (d1 & O1 & Hw1).
      destruct (IH _ _ _ _ _ E Hl Hw1 HF) as (d2 & O2 & Hw2). exists d2. split; [|exact Hw2].
      apply run_bind. exists halted, dB. split; [apply run_lift; split; [reflexivity|exact E1]|]. rewrite Ht.
      apply run_bind. exists c1, d1. split; [exact O1|exact O2].
Qed.
End sim.
