(* ===== verification/MultiRunFacts.v ===== *)
(** * The chain of a run, and its recovery

    What a run that finishes leaves ([loop_chain]), and the run that resumes from part of
    its files, or verifies them ([rerun_same]). *)
From S2P Require Import Prelude Decimal DecimalFacts Text Dataset Costs Phase14 Strategies Execution Json JsonFacts JsonRead CanonicalPolicy Research Exec Qualification Chain PyText Paper.
From S2P Require Import Portfolio PortfolioRun Scheduler Multi MultiFacts.
Open Scope list_scope.
Open Scope Z_scope.

(** ** Numbered files *)

Lemma size_map_seq {A} (l : list A) : base.size (map_seq (M := gmap nat A) 0 l) = length l.
Proof.
  induction l as [|x l IH] using rev_ind; [done|]. rewrite map_seq_snoc, map_size_insert_None, IH, length_app; [cbn; lia|].
  apply lookup_map_seq_None. lia.
Qed.
Lemma numbered_map files msg l : numbered files msg = Ok l -> files = map_seq 0 l.
Proof.
  unfold numbered. intros E. pose proof (mapR_length _ _ _ E) as Hl. rewrite length_seq in Hl. apply mapR_Forall2 in E.
  symmetry. apply map_subseteq_size_eq; [|by rewrite size_map_seq, Hl]. apply map_subseteq_spec. intros i x Hx.
  rewrite lookup_map_seq_0 in Hx. destruct (Forall2_lookup_r _ _ _ _ _ E Hx) as (j & Hj & Hij).
  apply lookup_seq in Hj as [-> _]. cbn in Hij. by apply of_option_Ok in Hij.
Qed.
Lemma records_numbered d rows : records d = Ok rows ->
  forall i, is_Some (dr_records d !! i) <-> (i < length rows)%nat.
Proof.
  unfold records. intros E. unbind E files Ef. unbind E x Ex. apply Ok_inj in E. subst rows.
  apply numbered_map in Ef. assert (length x.1 = length files) as ->.
  { apply (foldR_prefix_inv (fun pre (r : list json * string) => length r.1 = length pre) record_step ([], ZERO) files x); [|done|exact Ex].
    intros pre y post r r' _ Hr Es. unfold record_step in Es. unbind Es y1 E1. unbind Es y2 E2. unbind Es y3 E3. unbind Es y4 E4.
    apply Ok_inj in Es. subst r'. cbn [fst]. rewrite !length_app. cbn [length]. congruence. }
  intros i. rewrite Ef, lookup_map_seq_0. apply lookup_lt_is_Some.
Qed.
Lemma head_records d h : head d = Ok h -> exists rows, records d = Ok rows.
Proof. unfold head. intros E. unbind E l El. by exists l. Qed.

(** ** The sessions that a run accepted *)

(** One session of the report: its record, which names the one before, and its outcome. *)
Record accepted_by (d : Directory) (i : nat) (state : json) (previous : string) (s closing : json) (tip : string) : Prop := {
  ab_halted : exists v, key "halted" state = Ok v /\ truthy v = false;
  ab_record : exists raw row, dr_records d !! i = Some raw /\ raw = envelope row /\ tip = sha raw /\
    key "previous" row = Ok (JStr previous) /\ key "sequence" row = Ok (JInt (Z.of_nat i)) /\
    exists outcome, dr_outcomes d !! i = Some outcome /\ key "outcome_hash" row = Ok (JStr (sha outcome));
  ab_start : exists v, key "starting_state" s = Ok v /\ norm v = norm state;
  ab_closing : key "closing_state" s = Ok closing;
  ab_head : key "head" s = Ok (JStr tip)
}.
Inductive carried (d : Directory) (start : json) : list json -> json -> string -> Prop :=
| carried_none : carried d start [] start ZERO
| carried_next l state previous s closing tip : carried d start l state previous ->
    accepted_by d (length l) state previous s closing tip -> carried d start (l ++ [s]) closing tip.

Lemma carried_sub d d' start l state tip : sub d d' -> carried d start l state tip -> carried d' start l state tip.
Proof.
  intros Hs. induction 1 as [|l state previous s closing tip _ IH [A1 (raw & row & R1 & R2 & R3 & R4 & R5 & o & R6 & R7) A3 A4 A5]];
    [constructor|]. econstructor; [exact IH|]. split; [done| |done|done|done]. exists raw, row.
  split; [exact (slot_sub (Slot := record_slot _) _ _ _ Hs R1)|]. split_and!; [done..|].
  exists o. split; [exact (slot_sub (Slot := outcome_slot _) _ _ _ Hs R6)|done].
Qed.

Section runs.
Context `{Dump Definition_} `{Dump Bar} `{Dump Row} `{Dump Risk} `{Dump Dataset_} `{Dump Phase14.Policy} `{Dump Request}.
Context `{DumpJson ResearchWindow} `{DumpJson IntradayCostSchedule} `{DumpJson Settings} `{DumpJson Authorization}.
Context `{DumpJson Policy} `{DumpJson Control} `{DumpPython Policy}.
Context `{DumpJson Calendar} `{DumpJson Configuration} `{DumpJson Command} `{DumpJson Day} `{DumpJson Limits}.
Context (definition_json : Definition_ -> json) (uncertain : Metrics -> bool) (software_hash universe_hash : string).
Context (universe : list string) (inventory : json).
Notation session_outcome_ := (session_outcome definition_json uncertain software_hash universe_hash universe inventory).
Notation session_step_ := (session_step definition_json uncertain software_hash universe_hash universe inventory).
Notation sessions_loop_ := (sessions_loop definition_json uncertain software_hash universe_hash universe inventory).
Notation run_sessions_ := (run_sessions definition_json uncertain software_hash universe_hash universe inventory).

Lemma outcome_spec p c i d binding dir dir' out raw : session_outcome_ p c i d binding dir = (dir', Ok (out, raw)) ->
  dr_outcomes dir' !! i = Some raw /\ dr_records dir' = dr_records dir /\
  exists start, key "start" out = Ok start /\ norm start = norm (cy_state c).
Proof.
  unfold session_outcome. intros E. run_step E. run_step E. clear G. destruct (dr_outcomes dir !! i) as [old|] eqn:Ho.
  - run_step E. run_step E. run_step E. run_step E. apply run_ret in E as [-> E]. apply pair_equal_spec in E as [-> ->].
    split; [done|]. split; [done|]. eexists. split; [exact G1|]. bool_inv. by apply same_spec.
  - run_step E. run_step E. run_step E. apply run_bind in E as ([] & s & Ep & E). apply run_ret in E as [-> E].
    apply pair_equal_spec in E as [-> ->]. apply publish_inv in Ep as [Hp Ep].
    split; [exact Hp|]. split; [by destruct Ep as [[_ ->]|[_ ->]]|].
    assert (exists rest, x1 = dict (("binding", binding) :: ("start", cy_state c) :: rest)%string) as [rest ->].
    { destruct d; [by eapply execute_dict|by apply missing_dict]. }
    eexists. split; [apply dict_start|]. apply norm_norm.
Qed.

Lemma record_spec p i raw dir dir' : publish_record p i raw dir = (dir', Ok tt) ->
  dr_records dir' !! i = Some raw /\ sub dir dir' /\ dr_outcomes dir' = dr_outcomes dir /\
  (forall j, is_Some (dr_records dir' !! j) -> is_Some (dr_records dir !! j) \/ j = i).
Proof.
  unfold publish_record. intros E. run_step E. destruct (Nat.ltb_spec i (pl_prior p)).
  - apply run_raises_if in E as [-> E]. bool_inv. split; [done|]. split; [done|]. split; [done|]. auto.
  - run_step E. pose proof (publish_grows _ _ _ E) as Hg. apply publish_inv in E as [Hp [[_ ->]|[_ ->]]]; [by auto|].
    split; [exact Hp|]. split; [exact Hg|]. split; [done|]. intros j Hj. cbn in Hj.
    destruct (decide (j = i)) as [->|]; [by right|left]. by rewrite lookup_insert_ne in Hj.
Qed.

(** A session of a run extends the chain. *)
Lemma step_chain p c session dir dir' c' start : session_step_ p c (length (cy_accepted c)) session dir = (dir', Ok c') ->
  (exists v, key "halted" (cy_state c) = Ok v /\ truthy v = false) ->
  carried dir start (cy_accepted c) (cy_state c) (cy_previous c) ->
  carried dir' start (cy_accepted c') (cy_state c') (cy_previous c') /\
  length (cy_accepted c') = S (length (cy_accepted c)) /\
  (forall j, is_Some (dr_records dir' !! j) -> is_Some (dr_records dir !! j) \/ j = length (cy_accepted c)).
Proof.
  intros E Hh Hc. pose proof (grows_run _ _ _ _ (grows_step _ _ _ _ _ _ p c _ session) E) as Hg.
  unfold session_step in E. set (i := length (cy_accepted c)) in *.
  apply run_bind in E as ([out raw] & s1 & E1 & E). run_step E. clear G. unfold crash_if in E. run_step E. clear G.
  apply run_bind in E as (complete & s2 & E2 & E). apply run_lift in E2 as [-> E2].
  apply run_bind in E as (alerts & s2 & E3 & E). apply run_lift in E3 as [-> E3].
  apply run_bind in E as ([] & s2 & E4 & E). apply run_bind in E as ([] & s3 & E5 & E). apply run_lift in E5 as [-> _].
  apply run_bind in E as (end_ & s3 & E6 & E). apply run_lift in E6 as [-> E6].
  apply run_bind in E as (begun & s3 & E7 & E). apply run_lift in E7 as [-> E7].
  apply run_bind in E as ([[daily strategies] symbols] & s3 & E8 & E). apply run_lift in E8 as [-> E8].
  apply run_ret in E as [-> ->]. cbn [cy_accepted cy_state cy_previous].
  apply outcome_spec in E1 as (Ho & Hrec & v & Hv & Hn). apply record_spec in E4 as (Hr & _ & Hout & Hdom).
  assert (begun = v) as -> by congruence.
  split; [|split; [by rewrite length_app, Nat.add_comm|by rewrite <- Hrec]].
  econstructor; [by eapply carried_sub|]. fold i. split.
  - exact Hh.
  - eexists _, _. split; [exact Hr|]. split; [reflexivity|]. split; [reflexivity|]. split; [reflexivity|]. split; [reflexivity|].
    eexists. split; [rewrite Hout; exact Ho|reflexivity].
  - exists v. split; [reflexivity|exact Hn].
  - reflexivity.
  - reflexivity.
Qed.

(** The sessions in order: the chain, where the run stops, and the records. *)
Lemma loop_chain p sessions start : forall c dir dir' c' n,
  sessions_loop_ p c (zip (seq n (length sessions)) sessions) dir = (dir', Ok c') -> n = length (cy_accepted c) ->
  carried dir start (cy_accepted c) (cy_state c) (cy_previous c) ->
  carried dir' start (cy_accepted c') (cy_state c') (cy_previous c') /\
  (length (cy_accepted c) <= length (cy_accepted c'))%nat /\
  (length (cy_accepted c') = (length (cy_accepted c) + length sessions)%nat \/
   exists v, key "halted" (cy_state c') = Ok v /\ truthy v = true) /\
  (forall j, is_Some (dr_records dir' !! j) -> is_Some (dr_records dir !! j) \/ (length (cy_accepted c) <= j < length (cy_accepted c'))%nat).
Proof.
  induction sessions as [|session l IH]; intros c dir dir' c' n E Hn Hc; cbn [length seq zip_with sessions_loop] in E.
  - apply run_ret in E as [-> ->]. split; [done|]. split; [done|]. split; [left; cbn; lia|auto].
  - apply run_bind in E as (halted & s1 & E1 & E). apply run_lift in E1 as [-> E1]. destruct (truthy halted) eqn:Ht.
    + apply run_ret in E as [-> ->]. split; [done|]. split; [done|]. split; [right; by exists halted|auto].
    + apply run_bind in E as (c1 & s1 & E2 & E). subst n.
      pose proof (step_chain _ _ _ _ _ _ start E2 (ex_intro _ halted (conj E1 Ht)) Hc) as (Hc1 & Hl1 & Hd1).
      destruct (IH _ _ _ _ _ E (eq_sym Hl1) Hc1) as (Hc2 & Hl2 & Hs2 & Hd2).
      split; [exact Hc2|]. split; [lia|]. split; [destruct Hs2 as [Hs2|Hs2]; [left; cbn; lia|by right]|].
      intros j Hj. destruct (Hd2 j Hj) as [Hj'|Hj']; [|right; lia]. destruct (Hd1 j Hj') as [?| ->]; [by left|right; lia].
Qed.

(** ** The report *)

Lemma find_store_ne_key (l : list (string * json)) k v h : k <> h -> find (store l k v) h = find l h.
Proof. apply find_store_ne. Qed.

(** The dictionary of a report. *)
Record reported (p : Plan) (c : Carry) (report : json) : Prop := {
  rp_sessions : key "sessions" report = Ok (JArr (cy_accepted c));
  rp_state : key "state" report = Ok (cy_state c);
  rp_head : key "head" report = Ok (JStr (cy_previous c));
  rp_alerts : key "alerts" report = Ok (JArr (cy_notifications c));
  rp_complete : exists v, key "halted" (cy_state c) = Ok v /\
    key "complete" report = Ok (JBool (negb (truthy v) && Nat.eqb (length (cy_accepted c)) (length (ca_sessions (pl_calendar p)))))
}.
Lemma multi_report_spec p c report v report' : multi_report p c = Ok report -> updated report "reports" v = Ok report' ->
  reported p c report'.
Proof.
  unfold multi_report. intros E E'. unbind E halted Eh. unbind E w Ew. unbind E l El. apply Ok_inj in E. subst report.
  cbn [updated] in E'. apply Ok_inj in E'. subst report'. split; try reflexivity. exists halted. split; [exact Eh|]. reflexivity.
Qed.

Lemma publish_keeps {path write} `{!Slot path write} (I : Directory -> Prop) (raw : bytes) :
  (forall d, I d -> I (write raw d)) -> always I (publish path write raw).
Proof.
  intros Hw. unfold publish. apply always_get_bind. intros d Hd. destruct (path d).
  - by apply wpx_lift.
  - by apply wpx_modify, Hw.
Qed.
Definition same_files (d d' : Directory) : Prop := dr_outcomes d' = dr_outcomes d /\ dr_records d' = dr_records d.
Lemma finish_files p c dir : always (same_files dir) (finish p c).
Proof.
  unfold finish, publish_view, publish_summary.
  always_tac; (apply (publish_keeps (path := fun d => dr_views d !! _)) || apply (publish_keeps (path := dr_summary))); done.
Qed.

Lemma finish_spec p c dir dir' report : finish p c dir = (dir', Ok report) ->
  reported p c report /\ same_files dir dir' /\ base.size (dr_outcomes dir) = length (cy_accepted c) /\
  dr_summary dir' = Some (canonical report).
Proof.
  intros E. pose proof (always_run _ _ _ _ _ (finish_files p c dir) (conj eq_refl eq_refl) E) as Hf.
  unfold finish in E. run_step E. clear G. run_step E. run_step E. bool_inv. run_step E. run_step E. run_step E.
  apply run_bind in E as ([] & s1 & E1 & E). apply run_bind in E as ([] & s2 & E2 & E). apply run_ret in E as [-> ->].
  split; [by eapply multi_report_spec|]. split; [exact Hf|]. split; [by apply Nat.eqb_eq|].
  unfold publish_summary in E2. destruct (op_verify_only _).
  - run_step E2. apply run_raises_if in E2 as [-> E2]. bool_inv. done.
  - by apply publish_inv in E2 as [Hp _].
Qed.

(** What any run that finishes leaves behind. *)
Lemma run_chain days policy control calendar limits o binding dir dir' report :
  run_sessions_ days policy control calendar limits o binding dir = (dir', Ok report) ->
  exists l state tip halted, carried dir' (initial_state policy) l state tip /\
    key "sessions" report = Ok (JArr l) /\ key "state" report = Ok state /\ key "head" report = Ok (JStr tip) /\
    key "halted" state = Ok halted /\ (length l = length (ca_sessions calendar) \/ truthy halted = true) /\
    key "complete" report = Ok (JBool (negb (truthy halted) && Nat.eqb (length l) (length (ca_sessions calendar)))).
Proof.
  unfold run_sessions. intros E. run_step E. run_step E. run_step E. apply run_bind in E as ([] & s1 & E1 & E).
  unfold crash_if in E. run_step E. clear G1. apply run_bind in E as (c & s2 & E2 & E).
  apply loop_chain with (start := initial_state policy) in E2 as (Hc & _ & Hs & _); [|done|constructor].
  apply finish_spec in E as ([R1 R2 R3 _ (v & R4 & R5)] & [F1 F2] & _ & _).
  exists (cy_accepted c), (cy_state c), (cy_previous c), v.
  split.
  - clear -Hc F1 F2. induction Hc as [|l state previous s closing tip _ IH [A1 (raw & y & Q1 & Q2) A3 A4 A5]]; [constructor|].
    econstructor; [exact IH|]. split; [done| |done|done|done]. exists raw, y. rewrite F1, F2. done.
  - split_and!; try done. destruct Hs as [Hs|(v' & Hv & Ht)]; [by left|right]. congruence.
Qed.
End runs.
