(* ===== verification/MultiSession.v ===== *)
(** * One session of a run

    What the commands of a session keep, and what its outcome hands to the next one
    ([carries]). *)
From S2P Require Import Prelude Decimal DecimalFacts Text Dataset Costs Phase14 Strategies Execution Json JsonFacts JsonRead CanonicalPolicy Research Exec Qualification Chain PyText Paper.
From S2P Require Import Portfolio PortfolioRun Scheduler SchedulerFacts Multi MultiFacts MultiRunFacts.
Open Scope list_scope.
Open Scope Z_scope.

(** ** One session *)

(** The entries of the cash ledger of an outcome. *)
Definition ledger_length (o : json) : Z :=
  match (reports ← key "reports" o; ledger ← key "cash-ledger.json" reports; elements_of ledger) with
  | Ok l => Z.of_nat (length l)
  | Err _ => 0
  end.
(** The entries of the cash ledgers of the outcomes of a directory. *)
Definition ledger_total (d : Directory) : Z :=
  match (files ← numbered (dr_outcomes d) "OUTCOMES"; mapR json_loads files) with
  | Ok l => foldr Z.add 0 ((fun e => match key "value" e with Ok o => ledger_length o | Err _ => 0 end) <$> l)
  | Err _ => 0
  end.

Lemma dict_key k l : key k (dict l) = norm <$> of_option KeyError (find l k).
Proof. unfold dict. by rewrite key_norm. Qed.
Lemma amount_jdec x : amount (jdec x) = Ok x.
Proof. cbn. by rewrite dec_of_str_str. Qed.
Lemma amount_norm k v : amount_at k (norm v) = amount_at k v.
Proof.
  unfold amount_at. rewrite key_norm. destruct (key k v) as [x|]; [|done]. cbn. by destruct x.
Qed.

Section session.
Context `{Dump Definition_} `{Dump Bar} `{Dump Row} `{Dump Risk} `{Dump Dataset_} `{Dump Phase14.Policy} `{Dump Request}.
Context `{DumpJson ResearchWindow} `{DumpJson IntradayCostSchedule} `{DumpJson Settings} `{DumpJson Authorization}.
Context `{DumpJson Policy} `{DumpJson Control} `{DumpPython Policy}.
Context `{DumpJson Calendar} `{DumpJson Configuration} `{DumpJson Command} `{DumpJson Day} `{DumpJson Limits}.
Context (definition_json : Definition_ -> json) (uncertain : Metrics -> bool) (software_hash universe_hash : string).
Context (universe : list string) (inventory : json).

(** What the commands of a session keep and reach. *)
Record session_run_ok (e e' : Engine) : Prop := {
  so_watch : watch_le (co_watch (en_portfolio e)) (co_watch (en_portfolio e'));
  so_clear : en_state e' = COMPLETED -> all_clear (en_portfolio e');
  so_setup : en_setup e' = en_setup e
}.
Lemma commands_ok commands e e' : en_state e <> COMPLETED ->
  each (fun command => _ ← apply uncertain software_hash universe command false; mret tt) commands e = (e', Ok tt) ->
  session_run_ok e e'.
Proof.
  intros Hs. apply (run_each _ (session_run_ok e)).
  - intros command e1 e2 _ [W _ Hsetup] E. apply run_bind in E as (x & e3 & E & Er). apply run_ret in Er as [-> _].
    pose proof (apply_applied _ _ _ _ _ _ _ _ E) as Ha. split; [etrans; [exact W|exact (ap_watch _ _ _ _ Ha)]| |by rewrite (ap_setup _ _ _ _ Ha)].
    intros Hc. by destruct (apply_completes _ _ _ _ _ _ _ _ E Hc) as (_ & _ & _ & Hclear).
  - by split.
Qed.
Lemma session_commands_ok day e e' : en_state e <> COMPLETED ->
  session_commands uncertain software_hash universe day e = (e', Ok tt) -> session_run_ok e e'.
Proof.
  unfold session_commands. intros Hs E. apply run_bind in E as ([] & e1 & E1 & E). apply commands_ok in E1; [|done].
  run_step E. destruct (negb _ && negb _) eqn:Hm; cbn [when] in E; [|by apply run_ret in E as [-> _]].
  run_step E. destruct E1 as [W C Hsetup].
  pose proof (always_run (ran any e1) _ e1 e' _ (ran_halt any any_early _ _ e1) (ran_refl any e1) E) as Hr. split.
  - etrans; [exact W|]. apply (gr_watch _ _ (rn_portfolio any _ _ Hr)).
  - apply session_halt_spec in E as [_ E]. congruence.
  - by rewrite (rn_setup any _ _ Hr).
Qed.

Lemma engine_init_state requests policy control calendar config crash e :
  engine_init definition_json universe_hash universe inventory requests policy control calendar config crash = Ok e ->
  en_state e = CREATED.
Proof.
  unfold engine_init. intros E. unbind E u1 E1. unbind E u2 E2. unbind E u3 E3. unbind E u4 E4. unbind E u5 E5.
  unbind E bound E6. apply Ok_inj in E. by subst e.
Qed.

(** The engine that [session_engine] builds. *)
Lemma session_engine_ok day policy control calendar limits start binding e :
  session_engine definition_json universe_hash universe inventory day policy control calendar limits start binding = Ok e ->
  en_state e = CREATED /\ unresolved start = Ok false /\
  exists high_water maximum_drawdown limit, amount_at "high_water" start = Ok high_water /\
    amount_at "maximum_drawdown" start = Ok maximum_drawdown /\
    co_watch (en_portfolio e) = Some (mkWatch high_water maximum_drawdown limit).
Proof.
  unfold session_engine. intros E. unbind E e0 E0. unbind E c1 E1. unbind E c2 E2. unbind E c3 E3. unbind E c4 E4.
  unbind E c5 E5. unbind E c6 E6. apply Ok_inj in E. subst e. apply raise_if_Ok in E6. subst c5. cbn [en_state en_portfolio].
  split; [by eapply engine_init_state|]. split; [exact E5|]. exists c2, c3, c4. done.
Qed.

Lemma account_fields_of c a : account c = Ok a -> pa_halted a = co_halted c.
Proof.
  unfold account. intros E. do 10 (let x := fresh in let Hx := fresh in apply bind_Ok in E as (x & Hx & E)).
  unbind E places Ep. apply Ok_inj in E. by subst a.
Qed.

(** A session that is executed: its outcome is complete and leaves nothing open, or halts
    the sessions after it. *)
Record carries (start out : json) : Prop := {
  cr_resolved : unresolved start = Ok false;
  cr_start : key "start" out = Ok (norm start);
  cr_end : exists end_ complete, key "end" out = Ok end_ /\ key "complete" out = Ok (JBool complete) /\
    key "halted" end_ = Ok (JBool (negb complete)) /\
    (complete = true -> key "positions" end_ = Ok (JObj []) /\ key "reservations" end_ = Ok (JObj [])) /\
    (exists daily equity realized unrealized x y equity', key "daily" out = Ok daily /\
       amount_at "equity" start = Ok equity /\ amount_at "realized" daily = Ok realized /\
       amount_at "unrealized" daily = Ok unrealized /\ padd equity realized = Ok x /\ padd x unrealized = Ok y /\
       amount_at "equity" end_ = Ok equity' /\ (dval equity' == dval y)%Q /\
       exists net net', amount_at "cumulative_net" start = Ok net /\ padd net realized = Ok net' /\
         amount_at "cumulative_net" end_ = Ok net') /\
    (exists h h' m m', amount_at "high_water" start = Ok h /\ amount_at "high_water" end_ = Ok h' /\
       amount_at "maximum_drawdown" start = Ok m /\ amount_at "maximum_drawdown" end_ = Ok m' /\
       (dval h <= dval h')%Q /\ (dval m <= dval m')%Q)
}.

Lemma end_state_inv start e a end_ : end_state start e a = Ok end_ ->
  exists net net' fees, amount_at "cumulative_net" start = Ok net /\ padd net (pa_realized a) = Ok net' /\
    end_ = JObj
      [("cash", jdec (pa_cash a)); ("equity", jdec (pa_equity a)); ("cumulative_net", jdec net');
       ("cumulative_fees", jdec fees); ("high_water", jdec (wt_high_water (watch_of (en_portfolio e))));
       ("maximum_drawdown", jdec (wt_maximum_drawdown (watch_of (en_portfolio e)))); ("positions", positions_json a);
       ("reservations", reservations_json a); ("halted", JBool (negb (completed_session e a) || pa_halted a))]%string.
Proof.
  unfold end_state. intros E. unbind E net E1. unbind E net' E2. unbind E fee E3. unbind E fees E4. apply Ok_inj in E.
  exists net, net', fees. done.
Qed.
Lemma completed_spec e a : completed_session e a = true ->
  en_state e = COMPLETED /\ pa_positions a = [] /\ pa_reservations a = [].
Proof.
  unfold completed_session. intros E. apply andb_true in E as [E E3]. apply andb_true in E as [E1 E2].
  apply bool_decide_eq_true in E1. destruct (pa_positions a), (pa_reservations a); done.
Qed.

Lemma execute_carries day policy control calendar limits start binding out :
  execute definition_json uncertain software_hash universe_hash universe inventory day policy control calendar limits start binding = Ok out ->
  carries start out.
Proof.
  unfold execute. intros E. unbind E e0 E0. apply session_engine_ok in E0 as (Hst & Hun & h & m & limit & Hh & Hm & Hw).
  destruct (session_commands uncertain software_hash universe day e0) as [e r] eqn:Es. unbind E u E1. subst r. destruct u.
  apply session_commands_ok in Es as [Hle Hclear _]; [|by rewrite Hst].
  unbind E a Ea. unbind E end_ Ee. apply end_state_inv in Ee as (net & net' & fees & Hnet & Hnet' & ->).
  unbind E equity Eeq. unbind E x Ex. unbind E y Ey. unbind E u Eu. apply raise_unless_Ok in Eu. apply deqb_spec in Eu.
  unbind E shown Er. apply Ok_inj in E. subst out.
  split; [exact Hun|apply dict_start|]. eexists _, (completed_session e a).
  split; [by rewrite dict_key|]. split; [by rewrite dict_key|].
  split.
  { rewrite key_norm, (key_obj "halted" _ (JBool (negb (completed_session e a) || pa_halted a))) by reflexivity.
    cbn. do 2 f_equal. destruct (completed_session e a) eqn:Hc; [|done]. apply completed_spec in Hc as (Hc & _ & _).
    destruct (Hclear Hc) as (_ & _ & Hn & _). by rewrite (account_fields_of _ _ Ea), Hn. }
  split.
  { intros (_ & Hp & Hr)%completed_spec. rewrite !key_norm.
    rewrite (key_obj "positions" _ (positions_json a)), (key_obj "reservations" _ (reservations_json a)) by reflexivity.
    unfold positions_json, reservations_json. rewrite Hp, Hr. done. }
  split.
  { exists (norm (JObj (account_fields a))), equity, (pa_realized a), (pa_unrealized a), x, y, (pa_equity a).
    split; [by rewrite dict_key|]. split; [exact Eeq|]. rewrite !amount_norm. unfold amount_at.
    rewrite (key_obj "realized" _ (jdec (pa_realized a))), (key_obj "unrealized" _ (jdec (pa_unrealized a))),
      (key_obj "equity" _ (jdec (pa_equity a))), (key_obj "cumulative_net" _ (jdec net')) by reflexivity.
    cbn [mbind res_bind]. rewrite !amount_jdec. split_and!; try done. exists net, net'. done. }
  rewrite Hw in Hle. destruct (co_watch (en_portfolio e)) as [w|] eqn:Hw'; [|destruct Hle].
  destruct Hle as (L1 & L2 & _). cbn in L1, L2. exists h, (wt_high_water w), m, (wt_maximum_drawdown w).
  rewrite !amount_norm. unfold amount_at at 2 4. unfold watch_of. rewrite Hw'. cbn [default from_option id].
  rewrite (key_obj "high_water" _ (jdec (wt_high_water w))), (key_obj "maximum_drawdown" _ (jdec (wt_maximum_drawdown w))) by reflexivity.
  cbn [mbind res_bind]. rewrite !amount_jdec. done.
Qed.
End session.
