(* ===== verification/MultiRecovery.v ===== *)
(** * Resuming and verifying a run; the journal of acknowledgments

    A run is resumed from the files that an interrupted one left, whichever they are, and
    a finished run is verified against its files: both do what the uninterrupted run did.
    What [ack_journal] accepts, and the row that [acknowledge] adds to it. *)
From S2P Require Import Prelude Decimal DecimalFacts Text Dataset Costs Phase14 Strategies Execution Json JsonFacts JsonRead CanonicalPolicy Research Exec Qualification Chain PyText Paper.
From S2P Require Import Portfolio PortfolioRun Scheduler Multi MultiFacts MultiRunFacts.
Open Scope list_scope.
Open Scope Z_scope.

Section recovery.
Context `{Dump Definition_} `{Dump Bar} `{Dump Row} `{Dump Risk} `{Dump Dataset_} `{Dump Phase14.Policy} `{Dump Request}.
Context `{DumpJson ResearchWindow} `{DumpJson IntradayCostSchedule} `{DumpJson Settings} `{DumpJson Authorization}.
Context `{DumpJson Policy} `{DumpJson Control} `{DumpPython Policy}.
Context `{DumpJson Calendar} `{DumpJson Configuration} `{DumpJson Command} `{DumpJson Day} `{DumpJson Limits}.
Context (definition_json : Definition_ -> json) (uncertain : Metrics -> bool) (software_hash universe_hash : string).
Context (universe : list string) (inventory : json).
Notation sessions_loop_ := (sessions_loop definition_json uncertain software_hash universe_hash universe inventory).
Notation run_sessions_ := (run_sessions definition_json uncertain software_hash universe_hash universe inventory).

(** ** The end of a run *)

Lemma view_sim pB dF x dA dA' dB : publish_view false x dA = (dA', Ok tt) -> within pB dF dA dB -> sub dA' dF ->
  exists dB', publish_view (op_verify_only (pl_options pB)) x dB = (dB', Ok tt) /\ within pB dF dA' dB'.
Proof.
  intros E Hw HF. destruct (op_verify_only (pl_options pB)) eqn:Hv.
  - destruct (publish_inv _ _ _ E) as [Hp Ep]. pose proof (slot_sub (Slot := view_slot _) _ _ _ HF Hp) as HpF. cbn beta in HpF.
    pose proof (wi_verify _ _ _ _ Hw Hv) as ->. exists dF. split.
    + unfold publish_view. apply run_bind. eexists _, _. split; [apply run_get; split; reflexivity|].
      apply run_raises_if. split; [done|]. rewrite HpF. by rewrite bool_decide_true.
    + by eapply within_next; [exact Hw| |exact HF|].
  - apply (publish_within (path := fun d => dr_views d !! x.1) pB dF (canonical x.2) dA dA' dB); [exact E|exact Hw|exact HF].
Qed.
Lemma views_sim pB dF l : forall dA dA' dB, each (publish_view false) l dA = (dA', Ok tt) -> within pB dF dA dB -> sub dA' dF ->
  exists dB', each (publish_view (op_verify_only (pl_options pB))) l dB = (dB', Ok tt) /\ within pB dF dA' dB'.
Proof.
  induction l as [|x l IH]; intros dA dA' dB E Hw HF; cbn [each] in E |- *.
  - apply run_ret in E as [-> _]. by exists dB.
  - apply run_bind in E as ([] & s1 & E1 & E).
    assert (Hs1 : sub s1 dF).
    { etrans; [|exact HF]. eapply grows_run; [|exact E]. intros dir0. unfold publish_view. always_tac. apply grows_publish. }
    destruct (view_sim _ _ _ _ _ _ E1 Hw Hs1) as (d1 & O1 & Hw1). destruct (IH _ _ _ E Hw1 HF) as (d2 & O2 & Hw2).
    exists d2. split; [|exact Hw2]. apply run_bind. exists tt, d1. split; [exact O1|exact O2].
Qed.
Lemma summary_sim pB dF raw dA dB : publish_summary false raw dA = (dF, Ok tt) -> within pB dF dA dB ->
  exists dB', publish_summary (op_verify_only (pl_options pB)) raw dB = (dB', Ok tt) /\ within pB dF dF dB'.
Proof.
  intros E Hw. destruct (op_verify_only (pl_options pB)) eqn:Hv.
  - destruct (publish_inv _ _ _ E) as [Hp Ep]. pose proof (wi_verify _ _ _ _ Hw Hv) as ->. exists dF. split.
    + unfold publish_summary. apply run_bind. eexists _, _. split; [apply run_get; split; reflexivity|].
      apply run_raises_if. split; [done|]. rewrite Hp. by rewrite bool_decide_true.
    + by eapply within_next; [exact Hw| | |].
  - by apply (publish_within (path := dr_summary) pB dF raw dA dF dB).
Qed.

Lemma finish_sim pA pB c dA dB dF report : rerun pA pB -> finish pA c dA = (dF, Ok report) -> within pB dF dA dB ->
  (pl_prior pB <= length (cy_accepted c))%nat -> finish pB c dB = (dF, Ok report).
Proof.
  intros Hr E Hw Hp. pose proof (finish_spec _ _ _ _ _ E) as (_ & [Hout _] & Hsize & _).
  unfold finish, multi_report in *. rewrite (rr_run_id _ _ Hr), (rr_calendar _ _ Hr), (rr_limits _ _ Hr).
  rewrite (rr_writes _ _ Hr) in E. run_step E. clear G. run_step E. run_step E. clear G.
  run_step E. run_step E. run_step E. apply run_bind in E as ([] & s1 & E1 & E). apply run_bind in E as ([] & s2 & E2 & E).
  apply run_ret in E as [<- <-].
  assert (Hs1 : sub s1 dF) by (apply (publish_grows (path := dr_summary)) in E2; exact E2).
  destruct (views_sim _ _ _ _ _ _ E1 Hw Hs1) as (d1 & O1 & Hw1). destruct (summary_sim _ _ _ _ _ E2 Hw1) as (d2 & O2 & Hw2).
  assert (d2 = dF) as -> by (apply (anti_symm sub); [apply (wi_final _ _ _ _ Hw2)|apply (wi_below _ _ _ _ Hw2)]).
  assert (Ho : dr_outcomes dB = dr_outcomes dA).
  { apply (anti_symm (⊆)); [rewrite <- Hout; apply (sb_outcomes _ _ (wi_final _ _ _ _ Hw))|apply (sb_outcomes _ _ (wi_below _ _ _ _ Hw))]. }
  apply run_bind. exists tt, dB. split; [apply run_raises_if; split; [done|by apply Nat.ltb_ge]|].
  apply run_bind. exists dB, dB. split; [by apply run_get|].
  apply run_bind. exists tt, dB. split; [apply run_raises_if; split; [done|]; rewrite Ho, Hsize; by rewrite Nat.eqb_refl|].
  apply run_bind. eexists _, dB. split; [apply run_lift; split; [done|exact G]|].
  apply run_bind. eexists _, dB. split; [apply run_lift; split; [done|exact G0]|].
  apply run_bind. eexists _, dB. split; [apply run_lift; split; [done|exact G1]|].
  apply run_bind. exists tt, d1. split; [exact O1|]. apply run_bind. exists tt, dF. split; [exact O2|]. done.
Qed.

(** ** The run *)

Definition fresh : Options := mkOptions false false None None.

(** The first run, taken apart: the plan, the sessions, the reports. *)
Lemma fresh_run days policy control calendar limits binding dF report :
  run_sessions_ days policy control calendar limits fresh binding empty_directory = (dF, Ok report) ->
  exists c d1, run_checks days calendar limits = Ok tt /\
    let p := mkPlan days policy control calendar limits (sha (canonical binding)) fresh 0 in
    let dir0 : Directory := with_plan (Some (canonical binding)) empty_directory in
    sessions_loop_ p (start_carry policy) (zip (seq 0 (length (ca_sessions calendar))) (ca_sessions calendar)) dir0 = (d1, Ok c) /\
    finish p c d1 = (dF, Ok report).
Proof.
  unfold run_sessions. intros E. run_step E. destruct x. run_step E. run_step E.
  assert (x = 0%nat) as -> by (vm_compute in G0; by injection G0 as <-).
  apply run_bind in E as ([] & s1 & E1 & E). unfold crash_if in E. run_step E. clear G1.
  apply run_bind in E as (c & s2 & E2 & E). assert (s1 = with_plan (Some (canonical binding)) empty_directory) as ->.
  { cbn [op_verify_only fresh negb when] in E1. apply publish_inv in E1 as [_ [[[=] _]|[_ ->]]]. done. }
  exists c, s2. split; [exact G|]. split; [exact E2|exact E].
Qed.

(** The files that an interrupted run may leave: any of those of the whole run, but no
    record without its outcome, and no summary. *)
Record part_of (d dF : Directory) : Prop := {
  pt_sub : sub d dF;
  pt_outcomes : forall i, is_Some (dr_records d !! i) -> is_Some (dr_outcomes d !! i)
}.

Lemma rerun_same days policy control calendar limits binding dF report o dB h :
  run_sessions_ days policy control calendar limits fresh binding empty_directory = (dF, Ok report) ->
  part_of dB dF -> op_crash o = None -> op_expected_head o = Some h -> head dB = Ok h ->
  (if op_verify_only o then dB = dF else op_resume o = true /\ dr_summary dB = None) ->
  run_sessions_ days policy control calendar limits o binding dB = (dF, Ok report).
Proof.
  intros E [Hsub Hout] Hcrash Hexp Hhead Hmode. apply fresh_run in E as (c & d1 & Hchecks & E1 & E2). cbn zeta in E1, E2.
  set (dir0 := with_plan (Some (canonical binding)) empty_directory) in *.
  assert (G1 : sub dir0 d1) by (eapply grows_run; [intros; apply grows_loop|exact E1]).
  assert (G2 : sub d1 dF) by (eapply grows_run; [intros; apply grows_finish|exact E2]).
  assert (Hplan : dr_plan dF = Some (canonical binding)) by (apply (slot_sub (Slot := plan_slot) dir0); [by etrans|done]).
  destruct (finish_spec _ _ _ _ _ E2) as (_ & [Fo Fr] & _ & Hsum).
  destruct (head_records _ _ Hhead) as [rows Hrows]. pose proof (records_numbered _ _ Hrows) as Hnum.
  pose proof E1 as Hloop. apply loop_chain with (start := initial_state policy) in Hloop as (_ & _ & _ & Hdom); [|done|constructor].
  assert (Hdom' : forall i, is_Some (dr_records dF !! i) -> (i < length (cy_accepted c))%nat).
  { intros i Hi. rewrite Fr in Hi. destruct (Hdom i Hi) as [Hi'|Hi']; [by apply is_Some_None in Hi'|lia]. }
  set (pB := mkPlan days policy control calendar limits (sha (canonical binding)) o (length rows)).
  (* the directory that [pB] starts from, after the plan *)
  assert (Hstart : exists dP, (when! negb (op_verify_only o) do publish dr_plan (fun raw => with_plan (Some raw)) (canonical binding)) dB = (dP, Ok tt) /\
    within pB dF dir0 dP).
  { assert (Hemp : sub empty_directory dB).
    { pose proof (sb_acks _ _ G1) as A1. pose proof (sb_acks _ _ G2) as A2. pose proof (sb_acks _ _ Hsub) as A3.
      pose proof (sb_owned _ _ G1) as O1. pose proof (sb_owned _ _ G2) as O2. pose proof (sb_owned _ _ Hsub) as O3.
      change (dr_acks dir0) with (∅ : gmap nat bytes) in A1. change (dr_owned dir0) with false in O1.
      split; cbn [dr_plan dr_outcomes dr_records dr_views dr_summary dr_acks dr_owned empty_directory];
        [intros ? [=]|apply map_empty_subseteq..|intros ? [=]|congruence|congruence]. }
    assert (Hw : within pB dF empty_directory dB).
    { split; [exact Hemp|exact Hsub| | |].
      - intros Hv. cbn in Hv. by rewrite Hv in Hmode.
      - intros i Hi. cbn in Hi. apply Hnum in Hi. split; [by apply Hout|exact Hi].
      - intros i Hi Hv. cbn in Hv |- *. rewrite Hv in Hmode. subst dB. by apply Hnum. }
    assert (G0 : sub dir0 dF) by (by etrans). destruct (op_verify_only o) eqn:Hv; cbn [negb when].
    - exists dB. split; [done|]. eapply within_next; [exact Hw|reflexivity| |exact Hsub]. rewrite Hmode. exact G0.
    - apply (publish_within pB dF (canonical binding) empty_directory dir0 dB); [reflexivity|exact Hw|exact G0]. }
  destruct Hstart as (dP & EP & HwP).
  assert (Hr : rerun (mkPlan days policy control calendar limits (sha (canonical binding)) fresh 0) pB) by (by split).
  destruct (loop_sim definition_json uncertain software_hash universe_hash universe inventory _ _ Hr dF _ _ _ _ dP _ E1) as (dL & EL & HwL);
    [apply Forall_forall; cbn; lia|exact HwP|exact G2|].
  assert (Hcount : (length rows <= length (cy_accepted c))%nat).
  { destruct (length rows) as [|n] eqn:En; [lia|]. apply Hdom'. destruct (proj2 (Hnum n) ltac:(lia)) as [x Hx].
    exists x. exact (slot_sub (Slot := record_slot n) _ _ _ Hsub Hx). }
  pose proof (finish_sim _ _ _ _ _ _ _ Hr E2 HwL Hcount) as EF.
  unfold run_sessions. apply run_bind. exists tt, dB. split; [by apply run_lift|].
  apply run_bind. exists dB, dB. split; [by apply run_get|]. apply run_bind. exists (length rows), dB. split.
  - apply run_lift. split; [done|]. unfold directory_checks.
    assert (Hp : match dr_plan dB with Some old => negb (bool_decide (old = canonical binding)) | None => false end = false).
    { destruct (dr_plan dB) as [old|] eqn:Ho; [|done]. apply (sb_plan _ _ Hsub) in Ho. rewrite Hplan in Ho. injection Ho as ->.
      by rewrite bool_decide_true. }
    rewrite Hp, Hrows, Hexp, Hhead. cbn [raise_if mbind res_bind].
    assert (Hown : dr_owned dB = false).
    { rewrite (sb_owned _ _ Hsub), <- (sb_owned _ _ G2), <- (sb_owned _ _ G1). done. }
    rewrite Hown. destruct (op_verify_only o).
    + subst dB. rewrite Hsum, !orb_true_r. cbn [raise_if mbind res_bind negb andb]. rewrite !andb_false_r. cbn [raise_if mbind res_bind].
      rewrite (bool_decide_true (h = h)) by done. cbn [raise_unless mbind res_bind].
      by rewrite bool_decide_true by (by eexists).
    + destruct Hmode as [-> ->]. rewrite bool_decide_false by apply is_Some_None. cbn [orb negb andb raise_if mbind res_bind].
      rewrite !andb_false_r. cbn [raise_if mbind res_bind]. by rewrite (bool_decide_true (h = h)).
  - apply run_bind. exists tt, dP. split; [exact EP|]. apply run_bind. exists tt, dP.
    split; [apply run_lift; split; [done|]; by rewrite no_crash|]. apply run_bind. exists c, dL. split; [exact EL|exact EF].
Qed.

(** In the directory of a finished run every record has its outcome. *)
Lemma carried_outcomes d start l state tip : carried d start l state tip ->
  forall i, (i < length l)%nat -> is_Some (dr_outcomes d !! i).
Proof.
  induction 1 as [|l state previous s closing tip _ IH [_ (raw & x & _ & _ & _ & _ & _ & o & Ho & _) _ _ _]]; intros i Hi; [cbn in Hi; lia|].
  rewrite length_app in Hi. cbn in Hi. destruct (decide (i = length l)) as [->|]; [by exists o|]. apply IH. lia.
Qed.
Lemma final_part days policy control calendar limits binding dF report :
  run_sessions_ days policy control calendar limits fresh binding empty_directory = (dF, Ok report) -> part_of dF dF.
Proof.
  intros E. apply fresh_run in E as (c & d1 & _ & E1 & E2). cbn zeta in E1, E2. split; [done|]. intros i Hi.
  apply loop_chain with (start := initial_state policy) in E1 as (Hc & _ & _ & Hdom); [|done|constructor].
  apply finish_spec in E2 as (_ & [F1 F2] & _ & _). rewrite F1. rewrite F2 in Hi. apply (carried_outcomes _ _ _ _ _ Hc).
  destruct (Hdom i Hi) as [Hi'|Hi']; [by apply is_Some_None in Hi'|lia].
Qed.

(** A finished run is never resumed. *)
Lemma rerun_terminal days policy control calendar limits binding o d raw report d' :
  dr_summary d = Some raw -> op_verify_only o = false ->
  run_sessions_ days policy control calendar limits o binding d <> (d', Ok report).
Proof.
  intros Hs Hv E. unfold run_sessions in E. run_step E. run_step E. run_step E. unfold directory_checks in G0.
  apply bind_Ok in G0 as (u & _ & G0). apply bind_Ok in G0 as (u' & G1 & _). apply raise_if_Ok in G1.
  rewrite Hs, Hv in G1. rewrite bool_decide_true in G1 by (by eexists). discriminate G1.
Qed.
End recovery.

(** ** The journal of acknowledgments

    What [ack_journal] accepts, and the row that [acknowledge] adds to it. *)

Lemma contains_spec l v : contains_json l v = true <-> norm v ∈ norm <$> l.
Proof.
  unfold contains_json. rewrite existsb_exists. split.
  - intros (x & Hx & Hs). apply same_spec in Hs. rewrite Hs. apply list_elem_of_fmap. exists x. split; [done|]. by apply list_elem_of_In.
  - intros (x & Hx & Hin)%list_elem_of_fmap. exists x. split; [by apply list_elem_of_In|]. by apply same_spec.
Qed.

(** The journal: rows of distinct alerts of the report, chained. *)
Record acked (ids : list json) (files : list bytes) (x : Acks) : Prop := {
  aj_length : length (ak_rows x) = length files;
  aj_ids : mapR (key "alert_id") (ak_rows x) = Ok (ak_seen x);
  aj_previous : ak_previous x = match last files with Some raw => sha raw | None => ZERO end;
  aj_distinct : NoDup (norm <$> ak_seen x);
  aj_known : Forall (fun id => contains_json ids id = true) (ak_seen x)
}.

Lemma mapR_snoc {A B} (f : A -> res B) l l' x y : mapR f l = Ok l' -> f x = Ok y -> mapR f (l ++ [x]) = Ok (l' ++ [y]).
Proof.
  revert l'. induction l as [|a l IH]; intros l' El Ex; cbn in El |- *.
  - apply Ok_inj in El. subst l'. by rewrite Ex.
  - unbind El b Eb. unbind El bs Ebs. apply Ok_inj in El. subst l'. rewrite Eb. cbn. by rewrite (IH _ Ebs Ex).
Qed.

Lemma ack_step_inv ids x raw x' : ack_step ids x raw = Ok x' ->
  exists r id previous, unpack (Some raw) = Ok r /\ key "previous" r = Ok previous /\ key "alert_id" r = Ok id /\
    same previous (JStr (ak_previous x)) = true /\ contains_json ids id = true /\ contains_json (ak_seen x) id = false /\
    x' = mkAcks (ak_rows x ++ [r]) (sha raw) (ak_seen x ++ [id]).
Proof.
  unfold ack_step. intros E. unbind E r Er. unbind E p Ep. unbind E aid Ei. unbind E u Eu. apply raise_if_Ok in Eu.
  apply Ok_inj in E. apply orb_false_iff in Eu as [Eu E3]. apply orb_false_iff in Eu as [E1 E2].
  apply negb_false_iff in E1, E2. exists r, aid, p. done.
Qed.
Lemma acks_ok ids files x : foldR (ack_step ids) (mkAcks [] ZERO []) files = Ok x -> acked ids files x.
Proof.
  apply (foldR_prefix_inv (fun pre x => acked ids pre x)); [|split; cbn; try constructor; done].
  intros pre raw post s s' _ [A1 A2 A3 A4 A5] E. apply ack_step_inv in E as (r & id & p & E1 & E2 & E3 & E4 & E5 & E6 & ->).
  split; cbn [ak_rows ak_previous ak_seen].
  - rewrite !length_app. cbn. congruence.
  - by apply mapR_snoc.
  - by rewrite last_snoc.
  - rewrite fmap_app. apply NoDup_app. split; [done|]. split; [|apply NoDup_singleton].
    intros y Hy Hin%list_elem_of_singleton. subst y. apply contains_spec in Hy. congruence.
  - apply Forall_app. split; [done|]. by constructor.
Qed.

Lemma journal_inv d x : ack_journal d = Ok x ->
  exists report ids files, load (dr_summary d) = Ok report /\ alert_ids report = Ok ids /\
    dr_acks d = map_seq 0 files /\ foldR (ack_step ids) (mkAcks [] ZERO []) files = Ok x /\ acked ids files x.
Proof.
  unfold ack_journal. intros E. unbind E report Er. unbind E ids Ei. unbind E files Ef. apply numbered_map in Ef.
  exists report, ids, files. split_and!; try done. by apply acks_ok.
Qed.
Lemma numbered_seq msg l : numbered (map_seq 0 l) msg = Ok l.
Proof.
  unfold numbered. rewrite size_map_seq. enough (forall pre post, mapR (fun i => of_option (ValueError msg) (map_seq (M := gmap nat bytes) 0 (pre ++ post) !! i))
    (seq (length pre) (length post)) = Ok post) as Hs by exact (Hs [] l).
  intros pre post. revert pre. induction post as [|x post IH]; intros pre; [done|]. cbn [length seq mapR].
  rewrite lookup_map_seq_0, list_lookup_middle by done. cbn [of_option mbind res_bind].
  specialize (IH (pre ++ [x])). rewrite length_app, <- app_assoc in IH. cbn [length app] in IH. rewrite Nat.add_1_r in IH.
  by rewrite IH.
Qed.

Lemma filterR_none {A} (f : A -> res bool) l x : filterR f l = Ok [] -> x ∈ l -> f x = Ok false.
Proof.
  induction l as [|y l IH]; intros E Hx; [by apply elem_of_nil in Hx|]. cbn in E. unbind E keep Ek. unbind E rest Er.
  apply Ok_inj in E. destruct keep; [discriminate E|]. subst rest. apply elem_of_cons in Hx as [->|Hx]; [done|by apply IH].
Qed.
Lemma filterR_elem {A} (f : A -> res bool) l l' x : filterR f l = Ok l' -> x ∈ l' -> f x = Ok true /\ x ∈ l.
Proof.
  revert l'. induction l as [|y l IH]; intros l' E Hx; cbn in E.
  - apply Ok_inj in E. subst l'. by apply elem_of_nil in Hx.
  - unbind E keep Ek. unbind E rest Er. apply Ok_inj in E. subst l'. rewrite elem_of_cons. destruct keep.
    + apply elem_of_cons in Hx as [->|Hx]; [by split; [|left]|]. destruct (IH _ Er Hx). auto.
    + destruct (IH _ Er Hx). auto.
Qed.
Lemma with_id_spec id v b : with_id id v = Ok b -> exists i, key "alert_id" v = Ok i /\ b = same i (JStr id).
Proof. unfold with_id. intros E. unbind E i Ei. apply Ok_inj in E. eauto. Qed.
Lemma mapR_elem {A B} (f : A -> res B) l l' y : mapR f l = Ok l' -> y ∈ l' -> exists x, x ∈ l /\ f x = Ok y.
Proof.
  intros E Hy. apply mapR_Forall2 in E. apply list_elem_of_lookup in Hy as [i Hi].
  destruct (Forall2_lookup_r _ _ _ _ _ E Hi) as (x & Hx & Hf). exists x. split; [|done]. by eapply list_elem_of_lookup_2.
Qed.
Lemma mapR_elem_l {A B} (f : A -> res B) l l' x : mapR f l = Ok l' -> x ∈ l -> exists y, y ∈ l' /\ f x = Ok y.
Proof.
  intros E Hx. apply mapR_Forall2 in E. apply list_elem_of_lookup in Hx as [i Hi].
  destruct (Forall2_lookup_l _ _ _ _ _ E Hi) as (y & Hy & Hf). exists y. split; [|done]. by eapply list_elem_of_lookup_2.
Qed.

Lemma publish_ack n raw d d' : publish (fun d => dr_acks d !! n) (with_ack n) raw d = (d', Ok tt) -> dr_acks d !! n = None ->
  d' = with_ack n raw d.
Proof. unfold publish. intros E Hn. run_step E. rewrite Hn in E. by apply run_modify in E. Qed.

(** What a successful acknowledgment does. *)
Lemma acknowledge_inv id at_ evidence d d' r : acknowledge id at_ evidence d = (d', Ok r) ->
  Z.of_nat (length (envelope r)) <= FILE_LIMIT ->
  exists x, ack_journal d = Ok x /\
    ((d' = d /\ r ∈ ak_rows x /\ with_id id r = Ok true) \/
     (contains_json (ak_seen x) (JStr id) = false /\
      (exists report previous, ack_row report id at_ evidence previous = Ok r) /\ d' = with_ack (length (ak_rows x)) (envelope r) d /\
      ack_journal d' = Ok (mkAcks (ak_rows x ++ [norm r]) (sha (envelope r)) (ak_seen x ++ [JStr id])))).
Proof.
  unfold acknowledge. intros E Hl. run_step E.
  apply run_bind in E as (report & s & Er & E). apply run_lift in Er as [-> Er].
  apply run_bind in E as (alerts & s & Ea & E). apply run_lift in Ea as [-> Ea].
  apply run_bind in E as (found & s & Ef & E). apply run_lift in Ef as [-> Ef].
  apply run_bind in E as (a & s & Eh & E). apply run_lift in Eh as [-> Eh]. apply of_option_Ok in Eh.
  apply run_bind in E as (raised & s & Et & E). apply run_lift in Et as [-> _].
  apply run_bind in E as ([] & s & Et & E). apply run_raises_if in Et as [-> _].
  apply run_bind in E as (rs & s & Ej & E). apply run_lift in Ej as [-> Ej].
  apply run_bind in E as (prior & s & Ep & E). apply run_lift in Ep as [-> Ep].
  unfold acknowledgments in Ej. unbind Ej x Ex. unbind Ej u Eu. apply Ok_inj in Ej. subst rs. exists x. split; [exact Ex|].
  apply journal_inv in Ex as (report' & ids & files & Er' & Ei & Hacks & Hf & [A1 A2 A3 A4 A5]).
  assert (report' = report) as -> by congruence. destruct prior as [|p l].
  - right. apply run_bind in E as (previous & s & Eprev & E). apply run_lift in Eprev as [-> Eprev].
    apply run_bind in E as (added & s & Erow & E). apply run_lift in Erow as [-> Erow].
    apply run_bind in E as ([] & s & Epub & E). apply run_ret in E as [-> ->].
    assert (Hnew : contains_json (ak_seen x) (JStr id) = false).
    { apply not_true_iff_false. intros Hc. unfold contains_json in Hc. apply existsb_exists in Hc as (y & Hy & Hs).
      apply list_elem_of_In in Hy. destruct (mapR_elem _ _ _ _ A2 Hy) as (z & Hz & Hk).
      pose proof (filterR_none _ _ _ Ep Hz) as Hn. apply with_id_spec in Hn as (y' & Hk' & Hb).
      assert (y' = y) as -> by congruence. unfold same in *. rewrite bool_decide_eq_true in Hs. rewrite <- Hs in Hb.
      by rewrite bool_decide_true in Hb. }
    assert (Hprev : previous = ak_previous x).
    { rewrite A3. destruct (ak_rows x) as [|z zs] eqn:Hrows.
      - destruct files; [|discriminate A1]. cbn. by apply Ok_inj in Eprev.
      - unbind Eprev raw Eraw. apply Ok_inj in Eprev. subst previous. apply of_option_Ok in Eraw.
        rewrite Hacks, lookup_map_seq_0, A1, <- last_lookup in Eraw. by rewrite Eraw. }
    subst previous. split; [exact Hnew|]. split; [by eexists _, _|].
    assert (Hfree : dr_acks d !! length (ak_rows x) = None).
    { rewrite Hacks, lookup_map_seq_0. apply lookup_ge_None_2. lia. }
    apply publish_ack in Epub; [|exact Hfree]. split; [exact Epub|]. subst s.
    unfold ack_journal. cbn [dr_summary with_ack dr_acks]. rewrite Er. cbn [mbind res_bind]. rewrite Ei. cbn [mbind res_bind].
    assert (Hins : <[length (ak_rows x) := envelope added]> (dr_acks d) = map_seq 0 (files ++ [envelope added])).
    { rewrite Hacks, A1. by rewrite map_seq_snoc. }
    rewrite Hins, numbered_seq. cbn [mbind res_bind]. rewrite foldR_app, Hf. cbn [mbind res_bind foldR].
    assert (Hstep : ack_step ids x (envelope added) = Ok (mkAcks (ak_rows x ++ [norm added]) (sha (envelope added)) (ak_seen x ++ [JStr id])));
      [|by rewrite Hstep].
    unfold ack_row in Erow. unbind Erow own_id Erun. apply Ok_inj in Erow.
    unfold ack_step. rewrite unpack_envelope by exact Hl. cbn [mbind res_bind]. rewrite !key_norm. subst added.
    rewrite (key_obj "previous" _ (JStr (ak_previous x))), (key_obj "alert_id" _ (JStr id)) by reflexivity.
    cbn [fmap res_fmap mbind res_bind norm]. rewrite same_refl, Hnew.
    assert (contains_json ids (JStr id) = true) as ->; [|reflexivity].
    assert (Hin : a ∈ found) by (by eapply list_elem_of_lookup_2). destruct (filterR_elem _ _ _ _ Ef Hin) as [Hid Hal].
    apply with_id_spec in Hid as (aid & Hk & Hs). unfold alert_ids in Ei. unbind Ei al Eal. unbind Ei als Eals.
    unbind Ea al' Eal'. assert (als = alerts) as -> by congruence.
    destruct (mapR_elem_l _ _ _ _ Ei Hal) as (y & Hy & Hk'). assert (y = aid) as -> by congruence.
    unfold contains_json. apply existsb_exists. exists aid. split; [by apply list_elem_of_In|].
    unfold same in *. symmetry in Hs. rewrite bool_decide_eq_true in Hs |- *. done.
  - left. run_step E. run_step E. run_step E. clear G1. apply run_ret in E as [-> ->]. split; [done|].
    destruct (filterR_elem _ _ _ p Ep) as [H1 H2]; [by left|]. done.
Qed.

(** The checks of an acknowledgment depend on the report alone. *)
Lemma acknowledge_checks id at_ evidence d d' r : acknowledge id at_ evidence d = (d', Ok r) ->
  exists report alerts found a raised, load (dr_summary d) = Ok report /\
    (v ← key "alerts" report; elements_of v) = Ok alerts /\ filterR (with_id id) alerts = Ok found /\
    of_option (ValueError "INVALID_ACKNOWLEDGMENT") (found !! 0%nat) = Ok a /\
    (v ← key "timestamp" a; match v with JStr t => fromisoformat t | _ => Err TypeError end) = Ok raised /\
    (at_ <? raised) || negb (len evidence =? 64) = false.
Proof.
  unfold acknowledge. intros E. run_step E.
  apply run_bind in E as (report & s & Er & E). apply run_lift in Er as [-> Er].
  apply run_bind in E as (alerts & s & Ea & E). apply run_lift in Ea as [-> Ea].
  apply run_bind in E as (found & s & Ef & E). apply run_lift in Ef as [-> Ef].
  apply run_bind in E as (a & s & Eh & E). apply run_lift in Eh as [-> Eh].
  apply run_bind in E as (raised & s & Et & E). apply run_lift in Et as [-> Et].
  apply run_bind in E as ([] & s & Ex & E). apply run_raises_if in Ex as [-> Ex].
  exists report, alerts, found, a, raised. done.
Qed.
(** An acknowledgment that repeats one of the journal changes nothing. *)
Lemma acknowledge_again id at_ evidence d d' r x p l : acknowledge id at_ evidence d = (d', Ok r) ->
  dr_summary d' = dr_summary d -> ack_journal d' = Ok x -> filterR (with_id id) (ak_rows x) = Ok (p :: l) ->
  key "timestamp" p = Ok (JStr (iso at_)) -> key "evidence" p = Ok (JStr evidence) ->
  acknowledge id at_ evidence d' = (d', Ok p).
Proof.
  intros E Hs Hx Hf Ht He. apply acknowledge_checks in E as (report & alerts & found & a & raised & E1 & E2 & E3 & E4 & E5 & E6).
  unfold acknowledge. apply run_bind. exists d', d'. split; [by apply run_get|].
  apply run_bind. exists report, d'. split; [apply run_lift; split; [done|by rewrite Hs]|].
  apply run_bind. exists alerts, d'. split; [by apply run_lift|]. apply run_bind. exists found, d'. split; [by apply run_lift|].
  apply run_bind. exists a, d'. split; [by apply run_lift|]. apply run_bind. exists raised, d'. split; [by apply run_lift|].
  apply run_bind. exists tt, d'. split; [by apply run_raises_if|].
  apply run_bind. exists (ak_rows x), d'. split; [apply run_lift; split; [done|]; unfold acknowledgments; by rewrite Hx|].
  apply run_bind. exists (p :: l), d'. split; [by apply run_lift|].
  apply run_bind. eexists _, d'. split; [by apply run_lift|]. apply run_bind. eexists _, d'. split; [by apply run_lift|].
  apply run_bind. exists tt, d'. split; [|done]. apply run_raises_if. split; [done|]. by rewrite !same_refl.
Qed.

Lemma filterR_app {A} (f : A -> res bool) l l' k k' : filterR f l = Ok k -> filterR f l' = Ok k' ->
  filterR f (l ++ l') = Ok (k ++ k').
Proof.
  revert k. induction l as [|x l IH]; intros k E E'; cbn in E |- *.
  - by apply Ok_inj in E as <-.
  - unbind E b Eb. unbind E rest Er. apply Ok_inj in E as <-. rewrite Eb. cbn. rewrite (IH _ Er E'). cbn. by destruct b.
Qed.
(** Rows without the identifier. *)
Lemma filterR_unseen id rows seen : mapR (key "alert_id") rows = Ok seen -> contains_json seen (JStr id) = false ->
  filterR (with_id id) rows = Ok [].
Proof.
  revert seen. induction rows as [|r rows IH]; intros seen E Hc; [done|]. cbn [mapR filterR] in E |- *. unbind E i Ei. unbind E rest Er.
  apply Ok_inj in E. subst seen. cbn in Hc. apply orb_false_iff in Hc as [Hi Hc]. rewrite (IH _ Er Hc). unfold with_id. rewrite Ei.
  cbn. unfold same in *. apply bool_decide_eq_false in Hi. by rewrite bool_decide_false by congruence.
Qed.
