(* ===== verification/MultiSample.v ===== *)
(** * A worked run over two sessions

    The first day has one command, a preflight after the opening, which is rejected and
    halts the session; so the second session of the calendar is not run. *)
From S2P Require Import Prelude Decimal DecimalFacts Text Dataset Costs Phase14 Strategies Execution Json CanonicalPolicy Research Exec Qualification Chain PyText Paper.
From S2P Require Import PaperSample Portfolio PortfolioRun PortfolioSample Scheduler Multi MultiSession MultiRecovery.
From S2P Require Sample.
Import Sample.
Open Scope list_scope.
Open Scope Z_scope.

#[export] Instance json_day : DumpJson Day := fun d => JInt (cf_trading_date (dy_config d)).
#[export] Instance json_limits : DumpJson Limits := fun l => jopt jdec (lm_cumulative_drawdown l).

Definition late_preflight : Command := mkCommand Preflight (day_at 9 15) [] [].
Definition halted_day : Day := mkTradingDay [sample_request] sample_configuration [late_preflight].
Definition two_sessions : Calendar :=
  mkSessionCalendar "calendar" sample_hash
    [mkDated (day_at 9 15) (day_at 9 45); mkDated (nse_combine 20001 (hm 9 15)) (nse_combine 20001 (hm 9 45))] [].
Definition sample_limits : Limits := mkLimits (Some (dZ 500)) (Some sample_hash).
Definition sample_binding : json :=
  match run_binding JNull JNull [halted_day] sample_policy sample_control two_sessions sample_limits with Ok b => b | Err _ => JNull end.

(** A notation, so that a proof about the run never unfolds it. *)
Abbreviation two_days options directory :=
  (run_sessions definition_value (fun _ => false) sample_hash sample_hash sample_universe JNull [halted_day] sample_policy
    sample_control two_sessions sample_limits options sample_binding directory).


(** What the run is computed for: its outcomes, its completion, the entries of its
    ledgers, and that its alerts are distinct. *)
Lemma two_days_shape :
  (let '(d, r) := two_days fresh empty_directory in
   (base.size (dr_outcomes d), report ← r; key "complete" report, ledger_total d <=? 250000,
    report ← r; ids ← alert_ids report; Ok (bool_decide (NoDup (canonical <$> ids))))) =
  (1%nat, Ok (JBool false), true, Ok true).
Proof. vm_compute. reflexivity. Qed.
Lemma two_days_full : exists d report, two_days fresh empty_directory = (d, Ok report) /\ key "complete" report = Ok (JBool false) /\
  base.size (dr_outcomes d) = 1%nat /\ ledger_total d <= 250000 /\
  exists ids, alert_ids report = Ok ids /\ NoDup (canonical <$> ids).
Proof.
  pose proof two_days_shape as E. destruct (two_days fresh empty_directory) as [d [report|e]];
    apply pair_equal_spec in E as [E E4]; apply pair_equal_spec in E as [E E3]; apply pair_equal_spec in E as [E1 E2]; [|discriminate E2].
  exists d, report. split; [reflexivity|]. split; [exact E2|]. split; [exact E1|]. split; [by apply Z.leb_le|].
  cbn [mbind res_bind] in E4. unbind E4 ids Hids. apply Ok_inj, bool_decide_eq_true in E4.
  exact (ex_intro _ ids (conj Hids E4)).
Qed.
Lemma two_days_ok : exists d report, two_days fresh empty_directory = (d, Ok report) /\ key "complete" report = Ok (JBool false) /\
  base.size (dr_outcomes d) = 1%nat.
Proof. destruct two_days_full as (d & report & E & Hc & Hs & _). exact (ex_intro _ d (ex_intro _ report (conj E (conj Hc Hs)))). Qed.

(** A report with one alert, and the directory that holds it. *)
Definition alarm : json :=
  JObj [("alert_id", JStr "alarm"); ("timestamp", JStr "2024-10-04T03:45:00+00:00"); ("reason", JStr "SESSION_MISSING")]%string.
Definition alarmed : Directory :=
  with_summary (Some (canonical (JObj [("alerts", JArr [alarm]); ("run_id", JStr "run")]))) empty_directory.
