(* ===== verification/MultiTheorems.v ===== *)
(** * Sessions carried forward, resumed, verified, acknowledged

    The properties of [Multi]: what a session hands to the next one, the chain that a run
    publishes, recovery from any interruption, and the journal of acknowledgments. *)
From S2P Require Import Prelude Decimal DecimalFacts Text Dataset Costs Phase14 Strategies Execution Json JsonFacts JsonRead CanonicalPolicy Research Exec Qualification Chain PyText Paper.
From S2P Require Import PaperSample Portfolio PortfolioRun PortfolioSample Scheduler SchedulerFacts Multi MultiFacts MultiRunFacts MultiSession MultiRecovery MultiSample.
From S2P Require Sample.
Open Scope list_scope.
Open Scope Z_scope.

(** The first session of a fresh run is executed. *)
Lemma first_executed `{Dump Definition_} `{Dump Bar} `{Dump Row} `{Dump Risk} `{Dump Dataset_} `{Dump Phase14.Policy}
    `{Dump Request} `{DumpJson ResearchWindow} `{DumpJson IntradayCostSchedule} `{DumpJson Settings} `{DumpJson Authorization}
    `{DumpJson Policy} `{DumpJson Control} `{DumpPython Policy} `{DumpJson Calendar} `{DumpJson Configuration}
    `{DumpJson Command} `{DumpJson Day} `{DumpJson Limits} definition_json uncertain software universe_hash universe inventory
    days policy control calendar limits binding final report session sessions day :
  run_sessions definition_json uncertain software universe_hash universe inventory days policy control calendar limits fresh
    binding empty_directory = (final, Ok report) ->
  ca_sessions calendar = session :: sessions -> day_of days (session_day session) = Some day ->
  exists bound out, execute definition_json uncertain software universe_hash universe inventory day policy control calendar limits
    (initial_state policy) bound = Ok out.
Proof.
  intros E Hs Hd. apply fresh_run in E as (c & d1 & _ & E & _). cbn zeta in E. rewrite Hs in E. cbn [length seq zip_with sessions_loop] in E.
  apply run_bind in E as (halted & s & E1 & E). apply run_lift in E1 as [-> E1].
  assert (halted = JBool false) as ->.
  { unfold start_carry, initial_state in E1. cbn [cy_state] in E1. rewrite dict_key in E1. by apply Ok_inj in E1. }
  cbn [truthy] in E. apply run_bind in E as (c1 & s1 & E2 & _). unfold session_step in E2.
  apply run_bind in E2 as ([out raw] & s2 & E2 & _). unfold session_outcome in E2. cbn [pl_days] in E2. rewrite Hd in E2.
  run_step E2. run_step E2. cbn [dr_outcomes with_plan empty_directory] in E2. rewrite lookup_empty in E2. run_step E2. run_step E2.
  eexists _, _. exact G1.
Qed.

(** ** The properties *)

(** C22. What a session hands to the next one.  A session is executed only from a state
    that is not halted and holds no position and no reservation.  Its outcome is either
    complete, and then it leaves no position and no reservation, or it halts every later
    session.  The equity it hands on is that of the start with the realized and the
    unrealized results of the day, the cumulative net result is that of the start with
    the realized one, and neither the high-water mark nor the maximum drawdown falls. *)
Theorem session_carries `{Dump Definition_} `{Dump Bar} `{Dump Row} `{Dump Risk} `{Dump Dataset_} `{Dump Phase14.Policy}
    `{Dump Request} `{DumpJson ResearchWindow} `{DumpJson IntradayCostSchedule} `{DumpJson Settings} `{DumpJson Authorization}
    `{DumpJson Policy} `{DumpJson Control} `{DumpPython Policy} `{DumpJson Calendar} `{DumpJson Configuration}
    `{DumpJson Command} definition_json uncertain software universe_hash universe inventory day policy control calendar
    limits start binding out :
  execute definition_json uncertain software universe_hash universe inventory day policy control calendar limits start binding = Ok out ->
  carries start out.
Proof. apply execute_carries. Qed.

(** C16. The sessions of a finished run, whatever its options, are a chain: each starts
    with the state that the one before it left, which is not halted; its record is in the
    directory, names the digest of the record before it, and contains the digest of the
    outcome file.  The run ends at the first halted state or at the end of the calendar,
    and is complete when it reached the end without a halt. *)
Theorem multi_chain `{Dump Definition_} `{Dump Bar} `{Dump Row} `{Dump Risk} `{Dump Dataset_} `{Dump Phase14.Policy}
    `{Dump Request} `{DumpJson ResearchWindow} `{DumpJson IntradayCostSchedule} `{DumpJson Settings} `{DumpJson Authorization}
    `{DumpJson Policy} `{DumpJson Control} `{DumpPython Policy} `{DumpJson Calendar} `{DumpJson Configuration}
    `{DumpJson Command} `{DumpJson Day} `{DumpJson Limits} definition_json uncertain software universe_hash universe inventory
    days policy control calendar limits o binding d d' report :
  run_sessions definition_json uncertain software universe_hash universe inventory days policy control calendar limits o binding d = (d', Ok report) ->
  exists l state tip halted, carried d' (initial_state policy) l state tip /\
    key "sessions" report = Ok (JArr l) /\ key "state" report = Ok state /\ key "head" report = Ok (JStr tip) /\
    key "halted" state = Ok halted /\ (length l = length (ca_sessions calendar) \/ truthy halted = true) /\
    key "complete" report = Ok (JBool (negb (truthy halted) && Nat.eqb (length l) (length (ca_sessions calendar)))).
Proof. apply run_chain. Qed.

(** C28. Recovery and verification.  Take the directory that an uninterrupted run leaves.
    From any part of its files (whichever were written before the interruption, provided
    no record lacks its outcome, and the summary is missing), a run resumed with the head
    of that part gives the same report and leaves exactly the same directory.  Verifying
    the whole directory succeeds with the same report and changes nothing; and a finished
    directory is never run again. *)
Theorem multi_recovery `{Dump Definition_} `{Dump Bar} `{Dump Row} `{Dump Risk} `{Dump Dataset_} `{Dump Phase14.Policy}
    `{Dump Request} `{DumpJson ResearchWindow} `{DumpJson IntradayCostSchedule} `{DumpJson Settings} `{DumpJson Authorization}
    `{DumpJson Policy} `{DumpJson Control} `{DumpPython Policy} `{DumpJson Calendar} `{DumpJson Configuration}
    `{DumpJson Command} `{DumpJson Day} `{DumpJson Limits} definition_json uncertain software universe_hash universe inventory
    days policy control calendar limits binding final report :
  let run := run_sessions definition_json uncertain software universe_hash universe inventory days policy control calendar limits in
  run fresh binding empty_directory = (final, Ok report) ->
  (forall d h, part_of d final -> dr_summary d = None -> head d = Ok h ->
     run (mkOptions true false (Some h) None) binding d = (final, Ok report)) /\
  (forall h, head final = Ok h ->
     run (mkOptions false true (Some h) None) binding final = (final, Ok report)) /\
  (forall o d report', op_verify_only o = false -> run o binding final <> (d, Ok report')).
Proof.
  intros run E. subst run. cbn beta. split; [|split].
  - intros d h Hp Hs Hh. by eapply rerun_same.
  - intros h Hh. eapply rerun_same; try done. by eapply final_part.
  - intros o d report' Hv. pose proof (fresh_run _ _ _ _ _ _ _ _ _ _ _ _ _ _ E) as (c & d1 & _ & _ & Ef).
    apply finish_spec in Ef as (_ & _ & _ & Hs). by eapply rerun_terminal.
Qed.

(** Acknowledging an alert. *)
Theorem acknowledged_once id at_ evidence d d' added :
  acknowledge id at_ evidence d = (d', Ok added) -> Z.of_nat (length (envelope added)) <= FILE_LIMIT ->
  exists x x', ack_journal d = Ok x /\ ack_journal d' = Ok x' /\ contains_json (ak_seen x') (JStr id) = true /\
    NoDup (norm <$> ak_seen x') /\ (d' = d \/ ak_seen x' = ak_seen x ++ [JStr id] /\ ak_rows x' = ak_rows x ++ [norm added]) /\
    mkDirectory (dr_plan d') (dr_outcomes d') (dr_records d') (dr_views d') (dr_summary d') (dr_acks d) (dr_owned d') = d /\
    exists added', acknowledge id at_ evidence d' = (d', Ok added') /\ norm added' = norm added.
Proof.
  intros E Hl. destruct (acknowledge_inv _ _ _ _ _ _ E Hl) as (x & Hx & Hcase).
  pose proof (journal_inv _ _ Hx) as (report & ids & files & _ & _ & _ & _ & [A1 A2 A3 A4 A5]).
  destruct Hcase as [(-> & Hin & Hid)|(Hnew & (rep & p & Hrow) & Hd & Hx')].
  - exists x, x. split; [exact Hx|]. split; [exact Hx|]. split.
    { apply with_id_spec in Hid as (i & Hk & Hs). destruct (mapR_elem_l _ _ _ _ A2 Hin) as (y & Hy & Hk').
      assert (y = i) as -> by congruence. unfold contains_json. apply existsb_exists. exists i.
      split; [by apply list_elem_of_In|]. unfold same in *. symmetry in Hs. by rewrite bool_decide_eq_true in Hs |- *. }
    split; [exact A4|]. split; [by left|]. split; [by destruct d|]. exists added. done.
  - eexists x, _. split; [exact Hx|]. split; [exact Hx'|]. cbn [ak_seen ak_rows].
    pose proof (journal_inv _ _ Hx') as (report' & ids' & files' & _ & _ & _ & _ & [B1 B2 B3 B4 B5]). cbn [ak_rows ak_seen] in *.
    split; [apply contains_spec; rewrite fmap_app; set_solver|]. split; [exact B4|]. split; [by right|].
    split; [by subst d'; destruct d|]. exists (norm added). split; [|apply norm_norm].
    unfold ack_row in Hrow. unbind Hrow rid Erun. apply Ok_inj in Hrow.
    eapply (acknowledge_again id at_ evidence d d' added _ (norm added) []); [exact E|by subst d'|exact Hx'| | |].
    + cbn [ak_rows]. apply (filterR_app _ _ _ [] [norm added]); [by eapply filterR_unseen|]. cbn [filterR]. unfold with_id.
      rewrite key_norm, <- Hrow, (key_obj "alert_id" _ (JStr id)) by reflexivity. cbn. by rewrite same_refl.
    + rewrite key_norm, <- Hrow, (key_obj "timestamp" _ (JStr (iso at_))) by reflexivity. done.
    + rewrite key_norm, <- Hrow, (key_obj "evidence" _ (JStr evidence)) by reflexivity. done.
Qed.

(** ** Witnesses *)

Import Sample.

Lemma session_carries_witness : exists bound out,
  execute definition_value (fun _ => false) sample_hash sample_hash sample_universe JNull halted_day sample_policy sample_control
    two_sessions sample_limits (initial_state sample_policy) bound = Ok out /\ unresolved (initial_state sample_policy) = Ok false.
Proof.
  destruct two_days_ok as (d & report & E & _ & _).
  destruct (first_executed definition_value (fun _ => false) sample_hash sample_hash sample_universe JNull [halted_day] sample_policy
    sample_control two_sessions sample_limits sample_binding d report _ _ halted_day E eq_refl eq_refl) as (bound & out & Ex).
  exists bound, out. split; [exact Ex|].
  exact (cr_resolved _ _ (session_carries definition_value (fun _ => false) sample_hash sample_hash sample_universe JNull halted_day
    sample_policy sample_control two_sessions sample_limits (initial_state sample_policy) bound out Ex)).
Defined.
Lemma multi_chain_witness : exists d report, two_days fresh empty_directory = (d, Ok report) /\
  key "complete" report = Ok (JBool false) /\ exists l state tip halted, carried d (initial_state sample_policy) l state tip /\
  key "sessions" report = Ok (JArr l) /\ key "state" report = Ok state /\ key "head" report = Ok (JStr tip) /\
  key "halted" state = Ok halted /\ (length l = 2%nat \/ truthy halted = true) /\
  key "complete" report = Ok (JBool (negb (truthy halted) && Nat.eqb (length l) 2)).
Proof.
  destruct two_days_ok as (d & report & E & Hc & _). exists d, report. split; [exact E|]. split; [exact Hc|].
  exact (multi_chain definition_value (fun _ => false) sample_hash sample_hash sample_universe JNull [halted_day] sample_policy
    sample_control two_sessions sample_limits fresh sample_binding empty_directory d report E).
Defined.
(** Interrupted after the first outcome: the plan and the outcome, no record yet. *)
Lemma multi_recovery_witness : exists d final report, base.size (dr_outcomes d) = 1%nat /\ dr_records d = ∅ /\
  two_days fresh empty_directory = (final, Ok report) /\
  two_days (mkOptions true false (Some ZERO) None) d = (final, Ok report).
Proof.
  destruct two_days_ok as (final & report & E & _ & Hs).
  pose (d := mkDirectory (dr_plan final) (dr_outcomes final) ∅ ∅ None (dr_acks final) (dr_owned final)).
  exists d, final, report. split; [exact Hs|]. split; [reflexivity|]. split; [exact E|].
  assert (Hp : part_of d final).
  { split; [split; try (exact (fun x h => h) || reflexivity || apply map_empty_subseteq); intros x Hx; discriminate Hx|].
    intros i Hi. cbn in Hi. rewrite lookup_empty in Hi. destruct Hi as [x Hx]. discriminate Hx. }
  exact (proj1 (multi_recovery definition_value (fun _ => false) sample_hash sample_hash sample_universe JNull [halted_day]
    sample_policy sample_control two_sessions sample_limits sample_binding final report E) d ZERO Hp eq_refl eq_refl).
Defined.
Lemma acknowledged_once_witness : exists d row, acknowledge "alarm" 1728013500000001 sample_hash alarmed = (d, Ok row) /\
  exists x x', ack_journal alarmed = Ok x /\ ack_journal d = Ok x' /\ contains_json (ak_seen x') (JStr "alarm") = true.
Proof.
  assert (Hshape : (let '(d, r) := acknowledge "alarm" 1728013500000001 sample_hash alarmed in
    (fun v => Z.of_nat (length (envelope v)) <=? FILE_LIMIT) <$> r) = Ok true) by (vm_compute; reflexivity).
  destruct (acknowledge "alarm" 1728013500000001 sample_hash alarmed) as [d [row|e]] eqn:E; [|discriminate Hshape].
  apply Ok_inj in Hshape. apply Z.leb_le in Hshape. exists d, row. split; [reflexivity|].
  destruct (acknowledged_once "alarm" 1728013500000001 sample_hash alarmed d row E Hshape) as (x & x' & H1 & H2 & H3 & _).
  exists x, x'. split; [exact H1|]. split; [exact H2|exact H3].
Defined.
