(* ===== verification/Analytics.v ===== *)
(** * Session analytics ([phase1421/analytics.py])

    A published run of [Multi] is not trusted: [validate] executes every session again and
    checks the chain, the summary, the alerts and the views; [analyze] then rebuilds the
    equity curve, the drawdowns, the attribution by strategy and symbol and the cost
    components from the outcomes, and reconciles each of them with the published totals.

    Reading a dictionary into a model class is [pydantic]'s [model_validate], the class
    [ReadJson].  The risk ratios (volatility, Sharpe, Sortino, Calmar) are computed with
    square roots and powers of [decimal] numbers, and are the argument [risk_metrics]. *)
From S2P Require Import Prelude Decimal DecimalFacts Text Dataset Costs Phase14 Strategies Execution Json JsonFacts JsonRead CanonicalPolicy Research Exec Qualification Chain PyText Paper.
From S2P Require Import Portfolio PortfolioRun Scheduler Multi.
From Stdlib Require Import Ascii.
Open Scope list_scope.
Open Scope Z_scope.

Definition SCHEMA : string := "Phase1421Analytics.v1".
(** [A.model_validate(v)] *)
Class ReadJson (A : Type) := model_validate : json -> res A.

(** ** Numbers *)

(** The texts of infinities and NaNs, which [Decimal] reads without an exception. *)
Definition lowercase (c : ascii) : ascii := if is_upper c then ascii_of_N (N_of_ascii c + 32) else c.
Definition nonfinite_text (s : string) : bool :=
  let l := lowercase <$> text s in
  let l := match l with c :: l' => if is_char 43 c || is_char 45 c then l' else l | [] => l end in
  bool_decide (l = text "inf") || bool_decide (l = text "infinity") ||
  match JsonRead.strip (text "nan") l, JsonRead.strip (text "snan") l with
  | Some ds, _ | None, Some ds => forallb is_digit ds
  | None, None => false
  end.
Definition number (value : json) : res dec :=
  match value with
  | JStr s =>
      reject! nonfinite_text s as "NONFINITE_METRIC";
      of_option (DecimalException InvalidOperation) (dec_of_str s)
  | JInt n => Ok (dZ n)
  | _ => Err (ValueError "UNSUPPORTED_NUMBER")
  end.
Definition number_at (k : string) (d : json) : res dec := v ← key k d; number v.
Definition unavailable (reason : string) : json :=
  JObj [("status", JStr "NOT_COMPUTABLE"); ("value", JNull); ("reason", JStr reason)]%string.
Definition metric (value : dec) : json :=
  JObj [("status", JStr "COMPUTED"); ("value", jdec value); ("reason", JNull)]%string.

(** [require(d[k] == v, msg)] *)
Definition expect (msg k : string) (d v : json) : res unit :=
  x ← key k d; raise_unless (same x v) msg.
(** [len({...}) == len(...)] *)
Definition distinct (l : list json) : bool := bool_decide (NoDup (canonical <$> l)).
Definition without (k : string) (l : list (string * json)) : list (string * json) :=
  List.filter (fun x => negb (bool_decide (x.1 = k))) l.

Section validation.
Context `{Dump Definition_} `{Dump Bar} `{Dump Row} `{Dump Risk} `{Dump Dataset_} `{Dump Phase14.Policy} `{Dump Request}.
Context `{DumpJson ResearchWindow} `{DumpJson IntradayCostSchedule} `{DumpJson Settings} `{DumpJson Authorization}.
Context `{DumpJson Policy} `{DumpJson Control} `{DumpPython Policy}.
Context `{DumpJson Calendar} `{DumpJson Configuration} `{DumpJson Command} `{DumpJson Day} `{DumpJson Limits}.
Context `{ReadJson Day} `{ReadJson Policy} `{ReadJson Control} `{ReadJson Calendar} `{ReadJson Limits}.
Context (definition_json : Definition_ -> json) (uncertain : Metrics -> bool) (software_hash universe_hash : string).
Context (universe : list string) (inventory software scheduler_software : json).

(** ** Validation *)

Record Inputs := mkInputs {
  ni_days : list Day; ni_policy : Policy; ni_control : Control; ni_calendar : Calendar; ni_limits : Limits
}.
Definition read_at {A} `{ReadJson A} (k : string) (d : json) : res A := v ← key k d; model_validate v.
Definition read_inputs (inputs : json) : res Inputs :=
  days ← key "days" inputs;
  days ← elements_of days;
  days ← mapR model_validate days;
  require! (0 <? Z.of_nat (length days)) && (Z.of_nat (length days) <=? 252) else "SESSION_BUDGET";
  policy ← read_at "policy" inputs;
  control ← read_at "control" inputs;
  calendar ← read_at "calendar" inputs;
  limits ← read_at "limits" inputs;
  (* a [Calendar] is synthetic *)
  require! rk_fixture_only (pp_base policy) else "UNSUPPORTED_PROVENANCE";
  Ok (mkInputs days policy control calendar limits).

(** The variables of the loop over the sessions. *)
Record Replay := mkReplay { rp_previous : string; rp_last : option json; rp_result : list json; rp_snapshots : Z }.

(** A session starts from what the one before it left; the first one, from the capital. *)
Definition check_opening (policy : Policy) (last : option json) (start : json) : res unit :=
  match last with
  | Some state =>
      _ ← raise_unless (same state start) "CARRY_FORWARD";
      halted ← key "halted" state;
      raise_unless (negb (truthy halted)) "CARRY_FORWARD"
  | None =>
      let holds (k : string) (c : option dec) :=
        x ← number_at k start;
        raise_unless (match c with Some c => deqb x c | None => false end) "OPENING_STATE" in
      _ ← holds "cash"%string (rk_capital (pp_base policy));
      _ ← holds "equity"%string (rk_capital (pp_base policy));
      _ ← holds "cumulative_net"%string (Some d0);
      holds "cumulative_fees"%string (Some d0)
  end.
Definition check_binding (n : Inputs) (run_id : json) (previous : string) (i : nat) (day : Day) (start binding : json) : res unit :=
  let holds k v := expect "SESSION_BINDING" k binding v in
  _ ← holds "date"%string (JStr (date_text (cf_trading_date (dy_config day))));
  _ ← holds "day"%string (JStr (day_hash day));
  _ ← holds "calendar"%string (JStr (calendar_fingerprint (ni_calendar n)));
  _ ← holds "run_id"%string run_id;
  _ ← holds "previous"%string (JStr previous);
  _ ← holds "sequence"%string (JInt (Z.of_nat i));
  holds "starting_state"%string (JStr (sha (canonical start))).
(** The fields of an envelope: the value, whose digest is the fingerprint. *)
Definition open_envelope (e : json) : res json :=
  value ← key "value" e;
  _ ← expect "ENVELOPE_HASH" "fingerprint" e (JStr (sha (canonical value)));
  Ok value.

Definition replay_session (n : Inputs) (run_id : json) (s : Replay) (x : nat * (json * json)) : res Replay :=
  let '(i, (out, rec)) := x in
  o ← open_envelope out;
  record ← open_envelope rec;
  let chained k v := expect "SESSION_CHAIN" k record v in
  binding ← key "binding" o;
  _ ← chained "sequence"%string (JInt (Z.of_nat i));
  _ ← chained "previous"%string (JStr (rp_previous s));
  _ ← chained "outcome_hash"%string (JStr (sha (canonical out)));
  _ ← chained "binding"%string binding;
  start ← key "start" o;
  day ← of_option IndexError (ni_days n !! i);
  _ ← check_binding n run_id (rp_previous s) i day start binding;
  _ ← check_opening (ni_policy n) (rp_last s) start;
  reports ← key "reports" o;
  ledger ← key "cash-ledger.json" reports;
  ledger ← elements_of ledger;
  let snapshots := rp_snapshots s + Z.of_nat (length ledger) in
  require! snapshots <=? 250000 else "SNAPSHOT_BUDGET";
  again ← execute definition_json uncertain software_hash universe_hash universe inventory day (ni_policy n) (ni_control n)
            (ni_calendar n) (ni_limits n) start binding;
  require! same again o else "OUTCOME_REPLAY_MISMATCH";
  readiness ← key "readiness.json" reports;
  bound ← key "binding" readiness;
  _ ← expect "SOFTWARE_BINDING" "software" bound scheduler_software;
  end_ ← key "end" o;
  Ok (mkReplay (sha (canonical rec)) (Some end_) (rp_result s ++ [o]) snapshots).

(** The dates of the run, and the shape of its journal. *)
Definition check_dates (n : Inputs) : res unit :=
  let dates := (cf_trading_date ∘ dy_config) <$> ni_days n in
  require! bool_decide (NoDup dates) else "DUPLICATE_SESSION";
  raise_unless (bool_decide (dates = sort_by Z.leb dates)) "SESSION_ORDER".

Definition all_complete (outcomes : list json) : res bool :=
  flags ← mapR (key "complete") outcomes; Ok (forallb truthy flags).
Definition daily_row (o : json) : res json :=
  binding ← key "binding" o;
  date ← key "date" binding;
  daily ← key "daily" o;
  fields ← fields_of daily;
  Ok (JObj (("date"%string, date) :: fields)).
Definition session_summary (x : json * json) : res json :=
  let '(o, rec) := x in
  binding ← key "binding" o;
  date ← key "date" binding;
  complete ← key "complete" o;
  start ← key "start" o;
  end_ ← key "end" o;
  Ok (JObj [("date", date); ("complete", complete); ("starting_state", start); ("closing_state", end_);
            ("head", JStr (sha (canonical rec)))]%string).
Definition check_session (x : json * (json * json)) : res unit :=
  expected ← session_summary x.2; raise_unless (same x.1 expected) "SUMMARY_SESSION".
Definition check_summary (n : Inputs) (summary : json) (records : list json) (s : Replay) : res unit :=
  last ← of_option TypeError (rp_last s);
  _ ← expect "SUMMARY_STATE" "state" summary last;
  _ ← expect "SUMMARY_STATE" "head" summary (JStr (rp_previous s));
  complete ← (if Nat.eqb (length (rp_result s)) (length (ni_days n)) then all_complete (rp_result s) else Ok false);
  _ ← expect "FALSE_COMPLETION" "complete" summary (JBool complete);
  sessions ← key "sessions" summary;
  sessions ← elements_of sessions;
  require! Nat.eqb (length sessions) (length (rp_result s)) else "SUMMARY_LEDGER";
  daily ← mapR daily_row (rp_result s);
  _ ← expect "SUMMARY_LEDGER" "daily" summary (JArr daily);
  _ ← mapR check_session (zip sessions (zip (rp_result s) records));
  Ok tt.

Definition record_alerts (rec : json) : res (list json) :=
  value ← key "value" rec; alerts ← key "alerts" value; elements_of alerts.
Definition check_alert (a : json) : res unit :=
  fields ← fields_of a;
  expect "ALERT_HASH" "alert_id" a (JStr (sha (canonical (JObj (without "alert_id" fields))))).
Definition check_alerts (summary : json) (records : list json) : res unit :=
  alerts ← mapR record_alerts records;
  let alerts := concat alerts in
  _ ← expect "ALERT_LEDGER" "alerts" summary (JArr alerts);
  ids ← mapR (key "alert_id") alerts;
  require! distinct ids else "DUPLICATE_ALERT";
  _ ← mapR check_alert alerts;
  Ok tt.
Definition check_views (n : Inputs) (source summary : json) : res unit :=
  views ← report_views summary (ni_limits n);
  _ ← expect "REPORT_HASH" "reports" source (JObj views);
  published ← key "reports" source;
  published ← fields_of published;
  expect "REPORT_HASH" "reports" summary (JObj ((fun x => (x.1, JStr (sha (canonical x.2)))) <$> published)).

Definition validate (source : json) : res (list json) :=
  summary ← key "summary" source;
  _ ← expect "UNSUPPORTED_PROVENANCE" "scope" summary (JStr "SYNTHETIC_FIXTURE");
  inputs ← key "input" source;
  _ ← expect "INPUT_HASH" "input_hash" source (JStr (sha (canonical inputs)));
  n ← read_inputs inputs;
  binding ← run_binding software scheduler_software (ni_days n) (ni_policy n) (ni_control n) (ni_calendar n) (ni_limits n);
  _ ← expect "RUN_BINDING" "run_id" summary (JStr (sha (canonical binding)));
  outcomes ← key "outcomes" source;
  outcomes ← elements_of outcomes;
  records ← key "records" source;
  records ← elements_of records;
  require! Nat.ltb 0 (length outcomes) && Nat.eqb (length outcomes) (length records) &&
           Nat.leb (length records) (length (ni_days n)) else "SESSION_RECORD_MISSING";
  _ ← check_dates n;
  run_id ← key "run_id" summary;
  s ← foldR (replay_session n run_id) (mkReplay ZERO None [] 0)
        (zip (seq 0 (length outcomes)) (zip outcomes records));
  _ ← check_summary n summary records s;
  _ ← check_alerts summary records;
  _ ← check_views n source summary;
  Ok (rp_result s).
End validation.

(** ** Acknowledgments *)

Record AckView := mkAckView { kv_seen : list json; kv_previous : string; kv_delays : list json }.
Definition instant_at (k : string) (d : json) : res Z :=
  v ← key k d; match v with JStr t => fromisoformat t | _ => Err TypeError end.
(** [str(D(days * 86400 + seconds) + D(microseconds) / D(1000000))] *)
Definition elapsed (us : Z) : res dec :=
  fraction ← pdiv (dZ (us mod SECOND)) (dZ SECOND);
  padd (dZ (us / SECOND)) fraction.
(** [{a["alert_id"]: a for a in alerts}.get(identifier)]: the last alert of an identifier. *)
Definition alert_of (index : list (json * json)) (id : json) : option json :=
  snd <$> List.find (fun x => same x.1 id) (rev index).
Definition acknowledge_step (index : list (json * json)) (s : AckView) (envelope : json) : res AckView :=
  row ← key "value" envelope;
  _ ← expect "ACK_CHAIN" "fingerprint" envelope (JStr (sha (canonical row)));
  _ ← expect "ACK_CHAIN" "previous" row (JStr (kv_previous s));
  id ← key "alert_id" row;
  event ← of_option (ValueError "ACK_INVALID") (alert_of index id);
  reject! contains_json (kv_seen s) id as "ACK_INVALID";
  _ ← expect "ACK_INVALID" "status" row (JStr "ACKNOWLEDGED");
  _ ← expect "ACK_INVALID" "resume_authorized" row (JBool false);
  at_ ← instant_at "timestamp" row;
  start ← instant_at "timestamp" event;
  require! start <=? at_ else "ACK_TIME";
  owner ← key "run_id" event;
  _ ← expect "ACK_TIME" "run_id" row owner;
  delay ← elapsed (at_ - start);
  Ok (mkAckView (kv_seen s ++ [id]) (sha (canonical envelope))
        (kv_delays s ++ [JObj [("alert_id", id); ("seconds", jdec delay)]%string])).
Definition acknowledgment_view (alerts rows : list json) : res json :=
  ids ← mapR (key "alert_id") alerts;
  s ← foldR (acknowledge_step (zip ids alerts)) (mkAckView [] ZERO []) rows;
  Ok (JObj [("acknowledged", JInt (Z.of_nat (length (kv_seen s)))); ("delays", JArr (kv_delays s));
            ("resolved_incidents", JInt 0); ("resume_authorized", JBool false)]%string).

(** ** Readiness *)

Definition readiness_row (at_ evidence : json) (status role : string) (gaps : list string) (action : string) : json :=
  JObj [("status", JStr status); ("evidence", evidence); ("evidence_timestamp", at_); ("responsible_role", JStr role);
        ("owner_approval", JNull); ("missing_prerequisites", JArr (JStr <$> gaps)); ("next_action", JStr action)]%string.
Definition readiness (at_ evidence : json) (complete : bool) : list (string * json) :=
  [("engineering",
    readiness_row at_ evidence (if complete then "VALIDATED_OFFLINE" else "PARTIAL") "Engineering reviewer"
      ["Independent durability and rollback authority"]
      "Review offline validation receipts; no production guarantee");
   ("genuine_strategy",
    readiness_row at_ evidence "BLOCKED" "Research and data owner"
      ["Genuine mappings"; "Authorized historical data"; "Calendar provenance"; "Corporate actions"; "Validated costs";
       "OOS qualification and coverage"]
      "Obtain separately authorized evidence; preserve frozen qualification");
   ("operational",
    readiness_row at_ evidence "BLOCKED" "Accountable owner and compliance/security reviewers"
      ["Terms clearance"; "Gate A"; "Gate B"; "Credential custody"; "Production isolation"; "Independent authority";
       "External logging"; "Approved capital/risk"; "Broker entitlement"; "Owner approval"]
      "Separate explicit approvals required; remain NO_GO")]%string.
