(* ===== verification/AnalyticsFacts.v ===== *)
(** * What a validated run is

    [Analytics.validate] accepts a package only if its outcomes are a chain of sessions
    that execute again to the same outcome ([replayed]). *)
From S2P Require Import Prelude Decimal DecimalFacts Text Dataset Costs Phase14 Strategies Execution Json JsonFacts JsonRead CanonicalPolicy Research Exec Qualification Chain PyText Paper.
From S2P Require Import Portfolio PortfolioRun Scheduler Multi MultiFacts MultiRunFacts Analytics.
From S2P Require Import SchedulerFacts MultiSession.
Open Scope list_scope.
Open Scope Z_scope.

Lemma expect_Ok msg k d v u : expect msg k d v = Ok u <-> exists x, key k d = Ok x /\ norm x = norm v.
Proof.
  unfold expect. split.
  - intros E. unbind E x Ex. exists x. apply raise_unless_Ok in E. by apply same_spec in E.
  - intros (x & -> & Hs). cbn. apply raise_unless_Ok. by apply same_spec.
Qed.
Lemma open_envelope_Ok e o : open_envelope e = Ok o -> key "value" e = Ok o.
Proof. unfold open_envelope. intros E. unbind E x Ex. unbind E u Eu. by apply Ok_inj in E as ->. Qed.

Section chain.
Context `{Dump Definition_} `{Dump Bar} `{Dump Row} `{Dump Risk} `{Dump Dataset_} `{Dump Phase14.Policy} `{Dump Request}.
Context `{DumpJson ResearchWindow} `{DumpJson IntradayCostSchedule} `{DumpJson Settings} `{DumpJson Authorization}.
Context `{DumpJson Policy} `{DumpJson Control} `{DumpPython Policy}.
Context `{DumpJson Calendar} `{DumpJson Configuration} `{DumpJson Command} `{DumpJson Day} `{DumpJson Limits}.
Context `{ReadJson Day} `{ReadJson Policy} `{ReadJson Control} `{ReadJson Calendar} `{ReadJson Limits}.
Context (definition_json : Definition_ -> json) (uncertain : Metrics -> bool) (software_hash universe_hash : string).
Context (universe : list string) (inventory software scheduler_software : json).
Notation execute_ := (execute definition_json uncertain software_hash universe_hash universe inventory).
Notation replay_session_ := (replay_session definition_json uncertain software_hash universe_hash universe inventory scheduler_software).
Notation validate_ := (validate definition_json uncertain software_hash universe_hash universe inventory software scheduler_software).

(** The start of a session: the capital, or what the session before it left. *)
Definition opens (policy : Policy) (last : option json) (start : json) : Prop :=
  match last with
  | None => exists c, rk_capital (pp_base policy) = Some c /\
      (exists x, number_at "cash" start = Ok x /\ (dval x == dval c)%Q) /\
      (exists x, number_at "equity" start = Ok x /\ (dval x == dval c)%Q) /\
      (exists x, number_at "cumulative_net" start = Ok x /\ (dval x == 0)%Q) /\
      (exists x, number_at "cumulative_fees" start = Ok x /\ (dval x == 0)%Q)
  | Some state => norm state = norm start /\ exists v, key "halted" state = Ok v /\ truthy v = false
  end.
Lemma check_opening_Ok policy last start u : check_opening policy last start = Ok u -> opens policy last start.
Proof.
  unfold check_opening, opens. destruct last as [state|].
  - intros E. unbind E u1 E1. unbind E v Ev. apply raise_unless_Ok in E1, E. split; [by apply same_spec|].
    exists v. split; [done|]. by apply negb_true in E.
  - intros E. unbind E u1 E1. unbind E u2 E2. unbind E u3 E3.
    assert (Heq : forall k (c : option dec) w, (x ← number_at k start;
        raise_unless (match c with Some c => deqb x c | None => false end) "OPENING_STATE") = Ok w ->
        exists x c', c = Some c' /\ number_at k start = Ok x /\ (dval x == dval c')%Q).
    { intros k c w Ew. unbind Ew x Ex. apply raise_unless_Ok in Ew. destruct c as [c|]; [|done]. apply deqb_spec in Ew. eauto. }
    apply Heq in E1 as (x1 & c & Hc & F1 & G1). apply Heq in E2 as (x2 & c2 & Hc2 & F2 & G2).
    apply (Heq _ (Some d0)) in E3 as (x3 & c3 & Hc3 & F3 & G3). apply (Heq _ (Some d0)) in E as (x4 & c4 & Hc4 & F4 & G4).
    assert (c2 = c) as -> by congruence. apply Some_inj in Hc3, Hc4. subst c3 c4.
    rewrite (dval_zero d0) in G3, G4 by reflexivity. exists c. split; [done|]. split; [by exists x1|]. split; [by exists x2|].
    split; [by exists x3|by exists x4].
Qed.

(** One session of the package: the day, the binding, and the outcome that executing the
    day from the given start gives. *)
Record replayed_session (n : Inputs) (run_id : json) (i : nat) (previous : string) (last : option json) (o end_ : json)
    (tip : string) : Prop := {
  rs_opens : exists start, key "start" o = Ok start /\ opens (ni_policy n) last start;
  rs_executed : exists day start binding again, ni_days n !! i = Some day /\ key "start" o = Ok start /\
    key "binding" o = Ok binding /\
    execute_ day (ni_policy n) (ni_control n) (ni_calendar n) (ni_limits n) start binding = Ok again /\ norm again = norm o /\
    check_binding n run_id previous i day start binding = Ok tt;
  rs_record : exists out rec record, key "value" out = Ok o /\ key "value" rec = Ok record /\ tip = sha (canonical rec) /\
    (exists v, key "outcome_hash" record = Ok v /\ norm v = JStr (sha (canonical out))) /\
    (exists v, key "previous" record = Ok v /\ norm v = JStr previous);
  rs_end : key "end" o = Ok end_
}.
Inductive replayed (n : Inputs) (run_id : json) : list json -> option json -> string -> Prop :=
| replayed_none : replayed n run_id [] None ZERO
| replayed_next l last previous o end_ tip : replayed n run_id l last previous ->
    replayed_session n run_id (length l) previous last o end_ tip -> replayed n run_id (l ++ [o]) (Some end_) tip.

Lemma replay_session_Ok n run_id s i out rec s' : replay_session_ n run_id s (i, (out, rec)) = Ok s' ->
  i = length (rp_result s) -> replayed n run_id (rp_result s) (rp_last s) (rp_previous s) ->
  replayed n run_id (rp_result s') (rp_last s') (rp_previous s') /\ length (rp_result s') = S i.
Proof.
  unfold replay_session. intros E -> Hr. unbind E o Eo. unbind E record Er. unbind E bound Eb. unbind E u1 E1. unbind E u2 E2.
  unbind E u3 E3. unbind E u4 E4. unbind E begun Es. unbind E day Ed. unbind E u5 E5. unbind E u6 E6. unbind E shown E7.
  unbind E led E8. unbind E entries E9. unbind E u7 E10. unbind E again E11. unbind E u8 E12. unbind E ready E13.
  unbind E soft E14. unbind E u9 E15. unbind E end_ E16. apply Ok_inj in E. subst s'. cbn [rp_result rp_last rp_previous].
  split; [|by rewrite length_app, Nat.add_comm]. apply of_option_Ok in Ed. apply raise_unless_Ok, same_spec in E12.
  apply open_envelope_Ok in Eo, Er. apply expect_Ok in E2, E3. destruct u5. econstructor; [exact Hr|]. split.
  - exists begun. split; [exact Es|]. by eapply check_opening_Ok.
  - by exists day, begun, bound, again.
  - exists out, rec, record. done.
  - exact E16.
Qed.
Lemma replay_loop_Ok n run_id l s : foldR (replay_session_ n run_id) (mkReplay ZERO None [] 0) (zip (seq 0 (length l)) l) = Ok s ->
  replayed n run_id (rp_result s) (rp_last s) (rp_previous s) /\ length (rp_result s) = length l.
Proof.
  intros E. cut (replayed n run_id (rp_result s) (rp_last s) (rp_previous s) /\
    length (rp_result s) = length (zip (seq 0 (length l)) l)).
  { by rewrite length_zip_with, length_seq, Nat.min_id. }
  apply (foldR_prefix_inv (fun pre s => replayed n run_id (rp_result s) (rp_last s) (rp_previous s) /\
    length (rp_result s) = length pre) (replay_session_ n run_id) (mkReplay ZERO None [] 0)); [|split; [constructor|done]|exact E].
  intros pre [i [out rec]] post s1 s2 Hl [Hr Hn] Es.
  assert (Hi : i = length pre).
  { assert (Hx : zip (seq 0 (length l)) l !! length pre = Some (i, (out, rec))) by (rewrite Hl; by apply list_lookup_middle).
    apply lookup_zip_with_Some in Hx as (j & y & Hy & Hj & _). apply lookup_seq in Hj as [-> _]. by injection Hy as ->. }
  subst i. destruct (replay_session_Ok _ _ _ _ _ _ _ Es (eq_sym Hn) Hr) as [H1' H2'].
  split; [exact H1'|]. rewrite length_app. cbn. lia.
Qed.
End chain.

(** ** What a run publishes

    The outcome of a session as a dictionary, and the sessions of an uninterrupted run in
    order ([ran]): each outcome is the execution of its day, each record and each entry of
    the report is built from it. *)

Lemma find_map_to_list (m : gmap string json) k : find (map_to_list m) k = m !! k.
Proof.
  assert (Hf : forall l : list (string * json), NoDup l.*1 -> find l k = (list_to_map l : gmap string json) !! k).
  { induction l as [|[h v] l IH]; cbn [fmap list_fmap]; intros Hn; [done|]. apply NoDup_cons in Hn as [_ Hn].
    cbn [find list_to_map foldr uncurry]. destruct (decide (h = k)) as [->|Hne]; [by rewrite lookup_insert_eq|].
    rewrite lookup_insert_ne by done. by apply IH. }
  rewrite Hf by apply NoDup_fst_map_to_list. by rewrite list_to_map_to_list.
Qed.

Section outcome.
Context `{Dump Definition_} `{Dump Bar} `{Dump Row} `{Dump Risk} `{Dump Dataset_} `{Dump Phase14.Policy} `{Dump Request}.
Context `{DumpJson ResearchWindow} `{DumpJson IntradayCostSchedule} `{DumpJson Settings} `{DumpJson Authorization}.
Context `{DumpJson Policy} `{DumpJson Control} `{DumpPython Policy}.
Context `{DumpJson Calendar} `{DumpJson Configuration} `{DumpJson Command}.
Context (definition_json : Definition_ -> json) (uncertain : Metrics -> bool) (software_hash universe_hash : string).
Context (universe : list string) (inventory : json).
Notation execute_ := (execute definition_json uncertain software_hash universe_hash universe inventory).

Lemma engine_inventory requests policy control calendar config crash e :
  engine_init definition_json universe_hash universe inventory requests policy control calendar config crash = Ok e ->
  st_binding (en_setup e) !! "software"%string = Some inventory.
Proof.
  unfold engine_init. intros E. unbind E u1 E1. unbind E u2 E2. unbind E u3 E3. unbind E u4 E4. unbind E u5 E5.
  unbind E bound E6. apply Ok_inj in E. subst e. cbn [en_setup st_binding]. unfold session_binding in E6.
  unbind E6 r1 F1. unbind E6 r2 F2. apply Ok_inj in E6. subst bound. reflexivity.
Qed.
Lemma session_inventory day policy control calendar limits start binding e :
  session_engine definition_json universe_hash universe inventory day policy control calendar limits start binding = Ok e ->
  st_binding (en_setup e) !! "software"%string = Some inventory.
Proof.
  unfold session_engine. intros E. unbind E e0 E0. unbind E c1 E1. unbind E c2 E2. unbind E c3 E3. unbind E c4 E4.
  unbind E c5 E5. unbind E c6 E6. apply Ok_inj in E. subst e. cbn [en_setup st_binding].
  rewrite !lookup_insert_ne by done. by apply engine_inventory in E0.
Qed.

(** The reports of an outcome that the analytics read. *)
Record outcome_shape (start binding o : json) : Prop := {
  oc_binding : key "binding" o = Ok (norm binding);
  oc_start : key "start" o = Ok (norm start);
  oc_norm : norm o = o;
  oc_daily : exists f l, key "daily" o = Ok (JObj (f :: l));
  oc_complete : exists b, key "complete" o = Ok (JBool b);
  oc_reports : exists r entries ready bound, key "reports" o = Ok r /\ key "cash-ledger.json" r = Ok (JArr entries) /\
    key "readiness.json" r = Ok ready /\ key "binding" ready = Ok bound /\ key "software" bound = Ok (norm inventory)
}.
Lemma session_output_shape e l : session_output e = Ok l -> st_binding (en_setup e) !! "software"%string = Some inventory ->
  exists entries ready bound, find l "cash-ledger.json"%string = Some (JArr entries) /\
    find l "readiness.json"%string = Some ready /\ key "binding" ready = Ok bound /\ key "software" bound = Ok inventory.
Proof.
  unfold session_output, reports. intros E Hs. unbind E of_portfolio E1. unbind E a Ea. apply Ok_inj in E. subst l.
  unbind E1 t Et. destruct t as [[t1 t2] t3]. unbind E1 a' Ea'. apply Ok_inj in E1. subst of_portfolio.
  eexists _, _, _. split; [reflexivity|]. split; [reflexivity|]. split; [reflexivity|].
  apply key_obj. by rewrite find_map_to_list.
Qed.
Lemma execute_shape day policy control calendar limits start binding o :
  execute_ day policy control calendar limits start binding = Ok o -> outcome_shape start binding o.
Proof.
  unfold execute. intros E. unbind E e0 E0. pose proof (session_inventory _ _ _ _ _ _ _ _ E0) as Hi.
  apply session_engine_ok in E0 as (Hst & _ & _).
  destruct (session_commands uncertain software_hash universe day e0) as [e r] eqn:Es. unbind E u E1. subst r. destruct u.
  apply session_commands_ok in Es as [_ _ Hsetup]; [|by rewrite Hst].
  unbind E a Ea. unbind E end_ Ee. unbind E equity Eeq. unbind E x Ex. unbind E y Ey. unbind E u Eu. unbind E shown Er.
  apply Ok_inj in E. subst o. apply session_output_shape in Er as (entries & ready & bound & R1 & R2 & R3 & R4); [|by rewrite Hsetup].
  split; [apply dict_binding|apply dict_start|apply norm_norm| | |].
  - eexists _, _. rewrite dict_key. reflexivity.
  - eexists. by rewrite dict_key.
  - exists (norm (JObj shown)), (norm <$> entries), (norm ready), (norm bound). rewrite dict_key, !key_norm.
    rewrite (key_obj _ _ _ R1), (key_obj _ _ _ R2), R3, R4. done.
Qed.
End outcome.

(** ** The sessions of a run *)

Section run.
Context `{Dump Definition_} `{Dump Bar} `{Dump Row} `{Dump Risk} `{Dump Dataset_} `{Dump Phase14.Policy} `{Dump Request}.
Context `{DumpJson ResearchWindow} `{DumpJson IntradayCostSchedule} `{DumpJson Settings} `{DumpJson Authorization}.
Context `{DumpJson Policy} `{DumpJson Control} `{DumpPython Policy}.
Context `{DumpJson Calendar} `{DumpJson Configuration} `{DumpJson Command} `{DumpJson Day} `{DumpJson Limits}.
Context (definition_json : Definition_ -> json) (uncertain : Metrics -> bool) (software_hash universe_hash : string).
Context (universe : list string) (inventory : json).
Notation execute_ := (execute definition_json uncertain software_hash universe_hash universe inventory).
Notation session_step_ := (session_step definition_json uncertain software_hash universe_hash universe inventory).
Notation sessions_loop_ := (sessions_loop definition_json uncertain software_hash universe_hash universe inventory).

(** What one session leaves: its outcome, its record, its alerts. *)
Record Published := mkPublished { pb_outcome : json; pb_record : json; pb_alerts : list json }.
Definition record_row (c : Carry) (i : nat) (binding outcome : json) (alerts : list json) : json :=
  JObj [("sequence", JInt (Z.of_nat i)); ("previous", JStr (cy_previous c)); ("binding", binding);
        ("outcome_hash", JStr (sha (envelope outcome))); ("alerts", JArr alerts)]%string.
Definition accepted_row (date : string) (start outcome_end complete row : json) : json :=
  JObj [("date", JStr date); ("complete", complete); ("head", JStr (sha (envelope row)));
        ("starting_state", start); ("closing_state", outcome_end)]%string.
Inductive session_ran (p : Plan) (d : Directory) (c : Carry) : Published -> Carry -> Prop :=
| session_ran_intro session day out complete begun end_ alerts daily strategies symbols total halted :
    let i := length (cy_accepted c) in
    let binding := multi_binding p c i (session_day session) day in
    let row := record_row c i binding out alerts in
    ca_sessions (pl_calendar p) !! i = Some session ->
    day = day_of (pl_days p) (session_day session) ->
    key "halted" (cy_state c) = Ok halted -> truthy halted = false ->
    match day with None => missing (cy_state c) binding
    | Some day => execute_ day (pl_policy p) (pl_control p) (pl_calendar p) (pl_limits p) (cy_state c) binding
    end = Ok out ->
    session_alerts p session day binding (truthy complete) (envelope out) = Ok alerts ->
    dr_outcomes d !! i = Some (envelope out) -> dr_records d !! i = Some (envelope row) ->
    key "complete" out = Ok complete -> key "start" out = Ok begun -> key "end" out = Ok end_ ->
    daily_tables c (date_text (session_day session)) out = Ok (daily, strategies, symbols) ->
    session_ran p d c (mkPublished out row alerts)
      (mkCarry end_ (sha (envelope row))
         (cy_accepted c ++ [accepted_row (date_text (session_day session)) begun end_ complete row])
         (cy_notifications c ++ alerts) daily strategies symbols total).
Inductive ran (p : Plan) (d : Directory) : list Published -> Carry -> Prop :=
| ran_none : ran p d [] (start_carry (pl_policy p))
| ran_next l c x c' : ran p d l c -> session_ran p d c x c' -> ran p d (l ++ [x]) c'.

Lemma session_ran_sub p d d' c x c' : sub d d' -> session_ran p d c x c' -> session_ran p d' c x c'.
Proof.
  intros Hs. destruct 1. econstructor; try eassumption.
  - eapply (slot_sub (Slot := outcome_slot _)); eassumption.
  - eapply (slot_sub (Slot := record_slot _)); eassumption.
Qed.
Lemma ran_sub p d d' l c : sub d d' -> ran p d l c -> ran p d' l c.
Proof. intros Hs. induction 1; econstructor; [eassumption|]. by eapply session_ran_sub. Qed.
Lemma ran_length p d l c : ran p d l c -> length (cy_accepted c) = length l.
Proof.
  induction 1 as [|l c x c' _ IH Hx]; [done|]. destruct Hx. cbn [cy_accepted]. rewrite !length_app, IH. done.
Qed.

(** A session of a run that only writes. *)
Lemma step_ran p c session dir dir' c' : pl_prior p = 0%nat -> op_verify_only (pl_options p) = false ->
  op_crash (pl_options p) = None -> session_step_ p c (length (cy_accepted c)) session dir = (dir', Ok c') ->
  ca_sessions (pl_calendar p) !! length (cy_accepted c) = Some session ->
  (exists halted, key "halted" (cy_state c) = Ok halted /\ truthy halted = false) ->
  dr_outcomes dir !! length (cy_accepted c) = None ->
  exists x, session_ran p dir' c x c' /\
    (forall j, is_Some (dr_outcomes dir' !! j) -> is_Some (dr_outcomes dir !! j) \/ j = length (cy_accepted c)).
Proof.
  intros Hprior Hv Hcrash E Hse (halted & Hh & Ht) Hfree. unfold session_step in E.
  apply run_bind in E as ([out raw] & s1 & E1 & E). run_step E. clear G. unfold crash_if in E. run_step E. clear G.
  apply run_bind in E as (complete & s2 & E2 & E). apply run_lift in E2 as [-> E2].
  apply run_bind in E as (alerts & s2 & E3 & E). apply run_lift in E3 as [-> E3].
  apply run_bind in E as ([] & s2 & E4 & E). apply run_bind in E as ([] & s3 & E5 & E). apply run_lift in E5 as [-> _].
  apply run_bind in E as (end_ & s3 & E6 & E). apply run_lift in E6 as [-> E6].
  apply run_bind in E as (begun & s3 & E7 & E). apply run_lift in E7 as [-> E7].
  apply run_bind in E as ([[daily strategies] symbols] & s3 & E8 & E). apply run_lift in E8 as [-> E8].
  apply run_ret in E as [-> ->]. unfold session_outcome in E1. run_step E1. run_step E1. clear G. rewrite Hfree in E1.
  run_step E1. clear G. run_step E1. run_step E1. clear G0. apply run_bind in E1 as ([] & s4 & E5 & E1).
  apply run_ret in E1 as [-> E1]. apply pair_equal_spec in E1 as [-> ->]. apply publish_inv in E5 as [Ho [[Ho' _]|[_ Hd]]]; [congruence|].
  apply record_spec in E4 as (Hr & _ & Hsame & _). eexists. split.
  - eapply session_ran_intro; try eassumption; [reflexivity|].
    rewrite Hsame. exact Ho.
  - intros j Hj. rewrite Hsame, Hd in Hj. cbn [dr_outcomes with_outcome] in Hj.
    destruct (decide (j = length (cy_accepted c))) as [->|Hne]; [by right|left]. by rewrite lookup_insert_ne in Hj.
Qed.

Lemma loop_ran p n sessions : pl_prior p = 0%nat -> op_verify_only (pl_options p) = false -> op_crash (pl_options p) = None ->
  forall c dir dir' c' l, ca_sessions (pl_calendar p) = take n (ca_sessions (pl_calendar p)) ++ sessions ->
  n = length (cy_accepted c) -> (n <= length (ca_sessions (pl_calendar p)))%nat ->
  sessions_loop_ p c (zip (seq n (length sessions)) sessions) dir = (dir', Ok c') -> ran p dir l c ->
  (forall j, is_Some (dr_outcomes dir !! j) -> (j < n)%nat) ->
  exists l', ran p dir' l' c' /\
    (length l' = length (ca_sessions (pl_calendar p)) \/ exists v, key "halted" (cy_state c') = Ok v /\ truthy v = true).
Proof.
  intros Hprior Hv Hcrash. revert n. induction sessions as [|session sessions IH]; intros n c dir dir' c' l Hs Hn Hle E Hr Hfree;
    cbn [length seq zip_with sessions_loop] in E.
  - apply run_ret in E as [-> ->]. exists l. split; [exact Hr|]. left. rewrite <- (ran_length _ _ _ _ Hr), <- Hn.
    rewrite app_nil_r in Hs. apply (f_equal length) in Hs. rewrite length_take in Hs. lia.
  - apply run_bind in E as (halted & s1 & E1 & E). apply run_lift in E1 as [-> E1]. destruct (truthy halted) eqn:Ht.
    + apply run_ret in E as [-> ->]. exists l. split; [exact Hr|]. right. by exists halted.
    + apply run_bind in E as (c1 & s1 & E2 & E). subst n.
      assert (Hse : ca_sessions (pl_calendar p) !! length (cy_accepted c) = Some session).
      { rewrite Hs, lookup_app_r by (rewrite length_take; lia). rewrite length_take, Nat.min_l, Nat.sub_diag by done. done. }
      destruct (step_ran p c session dir s1 c1 Hprior Hv Hcrash E2 Hse) as (x & Hx & Hdom).
      { by exists halted. } { destruct (dr_outcomes dir !! _) eqn:Eo; [|done]. pose proof (Hfree _ (ex_intro _ _ Eo)). lia. }
      assert (Hg : sub dir s1) by (eapply grows_run; [intros; apply grows_step|exact E2]).
      assert (Hr1 : ran p s1 (l ++ [x]) c1) by (econstructor; [by eapply ran_sub|exact Hx]).
      pose proof (ran_length _ _ _ _ Hr1) as Hl1. rewrite length_app in Hl1. pose proof (ran_length _ _ _ _ Hr) as Hl.
      cbn [length] in Hl1. apply lookup_lt_Some in Hse as Hlt.
      apply (IH (S (length (cy_accepted c))) c1 s1 dir' c' (l ++ [x])); try done; [|lia|].
      * rewrite (take_S_r _ _ _ Hse), <- app_assoc. exact Hs.
      * intros j Hj. destruct (Hdom j Hj) as [Hj'| ->]; [|lia]. pose proof (Hfree j Hj'). lia.
Qed.
End run.
