(* ===== verification/ValidationFacts.v ===== *)
(** * Validating what a run published

    The files of an uninterrupted run, read back, pass every check of
    [Analytics.validate]; so does the summary of the package that a caller makes of its
    report, its views and its files. *)
From S2P Require Import Prelude Decimal DecimalFacts Text Dataset Costs Phase14 Strategies Execution Json JsonFacts JsonRead CanonicalPolicy Research Exec Qualification Chain PyText Paper.
From S2P Require Import Portfolio PortfolioRun Scheduler SchedulerFacts Multi MultiFacts MultiRunFacts MultiSession Analytics AnalyticsFacts MultiRecovery.
From Stdlib Require Import Ascii.
Open Scope list_scope.
Open Scope Z_scope.

(** A bind that is taken by rewriting: the kernel then has no digest to compare. *)
Lemma ok_bind {A B} (a : A) (f : A -> res B) : Ok a ≫= f = f a.
Proof. done. Qed.
Lemma unless_bind {B} msg (f : unit -> res B) : raise_unless true msg ≫= f = f tt.
Proof. done. Qed.
Ltac bound := repeat (first [rewrite ok_bind | rewrite unless_bind]; cbv beta).

(** ** Amounts *)

Lemma digit_finite c l : is_digit c = true ->
  nonfinite_text (String.string_of_list_ascii (c :: l)) = false /\
  nonfinite_text (String.string_of_list_ascii ("-"%char :: c :: l)) = false.
Proof.
  unfold nonfinite_text, text. rewrite !String.list_ascii_of_string_of_list_ascii.
  destruct c as [b0 b1 b2 b3 b4 b5 b6 b7]. destruct b0, b1, b2, b3, b4, b5, b6, b7; intros Hc; try discriminate Hc; by split.
Qed.
Lemma number_jdec d : number (jdec d) = Ok d.
Proof.
  unfold jdec, number. rewrite dec_of_str_str. unfold dec_str. destruct (dec_text_number d) as (ip & frac & e & -> & Hip & Hne & _).
  destruct ip as [|c ip]; [done|]. cbn [forallb] in Hip. apply andb_true in Hip as [Hc _]. unfold number_text.
  rewrite <- app_comm_cons. rewrite <- app_comm_cons.
  destruct (coef d <? 0); cbn [app]; destruct (digit_finite c ((ip ++ match frac with Some f => "."%char :: f | None => [] end) ++
    exponent_text e) Hc) as [F1 F2]; [by rewrite F2|by rewrite F1].
Qed.

(** ** Files read back *)

(** [json.loads] of an envelope. *)
Definition read_file (v : json) : json := norm (JObj [("fingerprint", JStr (sha (canonical v))); ("value", v)])%string.
Lemma loads_envelope v : json_loads (envelope v) = Ok (read_file v).
Proof. unfold envelope. apply loads_canonical. Qed.
Lemma read_file_sha v : sha (canonical (read_file v)) = sha (envelope v).
Proof. unfold read_file, envelope. f_equal. apply canonical_inj, norm_norm. Qed.
Lemma read_file_value v : key "value" (read_file v) = Ok (norm v).
Proof. unfold read_file. by rewrite key_norm. Qed.
Lemma open_read v : open_envelope (read_file v) = Ok (norm v).
Proof.
  unfold open_envelope. rewrite read_file_value. cbn [mbind res_bind].
  assert (He : expect "ENVELOPE_HASH" "fingerprint" (read_file v) (JStr (sha (canonical (norm v)))) = Ok tt).
  { apply expect_Ok. exists (JStr (sha (canonical v))). split; [unfold read_file; by rewrite key_norm|].
    by rewrite (proj2 (canonical_inj (norm v) v) (norm_norm v)). }
  by rewrite He.
Qed.
Lemma expect_key msg k d v : key k d = Ok v -> expect msg k d v = Ok tt.
Proof. intros Hk. apply expect_Ok. by exists v. Qed.
Lemma expect_norm msg k d v : key k d = Ok v -> expect msg k (norm d) v = Ok tt.
Proof. intros Hk. apply expect_Ok. rewrite key_norm, Hk. exists (norm v). split; [done|apply norm_norm]. Qed.

Section validation.
Context `{Dump Definition_} `{Dump Bar} `{Dump Row} `{Dump Risk} `{Dump Dataset_} `{Dump Phase14.Policy} `{Dump Request}.
Context `{DumpJson ResearchWindow} `{DumpJson IntradayCostSchedule} `{DumpJson Settings} `{DumpJson Authorization}.
Context `{DumpJson Policy} `{DumpJson Control} `{DumpPython Policy}.
Context `{DumpJson Calendar} `{DumpJson Configuration} `{DumpJson Command} `{DumpJson Day} `{DumpJson Limits}.
Context (definition_json : Definition_ -> json) (uncertain : Metrics -> bool) (software_hash universe_hash : string).
Context (universe : list string) (inventory : json).
Notation replay_session_ := (replay_session definition_json uncertain software_hash universe_hash universe inventory inventory).
Notation session_ran_ := (session_ran definition_json uncertain software_hash universe_hash universe inventory).
Notation ran_ := (ran definition_json uncertain software_hash universe_hash universe inventory).

Definition inputs_of (p : Plan) : Inputs := mkInputs (pl_days p) (pl_policy p) (pl_control p) (pl_calendar p) (pl_limits p).
(** The days are those of the first sessions of the calendar. *)
Record covers (p : Plan) : Prop := {
  cv_dates : (cf_trading_date ∘ dy_config) <$> pl_days p = take (length (pl_days p)) (session_day <$> ca_sessions (pl_calendar p));
  cv_distinct : NoDup ((cf_trading_date ∘ dy_config) <$> pl_days p)
}.
Lemma find_day days i (d : Day) date : NoDup ((cf_trading_date ∘ dy_config) <$> days) -> days !! i = Some d ->
  cf_trading_date (dy_config d) = date -> day_of days date = Some d.
Proof.
  unfold day_of. revert i. induction days as [|x days IH]; intros i Hn Hi Hd; [done|]. rewrite fmap_cons in Hn.
  apply NoDup_cons in Hn as [Hx Hn]. cbn [List.find]. destruct i as [|i]; cbn in Hi.
  - injection Hi as ->. by rewrite bool_decide_true.
  - rewrite bool_decide_false; [by eapply IH|]. intros E. apply Hx. apply list_elem_of_fmap. exists d.
    split; [cbn; congruence|]. by eapply list_elem_of_lookup_2.
Qed.
Lemma covered_day p i session : covers p -> ca_sessions (pl_calendar p) !! i = Some session -> (i < length (pl_days p))%nat ->
  exists d, pl_days p !! i = Some d /\ day_of (pl_days p) (session_day session) = Some d /\
    cf_trading_date (dy_config d) = session_day session.
Proof.
  intros [C1 C2] Hs Hi. apply lookup_lt_is_Some in Hi as Hd. destruct Hd as [d Hd]. exists d. split; [exact Hd|].
  assert (E : ((cf_trading_date ∘ dy_config) <$> pl_days p) !! i = Some (session_day session)).
  { rewrite C1, lookup_take_lt by done. by rewrite list_lookup_fmap, Hs. }
  rewrite list_lookup_fmap, Hd in E. injection E as E. split; [|exact E]. by eapply find_day.
Qed.

(** The variables of [validate] after the sessions [l] of a run. *)
Definition replay_of (l : list Published) (c : Carry) : Replay :=
  mkReplay (cy_previous c) (if is_nil l then None else Some (cy_state c)) (pb_outcome <$> l)
    (foldr Z.add 0 ((ledger_length ∘ pb_outcome) <$> l)).

Lemma carry_norm p d l c : ran_ p d l c -> norm (cy_state c) = cy_state c.
Proof.
  destruct 1 as [|l c x c' Hr Hx]; [apply norm_norm|]. destruct Hx. cbn [cy_state].
  assert (exists rest, out = dict (("binding", binding) :: ("start", cy_state c) :: rest)%string) as [rest ->].
  { destruct day; [by eapply execute_dict|by apply missing_dict]. }
  match goal with Hk : key "end" _ = Ok end_ |- _ => unfold dict in Hk; rewrite key_norm in Hk; destruct (key "end" _); [|discriminate Hk]; injection Hk as <- end.
  apply norm_norm.
Qed.
Lemma binding_norm p c i date d : norm (multi_binding p c i date d) = multi_binding p c i date d.
Proof. apply norm_norm. Qed.

Lemma binding_checked p c i session d start : norm start = norm (cy_state c) -> cf_trading_date (dy_config d) = session_day session ->
  check_binding (inputs_of p) (JStr (pl_run_id p)) (cy_previous c) i d start
    (multi_binding p c i (session_day session) (Some d)) = Ok tt.
Proof.
  intros Hs Hd. unfold check_binding, multi_binding. rewrite Hd, (proj2 (canonical_inj _ _) Hs).
  repeat (rewrite (expect_key "SESSION_BINDING") by (rewrite dict_key; reflexivity); cbn [mbind res_bind]). reflexivity.
Qed.

Lemma opening_checked p d l c start capital : ran_ p d l c -> norm start = norm (cy_state c) ->
  (exists v, key "halted" (cy_state c) = Ok v /\ truthy v = false) ->
  rk_capital (pp_base (pl_policy p)) = Some capital ->
  check_opening (pl_policy p) (if is_nil l then None else Some (cy_state c)) start = Ok tt.
Proof.
  intros Hr Hs (v & Hv & Ht) Hc. destruct (is_nil l) eqn:Hl; unfold check_opening.
  - destruct l; [|done]. inversion Hr as [Hz|l' ? ? ? ? ? Hz]; [|by destruct l']. subst c. cbn [cy_state start_carry] in Hs.
    assert (Hk : forall k x c0, key k (initial_state (pl_policy p)) = Ok (jdec x) -> deqb x c0 = true ->
      (y ← number_at k start; raise_unless (deqb y c0) "OPENING_STATE") = Ok tt).
    { intros k x c0 Hkx Hd. unfold number_at.
      assert (Hks : norm <$> key k start = Ok (jdec x)) by (rewrite <- key_norm, Hs; rewrite key_norm, Hkx; done).
      destruct (key k start) as [w|]; [|discriminate Hks]. injection Hks as Hks. destruct w; try discriminate Hks.
      injection Hks as ->. fold (jdec x). cbn [mbind res_bind]. rewrite number_jdec. cbn [mbind res_bind]. by rewrite Hd. }
    unfold initial_state in Hk. rewrite Hc in *.
    rewrite (Hk "cash"%string (if coef capital =? 0 then d0 else capital)), (Hk "equity"%string (if coef capital =? 0 then d0 else capital)),
      (Hk "cumulative_net"%string d0), (Hk "cumulative_fees"%string d0); try (rewrite dict_key; reflexivity); try reflexivity;
      destruct (Z.eqb_spec (coef capital) 0) as [E|E]; apply deqb_spec; rewrite ?(dval_zero capital) by done; reflexivity.
  - rewrite (proj2 (same_spec _ _) (eq_sym Hs)), Hv. cbn. by rewrite Ht.
Qed.

Lemma row_keys c i binding outcome alerts : let row := record_row c i binding outcome alerts in
  key "sequence" row = Ok (JInt (Z.of_nat i)) /\ key "previous" row = Ok (JStr (cy_previous c)) /\
  key "outcome_hash" row = Ok (JStr (sha (envelope outcome))) /\ key "binding" row = Ok binding /\
  key "alerts" row = Ok (JArr alerts).
Proof. done. Qed.
(** One session of the run passes the checks of its step. *)
Lemma session_replays p d l c x c' capital : ran_ p d l c -> session_ran_ p d c x c' -> covers p ->
  (length l < length (pl_days p))%nat -> rk_capital (pp_base (pl_policy p)) = Some capital ->
  foldr Z.add 0 ((ledger_length ∘ pb_outcome) <$> (l ++ [x])) <= 250000 ->
  replay_session_ (inputs_of p) (JStr (pl_run_id p)) (replay_of l c)
    (length l, (read_file (pb_outcome x), read_file (pb_record x))) = Ok (replay_of (l ++ [x]) c').
Proof.
  intros Hr Hx Hcov Hlt Hcap Hsize. pose proof (ran_length _ _ _ _ _ _ _ _ _ _ Hr) as Hlen.
  destruct Hx as [session day out complete begun end_ alerts daily strategies symbols total halted i binding out_row
    Hse Hday Hh Ht Hex Hal Ho Hrec Hcomp Hbeg Hend Htab].
  assert (Hi : i = length l) by exact Hlen. destruct (covered_day p i session Hcov Hse ltac:(lia)) as (dd & Hdd & Hof & Hdate).
  rewrite Hof in Hday. subst day. cbn [pb_outcome pb_record] in *.
  pose proof (execute_shape _ _ _ _ _ _ _ _ _ _ _ _ _ _ Hex) as [S1 S2 S3 _ _ (rep & entries & ready & bound & R1 & R2 & R3 & R4 & R5)].
  assert (Hstart : norm (cy_state c) = cy_state c) by (by eapply carry_norm).
  unfold replay_session. rewrite !open_read, S3. bound. rewrite S1. bound.
  unfold binding in *. rewrite (binding_norm p c i (session_day session) (Some dd)) in *.
  set (b := multi_binding p c i (session_day session) (Some dd)) in *.
  destruct (row_keys c i b out alerts) as (K1 & K2 & K3 & K4 & _). fold out_row in K1, K2, K3, K4. clearbody out_row.
  rewrite !read_file_sha. change (rp_previous (replay_of l c)) with (cy_previous c). rewrite <- Hi.
  rewrite (expect_norm _ _ _ _ K1), (expect_norm _ _ _ _ K2), (expect_norm _ _ _ _ K3), (expect_norm _ _ _ _ K4).
  bound.
  assert (S2' : key "start" out = Ok (cy_state c)) by (rewrite S2; by rewrite Hstart).
  assert (Hdd' : of_option IndexError (ni_days (inputs_of p) !! i) = Ok dd) by (apply of_option_Ok; exact Hdd).
  rewrite S2'. bound. rewrite Hdd'. bound.
  unfold b. rewrite binding_checked by done. bound.
  change (rp_last (replay_of l c)) with (if is_nil l then None else Some (cy_state c)).
  change (ni_policy _) with (pl_policy p).
  erewrite opening_checked; [|exact Hr|done|by exists halted|exact Hcap]. bound.
  rewrite R1. bound. rewrite R2. bound. cbn [elements_of]. bound.
  assert (Hled : ledger_length out = Z.of_nat (length entries)) by (unfold ledger_length; rewrite R1; cbn; rewrite R2; done).
  assert (Hsum : foldr Z.add 0 ((ledger_length ∘ pb_outcome) <$> (l ++ [mkPublished out out_row alerts])) =
    rp_snapshots (replay_of l c) + Z.of_nat (length entries)).
  { cbn [rp_snapshots replay_of]. rewrite fmap_app, foldr_app. cbn [fmap list_fmap foldr compose pb_outcome]. rewrite Hled.
    clear. generalize (Z.of_nat (length entries)). intros n. induction l as [|y l IH]; cbn; lia. }
  rewrite Hsum in Hsize. rewrite (proj2 (Z.leb_le _ _) Hsize). bound.
  cbn [ni_control ni_calendar ni_limits inputs_of]. fold b. rewrite Hex. bound. rewrite same_refl.
  bound. rewrite R3. bound. rewrite R4. bound.
  assert (Hsoft : expect "SOFTWARE_BINDING" "software" bound inventory = Ok tt).
  { apply expect_Ok. eexists. split; [exact R5|apply norm_norm]. }
  rewrite Hsoft. bound. rewrite Hend. bound. unfold replay_of.
  unfold replay_of in Hsum. cbn [rp_snapshots] in *. rewrite Hsum, fmap_app. by destruct l.
Qed.

(** All of them. *)
Lemma run_replays p d l c capital : ran_ p d l c -> covers p -> (length l <= length (pl_days p))%nat ->
  rk_capital (pp_base (pl_policy p)) = Some capital -> foldr Z.add 0 ((ledger_length ∘ pb_outcome) <$> l) <= 250000 ->
  foldR (replay_session_ (inputs_of p) (JStr (pl_run_id p))) (mkReplay ZERO None [] 0)
    (zip (seq 0 (length l)) ((fun x => (read_file (pb_outcome x), read_file (pb_record x))) <$> l)) = Ok (replay_of l c).
Proof.
  induction 1 as [|l c x c' Hr IH Hx]; intros Hcov Hlt Hcap Hsize; [done|]. rewrite length_app in Hlt. cbn [length] in Hlt.
  assert (Hl : 0 <= ledger_length (pb_outcome x)).
  { unfold ledger_length. destruct (_ ≫= _); lia. }
  assert (Hsum : foldr Z.add 0 ((ledger_length ∘ pb_outcome) <$> l) <= 250000).
  { rewrite fmap_app, foldr_app in Hsize. cbn [fmap list_fmap foldr compose] in Hsize. revert Hsize Hl. clear.
    generalize (ledger_length (pb_outcome x)). intros n Hs Hn. eapply Z.le_trans; [|exact Hs]. clear Hs.
    induction l as [|y l IH]; cbn; [lia|]. lia. }
  rewrite length_app, seq_app, fmap_app. cbn [length seq fmap list_fmap].
  rewrite zip_with_app by (by rewrite length_fmap, length_seq). rewrite foldR_app, IH by (done || lia). cbn [mbind res_bind zip_with foldR].
  erewrite session_replays; [reflexivity|exact Hr|exact Hx|exact Hcov|lia|exact Hcap|exact Hsize].
Qed.

(** ** The summary *)

(** The lists of the report are those that the outcomes and records give. *)
Record summarized (l : list Published) (c : Carry) : Prop := {
  sz_sessions : exists rows, mapR session_summary ((fun x => (pb_outcome x, read_file (pb_record x))) <$> l) = Ok rows /\
    norm <$> rows = norm <$> cy_accepted c;
  sz_daily : mapR daily_row (pb_outcome <$> l) = Ok (cy_daily c);
  sz_alerts : mapR record_alerts ((read_file ∘ pb_record) <$> l) = Ok ((fun x => norm <$> pb_alerts x) <$> l);
  sz_notifications : cy_notifications c = concat (pb_alerts <$> l)
}.
Lemma run_summarized p d l c : ran_ p d l c -> covers p -> (length l <= length (pl_days p))%nat -> summarized l c.
Proof.
  induction 1 as [|l c x c' Hr IH Hx]; intros Hcov Hlt; [by split; [exists []| | |]|]. rewrite length_app in Hlt. cbn [length] in Hlt.
  destruct (IH Hcov ltac:(lia)) as [(rows & Z1 & Z1') Z2 Z3 Z4]. pose proof (ran_length _ _ _ _ _ _ _ _ _ _ Hr) as Hlen.
  destruct Hx as [session day out complete begun end_ alerts daily strategies symbols total halted i binding out_row
    Hse Hday Hh Ht Hex Hal Ho Hrec Hcomp Hbeg Hend Htab].
  assert (Hi : i = length l) by exact Hlen. destruct (covered_day p i session Hcov Hse ltac:(lia)) as (dd & Hdd & Hof & Hdate).
  rewrite Hof in Hday. subst day.
  pose proof (execute_shape _ _ _ _ _ _ _ _ _ _ _ _ _ _ Hex) as [S1 S2 S3 (f & rest & S4) _ _].
  assert (Hdate' : (b ← key "binding" out; key "date" b) = Ok (JStr (date_text (session_day session)))).
  { rewrite S1. cbn [mbind res_bind]. unfold binding. rewrite binding_norm. unfold multi_binding. by rewrite dict_key. }
  split; cbn [cy_accepted cy_daily cy_notifications]; rewrite !fmap_app; cbn [fmap list_fmap pb_outcome pb_record pb_alerts compose].
  - eexists. split.
    + apply mapR_snoc; [exact Z1|]. unfold session_summary. destruct (key "binding" out) as [b|]; [|discriminate S1].
      cbn [mbind res_bind] in Hdate' |- *. rewrite Hdate', Hcomp, Hbeg, Hend. cbn [mbind res_bind]. rewrite read_file_sha. reflexivity.
    + rewrite !fmap_app, Z1'. f_equal.
  - unfold daily_tables in Htab. rewrite S4 in Htab. cbn [mbind res_bind truthy is_nil negb fields_of] in Htab.
    unbind Htab r1 G1. unbind Htab r2 G2. unbind Htab r3 G3. unbind Htab r4 G4. unbind Htab r5 G5. unbind Htab r6 G6. unbind Htab r7 G7.
    apply Ok_inj in Htab. injection Htab as <- _ _. apply mapR_snoc; [exact Z2|]. unfold daily_row.
    destruct (key "binding" out) as [b|]; [|discriminate S1]. cbn [mbind res_bind] in Hdate' |- *.
    rewrite Hdate', S4. reflexivity.
  - apply mapR_snoc; [exact Z3|]. unfold record_alerts. rewrite read_file_value. cbn [mbind res_bind]. by rewrite key_norm.
  - by rewrite Z4, concat_app, concat_cons, app_nil_r.
Qed.
End validation.

(** ** The package of a run

    What a caller of [Analytics.validate] hands over after an uninterrupted run: its
    report, the views, and the outcome and record files read back.  The summary of such a
    package passes the checks of [Analytics]. *)

(** ** Lists of results *)

Lemma mapR_fmap {A B C} (f : B -> res C) (g : A -> B) l : mapR f (g <$> l) = mapR (f ∘ g) l.
Proof. induction l as [|x l IH]; [done|]. cbn. by rewrite IH. Qed.
Lemma mapR_ok {A B} (f : A -> res B) (g : A -> B) l : (forall x, x ∈ l -> f x = Ok (g x)) -> mapR f l = Ok (g <$> l).
Proof.
  induction l as [|x l IH]; intros Hf; [done|]. cbn. rewrite (Hf x) by set_solver. cbn. rewrite IH by set_solver. done.
Qed.
Lemma Forall2_mapR {A B} (f : A -> res B) l l' : Forall2 (fun x y => f x = Ok y) l l' -> mapR f l = Ok l'.
Proof. induction 1 as [|x y l l' Hx _ IH]; [done|]. cbn. by rewrite Hx, IH. Qed.

(** ** The package *)

Section package.
Context `{DumpJson Limits}.
Definition package (inputs summary : json) (limits : Limits) (d : Directory) : res json :=
  outcomes ← numbered (dr_outcomes d) "OUTCOMES";
  outcomes ← mapR json_loads outcomes;
  records ← numbered (dr_records d) "RECORDS";
  records ← mapR json_loads records;
  views ← report_views summary limits;
  Ok (JObj [("summary", summary); ("input", inputs); ("input_hash", JStr (sha (canonical inputs)));
            ("outcomes", JArr outcomes); ("records", JArr records); ("reports", JObj views)]%string).

(** The views do not depend on the field [reports]. *)
Lemma views_store l v : report_views (JObj (store l "reports"%string v)) = report_views (JObj l).
Proof.
  assert (Hk : forall k, k <> "reports"%string -> key k (JObj (store l "reports"%string v)) = key k (JObj l)).
  { intros k Hne. cbn [key]. by rewrite find_store_ne. }
  unfold report_views. by rewrite !Hk by discriminate.
Qed.
End package.

(** ** Alerts *)

(** An alert carries the digest of its other fields. *)
Definition well_sealed (a : json) : Prop := check_alert a = Ok tt.
Lemma alert_sealed run_id day at_ code evidence severity a : alert run_id day at_ code evidence severity = Ok a -> well_sealed (norm a).
Proof.
  unfold alert. intros E. unbind E u Eu. apply Ok_inj in E. subst a.
  match goal with |- context [sha (canonical (JObj ?r))] => set (fields := r); remember (sha (canonical (JObj fields))) as tip eqn:Ht end.
  unfold well_sealed, check_alert.
  assert (Hn : exists l, norm (JObj (("alert_id"%string, JStr tip) :: fields)) = JObj l /\
    norm (JObj (without "alert_id" l)) = norm (JObj fields)) by (eexists; split; reflexivity).
  destruct Hn as (l & Hl & Hw). rewrite Hl. cbn [fields_of]. rewrite ok_bind.
  apply expect_Ok. exists (JStr tip). split; [by rewrite <- Hl, key_norm|]. rewrite (proj2 (canonical_inj _ _) Hw). by subst tip.
Qed.

Section publication.
Context `{Dump Definition_} `{Dump Bar} `{Dump Row} `{Dump Risk} `{Dump Dataset_} `{Dump Phase14.Policy} `{Dump Request}.
Context `{DumpJson ResearchWindow} `{DumpJson IntradayCostSchedule} `{DumpJson Settings} `{DumpJson Authorization}.
Context `{DumpJson Policy} `{DumpJson Control} `{DumpPython Policy}.
Context `{DumpJson Calendar} `{DumpJson Configuration} `{DumpJson Command} `{DumpJson Day} `{DumpJson Limits}.
Context `{ReadJson Day} `{ReadJson Policy} `{ReadJson Control} `{ReadJson Calendar} `{ReadJson Limits}.
Context (definition_json : Definition_ -> json) (uncertain : Metrics -> bool) (software_hash universe_hash : string).
Context (universe : list string) (inventory software : json).
Notation ran_ := (ran definition_json uncertain software_hash universe_hash universe inventory).
Notation session_ran_ := (session_ran definition_json uncertain software_hash universe_hash universe inventory).
Notation run_sessions_ := (run_sessions definition_json uncertain software_hash universe_hash universe inventory).
Notation validate_ := (validate definition_json uncertain software_hash universe_hash universe inventory software inventory).

(** ** What every session of a run has *)

Lemma session_sealed p d c x c' : session_ran_ p d c x c' -> Forall (well_sealed ∘ norm) (pb_alerts x).
Proof.
  destruct 1 as [session day out complete begun end_ alerts daily strategies symbols total halted i binding row
    _ _ _ _ _ Hal _ _ _ _ _ _]. cbn [pb_alerts]. unfold session_alerts in Hal. unbind Hal started Es. unbind Hal ended Ee.
  apply Ok_inj in Hal. subst alerts. apply Forall_app. split.
  - destruct day as [day|]; [|by apply Ok_inj in Es as <-]. unbind Es cmd Ec. unbind Es a Ea. apply Ok_inj in Es. subst started.
    constructor; [|done]. by eapply alert_sealed.
  - constructor; [|done]. by eapply alert_sealed.
Qed.
Lemma run_sealed p d l c : ran_ p d l c -> Forall (well_sealed ∘ norm) (concat (pb_alerts <$> l)).
Proof.
  induction 1 as [|l c x c' _ IH Hx]; [constructor|]. rewrite fmap_app, concat_app. apply Forall_app. split; [exact IH|].
  cbn. rewrite app_nil_r. by eapply session_sealed.
Qed.

(** A session is complete when it does not halt the next one. *)
Lemma session_flag p d l c x c' : ran_ p d l c -> session_ran_ p d c x c' -> covers p -> (length l < length (pl_days p))%nat ->
  exists b, key "complete" (pb_outcome x) = Ok (JBool b) /\ key "halted" (cy_state c') = Ok (JBool (negb b)).
Proof.
  intros Hr Hx Hcov Hlt. pose proof (ran_length _ _ _ _ _ _ _ _ _ _ Hr) as Hlen.
  destruct Hx as [session day out complete begun end_ alerts daily strategies symbols total halted i binding row
    Hse Hday _ _ Hex _ _ _ _ _ Hend _]. destruct (covered_day p i session Hcov Hse ltac:(lia)) as (dd & _ & Hof & _).
  rewrite Hof in Hday. subst day. apply execute_carries in Hex as [_ _ (e & b & He & Hb & Hh & _)].
  cbn [pb_outcome cy_state]. exists b. assert (e = end_) as -> by congruence. done.
Qed.
Lemma run_flags p d l c : ran_ p d l c -> covers p -> (length l <= length (pl_days p))%nat ->
  exists flags halted, mapR (key "complete") (pb_outcome <$> l) = Ok flags /\
    key "halted" (cy_state c) = Ok (JBool halted) /\ forallb truthy flags = negb halted.
Proof.
  induction 1 as [|l c x c' Hr IH Hx]; intros Hcov Hlt.
  - exists [], false. split; [done|]. split; [|done]. cbn [start_carry cy_state]. unfold initial_state. by rewrite dict_key.
  - rewrite length_app in Hlt. cbn [length] in Hlt. destruct (IH Hcov ltac:(lia)) as (flags & h & F1 & F2 & F3).
    destruct (session_flag _ _ _ _ _ _ Hr Hx Hcov ltac:(lia)) as (b & B1 & B2).
    exists (flags ++ [JBool b]), (negb b). split; [rewrite fmap_app; by apply mapR_snoc|]. split; [exact B2|].
    assert (h = false) as ->.
    { destruct Hx as [session day out complete begun end_ alerts daily strategies symbols total halted i binding row
        _ _ Hh Ht _ _ _ _ _ _ _ _]. rewrite F2 in Hh. apply Ok_inj in Hh. by subst halted. }
    rewrite forallb_app, F3. cbn. by rewrite andb_true_r, negb_involutive.
Qed.

(** The files of the sessions of a run. *)
Lemma run_outcomes p d l c : ran_ p d l c -> forall i, (i < length l)%nat ->
  dr_outcomes d !! i = (envelope ∘ pb_outcome) <$> l !! i /\ dr_records d !! i = (envelope ∘ pb_record) <$> l !! i.
Proof.
  induction 1 as [|l c x c' Hr IH Hx]; intros i Hi; [cbn in Hi; lia|]. rewrite length_app in Hi. cbn [length] in Hi.
  destruct (decide (i < length l)%nat) as [Hl|Hl].
  - rewrite lookup_app_l by done. by apply IH.
  - assert (i = length l) as -> by lia. rewrite list_lookup_middle by done. pose proof (ran_length _ _ _ _ _ _ _ _ _ _ Hr) as Hn.
    rewrite <- Hn. destruct Hx. by split.
Qed.
Lemma files_of (files : gmap nat bytes) (l : list bytes) : (forall i, (i < length l)%nat -> files !! i = l !! i) ->
  (base.size files = length l \/ forall i, is_Some (files !! i) -> (i < length l)%nat) -> files = map_seq 0 l.
Proof.
  intros Hl Hd. symmetry. assert (Hs : map_seq 0 l ⊆ files).
  { apply map_subseteq_spec. intros i x Hx. rewrite lookup_map_seq_0 in Hx. rewrite Hl; [done|]. by eapply lookup_lt_Some. }
  destruct Hd as [Hn|Hd].
  - apply map_subseteq_size_eq; [exact Hs|]. by rewrite size_map_seq, Hn.
  - apply map_eq. intros i. rewrite lookup_map_seq_0. destruct (files !! i) as [x|] eqn:Ei.
    + rewrite <- Hl; [exact Ei|]. apply Hd. by rewrite Ei.
    + apply lookup_ge_None. destruct (decide (i < length l)%nat) as [Hi|]; [|lia]. rewrite Hl in Ei by done.
      apply lookup_ge_None in Ei. lia.
Qed.
Lemma loads_files (l : list json) : mapR json_loads (envelope <$> l) = Ok (read_file <$> l).
Proof. rewrite mapR_fmap. apply mapR_ok. intros v _. apply loads_envelope. Qed.

(** ** The report *)

Lemma finish_report p c d d' report : finish p c d = (d', Ok report) ->
  exists views, reported p c report /\ key "daily" report = Ok (JArr (cy_daily c)) /\
    key "scope" report = Ok (JStr "SYNTHETIC_FIXTURE") /\ key "run_id" report = Ok (JStr (pl_run_id p)) /\
    report_views report (pl_limits p) = Ok views /\
    key "reports" report = Ok (JObj ((fun x => (x.1, JStr (sha (canonical x.2)))) <$> views)).
Proof.
  intros E. pose proof (finish_spec _ _ _ _ _ E) as (Hrep & _). unfold finish in E.
  run_step E. clear G. run_step E. run_step E. run_step E. run_step E. run_step E.
  apply run_bind in E as ([] & s1 & E1 & E). apply run_bind in E as ([] & s2 & E2 & E). apply run_ret in E as [-> ->].
  unfold multi_report in *.
  match goal with Hm : (_ ← key "halted" (cy_state c); _) = Ok ?r |- _ => unbind Hm halted M1; unbind Hm winning M2; unbind Hm losing M3;
    apply Ok_inj in Hm; subst r end.
  match goal with Hu : updated _ _ _ = Ok ?r, Hv : report_views _ _ = Ok ?v |- _ => exists v; apply Ok_inj in Hu; subst r; split; [exact Hrep|];
    rewrite views_store; split; [reflexivity|]; split; [reflexivity|]; split; [reflexivity|]; split; [exact Hv|] end.
  cbn [key]. by rewrite find_store_eq.
Qed.

(** Where a run stops. *)
Definition stopped (p : Plan) (l : list Published) (c : Carry) : Prop :=
  length l = length (ca_sessions (pl_calendar p)) \/ exists v, key "halted" (cy_state c) = Ok v /\ truthy v = true.
Lemma completion_checked p d l c report : ran_ p d l c -> covers p -> (length l <= length (pl_days p))%nat -> stopped p l c ->
  reported p c report ->
  exists b, (if Nat.eqb (length (pb_outcome <$> l)) (length (pl_days p)) then all_complete (pb_outcome <$> l) else Ok false) = Ok b /\
    key "complete" report = Ok (JBool b).
Proof.
  intros Hr Hcov Hle Hstop [_ _ _ _ (v & Hv & Hc)]. pose proof (ran_length _ _ _ _ _ _ _ _ _ _ Hr) as Hlen.
  destruct (run_flags _ _ _ _ Hr Hcov Hle) as (flags & halted & F1 & F2 & F3). assert (v = JBool halted) as -> by congruence.
  exists (negb halted && Nat.eqb (length (cy_accepted c)) (length (ca_sessions (pl_calendar p)))). split; [|exact Hc].
  unfold all_complete. rewrite F1, length_fmap, Hlen. cbn [mbind res_bind]. rewrite F3.
  destruct halted; cbn [negb andb]. { by case_match. }
  destruct Hstop as [Hstop|(w & Hw & Ht)]; [|assert (w = JBool false) as -> by congruence; done].
  destruct Hcov as [Hd _]. apply (f_equal length) in Hd. rewrite length_fmap, length_take, length_fmap in Hd.
  rewrite Hstop, Nat.eqb_refl. by rewrite (proj2 (Nat.eqb_eq _ _)) by lia.
Qed.
Lemma check_sessions rows l xs : mapR session_summary xs = Ok rows -> norm <$> rows = norm <$> l ->
  exists us, mapR check_session (zip l xs) = Ok us.
Proof.
  revert rows l. induction xs as [|x xs IH]; intros rows l E Hn; cbn in E.
  - apply Ok_inj in E. subst rows. destruct l; [|done]. by exists [].
  - unbind E row' Er. unbind E rows' Es. apply Ok_inj in E. subst rows. destruct l as [|y l]; [done|]. cbn in Hn.
    injection Hn as Hy Hl. destruct (IH _ _ Es Hl) as (us & Hu). exists (tt :: us).
    assert (Hc : check_session (y, x) = Ok tt).
    { unfold check_session. cbn [fst snd]. rewrite Er, ok_bind. by rewrite (proj2 (same_spec _ _) (eq_sym Hy)). }
    cbn [zip_with mapR]. by rewrite Hc, ok_bind, Hu.
Qed.
Lemma summary_checked p d l c report : ran_ p d l c -> covers p -> (length l <= length (pl_days p))%nat -> stopped p l c ->
  l <> [] -> reported p c report -> key "daily" report = Ok (JArr (cy_daily c)) ->
  check_summary (inputs_of p) report ((read_file ∘ pb_record) <$> l) (replay_of l c) = Ok tt.
Proof.
  intros Hr Hcov Hle Hstop Hne Hrep Hdaily. destruct (completion_checked _ _ _ _ _ Hr Hcov Hle Hstop Hrep) as (b & C1 & C2).
  destruct (run_summarized _ _ _ _ _ _ _ _ _ _ Hr Hcov Hle) as [(rows & Z1 & Z1') Z2 _ _].
  pose proof (ran_length _ _ _ _ _ _ _ _ _ _ Hr) as Hlen. destruct Hrep as [R1 R2 R3 _ _].
  assert (Hlast : rp_last (replay_of l c) = Some (cy_state c)) by by destruct l.
  unfold check_summary. rewrite Hlast. cbn [of_option]. bound. rewrite (expect_key _ _ _ _ R2). bound.
  cbn [rp_previous rp_result replay_of]. rewrite (expect_key _ _ _ _ R3). bound.
  change (ni_days (inputs_of p)) with (pl_days p). rewrite C1. bound. rewrite (expect_key _ _ _ _ C2). bound. rewrite R1. bound.
  cbn [elements_of]. bound. rewrite length_fmap, Hlen, Nat.eqb_refl. bound. rewrite Z2. bound. rewrite (expect_key _ _ _ _ Hdaily).
  bound. assert (Hz : (fun x => (pb_outcome x, read_file (pb_record x))) <$> l = zip (pb_outcome <$> l) ((read_file ∘ pb_record) <$> l)).
  { clear. induction l as [|x l IH]; [done|]. cbn. f_equal. exact IH. }
  apply (eq_trans (f_equal (mapR session_summary) (eq_sym Hz))) in Z1. destruct (check_sessions _ _ _ Z1 Z1') as (us & Hu). rewrite Hu. by bound.
Qed.

(** The alerts of the records, and the views. *)
Lemma alerts_checked p d l c report ids : ran_ p d l c -> covers p -> (length l <= length (pl_days p))%nat -> reported p c report ->
  alert_ids report = Ok ids -> NoDup (canonical <$> ids) ->
  check_alerts report ((read_file ∘ pb_record) <$> l) = Ok tt.
Proof.
  intros Hr Hcov Hle [_ _ _ R4 _] Hids Hd. destruct (run_summarized _ _ _ _ _ _ _ _ _ _ Hr Hcov Hle) as [_ _ Z3 Z4].
  unfold check_alerts. rewrite Z3. bound.
  assert (Hcat : concat ((fun x => norm <$> pb_alerts x) <$> l) = norm <$> cy_notifications c).
  { rewrite Z4. clear. induction l as [|x l IH]; [done|]. cbn. by rewrite IH, fmap_app. }
  rewrite Hcat. assert (Ha : expect "ALERT_LEDGER" "alerts" report (JArr (norm <$> cy_notifications c)) = Ok tt).
  { apply expect_Ok. eexists. split; [exact R4|]. symmetry. exact (norm_norm (JArr (cy_notifications c))). }
  rewrite Ha. bound. unfold alert_ids in Hids. rewrite R4 in Hids. cbn [elements_of mbind res_bind] in Hids.
  assert (Hk : mapR (key "alert_id") (norm <$> cy_notifications c) = Ok (norm <$> ids)).
  { revert ids Hids Hd. generalize (cy_notifications c) as l0. clear. induction l0 as [|a l0 IH]; intros ids E Hd; cbn in E |- *.
    - by apply Ok_inj in E as <-.
    - unbind E i Ei. unbind E is' Es. apply Ok_inj in E. subst ids. cbn in Hd. apply NoDup_cons in Hd as [_ Hd].
      rewrite key_norm, Ei. cbn. by rewrite (IH _ Es Hd). }
  rewrite Hk. bound. unfold distinct. assert (Hc : canonical <$> (norm <$> ids) = canonical <$> ids).
  { rewrite <- list_fmap_compose. apply list_fmap_ext. intros _ i _. apply canonical_inj, norm_norm. }
  rewrite Hc, bool_decide_true by done. bound. pose proof (run_sealed _ _ _ _ Hr) as Hs. rewrite <- Z4 in Hs.
  assert (Hm : exists us, mapR check_alert (norm <$> cy_notifications c) = Ok us).
  { exists ((fun _ => tt) <$> (norm <$> cy_notifications c)). apply mapR_ok. intros a (a0 & -> & Hin)%list_elem_of_fmap.
    by apply (proj1 (Forall_forall _ _) Hs). }
  destruct Hm as (us & Hm). rewrite Hm. by bound.
Qed.

(** ** The run *)

(** What an uninterrupted run leaves. *)
Record left_by (p : Plan) (final : Directory) (report : json) (l : list Published) (c : Carry) : Prop := {
  lb_ran : ran_ p final l c;
  lb_stopped : stopped p l c;
  lb_some : l <> [];
  lb_outcomes : dr_outcomes final = map_seq 0 (envelope <$> (pb_outcome <$> l));
  lb_records : dr_records final = map_seq 0 (envelope <$> (pb_record <$> l));
  lb_reported : reported p c report;
  lb_daily : key "daily" report = Ok (JArr (cy_daily c));
  lb_scope : key "scope" report = Ok (JStr "SYNTHETIC_FIXTURE");
  lb_run_id : key "run_id" report = Ok (JStr (pl_run_id p));
  lb_views : exists views, report_views report (pl_limits p) = Ok views /\
    key "reports" report = Ok (JObj ((fun x => (x.1, JStr (sha (canonical x.2)))) <$> views))
}.
Lemma fresh_left days policy control calendar limits binding final report :
  run_sessions_ days policy control calendar limits fresh binding empty_directory = (final, Ok report) ->
  run_checks days calendar limits = Ok tt /\
  exists l c, left_by (mkPlan days policy control calendar limits (sha (canonical binding)) fresh 0) final report l c.
Proof.
  intros E. apply fresh_run in E as (c & d1 & Hchecks & E1 & E2). cbn zeta in E1, E2. split; [exact Hchecks|].
  set (p := mkPlan _ _ _ _ _ _ _ _) in *. pose proof E1 as E3.
  apply (loop_ran _ _ _ _ _ _ p 0 (ca_sessions calendar)) with (l := []) in E1 as (l & Hr & Hstop);
    [|done|done|done|done|done|lia|constructor|intros j [x Hj]; cbn in Hj; by rewrite lookup_empty in Hj].
  apply loop_chain with (start := initial_state policy) in E3 as (_ & _ & _ & Hdom); [|done|constructor].
  pose proof (grows_run _ _ _ _ (grows_finish p c) E2) as Hg.
  pose proof (finish_spec _ _ _ _ _ E2) as (Hrep & [F1 F2] & Hsize & _).
  pose proof (finish_report _ _ _ _ _ E2) as (views & _ & Q1 & Q2 & Q3 & Q4 & Q5).
  pose proof (ran_length _ _ _ _ _ _ _ _ _ _ Hr) as Hlen. exists l, c. split; try done; [by eapply ran_sub| | | |by exists views].
  - intros ->. destruct Hstop as [Hs|(v & Hv & Ht)].
    + unfold run_checks in Hchecks. unbind Hchecks u Eu. apply raise_if_Ok in Eu. cbn [pl_calendar length] in Hs.
      change (pl_calendar p) with calendar in Hs. destruct (ca_sessions calendar); [|done].
      cbn [is_nil] in Eu. by rewrite !orb_true_r in Eu.
    + inversion Hr as [Hz|l' ? ? ? ? ? Hz]; [|by destruct l']. subst c. cbn [start_carry cy_state] in Hv. unfold initial_state in Hv.
      rewrite dict_key in Hv. by apply Ok_inj in Hv as <-.
  - rewrite F1. apply files_of.
    + intros i Hi. rewrite !length_fmap in Hi. rewrite (proj1 (run_outcomes _ _ _ _ Hr i Hi)), <- list_fmap_compose. by rewrite list_lookup_fmap.
    + left. by rewrite !length_fmap, Hsize.
  - rewrite F2. apply files_of.
    + intros i Hi. rewrite !length_fmap in Hi. rewrite (proj2 (run_outcomes _ _ _ _ Hr i Hi)), <- list_fmap_compose. by rewrite list_lookup_fmap.
    + right. intros i Hi. rewrite !length_fmap. destruct (Hdom i Hi) as [[x Hx]|Hi']; [cbn in Hx; by rewrite lookup_empty in Hx|lia].
Qed.

Lemma package_left p final report l c inputs : left_by p final report l c ->
  exists views, report_views report (pl_limits p) = Ok views /\
    key "reports" report = Ok (JObj ((fun x => (x.1, JStr (sha (canonical x.2)))) <$> views)) /\
    package inputs report (pl_limits p) final = Ok (JObj
      [("summary", report); ("input", inputs); ("input_hash", JStr (sha (canonical inputs)));
       ("outcomes", JArr (read_file <$> (pb_outcome <$> l))); ("records", JArr (read_file <$> (pb_record <$> l)));
       ("reports", JObj views)]%string).
Proof.
  intros [_ _ _ Ho Hrec _ _ _ _ (views & V1 & V2)]. exists views. split; [exact V1|]. split; [exact V2|].
  unfold package. rewrite Ho, Hrec, !numbered_seq. bound. rewrite loads_files. bound. rewrite loads_files. bound. rewrite V1. by bound.
Qed.

Lemma ledger_norm o : ledger_length (norm o) = ledger_length o.
Proof.
  unfold ledger_length. rewrite key_norm. destruct (key "reports" o) as [r|]; [|done]. cbn [fmap res_fmap mbind res_bind].
  rewrite key_norm. destruct (key "cash-ledger.json" r) as [l|]; [|done]. cbn [fmap res_fmap mbind res_bind].
  destruct l; try done. cbn. by rewrite length_map.
Qed.
Lemma ledger_left p final report l c : left_by p final report l c -> ledger_total final = foldr Z.add 0 ((ledger_length ∘ pb_outcome) <$> l).
Proof.
  intros [_ _ _ Ho _ _ _ _ _ _]. unfold ledger_total. rewrite Ho, numbered_seq. bound. rewrite loads_files.
  f_equal. rewrite <- !list_fmap_compose. apply list_fmap_ext. intros _ x _. cbn [compose]. unfold compose. by rewrite read_file_value, ledger_norm.
Qed.
End publication.
