(* ===== verification/AnalyticsTheorems.v ===== *)
(** * A package is accepted exactly when it was executed

    The two directions of [Analytics.validate]: what it accepts is a chain of sessions
    that execute again to the same outcomes, and it accepts what an uninterrupted run
    published. *)
From S2P Require Import Prelude Decimal DecimalFacts Text Dataset Costs Phase14 Strategies Execution Json JsonFacts JsonRead CanonicalPolicy Research Exec Qualification Chain PyText Paper.
From S2P Require Import PaperSample Portfolio PortfolioRun PortfolioSample Scheduler SchedulerFacts Multi MultiFacts MultiRunFacts MultiSession MultiRecovery MultiSample.
From S2P Require Import Analytics AnalyticsFacts ValidationFacts.
From S2P Require Sample.
Open Scope list_scope.
Open Scope Z_scope.

Section theorems.
Context `{Dump Definition_} `{Dump Bar} `{Dump Row} `{Dump Risk} `{Dump Dataset_} `{Dump Phase14.Policy} `{Dump Request}.
Context `{DumpJson ResearchWindow} `{DumpJson IntradayCostSchedule} `{DumpJson Settings} `{DumpJson Authorization}.
Context `{DumpJson Policy} `{DumpJson Control} `{DumpPython Policy}.
Context `{DumpJson Calendar} `{DumpJson Configuration} `{DumpJson Command} `{DumpJson Day} `{DumpJson Limits}.
Context `{ReadJson Day} `{ReadJson Policy} `{ReadJson Control} `{ReadJson Calendar} `{ReadJson Limits}.
Context (definition_json : Definition_ -> json) (uncertain : Metrics -> bool) (software_hash universe_hash : string).
Context (universe : list string) (inventory software : json).
Notation run_sessions_ := (run_sessions definition_json uncertain software_hash universe_hash universe inventory).

(** ** What is published is accepted *)

Lemma dates_checked p : run_checks (pl_days p) (pl_calendar p) (pl_limits p) = Ok tt ->
  check_dates (inputs_of p) = Ok tt /\ NoDup ((cf_trading_date ∘ dy_config) <$> pl_days p).
Proof.
  unfold run_checks, check_dates. change (ni_days (inputs_of p)) with (pl_days p). intros E.
  unbind E u1 E1. unbind E u2 E2. unbind E u3 E3. unbind E u4 E4. unbind E u5 E5. apply raise_unless_Ok, bool_decide_eq_true in E4, E5.
  split; [|exact E4]. rewrite bool_decide_true by done. bound. by rewrite bool_decide_true.
Qed.
Lemma left_validates p final report l c inputs binding capital : left_by definition_json uncertain software_hash universe_hash universe inventory p final report l c ->
  run_checks (pl_days p) (pl_calendar p) (pl_limits p) = Ok tt ->
  run_binding software inventory (pl_days p) (pl_policy p) (pl_control p) (pl_calendar p) (pl_limits p) = Ok binding ->
  pl_run_id p = sha (canonical binding) -> read_inputs inputs = Ok (inputs_of p) ->
  rk_capital (pp_base (pl_policy p)) = Some capital -> covers p -> (length l <= length (pl_days p))%nat ->
  foldr Z.add 0 ((ledger_length ∘ pb_outcome) <$> l) <= 250000 ->
  (exists ids, alert_ids report = Ok ids /\ NoDup (canonical <$> ids)) ->
  exists source, package inputs report (pl_limits p) final = Ok source /\
    validate definition_json uncertain software_hash universe_hash universe inventory software inventory source = Ok (pb_outcome <$> l).
Proof.
  intros Hleft Hchecks Hbind Hid Hread Hcap Hcov Hle Hsize (ids & Hids & Hdist).
  destruct (package_left _ _ _ _ _ _ _ _ _ _ _ inputs Hleft) as (views & V1 & V2 & Hp).
  destruct Hleft as [Hr Hstop Hne _ _ Hrep Hdaily Hscope Hrun _]. destruct (dates_checked p Hchecks) as [Hdates _].
  eexists. split; [exact Hp|]. clear Hp.
  set (outs := read_file <$> (pb_outcome <$> l)). set (recs := read_file <$> (pb_record <$> l)).
  assert (Hkeys : forall source, source = JObj [("summary", report); ("input", inputs); ("input_hash", JStr (sha (canonical inputs)));
      ("outcomes", JArr outs); ("records", JArr recs); ("reports", JObj views)]%string ->
    key "summary" source = Ok report /\ key "input" source = Ok inputs /\ key "input_hash" source = Ok (JStr (sha (canonical inputs))) /\
    key "outcomes" source = Ok (JArr outs) /\ key "records" source = Ok (JArr recs) /\ key "reports" source = Ok (JObj views)).
  { intros source ->. by split_and!. }
  match goal with |- validate _ _ _ _ _ _ _ _ ?s = _ => destruct (Hkeys s eq_refl) as (K1 & K2 & K3 & K4 & K5 & K6); clear Hkeys; generalize dependent s end.
  intros source K1 K2 K3 K4 K5 K6. unfold validate. rewrite K1. bound. rewrite (expect_key _ _ _ _ Hscope). bound. rewrite K2. bound.
  rewrite (expect_key _ _ _ _ K3). bound. rewrite Hread. bound. cbn [ni_days ni_policy ni_control ni_calendar ni_limits inputs_of].
  rewrite Hbind. bound. rewrite Hid in Hrun. rewrite (expect_key _ _ _ _ Hrun). bound. rewrite K4. bound. cbn [elements_of]. bound.
  rewrite K5. bound. cbn [elements_of]. bound.
  assert (Hlens : Nat.ltb 0 (length outs) && Nat.eqb (length outs) (length recs) && Nat.leb (length recs) (length (pl_days p)) = true).
  { unfold outs, recs. rewrite !length_fmap. rewrite Nat.eqb_refl, (proj2 (Nat.leb_le _ _) Hle). destruct l; [done|]. done. }
  rewrite Hlens. bound. rewrite Hdates. bound. rewrite Hrun. bound.
  assert (Hloop : zip (seq 0 (length outs)) (zip outs recs) =
    zip (seq 0 (length l)) ((fun x => (read_file (pb_outcome x), read_file (pb_record x))) <$> l)).
  { unfold outs, recs. rewrite !length_fmap. f_equal. rewrite <- !list_fmap_compose. clear. induction l as [|x l IH]; [done|].
    cbn. f_equal. exact IH. }
  rewrite Hloop. rewrite <- Hid.
  rewrite (run_replays _ _ _ _ _ _ _ _ _ _ capital Hr Hcov Hle Hcap Hsize). bound.
  unfold recs. rewrite <- list_fmap_compose. rewrite (summary_checked _ _ _ _ _ _ _ _ _ _ _ Hr Hcov Hle Hstop Hne Hrep Hdaily). bound.
  rewrite (alerts_checked _ _ _ _ _ _ _ _ _ _ _ _ Hr Hcov Hle Hrep Hids Hdist). bound.
  assert (Hv : check_views (inputs_of p) source report = Ok tt).
  { unfold check_views. change (ni_limits (inputs_of p)) with (pl_limits p). rewrite V1. bound. rewrite (expect_key _ _ _ _ K6). bound.
    rewrite K6. bound. cbn [fields_of]. bound. by apply expect_key. }
  rewrite Hv. by bound.
Qed.

(** ** What is accepted was executed *)

Notation validate_ := (validate definition_json uncertain software_hash universe_hash universe inventory software inventory).
Notation replayed_ := (replayed definition_json uncertain software_hash universe_hash universe inventory).

Lemma replayed_carries n run_id l last tip : replayed_ n run_id l last tip ->
  Forall (fun o => exists begun again, key "start" o = Ok begun /\ norm again = norm o /\ carries begun again) l.
Proof.
  induction 1 as [|l last previous o end_ tip _ IH [_ (day & begun & bound & again & _ & Hs & _ & Hex & Hn & _) _ _]]; [constructor|].
  apply Forall_app. split; [exact IH|]. constructor; [|done]. exists begun, again. split; [exact Hs|]. split; [exact Hn|].
  by eapply execute_carries.
Qed.
Lemma validate_inv source outcomes : validate_ source = Ok outcomes ->
  exists inputs n summary run_id state tip, key "input" source = Ok inputs /\ read_inputs inputs = Ok n /\
    key "summary" source = Ok summary /\ key "run_id" summary = Ok run_id /\
    replayed_ n run_id outcomes (Some state) tip /\ (0 < length outcomes <= length (ni_days n))%nat /\
    NoDup ((cf_trading_date ∘ dy_config) <$> ni_days n) /\
    (exists v, key "state" summary = Ok v /\ norm v = norm state) /\
    (exists v, key "head" summary = Ok v /\ norm v = JStr tip) /\
    (exists v b, key "complete" summary = Ok v /\ norm v = JBool b /\
       (b = true -> length outcomes = length (ni_days n) /\ all_complete outcomes = Ok true)).
Proof.
  unfold validate. intros E. unbind E summary Es. unbind E u1 E1. unbind E inputs Ei. unbind E u2 E2. unbind E n En.
  unbind E binding Eb. unbind E u3 E3. unbind E outs Eo. unbind E outs' Eo'. unbind E recs Er. unbind E recs' Er'.
  unbind E u4 E4. unbind E u5 E5. unbind E rid Erun. unbind E s Eloop. unbind E u6 E6. unbind E u7 E7. unbind E u8 E8.
  apply Ok_inj in E. subst outcomes. apply raise_unless_Ok in E4. apply andb_true in E4 as [E4 L3]. apply andb_true in E4 as [L1 L2].
  apply Nat.ltb_lt in L1. apply Nat.eqb_eq in L2. apply Nat.leb_le in L3.
  assert (Hz : length (zip outs' recs') = length outs') by (rewrite length_zip_with; lia).
  rewrite <- Hz in Eloop. apply replay_loop_Ok in Eloop as [Hrep Hlen]. rewrite Hz in Hlen.
  unfold check_dates in E5. unbind E5 u9 E9. apply raise_unless_Ok, bool_decide_eq_true in E9.
  unfold check_summary in E6. unbind E6 final Ef. unbind E6 w1 G1. unbind E6 w2 G2. unbind E6 b Eb'. unbind E6 w3 G3.
  apply of_option_Ok in Ef. apply expect_Ok in G1, G2, G3. exists inputs, n, summary, rid, final, (rp_previous s).
  split_and!; try done; [by rewrite <- Ef|lia|lia|].
  destruct G3 as (v & Hv & Hb). exists v, b. split; [exact Hv|]. split; [exact Hb|]. intros ->.
  destruct (Nat.eqb_spec (length (rp_result s)) (length (ni_days n))); [done|]. by apply Ok_inj in Eb'.
Qed.
End theorems.

(** ** The properties *)

(** C19. Nothing is accepted without being executed again.  The outcomes of an accepted
    package are a chain from the capital of the policy: each starts with what the one
    before it left, which is not halted, is bound to its day, its position and the digest
    of the record before it, and is, value for value, what executing that day from that
    start gives - so it hands on what [carries] says.  The days are distinct, at least one
    and at most all of them were run; the summary shows the state and the head that the
    chain ends with, and claims completion only if every day ran to completion. *)
Theorem validated_replays `{Dump Definition_} `{Dump Bar} `{Dump Row} `{Dump Risk} `{Dump Dataset_} `{Dump Phase14.Policy}
    `{Dump Request} `{DumpJson ResearchWindow} `{DumpJson IntradayCostSchedule} `{DumpJson Settings} `{DumpJson Authorization}
    `{DumpJson Policy} `{DumpJson Control} `{DumpPython Policy} `{DumpJson Calendar} `{DumpJson Configuration}
    `{DumpJson Command} `{DumpJson Day} `{DumpJson Limits}
    `{ReadJson Day} `{ReadJson Policy} `{ReadJson Control} `{ReadJson Calendar} `{ReadJson Limits}
    definition_json uncertain software_hash universe_hash universe inventory software source outcomes :
  validate definition_json uncertain software_hash universe_hash universe inventory software inventory source = Ok outcomes ->
  exists inputs n summary run_id state tip, key "input" source = Ok inputs /\ read_inputs inputs = Ok n /\
    key "summary" source = Ok summary /\ key "run_id" summary = Ok run_id /\
    replayed definition_json uncertain software_hash universe_hash universe inventory n run_id outcomes (Some state) tip /\
    Forall (fun o => exists begun again, key "start" o = Ok begun /\ norm again = norm o /\ carries begun again) outcomes /\
    (0 < length outcomes <= length (ni_days n))%nat /\ NoDup ((cf_trading_date ∘ dy_config) <$> ni_days n) /\
    (exists v, key "state" summary = Ok v /\ norm v = norm state) /\
    (exists v, key "head" summary = Ok v /\ norm v = JStr tip) /\
    (exists v b, key "complete" summary = Ok v /\ norm v = JBool b /\
       (b = true -> length outcomes = length (ni_days n) /\ all_complete outcomes = Ok true)).
Proof.
  intros E. apply validate_inv in E as (inputs & n & summary & run_id & state & tip & H1' & H2' & H3' & H4' & H5' & H6').
  exists inputs, n, summary, run_id, state, tip. split_and!; try done; [|apply H6'..]. by eapply replayed_carries.
Qed.

(** C15. What such a run publishes is accepted: an uninterrupted run whose days are those of
    the first sessions of the calendar, that publishes at most one outcome per day (a run
    that goes on to a session with no day publishes one more, which [validate] refuses),
    with distinct alert identifiers and at most 250,000 entries of ledgers.  Its report,
    the outcome and record files read back, and the views recomputed from the report make
    a package that [validate] accepts, and it returns the outcomes in the files, in
    order. *)
Theorem published_validates `{Dump Definition_} `{Dump Bar} `{Dump Row} `{Dump Risk} `{Dump Dataset_} `{Dump Phase14.Policy}
    `{Dump Request} `{DumpJson ResearchWindow} `{DumpJson IntradayCostSchedule} `{DumpJson Settings} `{DumpJson Authorization}
    `{DumpJson Policy} `{DumpJson Control} `{DumpPython Policy} `{DumpJson Calendar} `{DumpJson Configuration}
    `{DumpJson Command} `{DumpJson Day} `{DumpJson Limits}
    `{ReadJson Day} `{ReadJson Policy} `{ReadJson Control} `{ReadJson Calendar} `{ReadJson Limits}
    definition_json uncertain software_hash universe_hash universe inventory software
    days policy control calendar limits binding inputs final report capital :
  run_sessions definition_json uncertain software_hash universe_hash universe inventory days policy control calendar limits
    fresh binding empty_directory = (final, Ok report) ->
  run_binding software inventory days policy control calendar limits = Ok binding ->
  read_inputs inputs = Ok (mkInputs days policy control calendar limits) ->
  rk_capital (pp_base policy) = Some capital ->
  (cf_trading_date ∘ dy_config) <$> days = take (length days) (session_day <$> ca_sessions calendar) ->
  (base.size (dr_outcomes final) <= length days)%nat -> ledger_total final <= 250000 ->
  (exists ids, alert_ids report = Ok ids /\ NoDup (canonical <$> ids)) ->
  exists source outcomes, package inputs report limits final = Ok source /\
    validate definition_json uncertain software_hash universe_hash universe inventory software inventory source = Ok outcomes /\
    dr_outcomes final = map_seq 0 (envelope <$> outcomes).
Proof.
  intros E Hb Hread Hcap Hdates Hdays Htotal Hids.
  destruct (fresh_left _ _ _ _ _ _ _ _ _ _ _ _ _ _ E) as (Hchecks & l & c & Hleft). pose proof Hleft as [_ _ _ Ho _ _ _ _ _ _].
  assert (Hle : (length l <= length days)%nat) by (rewrite Ho, size_map_seq, !length_fmap in Hdays; exact Hdays).
  rewrite (ledger_left _ _ _ _ _ _ _ _ _ _ _ Hleft) in Htotal.
  set (p := mkPlan days policy control calendar limits (sha (canonical binding)) fresh 0) in *.
  destruct (dates_checked p Hchecks) as [_ Hdup].
  destruct (left_validates _ _ _ _ _ _ software p final report l c inputs binding capital Hleft Hchecks Hb eq_refl Hread Hcap
    (Build_covers p Hdates Hdup) Hle Htotal Hids) as (source & Hp & Hv).
  exists source, (pb_outcome <$> l). done.
Qed.

(** ** Witnesses *)

Import Sample.

(** Readers that know the sample. *)
Definition reads {A} `{DumpJson A} (a : A) (v : json) : res A :=
  if same v (model_dump_json_value a) then Ok a else Err (ValueError "VALIDATION").
#[export] Instance read_day : ReadJson Day := reads halted_day.
#[export] Instance read_policy : ReadJson Policy := reads sample_policy.
#[export] Instance read_control : ReadJson Control := reads sample_control.
#[export] Instance read_calendar : ReadJson Calendar := reads two_sessions.
#[export] Instance read_limits : ReadJson Limits := reads sample_limits.
Definition sample_inputs : json :=
  JObj [("days", JArr [model_dump_json_value halted_day]); ("policy", model_dump_json_value sample_policy);
        ("control", model_dump_json_value sample_control); ("calendar", model_dump_json_value two_sessions);
        ("limits", model_dump_json_value sample_limits)]%string.
Lemma sample_inputs_read :
  read_inputs sample_inputs = Ok (mkInputs [halted_day] sample_policy sample_control two_sessions sample_limits).
Proof. vm_compute. reflexivity. Qed.
Lemma sample_bound : run_binding JNull JNull [halted_day] sample_policy sample_control two_sessions sample_limits = Ok sample_binding.
Proof. vm_compute. reflexivity. Qed.
Lemma sample_capital : exists capital, rk_capital (pp_base sample_policy) = Some capital.
Proof. eexists. reflexivity. Qed.
Lemma sample_dates :
  (cf_trading_date ∘ dy_config) <$> [halted_day] = take 1 (session_day <$> ca_sessions two_sessions).
Proof. vm_compute. reflexivity. Qed.
Lemma two_days_checks : run_checks [halted_day] two_sessions sample_limits = Ok tt.
Proof. vm_compute. reflexivity. Qed.

Lemma published_validates_witness : exists final report source outcomes, two_days fresh empty_directory = (final, Ok report) /\
  package sample_inputs report sample_limits final = Ok source /\
  validate definition_value (fun _ => false) sample_hash sample_hash sample_universe JNull JNull JNull source = Ok outcomes /\
  length outcomes = 1%nat.
Proof.
  destruct two_days_full as (final & report & E & _ & Hsize & Htotal & Hids). destruct sample_capital as (capital & Hcap).
  assert (Hle : (base.size (dr_outcomes final) <= 1)%nat) by (rewrite Hsize; apply le_n).
  destruct (published_validates definition_value (fun _ => false) sample_hash sample_hash sample_universe JNull JNull [halted_day]
    sample_policy sample_control two_sessions sample_limits sample_binding sample_inputs final report capital E sample_bound
    sample_inputs_read Hcap sample_dates Hle Htotal Hids) as (source & outcomes & Hp & Hv & Ho).
  exists final, report, source, outcomes. split; [exact E|]. split; [exact Hp|]. split; [exact Hv|].
  rewrite Ho, size_map_seq, length_fmap in Hsize. exact Hsize.
Defined.
Lemma sample_accepted : exists source outcomes,
  validate definition_value (fun _ => false) sample_hash sample_hash sample_universe JNull JNull JNull source = Ok outcomes.
Proof.
  destruct two_days_full as (final & report & E & _ & Hsize & Htotal & Hids). destruct sample_capital as (capital & Hcap).
  destruct (fresh_left _ _ _ _ _ _ _ _ _ _ _ _ _ _ E) as (_ & l & c & Hleft). pose proof Hleft as [_ _ _ Ho _ _ _ _ _ _].
  assert (Hle : (length l <= 1)%nat) by (rewrite Ho, size_map_seq, !length_fmap in Hsize; rewrite Hsize; apply le_n).
  rewrite (ledger_left _ _ _ _ _ _ _ _ _ _ _ Hleft) in Htotal.
  set (p := mkPlan [halted_day] sample_policy sample_control two_sessions sample_limits (sha (canonical sample_binding)) fresh 0) in *.
  destruct (dates_checked p two_days_checks) as [_ Hdup].
  destruct (left_validates definition_value (fun _ => false) sample_hash sample_hash sample_universe JNull JNull p final report l c
    sample_inputs sample_binding capital Hleft two_days_checks sample_bound eq_refl sample_inputs_read Hcap
    (Build_covers p sample_dates Hdup) Hle Htotal Hids) as (source & _ & Hv).
  exists source, (pb_outcome <$> l). exact Hv.
Qed.
Lemma validated_replays_witness : exists source outcomes,
  validate definition_value (fun _ => false) sample_hash sample_hash sample_universe JNull JNull JNull source = Ok outcomes /\
  exists n run_id state tip,
    replayed definition_value (fun _ => false) sample_hash sample_hash sample_universe JNull n run_id outcomes (Some state) tip /\
    (0 < length outcomes)%nat.
Proof.
  destruct sample_accepted as (source & outcomes & Hv). exists source, outcomes. split; [exact Hv|].
  destruct (validated_replays definition_value (fun _ => false) sample_hash sample_hash sample_universe JNull JNull source outcomes Hv)
    as (inputs & n & summary & rid & state & tip & _ & _ & _ & _ & Hr & _ & Hl & _).
  exists n, rid, state, tip. split; [exact Hr|exact (proj1 Hl)].
Defined.
