(* ===== verification/Attribution.v ===== *)
(** * Attribution of a validated run ([phase1421/analytics.py], [_analyze])

    The outcomes that [Analytics.validate] accepted are walked once: snapshots give the
    equity curve and its drawdowns, closed orders the tallies of their strategy and symbol,
    the tariff is quoted again for every fill, and the sums are reconciled with the
    published totals.  The two tables are ordered dictionaries of [Exec]. *)
From S2P Require Import Prelude Decimal DecimalFacts Text Dataset Costs Phase14 Strategies Execution Json JsonFacts JsonRead CanonicalPolicy Research Exec Qualification Chain PyText Paper.
From S2P Require Import Portfolio PortfolioRun Scheduler Multi Analytics.
Open Scope list_scope.
Open Scope Z_scope.

(** ** The variables of the loop *)

Record Tally := mkTally {
  ta_trades : Z; ta_wins : Z; ta_losses : Z; ta_gross : dec; ta_fees : dec; ta_net : dec; ta_turnover : dec;
  ta_rejected_signals : Z; ta_risk_rejections : Z; ta_peak_cost_basis : dec; ta_halt_involvement : Z
}.
Definition empty_tally : Tally := mkTally 0 0 0 d0 d0 d0 d0 0 0 d0 0.
(** A point of the equity curve. *)
Record Point := mkPoint { pt_at : json; pt_equity : dec; pt_peak : dec; pt_drawdown : dec; pt_fraction : dec }.
(** What the snapshots leave. *)
Record Curve := mkCurve {
  cu_points : list Point; cu_high : dec; cu_max_drawdown : dec; cu_max_fraction : dec; cu_recovery_start : option json;
  cu_recovered : list json
}.
Record Tables := mkTables { tb_symbols : list (string * Tally); tb_strategies : list (string * Tally) }.
(** What the orders leave: the identifiers, the net results and the charges by component. *)
Record Ledger := mkLedger { le_seen : list json; le_trades : list dec; le_components : list (string * dec) }.
Record Report := mkReport {
  rt_tables : Tables; rt_curve : Curve; rt_ledger : Ledger; rt_daily : list json; rt_returns : list dec
}.

Definition strategy_names : list string := ["S01"; "S02"; "S03"; "S04"; "S05"; "S06"]%string.
Definition as_text (v : json) : res string := match v with JStr s => Ok s | _ => Err TypeError end.
Definition text_at (k : string) (d : json) : res string := v ← key k d; as_text v.
Definition list_at (k : string) (d : json) : res (list json) := v ← key k d; elements_of v.
(** [d.values()] *)
Definition values_at (k : string) (d : json) : res (list json) := v ← key k d; fields ← fields_of v; Ok fields.*2.

(** [table[name]], read and written. *)
Definition alter_row {A} (name : string) (f : A -> res A) (table : list (string * A)) : res (list (string * A)) :=
  r ← of_option KeyError (find table name);
  r ← f r;
  Ok (store table name r).
(** The same assignments to the row of the symbol and to the row of the strategy. *)
Definition alter_both (symbol strategy : string) (f : Tally -> res Tally) (t : Tables) : res Tables :=
  symbols ← alter_row symbol f (tb_symbols t);
  strategies ← alter_row strategy f (tb_strategies t);
  Ok (mkTables symbols strategies).

(** ** Snapshots *)

Definition with_peak (x : dec) (t : Tally) : Tally :=
  mkTally (ta_trades t) (ta_wins t) (ta_losses t) (ta_gross t) (ta_fees t) (ta_net t) (ta_turnover t)
    (ta_rejected_signals t) (ta_risk_rejections t) (dmax (ta_peak_cost_basis t) x) (ta_halt_involvement t).

Definition snapshot_point (c : Curve) (at_ : json) (equity : dec) : res Curve :=
  let reached := dleb (cu_high c) equity in
  let high := if reached then equity else cu_high c in
  let pending := match cu_recovery_start c with Some v => truthy v | None => false end in
  let recovered :=
    if reached && pending
    then cu_recovered c ++ [JObj [("start", default JNull (cu_recovery_start c)); ("recovered_at", at_)]%string]
    else cu_recovered c in
  let start :=
    if reached then None
    else match cu_recovery_start c with None => Some at_ | started => started end in
  drawdown ← psub high equity;
  fraction ← pdiv drawdown high;
  Ok (mkCurve (cu_points c ++ [mkPoint at_ equity high drawdown fraction]) high (dmax (cu_max_drawdown c) drawdown)
        (dmax (cu_max_fraction c) fraction) start recovered).

(** The cost of the open positions by strategy, and its peak by symbol. *)
Definition position_exposure (x : list (string * Tally) * list (string * dec)) (position : json)
    : res (list (string * Tally) * list (string * dec)) :=
  symbol ← text_at "symbol" position;
  strategy ← text_at "strategy_id" position;
  entry ← number_at "entry" position;
  quantity ← number_at "quantity" position;
  cost ← pmul entry quantity;
  symbols ← alter_row symbol (fun t => Ok (with_peak cost t)) x.1;
  exposures ← alter_row strategy (fun total => padd total cost) x.2;
  Ok (symbols, exposures).
Definition strategy_peak (strategies : list (string * Tally)) (x : string * dec) : res (list (string * Tally)) :=
  alter_row x.1 (fun t => Ok (with_peak x.2 t)) strategies.

Definition snapshot_step (x : Tables * Curve) (snapshot : json) : res (Tables * Curve) :=
  let '(t, c) := x in
  account ← key "account" snapshot;
  equity ← number_at "equity" account;
  cash ← number_at "cash" account;
  marked ← number_at "marked_value" account;
  total ← padd cash marked;
  require! deqb equity total else "EQUITY_RECONCILIATION";
  available ← number_at "available" account;
  reserved ← number_at "reserved" account;
  free ← psub cash reserved;
  require! deqb available free else "RESERVATION_RECONCILIATION";
  at_ ← key "timestamp" snapshot;
  c ← snapshot_point c at_ equity;
  positions ← values_at "positions" account;
  '(symbols, exposures) ← foldR position_exposure (tb_symbols t, (fun s => (s, d0)) <$> strategy_names) positions;
  strategies ← foldR strategy_peak (tb_strategies t) exposures;
  Ok (mkTables symbols strategies, c).

(** ** Orders *)

Section orders.
Context `{ReadJson IntradayCostSchedule}.

(** The tariffs of the requests of a day, by symbol and strategy. *)
Definition schedule_of (r : json) : res ((string * string) * IntradayCostSchedule) :=
  data ← key "data" r;
  series ← key "series" data;
  symbol ← text_at "symbol" series;
  definition ← key "definition" r;
  strategy ← text_at "identifier" definition;
  costs ← key "costs" r;
  schedule ← model_validate costs;
  Ok ((symbol, strategy), schedule).
Definition day_schedules (requests : list json) : res (list ((string * string) * IntradayCostSchedule)) :=
  foldR (fun d r => x ← schedule_of r; Ok (store d x.1 x.2)) [] requests.

Definition charge_fields (c : Charges) : list (string * dec) :=
  [("brokerage", brokerage c); ("stt", stt c); ("exchange", exchange c); ("ipft", ipft c); ("sebi", sebi c);
   ("gst", gst c); ("stamp", stamp c)]%string.
Definition no_charges : list (string * dec) :=
  (fun k => (k, d0)) <$> ["brokerage"; "stt"; "exchange"; "ipft"; "sebi"; "gst"; "stamp"]%string.
Definition add_component (components : list (string * dec)) (x : string * dec) : res (list (string * dec)) :=
  alter_row x.1 (fun total => padd total x.2) components.
Definition add_charges (components : list (string * dec)) (c : Charges) : res (list (string * dec)) :=
  foldR add_component components (charge_fields c).

(** The quotes of the fills of an order, and their sum by component. *)
Definition order_charges (schedules : list ((string * string) * IntradayCostSchedule)) (symbol strategy : string)
    (components : list (string * dec)) (order : json) : res (list (string * dec)) :=
  entry_at ← key "entry_at" order;
  match entry_at with
  | JNull => Ok components
  | _ =>
      schedule ← of_option KeyError (find schedules (symbol, strategy));
      entry ← number_at "entry" order;
      quantity ← number_at "quantity" order;
      notional ← pmul entry quantity;
      filled ← instant_at "entry_at" order;
      bought ← Costs.quote schedule BUY notional filled None;
      total ← charges_total bought;
      fee ← number_at "entry_fee" order;
      require! deqb total fee else "ENTRY_FEE_COMPONENTS";
      components ← add_charges components bought;
      state ← key "state" order;
      if same state (JStr "CLOSED") then
        exit_ ← number_at "exit" order;
        proceeds ← pmul exit_ quantity;
        left ← instant_at "exit_at" order;
        sold ← Costs.quote schedule SELL proceeds left (Some notional);
        add_charges components sold
      else Ok components
  end.

Definition count (b : bool) : Z := if b then 1 else 0.
Definition with_trade (gross fees net turnover : dec) (t : Tally) : res Tally :=
  gross ← padd (ta_gross t) gross;
  all_fees ← padd (ta_fees t) fees;
  all_net ← padd (ta_net t) net;
  all_turnover ← padd (ta_turnover t) turnover;
  Ok (mkTally (ta_trades t + 1) (ta_wins t + count (dltb d0 net)) (ta_losses t + count (dltb net d0)) gross all_fees
        all_net all_turnover (ta_rejected_signals t) (ta_risk_rejections t) (ta_peak_cost_basis t) (ta_halt_involvement t)).

(** The result of a closed order. *)
Record Trade := mkClosedTrade { tr_gross : dec; tr_fees : dec; tr_net : dec; tr_turnover : dec }.
Definition closed_trade (order : json) : res Trade :=
  quantity ← number_at "quantity" order;
  exit_ ← number_at "exit" order;
  entry ← number_at "entry" order;
  move ← psub exit_ entry;
  gross ← pmul move quantity;
  net ← number_at "net" order;
  fees ← psub gross net;
  require! dleb d0 fees else "NEGATIVE_FEES";
  both ← padd exit_ entry;
  turnover ← pmul both quantity;
  Ok (mkClosedTrade gross fees net turnover).

(** [x in table], where [x] was read from a report. *)
Definition known (table : list (string * Tally)) (v : json) : res bool :=
  match v with
  | JStr s => Ok (has table s)
  | JArr _ | JObj _ => Err TypeError
  | _ => Ok false
  end.

Definition order_step (schedules : list ((string * string) * IntradayCostSchedule)) (x : Tables * Ledger * dec) (order : json)
    : res (Tables * Ledger * dec) :=
  let '(t, l, closed_net) := x in
  id ← key "order_id" order;
  reject! contains_json (le_seen l) id as "DUPLICATE_ORDER";
  symbol_json ← key "symbol" order;
  strategy_json ← key "strategy_id" order;
  in_symbols ← known (tb_symbols t) symbol_json;
  require! in_symbols else "UNKNOWN_ATTRIBUTION";
  in_strategies ← known (tb_strategies t) strategy_json;
  require! in_strategies else "UNKNOWN_ATTRIBUTION";
  symbol ← as_text symbol_json;
  strategy ← as_text strategy_json;
  components ← order_charges schedules symbol strategy (le_components l) order;
  state ← key "state" order;
  if same state (JStr "CLOSED") then
    r ← closed_trade order;
    net ← padd closed_net (tr_net r);
    t ← alter_both symbol strategy (with_trade (tr_gross r) (tr_fees r) (tr_net r) (tr_turnover r)) t;
    Ok (t, mkLedger (le_seen l ++ [id]) (le_trades l ++ [tr_net r]) components, net)
  else Ok (t, mkLedger (le_seen l ++ [id]) (le_trades l) components, closed_net).

(** ** The rest of a day *)

Definition with_open (fee cost : dec) (halted : bool) (t : Tally) : res Tally :=
  fees ← padd (ta_fees t) fee;
  turnover ← padd (ta_turnover t) cost;
  Ok (mkTally (ta_trades t) (ta_wins t) (ta_losses t) (ta_gross t) fees (ta_net t) turnover (ta_rejected_signals t)
        (ta_risk_rejections t) (ta_peak_cost_basis t) (ta_halt_involvement t + count halted)).
(** A position that the day leaves open. *)
Definition open_step (end_ : json) (t : Tables) (position : json) : res Tables :=
  symbol ← text_at "symbol" position;
  strategy ← text_at "strategy_id" position;
  fee ← number_at "entry_fee" position;
  entry ← number_at "entry" position;
  quantity ← number_at "quantity" position;
  cost ← pmul entry quantity;
  halted ← key "halted" end_;
  alter_both symbol strategy (with_open fee cost (truthy halted)) t.

Definition with_rejection (by_risk : bool) (t : Tally) : res Tally :=
  Ok (mkTally (ta_trades t) (ta_wins t) (ta_losses t) (ta_gross t) (ta_fees t) (ta_net t) (ta_turnover t)
        (ta_rejected_signals t + 1) (ta_risk_rejections t + count by_risk) (ta_peak_cost_basis t) (ta_halt_involvement t)).
Definition risk_reasons : list json :=
  JStr <$> ["CASH_EXPOSURE_LIQUIDITY_OR_RISK"; "ONE_POSITION_PER_SYMBOL"; "POSITION_OR_CORRELATION_LIMIT"]%string.
Definition rejection_step (t : Tables) (event : json) : res Tables :=
  state ← key "state" event;
  if negb (same state (JStr "REJECTED")) then Ok t
  else
    symbol_json ← key "symbol" event;
    in_symbols ← known (tb_symbols t) symbol_json;
    if negb in_symbols then Ok t
    else
      strategy_json ← key "strategy_id" event;
      in_strategies ← known (tb_strategies t) strategy_json;
      if negb in_strategies then Ok t
      else
        symbol ← as_text symbol_json;
        strategy ← as_text strategy_json;
        details ← key "details" event;
        fields ← fields_of details;
        alter_both symbol strategy (with_rejection (contains_json risk_reasons (default JNull (find fields "reason"%string)))) t.

Definition start_report (universe : list string) (opening : dec) : Report :=
  mkReport (mkTables ((fun s => (s, empty_tally)) <$> universe) ((fun s => (s, empty_tally)) <$> strategy_names))
    (mkCurve [] opening d0 d0 None []) (mkLedger [] [] no_charges) [] [].

Definition day_row (o : json) (start end_ net ret : dec) : res json :=
  binding ← key "binding" o;
  date ← key "date" binding;
  complete ← key "complete" o;
  daily ← key "daily" o;
  realized ← key "realized" daily;
  unrealized ← key "unrealized" daily;
  fees ← key "fees" daily;
  Ok (JObj [("date", date); ("complete", complete); ("opening", jdec start); ("closing", jdec end_); ("net", jdec net);
            ("return_fraction", jdec ret); ("realized", realized); ("unrealized", unrealized); ("fees", fees)]%string).

Definition day_step (days : list json) (r : Report) (x : nat * json) : res Report :=
  let '(i, o) := x in
  reports ← key "reports" o;
  day ← of_option IndexError (days !! i);
  requests ← list_at "requests" day;
  schedules ← day_schedules requests;
  snapshots ← list_at "cash-ledger.json" reports;
  '(t, c) ← foldR snapshot_step (rt_tables r, rt_curve r) snapshots;
  orders ← list_at "orders.json" reports;
  '(t, l, closed_net) ← foldR (order_step schedules) (t, rt_ledger r, d0) orders;
  daily ← key "daily" o;
  realized ← number_at "realized" daily;
  require! deqb closed_net realized else "TRADE_RECONCILIATION";
  closing ← key "end" o;
  positions ← values_at "positions" closing;
  t ← foldR (open_step closing) t positions;
  rejections ← list_at "risk-rejections.json" reports;
  t ← foldR rejection_step t rejections;
  begun ← key "start" o;
  start ← number_at "equity" begun;
  end_ ← number_at "equity" closing;
  require! dltb d0 start else "INVALID_CAPITAL";
  net ← psub end_ start;
  ret ← pdiv net start;
  complete ← key "complete" o;
  entry ← day_row o start end_ net ret;
  Ok (mkReport t c l (rt_daily r ++ [entry]) (if truthy complete then rt_returns r ++ [ret] else rt_returns r)).

Definition days_loop (days : list json) (r : Report) (outcomes : list json) : res Report :=
  foldR (day_step days) r (zip (seq 0 (length outcomes)) outcomes).

(** ** Reconciliation *)

Definition table_total (f : Tally -> dec) (table : list (string * Tally)) : res dec := psum (f <$> table.*2).
Definition check_table (realized fees : dec) (table : list (string * Tally)) : res unit :=
  net ← table_total ta_net table;
  require! deqb net realized else "ATTRIBUTION_RECONCILIATION";
  paid ← table_total ta_fees table;
  raise_unless (deqb paid fees) "ATTRIBUTION_RECONCILIATION".

(** The totals of a report: fees, realized result. *)
Definition reconcile (outcomes : list json) (end_ : json) (r : Report) : res (dec * dec) :=
  daily ← mapR (fun o => d ← key "daily" o; number_at "fees" d) outcomes;
  fees ← psum daily;
  components ← psum (le_components (rt_ledger r)).*2;
  require! deqb components fees else "FEE_COMPONENT_RECONCILIATION";
  realized ← psum (le_trades (rt_ledger r));
  net ← number_at "cumulative_net" end_;
  require! deqb realized net else "CUMULATIVE_RECONCILIATION";
  paid ← number_at "cumulative_fees" end_;
  require! deqb fees paid else "CUMULATIVE_RECONCILIATION";
  _ ← check_table realized fees (tb_symbols (rt_tables r));
  _ ← check_table realized fees (tb_strategies (rt_tables r));
  Ok (fees, realized).

(** The first part of [_analyze], up to its last check. *)
Record Analysis := mkAnalysis {
  an_opening : dec; an_report : Report; an_end : json; an_fees : dec; an_realized : dec
}.
Definition analysis (universe : list string) (source : json) (outcomes : list json) : res Analysis :=
  first ← of_option IndexError (outcomes !! 0%nat);
  begun ← key "start" first;
  opening ← number_at "equity" begun;
  require! dltb d0 opening else "INVALID_CAPITAL";
  inputs ← key "input" source;
  days ← list_at "days" inputs;
  r ← days_loop days (start_report universe opening) outcomes;
  final ← of_option IndexError (last outcomes);
  end_ ← key "end" final;
  '(fees, realized) ← reconcile outcomes end_ r;
  Ok (mkAnalysis opening r end_ fees realized).
End orders.

(** ** The report *)

Definition tally_fields (t : Tally) : list (string * json) :=
  [("trades", JInt (ta_trades t)); ("wins", JInt (ta_wins t)); ("losses", JInt (ta_losses t)); ("gross", jdec (ta_gross t));
   ("fees", jdec (ta_fees t)); ("net", jdec (ta_net t)); ("turnover", jdec (ta_turnover t));
   ("rejected_signals", JInt (ta_rejected_signals t)); ("risk_rejections", JInt (ta_risk_rejections t));
   ("peak_cost_basis", jdec (ta_peak_cost_basis t)); ("halt_involvement", JInt (ta_halt_involvement t))]%string.
Definition table_row (opening : dec) (name_key : string) (x : string * Tally) : res json :=
  contribution ← pdiv (ta_net x.2) opening;
  let idle := coef (ta_turnover x.2) =? 0 in
  Ok (JObj ((name_key, JStr x.1) :: tally_fields x.2 ++
    [("contribution_to_opening_capital", jdec contribution);
     ("data_status", JStr (if idle then "NO_SIMULATED_TRADES" else "SYNTHETIC_OBSERVED"));
     ("slippage", unavailable "NO_SEPARATE_REFERENCE_PRICE_LEDGER")]))%string.
Definition table_rows (opening : dec) (table : list (string * Tally)) (name_key : string) : res json :=
  rows_ ← mapR (table_row opening name_key) table; Ok (JArr rows_).
Definition point_json (p : Point) : json :=
  JObj [("timestamp", pt_at p); ("equity", jdec (pt_equity p)); ("peak", jdec (pt_peak p)); ("drawdown", jdec (pt_drawdown p));
        ("drawdown_fraction", jdec (pt_fraction p))]%string.

(** [metric(total / n) if n else unavailable(reason)] *)
Definition ratio (total : res dec) (n : dec) (reason : string) : res json :=
  if coef n =? 0 then Ok (unavailable reason) else total ← total; v ← pdiv total n; Ok (metric v).
Definition length_of {A} (l : list A) : Z := Z.of_nat (length l).
Definition portfolio_section (a : Analysis) : res json :=
  let r := an_report a in
  equity_json ← key "equity" (an_end a);
  cash ← key "cash" (an_end a);
  equity ← number equity_json;
  net ← psub equity (an_opening a);
  growth ← pdiv equity (an_opening a);
  return_ ← psub growth (dZ 1);
  average ← ratio (psum (rt_returns r)) (dZ (length_of (rt_returns r))) "NO_COMPLETED_SESSION";
  Ok (JObj
    [("opening", jdec (an_opening a)); ("closing_equity", equity_json); ("closing_cash", cash); ("cumulative_net", jdec net);
     ("realized", jdec (an_realized a)); ("cumulative_return", jdec return_); ("peak_equity", jdec (cu_high (rt_curve r)));
     ("maximum_drawdown", jdec (cu_max_drawdown (rt_curve r))); ("drawdown_fraction", jdec (cu_max_fraction (rt_curve r)));
     ("winning_sessions", JInt (length_of (List.filter (fun v => dltb d0 v) (rt_returns r))));
     ("losing_sessions", JInt (length_of (List.filter (fun v => dltb v d0) (rt_returns r))));
     ("average_session_return", average);
     ("exposure_adjusted_return", unavailable "NO_TIME_WEIGHTED_EXPOSURE_CONTRACT")]%string).

Definition request_costs (day : json) : res (list json) := requests ← list_at "requests" day; mapR (key "costs") requests.
Definition cost_section (a : Analysis) (tariffs : list json) : res json :=
  let t := rt_tables (an_report a) in
  let l := rt_ledger (an_report a) in
  turnover ← table_total ta_turnover (tb_strategies t);
  average ← ratio (each ← mapR (fun x => psub (ta_gross x.2) (ta_net x.2)) (tb_strategies t); psum each)
              (dZ (length_of (le_trades l))) "NO_COMPLETED_TRADE";
  fraction ← ratio (Ok (an_fees a)) turnover "ZERO_TURNOVER";
  Ok (JObj
    [("fees", jdec (an_fees a)); ("turnover", jdec turnover); ("synthetic_tariff_configurations", JArr tariffs);
     ("tariff_hash", JStr (sha (canonical (JArr tariffs))));
     ("components", JObj ((fun x => (x.1, jdec x.2)) <$> le_components l));
     ("component_method", JStr "REUSED_FROZEN_TARIFF_QUOTE_RECONCILED_TO_ACCEPTED_FILLS");
     ("slippage", unavailable "NO_SEPARATE_REFERENCE_PRICE_LEDGER"); ("average_per_completed_trade", average);
     ("fraction_of_turnover", fraction)]%string).

Definition trades_section (a : Analysis) : res json :=
  let trades := le_trades (rt_ledger (an_report a)) in
  let wins := List.filter (fun v => dltb d0 v) trades in
  let losses := List.filter (fun v => dltb v d0) trades in
  let n := dZ (length_of trades) in
  win_rate ← ratio (Ok (dZ (length_of wins))) n "NO_TRADES";
  expectancy ← ratio (Ok (an_realized a)) n "NO_TRADES";
  profit_factor ← (if is_nil losses then Ok (unavailable "NO_LOSSES")
                   else gained ← psum wins; lost ← psum losses; lost ← dneg PRECISION lost; v ← pdiv gained lost; Ok (metric v));
  average_win ← ratio (psum wins) (dZ (length_of wins)) "NO_WINS";
  average_loss ← ratio (psum losses) (dZ (length_of losses)) "NO_LOSSES";
  Ok (JObj
    [("count", JInt (length_of trades)); ("wins", JInt (length_of wins)); ("losses", JInt (length_of losses));
     ("breakeven", JInt (length_of trades - length_of wins - length_of losses)); ("win_rate", win_rate);
     ("expectancy", expectancy); ("profit_factor", profit_factor); ("average_win", average_win);
     ("average_loss", average_loss)]%string).

Definition severe (a : json) : res bool :=
  severity ← key "severity" a; Ok (contains_json [JStr "ERROR"; JStr "CRITICAL"]%string severity).
Definition reason_counts (alerts : list json) : res (list (string * json)) :=
  reasons ← mapR (text_at "reason") alerts;
  Ok ((fun reason => (reason, JInt (length_of (List.filter (fun s => bool_decide (s = reason)) reasons)))) <$>
      sort_by String.leb (remove_dups reasons)).
Definition monitoring_section (a : Analysis) (alerts days outcomes : list json) (acknowledgments : json) : res json :=
  counts ← reason_counts alerts;
  incidents ← filterR severe alerts;
  acknowledged ← key "acknowledged" acknowledgments;
  halted ← key "halted" (an_end a);
  flags ← mapR (key "complete") outcomes;
  rate ← pdiv (dZ (length_of (List.filter truthy flags))) (dZ (length_of days));
  Ok (JObj
    [("effectiveness", JStr "NOT_EVALUATED"); ("reason", JStr "NO_INDEPENDENT_GROUND_TRUTH");
     ("generated_alerts", JInt (length_of alerts)); ("observed_reason_counts", JObj counts); ("duplicate_alerts", JInt 0);
     ("expected_alerts", JNull); ("missed_alerts", JNull); ("false_positives", JNull); ("false_negatives", JNull);
     ("detection_delay", JNull); ("acknowledgment_delay", JNull); ("resolution_delay", JNull); ("acknowledged", acknowledged);
     ("acknowledgment_evidence", acknowledgments); ("detected_incidents", JInt (length_of incidents));
     ("resolved_incidents", JInt 0); ("unresolved_incidents", JInt (length_of incidents)); ("halted", halted);
     ("incomplete_sessions", JInt (length_of (List.filter (fun v => negb (truthy v)) flags)));
     ("unprocessed_sessions", JInt (length_of days - length_of outcomes)); ("completion_rate", jdec rate)]%string).
Definition recovery_section (c : Curve) : json :=
  let pending := match cu_recovery_start c with Some v => truthy v | None => false end in
  JObj
    [("local_outcome_replay", JStr "IDENTICAL"); ("independently_rollback_resistant", JBool false);
     ("production_durability", JStr "NOT_EVALUATED"); ("recovered_drawdowns", JArr (cu_recovered c));
     ("unresolved_drawdown_since", default JNull (cu_recovery_start c));
     ("recovery_duration", JStr (if pending then "NOT_COMPUTABLE_UNRECOVERED" else "SEE_OBSERVED_RECOVERY_INTERVALS"))]%string.

Definition policy_bindings (inputs : json) (days : list json) : res json :=
  control ← key "control" inputs;
  risk ← key "policy_hash" control;
  policy ← key "policy" inputs;
  risk_version ← key "fingerprint_version" policy;
  day ← of_option IndexError (days !! 0%nat);
  config ← key "config" day;
  execution ← key "execution_hash" config;
  execution_version ← key "execution_version" config;
  Ok (JObj [("risk", risk); ("risk_version", risk_version); ("execution", execution);
            ("execution_version", execution_version)]%string).
(** [outcomes[-1]["reports"]["session-events.json"][-1]["timestamp"]] *)
Definition closing_time (outcomes : list json) : res json :=
  final ← of_option IndexError (last outcomes);
  reports ← key "reports" final;
  events ← list_at "session-events.json" reports;
  event ← of_option IndexError (last events);
  key "timestamp" event.
Definition acknowledgments_of (source : json) : res (list json) :=
  fields ← fields_of source;
  match find fields "acknowledgments"%string with Some v => elements_of v | None => Ok [] end.
Definition METRICS : json :=
  JObj [("version", JStr "Phase1421DescriptiveMetrics.v1"); ("frequency", JStr "completed_session");
        ("minimum_sessions", JInt 30); ("annual_sessions", JInt 252); ("annual_risk_free", JStr "0");
        ("scope", JStr "SYNTHETIC_ASSUMPTIONS_NOT_QUALIFICATION_POLICY")]%string.

Section report.
Context `{ReadJson IntradayCostSchedule}.
(** The risk ratios, the inventory of the software, and the frozen qualification policy. *)
Context (risk_metrics : list dec -> bool -> dec -> res json) (analytics_inventory qualification : json).
Context (universe : list string).

Definition analysis_report (source : json) (outcomes : list json) (fingerprint : string) : res json :=
  a ← analysis universe source outcomes;
  let r := an_report a in
  summary ← key "summary" source;
  alerts ← list_at "alerts" summary;
  rows_ ← acknowledgments_of source;
  acknowledgments ← acknowledgment_view alerts rows_;
  at_ ← closing_time outcomes;
  complete_json ← key "complete" summary;
  let complete := truthy complete_json in
  let ready := readiness at_ (JStr fingerprint) complete in
  inputs ← key "input" source;
  days ← list_at "days" inputs;
  tariffs ← mapR request_costs days;
  bindings ← policy_bindings inputs days;
  portfolio ← portfolio_section a;
  by_strategy ← table_rows (an_opening a) (tb_strategies (rt_tables r)) "strategy_id";
  by_symbol ← table_rows (an_opening a) (tb_symbols (rt_tables r)) "symbol";
  cost ← cost_section a (concat tariffs);
  adjusted ← risk_metrics (rt_returns r) complete (cu_max_fraction (rt_curve r));
  trades ← trades_section a;
  monitoring ← monitoring_section a alerts days outcomes acknowledgments;
  Ok (JObj
    [("schema", JStr SCHEMA); ("scope", JStr "SYNTHETIC_FIXTURE"); ("source_hash", JStr fingerprint);
     ("software_hash", JStr (sha (canonical analytics_inventory))); ("metric_policy", METRICS);
     ("metric_policy_hash", JStr (sha (canonical METRICS))); ("qualification_policy", qualification);
     ("qualification_policy_hash", JStr (sha (canonical qualification))); ("family_size", JInt 13380);
     ("genuine_qualified", JInt 0); ("qualification_comparison", JStr "NOT_COMPARABLE_SYNTHETIC");
     ("policy_bindings", bindings); ("portfolio", portfolio); ("daily", JArr (rt_daily r));
     ("equity_drawdown", JArr (point_json <$> cu_points (rt_curve r))); ("strategy_attribution", by_strategy);
     ("symbol_attribution", by_symbol); ("cost", cost); ("risk_adjusted", adjusted); ("trades", trades);
     ("monitoring", monitoring); ("recovery", recovery_section (rt_curve r)); ("readiness", JObj ready);
     ("gaps", JArr ((fun x => match x.2 with JObj l => JObj (("category", JStr x.1) :: l) | v => v end) <$> ready));
     ("Gate_A", JStr "NOT_AUTHORIZED"); ("Gate_B", JStr "NOT_AUTHORIZED"); ("operational", JStr "NO_GO")]%string).

Definition analyze (validated : json -> res (list json)) (source : json) (expected_hash : string) : res json :=
  require! bool_decide (sha (canonical source) = expected_hash) else "SOURCE_HASH";
  require! Z.of_nat (length (canonical source)) <=? FILE_LIMIT else "INPUT_BUDGET";
  outcomes ← validated source;
  analysis_report source outcomes expected_hash.
End report.
