(* ===== verification/Quality.v ===== *)
(** * Execution quality ([phase1423/quality.py])

    The fills of a validated run are compared with reference prices that were available
    when the decision was taken.  A reference is accepted when its identifiers are unique,
    its contract and causality hold and it is linked to an accepted fill; the measured
    costs are summed by strategy and by symbol.

    [Reference.model_validate] is the class [ReadJson], which stands for the fields and
    their constraints, followed by the validator [verify]; a [ValidationError] is the
    [ValueError] it derives from. *)
From S2P Require Import Prelude Decimal DecimalFacts Text Dataset Costs Phase14 Strategies Execution Json JsonFacts JsonRead CanonicalPolicy Research Exec Qualification Chain PyText Paper.
From S2P Require Import Portfolio PortfolioRun Scheduler Multi Analytics Attribution.
From Stdlib Require Import Ascii.
Open Scope list_scope.
Open Scope Z_scope.

Definition POLICY : json :=
  JObj [("version", JStr "Phase1423DecisionQuote.v1"); ("scope", JStr "SYNTHETIC_FIXTURE");
        ("reference_type", JStr "CAUSAL_DECISION_QUOTE"); ("cutoff", JStr "ACCEPTED_FILL_DECISION");
        ("buy", JStr "(fill-reference)*quantity"); ("sell", JStr "(reference-fill)*quantity"); ("positive", JStr "ADVERSE");
        ("bps", JStr "signed_per_share/reference*10000"); ("executable_liquidity_claim", JBool false);
        ("additional_cash_charge", JBool false); ("post_trade_benchmark", JStr "REJECTED_BY_CAUSAL_CONVENTION")]%string.
Definition LIMIT : Z := 50000.

(** ** Fills and references *)

Record Fill := mkFill {
  fl_fill_id : string; fl_run_id : string; fl_session_date : Z; fl_symbol : string; fl_strategy_id : string;
  fl_side : Side; fl_price : dec; fl_at : Z; fl_cutoff : Z; fl_quantity : Z; fl_fees : dec; fl_cash_delta : dec;
  fl_event_hash : string
}.
(** The constraints of the fields of [Fill], whose construction validates them. *)
Definition fill_validate (f : Fill) : res Fill :=
  price ← parse_decimal (fl_price f);
  fees ← parse_decimal (fl_fees f);
  require! hash_ok (fl_fill_id f) && hash_ok (fl_run_id f) && hash_ok (fl_event_hash f) &&
           negb (bool_decide (fl_symbol f = ""%string)) && bool_decide (fl_strategy_id f ∈ strategy_names) &&
           dltb d0 price && (0 <? fl_quantity f) && dleb d0 fees else "INVALID_FIELD";
  Ok (mkFill (fl_fill_id f) (fl_run_id f) (fl_session_date f) (fl_symbol f) (fl_strategy_id f) (fl_side f) price (fl_at f)
        (fl_cutoff f) (fl_quantity f) fees (fl_cash_delta f) (fl_event_hash f)).

Record Reference := mkReference {
  rf_policy_hash : string; rf_evidence_id : string; rf_run_id : string; rf_session_date : Z; rf_symbol : string;
  rf_strategy_id : string; rf_fill_id : string; rf_side : Side; rf_price : dec; rf_observed_at : Z; rf_available_at : Z;
  rf_cutoff : Z; rf_fill_price : dec; rf_fill_at : Z; rf_quantity : Z; rf_fingerprint : string
}.

Section reference.
Context `{DumpJson Reference} `{ReadJson Reference}.

(** [self.model_dump(mode="json", exclude={"fingerprint"})] *)
Definition unsealed (r : Reference) : json :=
  match model_dump_json_value r with JObj l => JObj (without "fingerprint" l) | v => v end.
Definition verify (r : Reference) : res Reference :=
  require! bool_decide (rf_policy_hash r = sha (canonical POLICY)) else "MEASUREMENT_POLICY_MISMATCH";
  require! (rf_observed_at r <=? rf_available_at r) && (rf_available_at r <=? rf_cutoff r) && (rf_cutoff r <=? rf_fill_at r)
    else "REFERENCE_NOT_CAUSALLY_AVAILABLE";
  require! (nse_date (rf_fill_at r) =? rf_session_date r) && (nse_date (rf_observed_at r) =? rf_session_date r)
    else "REFERENCE_SESSION";
  require! bool_decide (rf_fingerprint r = sha (canonical (unsealed r))) else "REFERENCE_FINGERPRINT";
  Ok r.
Definition validate_reference (v : json) : res Reference := r ← model_validate v; verify r.

Definition seal_reference (values : list (string * json)) : list (string * json) :=
  let body := discard values "fingerprint"%string in
  store body "fingerprint"%string (JStr (sha (canonical (JObj body)))).
Definition side_text (s : Side) : string := match s with BUY => "BUY" | SELL => "SELL" end.
Definition fixture_reference (f : Fill) (price : dec) : res json :=
  require! dltb d0 price else "INVALID_REFERENCE_PRICE";
  let at_ t := JStr (instant_text t) in
  let body :=
    [("schema_version", JStr "Phase1423Reference.v1"); ("policy_hash", JStr (sha (canonical POLICY)));
     ("evidence_id", JStr (sha (canonical (JObj [("fill_id", JStr (fl_fill_id f)); ("policy", POLICY)]))));
     ("run_id", JStr (fl_run_id f)); ("session_date", JStr (date_text (fl_session_date f))); ("symbol", JStr (fl_symbol f));
     ("strategy_id", JStr (fl_strategy_id f)); ("fill_id", JStr (fl_fill_id f)); ("side", JStr (side_text (fl_side f)));
     ("reference_type", JStr "CAUSAL_DECISION_QUOTE"); ("reference_price", jdec price); ("observed_at", at_ (fl_cutoff f));
     ("available_at", at_ (fl_cutoff f)); ("measurement_cutoff", at_ (fl_cutoff f)); ("fill_price", jdec (fl_price f));
     ("fill_at", at_ (fl_at f)); ("quantity", JInt (fl_quantity f)); ("source", JStr "SYNTHETIC_FIXTURE")]%string in
  r ← validate_reference (JObj (seal_reference body));
  Ok (model_dump_json_value r).
End reference.

(** ** The fills of a validated run *)

(** The orders of a report, by [order_id]. *)
Definition orders_by_id (reports : json) : res (list (string * json)) :=
  orders ← list_at "orders.json" reports;
  foldR (fun d o => id ← text_at "order_id" o; Ok (store d id o)) [] orders.
Definition session_events (reports : json) : res (list json) :=
  rows_ ← list_at "session-events.json" reports;
  events ← mapR (list_at "portfolio_events") rows_;
  Ok (concat events).

(** The fill of an event that is the entry or the exit of an order. *)
Definition fill_of (outcome : json) (orders : list (string * json)) (e : json) (buy : bool) : res Fill :=
  id ← text_at "order_id" e;
  order ← of_option KeyError (find orders id);
  details ← key "details" e;
  price ← amount_at "price" details;
  quantity_json ← key "quantity" order;
  quantity ← match quantity_json with JInt n => Ok n | _ => Err TypeError end;
  fees ← amount_at "fees" e;
  linked ← amount_at (if buy then "entry" else "exit") order;
  require! deqb price linked else "ACCEPTED_FILL_LINK";
  stamp_ ← key "timestamp" e;
  _ ← expect "ACCEPTED_FILL_LINK" (if buy then "entry_at" else "exit_at") order stamp_;
  at_ ← instant_at "timestamp" e;
  cutoff ← (if buy then timing ← key "timing" details; instant_at "data_availability_cutoff" timing else Ok at_);
  require! cutoff =? at_ else "UNSUPPORTED_EXECUTION_CUTOFF";
  value ← pmul price (dZ quantity);
  cash ← (if buy then paid ← padd value fees; dneg PRECISION paid else psub value fees);
  delta ← amount_at "cash_delta" e;
  require! deqb cash delta else "ACCEPTED_CASH_RECONCILIATION";
  event_id ← text_at "event_id" e;
  binding ← key "binding" outcome;
  run_id ← text_at "run_id" binding;
  symbol ← text_at "symbol" e;
  strategy ← text_at "strategy_id" e;
  hash ← text_at "current_hash" e;
  fill_validate
    (mkFill event_id run_id (nse_date at_) symbol strategy (if buy then BUY else SELL) price at_ cutoff quantity fees cash hash).

(** The fills so far and the identifiers of the events. *)
Record Accepted := mkAccepted { ac_fills : list Fill; ac_events : list json }.
Definition event_step (outcome : json) (orders : list (string * json)) (s : Accepted) (e : json) : res Accepted :=
  id ← key "event_id" e;
  reject! contains_json (ac_events s) id as "DUPLICATE_ACCEPTED_EVENT";
  let events := ac_events s ++ [id] in
  state ← key "state" e;
  if negb (contains_json [JStr "FILLED"; JStr "CLOSED"]%string state) then Ok (mkAccepted (ac_fills s) events)
  else
    f ← fill_of outcome orders e (same state (JStr "FILLED"));
    let fills := ac_fills s ++ [f] in
    require! length_of fills <=? LIMIT else "FILL_BUDGET";
    Ok (mkAccepted fills events).
Definition outcome_step (s : Accepted) (outcome : json) : res Accepted :=
  reports ← key "reports" outcome;
  orders ← orders_by_id reports;
  events ← session_events reports;
  foldR (event_step outcome orders) s events.
Definition accepted_fills (validated : json -> res (list json)) (source : json) (expected_hash : string) : res (list Fill) :=
  require! bool_decide (sha (canonical source) = expected_hash) else "SOURCE_HASH";
  require! Z.of_nat (length (canonical source)) <=? FILE_LIMIT else "SOURCE_LIMIT";
  outcomes ← validated source;
  s ← foldR outcome_step (mkAccepted [] []) outcomes;
  require! bool_decide (NoDup (fl_fill_id <$> ac_fills s)) else "DUPLICATE_FILL";
  Ok (ac_fills s).

(** ** Measurement *)

Record Measure := mkMeasure { me_signed : dec; me_absolute : dec; me_per_share : dec; me_bps : dec }.
Definition linked (f : Fill) (r : Reference) : bool :=
  bool_decide (rf_run_id r = fl_run_id f) && (rf_session_date r =? fl_session_date f) &&
  bool_decide (rf_symbol r = fl_symbol f) && bool_decide (rf_strategy_id r = fl_strategy_id f) &&
  bool_decide (rf_fill_id r = fl_fill_id f) && bool_decide (rf_side r = fl_side f) && deqb (rf_fill_price r) (fl_price f) &&
  (rf_fill_at r =? fl_at f) && (rf_quantity r =? fl_quantity f) && (rf_cutoff r =? fl_cutoff f).
Definition measure (f : Fill) (r : Reference) : res Measure :=
  require! linked f r else "FILL_LINKAGE_MISMATCH";
  delta ← psub (fl_price f) (rf_price r);
  delta ← (match fl_side f with SELL => dneg PRECISION delta | BUY => Ok delta end);
  signed ← pmul delta (dZ (fl_quantity f));
  absolute ← dabs PRECISION signed;
  fraction ← pdiv delta (rf_price r);
  bps ← pmul fraction (dZ 10000);
  Ok (mkMeasure signed absolute delta bps).

(** ** The text of any value: [str] *)

(** [repr] of a string: between single quotes, unless it contains one and no double quote. *)
Definition repr_char (q : ascii) (c : ascii) : bytes :=
  if bool_decide (c = q) || is_char 92 c then [backslash; c]
  else if is_char 9 c then [backslash; "t"%char]
  else if is_char 10 c then [backslash; "n"%char]
  else if is_char 13 c then [backslash; "r"%char]
  else if in_range 32 126 c || (in_range 161 255 c && negb (is_char 173 c)) then [c]
  else backslash :: "x"%char :: [Sha256.hex_digit (code c / 16); Sha256.hex_digit (code c mod 16)].
Definition squote : ascii := ascii_of_N 39.
Definition repr_string (s : string) : bytes :=
  let l := text s in
  let q := if existsb (is_char 39) l && negb (existsb (is_char 34) l) then dquote else squote in
  q :: (l ≫= repr_char q) ++ [q].
(** [", ".join(items)] *)
Definition spaced (items : list bytes) : bytes :=
  match items with [] => [] | x :: items => x ++ (items ≫= fun y => ","%char :: " "%char :: y) end.
Fixpoint repr_value (v : json) : bytes :=
  match v with
  | JNull => text "None"
  | JBool true => text "True"
  | JBool false => text "False"
  | JInt n => text (int_text n)
  | JStr s => repr_string s
  | JArr l => "["%char :: spaced (List.map repr_value l) ++ ["]"%char]
  | JObj l => "{"%char :: spaced (List.map (fun x => repr_string x.1 ++ ":"%char :: " "%char :: repr_value x.2) l) ++ ["}"%char]
  end.
Definition py_str (v : json) : string := match v with JStr s => s | _ => String.string_of_list_ascii (repr_value v) end.
(** [str(r.get(k))] *)
Definition text_of (k : string) (r : list (string * json)) : string := py_str (default JNull (find r k)).

(** ** Attribution *)

Section attribution.
Context `{DumpJson Reference} `{ReadJson Reference} `{DumpJson Fill}.
Context (universe : list string).

(** What becomes of a record. *)
Inductive Verdict :=
| Measured (r : Reference) (m : Measure)
| Refused (reason : string).
Definition occurrences (k : string) (records : list (list (string * json))) (s : string) : nat :=
  length (List.filter (fun r => bool_decide (text_of k r = s)) records).
Definition judge (fills : list Fill) (records : list (list (string * json))) (raw : list (string * json)) : res Verdict :=
  if negb (Nat.eqb (occurrences "evidence_id" records (text_of "evidence_id" raw)) 1)
  then Ok (Refused "DUPLICATE_REFERENCE_ID")
  else if negb (Nat.eqb (occurrences "fill_id" records (text_of "fill_id" raw)) 1)
  then Ok (Refused "DUPLICATE_FILL_ATTRIBUTION")
  else
    match validate_reference (JObj raw) with
    | Err (ValueError _) => Ok (Refused "INVALID_REFERENCE_CONTRACT_OR_CAUSALITY")
    | Err e => Err e
    | Ok r =>
        match List.find (fun f => bool_decide (fl_fill_id f = rf_fill_id r)) fills with
        | None => Ok (Refused "UNKNOWN_FILL_ID")
        | Some f =>
            match measure f r with
            | Ok m => Ok (Measured r m)
            | Err (ValueError reason) => Ok (Refused reason)
            | Err e => Err e
            end
        end
    end.

(** The accepted measurements by fill, and the rejections. *)
Record Judged := mkJudged { ju_accepted : list (string * (Reference * Measure)); ju_rejected : list (string * string) }.
Definition judge_step (fills : list Fill) (records : list (list (string * json))) (s : Judged) (raw : list (string * json))
    : res Judged :=
  v ← judge fills records raw;
  match v with
  | Measured r m => Ok (mkJudged (store (ju_accepted s) (rf_fill_id r) (r, m)) (ju_rejected s))
  | Refused reason =>
      Ok (mkJudged (ju_accepted s) (ju_rejected s ++ [(sha (canonical (JObj raw)), reason)]))
  end.
(** [sorted(records, key=canonical)]: bytes are compared as numbers. *)
Definition bytes_le (a b : bytes) : bool := String.leb (String.string_of_list_ascii a) (String.string_of_list_ascii b).
Definition by_text : list (list (string * json)) -> list (list (string * json)) :=
  sort_by (fun a b => bytes_le (canonical (JObj a)) (canonical (JObj b))).
Definition classify (fills : list Fill) (records : list (list (string * json))) : res Judged :=
  foldR (judge_step fills records) (mkJudged [] []) (by_text records).

(** The sums over a selection of the fills. *)
Record Summary := mkSummary {
  su_accepted : Z; su_measured : Z; su_complete : bool; su_signed : dec; su_absolute : dec; su_coverage : option dec;
  su_fees : dec; su_cash : dec
}.
Definition measured_of (accepted : list (string * (Reference * Measure))) (selected : list Fill) : list Measure :=
  omap (fun f => snd <$> find accepted (fl_fill_id f)) selected.
Definition summary (accepted : list (string * (Reference * Measure))) (selected : list Fill) : res Summary :=
  let measured := measured_of accepted selected in
  let covered := length_of measured in
  signed ← psum (me_signed <$> measured);
  absolute ← psum (me_absolute <$> measured);
  coverage ← (if is_nil selected then Ok None else c ← pdiv (dZ covered) (dZ (length_of selected)); Ok (Some c));
  fees ← psum (fl_fees <$> selected);
  cash ← psum (fl_cash_delta <$> selected);
  Ok (mkSummary (length_of selected) covered (negb (is_nil selected) && (covered =? length_of selected)) signed absolute
        coverage fees cash).
Definition su_status (s : Summary) : string :=
  if su_complete s then "COMPUTED" else if su_measured s =? 0 then "NOT_COMPUTABLE" else "PARTIAL".
Definition summary_fields (s : Summary) : list (string * json) :=
  let when_ (b : bool) (d : dec) : json := if b then jdec d else JNull in
  let uncovered := su_accepted s - su_measured s in
  let covered := negb (su_measured s =? 0) in
  [("accepted_fills", JInt (su_accepted s)); ("measured_fills", JInt (su_measured s)); ("not_computable", JInt uncovered);
   ("status", JStr (su_status s)); ("signed_total", when_ (su_complete s) (su_signed s));
   ("absolute_total", when_ (su_complete s) (su_absolute s)); ("measured_subset_signed", when_ covered (su_signed s));
   ("measured_subset_absolute", when_ covered (su_absolute s)); ("coverage", jopt jdec (su_coverage s));
   ("fees", jdec (su_fees s)); ("cash_delta", jdec (su_cash s)); ("slippage_added_to_cash", JStr "0")]%string.

Definition table_of (accepted : list (string * (Reference * Measure))) (fills : list Fill) (name : Fill -> string)
    (names : list string) : res (list (string * Summary)) :=
  mapR (fun s => x ← summary accepted (List.filter (fun f => bool_decide (name f = s)) fills); Ok (s, x)) names.
(** The sums of a column are those of the portfolio; the totals of the
    measured fills are absent, and count as zero, where none is measured. *)
Definition adds_up (value : Summary -> dec) (table : list (string * Summary)) (portfolio : Summary) : res unit :=
  total ← psum (value <$> table.*2);
  raise_unless (deqb total (value portfolio)) "ATTRIBUTION_RECONCILIATION".
Definition when_covered (value : Summary -> dec) (s : Summary) : dec := if su_measured s =? 0 then d0 else value s.
Definition check_rows (portfolio : Summary) (table : list (string * Summary)) : res unit :=
  _ ← adds_up (when_covered su_absolute) table portfolio;
  _ ← adds_up su_fees table portfolio;
  _ ← adds_up su_cash table portfolio;
  _ ← adds_up (when_covered su_signed) table portfolio;
  raise_unless (foldr Z.add 0 (su_measured <$> table.*2) =? su_measured portfolio) "COVERAGE_RECONCILIATION".

Definition measure_fields (x : Reference * Measure) : json :=
  JObj [("evidence", model_dump_json_value x.1); ("signed", jdec (me_signed x.2)); ("absolute", jdec (me_absolute x.2));
        ("per_share", jdec (me_per_share x.2)); ("bps", jdec (me_bps x.2))]%string.
Definition ledger_row (accepted : list (string * (Reference * Measure))) (f : Fill) : json :=
  let measurement := find accepted (fl_fill_id f) in
  JObj [("fill", model_dump_json_value f);
        ("status", JStr (match measurement with Some _ => "COMPUTED" | None => "NOT_COMPUTABLE" end));
        ("measurement", jopt measure_fields measurement)]%string.

(** The result of [attribute], and its text. *)
Record Attributed := mkAttributed {
  at_judged : Judged; at_portfolio : Summary; at_strategies : list (string * Summary); at_symbols : list (string * Summary)
}.
Definition attribution (fills : list Fill) (records : list (list (string * json))) : res Attributed :=
  require! (length_of fills <=? LIMIT) && (length_of records <=? LIMIT) else "MEASUREMENT_BUDGET";
  require! bool_decide (NoDup (fl_fill_id <$> fills)) else "DUPLICATE_FILL";
  require! forallb (fun f => bool_decide (fl_symbol f ∈ universe)) fills else "UNKNOWN_SYMBOL";
  judged ← classify fills records;
  let accepted := ju_accepted judged in
  portfolio ← summary accepted fills;
  strategies ← table_of accepted fills fl_strategy_id strategy_names;
  symbols ← table_of accepted fills fl_symbol universe;
  _ ← check_rows portfolio strategies;
  _ ← check_rows portfolio symbols;
  Ok (mkAttributed judged portfolio strategies symbols).
Definition table_json_rows (name : string) (table : list (string * Summary)) : json :=
  JArr ((fun x => JObj ((name, JStr x.1) :: summary_fields x.2)) <$> table).
Definition attribute (fills : list Fill) (records : list (list (string * json))) : res (list (string * json)) :=
  a ← attribution fills records;
  let accepted := ju_accepted (at_judged a) in
  Ok [("reference_evidence_ledger", JArr ((fun x => model_dump_json_value x.2.1) <$> by_key accepted));
      ("fill_coverage", JArr (ledger_row accepted <$> fills));
      ("strategy_slippage", table_json_rows "strategy_id" (at_strategies a));
      ("symbol_slippage", table_json_rows "symbol" (at_symbols a));
      ("portfolio", JObj (summary_fields (at_portfolio a)));
      ("rejections", JArr ((fun x => JObj [("input_hash", JStr x.1); ("reason", JStr x.2)]) <$> ju_rejected (at_judged a)));
      ("policy", POLICY); ("policy_hash", JStr (sha (canonical POLICY))); ("scope", JStr "SYNTHETIC_FIXTURE");
      ("executable_reference_claim", JBool false); ("Gate_A", JStr "NOT_AUTHORIZED"); ("Gate_B", JStr "NOT_AUTHORIZED");
      ("genuine_qualified", JInt 0); ("operational", JStr "NO_GO")]%string.

Definition assess (validated : json -> res (list json)) (quality_inventory source : json) (expected_hash : string)
    (references : list (list (string * json))) : res json :=
  fills ← accepted_fills validated source expected_hash;
  result ← attribute fills references;
  let header :=
    [("schema", JStr "Phase1423ExecutionQuality.v1"); ("source_hash", JStr expected_hash);
     ("accepted_fill_hash", JStr (sha (canonical (JArr (model_dump_json_value <$> fills)))));
     ("reference_input_hash", JStr (sha (canonical (JArr (JObj <$> by_text references)))));
     ("software_hash", JStr (sha (canonical quality_inventory)))]%string in
  Ok (JObj (header ++ result)).
End attribution.
