(* ===== verification/QualityFacts.v ===== *)
(** * Facts on execution quality

    Sorting by canonical text, counting records, and the loop that accepts or rejects
    each of them. *)
From S2P Require Import Prelude Decimal DecimalFacts Text Dataset Costs Phase14 Strategies Execution Json JsonFacts JsonRead CanonicalPolicy Research Exec Qualification Chain PyText Paper.
From S2P Require Import Errors Portfolio PortfolioRun Scheduler Multi MultiFacts Analytics Attribution Quality.
From S2P Require Import MoneyFacts.
From Stdlib Require Import Ascii Qround.
Open Scope list_scope.
Open Scope Z_scope.

(** ** The order of texts *)

Lemma leb_cons a s b t : String.leb (String a s) (String b t) =
  match N.compare (N_of_ascii a) (N_of_ascii b) with Eq => String.leb s t | Lt => true | Gt => false end.
Proof. unfold String.leb. cbn. unfold Ascii.compare. by destruct (N.compare _ _). Qed.
Lemma leb_trans a b c : String.leb a b = true -> String.leb b c = true -> String.leb a c = true.
Proof.
  revert b c. induction a as [|x a IH]; intros [|y b] [|z c]; try done. rewrite !leb_cons.
  destruct (N.compare_spec (N_of_ascii x) (N_of_ascii y)) as [Exy|Exy|Exy],
    (N.compare_spec (N_of_ascii y) (N_of_ascii z)) as [Eyz|Eyz|Eyz], (N.compare_spec (N_of_ascii x) (N_of_ascii z));
    intros; try done; try lia. by eapply IH.
Qed.
Lemma bytes_le_total a b : bytes_le a b = true \/ bytes_le b a = true.
Proof. apply String.leb_total. Qed.
Lemma bytes_le_trans a b c : bytes_le a b = true -> bytes_le b c = true -> bytes_le a c = true.
Proof. apply leb_trans. Qed.
Lemma bytes_le_antisym a b : bytes_le a b = true -> bytes_le b a = true -> a = b.
Proof.
  intros E1 E2. pose proof (String.leb_antisym _ _ E1 E2) as E. apply (f_equal String.list_ascii_of_string) in E.
  by rewrite !String.list_ascii_of_string_of_list_ascii in E.
Qed.

(** Permuted lists, sorted by canonical text, have the same texts in the same places. *)
Notation fields := (list (string * json)).
Definition same_text (a b : fields) : Prop := canonical (JObj a) = canonical (JObj b).
Lemma by_text_perm l : by_text l ≡ₚ l.
Proof. apply sort_by_perm. Qed.
Lemma sorted_texts (l : list fields) :
  StronglySorted (fun x y => bytes_le x y = true) ((fun r => canonical (JObj r)) <$> by_text l).
Proof.
  assert (S1 : StronglySorted (fun x y : fields => bytes_le (canonical (JObj x)) (canonical (JObj y)) = true) (by_text l)).
  { apply sort_by_sorted; [intros; apply bytes_le_total|intros x y z; apply bytes_le_trans]. }
  induction S1 as [|x l' S1 IH Hx]; cbn; constructor; [exact IH|]. by apply Forall_fmap.
Qed.
Lemma by_text_same l l' : l ≡ₚ l' -> Forall2 same_text (by_text l) (by_text l').
Proof.
  intros Hp. assert (E : (fun r => canonical (JObj r)) <$> by_text l = (fun r => canonical (JObj r)) <$> by_text l').
  { apply (StronglySorted_unique_strong (fun x y => bytes_le x y = true)); [|apply sorted_texts..|].
    - intros x y _ _. apply bytes_le_antisym.
    - by rewrite !by_text_perm, Hp. }
  revert E. generalize (by_text l) (by_text l'). clear. induction l as [|x l IH]; intros [|y k] E; try discriminate E; [constructor|].
  rewrite !fmap_cons in E. pose proof (f_equal (fun t => t !! 0%nat) E) as Ex. apply (f_equal tail) in E.
  constructor; [by apply Some_inj in Ex|by apply IH].
Qed.

(** ** Counting *)

Lemma filter_perm {A} (p : A -> bool) l l' : l ≡ₚ l' -> List.filter p l ≡ₚ List.filter p l'.
Proof.
  induction 1 as [|x l l' _ IH|x y l|]; cbn; [done| | |by etrans].
  - destruct (p x); [by constructor|done].
  - destruct (p x), (p y); try done. constructor.
Qed.
Lemma occurrences_perm k l l' s : l ≡ₚ l' -> occurrences k l s = occurrences k l' s.
Proof. intros Hp. unfold occurrences. by rewrite (filter_perm _ _ _ Hp). Qed.
(** A text that occurs once has no second record. *)
Lemma occurrences_once k pre x mid y post s :
  occurrences k (pre ++ x :: mid ++ y :: post) s = 1%nat -> text_of k x = s -> text_of k y = s -> False.
Proof.
  unfold occurrences. intros E Hx Hy. rewrite List.filter_app in E. cbn in E. rewrite List.filter_app in E. cbn in E.
  rewrite Hx, Hy, !bool_decide_true in E by done. rewrite length_app in E. cbn in E. rewrite length_app in E. cbn in E. lia.
Qed.

(** A record whose identifiers are not lists or dictionaries. *)
Definition scalar (v : json) : bool := match v with JArr _ | JObj _ => false | _ => true end.
Definition plain (r : fields) : Prop :=
  scalar (default JNull (find r "evidence_id"%string)) = true /\ scalar (default JNull (find r "fill_id"%string)) = true.
Lemma norm_scalar v : scalar v = true -> norm v = v.
Proof. by destruct v. Qed.
Lemma scalar_norm v : scalar (norm v) = scalar v.
Proof. by destruct v. Qed.
Lemma same_text_key a b k : same_text a b -> norm <$> key k (JObj a) = norm <$> key k (JObj b).
Proof. intros E%canonical_inj. by rewrite <- !key_norm, E. Qed.
Lemma same_text_find a b k : same_text a b -> norm (default JNull (find a k)) = norm (default JNull (find b k)).
Proof.
  intros E. pose proof (same_text_key a b k E) as Ek. cbn in Ek. destruct (find a k), (find b k); cbn in *; by try injection Ek.
Qed.
Lemma same_text_text a b k : same_text a b -> scalar (default JNull (find a k)) = true -> text_of k a = text_of k b.
Proof.
  intros E Ha. pose proof (same_text_find a b k E) as Ek. unfold text_of.
  assert (Hb : scalar (default JNull (find b k)) = true) by (by rewrite <- scalar_norm, <- Ek, scalar_norm).
  rewrite !norm_scalar in Ek by done. by rewrite Ek.
Qed.

(** ** What the library promises on references

    The order of the fields of a dictionary does not matter; an identifier is the string
    that the dictionary holds; a rejection is a [ValidationError], a [ValueError]. *)
Class ReadsReference `{reader : ReadJson Reference} := {
  reads_norm v : model_validate (A := Reference) (norm v) = model_validate v;
  reads_evidence l r : model_validate (JObj l) = Ok r -> find l "evidence_id"%string = Some (JStr (rf_evidence_id r));
  reads_fill l r : model_validate (JObj l) = Ok r -> find l "fill_id"%string = Some (JStr (rf_fill_id r));
  reads_error v e : model_validate (A := Reference) v = Err e -> exists msg, e = ValueError msg
}.

Section classification.
Context `{DumpJson Reference} `{ReadsReference}.
Implicit Types (fills : list Fill) (records : list fields) (raw : fields).

Lemma same_reference a b : same_text a b -> validate_reference (JObj a) = validate_reference (JObj b).
Proof. unfold validate_reference. intros E%canonical_inj. by rewrite <- (reads_norm (JObj a)), E, reads_norm. Qed.
Lemma judge_same fills records records' a b : records ≡ₚ records' -> plain a -> same_text a b ->
  judge fills records a = judge fills records' b.
Proof.
  intros Hp [He Hf] Hs. unfold judge.
  rewrite !(occurrences_perm _ _ _ _ Hp), (same_text_text _ _ _ Hs He), (same_text_text _ _ _ Hs Hf).
  by rewrite (same_reference _ _ Hs).
Qed.

Lemma foldR_Forall2 {S A} (f g : S -> A -> res S) (R : A -> A -> Prop) l l' s :
  Forall2 R l l' -> (forall s x y, x ∈ l -> R x y -> f s x = g s y) -> foldR f s l = foldR g s l'.
Proof.
  intros F. revert s. induction F as [|x y l l' Hxy _ IH]; intros s Hf; cbn; [done|].
  rewrite (Hf s x y) by (set_solver || done). destruct (g s y); cbn; [|done]. apply IH. set_solver.
Qed.
(** The order of the records does not matter. *)
Lemma classify_perm fills records records' : Forall plain records -> records ≡ₚ records' ->
  classify fills records = classify fills records'.
Proof.
  intros Hplain Hp. unfold classify. apply (foldR_Forall2 _ _ same_text); [by apply by_text_same|].
  intros s x y Hx Hs. rewrite by_text_perm in Hx. rewrite Forall_forall in Hplain. unfold judge_step.
  rewrite (judge_same fills records records' x y) by auto. unfold same_text in Hs. by rewrite Hs.
Qed.

(** When a record is measured. *)
Definition accepts fills records raw (r : Reference) (m : Measure) : Prop :=
  occurrences "evidence_id" records (text_of "evidence_id" raw) = 1%nat /\
  occurrences "fill_id" records (text_of "fill_id" raw) = 1%nat /\
  validate_reference (JObj raw) = Ok r /\
  exists f, f ∈ fills /\ fl_fill_id f = rf_fill_id r /\ measure f r = Ok m.

Lemma find_fill fills f k : NoDup (fl_fill_id <$> fills) -> f ∈ fills -> fl_fill_id f = k ->
  List.find (fun f => bool_decide (fl_fill_id f = k)) fills = Some f.
Proof.
  induction fills as [|g l IH]; cbn; intros Hn Hin Hk; [by apply elem_of_nil in Hin|].
  apply NoDup_cons in Hn as [Hg Hn]. case_bool_decide as E.
  - apply elem_of_cons in Hin as [->|Hin]; [done|]. exfalso. apply Hg. apply list_elem_of_fmap. exists f. by rewrite E.
  - apply elem_of_cons in Hin as [->|Hin]; [done|]. by apply IH.
Qed.
Lemma judge_measured fills records raw r m : NoDup (fl_fill_id <$> fills) ->
  judge fills records raw = Ok (Measured r m) <-> accepts fills records raw r m.
Proof.
  intros Hn. unfold judge, accepts. split.
  - destruct (Nat.eqb_spec (occurrences "evidence_id" records (text_of "evidence_id" raw)) 1) as [E1|E1]; [|intros [=]].
    destruct (Nat.eqb_spec (occurrences "fill_id" records (text_of "fill_id" raw)) 1) as [E2|E2]; [|intros [=]]. cbn [negb].
    destruct (validate_reference (JObj raw)) as [r'|[]]; [|intros [=]..].
    destruct (List.find _ fills) as [f|] eqn:Ef; [|intros [=]].
    destruct (measure f r') as [m'|[]] eqn:Em; [|intros [=]..]. intros [= <- <-].
    apply find_some in Ef as [Ef1 Ef2]. apply bool_decide_eq_true in Ef2. apply list_elem_of_In in Ef1. eauto 10.
  - intros (E1 & E2 & Er & f & Hf & Hid & Hm). rewrite E1, E2, Er. cbn. by rewrite (find_fill _ _ _ Hn Hf Hid), Hm.
Qed.
Lemma accepts_fill fills records raw r m : accepts fills records raw r m -> text_of "fill_id" raw = rf_fill_id r.
Proof.
  intros (_ & _ & E & _). unfold validate_reference in E. unbind E r' Er. pose proof (reads_fill _ _ Er) as Hf.
  assert (r' = r) as -> by (unfold verify in E; do 4 (apply bind_Ok in E as (? & _ & E)); by apply Ok_inj in E).
  unfold text_of. by rewrite Hf.
Qed.

(** The loop: what the records so far have become. *)
Record judged_by fills records (pre : list fields) (s : Judged) : Prop := {
  jb_count : (length (ju_accepted s) + length (ju_rejected s))%nat = length pre;
  jb_unique : NoDup (ju_accepted s).*1;
  jb_accepted : forall k r m, find (ju_accepted s) k = Some (r, m) <->
    exists raw, raw ∈ pre /\ accepts fills records raw r m /\ rf_fill_id r = k
}.
Lemma find_listed {V} (d : list (string * V)) k v : find d k = Some v -> k ∈ d.*1.
Proof.
  induction d as [|[h w] d IH]; cbn; [done|]. destruct (decide (h = k)) as [->|]; intros E; [by left|]. right. by apply IH.
Qed.
Lemma store_fresh {V} (d : list (string * V)) k v : find d k = None -> store d k v = d ++ [(k, v)].
Proof.
  induction d as [|[h w] d IH]; cbn; [done|]. destruct (decide (h = k)); [done|]. intros E. by rewrite IH.
Qed.

Lemma judge_step_inv fills records pre raw post s s' : NoDup (fl_fill_id <$> fills) -> by_text records = pre ++ raw :: post ->
  judged_by fills records pre s -> judge_step fills records s raw = Ok s' -> judged_by fills records (pre ++ [raw]) s'.
Proof.
  intros Hn Hl [I1 I2 I3] E. unfold judge_step in E. unbind E v Ev. destruct v as [r m|reason]; apply Ok_inj in E; subst s'.
  - apply judge_measured in Ev; [|done]. pose proof (accepts_fill _ _ _ _ _ Ev) as Hid.
    assert (Hnew : find (ju_accepted s) (rf_fill_id r) = None).
    { destruct (find _ _) as [[r' m']|] eqn:Ef; [|done]. exfalso. apply I3 in Ef as (raw' & Hin & Ha & Hk).
      apply list_elem_of_split in Hin as (l1 & l2 & ->). destruct Ev as (_ & Ho & _).
      rewrite <- (occurrences_perm _ _ _ _ (by_text_perm records)), Hl, <- app_assoc in Ho. cbn in Ho.
      eapply occurrences_once; [exact Ho| |done]. rewrite (accepts_fill _ _ _ _ _ Ha). congruence. }
    split; cbn [ju_accepted ju_rejected].
    + rewrite store_fresh by done. rewrite !length_app. cbn. lia.
    + rewrite store_fresh by done. rewrite fmap_app. apply NoDup_app. split; [exact I2|]. split; [|apply NoDup_singleton].
      intros x Hx ->%list_elem_of_singleton. cbn in Hx. by apply find_none in Hnew.
    + intros k r' m'. rewrite find_store. destruct (decide (rf_fill_id r = k)) as [<-|Hk].
      * split; [intros [= <- <-]; exists raw; set_solver|]. intros (raw' & Hin & Ha & Hk).
        apply elem_of_app in Hin as [Hin| ->%list_elem_of_singleton].
        { exfalso. assert (find (ju_accepted s) (rf_fill_id r) = Some (r', m')) by (apply I3; eauto). congruence. }
        apply judge_measured in Ha; [|done]. apply judge_measured in Ev; [|done]. congruence.
      * rewrite I3. split; [intros (x & Hx & ?); exists x; set_solver|]. intros (x & Hx & Ha & Hk').
        apply elem_of_app in Hx as [Hx| ->%list_elem_of_singleton]; [eauto|]. exfalso. apply Hk. rewrite <- Hk'.
        apply judge_measured in Ha; [|done]. apply judge_measured in Ev; [|done]. congruence.
  - split; cbn [ju_accepted ju_rejected]; [rewrite !length_app; cbn; lia|exact I2|].
    intros k r m. rewrite I3. split; [intros (x & Hx & ?); exists x; set_solver|]. intros (x & Hx & Ha & Hk).
    apply elem_of_app in Hx as [Hx| ->%list_elem_of_singleton]; [eauto|]. apply judge_measured in Ha; [|done]. congruence.
Qed.
Lemma classify_judged fills records s : NoDup (fl_fill_id <$> fills) -> classify fills records = Ok s ->
  judged_by fills records (by_text records) s.
Proof.
  intros Hn E. apply (foldR_prefix_inv (judged_by fills records) (judge_step fills records) (mkJudged [] []) (by_text records) s).
  - intros pre x post s1 s2 Hl. by eapply judge_step_inv.
  - split; cbn; [done|constructor|]. intros k r m. split; [done|]. intros (x & Hx & _). by apply elem_of_nil in Hx.
  - exact E.
Qed.
End classification.

(** ** Errors of the classification *)

Section errors.
Context `{DumpJson Reference} `{ReadsReference}.
Context (E : exn -> Prop) `{HA : !Arithmetic E}.

Lemma validate_reference_error v e : validate_reference v = Err e -> exists msg, e = ValueError msg.
Proof.
  unfold validate_reference. intros [Er|(r & _ & Er)]%bind_Err; [by eapply reads_error|]. unfold verify in Er.
  repeat (apply bind_Err in Er as [Er|(? & _ & Er)]; [apply raise_unless_Err in Er as [_ ->]; by eexists|]). done.
Qed.
Lemma wp_measure f r : wp (fun e => decimal_error e \/ exists msg, e = ValueError msg) (measure f r) (fun _ => True).
Proof.
  assert (HB : Arithmetic (fun e => decimal_error e \/ exists msg, e = ValueError msg)) by (intros e; by left).
  unfold measure. apply wp_require; [intros _; right; by eexists|]. intros _. op x1 E1.
  eapply wp_bind with (R := fun _ => True); [destruct (fl_side f); [done|any_wp]|]. intros x2 _ _. op x3 E3.
  eapply wp_bind with (R := fun _ => True).
  { destruct (dabs PRECISION x3) eqn:Ea; [done|]. by eapply HB, dfix_error. }
  intros x4 _ _. op x5 E5. op x6 E6. done.
Qed.
Lemma wp_judge fills records raw : wp E (judge fills records raw) (fun _ => True).
Proof.
  unfold judge. destruct (negb _); [done|]. destruct (negb _); [done|].
  destruct (validate_reference (JObj raw)) as [r|e] eqn:Er.
  - destruct (List.find _ fills) as [f|]; [|done]. pose proof (wp_measure f r) as Hm.
    destruct (measure f r) as [m|e]; [done|]. destruct Hm as [[sig ->]|[msg ->]]; [|done]. apply HA. by eexists.
  - by apply validate_reference_error in Er as [msg ->].
Qed.
Lemma wp_classify fills records : NoDup (fl_fill_id <$> fills) ->
  wp E (classify fills records) (judged_by fills records (by_text records)).
Proof.
  intros Hn. eapply wp_mono with (R := fun _ => True).
  - apply wp_foldR_any. intros s raw. unfold judge_step. eapply wp_bind; [apply wp_judge|]. by intros [] _ _.
  - intros s Es _. by apply classify_judged.
Qed.
End errors.

(** ** Exact amounts

    Amounts of money have at most eighteen digits before and ten after the point, so that
    the differences, products and sums that the measurements take of them are exact in
    forty digits. *)

(** ** Numbers that need no rounding *)

Lemma forty_ok : context_ok PRECISION.
Proof. by apply mk_context_ok. Qed.
Definition short (k : Z) (d : dec) : Prop := Z.abs (coef d) < 10 ^ k.
Lemma dfix_short c d : context_ok c -> short (prec c) d -> etiny c <= dexp d <= etop c -> dfix c d = Ok d.
Proof.
  unfold short. intros Hc Hs He. unfold dfix. pose proof (etop_pos _ Hc) as Htop. unfold etop in *.
  destruct (Z.eqb_spec (coef d) 0) as [E|E].
  - destruct d as [n e]; cbn in *. subst n. do 2 f_equal. pose proof (prec_pos _ Hc). rewrite Z.max_l by lia. apply Z.min_l. lia.
  - assert (Hn : ndigits (coef d) <= prec c).
    { pose proof (prec_pos _ Hc). destruct (Z.le_gt_cases (ndigits (coef d)) (prec c)) as [|Hgt]; [done|].
      pose proof (ndigits_spec (coef d) E) as (_ & Hlo & _). exfalso.
      assert (10 ^ prec c <= 10 ^ (ndigits (coef d) - 1)) by (apply Z.pow_le_mono_r; lia). lia. }
    rewrite (proj2 (Z.ltb_ge _ _)) by lia. rewrite (proj2 (Z.ltb_ge _ _)) by lia. done.
Qed.

(** ** Money *)

Record money (d : dec) : Prop := {
  mo_coef : 0 <= coef d;
  mo_size : coef d < 10 ^ (18 - dexp d);
  mo_exp : -10 <= dexp d <= 17
}.
Lemma parse_digits_lt l : forallb is_digit l = true -> parse_digits l < 10 ^ Z.of_nat (length l).
Proof.
  induction l as [|c l IH] using rev_ind; intros E; [done|]. rewrite forallb_app in E. bool_inv. cbn in H0. bool_inv.
  rewrite parse_digits_snoc, length_app. cbn [length]. replace (Z.of_nat (length l + 1)) with (Z.succ (Z.of_nat (length l))) by lia.
  rewrite Z.pow_succ_r by lia. specialize (IH H). apply is_digit_code in H0. lia.
Qed.
Lemma span_digit_prefix l ip rest : span is_digit l = (ip, rest) -> forallb is_digit ip = true.
Proof.
  revert ip rest. induction l as [|c l IH]; cbn; intros ip rest E; [by injection E as <- _|].
  destruct (is_digit c) eqn:Hc; [|by injection E as <- _]. destruct (span is_digit l) as [a b]. injection E as <- <-.
  cbn. rewrite Hc. by eapply IH.
Qed.
Lemma int_pattern_length l : int_pattern l = true -> Z.of_nat (length l) <= 18.
Proof. destruct l as [|c [|d l]]; cbn [int_pattern]; intros E; [done|done|]. bool_inv. cbn [length] in *. lia. Qed.
Lemma parse_money v d : parse_decimal v = Ok d -> money d.
Proof.
  unfold parse_decimal. intros E. unbind E u1 E1. unbind E u2 E2. unfold parse_decimal_text in E.
  destruct (span is_digit _) as [ip rest] eqn:Es. apply span_digit_prefix in Es. destruct rest as [|point frac].
  - destruct (int_pattern ip) eqn:Hi; [|discriminate E]. apply Ok_inj in E. subst d. pose proof (parse_digits_nonneg _ Es).
    pose proof (parse_digits_lt _ Es). apply int_pattern_length in Hi. split; cbn; [done| |lia].
    eapply Z.lt_le_trans; [done|]. apply Z.pow_le_mono_r; lia.
  - destruct (int_pattern ip && is_char 46 point && forallb is_digit frac && (1 <=? Z.of_nat (length frac)) &&
        (Z.of_nat (length frac) <=? 10)) eqn:Hi; [|discriminate E]. apply Ok_inj in E. subst d. bool_inv.
    assert (Hd : forallb is_digit (ip ++ frac) = true) by (by rewrite forallb_app, Es).
    pose proof (parse_digits_nonneg _ Hd). pose proof (parse_digits_lt _ Hd) as Hlt. rewrite length_app in Hlt.
    assert (Hl : Z.of_nat (length ip) <= 18) by (by apply int_pattern_length).
    split; cbn; [done| |lia]. eapply Z.lt_le_trans; [exact Hlt|]. apply Z.pow_le_mono_r; lia.
Qed.

(** At the exponent -10, or above it, an amount has at most 28 digits. *)
Lemma money_aligned d e : money d -> -10 <= e <= dexp d -> 0 <= coef d * 10 ^ (dexp d - e) < 10 ^ 28.
Proof.
  intros [H1 H2 H3] He. assert (0 < 10 ^ (dexp d - e)) by (apply Z.pow_pos_nonneg; lia). split; [nia|].
  apply Z.lt_le_trans with (10 ^ (18 - dexp d) * 10 ^ (dexp d - e)); [nia|]. rewrite <- Z.pow_add_r by lia.
  apply Z.pow_le_mono_r; lia.
Qed.

Lemma short_money d : money d -> short 28 d.
Proof.
  intros Hd. pose proof (mo_exp _ Hd). pose proof (money_aligned d (dexp d) Hd ltac:(lia)) as Ha.
  rewrite Z.sub_diag, Z.pow_0_r, Z.mul_1_r in Ha. unfold short. lia.
Qed.
Lemma precision_short k d : k <= 40 -> short k d -> -20 <= dexp d <= 40 -> dfix PRECISION d = Ok d.
Proof.
  intros Hk Hs He. apply dfix_short; [apply forty_ok| |unfold etiny, etop; cbn; lia]. unfold short in *. cbn [prec PRECISION mk_context].
  eapply Z.lt_le_trans; [exact Hs|]. apply Z.pow_le_mono_r; lia.
Qed.
(** The sum and the difference of two amounts. *)
Lemma add_short a b : money a -> money b -> short 29 (dadd_raw a b) /\ -10 <= dexp (dadd_raw a b) <= 17.
Proof.
  intros Ha Hb. unfold dadd_raw, short. destruct (align a b) as [x y] eqn:E. unfold align in E. injection E as <- <-. cbn.
  pose proof (mo_exp _ Ha). pose proof (mo_exp _ Hb). pose proof (money_aligned a (Z.min (dexp a) (dexp b)) Ha ltac:(lia)).
  pose proof (money_aligned b (Z.min (dexp a) (dexp b)) Hb ltac:(lia)). lia.
Qed.
Lemma sub_short a b : money a -> money b -> short 28 (dadd_raw a (dneg_raw b)) /\ -10 <= dexp (dadd_raw a (dneg_raw b)) <= 17.
Proof.
  intros Ha Hb. unfold dadd_raw, short. destruct (align a (dneg_raw b)) as [x y] eqn:E. unfold align in E. cbn in E.
  injection E as <- <-. cbn. pose proof (mo_exp _ Ha). pose proof (mo_exp _ Hb).
  pose proof (money_aligned a (Z.min (dexp a) (dexp b)) Ha ltac:(lia)). pose proof (money_aligned b (Z.min (dexp a) (dexp b)) Hb ltac:(lia)). lia.
Qed.
Lemma psub_money a b : money a -> money b -> psub a b = Ok (dadd_raw a (dneg_raw b)).
Proof. intros Ha Hb. destruct (sub_short a b Ha Hb). apply (precision_short 28); lia || done. Qed.
Lemma mul_short k q d : 0 <= k -> 0 <= q < 10 ^ k -> short 28 d -> short (28 + k) (dmul_raw d (dZ q)).
Proof.
  unfold short, dmul_raw. cbn. intros Hk Hq Hd. rewrite Z.abs_mul, Z.pow_add_r by lia. nia.
Qed.
(** The product of an amount with less than 29 digits and a quantity. *)
Lemma pmul_quantity q d : 0 <= q < 10 ^ 12 -> short 28 d -> -10 <= dexp d <= 17 -> pmul d (dZ q) = Ok (dmul_raw d (dZ q)).
Proof.
  intros Hq Hd He. apply (precision_short 40); [done|by apply (mul_short 12)|]. cbn. lia.
Qed.
Lemma dneg_short d : short 28 d -> -10 <= dexp d <= 17 -> dneg PRECISION d = Ok (dneg_raw d).
Proof. intros Hd He. apply (precision_short 28); [done| |cbn; lia]. unfold short in *. cbn. lia. Qed.

(** ** Sums

    Fifty thousand amounts below 10^24, of at most ten decimals, add up without rounding. *)
Definition small (d : dec) : Prop := -10 <= dexp d <= 17 /\ Z.abs (coef d) * 10 ^ (dexp d + 10) < 10 ^ 34.
Definition dec_sum (l : list dec) : Q := foldr Qplus 0%Q (dval <$> l).
Definition sum_of (l : list dec) (s : dec) : Prop :=
  psum l = Ok s /\ (Forall small l -> Z.of_nat (length l) <= 50000 -> (dval s == dec_sum l)%Q).
Lemma aligned_size k d e : Z.abs (coef d) * 10 ^ (dexp d + 10) <= k -> -10 <= e <= dexp d ->
  Z.abs (coef d * 10 ^ (dexp d - e)) * 10 ^ (e + 10) <= k.
Proof.
  intros Hk He. rewrite Z.abs_mul, (Z.abs_eq (10 ^ _)) by (apply Z.pow_nonneg; lia).
  rewrite <- Z.mul_assoc, <- Z.pow_add_r by lia. by replace (dexp d - e + (e + 10)) with (dexp d + 10) by lia.
Qed.
Lemma padd_small k s d t : 0 <= k < 10 ^ 39 -> -10 <= dexp s <= 17 -> Z.abs (coef s) * 10 ^ (dexp s + 10) <= k -> small d ->
  padd s d = Ok t ->
  -10 <= dexp t <= 17 /\ Z.abs (coef t) * 10 ^ (dexp t + 10) <= k + 10 ^ 34 /\ (dval t == dval s + dval d)%Q.
Proof.
  intros Hk Hs Hc [Hd1 Hd2] E. assert (Hx : -10 <= dexp (dadd_raw s d) <= 17 /\
    Z.abs (coef (dadd_raw s d)) * 10 ^ (dexp (dadd_raw s d) + 10) <= k + 10 ^ 34).
  { unfold dadd_raw. destruct (align s d) as [x y] eqn:Ea. unfold align in Ea. cbn in Ea. injection Ea as <- <-. cbn [coef dexp].
    pose proof (aligned_size k s (Z.min (dexp s) (dexp d)) Hc ltac:(lia)).
    pose proof (aligned_size (10 ^ 34) d (Z.min (dexp s) (dexp d)) ltac:(lia) ltac:(lia)).
    assert (0 < 10 ^ (Z.min (dexp s) (dexp d) + 10)) by (apply Z.pow_pos_nonneg; lia). split; [lia|]. nia. }
  destruct Hx as [Hx1 Hx2]. unfold padd, dadd in E. rewrite (precision_short 40) in E; [|done| |lia].
  - apply Ok_inj in E. subst t. split; [done|]. split; [done|]. apply dadd_raw_val.
  - unfold short. assert (1 <= 10 ^ (dexp (dadd_raw s d) + 10)) by (pose proof (pow10_pos (dexp (dadd_raw s d) + 10)); lia).
    assert (10 ^ 39 + 10 ^ 34 < 10 ^ 40) by (vm_compute; done). nia.
Qed.
Lemma psum_small l s t k : Forall small l -> 0 <= k -> k + Z.of_nat (length l) * 10 ^ 34 < 10 ^ 39 -> -10 <= dexp s <= 17 ->
  Z.abs (coef s) * 10 ^ (dexp s + 10) <= k -> foldR padd s l = Ok t -> (dval t == dval s + dec_sum l)%Q.
Proof.
  intros Hl. revert s k. induction Hl as [|d l Hd _ IH]; intros s k Hk Hn He Hc E.
  - apply Ok_inj in E. subst t. unfold dec_sum. cbn [fmap list_fmap foldr]. lra.
  - cbn [foldR] in E. unbind E s' Es. rewrite length_cons, Nat2Z.inj_succ in Hn.
    destruct (padd_small k s d s' ltac:(lia) He Hc Hd Es) as (He' & Hc' & Hv).
    rewrite (IH s' (k + 10 ^ 34)) by (done || lia). unfold dec_sum. cbn [fmap list_fmap foldr]. lra.
Qed.
Lemma sum_of_psum l s : psum l = Ok s -> sum_of l s.
Proof.
  intros E. split; [exact E|]. intros Hl Hn. rewrite (psum_small l d0 s 0 Hl); [rewrite (dval_zero d0) by done; lra|done| |done|done|exact E].
  assert (50000 * 10 ^ 34 < 10 ^ 39) by (vm_compute; done). nia.
Qed.
(** Amounts of money are small. *)
Lemma money_small d : money d -> small d.
Proof.
  intros Hd. pose proof (mo_exp _ Hd). split; [lia|]. pose proof (money_aligned d (-10) Hd ltac:(lia)) as Ha.
  replace (dexp d - -10) with (dexp d + 10) in Ha by lia. rewrite Z.abs_eq by apply (mo_coef _ Hd).
  eapply Z.lt_trans; [apply Ha|]. by vm_compute.
Qed.

(** ** Sums by strategy and by symbol *)

Definition weight (w : Fill -> Z) (l : list Fill) : Z := foldr (fun f n => w f + n) 0 l.
Definition total (l : list Z) : Z := foldr Z.add 0 l.
Lemma total_cons x l : total (x :: l) = x + total l.
Proof. done. Qed.
Lemma total_zero {A} (l : list A) : total ((fun _ => 0) <$> l) = 0.
Proof. induction l as [|x l IH]; [done|]. by rewrite fmap_cons, total_cons, IH. Qed.
Lemma total_add {A} (f g : A -> Z) l : total ((fun x => f x + g x) <$> l) = total (f <$> l) + total (g <$> l).
Proof. induction l as [|x l IH]; [done|]. rewrite !fmap_cons, !total_cons, IH. lia. Qed.
Lemma total_absent (s : string) (n : Z) names : s ∉ names -> total ((fun t => if bool_decide (s = t) then n else 0) <$> names) = 0.
Proof.
  induction names as [|t l IH]; intros Hs; [done|]. apply not_elem_of_cons in Hs as [Ht Hs].
  by rewrite fmap_cons, total_cons, bool_decide_false, IH by done.
Qed.
Lemma total_pick (s : string) (n : Z) names : NoDup names -> s ∈ names ->
  total ((fun t => if bool_decide (s = t) then n else 0) <$> names) = n.
Proof.
  induction names as [|t l IH]; intros Hn Hs; [by apply elem_of_nil in Hs|]. apply NoDup_cons in Hn as [Ht Hn].
  rewrite fmap_cons, total_cons. case_bool_decide as E.
  - subst t. rewrite total_absent by done. lia.
  - apply elem_of_cons in Hs as [Hs|Hs]; [done|]. by rewrite IH.
Qed.
Lemma weight_classes (w : Fill -> Z) (name : Fill -> string) names l : NoDup names -> Forall (fun f => name f ∈ names) l ->
  total ((fun s => weight w (List.filter (fun f => bool_decide (name f = s)) l)) <$> names) = weight w l.
Proof.
  intros Hn. induction l as [|f l IH]; intros Hl; [apply total_zero|]. apply Forall_cons in Hl as [Hf Hl]. cbn [weight foldr].
  fold (weight w l). rewrite <- (IH Hl), <- (total_pick (name f) (w f) names Hn Hf), <- total_add. f_equal.
  apply list_fmap_ext. intros _ s _. cbn [List.filter]. case_bool_decide; done.
Qed.
Lemma weight_one (l : list Fill) : weight (fun _ => 1) l = length_of l.
Proof. unfold length_of. induction l as [|f l IH]; [done|]. unfold weight in *. cbn [foldr length] in *. lia. Qed.

Section coverage.
Implicit Types (accepted : list (string * (Reference * Measure))) (l : list Fill).

Definition covered accepted (f : Fill) : Z := if find accepted (fl_fill_id f) then 1 else 0.
Lemma measured_weight accepted l : length_of (measured_of accepted l) = weight (covered accepted) l.
Proof.
  unfold length_of. induction l as [|f l IH]; [done|]. cbn [weight foldr]. fold (weight (covered accepted) l). rewrite <- IH.
  unfold covered, measured_of. cbn [omap list_omap]. destruct (find accepted (fl_fill_id f)); cbn [fmap option_fmap option_map length]; lia.
Qed.
(** Every accepted measurement is that of one of the fills. *)
Lemma measured_all accepted l : NoDup (fl_fill_id <$> l) -> NoDup accepted.*1 ->
  (forall k, k ∈ accepted.*1 -> k ∈ fl_fill_id <$> l) -> length_of (measured_of accepted l) = length_of accepted.
Proof.
  intros Hl Ha Hs. rewrite measured_weight. transitivity (length_of (List.filter (fun k => has accepted k) (fl_fill_id <$> l))).
  - unfold length_of. clear. induction l as [|f l IH]; [done|]. rewrite fmap_cons. cbn [List.filter weight foldr].
    fold (weight (covered accepted) l). unfold covered at 1, has at 1. rewrite IH.
    destruct (find accepted (fl_fill_id f)); cbn [length]; lia.
  - unfold length_of. f_equal. rewrite <- (length_fmap fst accepted). apply Permutation_length, NoDup_Permutation; [|done|].
    + apply NoDup_ListNoDup, List.NoDup_filter. by apply NoDup_ListNoDup.
    + intros k. rewrite list_elem_of_In, filter_In, <- list_elem_of_In. unfold has. split.
      * intros [_ Hk]. destruct (find accepted k) eqn:Ek; [|done]. by eapply find_listed.
      * intros Hk. split; [by apply Hs|]. destruct (find accepted k) eqn:Ek; [done|]. by apply find_none in Ek.
Qed.
Lemma covered_bounds accepted l : 0 <= weight (covered accepted) l <= length_of l.
Proof.
  unfold length_of, weight, covered. induction l as [|f l IH]; cbn; [lia|]. destruct (find _ _); lia.
Qed.

(** What a summary says of its selection. *)
Record summary_of accepted l (s : Summary) : Prop := {
  so_accepted : su_accepted s = length_of l;
  so_measured : su_measured s = weight (covered accepted) l;
  so_bounds : 0 <= su_measured s <= su_accepted s;
  so_complete : su_complete s = true <-> l <> [] /\ su_measured s = su_accepted s;
  so_coverage : match su_coverage s with
                | None => l = []
                | Some c => l <> [] /\ pdiv (dZ (su_measured s)) (dZ (su_accepted s)) = Ok c /\ (0 <= dval c <= 1)%Q
                end;
  so_fees : sum_of (fl_fees <$> l) (su_fees s);
  so_cash : sum_of (fl_cash_delta <$> l) (su_cash s);
  so_signed : sum_of (me_signed <$> measured_of accepted l) (su_signed s);
  so_absolute : sum_of (me_absolute <$> measured_of accepted l) (su_absolute s)
}.
Lemma fraction_bounds a b c : 0 <= a <= b -> 0 < b -> pdiv (dZ a) (dZ b) = Ok c -> (0 <= dval c <= 1)%Q.
Proof.
  intros [Ha Hab] Hb E. assert (Hb' : (0 < inject_Z b)%Q) by (rewrite <- (Zlt_Qlt 0); done). split.
  - eapply ddiv_nonneg; [apply forty_ok|exact E|rewrite dval_Z, <- (Zle_Qle 0); lia..].
  - apply (ddiv_le _ _ _ _ 1%Q forty_ok E); [by apply (repr_Z PRECISION 1); [apply forty_ok|vm_compute]|].
    rewrite !dval_Z. apply Qle_shift_div_r; [done|]. rewrite Qmult_1_l. by rewrite <- Zle_Qle.
Qed.
Lemma wp_summary E `{HA : !Arithmetic E} accepted l : wp E (summary accepted l) (summary_of accepted l).
Proof.
  unfold summary. op signed E1. op absolute E2. eapply wp_bind with (R := fun o : option dec =>
    match o with
    | None => l = []
    | Some c => l <> [] /\ pdiv (dZ (length_of (measured_of accepted l))) (dZ (length_of l)) = Ok c /\ (0 <= dval c <= 1)%Q
    end).
  - destruct l as [|f l]; [done|]. cbn [is_nil]. op c Ec. cbn. split; [done|]. split; [exact Ec|]. refine (fraction_bounds _ _ _ _ _ Ec); [|unfold length_of; cbn [length]; lia].
    rewrite measured_weight. apply covered_bounds.
  - intros coverage _ Hc. op fees E3. op cash E4. cbn. pose proof (covered_bounds accepted l) as Hb.
    split; cbn; [done|apply measured_weight|by rewrite measured_weight| |exact Hc|by apply sum_of_psum..].
    rewrite andb_true, negb_true, Z.eqb_eq. destruct l; naive_solver.
Qed.
End coverage.

(** ** The attribution *)

Section attribution.
Context `{DumpJson Reference} `{ReadsReference} `{DumpJson Fill}.
Context (universe : list string).
Implicit Types (fills : list Fill) (records : list fields).

Definition selection (name : Fill -> string) fills (s : string) : list Fill :=
  List.filter (fun f => bool_decide (name f = s)) fills.
(** A table has one row per name, the summary of the fills of that name, and its rows
    count every fill and every measured fill once. *)
Record table_ok (accepted : list (string * (Reference * Measure))) fills (name : Fill -> string) (names : list string)
    (table : list (string * Summary)) : Prop := {
  to_rows : Forall2 (fun s row => row.1 = s /\ summary_of accepted (selection name fills s) row.2) names table;
  to_accepted : total (su_accepted <$> table.*2) = length_of fills;
  to_measured : total (su_measured <$> table.*2) = weight (covered accepted) fills
}.
Lemma rows_total (f : Summary -> Z) (g : string -> Z) names table :
  Forall2 (fun s (row : string * Summary) => f row.2 = g s) names table -> total (f <$> table.*2) = total (g <$> names).
Proof. induction 1 as [|s x names table E _ IH]; [done|]. by rewrite !fmap_cons, !total_cons, E, IH. Qed.
Lemma wp_table E `{HA : !Arithmetic E} accepted fills name names : NoDup names -> Forall (fun f => name f ∈ names) fills ->
  wp E (table_of accepted fills name names) (table_ok accepted fills name names).
Proof.
  intros Hn Hf. eapply wp_mono with (R := Forall2 (fun s row => row.1 = s /\ summary_of accepted (selection name fills s) row.2) names).
  - unfold table_of. clear Hn Hf. induction names as [|s l IH]; cbn [mapR]; [constructor|].
    eapply wp_bind with (R := fun row => row.1 = s /\ summary_of accepted (selection name fills s) row.2).
    { eapply wp_bind; [by apply wp_summary|]. by intros x _ Hx. }
    intros x _ Hx. eapply wp_bind; [exact IH|]. intros l' _ Hl. by constructor.
  - intros table _ Ht. split; [exact Ht| |].
    + rewrite <- weight_one, <- (weight_classes (fun _ => 1) name names fills Hn Hf). apply rows_total.
      eapply Forall2_impl; [exact Ht|]. intros s x [_ Hx]. by rewrite weight_one, (so_accepted _ _ _ Hx).
    + rewrite <- (weight_classes (covered accepted) name names fills Hn Hf). apply rows_total.
      eapply Forall2_impl; [exact Ht|]. intros s x [_ Hx]. by rewrite (so_measured _ _ _ Hx).
Qed.

Definition attribution_messages : list string :=
  ["MEASUREMENT_BUDGET"; "DUPLICATE_FILL"; "UNKNOWN_SYMBOL"; "ATTRIBUTION_RECONCILIATION"]%string.
(** The columns of a table that add up to the portfolio. *)
Definition columns : list (Summary -> dec) := [su_fees; su_cash; when_covered su_signed; when_covered su_absolute].
Definition column_adds (value : Summary -> dec) (table : list (string * Summary)) (portfolio : Summary) : Prop :=
  exists sum_, sum_of (value <$> table.*2) sum_ /\ (dval sum_ == dval (value portfolio))%Q.
Lemma adds_up_column value table portfolio u : adds_up value table portfolio = Ok u -> column_adds value table portfolio.
Proof.
  unfold adds_up. intros E. unbind E t Et. apply raise_unless_Ok, deqb_spec in E. exists t. split; [by apply sum_of_psum|done].
Qed.
(** The measured fills always add up, so [COVERAGE_RECONCILIATION] is never raised. *)
Lemma wp_check_rows accepted fills name names portfolio table : table_ok accepted fills name names table ->
  summary_of accepted fills portfolio ->
  wp (among attribution_messages) (check_rows portfolio table)
    (fun _ => forall value, value ∈ columns -> column_adds value table portfolio).
Proof.
  intros Ht Hp. assert (Hadds : forall value, wp (among attribution_messages) (adds_up value table portfolio) (fun _ => True)).
  { intros value. unfold adds_up. op t Et. destruct (deqb _ _); [done|raise]. }
  unfold check_rows. eapply wp_bind; [apply Hadds|]. intros ? Ea _. eapply wp_bind; [apply Hadds|]. intros ? Ef _.
  eapply wp_bind; [apply Hadds|]. intros ? Ec _. eapply wp_bind; [apply Hadds|]. intros ? Es _.
  change (foldr Z.add 0 (su_measured <$> table.*2)) with (total (su_measured <$> table.*2)).
  rewrite (to_measured _ _ _ _ _ Ht), (so_measured _ _ _ Hp), Z.eqb_refl. cbn [raise_unless wp]. unfold columns.
  intros value Hv. repeat (apply elem_of_cons in Hv as [->|Hv]; [by eapply adds_up_column|]). by apply elem_of_nil in Hv.
Qed.

Record attributed_ok fills records (a : Attributed) : Prop := {
  ao_judged : judged_by fills records (by_text records) (at_judged a);
  ao_portfolio : summary_of (ju_accepted (at_judged a)) fills (at_portfolio a);
  ao_measured : su_measured (at_portfolio a) = length_of (ju_accepted (at_judged a));
  ao_strategies : table_ok (ju_accepted (at_judged a)) fills fl_strategy_id strategy_names (at_strategies a);
  ao_symbols : table_ok (ju_accepted (at_judged a)) fills fl_symbol universe (at_symbols a);
  ao_sums : forall value, value ∈ columns ->
    column_adds value (at_strategies a) (at_portfolio a) /\ column_adds value (at_symbols a) (at_portfolio a)
}.
Lemma accepted_known fills records s k : judged_by fills records (by_text records) s -> k ∈ (ju_accepted s).*1 ->
  k ∈ fl_fill_id <$> fills.
Proof.
  intros Hj Hk. destruct (find (ju_accepted s) k) as [[r m]|] eqn:Ek; [|by apply find_none in Ek].
  apply (jb_accepted _ _ _ _ Hj) in Ek as (raw & _ & (_ & _ & _ & f & Hf & Hid & _) & Hk').
  apply list_elem_of_fmap. exists f. split; [congruence|done].
Qed.
Lemma wp_attribution fills records : NoDup universe -> Forall (fun f => fl_strategy_id f ∈ strategy_names) fills ->
  wp (among attribution_messages) (attribution universe fills records) (attributed_ok fills records).
Proof.
  intros Hu Hs. unfold attribution. apply wp_require; [intros _; raise|]. intros _. apply wp_require; [intros _; raise|]. intros Hn.
  apply wp_require; [intros _; raise|]. intros Hf. apply bool_decide_eq_true in Hn.
  assert (Hsym : Forall (fun f => fl_symbol f ∈ universe) fills).
  { rewrite forallb_forall in Hf. apply Forall_forall. intros f Hin. apply list_elem_of_In, Hf in Hin. by bool_inv. }
  assert (Hnames : NoDup strategy_names) by (apply (bool_decide_eq_true_1 (NoDup strategy_names)); vm_compute; reflexivity).
  eapply wp_bind; [by apply wp_classify; [apply _|]|]. intros j _ Hj. eapply wp_bind; [by apply wp_summary, _|]. intros p _ Hp.
  eapply wp_bind; [by apply wp_table; [apply _|..]|]. intros t _ Ht. eapply wp_bind; [by apply wp_table; [apply _|..]|]. intros y _ Hy.
  eapply wp_bind; [by eapply wp_check_rows|]. intros ? _ Ct. eapply wp_bind; [by eapply wp_check_rows|]. intros ? _ Cy.
  split; cbn; [exact Hj|exact Hp| |exact Ht|exact Hy|intros value Hv; split; [by apply Ct|by apply Cy]].
  rewrite (so_measured _ _ _ Hp), <- measured_weight. apply measured_all; [done|apply (jb_unique _ _ _ _ Hj)|].
  intros k. by eapply accepted_known.
Qed.
End attribution.

(** ** A measurement *)

(** A number between two powers of ten, and a quotient rounded to forty digits. *)
Lemma p10_le a b : a <= b -> (p10 a <= p10 b)%Q.
Proof.
  intros H. rewrite (p10_split a b H). rewrite <- (Qmult_1_l (p10 a)) at 1. apply Qmult_le_compat_r; [|apply Qlt_le_weak, p10_pos].
  change 1%Q with (inject_Z 1). rewrite <- Zle_Qle. pose proof (pow10_pos (b - a)). lia.
Qed.
Lemma between_powers x lo (n : nat) : (p10 lo <= x)%Q -> (x < p10 (lo + Z.of_nat n))%Q ->
  exists k, lo <= k /\ (p10 k <= x)%Q /\ (x < p10 (k + 1))%Q.
Proof.
  intros Hlo. induction n as [|n IH]; intros Hx; [rewrite Z.add_0_r in Hx; lra|].
  destruct (Qlt_le_dec x (p10 (lo + Z.of_nat n))) as [H|H]; [by apply IH|]. exists (lo + Z.of_nat n).
  split; [lia|]. split; [done|]. by replace (lo + Z.of_nat n + 1) with (lo + Z.of_nat (S n)) by lia.
Qed.
Lemma repr_scaled m k : Z.abs m <= 10 ^ 40 -> -100 <= k -> repr PRECISION (inject_Z m * p10 k).
Proof. intros Hm Hk. exists m, k. split; [reflexivity|]. split; [exact Hm|]. unfold etiny. cbn. lia. Qed.
Lemma floor_scaled x k : (p10 k <= Qabs x)%Q -> (Qabs x < p10 (k + 1))%Q -> exists m, Z.abs m <= 10 ^ 40 /\ Z.abs (m + 1) <= 10 ^ 40 /\
  (inject_Z m * p10 (k - 39) <= x)%Q /\ (x <= inject_Z (m + 1) * p10 (k - 39))%Q.
Proof.
  intros _ Hx. set (z := (x * p10 (39 - k))%Q). exists (Qfloor z). pose proof (Qfloor_le z) as H1. pose proof (Qlt_floor z) as H2.
  assert (Hz : (Qabs z < inject_Z (10 ^ 40))%Q).
  { unfold z. rewrite Qabs_Qmult, (Qabs_pos (p10 _)) by (apply Qlt_le_weak, p10_pos). rewrite <- p10_Z by lia.
    replace 40 with ((k + 1) + (39 - k)) by lia. rewrite p10_add. apply Qmult_lt_compat_r; [apply p10_pos|done]. }
  apply Qabs_Qlt_condition in Hz as [Hz1 Hz2].
  assert (Hone : (p10 (39 - k) * p10 (k - 39) == 1)%Q) by (rewrite <- p10_add; replace (39 - k + (k - 39)) with 0 by lia; reflexivity).
  assert (Hback : (x == z * p10 (k - 39))%Q) by (unfold z; rewrite <- Qmult_assoc, Hone; ring).
  assert (Hlo : - 10 ^ 40 < Qfloor z + 1) by (rewrite Zlt_Qlt, inject_Z_opp; eapply Qlt_trans; [exact Hz1|exact H2]).
  assert (Hhi : Qfloor z < 10 ^ 40) by (rewrite Zlt_Qlt; eapply Qle_lt_trans; [exact H1|exact Hz2]).
  split; [lia|]. split; [lia|]. rewrite !Hback.
  split; apply Qmult_le_compat_r; (apply Qlt_le_weak, p10_pos || done || by apply Qlt_le_weak).
Qed.
Lemma points_close a b q r : pdiv a b = Ok q -> pmul q (dZ 10000) = Ok r ->
  (dval a / dval b == 0)%Q \/ (p10 (-28) <= Qabs (dval a / dval b))%Q /\ (Qabs (dval a / dval b) < p10 60)%Q ->
  (Qabs (dval r - dval a / dval b * 10000) <= Qabs (dval a / dval b * 10000) * p10 (-39))%Q.
Proof.
  intros Eq Er Hx. set (x := (dval a / dval b)%Q) in *.
  assert (Hle : forall m k, Z.abs m <= 10 ^ 40 -> -100 <= k -> (x <= inject_Z m * p10 k)%Q -> (dval r <= inject_Z m * p10 (k + 4))%Q).
  { intros m k Hm Hk H. apply (dmul_le PRECISION forty_ok _ (repr_scaled m (k + 4) Hm ltac:(lia)) _ _ _ Er).
    rewrite dval_Z, p10_add, Qmult_assoc. apply Qmult_le_compat_r; [|done].
    by apply (ddiv_le _ _ _ _ _ forty_ok Eq); [apply repr_scaled|]. }
  assert (Hge : forall m k, Z.abs m <= 10 ^ 40 -> -100 <= k -> (inject_Z m * p10 k <= x)%Q -> (inject_Z m * p10 (k + 4) <= dval r)%Q).
  { intros m k Hm Hk H. apply (dmul_ge PRECISION forty_ok _ (repr_scaled m (k + 4) Hm ltac:(lia)) _ _ _ Er).
    rewrite dval_Z, p10_add, Qmult_assoc. apply Qmult_le_compat_r; [|done].
    by apply (ddiv_ge _ _ _ _ _ forty_ok Eq); [apply repr_scaled|]. }
  destruct Hx as [Hx|[Hlo Hhi]].
  - specialize (Hle 0 0 ltac:(lia) ltac:(lia) ltac:(rewrite Hx; vm_compute; discriminate)). specialize (Hge 0 0 ltac:(lia) ltac:(lia) ltac:(rewrite Hx; vm_compute; discriminate)).
    change (inject_Z 0 * p10 (0 + 4))%Q with 0%Q in *. assert (E : (dval r == 0)%Q) by lra. rewrite E, Hx. vm_compute. discriminate.
  - destruct (between_powers (Qabs x) (-28) 88 Hlo Hhi) as (k & Hk & Hk1 & Hk2).
    destruct (floor_scaled x k Hk1 Hk2) as (m & Hm1 & Hm2 & Hx1 & Hx2).
    pose proof (Hle (m + 1) (k - 39) Hm2 ltac:(lia) Hx2) as Hr2. pose proof (Hge m (k - 39) Hm1 ltac:(lia) Hx1) as Hr1.
    rewrite Qabs_Qmult, (Qabs_pos 10000) by done. rewrite inject_Z_plus in *. rewrite p10_add in Hr1, Hr2.
    change (p10 4) with (10000 # 1)%Q in *.
    assert (Hp : (p10 (k - 39) == p10 k * p10 (-39))%Q) by (rewrite <- p10_add; reflexivity).
    pose proof (p10_pos (-39)) as Hpos. rewrite Hp in *. set (u := p10 (-39)) in *.
    assert (Hu : (p10 k * u <= Qabs x * u)%Q) by (apply Qmult_le_compat_r; lra).
    change (inject_Z 1) with 1%Q in *. apply Qabs_Qle_condition. split; nra.
Qed.

(** The cost per share: what the side paid more, or received less, than the reference. *)
Definition adverse (f : Fill) (r : Reference) : Q :=
  match fl_side f with BUY => dval (fl_price f) - dval (rf_price r) | SELL => dval (rf_price r) - dval (fl_price f) end.
(** The same in basis points of the reference. *)
Definition in_points (f : Fill) (r : Reference) : Q := adverse f r / dval (rf_price r) * 10000.
Record measured (f : Fill) (r : Reference) (m : Measure) : Prop := {
  md_per_share : (dval (me_per_share m) == adverse f r)%Q;
  md_signed : (dval (me_signed m) == adverse f r * inject_Z (fl_quantity f))%Q;
  md_absolute : (dval (me_absolute m) == Qabs (dval (me_signed m)))%Q;
  md_bps : (Qabs (dval (me_bps m) - in_points f r) <= Qabs (in_points f r) * p10 (-39))%Q
}.
Lemma dabs_val d : (dval (Dec (Z.abs (coef d)) (dexp d)) == Qabs (dval d))%Q.
Proof. unfold dval. cbn [coef dexp]. rewrite Qabs_Qmult, (Qabs_pos (p10 _)) by (apply Qlt_le_weak, p10_pos). reflexivity. Qed.
Lemma delta_exact f r delta delta' : money (fl_price f) -> money (rf_price r) -> psub (fl_price f) (rf_price r) = Ok delta ->
  (match fl_side f with SELL => dneg PRECISION delta | BUY => Ok delta end) = Ok delta' ->
  short 28 delta' /\ -10 <= dexp delta' <= 17 /\ (dval delta' == adverse f r)%Q.
Proof.
  intros Hp Hr E1 E2. rewrite psub_money in E1 by done. apply Ok_inj in E1. destruct (sub_short _ _ Hp Hr) as [Hs He].
  rewrite E1 in Hs, He. assert (Hv : (dval delta == dval (fl_price f) - dval (rf_price r))%Q).
  { rewrite <- E1, dadd_raw_val, dneg_raw_val. reflexivity. }
  unfold adverse. destruct (fl_side f).
  - apply Ok_inj in E2. by subst delta'.
  - rewrite dneg_short in E2 by done. apply Ok_inj in E2. subst delta'. split; [unfold short in *; cbn; lia|].
    split; [cbn; lia|]. rewrite dneg_raw_val, Hv. ring.
Qed.
(** The quotient of a difference by an amount of money. *)
Lemma dec_at_least d : coef d <> 0 -> -10 <= dexp d -> (p10 (-10) <= Qabs (dval d))%Q.
Proof.
  intros Hn He. unfold dval. rewrite Qabs_Qmult, (Qabs_pos (p10 _)) by (apply Qlt_le_weak, p10_pos).
  eapply Qle_trans; [apply (p10_le _ _ He)|]. rewrite <- (Qmult_1_l (p10 (dexp d))) at 1.
  apply Qmult_le_compat_r; [|apply Qlt_le_weak, p10_pos]. change (inject_Z 1 <= inject_Z (Z.abs (coef d)))%Q. rewrite <- Zle_Qle. lia.
Qed.
Lemma dec_less k d : 0 <= k -> short k d -> dexp d <= 17 -> (Qabs (dval d) < p10 (k + 17))%Q.
Proof.
  unfold short. intros Hk Hs He. unfold dval. rewrite Qabs_Qmult, (Qabs_pos (p10 (dexp d))) by (apply Qlt_le_weak, p10_pos).
  rewrite p10_add. apply Qlt_le_trans with (inject_Z (10 ^ k) * p10 (dexp d))%Q.
  - apply Qmult_lt_compat_r; [apply p10_pos|]. change (inject_Z (Z.abs (coef d)) < inject_Z (10 ^ k))%Q. by rewrite <- Zlt_Qlt.
  - rewrite <- (p10_Z k Hk). apply Qmult_le_l; [apply p10_pos|by apply p10_le].
Qed.
Lemma quotient_range d p : coef d <> 0 -> short 28 d -> -10 <= dexp d <= 17 -> money p -> (0 < dval p)%Q ->
  (p10 (-28) <= Qabs (dval d / dval p))%Q /\ (Qabs (dval d / dval p) < p10 60)%Q.
Proof.
  intros Hn Hs He Hp Hpos. pose proof (mo_exp _ Hp) as Hpe.
  assert (Hc : coef p <> 0) by (intros Hz; rewrite (dval_zero _ Hz) in Hpos; lra).
  pose proof (dec_at_least _ Hc ltac:(lia)) as Hp1. pose proof (dec_at_least _ Hn ltac:(lia)) as Hd1.
  pose proof (dec_less 28 d ltac:(lia) Hs ltac:(lia)) as Hd2. rewrite (Qabs_pos (dval p)) in Hp1 by lra.
  assert (Hp2 : (dval p < p10 18)%Q).
  { pose proof (mo_coef _ Hp). pose proof (mo_size _ Hp). unfold dval. replace 18 with ((18 - dexp p) + dexp p) by lia.
    rewrite (p10_add (18 - dexp p)), (p10_Z (18 - dexp p)) by lia. apply Qmult_lt_compat_r; [apply p10_pos|by rewrite <- Zlt_Qlt]. }
  unfold Qdiv. rewrite Qabs_Qmult, (Qabs_pos (/ dval p)) by (by apply Qlt_le_weak, Qinv_lt_0_compat).
  change (Qabs (dval d) * / dval p)%Q with (Qabs (dval d) / dval p)%Q. split.
  - apply Qle_shift_div_l; [done|]. eapply Qle_trans; [|exact Hd1]. replace (-10) with (-28 + 18) by lia. rewrite p10_add.
    apply Qmult_le_l; [apply p10_pos|lra].
  - apply Qlt_shift_div_r; [done|]. eapply Qlt_le_trans; [exact Hd2|]. eapply Qle_trans; [|apply Qmult_le_l; [apply p10_pos|exact Hp1]].
    rewrite <- p10_add. by apply p10_le.
Qed.
Lemma measure_exact f r m : money (fl_price f) -> money (rf_price r) -> (0 < dval (rf_price r))%Q ->
  0 <= fl_quantity f < 10 ^ 12 -> measure f r = Ok m -> measured f r m.
Proof.
  intros Hp Hr Hpos Hq E. unfold measure in E. unbind E u Eu. unbind E delta Ed. unbind E delta' Ed'.
  destruct (delta_exact _ _ _ _ Hp Hr Ed Ed') as (Hs & He & Hv).
  unbind E signed Es. rewrite pmul_quantity in Es by done. apply Ok_inj in Es. subst signed.
  unbind E absolute Ea. unbind E fraction Ef. unbind E bps Eb. apply Ok_inj in E. subst m.
  assert (Habs : absolute = Dec (Z.abs (coef (dmul_raw delta' (dZ (fl_quantity f))))) (dexp (dmul_raw delta' (dZ (fl_quantity f))))).
  { unfold dabs in Ea. rewrite (precision_short 40) in Ea; [by apply Ok_inj in Ea|done| |cbn; lia].
    pose proof (mul_short 12 _ _ ltac:(lia) Hq Hs) as Hm. unfold short in *. cbn in *. lia. }
  split; cbn.
  - exact Hv.
  - by rewrite dmul_raw_val, dval_Z, Hv.
  - rewrite Habs. apply dabs_val.
  - assert (Hx : (dval delta' / dval (rf_price r) == 0)%Q \/ (p10 (-28) <= Qabs (dval delta' / dval (rf_price r)))%Q /\
      (Qabs (dval delta' / dval (rf_price r)) < p10 60)%Q).
    { destruct (Z.eq_dec (coef delta') 0) as [Hz|Hz]; [left; rewrite (dval_zero _ Hz); apply Qdiv_0_l|right; by apply quotient_range]. }
    pose proof (points_close _ _ _ _ Ef Eb Hx) as Hb. rewrite Hv in Hb. exact Hb.
Qed.

(** ** The cash of a fill *)

Lemma cash_exact price q fees value cash (buy : bool) : money price -> money fees -> 0 <= q < 10 ^ 11 ->
  pmul price (dZ q) = Ok value ->
  (if buy then paid ← padd value fees; dneg PRECISION paid else psub value fees) = Ok cash ->
  (dval cash == if buy then - (dval price * inject_Z q + dval fees) else dval price * inject_Z q - dval fees)%Q.
Proof.
  intros Hp Hf Hq E1 E2. pose proof (short_money _ Hp) as Hs. pose proof (mo_exp _ Hp) as He.
  rewrite pmul_quantity in E1 by (done || lia). apply Ok_inj in E1. subst value.
  pose proof (mo_exp _ Hf) as Hfe.
  assert (Hv : forall e, -10 <= e <= dexp price -> Z.abs (coef price * q * 10 ^ (dexp price - e)) < 10 ^ 39).
  { intros e Hb. pose proof (money_aligned _ _ Hp Hb). replace (10 ^ 39) with (10 ^ 28 * 10 ^ 11) by (vm_compute; done). nia. }
  assert (Hadd : forall b, -10 <= dexp b <= 17 -> (forall e, -10 <= e <= dexp b -> Z.abs (coef b * 10 ^ (dexp b - e)) < 10 ^ 28) ->
    short 40 (dadd_raw (dmul_raw price (dZ q)) b) /\ -10 <= dexp (dadd_raw (dmul_raw price (dZ q)) b) <= 17).
  { intros b Hb1 Hb2. unfold dadd_raw, short. destruct (align _ _) as [x y] eqn:E. unfold align in E. cbn in E.
    injection E as <- <-. cbn. specialize (Hv (Z.min (dexp price + 0) (dexp b)) ltac:(lia)).
    specialize (Hb2 (Z.min (dexp price + 0) (dexp b)) ltac:(lia)). rewrite Z.add_0_r in *.
    replace (10 ^ 40) with (10 * 10 ^ 39) by (vm_compute; done). assert (10 ^ 28 < 10 ^ 39) by (vm_compute; done). lia. }
  destruct buy.
  - unbind E2 paid E2'. destruct (Hadd fees Hfe) as [Hs1 He1].
    { intros e Hb. pose proof (money_aligned _ _ Hf Hb). lia. }
    unfold padd, dadd in E2'. rewrite (precision_short 40) in E2' by (done || lia). apply Ok_inj in E2'.
    unfold dneg in E2. rewrite (precision_short 40) in E2; [|done|subst paid; unfold short in *; cbn in *; lia|subst paid; cbn; lia].
    apply Ok_inj in E2. rewrite <- E2, dneg_raw_val, <- E2', dadd_raw_val, dmul_raw_val, dval_Z. reflexivity.
  - destruct (Hadd (dneg_raw fees)) as [Hs1 He1]; [cbn; lia| |].
    { intros e Hb. pose proof (money_aligned _ _ Hf Hb). cbn in *. lia. }
    unfold psub, dsub in E2. rewrite (precision_short 40) in E2 by (done || lia). apply Ok_inj in E2.
    rewrite <- E2, dadd_raw_val, dmul_raw_val, dneg_raw_val, dval_Z. ring.
Qed.

Lemma raw_money v d : parse_decimal v = Ok d -> money v /\ (dval d == dval v)%Q.
Proof.
  intros (H1 & H2 & H3 & ->)%parse_decimal_Ok. split; [|by apply canonical_money_val]. unfold adjusted in H2.
  pose proof (ndigits_pos (coef v)). split; [done| |lia]. destruct (Z.eq_dec (coef v) 0) as [->|Hn].
  - apply Z.pow_pos_nonneg; lia.
  - pose proof (ndigits_spec _ Hn) as (_ & _ & Hlt). rewrite Z.abs_eq in Hlt by lia. eapply Z.lt_le_trans; [exact Hlt|].
    apply Z.pow_le_mono_r; lia.
Qed.

(** ** The fills of a run *)

(** What holds of every accepted fill: its fields, and its cash, which is exact. *)
Record typed_fill (f : Fill) : Prop := {
  tf_price : money (fl_price f) /\ (0 < dval (fl_price f))%Q;
  tf_fees : money (fl_fees f);
  tf_quantity : 0 < fl_quantity f;
  tf_strategy : fl_strategy_id f ∈ strategy_names;
  tf_symbol : fl_symbol f <> ""%string;
  tf_hashes : hash_ok (fl_fill_id f) = true /\ hash_ok (fl_run_id f) = true /\ hash_ok (fl_event_hash f) = true;
  tf_decided : fl_cutoff f = fl_at f /\ fl_session_date f = nse_date (fl_at f);
  tf_cash : fl_quantity f < 10 ^ 11 ->
    (dval (fl_cash_delta f) ==
     match fl_side f with
     | BUY => - (dval (fl_price f) * inject_Z (fl_quantity f) + dval (fl_fees f))
     | SELL => dval (fl_price f) * inject_Z (fl_quantity f) - dval (fl_fees f)
     end)%Q
}.
Lemma fill_validate_Ok f f' : fill_validate f = Ok f' -> exists price fees, parse_decimal (fl_price f) = Ok price /\
  parse_decimal (fl_fees f) = Ok fees /\ (dval d0 < dval price)%Q /\ 0 < fl_quantity f /\ fl_strategy_id f ∈ strategy_names /\
  fl_symbol f <> ""%string /\ hash_ok (fl_fill_id f) = true /\ hash_ok (fl_run_id f) = true /\ hash_ok (fl_event_hash f) = true /\
  f' = mkFill (fl_fill_id f) (fl_run_id f) (fl_session_date f) (fl_symbol f) (fl_strategy_id f) (fl_side f) price (fl_at f)
        (fl_cutoff f) (fl_quantity f) fees (fl_cash_delta f) (fl_event_hash f).
Proof.
  unfold fill_validate. intros E. unbind E price Ep. unbind E fees Ef. unbind E u Eu. apply Ok_inj in E.
  apply raise_unless_Ok in Eu. bool_inv. exists price, fees. split_and!; done.
Qed.
(** The order that an event names is the last one of the report with that identifier. *)
Definition order_of (reports e o : json) : Prop := exists orders l1 l2 id,
  list_at "orders.json" reports = Ok orders /\ orders = l1 ++ o :: l2 /\ text_at "order_id" e = Ok id /\
  text_at "order_id" o = Ok id /\ Forall (fun o' => text_at "order_id" o' <> Ok id) l2.
Lemma orders_by_id_last reports d e id o : orders_by_id reports = Ok d -> text_at "order_id" e = Ok id -> find d id = Some o ->
  order_of reports e o.
Proof.
  unfold orders_by_id. intros E Hid Ho. unbind E l El.
  assert (Hl : forall id o, find d id = Some o -> exists l1 l2, l = l1 ++ o :: l2 /\ text_at "order_id" o = Ok id /\
    Forall (fun o' => text_at "order_id" o' <> Ok id) l2).
  { apply (foldR_prefix_inv (fun pre d => forall id o, find d id = Some o -> exists l1 l2, pre = l1 ++ o :: l2 /\
      text_at "order_id" o = Ok id /\ Forall (fun o' => text_at "order_id" o' <> Ok id) l2)
      (fun d o => id ← text_at "order_id" o; Ok (store d id o)) [] l d); [|done|exact E].
    intros pre x post s1 s2 _ I Es k y Hy. unbind Es kx Ekx. apply Ok_inj in Es. subst s2. rewrite find_store in Hy.
    case_decide as Hk.
    - injection Hy as <-. subst k. by exists pre, [].
    - destruct (I k y Hy) as (l1 & l2 & -> & Ey & F). exists l1, (l2 ++ [x]). rewrite <- app_assoc. split; [done|]. split; [done|].
      apply Forall_app. split; [exact F|]. constructor; [|constructor]. congruence. }
  destruct (Hl id o Ho) as (l1 & l2 & El' & Eo & F). by exists l, l1, l2, id.
Qed.

(** A fill is that of an event of an outcome: a purchase when the event fills its order
    and a sale when it closes it; its names, instant and amounts are those of the event,
    its run that of the outcome, and its quantity, price and instant those of the order. *)
Record fill_for (outcome e : json) (f : Fill) : Prop := {
  ff_side : key "state" e = Ok (JStr (match fl_side f with BUY => "FILLED" | SELL => "CLOSED" end));
  ff_names : text_at "event_id" e = Ok (fl_fill_id f) /\ text_at "symbol" e = Ok (fl_symbol f) /\
    text_at "strategy_id" e = Ok (fl_strategy_id f) /\ text_at "current_hash" e = Ok (fl_event_hash f);
  ff_run : exists binding, key "binding" outcome = Ok binding /\ text_at "run_id" binding = Ok (fl_run_id f);
  ff_at : instant_at "timestamp" e = Ok (fl_at f);
  ff_amounts : exists details price fees cash,
    key "details" e = Ok details /\ amount_at "price" details = Ok price /\ amount_at "fees" e = Ok fees /\
    amount_at "cash_delta" e = Ok cash /\ (dval (fl_price f) == dval price)%Q /\ (dval (fl_fees f) == dval fees)%Q /\
    (dval (fl_cash_delta f) == dval cash)%Q;
  ff_cutoff : fl_side f = BUY -> exists details timing, key "details" e = Ok details /\ key "timing" details = Ok timing /\
    instant_at "data_availability_cutoff" timing = Ok (fl_at f);
  ff_order : exists reports o price stamp_ stamp',
    key "reports" outcome = Ok reports /\ order_of reports e o /\ key "quantity" o = Ok (JInt (fl_quantity f)) /\
    amount_at (match fl_side f with BUY => "entry" | SELL => "exit" end) o = Ok price /\ (dval (fl_price f) == dval price)%Q /\
    key "timestamp" e = Ok stamp_ /\ key (match fl_side f with BUY => "entry_at" | SELL => "exit_at" end) o = Ok stamp' /\
    norm stamp' = norm stamp_
}.
Lemma fill_of_ok outcome reports orders e (buy : bool) f : key "reports" outcome = Ok reports -> orders_by_id reports = Ok orders ->
  key "state" e = Ok (JStr (if buy then "FILLED" else "CLOSED")) -> fill_of outcome orders e buy = Ok f ->
  typed_fill f /\ fill_for outcome e f.
Proof.
  unfold fill_of. intros Hrep Hord Hstate E. unbind E oid E1. unbind E ord_ E2. unbind E det_ E3. unbind E prc_ E4. unbind E qj E5.
  unbind E q E6. unbind E fee_ E7. unbind E prc2_ E8. unbind E u9 E9. unbind E stm_ E10. unbind E u11 E11. unbind E at_ E12.
  unbind E cut_ E13. unbind E u14 E14. unbind E val_ E15. unbind E cash_ E16. unbind E delta_ E17. unbind E u18 E18.
  unbind E ev_ E19. unbind E bnd_ E20. unbind E own_ E21. unbind E sym_ E22. unbind E strat_ E23. unbind E hash_ E24.
  apply fill_validate_Ok in E as (p & c & Hp & Hc & Hpos & Hq & Hs & Hsym & Hh1 & Hh2 & Hh3 & ->).
  cbn [fl_price fl_fees fl_quantity fl_strategy_id fl_symbol fl_fill_id fl_run_id fl_event_hash fl_side fl_at fl_cutoff fl_cash_delta fl_session_date] in *.
  apply raise_unless_Ok in E14. apply Z.eqb_eq in E14. apply raise_unless_Ok, deqb_spec in E9. apply raise_unless_Ok, deqb_spec in E18.
  pose proof (raw_money _ _ Hp) as [Hmp Hvp]. pose proof (raw_money _ _ Hc) as [Hmc Hvc].
  split; split; cbn; try done.
  - split; [by eapply parse_money|]. rewrite (dval_zero d0) in Hpos by reflexivity. exact Hpos.
  - by eapply parse_money.
  - intros Hlt. pose proof (cash_exact prc_ q fee_ val_ cash_ buy Hmp Hmc ltac:(lia) E15 E16) as Hcash. rewrite Hcash.
    destruct buy; rewrite Hvp, Hvc; reflexivity.
  - rewrite Hstate. by destruct buy.
  - by exists bnd_.
  - exists det_, prc_, fee_, delta_. split_and!; done.
  - intros Hb. destruct buy; [|discriminate Hb]. unbind E13 tim_ E25. exists det_, tim_. split; [done|]. split; [done|]. congruence.
  - unfold expect in E11. unbind E11 stm' Es. apply raise_unless_Ok, same_spec in E11. apply of_option_Ok in E2. destruct qj as [| |n| | |]; try discriminate E6.
    apply Ok_inj in E6. subst n. exists reports, ord_, prc2_, stm_, stm'.
    destruct buy; (split_and!; [done|by eapply orders_by_id_last|done|done|by rewrite Hvp, E9|done|done|done]).
Qed.

(** The events that are fills: the entry or the exit of an order. *)
Definition trading (e : json) : bool :=
  match key "state" e with Ok s => contains_json [JStr "FILLED"; JStr "CLOSED"]%string s | Err _ => false end.
Lemma norm_string v s : norm v = JStr s -> v = JStr s.
Proof. by destruct v. Qed.
Lemma trading_state v : contains_json [JStr "FILLED"; JStr "CLOSED"]%string v = true ->
  v = JStr (if same v (JStr "FILLED") then "FILLED" else "CLOSED").
Proof.
  unfold contains_json. cbn [existsb]. rewrite !orb_true_iff, !same_spec. destruct (same v (JStr "FILLED")) eqn:E; intros H.
  - apply same_spec in E. by apply norm_string.
  - destruct H as [H|[H|H]]; [|by apply norm_string|done]. exfalso. apply (eq_true_false_abs _ (proj2 (same_spec _ _) H) E).
Qed.
(** The fills of the events of one outcome. *)
Definition fills_of (outcome : json) (events : list json) (fills : list Fill) : Prop :=
  Forall2 (fun e f => fill_for outcome e f /\ typed_fill f) (List.filter trading events) fills.
Lemma event_step_walked outcome reports orders pre e s0 s s' fills : key "reports" outcome = Ok reports ->
  orders_by_id reports = Ok orders -> ac_fills s = s0 ++ fills -> fills_of outcome pre fills -> length_of (ac_fills s) <= LIMIT ->
  event_step outcome orders s e = Ok s' ->
  exists fills', ac_fills s' = s0 ++ fills' /\ fills_of outcome (pre ++ [e]) fills' /\ length_of (ac_fills s') <= LIMIT.
Proof.
  intros Hr Ho Hs W1 W2 E. unfold event_step in E. unbind E id_ E1. unbind E u E2. unbind E state E3.
  assert (Hf : List.filter trading (pre ++ [e]) = List.filter trading pre ++
    if contains_json [JStr "FILLED"; JStr "CLOSED"]%string state then [e] else []).
  { rewrite List.filter_app. cbn [List.filter]. unfold trading at 2. by rewrite E3. }
  destruct (contains_json [JStr "FILLED"; JStr "CLOSED"]%string state) eqn:Hc; cbn [negb] in E.
  - unbind E f E4. unbind E v E5. apply Ok_inj in E. subst s'. apply raise_unless_Ok in E5. bool_inv. cbn.
    exists (fills ++ [f]). split; [by rewrite Hs, app_assoc|]. split; [|done]. unfold fills_of. rewrite Hf.
    apply Forall2_app; [done|]. constructor; [|constructor]. rewrite (trading_state _ Hc) in E3.
    apply and_comm. by eapply fill_of_ok.
  - apply Ok_inj in E. subst s'. exists fills. rewrite app_nil_r in Hf. split; [done|]. split; [unfold fills_of; by rewrite Hf|done].
Qed.

Definition outcome_events (o : json) : res (list json) := reports ← key "reports" o; session_events reports.
Definition outcome_fills (o : json) (fills : list Fill) : Prop := exists events, outcome_events o = Ok events /\ fills_of o events fills.
Lemma outcome_step_walked s o s' : length_of (ac_fills s) <= LIMIT -> outcome_step s o = Ok s' ->
  exists fills, ac_fills s' = ac_fills s ++ fills /\ outcome_fills o fills /\ length_of (ac_fills s') <= LIMIT.
Proof.
  intros W E. unfold outcome_step in E. unbind E rep_ E1. unbind E ords_ E2. unbind E l E3.
  destruct (foldR_prefix_inv (fun pre t => exists fills, ac_fills t = ac_fills s ++ fills /\ fills_of o pre fills /\
    length_of (ac_fills t) <= LIMIT) (event_step o ords_) s l s') as (fills & Hs & Hf & Hl).
  - intros pre x post s1 s2 _ (fills & Hs & Hf & Hl) Es. by eapply event_step_walked.
  - exists []. rewrite app_nil_r. split; [done|]. split; [constructor|done].
  - exact E.
  - exists fills. split; [done|]. split; [|done]. exists l. split; [unfold outcome_events; by rewrite E1|done].
Qed.
Lemma outcomes_walked outcomes s : foldR outcome_step (mkAccepted [] []) outcomes = Ok s ->
  exists groups, Forall2 outcome_fills outcomes groups /\ ac_fills s = concat groups /\ length_of (ac_fills s) <= LIMIT.
Proof.
  intros E. apply (foldR_prefix_inv (fun pre s => exists groups, Forall2 outcome_fills pre groups /\ ac_fills s = concat groups /\
    length_of (ac_fills s) <= LIMIT) outcome_step (mkAccepted [] []) outcomes s).
  - intros pre x post s1 s2 _ (groups & F & Hs & Hl) Es. destruct (outcome_step_walked _ _ _ Hl Es) as (l & El & Ho & Hl').
    exists (groups ++ [l]). split; [by apply Forall2_app; [|constructor]|]. split; [|done].
    by rewrite concat_app, concat_cons, app_nil_r, El, Hs.
  - exists []. by repeat constructor.
  - exact E.
Qed.
Lemma groups_typed outcomes groups : Forall2 outcome_fills outcomes groups -> Forall typed_fill (concat groups).
Proof.
  induction 1 as [|o g outcomes groups (events & _ & F) _ IH]; cbn; [constructor|]. apply Forall_app. split; [|exact IH].
  apply (Forall2_Forall_r _ _ _ _ F). apply Forall_forall. by intros e _ f [_ Hf].
Qed.
