(* ===== verification/QualitySample.v ===== *)
(** * Worked measurements

    Two fills of one order, a reference for the entry and two copies of a reference for
    the exit; a concrete reader and writer of references, with instants as numbers. *)
From S2P Require Import Prelude Decimal DecimalFacts Text Dataset Costs Phase14 Strategies Execution Json JsonFacts JsonRead CanonicalPolicy Research Exec Qualification Chain PyText Paper.
From S2P Require Import Portfolio PortfolioRun Scheduler Multi MultiFacts Analytics Attribution Quality QualityFacts.
From S2P Require Sample.
From Stdlib Require Import Ascii.
Import Sample.
Open Scope list_scope.
Open Scope Z_scope.

Definition reference_fields (r : Reference) : list (string * json) :=
  [("policy_hash", JStr (rf_policy_hash r)); ("evidence_id", JStr (rf_evidence_id r)); ("run_id", JStr (rf_run_id r));
   ("session_date", JInt (rf_session_date r)); ("symbol", JStr (rf_symbol r)); ("strategy_id", JStr (rf_strategy_id r));
   ("fill_id", JStr (rf_fill_id r)); ("side", JStr (side_text (rf_side r))); ("reference_price", jdec (rf_price r));
   ("observed_at", JInt (rf_observed_at r)); ("available_at", JInt (rf_available_at r));
   ("measurement_cutoff", JInt (rf_cutoff r)); ("fill_price", jdec (rf_fill_price r)); ("fill_at", JInt (rf_fill_at r));
   ("quantity", JInt (rf_quantity r)); ("fingerprint", JStr (rf_fingerprint r))]%string.
#[export] Instance json_reference : DumpJson Reference := fun r => JObj (reference_fields r).
#[export] Instance json_fill : DumpJson Fill := fun f => JStr (fl_fill_id f).

Definition int_at (k : string) (d : json) : res Z := v ← key k d; match v with JInt n => Ok n | _ => Err TypeError end.
Definition side_at (k : string) (d : json) : res Side :=
  s ← text_at k d; Ok (if bool_decide (s = "BUY"%string) then BUY else SELL).
Definition parse_reference (v : json) : res Reference :=
  policy ← text_at "policy_hash" v; evidence ← text_at "evidence_id" v; run ← text_at "run_id" v;
  day ← int_at "session_date" v; symbol ← text_at "symbol" v; strategy ← text_at "strategy_id" v;
  fill ← text_at "fill_id" v; side ← side_at "side" v; price ← amount_at "reference_price" v;
  observed ← int_at "observed_at" v; available ← int_at "available_at" v; cutoff ← int_at "measurement_cutoff" v;
  paid ← amount_at "fill_price" v; at_ ← int_at "fill_at" v; quantity ← int_at "quantity" v;
  fingerprint ← text_at "fingerprint" v;
  Ok (mkReference policy evidence run day symbol strategy fill side price observed available cutoff paid at_ quantity fingerprint).
#[export] Instance read_reference : ReadJson Reference := fun v =>
  match parse_reference v with Ok r => Ok r | Err _ => Err (ValueError "validation error") end.

Lemma text_at_norm k v : text_at k (norm v) = text_at k v.
Proof. unfold text_at. rewrite key_norm. destruct (key k v) as [x|]; [by destruct x|done]. Qed.
Lemma int_at_norm k v : int_at k (norm v) = int_at k v.
Proof. unfold int_at. rewrite key_norm. destruct (key k v) as [x|]; [by destruct x|done]. Qed.
Lemma side_at_norm k v : side_at k (norm v) = side_at k v.
Proof. unfold side_at. by rewrite text_at_norm. Qed.
Lemma amount_at_norm k v : amount_at k (norm v) = amount_at k v.
Proof. unfold amount_at. rewrite key_norm. destruct (key k v) as [x|]; [by destruct x|done]. Qed.
Lemma text_at_find k l s : text_at k (JObj l) = Ok s -> find l k = Some (JStr s).
Proof.
  unfold text_at. intros E. unbind E x Ex. apply of_option_Ok in Ex. destruct x; try discriminate E. apply Ok_inj in E. by subst.
Qed.
#[export] Instance reads_sample : ReadsReference (reader := read_reference).
Proof.
  split; unfold model_validate, read_reference.
  - intros v. replace (parse_reference (norm v)) with (parse_reference v); [done|]. unfold parse_reference.
    by rewrite !text_at_norm, !int_at_norm, side_at_norm, !amount_at_norm.
  - intros l r E. destruct (parse_reference (JObj l)) as [r'|] eqn:Ep; [|discriminate E]. apply Ok_inj in E. subst r'.
    unfold parse_reference in Ep. unbind Ep p1 E1. unbind Ep p2 E2. apply text_at_find in E2. rewrite E2.
    do 14 (apply bind_Ok in Ep as (? & _ & Ep)). apply Ok_inj in Ep. by subst r.
  - intros l r E. destruct (parse_reference (JObj l)) as [r'|] eqn:Ep; [|discriminate E]. apply Ok_inj in E. subst r'.
    unfold parse_reference in Ep. do 6 (apply bind_Ok in Ep as (? & _ & Ep)). unbind Ep p7 E7. apply text_at_find in E7. rewrite E7.
    do 9 (apply bind_Ok in Ep as (? & _ & Ep)). apply Ok_inj in Ep. by subst r.
  - intros v e E. destruct (parse_reference v); [discriminate E|]. injection E as <-. by eexists.
Qed.

(** ** The fills and their references *)

Definition hash_of (c : ascii) : string := String.string_of_list_ascii (repeat c 64).
Definition entry_fill : Fill :=
  mkFill (hash_of "a") (hash_of "c") 20000 "INFY" "S01" BUY (Dec 10250 (-2)) 1728013800000000 1728013800000000 10 (Dec 5 (-1))
    (Dec (-10255) (-1)) (hash_of "e").
Definition exit_fill : Fill :=
  mkFill (hash_of "b") (hash_of "c") 20000 "INFY" "S01" SELL (Dec 10200 (-2)) 1728014400000000 1728014400000000 10 (Dec 5 (-1))
    (Dec 10195 (-1)) (hash_of "f").
Definition sample_fills : list Fill := [entry_fill; exit_fill].
Definition reference_for (evidence : string) (price : dec) (f : Fill) : list (string * json) :=
  seal_reference (reference_fields
    (mkReference (sha (canonical POLICY)) evidence (fl_run_id f) (fl_session_date f) (fl_symbol f) (fl_strategy_id f)
       (fl_fill_id f) (fl_side f) price (fl_cutoff f) (fl_cutoff f) (fl_cutoff f) (fl_price f) (fl_at f) (fl_quantity f) "")).
Definition sample_records : list (list (string * json)) :=
  [reference_for "first" (Dec 101 0) entry_fill; reference_for "second" (Dec 103 0) exit_fill;
   reference_for "third" (Dec 102 0) exit_fill].

Lemma sample_classified : (fun j => (length (ju_accepted j), snd <$> ju_rejected j)) <$> classify sample_fills sample_records =
  Ok (1%nat, ["DUPLICATE_FILL_ATTRIBUTION"; "DUPLICATE_FILL_ATTRIBUTION"]%string).
Proof. vm_compute. reflexivity. Qed.

(** An outcome with one fill, as [Multi] publishes it. *)
Definition fill_event : json :=
  JObj [("event_id", JStr (hash_of "a")); ("state", JStr "FILLED"); ("order_id", JStr "order"); ("symbol", JStr "INFY");
        ("strategy_id", JStr "S01"); ("timestamp", JStr "2024-10-04T03:50:00+00:00"); ("fees", JStr "0.5");
        ("cash_delta", JStr "-1025.5"); ("current_hash", JStr (hash_of "e"));
        ("details", JObj [("price", JStr "102.50");
                          ("timing", JObj [("data_availability_cutoff", JStr "2024-10-04T03:50:00+00:00")])])]%string.
Definition filled_outcome : json :=
  JObj [("binding", JObj [("run_id", JStr (hash_of "c"))]);
        ("reports", JObj [("orders.json", JArr [JObj [("order_id", JStr "order"); ("quantity", JInt 10);
                             ("entry", JStr "102.50"); ("entry_at", JStr "2024-10-04T03:50:00+00:00")]]);
                          ("session-events.json", JArr [JObj [("portfolio_events", JArr [fill_event])]])])]%string.
Definition filled_source : json := JObj [("outcomes", JArr [filled_outcome])]%string.
Lemma filled_accepted : accepted_fills (list_at "outcomes") filled_source (sha (canonical filled_source)) =
  Ok [mkFill (hash_of "a") (hash_of "c") 20000 "INFY" "S01" BUY (Dec 1025 (-1)) 1728013800000000 1728013800000000 10
        (Dec 5 (-1)) (Dec (-102550) (-2)) (hash_of "e")].
Proof. vm_compute. reflexivity. Qed.
