(* ===== verification/QualityTheorems.v ===== *)
(** * Fills measured against references

    What [Quality] promises: typed fills tied to their events and orders, measurements
    whose sign is the adverse direction of the side, a partition of the references that
    does not depend on their order, and sums over the right fills. *)
From S2P Require Import Prelude Decimal DecimalFacts MoneyFacts Text Dataset Costs Phase14 Strategies Execution Json JsonFacts JsonRead CanonicalPolicy Research Exec Qualification Chain PyText Paper.
From S2P Require Import Errors Portfolio PortfolioRun Scheduler Multi MultiFacts Analytics Attribution Quality QualityFacts QualitySample.
From Stdlib Require Import Ascii.
Open Scope list_scope.
Open Scope Z_scope.

(** C10. The fills of a validated run.  Taking the outcomes in order, there is one fill for
    each event of an outcome that fills or closes an order, in the order of the events; no
    two have the same identifier, and they are at most 50,000.  Each fill is a purchase
    exactly when its event fills the order and a sale when it closes it; its identifier,
    symbol, strategy, hash, instant, price, fees and cash are those of the event, its run
    that of the outcome, and its quantity, price and instant those of the entry or the
    exit of the order that the event names.  Every fill is well typed: positive price and
    quantity, fees that are money, a strategy of the six, digests, a decision at the
    instant of the fill and the trading day of that instant.  Below 10^11 shares its cash
    is exactly minus price times quantity minus fees for a purchase, and price times
    quantity minus fees for a sale (beyond, it is that rounded to forty digits). *)
Theorem accepted_fills_typed validated source expected_hash fills :
  accepted_fills validated source expected_hash = Ok fills ->
  exists outcomes groups, validated source = Ok outcomes /\ fills = concat groups /\
    Forall2 (fun outcome group => exists events, outcome_events outcome = Ok events /\
      Forall2 (fill_for outcome) (List.filter trading events) group) outcomes groups /\
    Forall typed_fill fills /\ NoDup (fl_fill_id <$> fills) /\ Z.of_nat (length fills) <= 50000.
Proof.
  unfold accepted_fills. intros E. unbind E u1 E1. unbind E u2 E2. unbind E outcomes E3. unbind E s E4. unbind E u5 E5.
  apply Ok_inj in E. subst fills. apply raise_unless_Ok in E5. bool_inv.
  destruct (outcomes_walked _ _ E4) as (groups & F & Hs & Hl). exists outcomes, groups. split; [exact E3|].
  split; [exact Hs|]. split; [|split; [rewrite Hs; by eapply groups_typed|by split]].
  eapply Forall2_impl; [exact F|]. intros o g (events & Ee & Fe). exists events. split; [exact Ee|].
  eapply Forall2_impl; [exact Fe|]. by intros e f [He _].
Qed.

(** C11. A measurement is exact and signed by the side.  For amounts of money and less
    than 10^12 shares, the cost per share is exactly fill minus reference for a purchase
    and reference minus fill for a sale, the signed cost is that times the quantity, the
    absolute cost is its absolute value, and the basis points are ten thousand times the
    cost per share over the reference, with a relative error of at most 10^-39 (so zero
    where the cost is zero, and otherwise of its sign). *)
Theorem measure_adverse f r m : money (fl_price f) -> money (rf_price r) -> (0 < dval (rf_price r))%Q ->
  0 <= fl_quantity f < 10 ^ 12 -> measure f r = Ok m -> linked f r = true /\ measured f r m.
Proof.
  intros Hp Hr Hpos Hq E. split; [|by apply measure_exact]. unfold measure in E. unbind E u Eu.
  by apply raise_unless_Ok in Eu.
Qed.

(** C14. Every record is measured or rejected, once.  The accepted measurements and the
    rejections together are as many as the records.  A fill has at most one measurement,
    and has the measurement of a record exactly when that record's two identifiers are
    unique among the records, its contract and causality hold, and it is linked to the
    fill; a record that shares its fill or its evidence identifier with another one is
    never measured. *)
Theorem records_partition `{DumpJson Reference} `{ReadsReference} fills records judged :
  NoDup (fl_fill_id <$> fills) -> classify fills records = Ok judged ->
  (length (ju_accepted judged) + length (ju_rejected judged))%nat = length records /\
  NoDup (ju_accepted judged).*1 /\
  (forall k r m, find (ju_accepted judged) k = Some (r, m) <->
     exists raw, raw ∈ records /\ accepts fills records raw r m /\ rf_fill_id r = k) /\
  (forall raw raw' r m l1 l2 l3, records = l1 ++ raw :: l2 ++ raw' :: l3 ->
     text_of "fill_id" raw = text_of "fill_id" raw' \/ text_of "evidence_id" raw = text_of "evidence_id" raw' ->
     ~ accepts fills records raw r m /\ ~ accepts fills records raw' r m).
Proof.
  intros Hn E. apply classify_judged in E as [I1 I2 I3]; [|done]. rewrite (Permutation_length (by_text_perm records)) in I1.
  split; [exact I1|]. split; [exact I2|]. split; [intros k r m; rewrite I3; by setoid_rewrite by_text_perm|].
  intros raw raw' r m l1 l2 l3 Hl Hsame. split; intros (O1 & O2 & _); rewrite Hl in O1, O2;
    (destruct Hsame as [Hs|Hs]; [eapply occurrences_once in O2|eapply occurrences_once in O1]; done).
Qed.

(** The order of the references is irrelevant: permuting them changes nothing in the
    result, provided that their identifiers are not lists or dictionaries (whose text
    depends on the order of the fields). *)
Theorem attribution_order `{DumpJson Reference} `{ReadsReference} `{DumpJson Fill} universe fills records records' :
  Forall plain records -> records ≡ₚ records' -> attribute universe fills records = attribute universe fills records'.
Proof.
  intros Hplain Hp. unfold attribute, attribution. rewrite (classify_perm fills records records') by done.
  unfold length_of. by rewrite (Permutation_length Hp).
Qed.

(** C25. Attribution, for a universe without repetitions and fills of the six strategies,
    returns, or fails with one of four messages (too many fills or records, a duplicate
    fill, an unknown symbol, column totals separated by rounding) or a signal of the
    decimal arithmetic.  Its result partitions the records.  The portfolio sums the fees and
    the cash of all the fills, and the signed and the absolute costs of their accepted
    measurements, each of which it counts once; the row of a strategy or of a symbol sums
    those of its own fills, and the rows count every fill and every measured fill once.
    These sums are exact for up to 50,000 amounts below 10^24.  The four columns of a table
    add up to the portfolio.  Coverage is the fraction of measured fills, between zero and
    one, and a row is complete exactly when it has fills and all of them are measured. *)
Theorem attribution_coverage `{DumpJson Reference} `{ReadsReference} `{DumpJson Fill} universe fills records :
  NoDup universe -> Forall (fun f => fl_strategy_id f ∈ strategy_names) fills ->
  wp (among attribution_messages) (attribution universe fills records) (attributed_ok universe fills records).
Proof. apply wp_attribution. Qed.

(** ** Witnesses *)

Lemma sample_distinct : NoDup (fl_fill_id <$> sample_fills).
Proof. apply (bool_decide_eq_true_1 (NoDup (fl_fill_id <$> sample_fills))). vm_compute. reflexivity. Qed.
Lemma accepted_fills_typed_witness : exists fills,
  accepted_fills (list_at "outcomes") filled_source (sha (canonical filled_source)) = Ok fills /\ length fills = 1%nat /\
  Forall typed_fill fills.
Proof.
  eexists. split; [exact filled_accepted|]. split; [reflexivity|].
  destruct (accepted_fills_typed (list_at "outcomes") filled_source (sha (canonical filled_source)) _ filled_accepted)
    as (outcomes & groups & _ & _ & _ & Ht & _).
  exact Ht.
Defined.
(** Bought at 102.50, where the reference is 101: ten shares cost 15 too much. *)
Definition entry_reference : Reference :=
  mkReference (sha (canonical POLICY)) "first" (hash_of "c"%char) 20000 "INFY" "S01" (hash_of "a"%char) BUY (Dec 101 0) 1728013800000000
    1728013800000000 1728013800000000 (Dec 10250 (-2)) 1728013800000000 10 "".
Lemma measure_adverse_witness : exists m, measure entry_fill entry_reference = Ok m /\ (dval (me_signed m) == 15)%Q.
Proof.
  assert (E : measure entry_fill entry_reference =
    Ok (mkMeasure (Dec 1500 (-2)) (Dec 1500 (-2)) (Dec 150 (-2)) (Dec 1485148514851485148514851485148514851485 (-37)))).
  { vm_compute. reflexivity. }
  eexists. split; [exact E|].
  destruct (measure_adverse entry_fill entry_reference _ ltac:(split; vm_compute; intuition congruence)
    ltac:(split; vm_compute; intuition congruence) ltac:(vm_compute; reflexivity) ltac:(split; vm_compute; congruence) E)
    as [_ [_ Hm _ _]].
  rewrite Hm. vm_compute. reflexivity.
Defined.
Lemma records_partition_witness : exists judged, classify sample_fills sample_records = Ok judged /\
  length (ju_rejected judged) = 2%nat /\ (length (ju_accepted judged) + 2)%nat = 3%nat.
Proof.
  pose proof sample_classified as E. destruct (classify sample_fills sample_records) as [judged|e] eqn:Ec; [|discriminate E].
  apply Ok_inj in E. apply pair_equal_spec in E as [_ E].
  assert (Hr : length (ju_rejected judged) = 2%nat) by (rewrite <- (length_fmap snd), E; reflexivity).
  exists judged. split; [reflexivity|]. split; [exact Hr|]. rewrite <- Hr at 1.
  exact (proj1 (records_partition sample_fills sample_records judged sample_distinct Ec)).
Defined.
Lemma attribution_order_witness :
  attribute ["INFY"%string] sample_fills sample_records = attribute ["INFY"%string] sample_fills (rev sample_records).
Proof.
  apply (attribution_order ["INFY"%string] sample_fills sample_records (rev sample_records)).
  - unfold sample_records. repeat constructor.
  - apply Permutation_rev.
Defined.
Lemma attribution_coverage_witness : exists a, attribution ["INFY"%string] sample_fills sample_records = Ok a /\
  su_measured (at_portfolio a) = 1 /\ attributed_ok ["INFY"%string] sample_fills sample_records a.
Proof.
  assert (Hs : (fun a => su_measured (at_portfolio a)) <$> attribution ["INFY"%string] sample_fills sample_records = Ok 1)
    by (vm_compute; reflexivity).
  destruct (attribution ["INFY"%string] sample_fills sample_records) as [a|e] eqn:E; [|discriminate Hs].
  exists a. split; [reflexivity|]. split; [by apply Ok_inj in Hs|].
  refine (wp_elim _ _ _ a (attribution_coverage ["INFY"%string] sample_fills sample_records _ _) E).
  - apply NoDup_singleton.
  - repeat constructor; apply (bool_decide_eq_true_1 (_ ∈ strategy_names)); vm_compute; reflexivity.
Defined.
