(* ===== verification/Monitoring.v ===== *)
(** * Portfolio analytics ([phase1424/analytics.py])

    Two measurements over a validated run.  [monitoring] compares the alerts of a run with
    an independent list of incidents: each incident is matched with the first free alert
    that is timely for it; what is left is missed, duplicate, late or unrelated.
    [exposure] integrates the market value of the positions over intervals in which
    explicit quotes hold, and calls the result complete only if the intervals tile every
    session.

    Reading the model classes is the class [ReadJson], followed by their validators. *)
From S2P Require Import Prelude Decimal DecimalFacts Text Dataset Costs Phase14 Strategies Execution Json JsonFacts JsonRead CanonicalPolicy Research Exec Qualification Chain PyText Paper.
From S2P Require Import Portfolio PortfolioRun Scheduler Multi Analytics Attribution Quality.
Open Scope list_scope.
Open Scope Z_scope.

Definition EXPOSURE_POLICY : json :=
  JObj [("version", JStr "Phase1424Exposure.v1"); ("scope", JStr "SYNTHETIC_FIXTURE");
        ("convention", JStr "EXPLICIT_CONSTANT_SYNTHETIC_QUOTE_INTERVALS"); ("units", JStr "INR_SECONDS");
        ("fraction", JStr "gross_market_value/causal_equity"); ("adjusted_return", JStr "net_return/average_gross_fraction");
        ("annualization", JBool false); ("interpolation", JBool false); ("shorts", JBool false)]%string.
Definition MONITORING_POLICY : json :=
  JObj [("version", JStr "Phase1424Monitoring.v1"); ("scope", JStr "SYNTHETIC_FIXTURE");
        ("matching", JStr "incident_start_id_then_alert_time_id_one_to_one"); ("timely", JStr "start<=alert<=deadline");
        ("late", JStr "deadline<alert<=window_end");
        ("false_positives", JStr "all_unmatched_alerts_including_duplicates_and_late");
        ("false_negatives", JStr "all_incidents_without_timely_match"); ("acknowledgment_is_resolution", JBool false);
        ("automatic_halt_clearance", JBool false)]%string.
Definition CATEGORIES : list string :=
  ["DATA_GAP"; "SESSION_DUPLICATE"; "RISK_LIMIT_BREACHED"; "PAPER_HALT_TRIGGERED"; "JOURNAL_CORRUPTED";
   "EOD_RECONCILIATION_FAILED"; "POLICY_MISMATCH"; "REPORT_MISSING"; "CLOCK_ROLLBACK"; "RECONCILIATION_FAILED"]%string.

(** [seconds(start, end)] *)
Definition seconds (start end_ : Z) : res dec := elapsed (end_ - start).
(** [seal(body)]: the digest of the other fields. *)
Definition seal (body : list (string * json)) : list (string * json) :=
  let value := without "fingerprint" body in
  store value "fingerprint"%string (JStr (sha (canonical (JObj value)))).
Definition bounded (value : json) : res unit :=
  raise_unless (Z.of_nat (length (canonical value)) <=? FILE_LIMIT) "INPUT_BUDGET".

(** ** Incidents *)

Record Incident := mkIncident {
  ic_id : string; ic_run_id : string; ic_session_date : Z; ic_category : string; ic_severity : string; ic_start : Z;
  ic_end : option Z; ic_expected_alert : string; ic_deadline : Z; ic_window_end : Z; ic_source_id : string
}.
Definition incident_valid (i : Incident) : res unit :=
  require! bool_decide (ic_category i ∈ CATEGORIES) && bool_decide (ic_expected_alert i = ic_category i) else "INCIDENT_CATEGORY";
  require! (ic_start i <=? ic_deadline i) && (ic_deadline i <=? ic_window_end i) &&
           match ic_end i with Some e => ic_start i <=? e | None => true end else "INCIDENT_TIME";
  raise_unless (nse_date (ic_start i) =? ic_session_date i) "INCIDENT_DATE".

Record Truth := mkTruth { th_policy_hash : string; th_incidents : list Incident; th_fingerprint : string }.
(** [self.model_dump(mode="json", exclude={"fingerprint"})] *)
Definition unfingered (v : json) : json := match v with JObj l => JObj (without "fingerprint" l) | v => v end.
Section truth.
Context `{DumpJson Truth} `{ReadJson Truth}.
Definition truth_valid (t : Truth) : res Truth :=
  _ ← mapR incident_valid (th_incidents t);
  require! length_of (th_incidents t) <=? LIMIT else "INCIDENT_BUDGET";
  require! bool_decide (NoDup (ic_id <$> th_incidents t)) else "DUPLICATE_INCIDENT";
  require! bool_decide (th_policy_hash t = sha (canonical MONITORING_POLICY)) else "MONITORING_POLICY";
  require! bool_decide (th_fingerprint t = sha (canonical (unfingered (model_dump_json_value t)))) else "GROUND_TRUTH_HASH";
  Ok t.
Definition validate_truth (v : json) : res Truth := t ← model_validate v; truth_valid t.
End truth.

(** ** Matching *)

(** An alert whose digest and time were checked. *)
Record Alarm := mkAlarm { am_id : string; am_at : Z; am_row : json }.
Definition read_alarm (a : json) : res Alarm :=
  _ ← check_alert a;
  at_ ← instant_at "timestamp" a;
  _ ← expect "ALERT_TIME" "session_date" a (JStr (date_text (nse_date at_)));
  id ← text_at "alert_id" a;
  Ok (mkAlarm id at_ a).
Definition check_ledger (alerts : list json) (expected_alert_hash : string) : res (list Alarm) :=
  _ ← bounded (JArr alerts);
  require! length_of alerts <=? LIMIT else "ALERT_BUDGET";
  require! bool_decide (sha (canonical (JArr alerts)) = expected_alert_hash) else "ALERT_LEDGER_HASH";
  ids ← mapR (key "alert_id") alerts;
  require! distinct ids else "DUPLICATE_ALERT_ID";
  mapR read_alarm alerts.

Definition alarm_le (a b : Alarm) : bool := (am_at a <? am_at b) || ((am_at a =? am_at b) && String.leb (am_id a) (am_id b)).
Definition incident_le (i j : Incident) : bool :=
  (ic_start i <? ic_start j) || ((ic_start i =? ic_start j) && String.leb (ic_id i) (ic_id j)).

(** The alert is of the kind of the incident, from its start up to an instant. *)
Definition signals (i : Incident) (until : Z) (a : Alarm) : res bool :=
  run ← key "run_id" (am_row a);
  if negb (same run (JStr (ic_run_id i))) then Ok false
  else
    date ← key "session_date" (am_row a);
    if negb (same date (JStr (date_text (ic_session_date i)))) then Ok false
    else
      reason ← key "reason" (am_row a);
      if negb (same reason (JStr (ic_expected_alert i))) then Ok false
      else Ok ((ic_start i <=? am_at a) && (am_at a <=? until)).
Definition free_signals (used : list string) (i : Incident) (a : Alarm) : res bool :=
  if bool_decide (am_id a ∈ used) then Ok false else signals i (ic_deadline i) a.

Record Match := mkMatch { ma_incident : string; ma_alert : string; ma_delay : dec }.
Record Matching := mkMatching { mg_used : list string; mg_matched : list Match; mg_missed : list string }.
Definition match_step (ordered : list Alarm) (s : Matching) (i : Incident) : res Matching :=
  eligible ← filterR (free_signals (mg_used s) i) ordered;
  match eligible with
  | a :: _ =>
      delay ← seconds (ic_start i) (am_at a);
      Ok (mkMatching (am_id a :: mg_used s) (mg_matched s ++ [mkMatch (ic_id i) (am_id a) delay]) (mg_missed s))
  | [] => Ok (mkMatching (mg_used s) (mg_matched s) (mg_missed s ++ [ic_id i]))
  end.
Definition matching (ordered : list Alarm) (incidents : list Incident) : res Matching :=
  foldR (match_step ordered) (mkMatching [] [] []) incidents.

(** The alerts that matched nothing: duplicates of a timely alert, and late ones. *)
Record Extra := mkExtra { ex_duplicates : list string; ex_late : list string }.
Definition extra_step (incidents : list Incident) (used : list string) (s : Extra) (a : Alarm) : res Extra :=
  if bool_decide (am_id a ∈ used) then Ok s
  else
    candidates ← filterR (fun i => signals i (ic_window_end i) a) incidents;
    if existsb (fun i => am_at a <=? ic_deadline i) candidates then Ok (mkExtra (ex_duplicates s ++ [am_id a]) (ex_late s))
    else if negb (is_nil candidates) then Ok (mkExtra (ex_duplicates s) (ex_late s ++ [am_id a]))
    else Ok s.
Definition extras (ordered : list Alarm) (incidents : list Incident) (used : list string) : res Extra :=
  foldR (extra_step incidents used) (mkExtra [] []) ordered.

(** The resolutions, which clear nothing. *)
Definition resolution_step (incidents : list Incident) (s : list (string * dec)) (row : json) : res (list (string * dec)) :=
  fields ← fields_of row;
  require! same (JObj (seal fields)) row else "RESOLUTION_HASH";
  id ← key "incident_id" row;
  reject! contains_json (JStr <$> s.*1) id as "DUPLICATE_RESOLUTION";
  i ← of_option (ValueError "UNKNOWN_RESOLUTION") (List.find (fun i => same id (JStr (ic_id i))) incidents);
  at_ ← instant_at "timestamp" row;
  require! ic_start i <=? at_ else "RESOLUTION_INVALID";
  _ ← expect "RESOLUTION_INVALID" "run_id" row (JStr (ic_run_id i));
  _ ← expect "RESOLUTION_INVALID" "status" row (JStr "RESOLVED");
  _ ← expect "RESOLUTION_INVALID" "halt_cleared" row (JBool false);
  delay ← seconds (ic_start i) at_;
  Ok (s ++ [(ic_id i, delay)]).
Definition resolve (incidents : list Incident) (rows_ : list json) : res (list (string * dec)) :=
  foldR (resolution_step incidents) [] rows_.

(** What is measured. *)
Record Monitored := mkMonitored {
  mn_matching : Matching; mn_extra : Extra; mn_resolved : list (string * dec); mn_false_positives : Z;
  mn_precision : option dec; mn_recall : option dec; mn_f1 : option dec
}.
(** [D(a) / b if b else None] *)
Definition share (a b : Z) : res (option dec) := if b =? 0 then Ok None else v ← pdiv (dZ a) (dZ b); Ok (Some v).
Definition measured_monitoring (ordered : list Alarm) (incidents : list Incident) (resolutions : list json) : res Monitored :=
  m ← matching ordered incidents;
  x ← extras ordered incidents (mg_used m);
  resolved ← resolve incidents resolutions;
  let tp := length_of (mg_matched m) in
  let fp := length_of ordered - tp in
  let fn := length_of (mg_missed m) in
  precision ← share tp (tp + fp);
  recall ← share tp (tp + fn);
  f1 ← share (2 * tp) (2 * tp + fp + fn);
  Ok (mkMonitored m x resolved fp precision recall f1).

Definition sorted_texts_json (l : list string) : json := JArr (JStr <$> sort_by String.leb l).
Definition delay_row (x : string * dec) : json :=
  JObj [("incident_id", JStr x.1); ("delay_seconds", jdec x.2)]%string.
Definition latest (l : list dec) : option dec :=
  match l with [] => None | d :: l => Some (foldl dmax d l) end.
Definition monitored_report (t : Truth) (alert_hash : string) (ack : json) (ordered : list Alarm) (incidents : list Incident)
    (m : Monitored) : json :=
  let mg := mn_matching m in
  let ids := am_id <$> ordered in
  JObj
    [("status", JStr "EVALUATED_SYNTHETIC"); ("policy_hash", JStr (sha (canonical MONITORING_POLICY)));
     ("ground_truth_hash", JStr (th_fingerprint t)); ("alert_hash", JStr alert_hash);
     ("true_positives", JInt (length_of (mg_matched mg))); ("false_positives", JInt (mn_false_positives m));
     ("false_negatives", JInt (length_of (mg_missed mg))); ("precision", jopt jdec (mn_precision m));
     ("recall", jopt jdec (mn_recall m)); ("f1", jopt jdec (mn_f1 m)); ("undefined_status", JStr "NOT_COMPUTABLE");
     ("matches", JArr ((fun x => JObj [("incident_id", JStr (ma_incident x)); ("alert_id", JStr (ma_alert x));
                                       ("delay_seconds", jdec (ma_delay x))]) <$> mg_matched mg));
     ("unmatched_incidents", JArr (JStr <$> mg_missed mg));
     ("unmatched_alerts", sorted_texts_json (List.filter (fun id => negb (bool_decide (id ∈ mg_used mg))) ids));
     ("duplicate_alerts", sorted_texts_json (ex_duplicates (mn_extra m)));
     ("late_alerts", sorted_texts_json (ex_late (mn_extra m)));
     ("max_detection_delay", jopt jdec (latest (ma_delay <$> mg_matched mg)));
     ("missed_critical", JArr ((JStr ∘ ic_id) <$> List.filter
        (fun i => bool_decide (ic_severity i = "CRITICAL"%string) && bool_decide (ic_id i ∈ mg_missed mg)) incidents));
     ("acknowledgments", ack); ("resolutions", JArr (delay_row <$> mn_resolved m));
     ("unresolved_incidents", JArr ((JStr ∘ ic_id) <$> List.filter
        (fun i => negb (bool_decide (ic_id i ∈ (mn_resolved m).*1))) incidents));
     ("halt_clearance", JBool false); ("production_effectiveness", JStr "NOT_EVALUATED")]%string.

Section monitoring.
Context `{DumpJson Truth} `{ReadJson Truth}.
(** What is computed when a truth is given: the report is [monitored_report]. *)
Definition evaluate_monitoring (truth : json) (alarms : list Alarm) (resolutions : list json)
    : res (Truth * list Alarm * list Incident * Monitored) :=
  _ ← bounded truth;
  t ← validate_truth truth;
  require! length_of (th_incidents t) * length_of alarms <=? 2000000 else "MATCHING_BUDGET";
  let ordered := sort_by alarm_le alarms in
  let incidents := sort_by incident_le (th_incidents t) in
  m ← measured_monitoring ordered incidents resolutions;
  Ok (t, ordered, incidents, m).
Definition monitoring (truth : option json) (alerts : list json) (expected_alert_hash : string)
    (acknowledgments resolutions : list json) : res json :=
  alarms ← check_ledger alerts expected_alert_hash;
  ack ← acknowledgment_view alerts acknowledgments;
  match truth with
  | None =>
      Ok (JObj [("status", JStr "NOT_EVALUATED"); ("reason", JStr "INDEPENDENT_GROUND_TRUTH_ABSENT");
                ("acknowledgments", ack); ("halt_clearance", JBool false)]%string)
  | Some truth =>
      '(t, ordered, incidents, m) ← evaluate_monitoring truth alarms resolutions;
      Ok (monitored_report t expected_alert_hash ack ordered incidents m)
  end.
End monitoring.

(** ** Observations *)

(** A quote that holds for a position over an interval. *)
Record Mark := mkMark {
  mk_position_id : string; mk_symbol : string; mk_strategy_id : string; mk_quantity : Z; mk_price : dec; mk_value : dec;
  mk_source_id : string; mk_observed_at : Z; mk_available_at : Z; mk_valid_until : Z
}.
Record Observation := mkObservation {
  ob_run_id : string; ob_session_id : string; ob_trading_date : Z; ob_id : string; ob_at : Z; ob_available_at : Z;
  ob_until : Z; ob_positions : list Mark; ob_equity : dec; ob_calendar_hash : string; ob_dataset_hash : string;
  ob_risk_hash : string; ob_execution_hash : string; ob_policy_hash : string; ob_fingerprint : string
}.
Definition mark_valid (o : Observation) (p : Mark) : res unit :=
  require! (mk_observed_at p <=? mk_available_at p) && (mk_available_at p <=? ob_at o) && (ob_at o <=? ob_until o) &&
           (ob_until o <=? mk_valid_until p) else "MARK_NOT_AVAILABLE";
  value ← pmul (mk_price p) (dZ (mk_quantity p));
  raise_unless (deqb (mk_value p) value) "MARK_VALUE".
Section observation.
Context `{DumpJson Observation} `{ReadJson Observation}.
Definition observation_valid (o : Observation) : res Observation :=
  require! (ob_available_at o <=? ob_at o) && (ob_at o <=? ob_until o) else "OBSERVATION_TIME";
  require! nse_date (ob_at o) =? ob_trading_date o else "OBSERVATION_DATE";
  require! bool_decide (ob_risk_hash o = RISK_HASH) && bool_decide (ob_execution_hash o = EXECUTION_HASH) else "POLICY_MISMATCH";
  require! bool_decide (ob_policy_hash o = sha (canonical EXPOSURE_POLICY)) else "EXPOSURE_POLICY";
  require! bool_decide (ob_fingerprint o = sha (canonical (unfingered (model_dump_json_value o)))) else "OBSERVATION_HASH";
  require! bool_decide (NoDup (mk_position_id <$> ob_positions o)) else "DUPLICATE_POSITION";
  _ ← mapR (mark_valid o) (ob_positions o);
  Ok o.
Definition validate_observation (v : json) : res Observation := o ← model_validate v; observation_valid o.
End observation.
Definition observation_le (a b : Observation) : bool := (ob_at a <? ob_at b) || ((ob_at a =? ob_at b) && String.leb (ob_id a) (ob_id b)).

(** ** Exposure *)

(** A row of an attribution table. *)
Record Group := mkGroup { gr_capital : dec; gr_time : dec; gr_maximum : dec; gr_pnl : dec }.
Definition empty_group : Group := mkGroup d0 d0 d0 d0.
(** The variables of the loop over the observations of a session. *)
Record Interval := mkInterval {
  in_cursor : Z; in_observed : dec; in_session_capital : dec; in_full : bool; in_capital : dec; in_fraction_time : dec;
  in_market_time : dec; in_maximum : dec; in_symbols : list (string * Group); in_strategies : list (string * Group)
}.
Definition with_interval (value dt : dec) (g : Group) : res Group :=
  area ← pmul value dt;
  capital ← padd (gr_capital g) area;
  time ← padd (gr_time g) dt;
  Ok (mkGroup capital time (dmax (gr_maximum g) value) (gr_pnl g)).

(** The orders that are open at an instant: entered, and not left yet. *)
Definition text_or_none (k : string) (d : json) : res (option string) :=
  fields ← fields_of d;
  match find fields k with
  | None | Some JNull => Ok None
  | Some (JStr s) => Ok (if no_text (Some s) then None else Some s)
  | Some _ => Err TypeError
  end.
Definition active_at (at_ : Z) (order : json) : res bool :=
  entered ← text_or_none "entry_at" order;
  match entered with
  | None => Ok false
  | Some s =>
      t ← fromisoformat s;
      if at_ <? t then Ok false
      else
        left ← text_or_none "exit_at" order;
        match left with
        | None => Ok true
        | Some s => t ← fromisoformat s; Ok (at_ <? t)
        end
  end.
Definition active_orders (at_ : Z) (orders : list json) : res (list (string * json)) :=
  selected ← filterR (active_at at_) orders;
  foldR (fun d p => id ← text_at "order_id" p; Ok (store d id p)) [] selected.

(** One position: the rows of its symbol, and the values by strategy. *)
Definition position_interval (active : list (string * json)) (dt : dec) (x : list (string * Group) * list (string * dec)) (p : Mark)
    : res (list (string * Group) * list (string * dec)) :=
  order ← of_option KeyError (find active (mk_position_id p));
  _ ← expect "POSITION_OWNERSHIP" "symbol" order (JStr (mk_symbol p));
  _ ← expect "POSITION_OWNERSHIP" "strategy_id" order (JStr (mk_strategy_id p));
  _ ← expect "POSITION_OWNERSHIP" "quantity" order (JInt (mk_quantity p));
  require! has x.1 (mk_symbol p) else "UNKNOWN_SYMBOL";
  symbols ← alter_row (mk_symbol p) (with_interval (mk_value p) dt) x.1;
  total ← padd (default d0 (find x.2 (mk_strategy_id p))) (mk_value p);
  Ok (symbols, store x.2 (mk_strategy_id p) total).
Definition strategy_interval (dt : dec) (table : list (string * Group)) (x : string * dec) : res (list (string * Group)) :=
  alter_row x.1 (with_interval x.2 dt) table.

(** What a session is measured against. *)
Record Frame := mkFrame {
  fr_outcome : json; fr_binding : json; fr_start : Z; fr_end : Z; fr_orders : list json; fr_fills : list Fill;
  fr_calendar_hash : string; fr_dataset : string
}.
Definition same_ids (a b : list string) : bool := bool_decide (list_to_set a =@{gset string} list_to_set b).
Definition interval_step (f : Frame) (s : Interval) (o : Observation) : res Interval :=
  _ ← expect "OBSERVATION_BINDING" "run_id" (fr_binding f) (JStr (ob_run_id o));
  require! bool_decide (ob_session_id o = sha (canonical (fr_binding f))) &&
           bool_decide (ob_calendar_hash o = fr_calendar_hash f) && bool_decide (ob_dataset_hash o = fr_dataset f)
    else "OBSERVATION_BINDING";
  require! (fr_start f <=? ob_at o) && (ob_at o <=? ob_until o) && (ob_until o <=? fr_end f) && (in_cursor s <=? ob_at o)
    else "INTERVAL_OVERLAP_OR_SESSION";
  let full := in_full s && (ob_at o =? in_cursor s) in
  active ← active_orders (ob_at o) (fr_orders f);
  require! same_ids active.*1 (mk_position_id <$> ob_positions o) else "POSITION_OWNERSHIP";
  reject! existsb (fun x => (ob_at o <? fl_at x) && (fl_at x <? ob_until o)) (fr_fills f) as "POSITION_CHANGE_INTERVAL";
  begun ← key "start" (fr_outcome f);
  opening ← number_at "cash" begun;
  spent ← psum (fl_cash_delta <$> List.filter (fun x => fl_at x <=? ob_at o) (fr_fills f));
  cash ← padd opening spent;
  gross ← psum (mk_value <$> ob_positions o);
  total ← padd cash gross;
  require! deqb (ob_equity o) total else "EQUITY_RECONCILIATION";
  dt ← seconds (ob_at o) (ob_until o);
  observed ← padd (in_observed s) dt;
  area ← pmul gross dt;
  capital ← padd (in_capital s) area;
  session_capital ← padd (in_session_capital s) area;
  fraction ← pdiv gross (ob_equity o);
  weighted ← pmul fraction dt;
  fraction_time ← padd (in_fraction_time s) weighted;
  market_time ← padd (in_market_time s) (if coef gross =? 0 then d0 else dt);
  '(symbols, by_strategy) ← foldR (position_interval active dt) (in_symbols s, []) (ob_positions o);
  strategies ← foldR (strategy_interval dt) (in_strategies s) by_strategy;
  Ok (mkInterval (ob_until o) observed session_capital full capital fraction_time market_time (dmax (in_maximum s) gross)
        symbols strategies).

(** The variables of the loop over the sessions. *)
Record Exposure := mkExposure {
  xp_eligible : dec; xp_covered : dec; xp_capital : dec; xp_fraction_time : dec; xp_market_time : dec; xp_maximum : dec;
  xp_complete : bool; xp_sessions : list json; xp_symbols : list (string * Group); xp_strategies : list (string * Group)
}.
Definition start_exposure (universe : list string) : Exposure :=
  mkExposure d0 d0 d0 d0 d0 d0 true [] ((fun s => (s, empty_group)) <$> universe) ((fun s => (s, empty_group)) <$> strategy_names).
(** [values[i]] of a JSON index *)
Definition item_at (l : list json) (i : json) : res json :=
  match i with
  | JInt n => of_option IndexError (if n <? 0 then l !! Z.to_nat (Z.of_nat (length l) + n) else l !! Z.to_nat n)
  | _ => Err TypeError
  end.
Definition frame_of (days : list json) (fills : list Fill) (calendar : Scheduler.Calendar) (calendar_hash : string) (outcome : json)
    : res (Frame * json) :=
  binding ← key "binding" outcome;
  day ← key "date" binding;
  session ← of_option StopIteration
    (List.find (fun s => same (JStr (date_text (nse_date (ds_start s)))) day) (ca_sessions calendar));
  reports ← key "reports" outcome;
  orders ← list_at "orders.json" reports;
  sequence ← key "sequence" binding;
  input ← item_at days sequence;
  Ok (mkFrame outcome binding (ds_start session) (ds_end session) orders
        (List.filter (fun f => same (JStr (date_text (fl_session_date f))) day) fills) calendar_hash (sha (canonical input)), day).
Definition with_pnl (net : dec) (g : Group) : res Group :=
  pnl ← padd (gr_pnl g) net; Ok (mkGroup (gr_capital g) (gr_time g) (gr_maximum g) pnl).
(** The result of a closed order. *)
Definition pnl_step (x : list (string * Group) * list (string * Group)) (order : json)
    : res (list (string * Group) * list (string * Group)) :=
  state ← key "state" order;
  if same state (JStr "CLOSED") then
    symbol ← text_at "symbol" order;
    strategy ← text_at "strategy_id" order;
    net ← number_at "net" order;
    symbols ← alter_row symbol (with_pnl net) x.1;
    strategies ← alter_row strategy (with_pnl net) x.2;
    Ok (symbols, strategies)
  else Ok x.

Definition session_exposure (days : list json) (fills : list Fill) (calendar : Scheduler.Calendar) (calendar_hash : string)
    (rows_ : list Observation) (s : Exposure) (outcome : json) : res Exposure :=
  '(f, day) ← frame_of days fills calendar calendar_hash outcome;
  duration ← seconds (fr_start f) (fr_end f);
  eligible ← padd (xp_eligible s) duration;
  let local := List.filter (fun o => same (JStr (date_text (ob_trading_date o))) day) rows_ in
  let begins := match local with o :: _ => ob_at o =? fr_start f | [] => false end in
  i ← foldR (interval_step f)
        (mkInterval (fr_start f) d0 d0 begins (xp_capital s) (xp_fraction_time s) (xp_market_time s) (xp_maximum s)
           (xp_symbols s) (xp_strategies s)) local;
  let ends := match last local with Some o => (ob_at o =? fr_end f) && (ob_until o =? fr_end f) | None => false end in
  finished ← key "complete" outcome;
  closing ← key "end" outcome;
  positions ← key "positions" closing;
  reservations ← key "reservations" closing;
  let full := in_full i && ends && deqb (in_observed i) duration && truthy finished && negb (truthy positions) &&
              negb (truthy reservations) in
  covered ← padd (xp_covered s) (in_observed i);
  '(symbols, strategies) ← foldR pnl_step (in_symbols i, in_strategies i) (fr_orders f);
  let row :=
    JObj [("date", day); ("seconds", jdec duration); ("covered", jdec (in_observed i)); ("complete", JBool full);
          ("observed_capital_time", jdec (in_session_capital i))]%string in
  Ok (mkExposure eligible covered (in_capital i) (in_fraction_time i) (in_market_time i) (in_maximum i) (xp_complete s && full)
        (xp_sessions s ++ [row]) symbols strategies).

Definition group_total (f : Group -> dec) (table : list (string * Group)) : res dec := psum (f <$> table.*2).
(** [sum(symbols) == total == sum(strategies)] *)
Definition both_total (f : Group -> dec) (total : dec) (s : Exposure) (msg : string) : res unit :=
  by_symbol ← group_total f (xp_symbols s);
  require! deqb by_symbol total else msg;
  by_strategy ← group_total f (xp_strategies s);
  raise_unless (deqb total by_strategy) msg.

(** The checks after the loop; the net result. *)
Definition check_exposure (source : json) (outcomes : list json) (s : Exposure) : res (Exposure * dec) :=
  summary ← key "summary" source;
  finished ← key "complete" summary;
  final ← of_option IndexError (last outcomes);
  closing ← key "end" final;
  equity ← number_at "equity" closing;
  first ← of_option IndexError (outcomes !! 0%nat);
  begun ← key "start" first;
  opening ← number_at "equity" begun;
  pnl ← psub equity opening;
  let complete := xp_complete s && truthy finished in
  let s := mkExposure (xp_eligible s) (xp_covered s) (xp_capital s) (xp_fraction_time s) (xp_market_time s) (xp_maximum s)
             complete (xp_sessions s) (xp_symbols s) (xp_strategies s) in
  _ ← both_total gr_capital (xp_capital s) s "EXPOSURE_ATTRIBUTION";
  _ ← (if complete then both_total gr_pnl pnl s "PNL_ATTRIBUTION" else Ok tt);
  Ok (s, pnl).
Definition walk_exposure (universe : list string) (source : json) (outcomes : list json) (fills : list Fill)
    (calendar : Scheduler.Calendar) (calendar_hash : string) (rows_ : list Observation) : res (Exposure * dec) :=
  inputs ← key "input" source;
  days ← list_at "days" inputs;
  s ← foldR (session_exposure days fills calendar calendar_hash rows_) (start_exposure universe) outcomes;
  check_exposure source outcomes s.

(** The report.  A total is absent unless the exposure is complete. *)
Definition when_ (b : bool) (r : res dec) : res json := if b then v ← r; Ok (jdec v) else Ok JNull.
Definition exposure_row (s : Exposure) (x : string * Group) : res (string * json) :=
  let complete := xp_complete s in
  let g := x.2 in
  average ← when_ complete (pdiv (gr_capital g) (xp_eligible s));
  efficiency ← when_ (complete && negb (coef (gr_capital g) =? 0)) (pdiv (gr_pnl g) (gr_capital g));
  coverage ← pdiv (xp_covered s) (xp_eligible s);
  let shown (d : dec) : json := if complete then jdec d else JNull in
  Ok (x.1, JObj
    [("status", JStr (if complete then "COMPUTED" else "NOT_COMPUTABLE")); ("eligible_seconds", jdec (xp_eligible s));
     ("observed_seconds", jdec (xp_covered s)); ("time_in_position", jdec (gr_time g));
     ("observed_capital_time", jdec (gr_capital g)); ("capital_time", shown (gr_capital g)); ("average", average);
     ("maximum", shown (gr_maximum g)); ("net_pnl", shown (gr_pnl g)); ("efficiency", efficiency);
     ("coverage", jdec coverage); ("reason", if complete then JNull else JStr "INCOMPLETE_EXPOSURE")]%string).
Definition exposure_report (source : json) (outcomes : list json) (evidence : json) (s : Exposure) (pnl : dec) : res json :=
  let complete := xp_complete s in
  fraction ← (if complete then v ← pdiv (xp_fraction_time s) (xp_eligible s); Ok (Some v) else Ok None);
  let nonzero := match fraction with Some v => negb (coef v =? 0) | None => false end in
  coverage ← pdiv (xp_covered s) (xp_eligible s);
  gross ← when_ complete (pdiv (xp_capital s) (xp_eligible s));
  zero ← psub (xp_covered s) (xp_market_time s);
  first ← of_option IndexError (outcomes !! 0%nat);
  adjusted ← when_ nonzero
    (begun ← key "start" first; opening ← number_at "equity" begun; r ← pdiv pnl opening; pdiv r (default d0 fraction));
  let invested := complete && negb (coef (xp_capital s) =? 0) in
  per_second ← when_ invested (pdiv pnl (xp_capital s));
  strategies ← mapR (exposure_row s) (xp_strategies s);
  symbols ← mapR (exposure_row s) (xp_symbols s);
  let shown (d : dec) : json := if complete then jdec d else JNull in
  Ok (JObj
    [("scope", JStr "SYNTHETIC_FIXTURE"); ("policy_hash", JStr (sha (canonical EXPOSURE_POLICY)));
     ("source_hash", JStr (sha (canonical source))); ("evidence_hash", JStr (sha (canonical evidence)));
     ("sessions", JArr (xp_sessions s)); ("status", JStr (if complete then "COMPUTED" else "NOT_COMPUTABLE"));
     ("eligible_seconds", jdec (xp_eligible s)); ("observed_seconds", jdec (xp_covered s)); ("coverage", jdec coverage);
     ("observed_capital_time", jdec (xp_capital s)); ("capital_time", shown (xp_capital s)); ("average_gross", gross);
     ("average_net", gross); ("average_short", if complete then JStr "0" else JNull);
     ("average_fraction", jopt jdec fraction); ("maximum", shown (xp_maximum s));
     ("observed_time_in_market", jdec (xp_market_time s)); ("observed_zero_exposure_seconds", jdec zero);
     ("exposure_adjusted_return", adjusted); ("pnl_per_capital_second", per_second);
     ("adjusted_status", JStr (if invested then "COMPUTED" else "NOT_COMPUTABLE"));
     ("symbol_order", JArr (JStr <$> (xp_symbols s).*1)); ("strategies", JObj strategies); ("symbols", JObj symbols);
     ("genuine_qualified", JInt 0); ("operational", JStr "NO_GO")]%string).

Section exposure.
Context `{DumpJson Scheduler.Calendar} `{DumpJson Observation} `{ReadJson Observation} `{ReadJson Scheduler.Calendar}.
Context (universe : list string).
(** Everything that is checked about the observations, up to the sums. *)
Definition measure_exposure (validated : json -> res (list json)) (source : json) (expected : string) (observations : list json)
    : res (list json * list Observation * Exposure * dec) :=
  _ ← bounded source;
  _ ← bounded (JArr observations);
  require! bool_decide (sha (canonical source) = expected) else "SOURCE_HASH";
  require! length_of observations <=? LIMIT else "OBSERVATION_BUDGET";
  outcomes ← validated source;
  fills ← accepted_fills validated source expected;
  inputs ← key "input" source;
  calendar ← read_at "calendar" inputs;
  rows_ ← mapR validate_observation observations;
  require! bool_decide (NoDup (ob_id <$> rows_)) else "DUPLICATE_OBSERVATION";
  require! bool_decide (NoDup ((fun o => (ob_session_id o, ob_at o)) <$> rows_)) else "DUPLICATE_OBSERVATION_TIME";
  (* the identifiers are distinct: the rows are in order when their identifiers are *)
  require! bool_decide ((ob_id <$> rows_) = (ob_id <$> sort_by observation_le rows_)) else "OBSERVATION_ORDER";
  dates ← mapR (fun o => b ← key "binding" o; key "date" b) outcomes;
  require! forallb (fun o => contains_json dates (JStr (date_text (ob_trading_date o)))) rows_ else "UNKNOWN_SESSION";
  '(s, pnl) ← walk_exposure universe source outcomes fills calendar (calendar_fingerprint calendar) rows_;
  Ok (outcomes, rows_, s, pnl).
Definition exposure (validated : json -> res (list json)) (source : json) (expected : string) (observations : list json)
    : res json :=
  '(outcomes, rows_, s, pnl) ← measure_exposure validated source expected observations;
  exposure_report source outcomes (JArr (model_dump_json_value <$> rows_)) s pnl.
End exposure.
