(* ===== verification/MonitoringFacts.v ===== *)
(** * Facts on the portfolio analytics

    The loops of [Monitoring.matching] and [Monitoring.extras]: which alert an incident
    takes, and what becomes of the alerts that are left.  The loops of the exposure: the
    intervals of a complete session tile it. *)
From S2P Require Import Prelude Decimal DecimalFacts Text Dataset Costs Phase14 Strategies Execution Json JsonFacts JsonRead CanonicalPolicy Research Exec Qualification Chain PyText Paper.
From S2P Require Import Errors Portfolio PortfolioRun Scheduler Multi MultiFacts Analytics Attribution Quality QualityFacts Monitoring MultiRecovery.
Open Scope list_scope.
Open Scope Z_scope.

(** ** The order of the alerts *)

Lemma alarm_le_total a b : alarm_le a b = true \/ alarm_le b a = true.
Proof.
  unfold alarm_le. destruct (Z.lt_trichotomy (am_at a) (am_at b)) as [E|[E|E]].
  - left. by rewrite (proj2 (Z.ltb_lt _ _) E).
  - rewrite E, Z.ltb_irrefl, Z.eqb_refl. cbn. apply String.leb_total.
  - right. by rewrite (proj2 (Z.ltb_lt _ _) E).
Qed.
Lemma alarm_le_spec a b : alarm_le a b = true <-> am_at a < am_at b \/ am_at a = am_at b /\ String.leb (am_id a) (am_id b) = true.
Proof. unfold alarm_le. by rewrite orb_true_iff, andb_true, Z.ltb_lt, Z.eqb_eq. Qed.
Lemma alarm_le_trans a b c : alarm_le a b = true -> alarm_le b c = true -> alarm_le a c = true.
Proof.
  rewrite !alarm_le_spec. intros [?|[? E1]] [?|[? E2]]; [left; lia|left; lia|left; lia|]. right. split; [lia|]. by eapply leb_trans.
Qed.

(** The first element that a filter keeps. *)
Lemma filterR_first {A} (f : A -> res bool) l x rest : filterR f l = Ok (x :: rest) ->
  exists pre post, l = pre ++ x :: post /\ f x = Ok true /\ Forall (fun y => f y = Ok false) pre.
Proof.
  induction l as [|y l IH]; intros E; [discriminate E|]. cbn in E. unbind E keep Ek. unbind E others Eo. apply Ok_inj in E.
  destruct keep.
  - injection E as -> ->. by exists [], l.
  - subst others. destruct (IH Eo) as (pre & post & -> & Hx & Hp). exists (y :: pre), post. split; [done|]. split; [done|]. by constructor.
Qed.
(** ... is the least one that it keeps. *)
Lemma filterR_least (f : Alarm -> res bool) l a rest b : StronglySorted (fun x y => alarm_le x y = true) l ->
  filterR f l = Ok (a :: rest) -> b ∈ l -> f b = Ok true -> alarm_le a b = true.
Proof.
  intros Hs E Hb Hf. destruct (filterR_first _ _ _ _ E) as (pre & post & -> & _ & Hp).
  apply elem_of_app in Hb as [Hb|Hb]; [rewrite Forall_forall in Hp; rewrite (Hp _ Hb) in Hf; discriminate Hf|].
  apply elem_of_cons in Hb as [->|Hb]; [by destruct (alarm_le_total a a)|].
  apply StronglySorted_app_1_r, StronglySorted_inv in Hs as [_ Hs]. rewrite Forall_forall in Hs. by apply Hs.
Qed.

(** ** Matching *)

(** The alert may be given to the incident. *)
Definition timely (i : Incident) (a : Alarm) : Prop := signals i (ic_deadline i) a = Ok true.
Lemma signals_true i until a : signals i until a = Ok true -> ic_start i <= am_at a <= until.
Proof.
  unfold signals. intros E. unbind E r Er. destruct (negb _); [discriminate E|]. unbind E d Ed. destruct (negb _); [discriminate E|].
  unbind E c Ec. destruct (negb _); [discriminate E|]. apply Ok_inj in E. bool_inv. lia.
Qed.
Lemma signals_later i until until' a : until <= until' -> signals i until a = Ok true -> signals i until' a = Ok true.
Proof.
  intros Hu E. pose proof (signals_true _ _ _ E) as Hb. unfold signals in E |- *. unbind E r Er. rewrite Er. cbn.
  destruct (negb (same r _)); [discriminate E|]. unbind E d Ed. rewrite Ed. cbn. destruct (negb (same d _)); [discriminate E|].
  unbind E c Ec. rewrite Ec. cbn. destruct (negb (same c _)); [discriminate E|]. f_equal. rewrite andb_true, !Z.leb_le. lia.
Qed.

(** A match: a timely alert, the least that was free, and its delay. *)
Record match_ok (ordered : list Alarm) (used : list string) (i : Incident) (x : Match) : Prop := {
  mo_incident : ma_incident x = ic_id i;
  mo_alert : exists a, a ∈ ordered /\ am_id a = ma_alert x /\ am_id a ∉ used /\ timely i a /\
    seconds (ic_start i) (am_at a) = Ok (ma_delay x) /\
    forall b, b ∈ ordered -> timely i b -> am_id b ∈ used \/ alarm_le a b = true
}.
(** The loop, over the incidents so far. *)
Inductive matches (ordered : list Alarm) : list Incident -> list Match -> list string -> Prop :=
| matches_none : matches ordered [] [] []
| matches_found pre found missed i x : matches ordered pre found missed -> match_ok ordered (ma_alert <$> found) i x ->
    matches ordered (pre ++ [i]) (found ++ [x]) missed
| matches_missed pre found missed i : matches ordered pre found missed ->
    (forall a, a ∈ ordered -> timely i a -> am_id a ∈ ma_alert <$> found) ->
    matches ordered (pre ++ [i]) found (missed ++ [ic_id i]).

Lemma match_step_matches ordered pre s i s' : StronglySorted (fun x y => alarm_le x y = true) ordered ->
  matches ordered pre (mg_matched s) (mg_missed s) -> (forall k, k ∈ mg_used s <-> k ∈ ma_alert <$> mg_matched s) ->
  match_step ordered s i = Ok s' ->
  matches ordered (pre ++ [i]) (mg_matched s') (mg_missed s') /\ (forall k, k ∈ mg_used s' <-> k ∈ ma_alert <$> mg_matched s').
Proof.
  intros Hs M Hu E. unfold match_step in E. unbind E eligible Ee. destruct eligible as [|a rest].
  - apply Ok_inj in E. subst s'. cbn. split; [|exact Hu]. constructor; [exact M|]. intros a Ha Ht.
    pose proof (filterR_none _ _ _ Ee Ha) as Hf. unfold free_signals in Hf. case_bool_decide as Hk; [by apply Hu|].
    unfold timely in Ht. rewrite Ht in Hf. discriminate Hf.
  - unbind E delay Ed. apply Ok_inj in E. subst s'. cbn. split.
    + constructor; [exact M|]. split; cbn; [done|].
      destruct (filterR_elem _ _ _ a Ee ltac:(by left)) as [Hf Ha]. unfold free_signals in Hf. case_bool_decide as Hk; [discriminate Hf|].
      exists a. split; [done|]. split; [done|]. split; [by rewrite <- Hu|]. split; [exact Hf|]. split; [exact Ed|].
      intros b Hb Ht. destruct (decide (am_id b ∈ mg_used s)) as [Hin|Hin]; [left; by apply Hu|]. right.
      eapply filterR_least; [exact Hs|exact Ee|exact Hb|]. unfold free_signals. by rewrite bool_decide_false.
    + intros k. rewrite fmap_app, elem_of_app, elem_of_cons, Hu. cbn. rewrite list_elem_of_singleton. tauto.
Qed.
Lemma matching_matches ordered incidents s : StronglySorted (fun x y => alarm_le x y = true) ordered ->
  matching ordered incidents = Ok s -> matches ordered incidents (mg_matched s) (mg_missed s) /\
  (forall k, k ∈ mg_used s <-> k ∈ ma_alert <$> mg_matched s).
Proof.
  intros Hs E. apply (foldR_prefix_inv (fun pre s => matches ordered pre (mg_matched s) (mg_missed s) /\
    (forall k, k ∈ mg_used s <-> k ∈ ma_alert <$> mg_matched s)) (match_step ordered) (mkMatching [] [] []) incidents s).
  - intros pre i post s1 s2 _ [M Hu] Es. by eapply match_step_matches.
  - split; [constructor|done].
  - exact E.
Qed.

Section matches.
Context (ordered : list Alarm).
Implicit Types (incidents : list Incident) (found : list Match) (missed : list string).

Lemma matches_partition incidents found missed : matches ordered incidents found missed ->
  (ma_incident <$> found) ++ missed ≡ₚ ic_id <$> incidents.
Proof.
  induction 1 as [|pre found missed i x _ IH [Hi _]|pre found missed i _ IH _]; [done| |]; rewrite !fmap_app; cbn [fmap list_fmap].
  - rewrite <- IH, Hi. solve_Permutation.
  - by rewrite <- IH, app_assoc.
Qed.
Lemma matches_distinct incidents found missed : matches ordered incidents found missed -> NoDup (ma_alert <$> found).
Proof.
  induction 1 as [|pre found missed i x _ IH [_ (a & _ & Hid & Hn & _)]|pre found missed i _ IH _]; [constructor| |exact IH].
  rewrite fmap_app. apply NoDup_app. split; [exact IH|]. split; [|apply NoDup_singleton].
  intros k Hk. cbn. intros ->%list_elem_of_singleton. by rewrite <- Hid in Hk.
Qed.
(** Every match has its incident, and the alerts that came before it are those used by
    earlier incidents. *)
Lemma matches_at incidents found missed x : matches ordered incidents found missed -> x ∈ found ->
  exists pre i post, incidents = pre ++ i :: post /\
    exists used, match_ok ordered used i x /\ forall k, k ∈ used -> exists y, y ∈ found /\ ma_alert y = k /\ ma_incident y ∈ ic_id <$> pre.
Proof.
  induction 1 as [|pre found missed i y M IH Hy|pre found missed i M IH Hm]; intros Hx; [by apply elem_of_nil in Hx| |].
  - apply elem_of_app in Hx as [Hx| ->%list_elem_of_singleton].
    + destruct (IH Hx) as (pre' & j & post & -> & used & Hj & Hu). exists pre', j, (post ++ [i]). split; [by rewrite <- app_assoc|].
      exists used. split; [exact Hj|]. intros k Hk. destruct (Hu k Hk) as (z & Hz & ?). exists z. split; [set_solver|done].
    + exists pre, i, []. split; [done|]. exists (ma_alert <$> found). split; [exact Hy|]. intros k (z & -> & Hz)%list_elem_of_fmap.
      exists z. split; [set_solver|]. split; [done|]. rewrite <- (matches_partition _ _ _ M). apply elem_of_app. left.
      apply list_elem_of_fmap. by exists z.
  - destruct (IH Hx) as (pre' & j & post & -> & used & Hj & Hu). exists pre', j, (post ++ [i]). split; [by rewrite <- app_assoc|]. by exists used.
Qed.
Lemma matches_all_used incidents found missed i a : NoDup (ic_id <$> incidents) -> matches ordered incidents found missed ->
  i ∈ incidents -> ic_id i ∈ missed -> a ∈ ordered -> timely i a -> am_id a ∈ ma_alert <$> found.
Proof.
  intros Hn M. induction M as [|pre found missed j x M IH Hx|pre found missed j M IH Hj]; intros Hi Hm Ha Ht; [by apply elem_of_nil in Hi| |];
    rewrite fmap_app in Hn; apply NoDup_app in Hn as (Hn & Hd & _).
  - apply elem_of_app in Hi as [Hi| ->%list_elem_of_singleton].
    + rewrite fmap_app. apply elem_of_app. left. by apply IH.
    + exfalso. apply (Hd (ic_id j)); [|by left]. rewrite <- (matches_partition _ _ _ M). apply elem_of_app. by right.
  - apply elem_of_app in Hi as [Hi| ->%list_elem_of_singleton]; [|by apply Hj].
    apply elem_of_app in Hm as [Hm| Hm%list_elem_of_singleton]; [by apply IH|]. exfalso. apply (Hd (ic_id i)).
    + apply list_elem_of_fmap. by exists i.
    + rewrite Hm. by left.
Qed.
End matches.

(** ** The alerts that are left *)

(** An alert is a duplicate if it is timely for an incident, late if it is only in the
    window of one. *)
Definition duplicate_of (incidents : list Incident) (a : Alarm) : Prop := exists i, i ∈ incidents /\ timely i a.
Definition late_for (incidents : list Incident) (a : Alarm) : Prop :=
  ~ duplicate_of incidents a /\ exists i, i ∈ incidents /\ signals i (ic_window_end i) a = Ok true.

Lemma signals_sooner i until until' a : signals i until' a = Ok true -> ic_start i <= am_at a <= until -> signals i until a = Ok true.
Proof.
  intros E Hb. unfold signals in E |- *. unbind E r Er. rewrite Er. cbn.
  destruct (negb (same r _)); [discriminate E|]. unbind E d Ed. rewrite Ed. cbn. destruct (negb (same d _)); [discriminate E|].
  unbind E c Ec. rewrite Ec. cbn. destruct (negb (same c _)); [discriminate E|]. f_equal. rewrite andb_true, !Z.leb_le. lia.
Qed.
Lemma filterR_complete {A} (f : A -> res bool) l l' x : filterR f l = Ok l' -> x ∈ l -> f x = Ok true -> x ∈ l'.
Proof.
  revert l'. induction l as [|y l IH]; intros l' E Hx Hf; cbn in E; [by apply elem_of_nil in Hx|]. unbind E keep Ek. unbind E rest Er.
  apply Ok_inj in E. subst l'. apply elem_of_cons in Hx as [->|Hx].
  - rewrite Hf in Ek. apply Ok_inj in Ek. subst keep. by left.
  - destruct keep; [right|]; by apply IH.
Qed.
Lemma windowed_duplicate incidents a candidates : Forall (fun i => ic_deadline i <= ic_window_end i) incidents ->
  filterR (fun i => signals i (ic_window_end i) a) incidents = Ok candidates ->
  existsb (fun i => am_at a <=? ic_deadline i) candidates = true <-> duplicate_of incidents a.
Proof.
  intros Hw E. rewrite existsb_exists. split.
  - intros (i & Hi & Ht). apply list_elem_of_In in Hi. destruct (filterR_elem _ _ _ _ E Hi) as [Hs Hin]. exists i. split; [done|].
    apply (signals_sooner _ _ (ic_window_end i)); [done|]. pose proof (signals_true _ _ _ Hs). apply Z.leb_le in Ht. lia.
  - intros (i & Hin & Ht). exists i. split; [|apply Z.leb_le, (signals_true _ _ _ Ht)]. apply list_elem_of_In.
    eapply filterR_complete; [exact E|done|]. eapply signals_later; [|exact Ht]. rewrite Forall_forall in Hw. by apply Hw.
Qed.
Lemma windowed_late incidents a candidates : filterR (fun i => signals i (ic_window_end i) a) incidents = Ok candidates ->
  negb (is_nil candidates) = true <-> exists i, i ∈ incidents /\ signals i (ic_window_end i) a = Ok true.
Proof.
  intros E. split.
  - destruct candidates as [|i l]; [done|]. intros _. exists i. destruct (filterR_elem _ _ _ i E ltac:(by left)). done.
  - intros (i & Hin & Hs). pose proof (filterR_complete _ _ _ _ E Hin Hs) as Hc. destruct candidates; [by apply elem_of_nil in Hc|done].
Qed.

Record sorted_out (incidents : list Incident) (used : list string) (pre : list Alarm) (s : Extra) : Prop := {
  xo_duplicates : forall k, k ∈ ex_duplicates s <-> exists a, a ∈ pre /\ am_id a = k /\ k ∉ used /\ duplicate_of incidents a;
  xo_late : forall k, k ∈ ex_late s <-> exists a, a ∈ pre /\ am_id a = k /\ k ∉ used /\ late_for incidents a
}.
Lemma grows {B} (P : B -> Prop) pre (a : B) (f : B -> string) k (used : list string) :
  (exists b, b ∈ pre ++ [a] /\ f b = k /\ k ∉ used /\ P b) <->
  (exists b, b ∈ pre /\ f b = k /\ k ∉ used /\ P b) \/ f a = k /\ k ∉ used /\ P a.
Proof.
  split.
  - intros (b & Hb & ? & ? & ?). apply elem_of_app in Hb as [Hb| ->%list_elem_of_singleton]; [left; eauto|by right].
  - intros [(b & Hb & ?)|?]; [exists b; set_solver|exists a; set_solver].
Qed.
Lemma extras_sorted_out ordered incidents used s : Forall (fun i => ic_deadline i <= ic_window_end i) incidents ->
  extras ordered incidents used = Ok s -> sorted_out incidents used ordered s.
Proof.
  intros Hw E. apply (foldR_prefix_inv (sorted_out incidents used) (extra_step incidents used) (mkExtra [] []) ordered s); [|split; cbn; set_solver|exact E].
  intros pre a post s1 s2 _ [D L] Es. unfold extra_step in Es. case_bool_decide as Hu.
  - apply Ok_inj in Es. subst s2. split; intros k; rewrite grows, ?D, ?L; intuition congruence.
  - unbind Es candidates Ec. pose proof (windowed_duplicate _ _ _ Hw Ec) as Hd. pose proof (windowed_late _ _ _ Ec) as Hl.
    destruct (existsb _ candidates); [|destruct (negb (is_nil candidates))]; apply Ok_inj in Es; subst s2; split; intros k; cbn [ex_duplicates ex_late];
      rewrite grows, ?elem_of_app, ?list_elem_of_singleton, ?D, ?L; unfold late_for;
      intuition (try congruence; subst; eauto).
Qed.

(** ** The ledger of alerts *)

Lemma check_ledger_alarms alerts expected alarms : check_ledger alerts expected = Ok alarms ->
  length alarms = length alerts /\ NoDup (am_id <$> alarms) /\
  Forall2 (fun v a => am_row a = v /\ key "alert_id" v = Ok (JStr (am_id a)) /\ instant_at "timestamp" v = Ok (am_at a)) alerts alarms.
Proof.
  unfold check_ledger. intros E. unbind E u1 E1. unbind E u2 E2. unbind E u3 E3. unbind E ids E4. unbind E u5 E5.
  apply raise_unless_Ok in E5. unfold distinct in E5. apply bool_decide_eq_true in E5.
  assert (F : Forall2 (fun v a => am_row a = v /\ key "alert_id" v = Ok (JStr (am_id a)) /\ instant_at "timestamp" v = Ok (am_at a)) alerts alarms).
  { apply mapR_Forall2 in E. eapply Forall2_impl; [exact E|]. intros v a Ea. unfold read_alarm in Ea. unbind Ea u Eu. unbind Ea at_ Et.
    unbind Ea u' Eu'. unbind Ea k Ek. apply Ok_inj in Ea. subst a. cbn. split; [done|]. split; [|done].
    unfold text_at in Ek. unbind Ek w Ew. destruct w; try discriminate Ek. apply Ok_inj in Ek. by subst. }
  split; [by eapply mapR_length|]. split; [|exact F]. apply mapR_Forall2 in E4.
  assert (Hids : ids = JStr <$> (am_id <$> alarms)).
  { clear -E4 F. revert ids E4. induction F as [|v a alerts alarms (_ & Hk & _) _ IH]; intros ids F4; inversion F4 as [|? i ? ids' Hi F4']; subst; [done|].
    rewrite !fmap_cons. rewrite Hk in Hi. apply Ok_inj in Hi. subst i. f_equal. by apply IH. }
  rewrite Hids in E5. rewrite <- list_fmap_compose in E5. by eapply NoDup_fmap_1.
Qed.

(** ** Shares *)

Lemma share_bounds a b v : 0 <= a <= b -> share a b = Ok v ->
  match v with None => b = 0 | Some c => 0 < b /\ (0 <= dval c <= 1)%Q end.
Proof.
  unfold share. destruct (Z.eqb_spec b 0) as [->|Hb]; intros Hab E; [by apply Ok_inj in E as <-|]. unbind E c Ec. apply Ok_inj in E as <-.
  split; [lia|]. by eapply fraction_bounds; [| |exact Ec]; lia.
Qed.

(** ** Intervals *)

(** The observations follow each other without a gap, from an instant to another. *)
Inductive tiles : Z -> Z -> list Observation -> Prop :=
| tiles_nil t : tiles t t []
| tiles_snoc t l o : tiles t (ob_at o) l -> tiles t (ob_until o) (l ++ [o]).

(** What holds during an observation: it is bound to its session; its positions are the
    open orders; no fill happens strictly inside; equity is cash plus market value. *)
Record observed_ok (f : Frame) (o : Observation) : Prop := {
  ov_inside : fr_start f <= ob_at o <= ob_until o /\ ob_until o <= fr_end f;
  ov_session : ob_session_id o = sha (canonical (fr_binding f)) /\ ob_calendar_hash o = fr_calendar_hash f /\ ob_dataset_hash o = fr_dataset f;
  ov_positions : exists active, active_orders (ob_at o) (fr_orders f) = Ok active /\
    forall id, id ∈ active.*1 <-> id ∈ mk_position_id <$> ob_positions o;
  ov_stable : forall x, x ∈ fr_fills f -> ~ ob_at o < fl_at x < ob_until o;
  ov_equity : exists begun opening spent cash gross total, key "start" (fr_outcome f) = Ok begun /\ number_at "cash" begun = Ok opening /\
    psum (fl_cash_delta <$> List.filter (fun x => fl_at x <=? ob_at o) (fr_fills f)) = Ok spent /\ padd opening spent = Ok cash /\
    psum (mk_value <$> ob_positions o) = Ok gross /\ padd cash gross = Ok total /\ (dval (ob_equity o) == dval total)%Q
}.
(** The market value of an observation, times its seconds. *)
Definition area_of (o : Observation) (area : dec) : Prop :=
  exists gross dt, psum (mk_value <$> ob_positions o) = Ok gross /\ seconds (ob_at o) (ob_until o) = Ok dt /\ pmul gross dt = Ok area.

Lemma psum_snoc l x s : psum l = Ok s -> psum (l ++ [x]) = padd s x.
Proof. intros E. unfold psum, dsum in *. rewrite foldR_app, E. cbn. unfold padd. by destruct (dadd _ _ _). Qed.

Record interval_ok (f : Frame) (areas : list dec) (pre : list Observation) (s : Interval) : Prop := {
  io_observed : Forall (observed_ok f) pre;
  io_areas : exists new, Forall2 area_of pre new /\ psum (areas ++ new) = Ok (in_capital s);
  io_tiles : in_full s = true -> tiles (fr_start f) (in_cursor s) pre;
  io_cursor : forall o, last pre = Some o -> in_cursor s = ob_until o
}.
Lemma interval_step_ok f areas pre s o s' : interval_ok f areas pre s -> interval_step f s o = Ok s' -> interval_ok f areas (pre ++ [o]) s'.
Proof.
  intros [I1 (new & I2 & I3) I4 I5] E. unfold interval_step in E.
  unbind E u1 E1. unbind E u2 E2. unbind E u3 E3. unbind E active_ E4. unbind E u5 E5. unbind E u6 E6. unbind E begun_ E7.
  unbind E open_ E8. unbind E spent_ E9. unbind E cash_ E10. unbind E gross_ E11. unbind E total_ E12. unbind E u13 E13.
  unbind E dt_ E14. unbind E obs_ E15. unbind E area_ E16. unbind E cap_ E17. unbind E scap_ E18. unbind E frac_ E19.
  unbind E w_ E20. unbind E ft_ E21. unbind E mt_ E22. unbind E tables_ E23. destruct tables_ as [syms_ by_]. unbind E strats_ E24.
  apply Ok_inj in E. subst s'. apply raise_unless_Ok in E2, E3, E5, E13. apply raise_if_Ok in E6. bool_inv.
  split; cbn [in_capital in_full in_cursor].
  - apply Forall_app. split; [exact I1|]. constructor; [|constructor]. split.
    + lia.
    + done.
    + exists active_. split; [exact E4|]. intros k. unfold same_ids in E5. apply bool_decide_eq_true in E5.
      by rewrite <- (elem_of_list_to_set (C := gset string)), E5, elem_of_list_to_set.
    + intros x Hx Hb. apply not_true_iff_false in E6. apply E6. apply existsb_exists. exists x. split; [by apply list_elem_of_In|].
      rewrite andb_true, !Z.ltb_lt. exact Hb.
    + exists begun_, open_, spent_, cash_, gross_, total_. split_and!; done.
  - exists (new ++ [area_]). split.
    + apply Forall2_app; [exact I2|]. constructor; [|constructor]. by exists gross_, dt_.
    + rewrite app_assoc. by rewrite (psum_snoc _ _ _ I3).
  - intros Hf. bool_inv. constructor. match goal with Hc : ob_at o = _ |- _ => rewrite Hc end. by apply I4.
  - intros p Hp. rewrite last_snoc in Hp. by injection Hp as <-.
Qed.

(** ** Sessions *)

(** The observations of an outcome, and what they are measured against. *)
Definition session_of days fills calendar calendar_hash (rows_ : list Observation) (outcome : json) (x : Frame * list Observation) : Prop :=
  exists day, frame_of days fills calendar calendar_hash outcome = Ok (x.1, day) /\ fr_outcome x.1 = outcome /\
    (b ← key "binding" outcome; key "date" b) = Ok day /\
    x.2 = List.filter (fun o => same (JStr (date_text (ob_trading_date o))) day) rows_.
(** The observations tile the session, which ended with nothing open. *)
Record tiled (x : Frame * list Observation) : Prop := {
  td_tiles : tiles (fr_start x.1) (fr_end x.1) x.2;
  td_ended : exists finished closing positions reservations, key "complete" (fr_outcome x.1) = Ok finished /\ truthy finished = true /\
    key "end" (fr_outcome x.1) = Ok closing /\ key "positions" closing = Ok positions /\ truthy positions = false /\
    key "reservations" closing = Ok reservations /\ truthy reservations = false
}.
Record exposure_ok days fills calendar calendar_hash rows_ (outcomes : list json) (s : Exposure) : Prop := {
  eo_sessions : exists sessions areas, Forall2 (session_of days fills calendar calendar_hash rows_) outcomes sessions /\
    Forall (fun x => Forall (observed_ok x.1) x.2) sessions /\
    Forall2 area_of (concat sessions.*2) areas /\ psum areas = Ok (xp_capital s) /\
    (xp_complete s = true -> Forall tiled sessions)
}.
Lemma frame_of_outcome days fills calendar calendar_hash outcome f day :
  frame_of days fills calendar calendar_hash outcome = Ok (f, day) ->
  fr_outcome f = outcome /\ (b ← key "binding" outcome; key "date" b) = Ok day.
Proof.
  unfold frame_of. intros E. unbind E bnd_ E1. unbind E day_ E2. unbind E ses_ E3. unbind E rep_ E4. unbind E ord_ E5. unbind E seq_ E6.
  unbind E inp_ E7. apply Ok_inj in E. injection E as <- <-. rewrite E1. cbn. by rewrite E2.
Qed.
Lemma session_step_ok days fills calendar calendar_hash rows_ pre s outcome s' :
  exposure_ok days fills calendar calendar_hash rows_ pre s ->
  session_exposure days fills calendar calendar_hash rows_ s outcome = Ok s' ->
  exposure_ok days fills calendar calendar_hash rows_ (pre ++ [outcome]) s'.
Proof.
  intros [(sessions & areas & F & O & A & Hs & T)] E. unfold session_exposure in E. unbind E frame E1. destruct frame as [f day].
  unbind E dur_ E2. unbind E elig_ E3. set (local := List.filter _ rows_) in E. unbind E i E4. unbind E fin_ E5. unbind E end_ E6.
  unbind E pos_ E7. unbind E res_ E8. unbind E cov_ E9. unbind E tab_ E10. destruct tab_ as [syms_ strats_]. apply Ok_inj in E.
  assert (I : interval_ok f areas local i).
  { apply (foldR_prefix_inv (interval_ok f areas) (interval_step f) _ local i) in E4; [exact E4| |].
    - intros p o q s1 s2 _. apply interval_step_ok.
    - split; cbn; [constructor|exists []; rewrite app_nil_r; by split|constructor|done]. }
  destruct I as [I1 (new & I2 & I3) I4 I5]. destruct (frame_of_outcome _ _ _ _ _ _ _ E1) as [Ho Hd]. subst s'. split.
  exists (sessions ++ [(f, local)]), (areas ++ new). cbn [xp_capital xp_complete]. split_and!.
  - apply Forall2_app; [exact F|]. constructor; [|constructor]. by exists day.
  - apply Forall_app. split; [exact O|]. by constructor.
  - rewrite fmap_app, concat_app. cbn. rewrite app_nil_r. by apply Forall2_app.
  - exact I3.
  - intros Hc. apply andb_true in Hc as [Hc Hfull]. apply Forall_app. split; [by apply T|]. constructor; [|constructor].
    repeat (apply andb_true in Hfull as [Hfull ?]). split; cbn.
    + destruct (last local) as [o|] eqn:Hl; [|done]. specialize (I4 Hfull). rewrite (I5 _ eq_refl) in I4.
      match goal with Hb : _ && _ = true |- _ => apply andb_true in Hb as [_ Hb]; apply Z.eqb_eq in Hb; rewrite <- Hb end. exact I4.
    + rewrite Ho. exists fin_, end_, pos_, res_. split_and!; try done; by apply negb_true.
Qed.
Lemma sessions_ok universe days fills calendar calendar_hash rows_ outcomes s :
  foldR (session_exposure days fills calendar calendar_hash rows_) (start_exposure universe) outcomes = Ok s ->
  exposure_ok days fills calendar calendar_hash rows_ outcomes s.
Proof.
  intros E. apply (foldR_prefix_inv (exposure_ok days fills calendar calendar_hash rows_)
    (session_exposure days fills calendar calendar_hash rows_) (start_exposure universe) outcomes s).
  - intros pre x post s1 s2 _. apply session_step_ok.
  - split. exists [], []. split_and!; constructor.
  - exact E.
Qed.
(** Every observation of a known day belongs to a session. *)
Lemma observation_used days fills calendar calendar_hash rows_ outcomes sessions dates o :
  Forall2 (session_of days fills calendar calendar_hash rows_) outcomes sessions ->
  mapR (fun o => b ← key "binding" o; key "date" b) outcomes = Ok dates -> o ∈ rows_ ->
  contains_json dates (JStr (date_text (ob_trading_date o))) = true -> exists x, x ∈ sessions /\ o ∈ x.2.
Proof.
  intros F E Ho Hc. unfold contains_json in Hc. apply existsb_exists in Hc as (day & Hd & Hs). apply list_elem_of_In in Hd.
  destruct (mapR_elem _ _ _ _ E Hd) as (outcome & Hout & Eday). apply list_elem_of_lookup in Hout as [k Hk].
  destruct (Forall2_lookup_l _ _ _ _ _ F Hk) as (x & Hx & (day' & _ & _ & Eday' & Hl)). rewrite Eday in Eday'. apply Ok_inj in Eday'. subst day'.
  exists x. split; [by eapply list_elem_of_lookup_2|]. rewrite Hl. apply list_elem_of_In, filter_In. split; [by apply list_elem_of_In|exact Hs].
Qed.

(** ** The order of the incidents *)

Lemma incident_le_spec a b : incident_le a b = true <-> ic_start a < ic_start b \/ ic_start a = ic_start b /\ String.leb (ic_id a) (ic_id b) = true.
Proof. unfold incident_le. by rewrite orb_true_iff, andb_true, Z.ltb_lt, Z.eqb_eq. Qed.
Lemma incident_le_total a b : incident_le a b = true \/ incident_le b a = true.
Proof.
  rewrite !incident_le_spec. destruct (Z.lt_trichotomy (ic_start a) (ic_start b)) as [E|[E|E]]; [tauto| |tauto].
  destruct (String.leb_total (ic_id a) (ic_id b)); [left|right]; right; by split.
Qed.
Lemma incident_le_trans a b c : incident_le a b = true -> incident_le b c = true -> incident_le a c = true.
Proof.
  rewrite !incident_le_spec. intros [?|[? E1]] [?|[? E2]]; [left; lia|left; lia|left; lia|]. right. split; [lia|]. by eapply leb_trans.
Qed.

(** A truth that was read: valid incidents with distinct identifiers. *)
Lemma truth_valid_inv `{DumpJson Truth} t t' : truth_valid t = Ok t' -> t' = t /\ Forall (fun i => incident_valid i = Ok tt) (th_incidents t) /\
  NoDup (ic_id <$> th_incidents t).
Proof.
  unfold truth_valid. intros E. unbind E vs Ev. unbind E u1 E1. unbind E u2 E2. unbind E u3 E3. unbind E u4 E4. apply Ok_inj in E.
  apply raise_unless_Ok in E2. apply bool_decide_eq_true in E2. split; [done|]. split; [|done]. apply Forall_forall. intros i Hi.
  destruct (mapR_elem_l _ _ _ _ Ev Hi) as (y & _ & Hy). by destruct y.
Qed.
Lemma incident_window i : incident_valid i = Ok tt -> ic_start i <= ic_deadline i <= ic_window_end i.
Proof. unfold incident_valid. intros E. unbind E u1 E1. unbind E u2 E2. apply raise_unless_Ok in E2. bool_inv. lia. Qed.

(** ** What an evaluation says *)

Record monitored_ok (incidents : list Incident) (alarms : list Alarm) (m : Monitored) : Prop := {
  mr_partition : (ma_incident <$> mg_matched (mn_matching m)) ++ mg_missed (mn_matching m) ≡ₚ ic_id <$> incidents;
  mr_one_to_one : NoDup (ma_alert <$> mg_matched (mn_matching m));
  mr_matched : forall x, x ∈ mg_matched (mn_matching m) -> exists i a, i ∈ incidents /\ ic_id i = ma_incident x /\
    a ∈ alarms /\ am_id a = ma_alert x /\ timely i a /\ seconds (ic_start i) (am_at a) = Ok (ma_delay x) /\
    forall b, b ∈ alarms -> timely i b -> alarm_le a b = true \/
      exists y j, y ∈ mg_matched (mn_matching m) /\ ma_alert y = am_id b /\ j ∈ incidents /\ ic_id j = ma_incident y /\ incident_le j i = true /\ ic_id j <> ic_id i;
  mr_missed : forall i a, i ∈ incidents -> ic_id i ∈ mg_missed (mn_matching m) -> a ∈ alarms -> timely i a ->
    am_id a ∈ ma_alert <$> mg_matched (mn_matching m);
  mr_duplicates : forall k, k ∈ ex_duplicates (mn_extra m) <->
    exists a, a ∈ alarms /\ am_id a = k /\ k ∉ ma_alert <$> mg_matched (mn_matching m) /\ duplicate_of incidents a;
  mr_late : forall k, k ∈ ex_late (mn_extra m) <->
    exists a, a ∈ alarms /\ am_id a = k /\ k ∉ ma_alert <$> mg_matched (mn_matching m) /\ late_for incidents a;
  mr_counts : length_of (mg_matched (mn_matching m)) + mn_false_positives m = length_of alarms /\ 0 <= mn_false_positives m;
  mr_rates : Forall (fun o => match o with None => True | Some v => (0 <= dval v <= 1)%Q end) [mn_precision m; mn_recall m; mn_f1 m];
  mr_undefined : (mn_precision m = None <-> alarms = []) /\ (mn_recall m = None <-> incidents = [])
}.

Lemma measured_ok ordered alarms incidents listed_ resolutions m : ordered = sort_by alarm_le alarms ->
  incidents = sort_by incident_le listed_ -> NoDup (am_id <$> alarms) -> NoDup (ic_id <$> listed_) ->
  Forall (fun i => ic_deadline i <= ic_window_end i) listed_ -> measured_monitoring ordered incidents resolutions = Ok m ->
  monitored_ok listed_ alarms m.
Proof.
  intros Ho Hi Hna Hni Hw E. unfold measured_monitoring in E. unbind E mg_ E1. unbind E x_ E2. unbind E res_ E3. unbind E p_ E4.
  unbind E r_ E5. unbind E f_ E6. apply Ok_inj in E. subst m.
  assert (Hpo : ordered ≡ₚ alarms) by (subst; apply sort_by_perm). assert (Hpi : incidents ≡ₚ listed_) by (subst; apply sort_by_perm).
  assert (Hso : StronglySorted (fun x y => alarm_le x y = true) ordered).
  { subst. apply sort_by_sorted; [apply alarm_le_total|apply alarm_le_trans]. }
  assert (Hsi : StronglySorted (fun x y => incident_le x y = true) incidents).
  { subst. apply sort_by_sorted; [apply incident_le_total|apply incident_le_trans]. }
  clear Ho Hi. rewrite <- Hpi in Hni, Hw.
  destruct (matching_matches _ _ _ Hso E1) as [M Hu]. destruct (extras_sorted_out _ _ _ _ Hw E2) as [D L].
  pose proof (matches_partition _ _ _ _ M) as P. pose proof (matches_distinct _ _ _ _ M) as N.
  assert (Hsub : ma_alert <$> mg_matched mg_ ⊆ am_id <$> alarms).
  { intros k (x & -> & Hx)%list_elem_of_fmap. destruct (matches_at _ _ _ _ _ M Hx) as (pre & i & post & _ & used & [_ (a & Ha & Hid & _)] & _).
    rewrite <- Hid. apply list_elem_of_fmap. exists a. rewrite <- Hpo. done. }
  pose proof (submseteq_length _ _ (NoDup_submseteq _ _ N Hsub)) as Hlen. rewrite !length_fmap in Hlen.
  pose proof (Permutation_length P) as Hcount. rewrite length_app, !length_fmap in Hcount.
  pose proof (Permutation_length Hpo) as Hlo. pose proof (Permutation_length Hpi) as Hli.
  split; cbn [mn_matching mn_extra mn_false_positives mn_precision mn_recall mn_f1].
  - by rewrite <- Hpi.
  - exact N.
  - intros x Hx. destruct (matches_at _ _ _ _ _ M Hx) as (pre & i & post & Hsplit & used & [Hid (a & Ha & Hk & _ & Ht & Hd & Hleast)] & Hused).
    exists i, a. rewrite <- Hpi, <- Hpo. split; [rewrite Hsplit; set_solver|]. split_and!; try done.
    intros b Hb Htb. rewrite <- Hpo in Hb. destruct (Hleast b Hb Htb) as [Hin|?]; [|by left]. right.
    destruct (Hused _ Hin) as (y & Hy & Hya & Hyi). apply list_elem_of_fmap in Hyi as (j & Hj & Hjp). exists y, j.
    split; [done|]. split; [done|]. rewrite <- Hpi. split; [rewrite Hsplit; set_solver|]. split; [done|].
    rewrite Hsplit in Hsi. split.
    + by apply (StronglySorted_app_1_elem_of _ pre (i :: post) j i Hsi); [|left].
    + rewrite Hsplit, fmap_app in Hni. apply NoDup_app in Hni as (_ & Hni & _). intros Heq. apply (Hni (ic_id j)).
      * apply list_elem_of_fmap. by exists j.
      * rewrite Heq. by left.
  - intros i a Hi Hm Ha Ht. rewrite <- Hpi in Hi. rewrite <- Hpo in Ha. by eapply matches_all_used.
  - intros k. rewrite D. setoid_rewrite Hpo. unfold duplicate_of. setoid_rewrite Hpi. by setoid_rewrite Hu.
  - intros k. rewrite L. setoid_rewrite Hpo. unfold late_for, duplicate_of. setoid_rewrite Hpi. by setoid_rewrite Hu.
  - unfold length_of in *. lia.
  - unfold length_of in *. apply share_bounds in E4, E5, E6; [|lia..]. rewrite !Forall_cons, Forall_nil.
    split; [destruct p_; tauto|]. split; [destruct r_; tauto|]. split; [destruct f_; tauto|done].
  - unfold length_of in *. apply share_bounds in E4, E5; [|lia..].
    split; [destruct p_, alarms as [|a alarms]|destruct r_, listed_ as [|i listed_]]; cbn [length] in *; split; intros; try done; try lia.
Qed.
