(* ===== verification/MonitoringTheorems.v ===== *)
(** * What is matched, and what is covered

    The alerts of a run against the incidents of an independent truth, and the exposure
    of a run whose observations tile its sessions; with worked samples. *)
From S2P Require Import Prelude Decimal DecimalFacts Text Dataset Costs Phase14 Strategies Execution Json JsonFacts JsonRead CanonicalPolicy Research Exec Qualification Chain PyText Paper.
From S2P Require Import Errors Portfolio PortfolioRun Scheduler Multi MultiFacts Analytics Attribution Quality QualityFacts Monitoring MonitoringFacts MultiRecovery.
From S2P Require QualitySample.
From Stdlib Require Import Ascii.
Open Scope list_scope.
Open Scope Z_scope.

(** ** The theorems *)

(** C12. The alerts of a checked ledger against the incidents of a truth.  Every incident is
    either matched or missed, and every match takes an alert of its own, which is timely
    for the incident: between its start and its deadline, of its run, day and category,
    with the delay from the start.  The alert is the earliest timely one, those of earlier
    incidents excepted; an incident is missed only if all its timely alerts went to
    others.  The duplicates are the unmatched alerts that are timely for some incident,
    the late ones those that only fall into a window; matched alerts and false positives
    are all the alerts, and precision, recall and their mean are between zero and one,
    absent exactly for an empty denominator. *)
Theorem monitoring_matches `{DumpJson Truth} `{ReadJson Truth} alerts expected alarms truth resolutions t ordered incidents m :
  check_ledger alerts expected = Ok alarms ->
  evaluate_monitoring truth alarms resolutions = Ok (t, ordered, incidents, m) ->
  length alarms = length alerts /\ ordered ≡ₚ alarms /\ incidents ≡ₚ th_incidents t /\ monitored_ok (th_incidents t) alarms m.
Proof.
  intros El E. destruct (check_ledger_alarms _ _ _ El) as (Hlen & Hna & _). unfold evaluate_monitoring in E. unbind E u1 E1.
  unbind E t_ E2. unbind E u3 E3. unbind E m_ E4. apply Ok_inj in E. injection E as -> <- <- ->.
  unfold validate_truth in E2. unbind E2 t0 Et. apply truth_valid_inv in E2 as (-> & Hv & Hni).
  split; [exact Hlen|]. split; [apply sort_by_perm|]. split; [apply sort_by_perm|].
  eapply measured_ok; [reflexivity..|exact Hna|exact Hni| |exact E4].
  eapply Forall_impl; [exact Hv|]. intros i Hi%incident_window. lia.
Qed.

(** C13. The exposure of a run.  Every outcome has a frame and its observations, and every
    observation belongs to one: it lies in the session, is bound to it, shows exactly the
    orders that are open, spans no fill, and its equity is cash plus market value.  The
    capital-time is the sum over all observations of market value times seconds, and the
    rows by symbol and by strategy add up to it.  If the result is called complete, the
    observations of every session follow each other without a gap from its start to its
    end, each session ended complete with nothing open, and the results by symbol and by
    strategy add up to the change of equity. *)
Theorem exposure_complete `{DumpJson Scheduler.Calendar} `{DumpJson Observation} `{ReadJson Observation} `{ReadJson Scheduler.Calendar}
    universe validated source expected observations outcomes rows_ s pnl :
  measure_exposure universe validated source expected observations = Ok (outcomes, rows_, s, pnl) ->
  validated source = Ok outcomes /\
  exists inputs days fills calendar sessions areas,
    key "input" source = Ok inputs /\ list_at "days" inputs = Ok days /\ read_at "calendar" inputs = Ok calendar /\
    accepted_fills validated source expected = Ok fills /\
    Forall2 (session_of days fills calendar (calendar_fingerprint calendar) rows_) outcomes sessions /\
    Forall (fun x => Forall (observed_ok x.1) x.2) sessions /\
    (forall o, o ∈ rows_ -> exists x, x ∈ sessions /\ o ∈ x.2) /\
    Forall2 area_of (concat sessions.*2) areas /\ psum areas = Ok (xp_capital s) /\
    both_total gr_capital (xp_capital s) s "EXPOSURE_ATTRIBUTION" = Ok tt /\
    (xp_complete s = true -> Forall tiled sessions /\ both_total gr_pnl pnl s "PNL_ATTRIBUTION" = Ok tt).
Proof.
  unfold measure_exposure. intros E. unbind E u1 E1. unbind E u2 E2. unbind E u3 E3. unbind E u4 E4. unbind E outs_ E5.
  unbind E fills E6. unbind E inp_ E7. unbind E calendar E8. unbind E obs_ E9. unbind E u10 E10. unbind E u11 E11. unbind E u12 E12.
  unbind E dates E13. unbind E u14 E14. unbind E walked_ E15. destruct walked_ as [s_ pnl_]. apply Ok_inj in E. injection E as <- <- <- <-.
  split; [exact E5|]. apply raise_unless_Ok in E14. unfold walk_exposure in E15. unbind E15 inp2_ E16. unbind E15 days E17.
  unbind E15 s0 E18. destruct (sessions_ok _ _ _ _ _ _ _ _ E18) as [(sessions & areas & F & O & A & Hsum & T)].
  rewrite E16 in E7. apply Ok_inj in E7. subst inp_. exists inp2_, days, fills, calendar, sessions, areas.
  split; [exact E16|]. split; [exact E17|]. split; [exact E8|]. split; [exact E6|]. split; [exact F|]. split; [exact O|]. split.
  { intros o Ho. eapply observation_used; [exact F|exact E13|exact Ho|]. rewrite forallb_forall in E14. by apply E14, list_elem_of_In. }
  split; [exact A|]. unfold check_exposure in E15. unbind E15 sum_ E19. unbind E15 fin_ E20. unbind E15 final_ E21.
  unbind E15 clo_ E22. unbind E15 eq_ E23. unbind E15 fst_ E24. unbind E15 beg_ E25. unbind E15 op_ E26. unbind E15 net_ E27.
  unbind E15 u28 E28. unbind E15 u29 E29. apply Ok_inj in E15. injection E15 as <- <-. cbn [xp_capital xp_complete] in *.
  split; [exact Hsum|]. destruct u28, u29. split; [exact E28|]. intros Hc. rewrite Hc in E29. split; [|exact E29].
  apply T. by apply andb_true in Hc as [? _].
Qed.

(** ** Samples *)

Import QualitySample.

(** One incident with a timely alert, a second alert for it, a late one; one incident
    without an alert. *)
Definition opening_bell : Z := 1728013500000000.
Definition sample_incident (id category : string) (start : Z) : Incident :=
  mkIncident id "run" (nse_date start) category "CRITICAL" start None category (start + 60 * SECOND) (start + 120 * SECOND) "source".
Definition sample_incidents : list Incident :=
  [sample_incident "clock" "CLOCK_ROLLBACK" (opening_bell + SECOND); sample_incident "gap" "DATA_GAP" opening_bell].
Definition incident_json (i : Incident) : json :=
  JObj [("incident_id", JStr (ic_id i)); ("category", JStr (ic_category i)); ("start", JInt (ic_start i))]%string.
#[export] Instance json_truth : DumpJson Truth := fun t =>
  JObj [("policy_hash", JStr (th_policy_hash t)); ("incidents", JArr (incident_json <$> th_incidents t));
        ("fingerprint", JStr (th_fingerprint t))]%string.
Definition unsealed_truth : Truth := mkTruth (sha (canonical MONITORING_POLICY)) sample_incidents "".
Definition sample_truth : Truth :=
  mkTruth (th_policy_hash unsealed_truth) sample_incidents (sha (canonical (unfingered (model_dump_json_value unsealed_truth)))).
#[export] Instance read_truth : ReadJson Truth := fun v =>
  if same v (model_dump_json_value sample_truth) then Ok sample_truth else Err (ValueError "VALIDATION").

Definition sample_alert (reason at_ : string) : json :=
  let body := [("run_id", JStr "run"); ("session_date", JStr "2024-10-04"); ("reason", JStr reason); ("timestamp", JStr at_)]%string in
  JObj (("alert_id"%string, JStr (sha (canonical (JObj body)))) :: body).
Definition sample_alerts : list json :=
  [sample_alert "DATA_GAP" "2024-10-04T03:46:30+00:00"; sample_alert "DATA_GAP" "2024-10-04T03:45:30+00:00";
   sample_alert "DATA_GAP" "2024-10-04T03:45:45+00:00"].
Definition sample_resolution : json :=
  JObj (seal [("incident_id", JStr "gap"); ("run_id", JStr "run"); ("status", JStr "RESOLVED"); ("halt_cleared", JBool false);
              ("timestamp", JStr "2024-10-04T03:50:00+00:00")])%string.
Lemma sample_monitored : exists alarms t ordered incidents m,
  check_ledger sample_alerts (sha (canonical (JArr sample_alerts))) = Ok alarms /\
  evaluate_monitoring (model_dump_json_value sample_truth) alarms [sample_resolution] = Ok (t, ordered, incidents, m) /\
  ma_incident <$> mg_matched (mn_matching m) = ["gap"%string] /\ mg_missed (mn_matching m) = ["clock"%string] /\
  length (ex_duplicates (mn_extra m)) = 1%nat /\ length (ex_late (mn_extra m)) = 1%nat /\
  mn_recall m = Some (Dec 5 (-1)) /\ mn_resolved m = [("gap"%string, Dec 300 0)].
Proof.
  assert (E : (alarms ← check_ledger sample_alerts (sha (canonical (JArr sample_alerts)));
    '(_, _, _, m) ← evaluate_monitoring (model_dump_json_value sample_truth) alarms [sample_resolution];
    Ok (ma_incident <$> mg_matched (mn_matching m), mg_missed (mn_matching m), length (ex_duplicates (mn_extra m)),
        length (ex_late (mn_extra m)), mn_recall m, mn_resolved m)) =
    Ok (["gap"%string], ["clock"%string], 1%nat, 1%nat, Some (Dec 5 (-1)), [("gap"%string, Dec 300 0)])) by (vm_compute; reflexivity).
  apply bind_Ok in E as (alarms & Ea & E). apply bind_Ok in E as ([[[t ordered] incidents] m] & Em & E). apply Ok_inj in E.
  injection E as E1 E2 E3 E4 E5 E6. exists alarms, t, ordered, incidents, m. exact (conj Ea (conj Em (conj E1 (conj E2 (conj E3 (conj E4 (conj E5 E6))))))).
Qed.

(** One session with one order: bought at 03:50, sold at 04:00, with quotes from the open
    to the close. *)
Definition instant (text : string) : Z := match fromisoformat text with Ok t => t | Err _ => 0 end.
Definition traded_session : DatedSession := mkDated opening_bell (opening_bell + 22500 * SECOND).
Definition traded_calendar : Scheduler.Calendar := mkSessionCalendar "v1" "" [traded_session] [].
#[export] Instance json_traded_calendar : DumpJson Scheduler.Calendar := fun c => JStr (ca_version c).
#[export] Instance read_traded_calendar : ReadJson Scheduler.Calendar := fun v =>
  if same v (model_dump_json_value traded_calendar) then Ok traded_calendar else Err (ValueError "VALIDATION").
Definition bought_at : string := "2024-10-04T03:50:00+00:00".
Definition sold_at : string := "2024-10-04T04:00:00+00:00".
Definition traded_order : json :=
  JObj [("order_id", JStr "order"); ("symbol", JStr "INFY"); ("strategy_id", JStr "S01"); ("quantity", JInt 10); ("state", JStr "CLOSED");
        ("entry", JStr "102.50"); ("entry_at", JStr bought_at); ("exit", JStr "102.00"); ("exit_at", JStr sold_at); ("net", JStr "-6.0")]%string.
Definition sold_event : json :=
  JObj [("event_id", JStr (hash_of "b"%char)); ("state", JStr "CLOSED"); ("order_id", JStr "order"); ("symbol", JStr "INFY");
        ("strategy_id", JStr "S01"); ("timestamp", JStr sold_at); ("fees", JStr "0.5"); ("cash_delta", JStr "1019.5");
        ("current_hash", JStr (hash_of "f"%char)); ("details", JObj [("price", JStr "102.00")])]%string.
Definition traded_binding : json :=
  JObj [("run_id", JStr (hash_of "c"%char)); ("date", JStr "2024-10-04"); ("sequence", JInt 0)]%string.
Definition traded_outcome : json :=
  JObj [("binding", traded_binding); ("complete", JBool true);
        ("start", JObj [("cash", JStr "10000"); ("equity", JStr "10000")]);
        ("end", JObj [("equity", JStr "9994"); ("positions", JObj []); ("reservations", JObj [])]);
        ("reports", JObj [("orders.json", JArr [traded_order]);
                          ("session-events.json", JArr [JObj [("portfolio_events", JArr [fill_event; sold_event])]])])]%string.
Definition traded_source : json :=
  JObj [("input", JObj [("days", JArr [JStr "day"]); ("calendar", model_dump_json_value traded_calendar)]);
        ("summary", JObj [("complete", JBool true)]); ("outcomes", JArr [traded_outcome])]%string.

Definition sample_observation (id : string) (at_ until : Z) (positions : list Mark) (equity : dec) (fingerprint : string) : Observation :=
  mkObservation (hash_of "c"%char) (sha (canonical traded_binding)) (nse_date at_) id at_ at_ until positions equity
    (calendar_fingerprint traded_calendar) (sha (canonical (JStr "day"))) RISK_HASH EXECUTION_HASH (sha (canonical EXPOSURE_POLICY)) fingerprint.
#[export] Instance json_observation : DumpJson Observation := fun o =>
  JObj [("observation_id", JStr (ob_id o)); ("at", JInt (ob_at o)); ("until", JInt (ob_until o));
        ("positions", JArr ((JStr ∘ mk_position_id) <$> ob_positions o)); ("equity", jdec (ob_equity o));
        ("fingerprint", JStr (ob_fingerprint o))]%string.
Definition sealed_observation (id : string) (at_ until : Z) (positions : list Mark) (equity : dec) : Observation :=
  sample_observation id at_ until positions equity
    (sha (canonical (unfingered (model_dump_json_value (sample_observation id at_ until positions equity ""))))).
Definition sample_mark (at_ until : Z) : Mark :=
  mkMark "order" "INFY" "S01" 10 (Dec 103 0) (Dec 1030 0) "quote" at_ at_ until.
Definition sample_observations : list Observation :=
  let close := ds_end traded_session in
  [sealed_observation "a" opening_bell (instant bought_at) [] (Dec 10000 0);
   sealed_observation "b" (instant bought_at) (instant sold_at) [sample_mark (instant bought_at) (instant sold_at)] (Dec 100045 (-1));
   sealed_observation "c" (instant sold_at) close [] (Dec 9994 0);
   sealed_observation "d" close close [] (Dec 9994 0)].
#[export] Instance read_observation : ReadJson Observation := fun v =>
  of_option (ValueError "VALIDATION") (List.find (fun o => same v (model_dump_json_value o)) sample_observations).
Notation sample_exposure :=
  (measure_exposure ["INFY"%string] (list_at "outcomes") traded_source (sha (canonical traded_source))
    (model_dump_json_value <$> sample_observations)).
Lemma sample_exposed : (fun x => (length x.1.1.1, xp_complete x.1.2, xp_capital x.1.2)) <$> sample_exposure = Ok (1%nat, true, Dec 618000 0).
Proof. vm_compute. reflexivity. Qed.

(** ** Witnesses *)

Lemma monitoring_matches_witness : exists alarms t ordered incidents m,
  check_ledger sample_alerts (sha (canonical (JArr sample_alerts))) = Ok alarms /\
  evaluate_monitoring (model_dump_json_value sample_truth) alarms [sample_resolution] = Ok (t, ordered, incidents, m) /\
  monitored_ok (th_incidents t) alarms m /\ mg_missed (mn_matching m) = ["clock"%string].
Proof.
  destruct sample_monitored as (alarms & t & ordered & incidents & m & Ea & Em & _ & Hm & _). exists alarms, t, ordered, incidents, m.
  split; [exact Ea|]. split; [exact Em|].
  destruct (monitoring_matches sample_alerts (sha (canonical (JArr sample_alerts))) alarms (model_dump_json_value sample_truth)
    [sample_resolution] t ordered incidents m Ea Em) as (_ & _ & _ & Hok).
  split; [exact Hok|exact Hm].
Defined.
Lemma exposure_complete_witness : exists outcomes rows_ s pnl sessions, sample_exposure = Ok (outcomes, rows_, s, pnl) /\
  xp_complete s = true /\ xp_capital s = Dec 618000 0 /\ length sessions = 1%nat /\ Forall tiled sessions.
Proof.
  pose proof sample_exposed as E.
  destruct sample_exposure as [[[[outcomes rows_] s] pnl]|e] eqn:Es; [|discriminate E]. apply Ok_inj in E. cbn in E.
  injection E as Hl Hc Hcap.
  destruct (exposure_complete ["INFY"%string] (list_at "outcomes") traded_source (sha (canonical traded_source))
    (model_dump_json_value <$> sample_observations) outcomes rows_ s pnl Es)
    as (_ & inputs & days & fills & calendar & sessions & areas & _ & _ & _ & _ & F & _ & _ & _ & _ & _ & T).
  destruct (T Hc) as [Ht _]. exists outcomes, rows_, s, pnl, sessions.
  split; [exact eq_refl|]. split; [exact Hc|]. split; [exact Hcap|]. split; [rewrite <- (Forall2_length _ _ _ F); exact Hl|exact Ht].
Defined.
