(* ===== verification/Authority.v ===== *)
(** * The recovery authority and the alert ledger ([phase1426/authority.py], [alerts.py])

    An append-only chain of records in a directory that the local state cannot roll back.
    [recover] consumes an approval durably - a local file, then a CONSUMED record - before
    it calls the recovery action, and never retries.  The alert ledger is a second chain of
    the same kind; [assure] checks that every critical incident of a truth has its alert.

    A directory is the dictionary of its files, by name.  [vt_calls] is not kept by the
    program: it is the history of the calls of the recovery action, for the theorems. *)
From S2P Require Import Prelude Decimal DecimalFacts Text Dataset Costs Phase14 Strategies Execution Json JsonFacts JsonRead CanonicalPolicy Research Exec Qualification Chain PyText Paper.
From S2P Require Import Portfolio PortfolioRun Scheduler Multi Analytics Attribution Quality Monitoring.
From Stdlib Require Import Ascii.
Open Scope list_scope.
Open Scope Z_scope.

Definition LIMIT : Z := 10000.
Definition RECORD_LIMIT : Z := 1024 * 1024.
Definition READ_LIMIT : Z := 4 * 1024 * 1024.

Definition AUTHORITY_POLICY : json :=
  JObj [("version", JStr "Phase1426Authority.v1"); ("scope", JStr "SYNTHETIC_FIXTURE"); ("consume_before_recovery", JBool true);
        ("automatic_retry", JBool false); ("halt_clearance", JBool false); ("witness_survival", JStr "OUTSIDE_LOCAL_ROLLBACK_SUBTREE");
        ("independent_custody", JBool false); ("universal_rollback_prevention", JBool false)]%string.

(** ** Files *)

(** A directory; [None] when it does not exist. *)
Definition Folder : Type := option (gmap string bytes).
Definition files_of (directory : Folder) : gmap string bytes := default ∅ directory.
Definition read_json (directory : Folder) (name : string) (limit : Z) : res (bytes * json) :=
  raw ← of_option (ValueError "INPUT_FILE_LIMIT_OR_TYPE") (files_of directory !! name);
  require! Z.of_nat (length raw) <=? limit else "INPUT_FILE_LIMIT_OR_TYPE";
  v ← json_loads raw;
  require! unique v else "DUPLICATE_JSON_KEY";
  Ok (raw, v).
(** [publish(directory / name, raw)]; the directory is made when it is missing. *)
Definition publish (name : string) (raw : bytes) : exec Folder unit :=
  directory ← get;
  match files_of directory !! name with
  | Some old => raises_if (negb (bool_decide (old = raw))) "CONTENT_CONFLICT"
  | None =>
      _ ← lift (if bool_decide (is_Some (files_of directory !! (name +:+ ".pending")%string)) then Err FileExistsError else Ok tt);
      modify (fun d => Some (<[name := raw]> (files_of d)))
  end.

(** ** The chain of records *)

(** [f"{i:06}.json"] *)
Definition record_name (i : nat) : string :=
  let digits := text (nat_text (Z.of_nat i)) in
  (String.string_of_list_ascii (zeros_text (6 - Z.of_nat (length digits)) ++ digits) +:+ ".json")%string.
(** [v == n] for an integer: a boolean is one. *)
Definition is_number (v : json) (n : Z) : bool :=
  match v with JInt m => m =? n | JBool b => Z.b2z b =? n | _ => false end.
Definition chain_step (directory : Folder) (s : list json * string) (i : nat) : res (list json * string) :=
  '(raw, row) ← read_json directory (record_name i) RECORD_LIMIT;
  require! match row with JObj l => bool_decide (list_to_set l.*1 =@{gset string} {["sequence"; "previous"; "payload"; "fingerprint"]}) | _ => false end%string
    else "CORRUPT_RECORD";
  fields ← fields_of row;
  sequence ← key "sequence" row;
  previous ← key "previous" row;
  require! same row (JObj (seal fields)) && is_number sequence (Z.of_nat i) && same previous (JStr s.2) else "CORRUPT_CHAIN";
  require! bool_decide (raw = canonical row) else "NONCANONICAL_RECORD";
  payload ← key "payload" row;
  Ok (s.1 ++ [payload], sha raw).
Definition chain (directory : Folder) (expected : option string) : res (list json * string) :=
  let n := base.size (files_of directory) in
  require! Z.of_nat n <=? LIMIT else "LEDGER_BUDGET";
  require! forallb (fun i => bool_decide (is_Some (files_of directory !! record_name i))) (seq 0 n) else "MISSING_OR_AMBIGUOUS_RECORD";
  s ← foldR (chain_step directory) ([], ZERO) (seq 0 n);
  require! match expected with Some h => bool_decide (h = s.2) | None => true end else "TRUSTED_HEAD_MISMATCH";
  Ok s.
Definition record (n : nat) (head : string) (payload : json) : json :=
  JObj (seal [("sequence", JInt (Z.of_nat n)); ("previous", JStr head); ("payload", payload)])%string.
Definition append (payload : json) : exec Folder string :=
  directory ← get;
  '(rows, head) ← lift (chain directory None);
  _ ← lift (raise_unless (length_of rows <? LIMIT) "LEDGER_BUDGET");
  let raw := canonical (record (length rows) head payload) in
  _ ← lift (raise_unless (Z.of_nat (length raw) <=? RECORD_LIMIT) "RECORD_BUDGET");
  _ ← publish (record_name (length rows)) raw;
  mret (sha raw).

(** [with ownership(directory): m]; the lock file is removed whatever [m] does. *)
Definition owned {S A} (locked : S -> bool) (lock : bool -> S -> S) (m : exec S A) : exec S A := fun s =>
  if locked s then (s, Err (ValueError "AMBIGUOUS_OR_COMPETING_OWNER"))
  else let '(s, r) := m (lock true s) in (lock false s, r).

(** ** Witnesses and approvals *)

Record Witness := mkWitness {
  wi_run_id : string; wi_session : Z; wi_event : Z; wi_journal_head : string; wi_epoch : Z; wi_halt : bool; wi_action : string
}.
(** The checks of the fields of a [Witness]. *)
Definition witness_fields (w : Witness) : bool :=
  hash_ok (wi_run_id w) && (0 <=? wi_session w) && (0 <=? wi_event w) && hash_ok (wi_journal_head w) && (0 <=? wi_epoch w).
Record Approval := mkApproval {
  ap_request : string; ap_run_id : string; ap_incident_id : string; ap_identity : string; ap_action : string;
  ap_issued : Z; ap_expiry : Z; ap_evidence : string; ap_head : string; ap_fingerprint : string; ap_consumption : string
}.
(** [self.model_dump(mode="json", exclude={k})] *)
Definition excluding (k : string) (v : json) : json := match v with JObj l => JObj (without k l) | v => v end.
(** [s.startswith(prefix)] *)
Definition startswith (prefix s : string) : bool := bool_decide (text prefix `prefix_of` text s).
Definition endswith (suffix s : string) : bool := bool_decide (text suffix `suffix_of` text s).

Record Vault := mkVault { vt_records : Folder; vt_local : Folder; vt_locked : bool; vt_calls : list string }.
Definition with_records (f : Folder) (v : Vault) : Vault := mkVault f (vt_local v) (vt_locked v) (vt_calls v).
Definition with_local (f : Folder) (v : Vault) : Vault := mkVault (vt_records v) f (vt_locked v) (vt_calls v).
Definition with_lock (b : bool) (v : Vault) : Vault := mkVault (vt_records v) (vt_local v) b (vt_calls v).
Definition called (identity : string) (v : Vault) : Vault :=
  mkVault (vt_records v) (vt_local v) (vt_locked v) (vt_calls v ++ [identity]).
Definition on_records {A} (m : exec Folder A) : exec Vault A := focus vt_records with_records m.
Definition on_local {A} (m : exec Folder A) : exec Vault A := focus vt_local with_local m.

(** [Authority.progress] *)
Definition progress (previous new : Witness) : res unit :=
  require! bool_decide (wi_run_id previous = wi_run_id new) && (wi_session previous <=? wi_session new) &&
           (wi_event previous <=? wi_event new) && (wi_epoch previous <=? wi_epoch new) else "WITNESS_ROLLBACK";
  require! negb (wi_halt previous) || wi_halt new else "HALT_CLEARANCE_FORBIDDEN";
  if wi_event new =? wi_event previous
  then raise_unless (bool_decide (wi_journal_head new = wi_journal_head previous)) "JOURNAL_HEAD_WITHOUT_PROGRESS"
  else Ok tt.

Section authority.
Context `{DumpJson Witness} `{ReadJson Witness} `{DumpJson Approval} `{ReadJson Approval}.

Definition approval_valid (a : Approval) : res Approval :=
  require! startswith "synthetic:" (ap_identity a) else "SYNTHETIC_IDENTITY_REQUIRED";
  require! ap_issued a <? ap_expiry a else "INVALID_AUTHORITY_INTERVAL";
  require! bool_decide (sha (canonical (excluding "approval_fingerprint" (model_dump_json_value a))) = ap_fingerprint a)
    else "CORRUPT_APPROVAL";
  Ok a.
Definition validate_approval (v : json) : res Approval := a ← model_validate v; approval_valid a.

Definition payload (state : Witness) (spent : list json) (status : string) : json :=
  JObj [("state", model_dump_json_value state); ("spent", JArr spent); ("status", JStr status)]%string.

(** [Authority.initialize] *)
Definition initialize (state : Witness) : exec Vault string :=
  owned vt_locked with_lock (
    v ← get;
    _ ← raises_if (bool_decide (is_Some (vt_records v)) || bool_decide (is_Some (vt_local v))) "AUTHORITY_ALREADY_INITIALIZED";
    _ ← modify (with_local (Some ∅));
    on_records (append (payload state [] "READY"))).

(** [Authority.current] *)
Definition current_step (s : option Witness * list json) (row : json) : res (option Witness * list json) :=
  state_json ← key "state" row;
  state ← model_validate state_json;
  _ ← match s.1 with
      | Some previous =>
          _ ← progress previous state;
          spent ← list_at "spent" row;
          raise_unless (same (JArr (take (length s.2) spent)) (JArr s.2)) "CONSUMPTION_ROLLBACK"
      | None => Ok tt
      end;
  spent ← list_at "spent" row;
  Ok (Some state, spent).
Definition consumption_name (record : json) : res string := identity ← text_at "identity" record; Ok (identity +:+ ".json")%string.
Definition check_consumption (local : Folder) (record : json) : res unit :=
  name ← consumption_name record;
  '(raw, value) ← read_json local name READ_LIMIT;
  raise_unless (same value record && bool_decide (raw = canonical record)) "CONSUMPTION_CORRUPTED".
Definition check_local (local : Folder) (spent : list json) : res unit :=
  let names := elements (dom (files_of local)) in
  expected ← mapR consumption_name spent;
  require! bool_decide (list_to_set (List.filter (endswith ".json") names) =@{gset string} list_to_set expected) &&
           negb (existsb (endswith ".pending") names) else "MISSING_OR_AMBIGUOUS_CONSUMPTION";
  _ ← mapR (check_consumption local) spent;
  Ok tt.
Definition current (v : Vault) (expected_head : string) : res json :=
  '(rows, _) ← chain (vt_records v) (Some expected_head);
  row ← of_option (ValueError "WITNESS_MISSING") (last rows);
  s ← foldR current_step (None, []) rows;
  requests ← mapR (key "request") s.2;
  require! distinct requests else "DUPLICATE_CONSUMPTION";
  identities ← mapR (key "identity") s.2;
  require! distinct identities else "DUPLICATE_CONSUMPTION";
  _ ← check_local (vt_local v) s.2;
  Ok row.

(** [Authority.verify] *)
Definition verify (v : Vault) (expected_head : string) (observed : Witness) : res json :=
  row ← current v expected_head;
  _ ← expect "OBSERVED_STATE_MISMATCH" "state" row (model_dump_json_value observed);
  Ok row.

(** ** Recovery *)

Definition same_approval (a : Approval) (r : json) : res bool :=
  request ← key "request" r;
  if same request (JStr (ap_request a)) then Ok true
  else
    identity ← key "identity" r;
    if same identity (JStr (ap_consumption a)) then Ok true
    else approval ← key "approval" r; Ok (same approval (JStr (ap_fingerprint a))).
Fixpoint existsR {A} (f : A -> res bool) (l : list A) : res bool :=
  match l with
  | [] => Ok false
  | x :: l => b ← f x; if b : bool then Ok true else existsR f l
  end.
Definition consumption (a : Approval) (head evidence : string) : json :=
  JObj [("request", JStr (ap_request a)); ("identity", JStr (ap_consumption a)); ("approval", JStr (ap_fingerprint a));
        ("trusted_head", JStr head); ("evidence", JStr evidence)]%string.
Definition consumed_state (a : Approval) (w : Witness) : Witness :=
  mkWitness (wi_run_id w) (wi_session w) (wi_event w) (wi_journal_head w) (wi_epoch w + 1) (wi_halt w)
    ("CONSUMED:" +:+ ap_consumption a)%string.
(** [if crash == point: raise InterruptedError(crash)] *)
Definition crash_at (point : string) (crash : option string) : exec Vault unit :=
  lift (if bool_decide (crash = Some point) then Err (InterruptedError point) else Ok tt).

(** Everything that is checked before an approval is consumed; the records spent so far. *)
Definition authorize (trusted : gmap string string) (approval : Approval) (expected_head : string) (observed : Witness)
    (run_id incident_id evidence : string) (now : option Z) (v : Vault) : res (list json) :=
  row ← verify v expected_head observed;
  status ← key "status" row;
  reject! same status (JStr "CONSUMED") as "AMBIGUOUS_RECOVERY_NO_RETRY";
  require! bool_decide (trusted !! ap_request approval = Some (ap_fingerprint approval)) else "UNTRUSTED_APPROVAL";
  require! bool_decide (ap_run_id approval = run_id) && bool_decide (run_id = wi_run_id observed) &&
           bool_decide (ap_incident_id approval = incident_id) else "AUTHORITY_IDENTITY_MISMATCH";
  require! bool_decide (ap_evidence approval = evidence) else "AUTHORITY_EVIDENCE_MISMATCH";
  require! bool_decide (ap_head approval = expected_head) else "STALE_APPROVAL";
  (* [None] is a time without a zone *)
  require! match now with Some t => (ap_issued approval <=? t) && (t <? ap_expiry approval) | None => false end else "EXPIRED_APPROVAL";
  spent ← list_at "spent" row;
  used ← existsR (same_approval approval) spent;
  reject! used as "APPROVAL_ALREADY_USED";
  Ok spent.
Definition recovery (approval : Approval) (spent : list json) (expected_head : string) (observed : Witness) (evidence : string)
    (action : Witness -> res Witness) (crash : option string) : exec Vault json :=
  _ ← crash_at "before_consumption" crash;
  let record := consumption approval expected_head evidence in
  _ ← on_local (publish (ap_consumption approval +:+ ".json")%string (canonical record));
  _ ← crash_at "after_local_consumption" crash;
  let consumed := consumed_state approval observed in
  let spent := spent ++ [record] in
  _ ← on_records (append (payload consumed spent "CONSUMED"));
  _ ← crash_at "after_consumption" crash;
  _ ← modify (called (ap_consumption approval));
  new ← lift (action consumed);
  _ ← lift (progress consumed new);
  _ ← lift (raise_unless ((wi_epoch new =? wi_epoch consumed) && bool_decide (wi_action new = ap_action approval)) "RECOVERY_RESULT_BINDING");
  _ ← crash_at "during_recovery" crash;
  _ ← crash_at "ambiguous_acknowledgment" crash;
  head ← on_records (append (payload new spent "COMPLETED"));
  mret (JObj
    [("scope", JStr "SYNTHETIC_FIXTURE"); ("head", JStr head); ("state", model_dump_json_value new);
     ("approval", JStr (ap_fingerprint approval)); ("consumed", JStr (ap_consumption approval));
     ("halt_clearance", JBool false); ("external_delivery", JBool false)]%string).
(** [Authority.recover] *)
Definition recover (trusted : gmap string string) (raw_approval : option json) (expected_head : string) (observed : Witness)
    (run_id incident_id evidence : string) (now : option Z) (action : Witness -> res Witness) (crash : option string)
    : exec Vault json :=
  raw ← lift (of_option (ValueError "MISSING_APPROVAL") raw_approval);
  approval ← lift (validate_approval raw);
  owned vt_locked with_lock (
    v ← get;
    spent ← lift (authorize trusted approval expected_head observed run_id incident_id evidence now v);
    recovery approval spent expected_head observed evidence action crash).
End authority.

(** ** The alert ledger *)

Definition ALERT_POLICY : json :=
  JObj [("version", JStr "Phase1426CriticalAlerts.v1"); ("scope", JStr "SYNTHETIC_FIXTURE"); ("mandatory_timely_fraction", JStr "1");
        ("allowed_missed", JInt 0); ("max_incidents", JInt 64); ("max_alerts", JInt 256); ("matching", MONITORING_POLICY);
        ("binding", JStr "incident_id+incident_evidence+accepted_event+run+session+category");
        ("paper_halt", JStr "STICKY_ON_CRITICAL_INCIDENT"); ("external_delivery", JBool false)]%string.

Record AcceptedEvent := mkAcceptedEvent {
  ae_incident_id : string; ae_run_id : string; ae_session_date : Z; ae_category : string; ae_occurred_at : Z; ae_accepted_at : Z;
  ae_evidence : string; ae_fingerprint : string
}.
#[export] Instance accepted_event_eq_dec : EqDecision AcceptedEvent.
Proof. solve_decision. Defined.

(** No truth among the arguments: the alert is made of the accepted event only. *)
Definition emitted (event : AcceptedEvent) : res json :=
  row ← alert (ae_run_id event) (date_text (ae_session_date event)) (iso (ae_accepted_at event)) (ae_category event)
          (ae_evidence event) "CRITICAL";
  fields ← fields_of row;
  let row := without "alert_id" fields ++
    [("incident_id", JStr (ae_incident_id event)); ("incident_evidence", JStr (ae_evidence event));
     ("accepted_event_fingerprint", JStr (ae_fingerprint event)); ("emitter_version", JStr "Phase1426CriticalAlerts.v1")]%string in
  Ok (JObj (row ++ [("alert_id"%string, JStr (sha (canonical (JObj row))))])).

Record AlertLedger := mkAlertLedger { al_records : Folder; al_locked : bool }.
Definition with_alerts (f : Folder) (l : AlertLedger) : AlertLedger := mkAlertLedger f (al_locked l).
Definition with_alert_lock (b : bool) (l : AlertLedger) : AlertLedger := mkAlertLedger (al_records l) b.

Section alerts.
Context `{DumpJson AcceptedEvent} `{ReadJson AcceptedEvent}.

Definition accepted_event_valid (e : AcceptedEvent) : res AcceptedEvent :=
  require! bool_decide (ae_category e ∈ CATEGORIES) && (ae_occurred_at e <=? ae_accepted_at e) else "INVALID_ACCEPTED_INCIDENT";
  require! nse_date (ae_accepted_at e) =? ae_session_date e else "INCIDENT_SESSION";
  require! bool_decide (ae_fingerprint e = sha (canonical (unfingered (model_dump_json_value e)))) else "ACCEPTED_INCIDENT_HASH";
  Ok e.
Definition validate_event (v : json) : res AcceptedEvent := e ← model_validate v; accepted_event_valid e.

(** [AlertLedger.snapshot]: the rows, and the incidents that they record. *)
Definition is_true (v : json) : bool := match v with JBool b => b | _ => false end.
Definition snapshot_step (seen : list string) (row : json) : res (list string) :=
  event_json ← key "event" row;
  event ← validate_event event_json;
  reject! bool_decide (ae_incident_id event ∈ seen) as "DUPLICATE_INCIDENT_RECORD";
  shown ← key "alert" row;
  expected ← emitted event;
  require! same shown expected else "ALERT_RECORD_MISMATCH";
  halt ← key "paper_halt" row;
  require! is_true halt else "ALERT_RECORD_MISMATCH";
  Ok (seen ++ [ae_incident_id event]).
Definition snapshot (records : Folder) (expected_head : string) : res (list json) :=
  '(rows, _) ← chain records (Some expected_head);
  require! length_of rows <=? 64 else "INCIDENT_BUDGET";
  _ ← foldR snapshot_step [] rows;
  Ok rows.

Definition alert_record (event : AcceptedEvent) (shown : json) : json :=
  JObj [("event", model_dump_json_value event); ("alert", shown); ("paper_halt", JBool true)]%string.
Definition records_incident (event : AcceptedEvent) (row : json) : res bool :=
  e ← key "event" row; id ← key "incident_id" e; Ok (same id (JStr (ae_incident_id event))).
Definition alert_crash (point : string) (crash : option string) : exec AlertLedger unit :=
  lift (if bool_decide (crash = Some point) then Err (InterruptedError point) else Ok tt).
(** [AlertLedger.accept] *)
Definition accept (event : AcceptedEvent) (expected_head : string) (crash : option string) : exec AlertLedger string :=
  owned al_locked with_alert_lock (
    l ← get;
    rows ← lift (snapshot (al_records l) expected_head);
    known ← lift (filterR (records_incident event) rows);
    match known with
    | row :: _ => _ ← lift (expect "INCIDENT_CONFLICT" "event" row (model_dump_json_value event)); mret expected_head
    | [] =>
        _ ← lift (raise_unless (length_of rows <? 64) "INCIDENT_BUDGET");
        _ ← alert_crash "before_record" crash;
        shown ← lift (emitted event);
        head ← focus al_records with_alerts (append (alert_record event shown));
        _ ← alert_crash "after_record" crash;
        mret head
    end).

(** ** Assurance *)

Context `{DumpJson Truth} `{ReadJson Truth} `{DumpJson Incident}.

Record Assured := mkAssured {
  as_obligations : list json; as_matches : list json; as_missed : list json; as_duplicates : list json; as_late : list json
}.
Definition accept_candidate (accepted : list (string * AcceptedEvent)) (candidate : AcceptedEvent) : res (list (string * AcceptedEvent)) :=
  require! match find accepted (ae_incident_id candidate) with Some e => bool_decide (e = candidate) | None => true end
    else "INCIDENT_CONFLICT";
  Ok (store accepted (ae_incident_id candidate) candidate).
Definition obligation (i : Incident) (run_id session_date evidence truth_hash : string) : json :=
  JObj (seal
    [("version", JStr "Phase1426Obligation.v1"); ("incident_id", JStr (ic_id i)); ("run_id", JStr run_id);
     ("session_date", JStr session_date); ("incident_evidence", JStr evidence); ("expected_alert", JStr (ic_expected_alert i));
     ("deadline", JStr (iso (ic_deadline i))); ("severity", JStr "CRITICAL"); ("truth_fingerprint", JStr truth_hash);
     ("paper_halt_required", JBool true)]%string).
(** The event of an incident, bound to it. *)
Definition bound_event (i : Incident) (run_id evidence : string) (e : AcceptedEvent) : bool :=
  bool_decide (ae_evidence e = evidence) && bool_decide (ae_run_id e = run_id) && (ae_session_date e =? ic_session_date i) &&
  bool_decide (ae_category e = ic_category i) && (ae_occurred_at e =? ic_start i).
Definition satisfies (i : Incident) (evidence : string) (event : option AcceptedEvent) (a : json) : res bool :=
  match event with
  | None => Ok false
  | Some e =>
      fields ← fields_of a;
      let holds k s := same (default JNull (find fields k)) (JStr s) in
      Ok (holds "incident_id"%string (ic_id i) && holds "incident_evidence"%string evidence &&
          holds "accepted_event_fingerprint"%string (ae_fingerprint e))
  end.
(** The truth reduced to one incident. *)
Definition projection (t : Truth) (i : Incident) : res json :=
  fields ← fields_of (unfingered (model_dump_json_value t));
  let body := store fields "incidents"%string (JArr [model_dump_json_value i]) in
  Ok (JObj (store body "fingerprint"%string (JStr (sha (canonical (JObj body)))))).
Definition assure_step (t : Truth) (expected_truth run_id session_date : string) (accepted : list (string * AcceptedEvent))
    (alerts : list json) (s : Assured) (i : Incident) : res Assured :=
  require! bool_decide (ic_run_id i = run_id) && bool_decide (date_text (ic_session_date i) = session_date) else "ASSURANCE_IDENTITY";
  if negb (bool_decide (ic_severity i = "CRITICAL"%string)) then Ok s
  else
    let evidence := sha (canonical (model_dump_json_value i)) in
    let event := find accepted (ic_id i) in
    require! match event with Some e => bound_event i run_id evidence e | None => true end else "ACCEPTED_EVENT_BINDING";
    eligible ← filterR (satisfies i evidence event) alerts;
    projected ← projection t i;
    measured ← Monitoring.monitoring (Some projected) eligible (sha (canonical (JArr eligible))) [] [];
    matches ← list_at "matches" measured;
    missed ← list_at "missed_critical" measured;
    duplicates ← list_at "duplicate_alerts" measured;
    late ← list_at "late_alerts" measured;
    Ok (mkAssured (as_obligations s ++ [obligation i run_id session_date evidence expected_truth]) (as_matches s ++ matches)
          (as_missed s ++ missed) (as_duplicates s ++ duplicates) (as_late s ++ late)).
(** Everything that is checked, up to the result. *)
Definition check_assurance (independent_truth : json) (expected_truth : string) (events : list AcceptedEvent) (alerts : list json)
    (expected_alert_hash run_id session_date monitoring_policy : string) : res Assured :=
  require! (length_of events <=? 64) && (length_of alerts <=? 256) else "ASSURANCE_BUDGET";
  t ← validate_truth independent_truth;
  require! bool_decide (th_fingerprint t = expected_truth) else "TRUSTED_TRUTH_MISMATCH";
  require! bool_decide (monitoring_policy = th_policy_hash t) else "MONITORING_POLICY_MISMATCH";
  require! (0 <? length_of (th_incidents t)) && (length_of (th_incidents t) <=? 64) else "INCIDENT_BUDGET";
  _ ← Monitoring.monitoring None alerts expected_alert_hash [] [];
  accepted ← foldR accept_candidate [] events;
  s ← foldR (assure_step t expected_truth run_id session_date accepted alerts) (mkAssured [] [] [] [] []) (th_incidents t);
  require! negb (is_nil (as_obligations s)) else "NO_MANDATORY_INCIDENTS";
  ids ← mapR (key "alert_id") (as_matches s);
  require! distinct ids else "DUPLICATE_SATISFACTION";
  Ok s.
(** [sorted(set(l))] of texts *)
Definition sorted_set (l : list json) : res json :=
  texts ← mapR as_text l; Ok (sorted_texts_json (remove_dups texts)).
Definition fraction_text (a b : Z) : json := JStr (int_text a +:+ "/" +:+ int_text b)%string.
Definition assure (independent_truth : json) (expected_truth : string) (events : list AcceptedEvent) (alerts : list json)
    (expected_alert_hash run_id session_date monitoring_policy : string) (paper_halt : bool) : res json :=
  s ← check_assurance independent_truth expected_truth events alerts expected_alert_hash run_id session_date monitoring_policy;
  late ← sorted_set (as_late s);
  duplicates ← sorted_set (as_duplicates s);
  let obligations := length_of (as_obligations s) in
  let matched := length_of (as_matches s) in
  let missed := length_of (as_missed s) in
  Ok (JObj
    [("scope", JStr "SYNTHETIC_FIXTURE"); ("policy_fingerprint", JStr (sha (canonical ALERT_POLICY)));
     ("truth_fingerprint", JStr expected_truth); ("alert_fingerprint", JStr expected_alert_hash);
     ("obligations", JArr (as_obligations s)); ("matches", JArr (as_matches s)); ("missing_obligations", JArr (as_missed s));
     ("frozen_incident_count", JInt obligations); ("timely_monitored_alerts", JInt matched); ("missed_critical_alerts", JInt missed);
     ("false_positives", JInt (length_of alerts - matched)); ("late_alerts", late); ("duplicate_alerts", duplicates);
     ("alert_obligation_coverage", fraction_text matched obligations); ("assurance_check_coverage", fraction_text obligations obligations);
     ("evaluator_missing_alert_detection_count", JInt missed);
     ("critical_coverage_status", JStr (if (missed =? 0)%Z then "COMPLETE" else "INCOMPLETE"));
     ("certification_eligible", JBool (missed =? 0)%Z); ("paper_halt_required", JBool (paper_halt || negb (is_nil (as_obligations s))));
     ("new_entries_allowed", JBool false); ("halt_clearance", JBool false); ("external_delivery", JBool false);
     ("operational", JStr "NO_GO"); ("genuine_qualified", JInt 0)]%string).
End alerts.
