(* ===== verification/AuthorityFacts.v ===== *)
(** * Facts on the recovery authority

    The chain of records as a journal: appending a record extends what reading gives;
    the stages of a recovery, in the order in which they become durable. *)
From S2P Require Import Prelude Decimal DecimalFacts MoneyFacts Text Dataset Costs Phase14 Strategies Execution Json JsonFacts JsonRead CanonicalPolicy Research Exec Qualification Chain PyText Paper.
From S2P Require Import Portfolio PortfolioRun Scheduler Multi MultiFacts MultiRecovery Analytics AnalyticsFacts Attribution Quality QualityFacts Monitoring MonitoringFacts Authority.
From Stdlib Require Import Ascii.
Open Scope list_scope.
Open Scope Z_scope.

(** ** Keys written once *)

Lemma unique_key k v x : unique v = true -> key k v = Ok x -> unique x = true.
Proof.
  destruct v as [| | | | |l]; try done. rewrite unique_obj. intros [_ Hl] E. apply of_option_Ok, find_elem in E.
  rewrite Forall_forall in Hl. by apply (Hl (k, x)).
Qed.
Lemma unique_list k v l : unique v = true -> list_at k v = Ok l -> Forall (fun x => unique x = true) l.
Proof.
  intros Hv E. unfold list_at in E. unbind E x Ex. apply (unique_key _ _ _ Hv) in Ex. destruct x; try discriminate E. apply Ok_inj in E.
  subst. by apply unique_arr.
Qed.
Lemma list_at_norm k v l : list_at k v = Ok l -> list_at k (norm v) = Ok (norm <$> l).
Proof.
  unfold list_at. intros E. unbind E x Ex. rewrite key_norm, Ex. cbn. destruct x; try discriminate E. by apply Ok_inj in E as ->.
Qed.

(** ** Reading a file that holds a canonical text *)

Lemma read_canonical (d : Folder) name v limit : files_of d !! name = Some (canonical v) -> Z.of_nat (length (canonical v)) <= limit ->
  unique v = true -> read_json d name limit = Ok (canonical v, norm v).
Proof.
  intros Hf Hl Hu. unfold read_json. rewrite Hf. cbn [of_option mbind res_bind]. rewrite (proj2 (Z.leb_le _ _) Hl).
  cbn [raise_unless mbind res_bind]. rewrite loads_canonical. cbn [mbind res_bind]. by rewrite (unique_norm _ Hu).
Qed.
Lemma read_json_unique d name limit raw v : read_json d name limit = Ok (raw, v) -> unique v = true.
Proof. unfold read_json. intros E. unbind E raw_ E1. unbind E u2 E2. unbind E v_ E3. unbind E u4 E4. apply Ok_inj in E. apply raise_unless_Ok in E4. by injection E as <- <-. Qed.
Lemma read_json_same d d' name limit : files_of d' !! name = files_of d !! name -> read_json d' name limit = read_json d name limit.
Proof. unfold read_json. by intros ->. Qed.

(** A part of a value has a shorter text. *)
Lemma commas_part (l : list bytes) x : x ∈ l -> (length x <= length (commas l))%nat.
Proof.
  destruct l as [|y l]; [by intros ?%elem_of_nil|]. cbn. rewrite length_app. intros [->|Hx]%elem_of_cons; [lia|].
  induction l as [|z l IH]; [by apply elem_of_nil in Hx|]. cbn. rewrite length_app. apply elem_of_cons in Hx as [->|Hx]; [lia|].
  specialize (IH Hx). lia.
Qed.
Lemma canonical_part l v : v ∈ l -> (length (canonical v) <= length (canonical (JArr l)))%nat.
Proof.
  intros Hv. cbn [canonical length]. rewrite length_app. assert (H : canonical v ∈ List.map canonical l) by (apply list_elem_of_fmap; eauto).
  apply commas_part in H. lia.
Qed.
Lemma canonical_field l k v : (k, v) ∈ l -> (length (canonical v) <= length (canonical (JObj l)))%nat.
Proof.
  intros Hv. cbn [canonical length]. rewrite length_app.
  assert (H : field (k, canonical v) ∈ field <$> sort_fields (List.map (fun f => (f.1, canonical f.2)) l)).
  { apply list_elem_of_fmap. exists (k, canonical v). split; [done|]. rewrite sort_fields_perm. apply list_elem_of_fmap. by exists (k, v). }
  apply commas_part in H. unfold field in H at 1. rewrite length_app in H. cbn in H. lia.
Qed.

(** ** Names *)

Lemma text_app s t : text (s +:+ t) = text s ++ text t.
Proof. induction s as [|c s IH]; [done|]. exact (f_equal (cons c) IH). Qed.
Lemma extension_inj s t u : (s +:+ u = t +:+ u)%string -> s = t.
Proof. intros E. apply (f_equal text) in E. rewrite !text_app in E. by apply app_inv_tail, text_inj in E. Qed.
Lemma record_name_inj i j : record_name i = record_name j -> i = j.
Proof.
  unfold record_name. intros E. apply extension_inj, (f_equal text) in E. unfold text in E.
  rewrite !String.list_ascii_of_string_of_list_ascii in E. apply (f_equal parse_digits) in E. rewrite !parse_digits_app in E.
  fold (text (nat_text (Z.of_nat i))) (text (nat_text (Z.of_nat j))) in E.
  rewrite !(proj2 (zeros_digits _)) in E. change (text (nat_text (Z.of_nat i))) with (chars (nat_text (Z.of_nat i))) in E.
  change (text (nat_text (Z.of_nat j))) with (chars (nat_text (Z.of_nat j))) in E.
  rewrite !(prints_value _ _ (nat_text_prints _ (Nat2Z.is_nonneg _))) in E. lia.
Qed.
Lemma names_distinct n : NoDup (record_name <$> seq 0 n).
Proof. apply NoDup_fmap_2; [intros i j; apply record_name_inj|apply NoDup_seq]. Qed.

(** ** Reading the chain *)

Lemma chain_step_same d d' s i : files_of d' !! record_name i = files_of d !! record_name i -> chain_step d' s i = chain_step d s i.
Proof. unfold chain_step. intros E. by rewrite (read_json_same _ _ _ _ E). Qed.
Lemma foldR_ext {S A} (f g : S -> A -> res S) l s : (forall s x, x ∈ l -> f s x = g s x) -> foldR f s l = foldR g s l.
Proof. revert s. induction l as [|x l IH]; intros s Hf; cbn; [done|]. rewrite Hf by (by left). destruct (g s x); cbn; [|done]. apply IH. set_solver. Qed.

Lemma record_norm n head payload : norm (record n head payload) =
  JObj [("fingerprint", JStr (sha (canonical (JObj [("sequence", JInt (Z.of_nat n)); ("previous", JStr head); ("payload", payload)]))));
        ("payload", norm payload); ("previous", JStr head); ("sequence", JInt (Z.of_nat n))]%string.
Proof. reflexivity. Qed.
Lemma record_unique n head payload : unique payload = true -> unique (record n head payload) = true.
Proof.
  intros Hp. assert (H : unique (norm (record n head payload)) = true -> unique (record n head payload) = true).
  { unfold record, seal. cbn [without]. intros _. apply unique_obj. split.
    - apply (bool_decide_eq_true_1 (NoDup _)). vm_compute. reflexivity.
    - repeat (constructor; [cbn [snd]; first [exact Hp|reflexivity]|]). constructor. }
  apply H. rewrite record_norm. apply unique_obj. split.
  - apply (bool_decide_eq_true_1 (NoDup _)). vm_compute. reflexivity.
  - repeat (constructor; [cbn [snd]; first [by apply unique_norm|reflexivity]|]). constructor.
Qed.
Lemma chain_step_record d rows head i payload : files_of d !! record_name i = Some (canonical (record i head payload)) ->
  Z.of_nat (length (canonical (record i head payload))) <= RECORD_LIMIT -> unique payload = true ->
  chain_step d (rows, head) i = Ok (rows ++ [norm payload], sha (canonical (record i head payload))).
Proof.
  intros Hf Hl Hu. unfold chain_step. rewrite (read_canonical _ _ _ _ Hf Hl (record_unique _ _ _ Hu)). cbn [mbind res_bind].
  assert (Hsame : same (norm (record i head payload)) (JObj (seal (match norm (record i head payload) with JObj l => l | _ => [] end))) = true).
  { rewrite record_norm. apply same_spec. cbn [norm]. unfold seal. cbn [without List.filter negb].
    assert (E : canonical (JObj [("sequence"%string, JInt (Z.of_nat i)); ("previous"%string, JStr head); ("payload"%string, payload)]) =
      canonical (JObj [("payload"%string, norm payload); ("previous"%string, JStr head); ("sequence"%string, JInt (Z.of_nat i))])).
    { apply canonical_inj. cbn [norm List.map fst snd]. by rewrite norm_norm. }
    rewrite E. reflexivity. }
  rewrite record_norm in Hsame |- *. cbn [fields_of mbind res_bind raise_unless fst snd]. cbn beta iota in Hsame.
  rewrite Hsame. assert (Hs : same (JStr head) (JStr head) = true) by apply same_refl.
  unfold key. repeat first [rewrite find_hit | rewrite find_miss by discriminate]. cbn [of_option mbind res_bind].
  rewrite Hs. cbn [is_number]. rewrite Z.eqb_refl. rewrite <- record_norm.
  rewrite (bool_decide_true (list_to_set _ = _)) by (rewrite !fmap_cons; cbn [fst fmap list_fmap]; set_solver).
  rewrite (bool_decide_true (canonical _ = canonical _)) by (symmetry; apply canonical_inj, norm_norm). reflexivity.
Qed.

(** What an accepted chain is: as many rows as files, named from zero without a gap, and
    no payload writes a key twice. *)
Lemma chain_step_inv d s i s' : chain_step d s i = Ok s' -> exists p, s'.1 = s.1 ++ [p] /\ unique p = true.
Proof.
  unfold chain_step. intros E. unbind E x Ex. destruct x as [raw row]. unbind E u1 E1. unbind E flds_ E2. unbind E sq_ E3. unbind E pv_ E4.
  unbind E u5 E5. unbind E u6 E6. unbind E p_ E7. apply Ok_inj in E. subst s'. exists p_. split; [done|].
  eapply unique_key; [|exact E7]. by eapply read_json_unique.
Qed.
Lemma chain_inv d expected rows head : chain d expected = Ok (rows, head) ->
  length rows = base.size (files_of d) /\ Z.of_nat (length rows) <= LIMIT /\ Forall (fun p => unique p = true) rows /\
  (forall name, is_Some (files_of d !! name) <-> exists i, (i < length rows)%nat /\ name = record_name i) /\
  foldR (chain_step d) ([], ZERO) (seq 0 (length rows)) = Ok (rows, head) /\
  match expected with Some h => h = head | None => True end.
Proof.
  unfold chain. intros E. unbind E u1 E1. unbind E u2 E2. unbind E s E3. unbind E u4 E4. apply Ok_inj in E. subst s. cbn [snd] in E4.
  apply raise_unless_Ok in E1, E2, E4. apply Z.leb_le in E1.
  assert (H : length rows = base.size (files_of d) /\ Forall (fun p => unique p = true) rows).
  { apply (foldR_prefix_inv (fun pre s => length s.1 = length pre /\ Forall (fun p => unique p = true) s.1) _ _ _ (rows, head)) in E3.
    - cbn in E3. by rewrite length_seq in E3.
    - intros pre x post s s' _ [Hl Hf] (p & -> & Hp)%chain_step_inv. rewrite !length_app, Hl. split; [done|]. apply Forall_app. split; [done|]. by constructor.
    - by split. }
  destruct H as [Hl Hu]. split; [exact Hl|]. split; [lia|]. split; [exact Hu|]. split; [|split; [by rewrite Hl|]].
  - rewrite forallb_forall in E2. set (names := record_name <$> seq 0 (base.size (files_of d))).
    assert (Hin : forall i, (i < base.size (files_of d))%nat -> is_Some (files_of d !! record_name i)).
    { intros i Hi. apply (bool_decide_eq_true_1 _), E2, in_seq. lia. }
    assert (Hsub : list_to_set names ⊆ dom (files_of d)).
    { intros x Hx. apply elem_of_list_to_set, list_elem_of_fmap in Hx as (i & -> & Hi). apply elem_of_dom, Hin. apply elem_of_seq in Hi. lia. }
    assert (Heq : (list_to_set names : gset string) = dom (files_of d)).
    { apply set_subseteq_size_eq; [exact Hsub|]. rewrite size_list_to_set by apply names_distinct. unfold names.
      by rewrite length_fmap, length_seq, size_dom. }
    intros name. rewrite <- elem_of_dom, <- Heq, elem_of_list_to_set. unfold names. rewrite list_elem_of_fmap, Hl. split.
    + intros (i & -> & Hi). exists i. apply elem_of_seq in Hi. split; [lia|done].
    + intros (i & Hi & ->). exists i. split; [done|]. apply elem_of_seq. lia.
  - destruct expected; [by apply bool_decide_eq_true in E4|done].
Qed.
Lemma chain_expected d expected rows head : chain d expected = Ok (rows, head) -> chain d None = Ok (rows, head).
Proof.
  unfold chain. intros E. unbind E u1 E1. unbind E u2 E2. unbind E s E3. unbind E u4 E4. apply Ok_inj in E. subst s.
  rewrite E1. cbn [mbind res_bind]. rewrite E2. cbn [mbind res_bind]. by rewrite E3.
Qed.
Lemma chain_head d rows head : chain d None = Ok (rows, head) -> chain d (Some head) = Ok (rows, head).
Proof.
  unfold chain. intros E. unbind E u1 E1. unbind E u2 E2. unbind E s E3. unbind E u4 E4. apply Ok_inj in E. subst s.
  rewrite E1. cbn [mbind res_bind]. rewrite E2. cbn [mbind res_bind]. rewrite E3. cbn [mbind res_bind snd]. by rewrite bool_decide_true.
Qed.

(** ** Appending *)

(** What a successful [append] does: one more record, which the chain then holds. *)
Record appended (payload : json) (d d' : Folder) (rows : list json) (head head' : string) : Prop := {
  ap_chain : chain d None = Ok (rows, head);
  ap_files : d' = Some (<[record_name (length rows) := canonical (record (length rows) head payload)]> (files_of d));
  ap_result : head' = sha (canonical (record (length rows) head payload));
  ap_size : Z.of_nat (length (canonical (record (length rows) head payload))) <= RECORD_LIMIT;
  ap_extends : unique payload = true -> chain d' None = Ok (rows ++ [norm payload], head')
}.
Lemma append_chain payload d d' head' rows head : chain d None = Ok (rows, head) -> Z.of_nat (length rows) < LIMIT ->
  let raw := canonical (record (length rows) head payload) in
  Z.of_nat (length raw) <= RECORD_LIMIT -> d' = Some (<[record_name (length rows) := raw]> (files_of d)) -> head' = sha raw ->
  unique payload = true -> chain d' None = Ok (rows ++ [norm payload], head').
Proof.
  intros Hc Hlt raw Hraw -> -> Hu. destruct (chain_inv _ _ _ _ Hc) as (Hl & _ & _ & Hn & Hf & _).
  assert (Hfree : files_of d !! record_name (length rows) = None).
  { apply eq_None_not_Some. intros Hs. apply Hn in Hs as (i & Hi & E%record_name_inj). lia. }
  unfold chain. change (files_of (Some (<[record_name (length rows) := raw]> (files_of d)))) with (<[record_name (length rows) := raw]> (files_of d)).
  rewrite map_size_insert_None, <- Hl by exact Hfree.
  rewrite (proj2 (Z.leb_le _ _)) by (unfold LIMIT in *; lia). cbn [raise_unless mbind res_bind].
  assert (forallb (fun i => bool_decide (is_Some (<[record_name (length rows) := raw]> (files_of d) !! record_name i))) (seq 0 (S (length rows))) = true) as ->.
  { apply forallb_forall. intros i Hi%in_seq. apply bool_decide_true. destruct (decide (i = length rows)) as [->|Hne]; [rewrite lookup_insert_eq; eauto|].
    rewrite lookup_insert_ne by (intros E%record_name_inj; lia). apply Hn. exists i. split; [lia|done]. }
  cbn [raise_unless mbind res_bind]. rewrite seq_S, foldR_app. cbn [Nat.add].
  rewrite (foldR_ext _ (chain_step d) (seq 0 (length rows))), Hf.
  2: { intros s i Hi%elem_of_seq. apply chain_step_same. cbn. apply lookup_insert_ne. intros E%record_name_inj. lia. }
  cbn [mbind res_bind foldR]. rewrite (chain_step_record _ rows head (length rows) payload); [done|apply lookup_insert_eq|exact Hraw|exact Hu].
Qed.
Lemma append_inv payload d d' head' : append payload d = (d', Ok head') -> exists rows head, appended payload d d' rows head head'.
Proof.
  unfold append. intros E. run_step E. apply run_bind in E as ([rows head] & s1 & E1 & E). apply run_lift in E1 as [-> Hc].
  run_step E. apply run_bind in E as (u1 & s1 & E1 & E). apply run_lift in E1 as [-> E1]. apply raise_unless_Ok in E1.
  apply run_bind in E as (u2 & s2 & E2 & E). apply run_ret in E as [-> ->]. destruct (chain_inv _ _ _ _ Hc) as (Hl & _ & _ & Hn & _ & _).
  assert (Hfree : files_of d !! record_name (length rows) = None).
  { apply eq_None_not_Some. intros Hs. apply Hn in Hs as (i & Hi & Ei%record_name_inj). lia. }
  unfold publish in E2. run_step E2. rewrite Hfree in E2. run_step E2. run_atom E2. exists rows, head.
  apply Z.leb_le in E1. assert (Hlt : Z.of_nat (length rows) < LIMIT) by (unfold length_of in *; bool_inv; lia).
  split; try done. intros Hu. eapply append_chain; [exact Hc|exact Hlt|exact E1|reflexivity|reflexivity|exact Hu].
Qed.
Lemma publish_error name raw d d' e : publish name raw d = (d', Err e) -> d' = d.
Proof.
  cbv [publish mbind exec_bind get lift raises_if modify]. intros E. destruct (files_of d !! name).
  - destruct (raise_if _ _); by injection E as <-.
  - destruct (bool_decide _); by injection E as <-.
Qed.
Lemma append_error payload d d' e : append payload d = (d', Err e) -> d' = d.
Proof.
  unfold append. cbv [mbind exec_bind get lift]. intros E. destruct (chain d None) as [[rows head]|]; [|by injection E as <-].
  destruct (raise_unless (length_of rows <? LIMIT) _); [|by injection E as <-].
  destruct (raise_unless (_ <=? RECORD_LIMIT) _); [|by injection E as <-].
  destruct (publish _ _ d) as [d1 [[]|e1]] eqn:Ep; [discriminate E|]. injection E as <- <-. by eapply publish_error.
Qed.

(** ** What the library promises on witnesses

    The dump of a witness is a dictionary, which writes each key once; reading does not
    depend on the order of the fields, and reading the dump of a witness gives it back. *)
Class WitnessModel `{dumper : DumpJson Witness} `{reader : ReadJson Witness} := {
  witness_unique w : unique (model_dump_json_value (A := Witness) w) = true;
  witness_norm v : model_validate (A := Witness) (norm v) = model_validate v;
  witness_round w : witness_fields w = true -> model_validate (model_dump_json_value w) = Ok w
}.

(** ** Running a computation that may fail *)

Lemma bind_cases {S A B} (m : exec S A) (f : A -> exec S B) s s' r : (m ≫= f) s = (s', r) ->
  (exists a s1, m s = (s1, Ok a) /\ f a s1 = (s', r)) \/ (exists e, m s = (s', Err e) /\ r = Err e).
Proof. unfold mbind, exec_bind. destruct (m s) as [s1 [a|e]]; [eauto|]. intros [= <- <-]. eauto. Qed.
Lemma lift_cases {S A} (x : res A) (s s' : S) r : lift x s = (s', r) -> s' = s /\ r = x.
Proof. by intros [= <- <-]. Qed.
Lemma focus_cases {S T A} (get_ : S -> T) (set_ : T -> S -> S) (m : exec T A) s s' r : focus get_ set_ m s = (s', r) ->
  exists t, m (get_ s) = (t, r) /\ s' = set_ t s.
Proof. unfold focus. destruct (m (get_ s)) as [t r']. intros [= <- <-]. eauto. Qed.
Lemma owned_cases {S A} (locked : S -> bool) lock (m : exec S A) s s' r : owned locked lock m s = (s', r) ->
  (locked s = true /\ s' = s /\ exists e, r = Err e) \/ (locked s = false /\ exists s1, m (lock true s) = (s1, r) /\ s' = lock false s1).
Proof.
  unfold owned. destruct (locked s); [intros [= <- <-]; left; eauto|]. destruct (m (lock true s)) as [s1 r1]. intros [= <- <-]. right. eauto.
Qed.

Lemma existsR_false {A} (f : A -> res bool) l x : existsR f l = Ok false -> x ∈ l -> f x = Ok false.
Proof.
  induction l as [|y l IH]; intros E Hx; [by apply elem_of_nil in Hx|]. cbn in E. unbind E b Eb. destruct b; [discriminate E|].
  apply elem_of_cons in Hx as [->|Hx]; [done|by apply IH].
Qed.

Section authority.
Context `{WitnessModel}.
Implicit Types (a : Approval) (v : Vault) (w : Witness) (spent : list json).

Lemma payload_unique w spent status : Forall (fun r => unique r = true) spent -> unique (payload w spent status) = true.
Proof.
  intros Hs. apply unique_obj. split; [apply (bool_decide_eq_true_1 (NoDup _)); vm_compute; reflexivity|].
  repeat (constructor; [cbn [snd]; first [apply witness_unique|by apply unique_arr|reflexivity]|]). constructor.
Qed.
Lemma consumption_unique a head evidence : unique (consumption a head evidence) = true.
Proof. apply unique_obj. split; [apply (bool_decide_eq_true_1 (NoDup _)); vm_compute; reflexivity|]. repeat constructor. Qed.

(** ** What is checked before an approval is consumed *)

Lemma endswith_app suffix s : endswith suffix (s +:+ suffix) = true.
Proof. apply bool_decide_true. rewrite text_app. by exists (text s). Qed.
Lemma check_local_inv local spent : check_local local spent = Ok tt -> exists expected, mapR consumption_name spent = Ok expected /\
  (forall name, (is_Some (files_of local !! name) /\ endswith ".json" name = true) <-> name ∈ expected) /\
  (forall name, is_Some (files_of local !! name) -> endswith ".pending" name = false) /\
  Forall (fun r => check_consumption local r = Ok tt) spent.
Proof.
  unfold check_local. intros E. unbind E expected Ex. unbind E u1 E1. unbind E us Eu. apply raise_unless_Ok, andb_true in E1 as [E1 E2].
  apply bool_decide_eq_true in E1. apply negb_true in E2. exists expected. split; [exact Ex|]. split; [|split].
  - intros name. rewrite <- (elem_of_list_to_set (C := gset string) name expected), <- E1, elem_of_list_to_set, list_elem_of_In, filter_In,
      <- list_elem_of_In, elem_of_elements, elem_of_dom. done.
  - intros name Hn. apply not_true_iff_false. intros Hp. apply not_true_iff_false in E2. apply E2, existsb_exists. exists name.
    split; [|done]. by apply list_elem_of_In, elem_of_elements, elem_of_dom.
  - apply Forall_forall. intros r Hr. destruct (mapR_elem_l _ _ _ _ Eu Hr) as ([] & _ & Hy). exact Hy.
Qed.

(** The last row of an accepted authority. *)
Record authorized (trusted : gmap string string) a (head : string) (observed : Witness) v spent : Prop := {
  au_chain : exists pre row st w0 prior, chain (vt_records v) None = Ok (pre ++ [row], head) /\
    foldR current_step (None, []) pre = Ok prior /\ current_step prior row = Ok (Some w0, spent) /\
    key "state" row = Ok st /\ same st (model_dump_json_value observed) = true /\
    exists status, key "status" row = Ok status /\ same status (JStr "CONSUMED") = false;
  au_requests : exists l, mapR (key "request") spent = Ok l /\ distinct l = true;
  au_identities : exists l, mapR (key "identity") spent = Ok l /\ distinct l = true;
  au_local : check_local (vt_local v) spent = Ok tt;
  au_trusted : trusted !! ap_request a = Some (ap_fingerprint a);
  au_run : wi_run_id observed = ap_run_id a;
  au_fresh : forall r, r ∈ spent -> same_approval a r = Ok false
}.
Lemma authorize_inv trusted a head observed run_id incident_id evidence now v spent :
  authorize trusted a head observed run_id incident_id evidence now v = Ok spent ->
  authorized trusted a head observed v spent /\ ap_evidence a = evidence /\ ap_head a = head /\
  exists t, now = Some t /\ ap_issued a <= t < ap_expiry a.
Proof.
  unfold authorize, verify, current. intros E. unbind E row_ Er. unbind E st_ E1. unbind E u2 E2. unbind E u3 E3. unbind E u4 E4.
  unbind E u5 E5. unbind E u6 E6. unbind E u7 E7. unbind E sp_ E8. unbind E us_ E9. unbind E u10 E10. apply Ok_inj in E. subst sp_.
  apply raise_if_Ok in E2, E10. subst us_. apply raise_unless_Ok in E3, E4, E5, E6, E7. bool_inv.
  unbind Er cur_ F1. unbind Er u11 F2. apply Ok_inj in Er. subst cur_. unbind F1 x Fx. destruct x as [rows head'].
  unbind F1 last_ F3. unbind F1 s F4. unbind F1 rq_ F5. unbind F1 u12 F6. unbind F1 id_ F7. unbind F1 u13 F8. unbind F1 u14 F9.
  apply Ok_inj in F1. subst last_. apply of_option_Ok, last_Some in F3 as [pre ->]. apply raise_unless_Ok in F6, F8.
  pose proof (chain_inv _ _ _ _ Fx) as (_ & _ & _ & _ & _ & Hh). subst head'.
  rewrite foldR_app in F4. unbind F4 prior F4'. cbn [foldR] in F4. unbind F4 s' F10. apply Ok_inj in F4. subst s'.
  unfold expect in F2. unbind F2 st F11. apply raise_unless_Ok in F2.
  assert (Hs : exists w0, s = (Some w0, spent)).
  { unfold current_step in F10. unbind F10 sj_ G1. unbind F10 w0 G2. unbind F10 u15 G3. unbind F10 sp_ G4. apply Ok_inj in F10.
    exists w0. rewrite E8 in G4. apply Ok_inj in G4. by subst. }
  destruct Hs as [w0 ->]. cbn [snd] in *. destruct u14. split; [|split; [congruence|split; [congruence|destruct now as [t|]; [|done]; bool_inv; exists t; split; [done|lia]]]].
  split; try done; [|by exists rq_|by exists id_|congruence|intros r Hr; by eapply existsR_false].
  exists pre, row_, st, w0, prior. split; [by eapply chain_expected|]. split_and!; try done. by exists st_.
Qed.
Lemma approval_fresh a r : same_approval a r = Ok false ->
  (exists q, key "request" r = Ok q /\ same q (JStr (ap_request a)) = false) /\
  (exists i, key "identity" r = Ok i /\ same i (JStr (ap_consumption a)) = false).
Proof.
  unfold same_approval. intros E. unbind E q Eq_. destruct (same q _) eqn:Hq; [discriminate E|]. unbind E i Ei.
  destruct (same i _) eqn:Hi; [discriminate E|]. split; [by exists q|by exists i].
Qed.
Definition local_name a : string := (ap_consumption a +:+ ".json")%string.
Lemma name_free a spent expected : mapR consumption_name spent = Ok expected -> (forall r, r ∈ spent -> same_approval a r = Ok false) ->
  local_name a ∉ expected.
Proof.
  intros Ex Hf Hin. destruct (mapR_elem _ _ _ _ Ex Hin) as (r & Hr & Hn). unfold consumption_name in Hn. unbind Hn k Hk.
  apply Ok_inj in Hn. apply extension_inj in Hn. subst k. unfold text_at in Hk. unbind Hk i Hi. destruct i; try discriminate Hk. apply Ok_inj in Hk.
  destruct (approval_fresh _ _ (Hf r Hr)) as [_ (i & Hi' & Hs)]. rewrite Hi in Hi'. apply Ok_inj in Hi'. subst. by rewrite same_refl in Hs.
Qed.
Lemma local_free a local spent : check_local local spent = Ok tt -> (forall r, r ∈ spent -> same_approval a r = Ok false) ->
  files_of local !! local_name a = None /\ files_of local !! (local_name a +:+ ".pending")%string = None.
Proof.
  intros (expected & Ex & Hnames & Hp & _)%check_local_inv Hf. split; apply eq_None_not_Some; intros Hs.
  - eapply name_free; [exact Ex|exact Hf|]. apply Hnames. split; [done|apply endswith_app].
  - apply Hp in Hs. by rewrite endswith_app in Hs.
Qed.

(** ** The stages of a recovery *)

Definition local_consumed a head evidence v : Vault :=
  with_local (Some (<[local_name a := canonical (consumption a head evidence)]> (files_of (vt_local v)))) v.
Definition consumed_payload a head observed evidence spent : json :=
  payload (consumed_state a observed) (spent ++ [consumption a head evidence]) "CONSUMED".
Definition completed_payload a head evidence spent new : json := payload new (spent ++ [consumption a head evidence]) "COMPLETED".

Inductive recovered a head observed evidence (action : Witness -> res Witness) spent v : Vault -> res json -> Prop :=
| recovered_not e : recovered a head observed evidence action spent v v (Err e)
| recovered_local e : recovered a head observed evidence action spent v (local_consumed a head evidence v) (Err e)
| recovered_consumed rows head0 d head1 e :
    appended (consumed_payload a head observed evidence spent) (vt_records v) d rows head0 head1 ->
    recovered a head observed evidence action spent v (with_records d (local_consumed a head evidence v)) (Err e)
| recovered_called rows head0 d head1 e :
    appended (consumed_payload a head observed evidence spent) (vt_records v) d rows head0 head1 ->
    recovered a head observed evidence action spent v
      (called (ap_consumption a) (with_records d (local_consumed a head evidence v))) (Err e)
| recovered_done rows head0 d head1 new rows' head2 d' head3 r :
    appended (consumed_payload a head observed evidence spent) (vt_records v) d rows head0 head1 ->
    action (consumed_state a observed) = Ok new -> progress (consumed_state a observed) new = Ok tt ->
    wi_epoch new = wi_epoch observed + 1 -> wi_action new = ap_action a ->
    appended (completed_payload a head evidence spent new) d d' rows' head2 head3 ->
    key "head" r = Ok (JStr head3) -> key "state" r = Ok (model_dump_json_value new) ->
    recovered a head observed evidence action spent v
      (with_records d' (called (ap_consumption a) (with_records d (local_consumed a head evidence v)))) (Ok r).

Lemma crash_cases point crash v v' r : crash_at point crash v = (v', r) -> v' = v /\ (r = Ok tt \/ exists e, r = Err e).
Proof. unfold crash_at. intros [-> ->]%lift_cases. split; [done|]. destruct (bool_decide _); eauto. Qed.
Lemma with_local_same v : with_local (vt_local v) v = v.
Proof. by destruct v. Qed.
Lemma with_records_same v : with_records (vt_records v) v = v.
Proof. by destruct v. Qed.
Lemma recovery_stages a spent head observed evidence action crash v v' r :
  check_local (vt_local v) spent = Ok tt -> (forall x, x ∈ spent -> same_approval a x = Ok false) ->
  recovery a spent head observed evidence action crash v = (v', r) -> recovered a head observed evidence action spent v v' r.
Proof.
  intros Hl Hf E. destruct (local_free a _ _ Hl Hf) as [Hn Hp]. unfold recovery in E.
  apply bind_cases in E as [(x1 & s1 & [-> _]%crash_cases & E)|(e & [-> _]%crash_cases & ->)]; [|constructor].
  apply bind_cases in E as [(x2 & s2 & E2 & E)|(e & E2 & ->)].
  2: { apply focus_cases in E2 as (t & Et%publish_error & ->). subst t. rewrite with_local_same. constructor. }
  assert (s2 = local_consumed a head evidence v) as ->.
  { apply focus_cases in E2 as (t & Et & ->). unfold local_consumed, local_name in *. f_equal. unfold publish in Et. run_step Et.
    rewrite Hn in Et. run_step Et. by run_atom Et. }
  clear E2. apply bind_cases in E as [(x3 & s3 & [-> _]%crash_cases & E)|(e & [-> _]%crash_cases & ->)]; [|constructor].
  apply bind_cases in E as [(head1 & s4 & E4 & E)|(e & E4 & ->)].
  2: { apply focus_cases in E4 as (t & Et%append_error & ->). subst t. rewrite with_records_same. constructor. }
  apply focus_cases in E4 as (d & Ed & ->). apply append_inv in Ed as (rows & head0 & Hc).
  apply bind_cases in E as [(x5 & s5 & [-> _]%crash_cases & E)|(e & [-> _]%crash_cases & ->)]; [|by econstructor].
  apply bind_cases in E as [(x6 & s6 & E6 & E)|(e & E6 & ->)]; [|discriminate E6]. apply run_modify in E6. subst s6.
  apply bind_cases in E as [(new & s7 & [-> E7]%lift_cases & E)|(e & [-> _]%lift_cases & ->)]; [|by eapply recovered_called].
  apply bind_cases in E as [([] & s8 & [-> E8]%lift_cases & E)|(e & [-> _]%lift_cases & ->)]; [|by eapply recovered_called].
  apply bind_cases in E as [([] & s9 & [-> E9]%lift_cases & E)|(e & [-> _]%lift_cases & ->)]; [|by eapply recovered_called].
  apply bind_cases in E as [(x10 & s10 & [-> _]%crash_cases & E)|(e & [-> _]%crash_cases & ->)]; [|by eapply recovered_called].
  apply bind_cases in E as [(x11 & s11 & [-> _]%crash_cases & E)|(e & [-> _]%crash_cases & ->)]; [|by eapply recovered_called].
  apply bind_cases in E as [(head3 & s12 & E12 & E)|(e & E12 & ->)].
  2: { apply focus_cases in E12 as (t & Et%append_error & ->). subst t. rewrite with_records_same. by eapply recovered_called. }
  apply focus_cases in E12 as (d' & Ed & ->). apply append_inv in Ed as (rows' & head2 & Hc'). injection E as <- <-.
  symmetry in E9. apply raise_unless_Ok in E9. bool_inv.
  eapply recovered_done; [exact Hc|by symmetry|by symmetry|done|done|exact Hc'|reflexivity|reflexivity].
Qed.
End authority.
