(* ===== verification/AuthorityTheorems.v ===== *)
(** * One call per approval, no retry, no rollback

    The authority as a transition system: clients that initialize and recover, processes
    that die inside a recovery, stale locks that are removed, and a local directory that
    is changed at will.  The alert ledger and the assurance of the critical incidents. *)
From S2P Require Import Prelude Decimal DecimalFacts MoneyFacts Text Dataset Costs Phase14 Strategies Execution Json JsonFacts JsonRead CanonicalPolicy Research Exec Qualification Chain PyText Paper.
From S2P Require Import Portfolio PortfolioRun Scheduler Multi MultiFacts MultiRecovery Analytics AnalyticsFacts Attribution Quality QualityFacts Monitoring MonitoringFacts Authority AuthorityFacts.
From S2P Require QualitySample.
From Stdlib Require Import Ascii.
Open Scope list_scope.
Open Scope Z_scope.

Section authority.
Context `{WitnessModel} `{DumpJson Approval} `{ReadJson Approval}.
Implicit Types (a : Approval) (v : Vault) (w : Witness) (spent : list json) (trusted : gmap string string).

(** ** The system *)

Inductive step trusted : Vault -> Vault -> Prop :=
| step_initialize state v v' r : initialize state v = (v', r) -> step trusted v v'
| step_recover raw head observed run_id incident_id evidence now action crash v v' r :
    recover trusted raw head observed run_id incident_id evidence now action crash v = (v', r) -> step trusted v v'
(* the process dies in a recovery: the lock file stays *)
| step_killed raw head observed run_id incident_id evidence now action crash v v' r :
    recover trusted raw head observed run_id incident_id evidence now action crash v = (v', r) -> step trusted v (with_lock true v')
| step_unlocked v : step trusted v (with_lock false v)
(* the local directory is rolled back, lost or forged *)
| step_local directory v : step trusted v (with_local directory v).
Inductive reachable trusted : Vault -> Prop :=
| reachable_empty : reachable trusted (mkVault None None false [])
| reachable_step v v' : reachable trusted v -> step trusted v v' -> reachable trusted v'.

(** ** Consumption precedes the call *)

(** A record of the list consumed the approval under an identity, and it was trusted. *)
Definition consumed_by trusted spent (identity : string) : Prop :=
  exists r request approval, r ∈ spent /\ key "identity" r = Ok (JStr identity) /\ key "request" r = Ok (JStr request) /\
    key "approval" r = Ok (JStr approval) /\ trusted !! request = Some approval.
Definition witnessed trusted v : Prop :=
  exists rows head row spent, chain (vt_records v) None = Ok (rows, head) /\ last rows = Some row /\ list_at "spent" row = Ok spent /\
    Forall (consumed_by trusted spent) (vt_calls v).
Definition sound trusted v : Prop := NoDup (vt_calls v) /\ (vt_calls v = [] \/ witnessed trusted v).

Lemma consumed_norm trusted spent extra k : consumed_by trusted spent k -> consumed_by trusted (norm <$> (spent ++ extra)) k.
Proof.
  intros (r & q & fp & Hr & Hi & Hq & Hf & Ht). exists (norm r), q, fp. split; [apply list_elem_of_fmap; exists r; set_solver|].
  rewrite !key_norm, Hi, Hq, Hf. done.
Qed.
Lemma spent_payload w spent status : list_at "spent" (norm (payload w spent status)) = Ok (norm <$> spent).
Proof. apply list_at_norm. unfold list_at, payload. cbn [mbind res_bind]. by rewrite (key_obj _ _ (JArr spent)) by reflexivity. Qed.
Lemma authorized_unique trusted a head observed v spent : authorized trusted a head observed v spent -> Forall (fun r => unique r = true) spent.
Proof.
  intros [(pre & row & st & w0 & prior & Hc & _ & Hs & _) _ _ _ _ _ _]. destruct (chain_inv _ _ _ _ Hc) as (_ & _ & Hu & _).
  apply Forall_app in Hu as [_ Hu]. apply Forall_cons in Hu as [Hu _]. unfold current_step in Hs. unbind Hs sj_ G1. unbind Hs w1 G2.
  unbind Hs u3 G3. unbind Hs sp_ G4. apply Ok_inj in Hs. assert (sp_ = spent) as -> by congruence. by eapply unique_list.
Qed.
Lemma authorized_last trusted a head observed v spent : authorized trusted a head observed v spent ->
  exists rows row, chain (vt_records v) None = Ok (rows, head) /\ last rows = Some row /\ list_at "spent" row = Ok spent.
Proof.
  intros [(pre & row & st & w0 & prior & Hc & _ & Hs & _) _ _ _ _ _ _]. exists (pre ++ [row]), row. split; [exact Hc|].
  split; [apply last_snoc|]. unfold current_step in Hs. unbind Hs sj_ G1. unbind Hs w1 G2.
  unbind Hs u3 G3. unbind Hs sp_ G4. apply Ok_inj in Hs. assert (sp_ = spent) as -> by congruence. exact G4.
Qed.
(** A payload with more consumptions, appended, keeps the calls witnessed. *)
Lemma witnessed_append trusted v d w spent extra status rows head head' :
  Forall (fun r => unique r = true) (spent ++ extra) -> appended (payload w (spent ++ extra) status) (vt_records v) d rows head head' ->
  Forall (consumed_by trusted spent) (vt_calls v) -> witnessed trusted (with_records d v).
Proof.
  intros Hu Ha Hc. exists (rows ++ [norm (payload w (spent ++ extra) status)]), head', (norm (payload w (spent ++ extra) status)), (norm <$> (spent ++ extra)).
  cbn [vt_records with_records vt_calls]. split; [by apply (ap_extends _ _ _ _ _ _ Ha), payload_unique|]. split; [apply last_snoc|].
  split; [apply spent_payload|]. eapply Forall_impl; [exact Hc|]. intros k. apply consumed_norm.
Qed.

Lemma recovered_sound trusted a head observed evidence action spent v v' r :
  authorized trusted a head observed v spent -> sound trusted v -> recovered a head observed evidence action spent v v' r -> sound trusted v'.
Proof.
  intros Hau [Hn Hw] Hr. pose proof (authorized_unique _ _ _ _ _ _ Hau) as Hus.
  destruct (authorized_last _ _ _ _ _ _ Hau) as (rows & row & Hc & Hlast & Hspent).
  assert (Hold : Forall (consumed_by trusted spent) (vt_calls v)).
  { destruct Hw as [->|(rows' & head' & row' & spent' & Hc' & Hlast' & Hspent' & Hk)]; [constructor|].
    assert (spent' = spent) as -> by congruence. exact Hk. }
  set (extra := [consumption a head evidence]). assert (Hue : Forall (fun r => unique r = true) (spent ++ extra)).
  { apply Forall_app. split; [exact Hus|]. constructor; [apply consumption_unique|constructor]. }
  assert (Hself : consumed_by trusted (norm <$> (spent ++ extra)) (ap_consumption a)).
  { exists (norm (consumption a head evidence)), (ap_request a), (ap_fingerprint a). split; [apply list_elem_of_fmap; exists (consumption a head evidence); set_solver|].
    rewrite !key_norm. split; [done|]. split; [done|]. split; [done|]. apply (au_trusted _ _ _ _ _ _ Hau). }
  assert (Hnew : NoDup (vt_calls v ++ [ap_consumption a])).
  { apply NoDup_app. split; [exact Hn|]. split; [|apply NoDup_singleton]. intros k Hk ->%list_elem_of_singleton.
    rewrite Forall_forall in Hold. destruct (Hold _ Hk) as (x & q & fp & Hx & Hi & _).
    destruct (approval_fresh _ _ (au_fresh _ _ _ _ _ _ Hau x Hx)) as [_ (i & Hi' & Hs)]. rewrite Hi in Hi'. apply Ok_inj in Hi'. subst i.
    by rewrite same_refl in Hs. }
  assert (Hmid : forall d rows0 head0 head1, appended (consumed_payload a head observed evidence spent) (vt_records v) d rows0 head0 head1 ->
    witnessed trusted (with_records d (local_consumed a head evidence v)) /\
    witnessed trusted (called (ap_consumption a) (with_records d (local_consumed a head evidence v)))).
  { intros d rows0 head0 head1 Ha. split; [by eapply (witnessed_append _ (local_consumed a head evidence v)) in Ha|].
    exists (rows0 ++ [norm (consumed_payload a head observed evidence spent)]), head1, (norm (consumed_payload a head observed evidence spent)), (norm <$> (spent ++ extra)).
    cbn [vt_records with_records vt_calls called]. split; [by apply (ap_extends _ _ _ _ _ _ Ha), payload_unique|]. split; [apply last_snoc|].
    split; [apply spent_payload|]. apply Forall_app. split; [|by constructor]. eapply Forall_impl; [exact Hold|]. intros k. apply consumed_norm. }
  destruct Hr as [e|e|rows0 head0 d head1 e Ha|rows0 head0 d head1 e Ha|rows0 head0 d head1 new rows' head2 d' head3 r Ha Hact Hp He Hb Ha' _ _];
    [by split|split; [exact Hn|destruct Hw; [by left|by right]]|..].
  - split; [exact Hn|]. right. by apply (Hmid _ _ _ _ Ha).
  - split; [exact Hnew|]. right. by apply (Hmid _ _ _ _ Ha).
  - split; [exact Hnew|]. right. pose proof (ap_extends _ _ _ _ _ _ Ha' (payload_unique _ _ _ Hue)) as Hc'.
    eexists _, _, _, _. cbn [vt_records with_records vt_calls called]. split; [exact Hc'|]. split; [apply last_snoc|]. split; [apply spent_payload|].
    apply Forall_app. split; [|by constructor]. eapply Forall_impl; [exact Hold|]. intros k. apply consumed_norm.
Qed.
Lemma recover_cases trusted raw head observed run_id incident_id evidence now action crash v v' r :
  recover trusted raw head observed run_id incident_id evidence now action crash v = (v', r) ->
  (v' = v /\ exists e, r = Err e) \/
  (vt_locked v = false /\ exists a spent s, authorize trusted a head observed run_id incident_id evidence now (with_lock true v) = Ok spent /\
     authorized trusted a head observed (with_lock true v) spent /\
     recovered a head observed evidence action spent (with_lock true v) s r /\ v' = with_lock false s).
Proof.
  intros E. unfold recover in E. apply bind_cases in E as [(raw' & s1 & [-> _]%lift_cases & E)|(e & [-> _]%lift_cases & ->)]; [|left; eauto].
  apply bind_cases in E as [(a & s1 & [-> _]%lift_cases & E)|(e & [-> _]%lift_cases & ->)]; [|left; eauto].
  apply owned_cases in E as [(_ & -> & He)|(Hl & s & E & ->)]; [by left|].
  apply bind_cases in E as [(v0 & s1 & E1 & E)|(e & E1 & _)]; [|discriminate E1]. injection E1 as <- <-.
  apply bind_cases in E as [(spent & s1 & [-> Hau]%lift_cases & E)|(e & [-> _]%lift_cases & ->)].
  2: { left. split; [by destruct v; cbn in *; subst|eauto]. }
  right. split; [exact Hl|]. symmetry in Hau. destruct (authorize_inv _ _ _ _ _ _ _ _ _ _ Hau) as (Hz & _ & _ & _).
  exists a, spent, s. split; [exact Hau|]. split; [exact Hz|]. split; [|done].
  eapply recovery_stages; [apply (au_local _ _ _ _ _ _ Hz)|apply (au_fresh _ _ _ _ _ _ Hz)|exact E].
Qed.
Lemma sound_lock trusted b v : sound trusted (with_lock b v) <-> sound trusted v.
Proof. by destruct v. Qed.
Lemma recover_sound trusted raw head observed run_id incident_id evidence now action crash v v' r :
  sound trusted v -> recover trusted raw head observed run_id incident_id evidence now action crash v = (v', r) -> sound trusted v'.
Proof.
  intros Hs [[-> _]|(_ & a & spent & s & _ & Hau & Hr & ->)]%recover_cases; [done|]. rewrite sound_lock.
  eapply recovered_sound; [exact Hau| |exact Hr]. by rewrite sound_lock.
Qed.
Lemma initialize_sound trusted state v v' r : sound trusted v -> initialize state v = (v', r) -> sound trusted v'.
Proof.
  intros Hs E. unfold initialize in E. apply owned_cases in E as [(_ & -> & _)|(_ & s & E & ->)]; [done|]. rewrite sound_lock.
  apply bind_cases in E as [(v0 & s1 & E1 & E)|(e & E1 & _)]; [|discriminate E1]. injection E1 as <- <-.
  apply bind_cases in E as [([] & s1 & E1 & E)|(e & [-> _]%lift_cases & _)]; [|by rewrite sound_lock].
  apply run_raises_if in E1 as [-> E1]. apply orb_false in E1 as [E1 _]. apply bool_decide_eq_false in E1.
  assert (Hnone : vt_calls v = []).
  { destruct Hs as [_ [Hs|(rows & head & row & spent & Hc & Hlast & _)]]; [done|]. exfalso. apply E1. cbn.
    destruct (vt_records v); [eauto|]. vm_compute in Hc. injection Hc as <- _. discriminate Hlast. }
  assert (Hcalls : vt_calls s = []).
  { apply bind_cases in E as [([] & s1 & E2 & E)|(e & E2 & _)]; [|discriminate E2]. apply run_modify in E2. subst s1.
    apply focus_cases in E as (t & _ & ->). exact Hnone. }
  split; [rewrite Hcalls; constructor|by left].
Qed.
Lemma reachable_sound trusted v : reachable trusted v -> sound trusted v.
Proof.
  induction 1 as [|v v' _ IH Hs]; [split; [constructor|by left]|]. destruct Hs as [state v v' r E|? ? ? ? ? ? ? ? ? v v' r E|? ? ? ? ? ? ? ? ? v v' r E|v|d v].
  - by eapply initialize_sound.
  - by eapply recover_sound.
  - rewrite sound_lock. by eapply recover_sound.
  - by rewrite sound_lock.
  - exact IH.
Qed.

(** ** No retry *)

(** Every recovery fails and changes nothing. *)
Definition refuses trusted v : Prop :=
  forall raw head observed run_id incident_id evidence now action crash,
    exists e, recover trusted raw head observed run_id incident_id evidence now action crash v = (v, Err e).
(** The last record is a consumption without a completion. *)
Definition pending v : Prop :=
  exists rows head row status, chain (vt_records v) None = Ok (rows, head) /\ last rows = Some row /\ key "status" row = Ok status /\
    same status (JStr "CONSUMED") = true.

Lemma blocked trusted v : (forall a head observed run_id incident_id evidence now spent,
    authorize trusted a head observed run_id incident_id evidence now (with_lock true v) <> Ok spent) -> refuses trusted v.
Proof.
  intros Hn raw head observed run_id incident_id evidence now action crash.
  destruct (recover _ _ _ _ _ _ _ _ _ _ v) as [v' r] eqn:E. apply recover_cases in E as [[-> [e ->]]|(_ & a & spent & s & Ha & _)]; [by exists e|].
  exfalso. by eapply Hn.
Qed.
Lemma pending_refuses trusted v : pending v -> refuses trusted v.
Proof.
  intros (rows & head & row & status & Hc & Hl & Hk & Hs). apply blocked. intros a head' observed run_id incident_id evidence now spent Ha.
  apply authorize_inv in Ha as ([(pre & row' & st & w0 & prior & Hc' & _ & _ & _ & _ & status' & Hk' & Hs') _ _ _ _ _ _] & _).
  assert (Hr : rows = pre ++ [row']) by (cbn in Hc'; congruence). rewrite Hr, last_snoc in Hl. injection Hl as ->. congruence.
Qed.
Lemma pending_consumed a head observed evidence spent v d rows head0 head1 :
  Forall (fun r => unique r = true) spent ->
  appended (consumed_payload a head observed evidence spent) (vt_records v) d rows head0 head1 -> forall v', vt_records v' = d -> pending v'.
Proof.
  intros Hu Ha v' Hd. eexists _, _, _, _. rewrite Hd. split; [apply (ap_extends _ _ _ _ _ _ Ha), payload_unique|].
  { apply Forall_app. split; [exact Hu|]. constructor; [apply consumption_unique|constructor]. }
  split; [apply last_snoc|]. split; [rewrite key_norm; unfold consumed_payload, payload; by rewrite (key_obj "status" _ (JStr "CONSUMED")) by reflexivity|].
  apply same_refl.
Qed.
(** A consumption that only the local directory shows. *)
Lemma orphan_refuses trusted a head observed evidence spent v v' : authorized trusted a head observed v spent ->
  vt_records v' = vt_records v -> vt_local v' = vt_local (local_consumed a head evidence v) -> refuses trusted v'.
Proof.
  intros Hau Hrec Hloc. destruct (authorized_last _ _ _ _ _ _ Hau) as (rows & row & Hc & Hl & Hsp). apply blocked.
  intros a' head' observed' run_id incident_id evidence' now spent' Ha. apply authorize_inv in Ha as (Hau' & _).
  destruct (authorized_last _ _ _ _ _ _ Hau') as (rows' & row' & Hc' & Hl' & Hsp'). cbn [vt_records with_lock] in Hc'.
  rewrite Hrec in Hc'.
  assert (spent' = spent) as -> by congruence. pose proof (au_local _ _ _ _ _ _ Hau') as Hlocal.
  apply check_local_inv in Hlocal as (expected & Ex & Hnames & _ & _).
  eapply (name_free a); [exact Ex|apply (au_fresh _ _ _ _ _ _ Hau)|]. apply Hnames. split; [|apply endswith_app].
  cbn [vt_local with_lock]. rewrite Hloc. cbn. rewrite lookup_insert_eq. eauto.
Qed.
Lemma recover_no_retry trusted raw head observed run_id incident_id evidence now action crash v v' e :
  recover trusted raw head observed run_id incident_id evidence now action crash v = (v', Err e) ->
  v' = v \/ refuses trusted v' /\ (vt_records v' <> vt_records v -> forall directory, refuses trusted (with_local directory v')).
Proof.
  intros [[-> _]|(Hlock & a & spent & s & _ & Hau & Hr & ->)]%recover_cases; [by left|].
  pose proof (authorized_unique _ _ _ _ _ _ Hau) as Hu.
  assert (Hv : with_lock false (with_lock true v) = v) by (destruct v; cbn in *; by subst).
  inversion Hr as [e0 E1 E2|e0 E1 E2|rows head0 d head1 e0 Ha E1 E2|rows head0 d head1 e0 Ha E1 E2|]; subst s.
  - left. exact Hv.
  - right. split; [|done]. by eapply orphan_refuses; [exact Hau|..].
  - right. split; [|intros _ directory]; apply pending_refuses; by eapply (pending_consumed a head observed evidence spent); [exact Hu|exact Ha|].
  - right. split; [|intros _ directory]; apply pending_refuses; by eapply (pending_consumed a head observed evidence spent); [exact Hu|exact Ha|].
Qed.

(** ** What a completed recovery leaves *)

Lemma take_norm spent extra : norm <$> take (length spent) (norm <$> (spent ++ extra)) = norm <$> spent.
Proof. by rewrite <- fmap_take, take_app_length, <- list_fmap_compose, (list_fmap_ext (norm ∘ norm) norm) by (intros; apply norm_norm). Qed.
Lemma state_payload w spent status : key "state" (payload w spent status) = Ok (model_dump_json_value w).
Proof. reflexivity. Qed.
Lemma step_payload w w' spent spent' status : progress w w' = Ok tt -> witness_fields w' = true ->
  norm <$> take (length spent) (norm <$> spent') = norm <$> spent ->
  current_step (Some w, spent) (norm (payload w' spent' status)) = Ok (Some w', norm <$> spent').
Proof.
  intros Hp Hw Ht. unfold current_step. rewrite key_norm, state_payload.
  cbn [fmap res_fmap mbind res_bind fst snd]. rewrite witness_norm, witness_round by done. cbn [mbind res_bind]. rewrite Hp. cbn [mbind res_bind].
  rewrite spent_payload. cbn [mbind res_bind]. assert (Hs : same (JArr (take (length spent) (norm <$> spent'))) (JArr spent) = true).
  { apply same_spec. cbn [norm]. f_equal. exact Ht. }
  by rewrite Hs.
Qed.
Lemma distinct_spent k spent r y l : mapR (key k) spent = Ok l -> distinct l = true -> key k r = Ok y ->
  (forall x, x ∈ spent -> exists z, key k x = Ok z /\ same z y = false) ->
  exists l', mapR (key k) (norm <$> (spent ++ [r])) = Ok l' /\ distinct l' = true.
Proof.
  intros E Hd Hr Hf. exists (norm <$> (l ++ [y])). split.
  - clear Hd Hf. revert l E. induction spent as [|x spent IH]; intros l E; cbn [mapR] in E.
    + apply Ok_inj in E as <-. cbn. by rewrite key_norm, Hr.
    + unbind E z Ez. unbind E zs Ezs. apply Ok_inj in E as <-. cbn. rewrite key_norm, Ez. cbn. by rewrite (IH _ Ezs).
  - unfold distinct in *. rewrite bool_decide_eq_true in Hd |- *.
    assert (Ec : canonical <$> (norm <$> (l ++ [y])) = canonical <$> (l ++ [y])).
    { rewrite <- list_fmap_compose. apply list_fmap_ext. intros _ x _. apply canonical_norm. }
    rewrite Ec, fmap_app. apply NoDup_app.
    split; [exact Hd|]. split; [|apply NoDup_singleton]. intros t (z & -> & Hz)%list_elem_of_fmap. cbn. intros Heq%list_elem_of_singleton.
    destruct (mapR_elem _ _ _ _ E Hz) as (x & Hx & Hk). destruct (Hf x Hx) as (z' & Hk' & Hs). rewrite Hk in Hk'. apply Ok_inj in Hk'. subst z'.
    unfold same in Hs. by apply bool_decide_eq_false in Hs.
Qed.
Lemma consumption_name_norm r name : consumption_name r = Ok name -> consumption_name (norm r) = Ok name.
Proof.
  unfold consumption_name, text_at. intros E. unbind E i Ei. unbind Ei x Ex. rewrite key_norm, Ex. cbn. destruct x; try discriminate Ei. cbn.
  apply Ok_inj in Ei. by subst.
Qed.
Lemma check_local_next a head evidence directory spent : check_local directory spent = Ok tt ->
  (forall r, r ∈ spent -> same_approval a r = Ok false) -> Z.of_nat (length (canonical (consumption a head evidence))) <= READ_LIMIT ->
  check_local (Some (<[local_name a := canonical (consumption a head evidence)]> (files_of directory))) (norm <$> (spent ++ [consumption a head evidence])) = Ok tt.
Proof.
  intros Hl Hf Hsize. destruct (check_local_inv _ _ Hl) as (expected & Ex & Hnames & Hp & Hall). set (r := consumption a head evidence) in *.
  set (d' := Some _). assert (Hname : consumption_name r = Ok (local_name a)) by reflexivity.
  assert (Ex' : mapR consumption_name (norm <$> (spent ++ [r])) = Ok (expected ++ [local_name a])).
  { rewrite fmap_app. eapply mapR_snoc; [|by apply consumption_name_norm]. clear -Ex. revert expected Ex.
    induction spent as [|x spent IH]; intros expected E; cbn [mapR] in E |- *; [exact E|]. unbind E y Ey. unbind E ys Eys. apply Ok_inj in E as <-.
    rewrite fmap_cons. cbn [mapR]. rewrite (consumption_name_norm _ _ Ey). cbn [mbind res_bind]. by rewrite (IH _ Eys). }
  assert (Hin : forall name, is_Some (files_of d' !! name) <-> name = local_name a \/ is_Some (files_of directory !! name)).
  { intros name. unfold d'. cbn. rewrite lookup_insert_is_Some. destruct (decide (name = local_name a)); naive_solver. }
  unfold check_local. rewrite Ex'. cbn [mbind res_bind].
  assert (Hset : bool_decide (list_to_set (List.filter (endswith ".json") (elements (dom (files_of d')))) =@{gset string} list_to_set (expected ++ [local_name a])) = true).
  { apply bool_decide_true. apply set_eq. intros name. rewrite !elem_of_list_to_set, list_elem_of_In, filter_In, <- list_elem_of_In, elem_of_elements, elem_of_dom, Hin,
      elem_of_app, list_elem_of_singleton, <- Hnames. split; [intros [[->|?] ?]; [by right|by left]|intros [[? ?]| ->]; [by split; [right|]|split; [by left|apply endswith_app]]]. }
  assert (Hpend : existsb (endswith ".pending") (elements (dom (files_of d'))) = false).
  { apply not_true_iff_false. intros (name & Hn & He)%existsb_exists. apply list_elem_of_In, elem_of_elements, elem_of_dom, Hin in Hn as [->|Hn].
    - unfold local_name, endswith in He. apply bool_decide_eq_true in He. rewrite text_app in He. destruct He as [l He].
      apply (f_equal (fun t => last t)) in He. rewrite !last_app in He. discriminate He.
    - apply Hp in Hn. congruence. }
  rewrite Hset, Hpend. cbn [andb negb raise_unless mbind res_bind].
  assert (Hmap : exists us, mapR (check_consumption d') (norm <$> (spent ++ [r])) = Ok us); [|destruct Hmap as [us ->]; reflexivity].
  assert (Hstep : forall x, x ∈ spent ++ [r] -> check_consumption d' (norm x) = Ok tt).
  { intros x [Hx| ->%list_elem_of_singleton]%elem_of_app.
    - rewrite Forall_forall in Hall. specialize (Hall x Hx). unfold check_consumption in Hall |- *. unbind Hall name Hn. rewrite (consumption_name_norm _ _ Hn).
      cbn [mbind res_bind]. assert (Hne : name <> local_name a).
      { intros ->. eapply name_free; [exact Ex|exact Hf|]. destruct (mapR_elem_l _ _ _ _ Ex Hx) as (y & Hy & Hy'). rewrite Hn in Hy'. apply Ok_inj in Hy'. by subst. }
      rewrite (read_json_same directory) by (unfold d'; cbn; by rewrite lookup_insert_ne). unbind Hall z Ez. rewrite Ez. cbn [mbind res_bind]. destruct z as [raw value].
      apply raise_unless_Ok in Hall. apply raise_unless_Ok. bool_inv. split; [|by rewrite canonical_norm].
      apply same_spec. rewrite norm_norm. by apply same_spec.
    - unfold check_consumption. rewrite (consumption_name_norm _ _ Hname). cbn [mbind res_bind].
      assert (Hread : read_json d' (local_name a) READ_LIMIT = Ok (canonical r, norm r)).
      { apply read_canonical; [unfold d'; cbn; apply lookup_insert_eq|exact Hsize|apply consumption_unique]. }
      rewrite Hread. cbn [mbind res_bind]. rewrite same_refl, bool_decide_true by (by rewrite canonical_norm). reflexivity. }
  revert Hstep. generalize (spent ++ [r]). intros l Hstep. induction l as [|x l IH]; [by exists []|]. rewrite fmap_cons. cbn [mapR].
  rewrite (Hstep x) by (by left). cbn [mbind res_bind]. destruct IH as [us ->]; [intros y Hy; apply Hstep; by right|]. by eexists.
Qed.

Lemma elem_of_last_in {A} (l : list A) x : x ∈ l ++ [x].
Proof. apply elem_of_app. right. by left. Qed.
Lemma record_shape n head p : record n head p = JObj
  [("sequence"%string, JInt (Z.of_nat n)); ("previous"%string, JStr head); ("payload"%string, p);
   ("fingerprint"%string, JStr (sha (canonical (JObj [("sequence", JInt (Z.of_nat n)); ("previous", JStr head); ("payload", p)]%string))))].
Proof. reflexivity. Qed.
Lemma consumption_size a head observed evidence spent n head0 :
  Z.of_nat (length (canonical (record n head0 (consumed_payload a head observed evidence spent)))) <= RECORD_LIMIT ->
  Z.of_nat (length (canonical (consumption a head evidence))) <= READ_LIMIT.
Proof.
  intros Hl. set (r := consumption a head evidence) in *. set (p := consumed_payload a head observed evidence spent) in *.
  pose proof (canonical_part (spent ++ [r]) r (elem_of_last_in _ _)) as L1.
  pose proof (canonical_field [("state"%string, model_dump_json_value (consumed_state a observed)); ("spent"%string, JArr (spent ++ [r])); ("status"%string, JStr "CONSUMED")]
    "spent" (JArr (spent ++ [r])) ltac:(right; left)) as L2.
  pose proof (canonical_field [("sequence"%string, JInt (Z.of_nat n)); ("previous"%string, JStr head0); ("payload"%string, p);
    ("fingerprint"%string, JStr (sha (canonical (JObj [("sequence", JInt (Z.of_nat n)); ("previous", JStr head0); ("payload", p)]%string))))]
    "payload" p ltac:(right; right; left)) as L3.
  change (JObj [("state"%string, model_dump_json_value (consumed_state a observed)); ("spent"%string, JArr (spent ++ [r])); ("status"%string, JStr "CONSUMED")]) with p in L2.
  rewrite <- record_shape in L3.
  unfold RECORD_LIMIT, READ_LIMIT in *. lia.
Qed.
Lemma progress_consumed a w : progress w (consumed_state a w) = Ok tt.
Proof.
  unfold progress, consumed_state. cbn. rewrite !bool_decide_true by done. rewrite !Z.leb_refl, (proj2 (Z.leb_le _ _)) by lia.
  cbn. rewrite Z.eqb_refl. by destruct (wi_halt w).
Qed.
Lemma witness_consumed a w : witness_fields w = true -> witness_fields (consumed_state a w) = true.
Proof. unfold witness_fields. cbn. rewrite !andb_true, !Z.leb_le. intros [[[[? ?] ?] ?] ?]. split_and!; try done; lia. Qed.

(** What is left of a recovery that returned: the consumption and the completion. *)
Record completed a (observed new : Witness) v v' (h : string) : Prop := {
  cd_calls : vt_calls v' = vt_calls v ++ [ap_consumption a];
  cd_lock : vt_locked v' = false;
  cd_rows : exists rows p q head, chain (vt_records v) None = Ok (rows, head) /\ chain (vt_records v') None = Ok (rows ++ [p; q], h);
  cd_current : exists row, verify v' h new = Ok row /\ key "status" row = Ok (JStr "COMPLETED");
  cd_progress : progress (consumed_state a observed) new = Ok tt
}.
Lemma recover_completed trusted raw head observed run_id incident_id evidence now action crash v v' r :
  witness_fields observed = true -> (forall w w', witness_fields w = true -> action w = Ok w' -> witness_fields w' = true) ->
  recover trusted raw head observed run_id incident_id evidence now action crash v = (v', Ok r) ->
  exists a new h, key "head" r = Ok (JStr h) /\ key "state" r = Ok (model_dump_json_value new) /\
    trusted !! ap_request a = Some (ap_fingerprint a) /\
    action (consumed_state a observed) = Ok new /\ completed a observed new v v' h.
Proof.
  intros Hob Hact [[_ [e He]]|(Hlock & a & spent & s & Haz & Hau & Hr & ->)]%recover_cases; [discriminate He|].
  inversion Hr as [| | | |rows head0 d head1 new rows' head2 d' h r0 Ha Enew Hp He Hb Ha' Hk1 Hk2 E1 E2]; subst s r0. clear Hr.
  exists a, new, h. split; [exact Hk1|]. split; [exact Hk2|]. split; [apply (au_trusted _ _ _ _ _ _ Hau)|]. split; [exact Enew|].
  pose proof (authorized_unique _ _ _ _ _ _ Hau) as Hu. set (rec := consumption a head evidence).
  assert (Hue : Forall (fun r => unique r = true) (spent ++ [rec])).
  { apply Forall_app. split; [exact Hu|]. constructor; [apply consumption_unique|constructor]. }
  pose proof (ap_extends _ _ _ _ _ _ Ha (payload_unique _ _ _ Hue)) as C1.
  pose proof (ap_extends _ _ _ _ _ _ Ha' (payload_unique _ _ _ Hue)) as C2.
  pose proof (ap_chain _ _ _ _ _ _ Ha') as C3. assert (rows' = rows ++ [norm (consumed_payload a head observed evidence spent)] /\ head2 = head1) as [-> ->].
  { cbn in C3. rewrite C1 in C3. by injection C3 as <- <-. }
  clear C3. pose proof (ap_chain _ _ _ _ _ _ Ha) as C0. rewrite <- app_assoc in C2. cbn [app] in C2. split.
  - done.
  - done.
  - eexists rows, _, _, head0. split; [exact C0|exact C2].
  - destruct Hau as [(pre & row & st & w0 & prior & Hc & Hpre & Hrow & Hst & Hob' & _) (lq & Eq_ & Dq) (li & Ei & Di) Hlocal _ _ Hfresh].
    assert (rows = pre ++ [row]) as -> by congruence.
    assert (Hw0 : w0 = observed).
    { unfold current_step in Hrow. rewrite Hst in Hrow. cbn [mbind res_bind] in Hrow. unbind Hrow w1 G1. unbind Hrow u1 G2. unbind Hrow l1 G3.
      apply Ok_inj in Hrow. injection Hrow as -> _. apply same_spec in Hob'. rewrite <- witness_norm, Hob', witness_norm, witness_round in G1 by done.
      by apply Ok_inj in G1. }
    subst w0. exists (norm (completed_payload a head evidence spent new)). split; [|unfold completed_payload; by rewrite key_norm].
    unfold verify, current. cbn [vt_records with_lock with_records called]. rewrite (chain_head _ _ _ C2). cbn [mbind res_bind].
    replace (last ((pre ++ [row]) ++ [norm (consumed_payload a head observed evidence spent); norm (completed_payload a head evidence spent new)]))
      with (Some (norm (completed_payload a head evidence spent new))) by (by rewrite last_app).
    cbn [of_option mbind res_bind]. rewrite <- app_assoc, foldR_app, Hpre. cbn [mbind res_bind app foldR]. rewrite Hrow. cbn [mbind res_bind].
    unfold consumed_payload at 1. rewrite (step_payload observed) by (try apply progress_consumed; try (by apply witness_consumed); apply take_norm).
    cbn [mbind res_bind]. unfold completed_payload. rewrite (step_payload (consumed_state a observed)).
    2: exact Hp. 2: { eapply Hact; [|exact Enew]. by apply witness_consumed. } 2: { by rewrite <- fmap_take, firstn_all2 by (by rewrite length_fmap). }
    cbn [mbind res_bind snd]. fold rec.
    destruct (distinct_spent "request" spent rec (JStr (ap_request a)) lq Eq_ Dq eq_refl) as (lq' & -> & Dq').
    { intros x Hx. apply (approval_fresh a x), Hfresh, Hx. }
    destruct (distinct_spent "identity" spent rec (JStr (ap_consumption a)) li Ei Di eq_refl) as (li' & -> & Di').
    { intros x Hx. apply (approval_fresh a x), Hfresh, Hx. }
    cbn [mbind res_bind]. rewrite Dq', Di'. cbn [raise_unless mbind res_bind].
    assert (Hcl : check_local (vt_local (local_consumed a head evidence (with_lock true v))) (norm <$> (spent ++ [rec])) = Ok tt).
    { apply check_local_next; [exact Hlocal|exact Hfresh|]. eapply consumption_size. exact (ap_size _ _ _ _ _ _ Ha). }
    cbn [vt_local with_lock with_records called] in Hcl |- *. rewrite Hcl. cbn [mbind res_bind].
    unfold expect. rewrite key_norm, state_payload. cbn [fmap res_fmap mbind res_bind].
    by rewrite same_norm.
  - exact Hp.
Qed.

(** ** The history of a witness *)

(** Nothing is taken back from one state to a later one. *)
Record later (w w' : Witness) : Prop := {
  lt_run : wi_run_id w = wi_run_id w'; lt_session : wi_session w <= wi_session w'; lt_event : wi_event w <= wi_event w';
  lt_epoch : wi_epoch w <= wi_epoch w'; lt_halt : wi_halt w = true -> wi_halt w' = true
}.
Lemma later_refl w : later w w.
Proof. by split. Qed.
Lemma later_trans w1 w2 w3 : later w1 w2 -> later w2 w3 -> later w1 w3.
Proof. intros [] []. split; [congruence|lia|lia|lia|auto]. Qed.
Lemma progress_later w w' : progress w w' = Ok tt -> later w w'.
Proof.
  unfold progress. intros E. unbind E u1 E1. unbind E u2 E2. apply raise_unless_Ok in E1, E2. rewrite !andb_true, bool_decide_eq_true, !Z.leb_le in E1.
  destruct E1 as [[[? ?] ?] ?]. split; try done. intros Hw. by rewrite Hw in E2.
Qed.
Definition states (row : json) (w : Witness) : Prop := exists j, key "state" row = Ok j /\ model_validate j = Ok w.
Lemma current_history v head row : current v head = Ok row -> exists rows ws, chain (vt_records v) None = Ok (rows, head) /\
  Forall2 states rows ws /\ StronglySorted later ws.
Proof.
  unfold current. intros E. unbind E x Fx. destruct x as [rows head']. unbind E last_ F3. unbind E s F4. clear E F3.
  destruct (chain_inv _ _ _ _ Fx) as (_ & _ & _ & _ & _ & <-). exists rows. enough (exists ws, Forall2 states rows ws /\ StronglySorted later ws /\
    Forall (fun x => exists w, s.1 = Some w /\ later x w) ws) as (ws & ? & ? & _) by (exists ws; by eapply chain_expected in Fx).
  apply (foldR_prefix_inv (fun pre s => exists ws, Forall2 states pre ws /\ StronglySorted later ws /\ Forall (fun x => exists w, s.1 = Some w /\ later x w) ws) current_step
    (None, []) rows s); [|by exists []; repeat constructor|exact F4].
  intros pre r post s1 s2 _ (ws & F & S & L) Es. unfold current_step in Es. unbind Es j Ej. unbind Es w Ew. unbind Es u Eu. unbind Es sp_ Esp. apply Ok_inj in Es. subst s2.
  assert (Hall : Forall (fun x => later x w) ws).
  { eapply Forall_impl; [exact L|]. intros x (p & Hp & Hx). rewrite Hp in Eu. unbind Eu u' Eu'. destruct u'. apply progress_later in Eu'. by eapply later_trans. }
  exists (ws ++ [w]). split; [apply Forall2_app; [exact F|]; constructor; [by exists j|constructor]|]. split.
  - apply StronglySorted_app_2; [|exact S|repeat constructor]. intros x y Hx ->%list_elem_of_singleton. rewrite Forall_forall in Hall. by apply Hall.
  - apply Forall_app. split; [|constructor; [exists w; split; [done|apply later_refl]|constructor]]. eapply Forall_impl; [exact Hall|]. cbn. eauto.
Qed.

(** ** The theorems *)

(** C21. However clients initialize and recover, die inside a recovery, break stale locks
    and change the local directory, the recovery action is called at most once for a
    consumption identity, and every call is witnessed: the last record of the chain lists
    a consumption under that identity, whose approval is one of the trusted ones.  When
    the authority accepts a state, the states of the chain never went back: one run, its
    counters and its epoch never decrease, a halt is never cleared. *)
Theorem authority_once trusted v : reachable trusted v ->
  NoDup (vt_calls v) /\ (vt_calls v = [] \/ witnessed trusted v) /\
  (forall head observed row, verify v head observed = Ok row -> exists rows ws, chain (vt_records v) None = Ok (rows, head) /\
     Forall2 states rows ws /\ StronglySorted later ws).
Proof.
  intros [Hn Hw]%reachable_sound. split; [exact Hn|]. split; [exact Hw|]. intros head observed row E. unfold verify in E.
  unbind E row' Er. by eapply current_history.
Qed.

(** C29. The outcomes of a recovery.  If it fails, either nothing was changed, or every
    later recovery fails and changes nothing - even if the local directory is rolled back,
    once the consumption is recorded.  If it returns, the approval was trusted, the
    action was called once, on the consumed state, its result follows that state, and the
    authority accepts it: two records longer, completed, unlocked, ready for the next
    recovery. *)
Theorem recovery_outcomes trusted raw head observed run_id incident_id evidence now action crash v v' r :
  witness_fields observed = true -> (forall w w', witness_fields w = true -> action w = Ok w' -> witness_fields w' = true) ->
  recover trusted raw head observed run_id incident_id evidence now action crash v = (v', r) ->
  match r with
  | Err _ => v' = v \/ refuses trusted v' /\ (vt_records v' <> vt_records v -> forall directory, refuses trusted (with_local directory v'))
  | Ok report => exists a new h, key "head" report = Ok (JStr h) /\ key "state" report = Ok (model_dump_json_value new) /\
      trusted !! ap_request a = Some (ap_fingerprint a) /\ action (consumed_state a observed) = Ok new /\ completed a observed new v v' h
  end.
Proof.
  intros Hob Hact E. destruct r as [report|e]; [|by eapply recover_no_retry]. by eapply recover_completed.
Qed.
End authority.

(** ** A worked recovery *)

Import QualitySample.

Definition witness_json (w : Witness) : json :=
  JObj [("run_id", JStr (wi_run_id w)); ("session_sequence", JInt (wi_session w)); ("highest_event_sequence", JInt (wi_event w));
        ("journal_head", JStr (wi_journal_head w)); ("authority_epoch", JInt (wi_epoch w)); ("paper_halt", JBool (wi_halt w));
        ("last_accepted_recovery_action", JStr (wi_action w))]%string.
#[export] Instance dump_witness : DumpJson Witness := witness_json.
Definition bool_at (k : string) (d : json) : res bool := v ← key k d; match v with JBool b => Ok b | _ => Err TypeError end.
#[export] Instance read_witness : ReadJson Witness := fun v =>
  run ← text_at "run_id" v; session ← int_at "session_sequence" v; event ← int_at "highest_event_sequence" v;
  head ← text_at "journal_head" v; epoch ← int_at "authority_epoch" v; halt ← bool_at "paper_halt" v;
  action ← text_at "last_accepted_recovery_action" v;
  Ok (mkWitness run session event head epoch halt action).
Lemma bool_at_norm k v : bool_at k (norm v) = bool_at k v.
Proof. unfold bool_at. rewrite key_norm. destruct (key k v) as [x|]; [by destruct x|done]. Qed.
#[export] Instance sample_witness_model : WitnessModel.
Proof.
  split.
  - intros w. apply unique_obj. split; [apply (bool_decide_eq_true_1 (NoDup _)); vm_compute; reflexivity|]. repeat constructor.
  - intros v. unfold model_validate, read_witness. by rewrite !text_at_norm, !int_at_norm, bool_at_norm.
  - by intros [] _.
Qed.
Definition approval_fields (a : Approval) : list (string * json) :=
  [("recovery_request_id", JStr (ap_request a)); ("run_id", JStr (ap_run_id a)); ("incident_id", JStr (ap_incident_id a));
   ("authority_identity", JStr (ap_identity a)); ("authorized_action", JStr (ap_action a)); ("issued_timestamp", JInt (ap_issued a));
   ("expiry_timestamp", JInt (ap_expiry a)); ("evidence_fingerprint", JStr (ap_evidence a));
   ("current_trusted_head_fingerprint", JStr (ap_head a)); ("approval_fingerprint", JStr (ap_fingerprint a));
   ("one_use_consumption_identity", JStr (ap_consumption a))]%string.
#[export] Instance dump_approval : DumpJson Approval := fun a => JObj (approval_fields a).
#[export] Instance read_approval : ReadJson Approval := fun v =>
  request ← text_at "recovery_request_id" v; run ← text_at "run_id" v; incident ← text_at "incident_id" v;
  identity ← text_at "authority_identity" v; action ← text_at "authorized_action" v; issued ← int_at "issued_timestamp" v;
  expiry ← int_at "expiry_timestamp" v; evidence ← text_at "evidence_fingerprint" v;
  head ← text_at "current_trusted_head_fingerprint" v; fingerprint ← text_at "approval_fingerprint" v;
  consumption ← text_at "one_use_consumption_identity" v;
  Ok (mkApproval request run incident identity action issued expiry evidence head fingerprint consumption).

Definition first_state : Witness := mkWitness (hash_of "a"%char) 1 10 (hash_of "b"%char) 0 true "NONE".
Definition opened : Vault * res string := initialize first_state (mkVault None None false []).
Definition opened_head : string := match opened.2 with Ok h => h | Err _ => "" end.
Definition sample_approval : Approval :=
  let unsealed := mkApproval "request" (hash_of "a"%char) "incident" "synthetic:desk" "RESUME_SYNTHETIC_REPLAY" 100 200 "evidence" opened_head "" "identity" in
  mkApproval "request" (hash_of "a"%char) "incident" "synthetic:desk" "RESUME_SYNTHETIC_REPLAY" 100 200 "evidence" opened_head
    (sha (canonical (excluding "approval_fingerprint" (model_dump_json_value unsealed)))) "identity".
Definition sample_trusted : gmap string string := {["request"%string := ap_fingerprint sample_approval]}.
(** The action accepts two more events. *)
Definition sample_action (w : Witness) : res Witness :=
  Ok (mkWitness (wi_run_id w) (wi_session w) (wi_event w + 2) (hash_of "c"%char) (wi_epoch w) (wi_halt w) "RESUME_SYNTHETIC_REPLAY").
Notation sample_recovery crash v :=
  (recover sample_trusted (Some (model_dump_json_value sample_approval)) opened_head first_state (hash_of "a"%char) "incident" "evidence"
    (Some 150) sample_action crash v).
Lemma opened_by : initialize first_state (mkVault None None false []) = (opened.1, opened.2).
Proof. exact (surjective_pairing opened). Qed.
Lemma opened_reachable : reachable sample_trusted opened.1.
Proof. eapply reachable_step; [apply reachable_empty|]. eapply step_initialize. exact opened_by. Qed.
Lemma sample_returns : exists v r, sample_recovery None opened.1 = (v, Ok r) /\ vt_calls v = ["identity"%string].
Proof.
  assert (E : (fun x => (vt_calls x.1, is_ok x.2)) (sample_recovery None opened.1) = (["identity"%string], true)) by (vm_compute; reflexivity).
  destruct (sample_recovery None opened.1) as [v [r|e]]; [|discriminate E]. cbn [fst snd] in E. injection E as E. exists v, r. split; [reflexivity|exact E].
Qed.
(** A crash between the two consumptions: the approval is lost, the action was not called. *)
Lemma sample_crashes : exists v, sample_recovery (Some "after_local_consumption"%string) opened.1 = (v, Err (InterruptedError "after_local_consumption")) /\
  vt_calls v = [] /\ is_Some (files_of (vt_local v) !! "identity.json"%string).
Proof.
  assert (E : (fun x => (vt_calls x.1, bool_decide (is_Some (files_of (vt_local x.1) !! "identity.json"%string)), match x.2 with Ok _ => None | Err e => Some e end))
    (sample_recovery (Some "after_local_consumption"%string) opened.1) = ([], true, Some (InterruptedError "after_local_consumption"))) by (vm_compute; reflexivity).
  destruct (sample_recovery (Some "after_local_consumption"%string) opened.1) as [v [r|e]]; cbn [fst snd] in E; [discriminate E|].
  injection E as Ec El Ee. subst e. exists v. split; [reflexivity|]. split; [exact Ec|]. by apply bool_decide_eq_true in El.
Qed.

(** ** Witnesses *)

Lemma authority_once_witness : exists v, reachable sample_trusted v /\ vt_calls v = ["identity"%string] /\ NoDup (vt_calls v) /\ witnessed sample_trusted v.
Proof.
  destruct sample_returns as (v & r & E & Hc). exists v.
  assert (Hr : reachable sample_trusted v).
  { refine (reachable_step _ _ _ opened_reachable (step_recover _ _ _ _ _ _ _ _ _ _ _ _ _ E)). }
  destruct (authority_once sample_trusted v Hr) as (Hn & [Hw|Hw] & _); [rewrite Hc in Hw; discriminate Hw|].
  split; [exact Hr|]. split; [exact Hc|]. split; [exact Hn|exact Hw].
Defined.
Lemma sample_action_fields w w' : witness_fields w = true -> sample_action w = Ok w' -> witness_fields w' = true.
Proof.
  intros Hw [= <-]. revert Hw. unfold witness_fields. cbn. rewrite !andb_true, !Z.leb_le. intros [[[[? ?] ?] ?] ?]. split_and!; try done; lia.
Qed.
Lemma recovery_outcomes_witness : exists v v' report h, sample_recovery None opened.1 = (v, Ok report) /\ key "head" report = Ok (JStr h) /\
  vt_calls v = ["identity"%string] /\ vt_locked v = false /\ (exists new row, verify v h new = Ok row) /\
  sample_recovery (Some "after_local_consumption"%string) opened.1 = (v', Err (InterruptedError "after_local_consumption")) /\
  refuses sample_trusted v'.
Proof.
  destruct sample_returns as (v & report & E & Hc). destruct sample_crashes as (v' & E' & Hc' & Hl).
  assert (Hf : witness_fields first_state = true) by (vm_compute; reflexivity).
  pose proof (recovery_outcomes sample_trusted (Some (model_dump_json_value sample_approval)) opened_head first_state (hash_of "a"%char) "incident" "evidence"
    (Some 150) sample_action None opened.1 v (Ok report) Hf sample_action_fields E) as (a & new & h & Hh & _ & _ & _ & [_ Hlock _ (row & Hv & _) _]).
  pose proof (recovery_outcomes sample_trusted (Some (model_dump_json_value sample_approval)) opened_head first_state (hash_of "a"%char) "incident" "evidence"
    (Some 150) sample_action (Some "after_local_consumption"%string) opened.1 v' (Err (InterruptedError "after_local_consumption")) Hf sample_action_fields E') as [Hsame|[Hr _]].
  - exfalso. rewrite Hsame in Hl. assert (Hno : bool_decide (is_Some (files_of (vt_local opened.1) !! "identity.json"%string)) = false) by (vm_compute; reflexivity).
    exact (bool_decide_eq_false_1 _ Hno Hl).
  - exists v, v', report, h. split; [exact E|]. split; [exact Hh|]. split; [exact Hc|]. split; [exact Hlock|]. split; [exists new, row; exact Hv|].
    split; [exact E'|exact Hr].
Defined.
