(* ===== verification/AlertTheorems.v ===== *)
(** * The alert ledger and the assurance of critical incidents

    Accepting an incident twice records it once; an assurance without a miss shows, for
    every critical incident, an alert of its own that was emitted in time for the event
    that was accepted. *)
From S2P Require Import Prelude Decimal DecimalFacts MoneyFacts Text Dataset Costs Phase14 Strategies Execution Json JsonFacts JsonRead CanonicalPolicy Research Exec Qualification Chain PyText Paper.
From S2P Require Import Portfolio PortfolioRun Scheduler Multi MultiFacts MultiRecovery Analytics AnalyticsFacts Attribution Quality QualityFacts Monitoring MonitoringFacts Authority AuthorityFacts.
From S2P Require QualitySample.
From Stdlib Require Import Ascii.
Open Scope list_scope.
Open Scope Z_scope.

(** ** What the library promises on events and truths *)

Class EventModel `{dumper : DumpJson AcceptedEvent} `{reader : ReadJson AcceptedEvent} := {
  event_unique e : unique (model_dump_json_value (A := AcceptedEvent) e) = true;
  event_norm v : model_validate (A := AcceptedEvent) (norm v) = model_validate v;
  event_incident v e : model_validate (A := AcceptedEvent) v = Ok e -> key "incident_id" v = Ok (JStr (ae_incident_id e))
}.
(** A truth whose only incident is the dump of one is read as that incident. *)
Class TruthModel `{dumper : DumpJson Truth} `{reader : ReadJson Truth} `{incident : DumpJson Incident} :=
  truth_incident l i t : find l "incidents"%string = Some (JArr [model_dump_json_value i]) -> model_validate (JObj l) = Ok t -> th_incidents t = [i].

(** ** Accepting an incident *)

Section accept.
Context `{EventModel}.
Implicit Types (e : AcceptedEvent) (l : AlertLedger).

Lemma emitted_unique e v : emitted e = Ok v -> unique v = true.
Proof.
  unfold emitted, alert. cbn [mbind res_bind]. intros E. apply Ok_inj in E. subst v. apply unique_obj. split.
  - apply (bool_decide_eq_true_1 (NoDup _)). vm_compute. reflexivity.
  - repeat constructor.
Qed.
Lemma alert_record_unique e v : emitted e = Ok v -> unique (alert_record e v) = true.
Proof.
  intros Hv%emitted_unique. apply unique_obj. split; [apply (bool_decide_eq_true_1 (NoDup _)); vm_compute; reflexivity|].
  constructor; [apply event_unique|]. constructor; [exact Hv|]. repeat constructor.
Qed.
Lemma validate_event_norm v : validate_event (norm v) = validate_event v.
Proof. unfold validate_event. by rewrite event_norm. Qed.
Lemma validate_incident v e : validate_event v = Ok e -> key "incident_id" v = Ok (JStr (ae_incident_id e)).
Proof.
  unfold validate_event. intros E. unbind E e' Ee. rewrite (event_incident _ _ Ee). unfold accepted_event_valid in E.
  unbind E u1 E1. unbind E u2 E2. unbind E u3 E3. by apply Ok_inj in E as ->.
Qed.

(** The incidents that the rows record. *)
Lemma snapshot_seen rows seen : foldR snapshot_step [] rows = Ok seen ->
  Forall2 (fun row id => (v ← key "event" row; key "incident_id" v) = Ok (JStr id)) rows seen /\ NoDup seen.
Proof.
  intros E. apply (foldR_prefix_inv (fun pre seen => Forall2 (fun row id => (v ← key "event" row; key "incident_id" v) = Ok (JStr id)) pre seen /\ NoDup seen)
    snapshot_step [] rows seen); [|split; constructor|exact E].
  intros pre row post s s' _ [F N] Es. unfold snapshot_step in Es. unbind Es v Ev. unbind Es e Ee. unbind Es u1 E1. unbind Es shown_ E2.
  unbind Es exp_ E3. unbind Es u4 E4. unbind Es halt_ E5. unbind Es u6 E6. apply Ok_inj in Es. subst s'. apply raise_if_Ok, bool_decide_eq_false in E1.
  split.
  - apply Forall2_app; [exact F|]. constructor; [|constructor]. rewrite Ev. cbn. by apply validate_incident.
  - apply NoDup_app. split; [exact N|]. split; [|apply NoDup_singleton]. by intros x Hx ->%list_elem_of_singleton.
Qed.
Lemma snapshot_inv d head rows : snapshot d head = Ok rows -> chain d None = Ok (rows, head) /\ Z.of_nat (length rows) <= 64 /\
  exists seen, foldR snapshot_step [] rows = Ok seen.
Proof.
  unfold snapshot. intros E. unbind E x Ex. destruct x as [rows' head']. unbind E u1 E1. unbind E seen Es. apply Ok_inj in E. subst rows'.
  destruct (chain_inv _ _ _ _ Ex) as (_ & _ & _ & _ & _ & <-). apply chain_expected in Ex. split; [exact Ex|].
  apply raise_unless_Ok, Z.leb_le in E1. split; [exact E1|]. by exists seen.
Qed.
Lemma snapshot_make d head rows seen : chain d None = Ok (rows, head) -> Z.of_nat (length rows) <= 64 -> foldR snapshot_step [] rows = Ok seen ->
  snapshot d head = Ok rows.
Proof.
  intros Hc Hl Hs. unfold snapshot. rewrite (chain_head _ _ _ Hc). cbn [mbind res_bind]. unfold length_of. rewrite (proj2 (Z.leb_le _ _) Hl).
  cbn [raise_unless mbind res_bind]. by rewrite Hs.
Qed.

(** The record of an event, with its alert and the halt. *)
Definition recorded e (rows : list json) (row : json) : Prop :=
  row ∈ rows /\ (exists v, key "event" row = Ok v /\ same v (model_dump_json_value e) = true) /\
  (exists shown expected, emitted e = Ok expected /\ key "alert" row = Ok shown /\ same shown expected = true) /\ key "paper_halt" row = Ok (JBool true).

Lemma accept_body e head crash l l' h : accept e head crash l = (l', Ok h) ->
  al_locked l = false /\ al_locked l' = false /\ exists rows known, snapshot (al_records l) head = Ok rows /\ filterR (records_incident e) rows = Ok known /\
    ((l' = l /\ h = head /\ exists row rest, known = row :: rest /\ expect "INCIDENT_CONFLICT" "event" row (model_dump_json_value e) = Ok tt) \/
     (known = [] /\ Z.of_nat (length rows) < 64 /\ exists shown rows0 head0, emitted e = Ok shown /\
        appended (alert_record e shown) (al_records l) (al_records l') rows0 head0 h)).
Proof.
  intros E. unfold accept in E. apply owned_cases in E as [(_ & _ & [x Hx])|(Hlock & s & E & ->)]; [discriminate Hx|]. split; [exact Hlock|]. split; [done|].
  apply run_bind in E as (l0 & s1 & E1 & E). apply run_get in E1 as [-> ->]. cbn [al_records with_alert_lock] in E.
  apply run_bind in E as (rows & s1 & E1 & E). apply run_lift in E1 as [-> Hrows].
  apply run_bind in E as (known & s1 & E1 & E). apply run_lift in E1 as [-> Hknown]. exists rows, known. split; [exact Hrows|]. split; [exact Hknown|].
  destruct known as [|row rest].
  - right. apply run_bind in E as (u1 & s1 & E1 & E). apply run_lift in E1 as [-> E1]. apply raise_unless_Ok, Z.ltb_lt in E1.
    apply run_bind in E as (u2 & s1 & E2 & E). apply lift_cases in E2 as [-> _]. apply run_bind in E as (shown & s1 & E3 & E). apply run_lift in E3 as [-> Hshown].
    apply run_bind in E as (h' & s1 & E4 & E). apply focus_cases in E4 as (d & Ed & ->). apply run_bind in E as (u5 & s1 & E5 & E). apply lift_cases in E5 as [-> _].
    apply run_ret in E as [-> ->]. split; [done|]. split; [exact E1|]. apply append_inv in Ed as (rows0 & head0 & Ha). by exists shown, rows0, head0.
  - left. apply run_bind in E as ([] & s1 & E1 & E). apply run_lift in E1 as [-> E1]. apply run_ret in E as [-> ->].
    split; [by destruct l; cbn in *; subst|]. split; [done|]. by exists row, rest.
Qed.

Lemma accept_known e head crash l rows row rest : al_locked l = false -> snapshot (al_records l) head = Ok rows ->
  filterR (records_incident e) rows = Ok (row :: rest) -> expect "INCIDENT_CONFLICT" "event" row (model_dump_json_value e) = Ok tt ->
  accept e head crash l = (l, Ok head).
Proof.
  intros Hl Hs Hf He. destruct l as [d b]. cbn in Hl. subst b. cbn [al_records] in Hs. unfold accept, owned, mbind, exec_bind, get, lift. cbn [al_locked with_alert_lock al_records].
  rewrite Hs, Hf, He. reflexivity.
Qed.
Lemma accept_recorded e d d' rows shown rows0 head0 head h : validate_event (model_dump_json_value e) = Ok e -> emitted e = Ok shown ->
  snapshot d head = Ok rows -> filterR (records_incident e) rows = Ok [] -> Z.of_nat (length rows) < 64 ->
  appended (alert_record e shown) d d' rows0 head0 h ->
  let row := norm (alert_record e shown) in
  snapshot d' h = Ok (rows ++ [row]) /\ filterR (records_incident e) (rows ++ [row]) = Ok [row] /\
  expect "INCIDENT_CONFLICT" "event" row (model_dump_json_value e) = Ok tt /\ recorded e (rows ++ [row]) row.
Proof.
  intros He Hshown Hs Hf Hl Ha row. destruct (snapshot_inv _ _ _ Hs) as (Hc & _ & seen & Hseen). destruct (snapshot_seen _ _ Hseen) as [F _].
  assert (rows0 = rows) as ->. { pose proof (ap_chain _ _ _ _ _ _ Ha) as Hc'. rewrite Hc in Hc'. by injection Hc' as <- <-. }
  pose proof (ap_extends _ _ _ _ _ _ Ha (alert_record_unique _ _ Hshown)) as Hc'. fold row in Hc'.
  assert (Kev : key "event" row = Ok (norm (model_dump_json_value e))) by (unfold row; by rewrite key_norm).
  assert (Kal : key "alert" row = Ok (norm shown)) by (unfold row; by rewrite key_norm).
  assert (Kha : key "paper_halt" row = Ok (JBool true)) by (unfold row; by rewrite key_norm).
  assert (Kid : key "incident_id" (norm (model_dump_json_value e)) = Ok (JStr (ae_incident_id e))).
  { rewrite key_norm, (validate_incident _ _ He). done. }
  assert (Hnew : ae_incident_id e ∉ seen).
  { intros Hin. apply list_elem_of_lookup in Hin as [k Hk]. destruct (Forall2_lookup_r _ _ _ _ _ F Hk) as (r & Hr & Hri).
    apply list_elem_of_lookup_2 in Hr. pose proof (filterR_none _ _ _ Hf Hr) as Hno. unfold records_incident in Hno. unbind Hri v Ev. rewrite Ev in Hno.
    cbn [mbind res_bind] in Hno. rewrite Hri in Hno. cbn [mbind res_bind] in Hno. by rewrite same_refl in Hno. }
  split; [|split; [|split]].
  - apply (snapshot_make _ _ _ (seen ++ [ae_incident_id e])); [exact Hc'|rewrite length_app; cbn; lia|]. rewrite foldR_app, Hseen. cbn [mbind res_bind foldR].
    unfold snapshot_step. rewrite Kev. cbn [mbind res_bind]. rewrite validate_event_norm, He. cbn [mbind res_bind]. rewrite bool_decide_false by done.
    cbn [raise_if mbind res_bind]. rewrite Kal. cbn [mbind res_bind]. rewrite Hshown. cbn [mbind res_bind]. rewrite same_norm. cbn [raise_unless mbind res_bind].
    by rewrite Kha.
  - apply (filterR_app _ _ _ [] [row]); [exact Hf|]. cbn [filterR]. unfold records_incident. rewrite Kev. cbn [mbind res_bind]. rewrite Kid. cbn [mbind res_bind].
    by rewrite same_refl.
  - unfold expect. rewrite Kev. cbn [mbind res_bind]. by rewrite same_norm.
  - split; [set_solver|]. split; [exists (norm (model_dump_json_value e)); split; [exact Kev|apply same_norm]|]. split; [|exact Kha].
    exists (norm shown), shown. split; [done|]. split; [exact Kal|apply same_norm].
Qed.
Lemma accept_error e head crash l l' x : accept e head crash l = (l', Err x) -> l' = l \/ exists h, accept e head None l = (l', Ok h).
Proof.
  intros E. unfold accept in E. apply owned_cases in E as [(_ & -> & _)|(Hlock & s & E & ->)]; [by left|].
  assert (Hl : with_alert_lock false (with_alert_lock true l) = l) by (destruct l; cbn in *; by subst).
  apply bind_cases in E as [(l0 & s1 & E1 & E)|(y & E1 & _)]; [|discriminate E1]. injection E1 as <- <-.
  apply bind_cases in E as [(rows & s1 & [-> Hrows]%lift_cases & E)|(y & [-> _]%lift_cases & _)]; [|by left].
  apply bind_cases in E as [(known & s1 & [-> Hknown]%lift_cases & E)|(y & [-> _]%lift_cases & _)]; [|by left].
  destruct known as [|row rest].
  2: { apply bind_cases in E as [(u1 & s1 & [-> _]%lift_cases & E)|(y & [-> _]%lift_cases & _)]; [discriminate E|by left]. }
  apply bind_cases in E as [(u1 & s1 & [-> E1]%lift_cases & E)|(y & [-> _]%lift_cases & _)]; [|by left].
  apply bind_cases in E as [(u2 & s1 & [-> _]%lift_cases & E)|(y & [-> _]%lift_cases & _)]; [|by left].
  apply bind_cases in E as [(shown & s1 & [-> Hshown]%lift_cases & E)|(y & [-> _]%lift_cases & _)]; [|by left].
  apply bind_cases in E as [(h & s1 & Ea & E)|(y & Ea & _)].
  2: { apply focus_cases in Ea as (t & Et%append_error & ->). subst t. left. destruct l; cbn in *; by subst. }
  apply bind_cases in E as [(u3 & s2 & [-> _]%lift_cases & E)|(y & [-> _]%lift_cases & _)]; [discriminate E|]. right. exists h.
  unfold accept, owned. rewrite Hlock. cbv [mbind exec_bind get lift]. rewrite <- Hrows. rewrite <- Hknown. rewrite <- E1.
  unfold alert_crash at 1. cbv [lift]. rewrite bool_decide_false by done. rewrite <- Hshown.
  destruct (focus al_records with_alerts _ _) as [s3 r3] eqn:Ef. apply pair_equal_spec in Ea as [-> ->]. unfold alert_crash. cbv [lift].
  rewrite bool_decide_false by done. reflexivity.
Qed.

(** Accepting an incident.  If it returns, the ledger holds exactly one record of it, with
    its alert and the halt, after the records that were there; the same event, accepted
    again after whatever crash point, changes nothing and returns the same head.  If it
    fails, the ledger is unchanged, or is what the undisturbed call would have left. *)
Theorem accept_outcomes e head crash l l' r : validate_event (model_dump_json_value e) = Ok e -> accept e head crash l = (l', r) ->
  match r with
  | Err _ => l' = l \/ exists h, accept e head None l = (l', Ok h)
  | Ok h => exists rows rows', snapshot (al_records l) head = Ok rows /\ snapshot (al_records l') h = Ok rows' /\
      ((l' = l /\ rows' = rows) \/ exists row, rows' = rows ++ [row] /\ recorded e rows' row /\ filterR (records_incident e) rows = Ok []) /\
      (exists row, row ∈ rows' /\ expect "INCIDENT_CONFLICT" "event" row (model_dump_json_value e) = Ok tt) /\
      forall crash', accept e h crash' l' = (l', Ok h)
  end.
Proof.
  intros He E. destruct r as [h|x]; [|by eapply accept_error].
  apply accept_body in E as (Hl & Hl' & rows & known & Hs & Hf & [(-> & -> & row & rest & -> & Hex)|(-> & Hlen & shown & rows0 & head0 & Hshown & Ha)]).
  - exists rows, rows. split; [exact Hs|]. split; [exact Hs|]. split; [by left|]. split.
    + exists row. split; [|exact Hex]. apply (filterR_elem _ _ _ row Hf). by left.
    + intros crash'. by eapply accept_known.
  - destruct (accept_recorded _ _ _ _ _ _ _ _ _ He Hshown Hs Hf Hlen Ha) as (Hs' & Hf' & Hex & Hrec).
    eexists rows, _. split; [exact Hs|]. split; [exact Hs'|]. split; [right; eexists; split; [reflexivity|by split]|]. split.
    + eexists. split; [|exact Hex]. set_solver.
    + intros crash'. by eapply accept_known.
Qed.
End accept.

(** ** Assurance *)

Section assurance.
Context `{EventModel} `{TruthModel}.
Context (t : Truth) (expected_truth run_id session_date : string) (events : list AcceptedEvent) (alerts : list json).
Context (accepted : list (string * AcceptedEvent)).
Implicit Types (i : Incident) (s : Assured).

Definition evidence_of i : string := sha (canonical (model_dump_json_value i)).
(** An alert of the ledger that was emitted for the accepted event of the incident, in
    time. *)
Record alerted i (a : Alarm) : Prop := {
  al_listed : am_row a ∈ alerts;
  al_event : exists e, e ∈ events /\ ae_incident_id e = ic_id i /\ bound_event i run_id (evidence_of i) e = true /\
    satisfies i (evidence_of i) (Some e) (am_row a) = Ok true;
  al_id : key "alert_id" (am_row a) = Ok (JStr (am_id a));
  al_at : instant_at "timestamp" (am_row a) = Ok (am_at a);
  al_timely : timely i a
}.
Definition critical i : bool := bool_decide (ic_severity i = "CRITICAL"%string).

Lemma accept_candidates l : foldR accept_candidate [] l = Ok accepted -> forall id e, find accepted id = Some e -> e ∈ l /\ ae_incident_id e = id.
Proof.
  intros E. apply (foldR_prefix_inv (fun pre acc => forall id e, find acc id = Some e -> e ∈ pre /\ ae_incident_id e = id) accept_candidate [] l accepted);
    [|done|exact E].
  intros pre c post acc acc' _ IH Es id e Hf. unfold accept_candidate in Es. unbind Es u1 E1. apply Ok_inj in Es. subst acc'.
  rewrite find_store in Hf. destruct (decide (ae_incident_id c = id)) as [Hid|Hid].
  - injection Hf as ->. split; [set_solver|done].
  - destruct (IH _ _ Hf). split; [set_solver|done].
Qed.

Lemma accepted_all l : foldR accept_candidate [] l = Ok accepted -> forall e, e ∈ l -> find accepted (ae_incident_id e) = Some e.
Proof.
  intros E. apply (foldR_prefix_inv (fun pre acc => forall e, e ∈ pre -> find acc (ae_incident_id e) = Some e) accept_candidate [] l accepted); [|set_solver|exact E].
  intros pre c post acc acc' _ IH Es e He. unfold accept_candidate in Es. unbind Es u1 E1. apply Ok_inj in Es. subst acc'. apply raise_unless_Ok in E1.
  rewrite find_store. apply elem_of_app in He as [He| ->%list_elem_of_singleton]; [|by rewrite decide_True].
  destruct (decide (ae_incident_id c = ae_incident_id e)) as [Hid|Hid]; [|by apply IH]. rewrite Hid, (IH e He) in E1. apply bool_decide_eq_true in E1. by rewrite E1.
Qed.

Lemma report_matches tr h ack ordered_ incidents_ m : list_at "matches" (monitored_report tr h ack ordered_ incidents_ m) =
  Ok ((fun x => JObj [("incident_id", JStr (ma_incident x)); ("alert_id", JStr (ma_alert x)); ("delay_seconds", jdec (ma_delay x))]%string) <$> mg_matched (mn_matching m)).
Proof. unfold list_at, monitored_report. find_key. done. Qed.
Lemma report_missed tr h ack ordered_ incidents_ m : list_at "missed_critical" (monitored_report tr h ack ordered_ incidents_ m) =
  Ok ((JStr ∘ ic_id) <$> List.filter (fun j => critical j && bool_decide (ic_id j ∈ mg_missed (mn_matching m))) incidents_).
Proof. unfold list_at, monitored_report, critical. find_key. reflexivity. Qed.
Lemma monitoring_inv truth ledger h acks res_ measured : Monitoring.monitoring (Some truth) ledger h acks res_ = Ok measured ->
  exists alarms ack tr ordered_ incidents_ m, check_ledger ledger h = Ok alarms /\
    evaluate_monitoring truth alarms res_ = Ok (tr, ordered_, incidents_, m) /\ measured = monitored_report tr h ack ordered_ incidents_ m.
Proof.
  unfold monitoring. intros E. unbind E alarms Ea. unbind E ack Eack. unbind E x Ex. destruct x as [[[tr ordered_] incidents_] m].
  exists alarms, ack, tr, ordered_, incidents_, m. split; [exact Ea|]. split; [exact Ex|]. symmetry. by apply Ok_inj.
Qed.
Lemma evaluate_inv truth alarms res_ tr ordered_ incidents_ m : evaluate_monitoring truth alarms res_ = Ok (tr, ordered_, incidents_, m) ->
  NoDup (am_id <$> alarms) -> model_validate truth = Ok tr /\ incidents_ = sort_by incident_le (th_incidents tr) /\ monitored_ok (th_incidents tr) alarms m.
Proof.
  unfold evaluate_monitoring. intros Ex Hna. unbind Ex u1 E1. unbind Ex t0 E2. unbind Ex u3 E3. unbind Ex m0 E4. apply Ok_inj in Ex. injection Ex as -> <- <- ->.
  unfold validate_truth in E2. unbind E2 t1 Et. apply truth_valid_inv in E2 as (-> & Hv & Hni). split; [exact Et|]. split; [done|].
  eapply measured_ok; [reflexivity..|exact Hna|exact Hni| |exact E4]. eapply Forall_impl; [exact Hv|]. intros j Hj%incident_window. lia.
Qed.
Lemma projection_read i projected tr : projection t i = Ok projected -> model_validate projected = Ok tr -> th_incidents tr = [i].
Proof.
  unfold projection. intros Hp Et. unbind Hp flds_ Ef. apply Ok_inj in Hp. rewrite <- Hp in Et. eapply truth_incident; [|exact Et].
  rewrite find_store_ne by discriminate. apply find_store_eq.
Qed.
(** The measurement of one incident. *)
Lemma measured_one i eligible h projected measured : projection t i = Ok projected ->
  Monitoring.monitoring (Some projected) eligible h [] [] = Ok measured ->
  exists alarms m, monitored_ok [i] alarms m /\ Forall2 (fun v a => am_row a = v /\ key "alert_id" v = Ok (JStr (am_id a)) /\ instant_at "timestamp" v = Ok (am_at a)) eligible alarms /\
    list_at "matches" measured = Ok ((fun x => JObj [("incident_id", JStr (ma_incident x)); ("alert_id", JStr (ma_alert x)); ("delay_seconds", jdec (ma_delay x))]%string)
      <$> mg_matched (mn_matching m)) /\
    list_at "missed_critical" measured = Ok ((JStr ∘ ic_id) <$> List.filter (fun j => critical j && bool_decide (ic_id j ∈ mg_missed (mn_matching m))) [i]).
Proof.
  intros Hp (alarms & ack & tr & ordered_ & incidents_ & m & Ea & Ex & ->)%monitoring_inv. destruct (check_ledger_alarms _ _ _ Ea) as (_ & Hna & F).
  destruct (evaluate_inv _ _ _ _ _ _ _ Ex Hna) as (Et & -> & Hok). rewrite (projection_read _ _ _ Hp Et) in Hok |- *. exists alarms, m.
  split; [exact Hok|]. split; [exact F|]. split; [apply report_matches|exact (report_missed tr h ack ordered_ [i] m)].
Qed.

(** The alerts that an assurance used, one for each critical incident that is not missed. *)
Record assured_of (pre : list Incident) s : Prop := {
  ar_obligations : length (as_obligations s) = length (List.filter critical pre);
  ar_bound : Forall (fun i => ic_run_id i = run_id /\ date_text (ic_session_date i) = session_date) pre;
  ar_alarms : exists alarms, Forall2 (fun v a => key "alert_id" v = Ok (JStr (am_id a))) (as_matches s) alarms /\
    exists hit missed, List.filter critical pre ≡ₚ hit ++ missed /\ Forall2 alerted hit alarms /\ as_missed s = (JStr ∘ ic_id) <$> missed /\
      Forall (fun i => forall a, ~ alerted i a) missed
}.
Lemma assure_step_ok pre s i s' : (forall id e, find accepted id = Some e -> e ∈ events /\ ae_incident_id e = id) ->
  (forall e, e ∈ events -> find accepted (ae_incident_id e) = Some e) -> assured_of pre s -> assure_step t expected_truth run_id session_date accepted alerts s i = Ok s' -> assured_of (pre ++ [i]) s'.
Proof.
  intros Hacc Hall [O B (alarms & A & hit & missed & P & F & M & N)] E. unfold assure_step in E. unbind E u1 E1. apply raise_unless_Ok in E1. bool_inv.
  assert (B' : Forall (fun i => ic_run_id i = run_id /\ date_text (ic_session_date i) = session_date) (pre ++ [i])) by (apply Forall_app; by repeat constructor).
  assert (Hfilter : List.filter critical (pre ++ [i]) = List.filter critical pre ++ if critical i then [i] else []) by (rewrite List.filter_app; cbn; by destruct (critical i)).
  fold (critical i) in E. destruct (critical i) eqn:Hc; cbn [negb] in E.
  2: { apply Ok_inj in E. subst s'. rewrite app_nil_r in Hfilter. split; rewrite ?Hfilter; [exact O|exact B'|]. exists alarms. split; [exact A|]. exists hit, missed. by split_and!. }
  unbind E u2 E2. unbind E eligible E3. unbind E proj_ E4. unbind E meas_ E5. unbind E matches_ E6. unbind E missed_ E7. unbind E dup_ E8. unbind E late_ E9.
  apply Ok_inj in E. subst s'. fold (evidence_of i) in *. apply raise_unless_Ok in E2.
  destruct (measured_one _ _ _ _ _ E4 E5) as (own & m & [R1 R2 R3 R4 _ _ _ _ _] & Fown & Em & Ek). rewrite E6 in Em. rewrite E7 in Ek.
  apply Ok_inj in Em, Ek. subst matches_ missed_. cbn [List.filter] in *. rewrite Hc. cbn [andb].
  assert (Hown : forall a, a ∈ own -> timely i a -> alerted i a).
  { intros a Ha Ht. apply list_elem_of_lookup in Ha as [k Hk]. destruct (Forall2_lookup_r _ _ _ _ _ Fown Hk) as (v & Hv & <- & Hid & Hat).
    apply list_elem_of_lookup_2 in Hv. destruct (filterR_elem _ _ _ _ E3 Hv) as [Hs Hin]. destruct (find accepted (ic_id i)) as [e|] eqn:He; [|discriminate Hs].
    destruct (Hacc _ _ He) as [He1 He2]. split; try done. by exists e. }
  cbn [fmap list_fmap] in R1. destruct (mg_matched (mn_matching m)) as [|x found] eqn:Em.
  - assert (Hmiss : mg_missed (mn_matching m) = [ic_id i]) by (by apply Permutation_singleton_r in R1).
    rewrite Hmiss, bool_decide_true by (by left). cbn [as_obligations as_matches as_missed fmap list_fmap].
    split; [cbn; rewrite length_app, O, Hfilter, length_app; cbn; lia|exact B'|]. exists alarms. cbn. rewrite app_nil_r. split; [exact A|].
    exists hit, (missed ++ [i]). split; [by rewrite Hfilter, P, app_assoc|]. split; [exact F|]. split; [by rewrite M, fmap_app|].
    apply Forall_app. split; [exact N|]. constructor; [|constructor]. intros a [Hl (e & He & Hid & Hb & Hs) Hk Hat Ht].
    pose proof (Hall e He) as Hfind. rewrite Hid in Hfind. rewrite Hfind in E3.
    pose proof (filterR_complete _ _ _ _ E3 Hl Hs) as Hel. apply list_elem_of_lookup in Hel as [k Hel].
    destruct (Forall2_lookup_l _ _ _ _ _ Fown Hel) as (b & Hbi & Hrow & _ & Hbat). apply list_elem_of_lookup_2 in Hbi.
    assert (Htb : timely i b) by (unfold timely, signals in *; rewrite Hrow; rewrite Hat in Hbat; apply Ok_inj in Hbat; by rewrite <- Hbat).
    apply (R4 i b) in Htb; [by apply elem_of_nil in Htb|by left|rewrite Hmiss; by left|exact Hbi].
  - assert (Hnil : found = [] /\ mg_missed (mn_matching m) = []).
    { apply Permutation_length in R1. rewrite !fmap_cons in R1. cbn in R1. rewrite length_app, length_fmap in R1. destruct found, (mg_missed (mn_matching m)); cbn in R1; by try lia. }
    destruct Hnil as [-> Hmiss]. rewrite Hmiss, bool_decide_false by (by intros ?%elem_of_nil). cbn [as_obligations as_matches as_missed fmap list_fmap].
    destruct (R3 x ltac:(by left)) as (j & a & ->%list_elem_of_singleton & _ & Ha & Hid & Ht & _ & _).
    split; [cbn; rewrite length_app, O, Hfilter, length_app; cbn; lia|exact B'|]. exists (alarms ++ [a]). split.
    { apply Forall2_app; [exact A|]. constructor; [|constructor]. unfold key. rewrite find_miss, find_hit by discriminate. cbn. by rewrite Hid. }
    exists (hit ++ [i]), missed. split; [rewrite Hfilter, P; solve_Permutation|]. split; [apply Forall2_app; [exact F|]; constructor; [by apply Hown|constructor]|].
    cbn. rewrite app_nil_r. split; [exact M|exact N].
Qed.
End assurance.

(** C4. An assurance.  The truth is the expected one and has a critical incident; all its
    incidents are of the run and the day.  The critical incidents fall into those that
    were alerted - each with an alert of its own, listed in the ledger, emitted for the
    accepted event that is bound to the incident and its evidence, between the start and
    the deadline of the incident - and those that are missed, for which the ledger has no
    such alert.  The run may be certified exactly if there is none of the latter, and it
    stays halted in any case. *)
Theorem assurance_sound `{EventModel} `{TruthModel} truth expected_truth events alerts expected_alert_hash run_id session_date policy halt report :
  assure truth expected_truth events alerts expected_alert_hash run_id session_date policy halt = Ok report ->
  exists t alarms hit missed, validate_truth truth = Ok t /\ th_fingerprint t = expected_truth /\
    List.filter critical (th_incidents t) ≡ₚ hit ++ missed /\ hit ++ missed <> [] /\
    Forall (fun i => ic_run_id i = run_id /\ date_text (ic_session_date i) = session_date) (th_incidents t) /\
    Forall2 (alerted run_id events alerts) hit alarms /\ NoDup (am_id <$> alarms) /\
    Forall (fun i => forall a, ~ alerted run_id events alerts i a) missed /\
    key "missing_obligations" report = Ok (JArr ((JStr ∘ ic_id) <$> missed)) /\
    key "certification_eligible" report = Ok (JBool (is_nil missed)) /\ key "paper_halt_required" report = Ok (JBool true).
Proof.
  unfold assure. intros E. unbind E s Es. unbind E late_ E1. unbind E dup_ E2. apply Ok_inj in E. unfold check_assurance in Es.
  unbind Es u3 E3. unbind Es t Et. unbind Es u4 E4. unbind Es u5 E5. unbind Es u6 E6. unbind Es mon_ E7. unbind Es accepted Eacc. unbind Es s0 E8.
  unbind Es u9 E9. unbind Es ids_ E10. unbind Es u11 E11. apply Ok_inj in Es. subst s0. apply raise_unless_Ok in E4, E9, E11. apply bool_decide_eq_true in E4.
  assert (A : assured_of run_id session_date events alerts (th_incidents t) s).
  { apply (foldR_prefix_inv (assured_of run_id session_date events alerts) (assure_step t expected_truth run_id session_date accepted alerts)
      (mkAssured [] [] [] [] []) (th_incidents t) s); [| |exact E8].
    - intros pre i post s1 s2 _ Hs Hstep. eapply assure_step_ok; [by apply accept_candidates|by apply accepted_all|exact Hs|exact Hstep].
    - split; [done|constructor|]. exists []. split; [constructor|]. exists [], []. split_and!; constructor. }
  destruct A as [O B (alarms & M & hit & missed & P & F & Hm & N)]. exists t, alarms, hit, missed.
  assert (Hne : as_obligations s <> []) by (by destruct (as_obligations s)).
  split; [exact Et|]. split; [exact E4|]. split; [exact P|]. split.
  { intros Hnil. rewrite Hnil in P. apply Permutation_nil_r in P. rewrite P in O. by destruct (as_obligations s). }
  split; [exact B|]. split; [exact F|]. split.
  { assert (Hids : ids_ = JStr <$> (am_id <$> alarms)).
    { clear -E10 M. revert ids_ E10. induction M as [|v a ms as_ Hv _ IH]; intros ids_ E; cbn [mapR] in E; [by apply Ok_inj in E as <-|].
      rewrite Hv in E. cbn [mbind res_bind] in E. unbind E r Er. apply Ok_inj in E as <-. by rewrite (IH _ Er). }
    unfold distinct in E11. apply bool_decide_eq_true in E11. rewrite Hids, <- list_fmap_compose in E11. by eapply NoDup_fmap_1. }
  split; [exact N|]. subst report. unfold key. repeat first [rewrite find_hit | rewrite find_miss by discriminate]. cbn [of_option].
  split; [by rewrite Hm|]. split.
  - do 2 f_equal. unfold length_of. rewrite Hm, length_fmap. by destruct missed.
  - do 2 f_equal. destruct (as_obligations s); [done|]. by destruct halt.
Qed.

(** ** Samples *)

Import QualitySample.

Definition event_json (e : AcceptedEvent) : json :=
  JObj [("incident_id", JStr (ae_incident_id e)); ("run_id", JStr (ae_run_id e)); ("session_date", JInt (ae_session_date e));
        ("category", JStr (ae_category e)); ("occurred_at", JInt (ae_occurred_at e)); ("accepted_at", JInt (ae_accepted_at e));
        ("incident_evidence", JStr (ae_evidence e)); ("fingerprint", JStr (ae_fingerprint e))]%string.
#[export] Instance dump_event : DumpJson AcceptedEvent := event_json.
#[export] Instance read_event : ReadJson AcceptedEvent := fun v =>
  incident ← text_at "incident_id" v; run ← text_at "run_id" v; day ← int_at "session_date" v; category ← text_at "category" v;
  occurred ← int_at "occurred_at" v; accepted ← int_at "accepted_at" v; evidence ← text_at "incident_evidence" v;
  fingerprint ← text_at "fingerprint" v;
  Ok (mkAcceptedEvent incident run day category occurred accepted evidence fingerprint).
#[export] Instance sample_event_model : EventModel.
Proof.
  split.
  - intros e. apply unique_obj. split; [apply (bool_decide_eq_true_1 (NoDup _)); vm_compute; reflexivity|]. repeat constructor.
  - intros v. unfold model_validate, read_event. by rewrite !text_at_norm, !int_at_norm.
  - intros v e E. unfold model_validate, read_event in E. unbind E id_ Ei. do 7 (apply bind_Ok in E as (? & _ & E)). apply Ok_inj in E. subst e. cbn.
    destruct v as [| | | | |l]; try discriminate Ei. by rewrite (key_obj _ _ _ (text_at_find _ _ _ Ei)).
Qed.
Definition incident_json (i : Incident) : json :=
  JObj [("incident_id", JStr (ic_id i)); ("run_id", JStr (ic_run_id i)); ("session_date", JInt (ic_session_date i)); ("category", JStr (ic_category i));
        ("severity", JStr (ic_severity i)); ("start", JInt (ic_start i)); ("end", jopt JInt (ic_end i)); ("expected_alert", JStr (ic_expected_alert i));
        ("deadline", JInt (ic_deadline i)); ("window_end", JInt (ic_window_end i)); ("source_id", JStr (ic_source_id i))]%string.
#[export] Instance dump_incident : DumpJson Incident := incident_json.
Definition parse_incident (v : json) : res Incident :=
  id ← text_at "incident_id" v; run ← text_at "run_id" v; day ← int_at "session_date" v; category ← text_at "category" v;
  severity ← text_at "severity" v; start ← int_at "start" v; end_ ← key "end" v;
  end_ ← match end_ with JNull => Ok None | JInt n => Ok (Some n) | _ => Err TypeError end;
  expected ← text_at "expected_alert" v; deadline ← int_at "deadline" v; window ← int_at "window_end" v; source ← text_at "source_id" v;
  Ok (mkIncident id run day category severity start end_ expected deadline window source).
#[export] Instance dump_truth : DumpJson Truth := fun t =>
  JObj [("policy_hash", JStr (th_policy_hash t)); ("incidents", JArr (incident_json <$> th_incidents t)); ("fingerprint", JStr (th_fingerprint t))]%string.
#[export] Instance read_truth : ReadJson Truth := fun v =>
  policy ← text_at "policy_hash" v; l ← list_at "incidents" v; incidents ← mapR parse_incident l; fingerprint ← text_at "fingerprint" v;
  Ok (mkTruth policy incidents fingerprint).
#[export] Instance sample_truth_model : TruthModel.
Proof.
  intros l i t Hf E. unfold model_validate, read_truth in E. unbind E policy Ep. unbind E js Ej. unbind E own_ Eo. unbind E fp_ Ef. apply Ok_inj in E. subst t. cbn.
  unfold list_at in Ej. rewrite (key_obj _ _ _ Hf) in Ej. cbn [mbind res_bind elements_of] in Ej. apply Ok_inj in Ej. subst js.
  assert (Hp : parse_incident (model_dump_json_value i) = Ok i) by (by destruct i as [? ? ? ? ? ? [] ? ? ? ?]).
  cbn [mapR] in Eo. rewrite Hp in Eo. by apply Ok_inj in Eo.
Qed.

(** One critical incident, accepted five seconds after its start; its alert is emitted. *)
Definition gap_start : Z := 1728013500000000.
Definition gap : Incident :=
  mkIncident "gap" "run" (nse_date gap_start) "DATA_GAP" "CRITICAL" gap_start None "DATA_GAP" (gap_start + 60 * SECOND) (gap_start + 120 * SECOND) "source".
Definition unsealed_truth : Truth := mkTruth (sha (canonical MONITORING_POLICY)) [gap] "".
Definition gap_truth : Truth := mkTruth (th_policy_hash unsealed_truth) [gap] (sha (canonical (unfingered (model_dump_json_value unsealed_truth)))).
Definition unsealed_event : AcceptedEvent :=
  mkAcceptedEvent "gap" "run" (nse_date gap_start) "DATA_GAP" gap_start (gap_start + 5 * SECOND) (sha (canonical (model_dump_json_value gap))) "".
Definition gap_event : AcceptedEvent :=
  mkAcceptedEvent "gap" "run" (nse_date gap_start) "DATA_GAP" gap_start (gap_start + 5 * SECOND) (ae_evidence unsealed_event)
    (sha (canonical (unfingered (model_dump_json_value unsealed_event)))).
Definition gap_alerts : list json := match emitted gap_event with Ok a => [a] | Err _ => [] end.
Notation sample_assurance :=
  (assure (model_dump_json_value gap_truth) (th_fingerprint gap_truth) [gap_event] gap_alerts (sha (canonical (JArr gap_alerts))) "run" "2024-10-04"
     (th_policy_hash gap_truth) false).
Lemma gap_valid : validate_event (model_dump_json_value gap_event) = Ok gap_event.
Proof. vm_compute. reflexivity. Qed.
Lemma ledger_accepted : exists l h, accept gap_event ZERO None (mkAlertLedger None false) = (l, Ok h) /\
  base.size (files_of (al_records l)) = 1%nat.
Proof.
  assert (E : (fun x => (is_ok x.2, base.size (files_of (al_records x.1)))) (accept gap_event ZERO None (mkAlertLedger None false)) = (true, 1%nat))
    by (vm_compute; reflexivity).
  destruct (accept gap_event ZERO None (mkAlertLedger None false)) as [l [h|e]]; cbn [fst snd is_ok] in E; [|discriminate E].
  exists l, h. split; [reflexivity|]. by injection E.
Qed.
Lemma gap_assured : (v ← sample_assurance; key "certification_eligible" v) = Ok (JBool true).
Proof. vm_compute. reflexivity. Qed.

(** ** Witnesses *)

Lemma accept_outcomes_witness : exists l h rows, accept gap_event ZERO None (mkAlertLedger None false) = (l, Ok h) /\
  snapshot (al_records l) h = Ok rows /\ accept gap_event h None l = (l, Ok h).
Proof.
  destruct ledger_accepted as (l & h & E & _).
  destruct (accept_outcomes gap_event ZERO None (mkAlertLedger None false) l (Ok h) gap_valid E) as (_ & rows & _ & Hs & _ & _ & Hagain).
  exists l, h, rows. split; [exact E|]. split; [exact Hs|exact (Hagain None)].
Defined.
Lemma assurance_sound_witness : exists report t alarms hit, sample_assurance = Ok report /\ validate_truth (model_dump_json_value gap_truth) = Ok t /\
  List.filter critical (th_incidents t) ≡ₚ hit /\ Forall2 (alerted "run" [gap_event] gap_alerts) hit alarms /\ hit <> [].
Proof.
  pose proof gap_assured as E. apply bind_Ok in E as (report & Er & Ek).
  destruct (assurance_sound (model_dump_json_value gap_truth) (th_fingerprint gap_truth) [gap_event] gap_alerts (sha (canonical (JArr gap_alerts))) "run" "2024-10-04"
    (th_policy_hash gap_truth) false report Er) as (t & alarms & hit & missed & Ht & _ & P & Hne & _ & F & _ & _ & _ & Hc & _).
  rewrite Ek in Hc. apply Ok_inj in Hc. destruct missed as [|i missed]; [|discriminate Hc]. rewrite app_nil_r in P, Hne.
  exists report, t, alarms, hit. split; [exact Er|]. split; [exact Ht|]. split; [exact P|]. split; [exact F|exact Hne].
Defined.
