(* ===== verification/Replay.v ===== *)
(** * The replay ledger ([phase1444c/replay.py], [crypto.py]; [phase1444b/trust.py])

    A durable ledger of synthetic decisions: a decision is consumed at most once, never
    after it was revoked, and every change is an event of a chain from which the other
    tables are derived.  [validate] derives them again before every operation.

    [Db] is the content of the SQLite file: the result of its own check, its schema, and
    its tables - the events in the order of their number, the consumed decisions by their
    primary key, and the set of revocations.  Operations run between [BEGIN IMMEDIATE]
    and [commit], so that they follow one another; an exception before the commit, like a
    crash, leaves the file as it was ([transaction]).  The readings of the clock and the
    two hooks around the commit are arguments, and may raise. *)
From S2P Require Import Prelude Text Dataset MoneyFacts Json JsonFacts JsonRead Research Exec Chain PyText Multi Attribution Authority.
From Stdlib Require Import Ascii.
Open Scope list_scope.
Open Scope Z_scope.

(** ** Instants *)

(** [t.strftime("%Y-%m-%dT%H:%M:%S.%fZ")], the year in four digits as on Windows, for
    which the program is written. *)
Definition stamp (t : Z) : string :=
  let tod := t mod DAY in
  (date_text (t / DAY) +:+ "T" +:+ time_hm_text tod +:+ ":" +:+ pad_digits 2 (tod / SECOND mod 60)%Z
   +:+ "." +:+ pad_digits 6 (tod mod SECOND)%Z +:+ "Z")%string.
(** [datetime.strptime(value, "%Y-%m-%dT%H:%M:%S.%fZ")] of a text with all its digits; the
    others, which it may accept, are not canonical. *)
Definition strptime (value : string) : option Z :=
  let l := text value in
  if negb (separators_ok l && bool_decide (slice 19 1 l = text ".") && bool_decide (drop 26 l = text "Z")) then None
  else
    y ← number_at 0 4 l; m ← number_at 5 2 l; d ← number_at 8 2 l;
    hh ← number_at 11 2 l; mi ← number_at 14 2 l; ss ← number_at 17 2 l; us ← number_at 20 6 l;
    if (1 <=? y) && (1 <=? m) && (m <=? 12) && (1 <=? d) && (d <=? month_days y m) && (hh <=? 23) && (mi <=? 59) && (ss <=? 59)
    then Some (civil_days y m d * DAY + hh * HOUR + mi * MINUTE + ss * SECOND + us) else None.
Definition instant (value : string) : res Z :=
  parsed ← of_option (ValueError "NONCANONICAL_TIME") (strptime value);
  require! bool_decide (stamp parsed = value) else "NONCANONICAL_TIME";
  Ok parsed.

(** An aware or naive [datetime]: its instant, and its offset from UTC. *)
Record Reading := mkReading { rd_at : Z; rd_offset : option Z }.
Definition is_utc (r : Reading) : bool := bool_decide (rd_offset r = Some 0).
(** The years of a UTC [datetime]. *)
Definition FIRST_INSTANT : Z := civil_days 1 1 1 * DAY.
Definition END_INSTANT : Z := civil_days 10000 1 1 * DAY.
Definition is_datetime (t : Z) : bool := (FIRST_INSTANT <=? t) && (t <? END_INSTANT).

(** ** Synthetic decisions *)

Definition BASELINE : string := "c46db6308dd8466be604473133ab4ead14290d75".
Definition AMENDMENT_RAW : string := "78f508939a1a050b7b2e90005e11f81e8262147a207144b88514fc467ab9f6fd".
Definition AMENDMENT_CANONICAL : string := "36a79d7a4e43f0bd9ac4f93a9d0258918eb7a22692efce41f4d465fd59ce47c4".
Definition CERTIFICATE : string := "ec3a30573abe7068d540523de1bc570fc0a6b8553119f60755bb934b3a9a9db1".

Definition is_identifier_char (c : ascii) : bool := is_upper c || is_lower c || is_digit c || is_punct c || is_char 58 c.
(** [^[A-Za-z0-9_.:-]+$] of at most 128 characters. *)
Definition is_identifier (s : string) : bool := (1 <=? len s) && (len s <=? 128) && all_chars is_identifier_char s.

Record SyntheticDecision := mkSynthetic {
  sd_decision_id : string; sd_nonce : string; sd_signed_payload : string; sd_owner : string; sd_root : string; sd_key : string;
  sd_enrollment : option string; sd_enrolled : bool; sd_baseline : string; sd_amendment_raw : string;
  sd_amendment_canonical : string; sd_certificate : string; sd_approval : string; sd_expiry : string;
  sd_trusted_time : option string
}.
#[export] Instance synthetic_eq_dec : EqDecision SyntheticDecision.
Proof. solve_decision. Defined.

Definition opt_text (o : option string) : json := match o with Some s => JStr s | None => JNull end.
(** [decision.model_dump()] *)
Definition model_dump (d : SyntheticDecision) : json :=
  JObj [("version", JStr "Phase1444CSyntheticDecision.v1"); ("source", JStr "TEST_ONLY"); ("action", JStr "TEST_LEDGER_CONSUMPTION");
        ("decision_id", JStr (sd_decision_id d)); ("nonce", JStr (sd_nonce d));
        ("signed_payload_fingerprint", JStr (sd_signed_payload d)); ("owner_authority_reference", JStr (sd_owner d));
        ("trust_root_fingerprint", JStr (sd_root d)); ("key_reference", JStr (sd_key d));
        ("enrollment_reference", opt_text (sd_enrollment d)); ("enrolled_fixture", JBool (sd_enrolled d));
        ("source_git_baseline", JStr (sd_baseline d)); ("amendment_raw", JStr (sd_amendment_raw d));
        ("amendment_canonical", JStr (sd_amendment_canonical d)); ("certificate", JStr (sd_certificate d));
        ("approval_timestamp", JStr (sd_approval d)); ("expiry", JStr (sd_expiry d));
        ("trusted_time_reference", opt_text (sd_trusted_time d))]%string.
Definition synthetic_keys : list string :=
  ["version"; "source"; "action"; "decision_id"; "nonce"; "signed_payload_fingerprint"; "owner_authority_reference";
   "trust_root_fingerprint"; "key_reference"; "enrollment_reference"; "enrolled_fixture"; "source_git_baseline"; "amendment_raw";
   "amendment_canonical"; "certificate"; "approval_timestamp"; "expiry"; "trusted_time_reference"]%string.

Definition INVALID : exn := ValueError "ValidationError".
(** A field of a strict model: its value, or its default. *)
Definition field_value (default : option json) (k : string) (l : list (string * json)) : res json :=
  match find l k, default with
  | Some v, _ => Ok v
  | None, Some v => Ok v
  | None, None => Err INVALID
  end.
Definition text_field (p : string -> bool) (default : option string) (k : string) (l : list (string * json)) : res string :=
  v ← field_value (JStr <$> default) k l;
  match v with JStr s => if p s then Ok s else Err INVALID | _ => Err INVALID end.
Definition optional_hash (k : string) (l : list (string * json)) : res (option string) :=
  v ← field_value None k l;
  match v with JNull => Ok None | JStr s => if hash_ok s then Ok (Some s) else Err INVALID | _ => Err INVALID end.
Definition bool_field (k : string) (l : list (string * json)) : res bool :=
  v ← field_value None k l;
  match v with JBool b => Ok b | _ => Err INVALID end.
Definition literal (s k : string) (l : list (string * json)) : res string := text_field (fun t => bool_decide (t = s)) (Some s) k l.

(** [SyntheticDecision.model_validate(v)] *)
Definition model_validate (v : json) : res SyntheticDecision :=
  match v with
  | JObj l =>
      if negb (forallb (fun k => bool_decide (k ∈ synthetic_keys)) l.*1) then Err INVALID
      else
        _ ← literal "Phase1444CSyntheticDecision.v1" "version" l;
        _ ← literal "TEST_ONLY" "source" l;
        _ ← literal "TEST_LEDGER_CONSUMPTION" "action" l;
        decision_id ← text_field is_identifier None "decision_id" l;
        nonce ← text_field hash_ok None "nonce" l;
        signed_payload ← text_field hash_ok None "signed_payload_fingerprint" l;
        owner ← text_field is_identifier None "owner_authority_reference" l;
        root ← text_field hash_ok None "trust_root_fingerprint" l;
        key_reference ← text_field is_identifier None "key_reference" l;
        enrollment ← optional_hash "enrollment_reference" l;
        enrolled ← bool_field "enrolled_fixture" l;
        baseline ← text_field (fun _ => true) (Some BASELINE) "source_git_baseline" l;
        raw ← text_field hash_ok (Some AMENDMENT_RAW) "amendment_raw" l;
        canonical_ ← text_field hash_ok (Some AMENDMENT_CANONICAL) "amendment_canonical" l;
        certificate ← text_field hash_ok (Some CERTIFICATE) "certificate" l;
        approval ← text_field (fun t => is_ok (instant t)) None "approval_timestamp" l;
        expiry ← text_field (fun t => is_ok (instant t)) None "expiry" l;
        trusted_time ← optional_hash "trusted_time_reference" l;
        Ok (mkSynthetic decision_id nonce signed_payload owner root key_reference enrollment enrolled baseline raw canonical_
              certificate approval expiry trusted_time)
  | _ => Err INVALID
  end.

Definition is_some {A} (o : option A) : bool := match o with Some _ => true | None => false end.
Definition check_fixture (decision : SyntheticDecision) (now : Reading) : res unit :=
  _ ← model_validate (model_dump decision);
  require! bool_decide (sd_baseline decision = BASELINE) else "WRONG_BASELINE";
  require! bool_decide (sd_amendment_raw decision = AMENDMENT_RAW) else "WRONG_AMENDMENT_RAW";
  require! bool_decide (sd_amendment_canonical decision = AMENDMENT_CANONICAL) else "WRONG_AMENDMENT_CANONICAL";
  require! bool_decide (sd_certificate decision = CERTIFICATE) else "WRONG_CERTIFICATE";
  require! sd_enrolled decision && is_some (sd_enrollment decision) else "OWNER_NOT_ENROLLED";
  require! is_some (sd_trusted_time decision) else "TRUSTED_TIME_UNVERIFIED";
  require! is_utc now else "UTC_REQUIRED";
  start ← instant (sd_approval decision);
  stop ← instant (sd_expiry decision);
  require! stop - start =? 168 * HOUR else "WRONG_VALIDITY";
  require! (start <=? rd_at now) && (rd_at now <? stop) else "EXPIRED_OR_FUTURE";
  Ok tt.

(** ** The file *)

Record EventRow := mkEventRow { ev_seq : Z; ev_previous : string; ev_body : bytes; ev_digest : string }.
Record Db := mkDb {
  db_sound : bool; db_schema : gmap string string; db_metadata : list (string * string); db_events : list EventRow;
  db_consumed : gmap string (string * bytes); db_revoked : gset (string * string)
}.
Definition with_events (l : list EventRow) (d : Db) : Db :=
  mkDb (db_sound d) (db_schema d) (db_metadata d) l (db_consumed d) (db_revoked d).
Definition with_consumed (m : gmap string (string * bytes)) (d : Db) : Db :=
  mkDb (db_sound d) (db_schema d) (db_metadata d) (db_events d) m (db_revoked d).
Definition with_revoked (s : gset (string * string)) (d : Db) : Db :=
  mkDb (db_sound d) (db_schema d) (db_metadata d) (db_events d) (db_consumed d) s.

Definition LEDGER_VERSION : string := "Phase1444CDurableReplayLedger.v1.TEST_ONLY".
Definition SCHEMA : gmap string string := list_to_map
  [("metadata", "CREATE TABLE metadata (identity TEXT PRIMARY KEY, version TEXT NOT NULL)");
   ("events", "CREATE TABLE events (seq INTEGER PRIMARY KEY, previous TEXT NOT NULL, body TEXT NOT NULL, digest TEXT NOT NULL)");
   ("consumed", "CREATE TABLE consumed (decision_id TEXT PRIMARY KEY, nonce TEXT UNIQUE NOT NULL, record TEXT NOT NULL)");
   ("revoked", "CREATE TABLE revoked (kind TEXT NOT NULL, reference TEXT NOT NULL, PRIMARY KEY (kind, reference))")]%string.

(** [sha(prior.encode() + b"\0" + body.encode())] *)
Definition link (prior : string) (body : bytes) : string := sha (text prior ++ ascii_of_N 0 :: body).

(** ** Validation *)

(** What the events say: the consumed decisions, the revocations, and the end of the chain. *)
Record Trail := mkTrail {
  tr_expected : gmap string (string * bytes); tr_revoked : list (json * json); tr_previous : string; tr_seq : Z; tr_last : option Z
}.
Definition is_text (s : string) (v : json) : bool := match v with JStr t => bool_decide (t = s) | _ => false end.
(** A value put in a set. *)
Definition hashable (v : json) : res unit := match v with JArr _ | JObj _ => Err TypeError | _ => Ok tt end.
(** [last is None or now >= last] *)
Definition no_rollback (last : option Z) (now : Z) : bool := match last with Some t => t <=? now | None => true end.

Definition event_step (s : Trail) (e : EventRow) : res Trail :=
  require! (ev_seq e =? tr_seq s + 1) && bool_decide (ev_previous e = tr_previous s) else "AUDIT_LINK_CHANGED";
  require! bool_decide (link (ev_previous e) (ev_body e) = ev_digest e) else "AUDIT_HASH_CHANGED";
  event ← json_loads (ev_body e);
  require! unique event && bool_decide (canonical event = ev_body e) else "AUDIT_CANONICAL_CHANGED";
  at_text ← text_at "at" event;
  now ← instant at_text;
  require! no_rollback (tr_last s) now else "CLOCK_ROLLBACK";
  kind ← key "kind" event;
  if is_text "consume" kind then
    record ← key "record" event;
    content ← key "decision" record;
    decision ← model_validate content;
    require! negb (is_some (tr_expected s !! sd_decision_id decision)) else "AUDIT_DUPLICATE";
    Ok (mkTrail (<[sd_decision_id decision := (sd_nonce decision, canonical record)]> (tr_expected s)) (tr_revoked s)
          (ev_digest e) (ev_seq e) (Some now))
  else if is_text "revoke" kind then
    target ← key "target_kind" event;
    reference ← key "reference" event;
    _ ← hashable target;
    _ ← hashable reference;
    Ok (mkTrail (tr_expected s) (tr_revoked s ++ [(target, reference)]) (ev_digest e) (ev_seq e) (Some now))
  else Err (ValueError "UNKNOWN_AUDIT_EVENT").

(** The rows of [revoked] are the revocations of the events, as sets. *)
Definition same_revocations (rows : gset (string * string)) (l : list (json * json)) : bool :=
  forallb (fun r => existsb (fun p => is_text r.1 p.1 && is_text r.2 p.2) l) (elements rows) &&
  forallb (fun p => match p with (JStr k, JStr r) => bool_decide ((k, r) ∈ rows) | _ => false end) l.
Definition trail_start (identity : string) : Trail := mkTrail ∅ [] (sha (text identity)) 0 None.
(** [Ledger._validate] *)
Definition validate (identity : string) (d : Db) : res (string * Z * option Z) :=
  require! db_sound d else "LEDGER_CORRUPT";
  require! bool_decide (db_schema d = SCHEMA) else "LEDGER_SCHEMA_CHANGED";
  require! bool_decide (db_metadata d = [(identity, LEDGER_VERSION)]) else "LEDGER_IDENTITY";
  s ← foldR event_step (trail_start identity) (db_events d);
  require! bool_decide (db_consumed d = tr_expected s) else "CONSUMPTION_TAMPER";
  require! same_revocations (db_revoked d) (tr_revoked s) else "REVOCATION_TAMPER";
  Ok (tr_previous s, tr_seq s, tr_last s).

(** ** Operations *)

(** [BEGIN IMMEDIATE ... commit]: an exception rolls back. *)
Definition transaction {A} (m : exec Db A) : exec Db A := fun d =>
  match m d with (d', Ok a) => (d', Ok a) | (_, Err e) => (d, Err e) end.
(** The insertions, with the constraints of the tables.  An event is put at the end:
    every insertion follows a validation, so that its number is the largest. *)
Definition insert_event (e : EventRow) : exec Db unit :=
  d ← get;
  _ ← lift (if bool_decide (ev_seq e ∈ ev_seq <$> db_events d) then Err IntegrityError else Ok tt);
  modify (fun d => with_events (db_events d ++ [e]) d).
(** [SELECT 1 FROM consumed WHERE decision_id=? OR nonce=?] *)
Definition is_consumed (decision_id nonce : string) (d : Db) : bool :=
  is_some (db_consumed d !! decision_id) || existsb (fun r => bool_decide (r.2.1 = nonce)) (map_to_list (db_consumed d)).
Definition insert_consumed (decision_id nonce : string) (record : bytes) : exec Db unit :=
  d ← get;
  _ ← lift (if is_consumed decision_id nonce d then Err IntegrityError else Ok tt);
  modify (fun d => with_consumed (<[decision_id := (nonce, record)]> (db_consumed d)) d).
Definition insert_revoked (kind reference : string) : exec Db unit :=
  d ← get;
  _ ← lift (if bool_decide ((kind, reference) ∈ db_revoked d) then Err IntegrityError else Ok tt);
  modify (fun d => with_revoked ({[(kind, reference)]} ∪ db_revoked d) d).
(** [Ledger._append] *)
Definition append_event (prior : string) (seq : Z) (event : json) : exec Db string :=
  let body := canonical event in
  let digest := link prior body in
  _ ← insert_event (mkEventRow (seq + 1) prior body digest);
  mret digest.

(** What a decision rests on, as it is named in a revocation. *)
Definition references (decision : SyntheticDecision) : list (string * string) :=
  [("owner", sd_owner decision); ("key", sd_key decision); ("root", sd_root decision);
   ("decision", sd_decision_id decision)]%string.
Definition consumption (decision : SyntheticDecision) (timestamp : string) : json :=
  JObj [("decision", model_dump decision); ("consumption_timestamp", JStr timestamp);
        ("revocation_state", JStr "SYNTHETIC_ACTIVE_AT_COMMIT")]%string.
Definition consume_event (timestamp : string) (record : json) : json :=
  JObj [("kind", JStr "consume"); ("at", JStr timestamp); ("record", record)]%string.
Definition revoke_event (kind reference timestamp : string) : json :=
  JObj [("kind", JStr "revoke"); ("target_kind", JStr kind); ("reference", JStr reference); ("at", JStr timestamp)]%string.

Section ledger.
Context (identity : string).

(** [Ledger.consume_test]; [clock] and [clock_again] are the two readings of the clock. *)
Definition consume_test (decision : SyntheticDecision) (clock clock_again : res Reading) (before_commit after_commit : res unit) :
    exec Db string :=
  decision ← lift (model_validate (model_dump decision));
  _ ← transaction (
    d ← get;
    '(prior, seq, last) ← lift (validate identity d);
    now ← lift clock;
    _ ← lift (check_fixture decision now);
    _ ← lift (raise_unless (no_rollback last (rd_at now)) "CLOCK_ROLLBACK");
    _ ← lift (raise_unless (forallb (fun r => negb (bool_decide (r ∈ db_revoked d))) (references decision)) "REVOKED");
    _ ← lift (raise_unless (negb (is_consumed (sd_decision_id decision) (sd_nonce decision) d)) "DUPLICATE_OR_REPLAY");
    let timestamp := stamp (rd_at now) in
    let record := consumption decision timestamp in
    _ ← insert_consumed (sd_decision_id decision) (sd_nonce decision) (canonical record);
    _ ← append_event prior seq (consume_event timestamp record);
    _ ← lift before_commit;
    final_time ← lift clock_again;
    _ ← lift (check_fixture decision final_time);
    lift (raise_unless (rd_at now <=? rd_at final_time) "CLOCK_ROLLBACK"));
  _ ← lift after_commit;
  mret "TEST_ONLY_CONSUMED_NO_ACTION_AUTHORIZED"%string.

(** [Ledger.revoke_test] *)
Definition revoke_test (kind reference : string) (clock : res Reading) : exec Db unit :=
  _ ← lift (raise_unless (bool_decide (kind ∈ ["owner"; "key"; "root"; "decision"]%string) &&
                          negb (bool_decide (reference = ""%string))) "REVOCATION_SCOPE");
  transaction (
    d ← get;
    '(prior, seq, last) ← lift (validate identity d);
    now ← lift clock;
    _ ← lift (raise_unless (is_utc now) "UTC_REQUIRED");
    _ ← lift (raise_unless (no_rollback last (rd_at now)) "CLOCK_ROLLBACK");
    _ ← insert_revoked kind reference;
    _ ← append_event prior seq (revoke_event kind reference (stamp (rd_at now)));
    mret tt).

(** [Ledger.inspect] *)
Definition inspect (d : Db) : res json :=
  '(head, seq, _) ← validate identity d;
  Ok (JObj [("identity", JStr identity); ("events", JInt seq); ("consumed", JInt (Z.of_nat (base.size (db_consumed d))));
            ("head", JStr head); ("source", JStr "TEST_ONLY"); ("real_authority", JStr "NOT_ESTABLISHED")]%string).
End ledger.

(** The file of a ledger; [None] when it does not exist. *)
Definition fresh (identity : string) : Db := mkDb true SCHEMA [(identity, LEDGER_VERSION)] [] ∅ ∅.
(** [Ledger(path, identity)] and [Ledger.create(path, identity)]. *)
Definition open_ledger (identity : string) : exec (option Db) unit :=
  file ← get;
  d ← lift (of_option (ValueError "LEDGER_UNAVAILABLE_NO_RESET") file);
  _ ← lift (validate identity d);
  mret tt.
Definition create (identity : string) : exec (option Db) unit :=
  _ ← lift (raise_unless (negb (bool_decide (identity = ""%string)) && startswith "TEST_ONLY:" identity) "FIXTURE_ID_REQUIRED");
  file ← get;
  _ ← lift (if is_some file then Err FileExistsError else Ok tt);
  _ ← modify (fun _ => Some (fresh identity));
  open_ledger identity.

(** ** The history of a ledger *)

Definition reading_ok (r : res Reading) : Prop := match r with Ok r => is_datetime (rd_at r) = true | Err _ => True end.
(** Any operation, with any outcome. *)
Inductive ledger_step (identity : string) (d : Db) : Db -> Prop :=
| step_consume decision clock clock_again before after : reading_ok clock ->
    ledger_step identity d (consume_test identity decision clock clock_again before after d).1
| step_revoke kind reference clock : reading_ok clock ->
    ledger_step identity d (revoke_test identity kind reference clock d).1.
