(* ===== verification/ReplayTheorems.v ===== *)
(** * The replay ledger is spent once

    The calendar behind [stamp] and [instant]; what [validate] accepts; the invariant of
    every history; the properties. *)
From S2P Require Import Prelude Text Dataset MoneyFacts Json JsonFacts JsonRead Research Exec Chain PyText Multi Attribution Authority Replay.
From Stdlib Require Import Ascii.
Open Scope list_scope.
Open Scope Z_scope.

(** ** Dates *)

(** The year of a day of an era of 400 years, which begins in March. *)
Definition year_of (doe : Z) := (doe - doe / 1460 + doe / 36524 - doe / 146096) / 365.
Lemma year_of_ok doe : 0 <= doe < 146097 ->
  let yoe := year_of doe in 0 <= yoe < 400 /\ 0 <= doe - (365 * yoe + yoe / 4 - yoe / 100) <= 365.
Proof. intros H yoe. unfold yoe, year_of. (Z.to_euclidean_division_equations; lia). Qed.
(** The last day of a year of 366 days. *)
Lemma year_last doe : 0 <= doe < 146097 ->
  let yoe := year_of doe in doe - (365 * yoe + yoe / 4 - yoe / 100) = 365 ->
  (yoe + 1) mod 4 = 0 /\ ((yoe + 1) mod 100 <> 0 \/ (yoe + 1) mod 400 = 0).
Proof. intros H yoe. unfold yoe, year_of. (Z.to_euclidean_division_equations; lia). Qed.

(** The month and its day, of a day of the year. *)
Definition month_of (doy : Z) := let mp := (5 * doy + 2) / 153 in if mp <? 10 then mp + 3 else mp - 9.
Definition day_of (doy : Z) := let mp := (5 * doy + 2) / 153 in doy - (153 * mp + 2) / 5 + 1.
Lemma month_ok doy : 0 <= doy <= 365 ->
  1 <= month_of doy <= 12 /\ 1 <= day_of doy <= 31 /\
  (month_of doy = 2 -> day_of doy <= 28 \/ (day_of doy = 29 /\ doy = 365)) /\
  (month_of doy = 4 \/ month_of doy = 6 \/ month_of doy = 9 \/ month_of doy = 11 -> day_of doy <= 30) /\
  (153 * (if 2 <? month_of doy then month_of doy - 3 else month_of doy + 9) + 2) / 5 + day_of doy - 1 = doy.
Proof.
  intros H. unfold month_of, day_of. cbv zeta. destruct (Z.ltb_spec ((5 * doy + 2) / 153) 10) as [E|E].
  - destruct (Z.ltb_spec 2 ((5 * doy + 2) / 153 + 3)); (Z.to_euclidean_division_equations; lia).
  - destruct (Z.ltb_spec 2 ((5 * doy + 2) / 153 - 9)); (Z.to_euclidean_division_equations; lia).
Qed.
Lemma month_days_31 y m : month_days y m <= 31.
Proof. unfold month_days. repeat case_match; lia. Qed.
(** The day number of the date of a day. *)
Lemma civil_days_civil n : let '(y, m, d) := civil n in
  civil_days y m d = n /\ 1 <= m <= 12 /\ 1 <= d <= month_days y m.
Proof.
  unfold civil. cbv zeta. 
  pose proof (Z.mod_pos_bound (n + 719468) 146097 ltac:(lia)) as Hd. pose proof (Z.div_mod (n + 719468) 146097 ltac:(lia)) as Hn.
  set (era := (n + 719468) / 146097) in *. set (doe := (n + 719468) mod 146097) in *. clearbody era doe.
  fold (year_of doe). destruct (year_of_ok doe Hd) as [Hy Hdoy]. pose proof (year_last doe Hd) as Hl. cbv zeta in Hy, Hdoy, Hl.
  set (yoe := year_of doe) in *. clearbody yoe. remember (doe - (365 * yoe + yoe / 4 - yoe / 100)) as doy eqn:Edoy.
  destruct (month_ok doy Hdoy) as (M1 & M2 & M3 & M4 & M5).
  change (if (5 * doy + 2) / 153 <? 10 then (5 * doy + 2) / 153 + 3 else (5 * doy + 2) / 153 - 9) with (month_of doy).
  change (doy - (153 * ((5 * doy + 2) / 153) + 2) / 5 + 1) with (day_of doy).
  set (m := month_of doy) in *. set (d := day_of doy) in *. clearbody m d.
  split; [|split; [exact M1|]].
  - unfold civil_days. rewrite M5. destruct (Z.leb_spec m 2).
    + replace (yoe + era * 400 + 1 - 1) with (yoe + era * 400) by lia.
      rewrite Z.div_add, Z.mod_add, Z.div_small, Z.mod_small by lia. lia.
    + replace (yoe + era * 400 + 0) with (yoe + era * 400) by lia.
      rewrite Z.div_add, Z.mod_add, Z.div_small, Z.mod_small by lia. lia.
  - split; [lia|]. unfold month_days. destruct (Z.eqb_spec m 2) as [E|E].
    + destruct (M3 E) as [H|[H H']]; [destruct (leap _); lia|]. assert (leap (yoe + era * 400 + (if m <=? 2 then 1 else 0)) = true) as ->; [|lia].
      subst m. change (2 <=? 2) with true. cbv iota. destruct (Hl H') as [L1 L2]. unfold leap.
      replace (yoe + era * 400 + 1) with (yoe + 1 + (4 * era) * 100) by lia.
      rewrite Z.mod_add by lia. replace (yoe + 1 + 4 * era * 100) with (yoe + 1 + (100 * era) * 4) by lia. rewrite Z.mod_add by lia.
      replace (yoe + 1 + 100 * era * 4) with (yoe + 1 + era * 400) by lia. rewrite Z.mod_add by lia.
      rewrite L1. destruct (Z.eqb_spec ((yoe + 1) mod 100) 0), (Z.eqb_spec ((yoe + 1) mod 400) 0); cbn; tauto.
    + destruct (Z.eqb_spec m 4), (Z.eqb_spec m 6), (Z.eqb_spec m 9), (Z.eqb_spec m 11); cbn; lia.
Qed.
Lemma civil_year_bounds n : civil_days 1 1 1 <= n < civil_days 10000 1 1 -> let '(y, _, _) := civil n in 1 <= y <= 9999.
Proof.
  intros H. pose proof (civil_days_civil n) as Hc. destruct (civil n) as [[y m] d]. destruct Hc as (E & Hm & Hd).
  pose proof (month_days_31 y m) as Hmd.
  change (civil_days 1 1 1) with (-719162) in H. change (civil_days 10000 1 1) with 2932897 in H.
  rewrite <- E in H. unfold civil_days in H. cbv zeta in H.
  destruct (Z.leb_spec m 2), (Z.ltb_spec 2 m); try lia; (Z.to_euclidean_division_equations; lia).
Qed.

(** ** Instants *)

Lemma number_pad i n l v : slice i n l = text (pad_digits n v) -> 0 <= v < 10 ^ Z.of_nat n -> number_at i n l = Some v.
Proof.
  intros E Hv. unfold number_at. rewrite E. change (text (pad_digits n v)) with (chars (pad_digits n v)).
  destruct (pad_digits_prints n v) as (H1 & H2 & H3).
  rewrite H1, H2, Nat.eqb_refl, H3, Z.mod_small by done. done.
Qed.
(** The text of the fields of an instant. *)
Definition fields_text (y m d hh mi ss us : Z) : string :=
  (pad_digits 4 y +:+ "-" +:+ pad_digits 2 m +:+ "-" +:+ pad_digits 2 d +:+ "T" +:+ pad_digits 2 hh +:+ ":" +:+ pad_digits 2 mi
   +:+ ":" +:+ pad_digits 2 ss +:+ "." +:+ pad_digits 6 us +:+ "Z")%string.
Lemma fields_strptime y m d hh mi ss us : 1 <= y <= 9999 -> 1 <= m <= 12 -> 1 <= d <= month_days y m ->
  0 <= hh <= 23 -> 0 <= mi <= 59 -> 0 <= ss <= 59 -> 0 <= us < 1000000 ->
  strptime (fields_text y m d hh mi ss us) = Some (civil_days y m d * DAY + hh * HOUR + mi * MINUTE + ss * SECOND + us).
Proof.
  intros Hy Hm Hd Hh Hi Hs Hu. pose proof (month_days_31 y m). unfold strptime.
  change (separators_ok _ && _ && _) with true. cbn [negb].
  rewrite (number_pad 0 4 _ y), (number_pad 5 2 _ m), (number_pad 8 2 _ d), (number_pad 11 2 _ hh), (number_pad 14 2 _ mi),
    (number_pad 17 2 _ ss), (number_pad 20 6 _ us) by (reflexivity || (cbn; lia)). cbn [mbind option_bind].
  assert ((1 <=? y) && (1 <=? m) && (m <=? 12) && (1 <=? d) && (d <=? month_days y m) && (hh <=? 23) && (mi <=? 59) && (ss <=? 59) = true)
    as ->; [|done].
  rewrite !andb_true_iff, !Z.leb_le. lia.
Qed.
Lemma stamp_fields t : let '(y, m, d) := civil (t / DAY) in let tod := t mod DAY in
  stamp t = fields_text y m d (tod / HOUR) (tod / MINUTE mod 60) (tod / SECOND mod 60) (tod mod SECOND).
Proof. unfold stamp, date_text. destruct (civil (t / DAY)) as [[y m] d]. reflexivity. Qed.

(** A written instant is read back. *)
Lemma strptime_stamp t : is_datetime t = true -> strptime (stamp t) = Some t.
Proof.
  unfold is_datetime, FIRST_INSTANT, END_INSTANT. intros Ht. bool_inv.
  assert (Hn : civil_days 1 1 1 <= t / DAY < civil_days 10000 1 1).
  { split; [apply Z.div_le_lower_bound|apply Z.div_lt_upper_bound]; unfold DAY, HOUR, MINUTE, SECOND in *; lia. }
  pose proof (stamp_fields t) as E. pose proof (civil_days_civil (t / DAY)) as Hc. pose proof (civil_year_bounds _ Hn) as Hy.
  destruct (civil (t / DAY)) as [[y m] d]. destruct Hc as (Hc & Hm & Hd). cbv zeta in E. rewrite E.
  assert (Hr : 0 <= t mod DAY < DAY) by (apply Z.mod_pos_bound; done). pose proof (Z.div_mod t DAY ltac:(done)) as Hdm.
  rewrite fields_strptime; [|done|done|done|..].
  - f_equal. rewrite Hc. clear -Hdm Hr. generalize dependent (t mod DAY). generalize (t / DAY).
    unfold DAY, HOUR, MINUTE, SECOND. intros q r. Z.to_euclidean_division_equations. lia.
  - clear -Hr. generalize dependent (t mod DAY). unfold DAY, HOUR, MINUTE, SECOND. intros r. Z.to_euclidean_division_equations. lia.
  - pose proof (Z.mod_pos_bound (t mod DAY / MINUTE) 60 ltac:(lia)). lia.
  - pose proof (Z.mod_pos_bound (t mod DAY / SECOND) 60 ltac:(lia)). lia.
  - by apply Z.mod_pos_bound.
Qed.
Lemma instant_stamp t : is_datetime t = true -> instant (stamp t) = Ok t.
Proof. intros Ht. unfold instant. rewrite strptime_stamp by done. cbn. by rewrite bool_decide_true. Qed.
Lemma instant_inv s t : instant s = Ok t -> s = stamp t.
Proof.
  unfold instant. intros E. unbind E parsed E1. unbind E u E2. apply Ok_inj in E. subst.
  apply raise_unless_Ok in E2. by apply bool_decide_eq_true in E2.
Qed.

(** ** Decisions and events as JSON *)

Lemma text_field_default p def k l s : text_field p def k l = Ok s ->
  p s = true /\ field_value (JStr <$> def) k l = Ok (JStr s).
Proof.
  unfold text_field. intros E. unbind E v Ev. destruct v; try discriminate E. destruct (p s0) eqn:Ep; [|discriminate E].
  apply Ok_inj in E as ->. done.
Qed.
(** A decision is valid when its dump is. *)
Definition valid_decision (d : SyntheticDecision) : Prop := model_validate (model_dump d) = Ok d.
Lemma dump_valid d d' : model_validate (model_dump d) = Ok d' -> valid_decision d /\ d' = d.
Proof.
  intros E. enough (d' = d) by (subst; done). destruct d as [i n p o r k en b bl ra ca ce ap ex tt_]. unfold model_validate, model_dump in E.
  change (negb _) with false in E. cbv iota in E. cbn [sd_decision_id sd_nonce sd_signed_payload sd_owner sd_root sd_key sd_enrollment
    sd_enrolled sd_baseline sd_amendment_raw sd_amendment_canonical sd_certificate sd_approval sd_expiry sd_trusted_time] in E.
  repeat match type of E with mbind _ _ = Ok _ => let x := fresh "x" in let Ex := fresh "F" in unbind E x Ex end.
  apply Ok_inj in E. subst d'.
  repeat match goal with H : text_field _ _ _ _ = Ok _ |- _ => apply text_field_default in H as [_ H]; cbn in H; apply Ok_inj in H; injection H as H; subst end.
  assert (Hopt : forall (h : string) l o z, find l h = Some (opt_text o) -> optional_hash h l = Ok z -> z = o).
  { intros h l q z Hf E. unfold optional_hash, field_value in E. rewrite Hf in E. destruct q as [s|]; cbn in E; [|by apply Ok_inj in E].
    destruct (hash_ok s); [|discriminate E]. by apply Ok_inj in E. }
  repeat match goal with H : optional_hash _ _ = Ok _ |- _ => eapply Hopt in H; [|reflexivity]; subst end.
  match goal with H : bool_field _ _ = Ok _ |- _ => apply Ok_inj in H; subst end. reflexivity.
Qed.

(** The sorted dump is validated like the dump. *)
Lemma validate_norm d : model_validate (norm (model_dump d)) = model_validate (model_dump d).
Proof. destruct d as [i n p o r k [en|] b bl ra ca ce ap ex [tt_|]]; reflexivity. Qed.

Lemma consume_unique timestamp d : unique (norm (consume_event timestamp (consumption d timestamp))) = true.
Proof. destruct d as [i n p o r k [en|] b bl ra ca ce ap ex [tt_|]]; vm_compute; reflexivity. Qed.
Lemma revoke_unique kind reference timestamp : unique (norm (revoke_event kind reference timestamp)) = true.
Proof. vm_compute. reflexivity. Qed.

(** ** One event *)

Definition new_row (prior : string) (seq : Z) (event : json) : EventRow :=
  let body := canonical event in mkEventRow (seq + 1) prior body (link prior body).
(** The trail after a consumption, and after a revocation. *)
Definition trail_consume (s : Trail) (e : EventRow) (d : SyntheticDecision) (record : bytes) (now : Z) : Trail :=
  mkTrail (<[sd_decision_id d := (sd_nonce d, record)]> (tr_expected s)) (tr_revoked s) (ev_digest e) (ev_seq e) (Some now).
Definition trail_revoke (s : Trail) (e : EventRow) (kind reference : string) (now : Z) : Trail :=
  mkTrail (tr_expected s) (tr_revoked s ++ [(JStr kind, JStr reference)]) (ev_digest e) (ev_seq e) (Some now).

(** What every event goes through. *)
Lemma event_step_new s event now timestamp : unique (norm event) = true -> key "at" (norm event) = Ok (JStr timestamp) ->
  instant timestamp = Ok now -> no_rollback (tr_last s) now = true ->
  event_step s (new_row (tr_previous s) (tr_seq s) event) =
  (kind ← key "kind" (norm event);
   if is_text "consume" kind then
     record ← key "record" (norm event);
     content ← key "decision" record;
     decision ← model_validate content;
     require! negb (is_some (tr_expected s !! sd_decision_id decision)) else "AUDIT_DUPLICATE";
     Ok (trail_consume s (new_row (tr_previous s) (tr_seq s) event) decision (canonical record) now)
   else if is_text "revoke" kind then
     target ← key "target_kind" (norm event);
     reference ← key "reference" (norm event);
     _ ← hashable target;
     _ ← hashable reference;
     Ok (mkTrail (tr_expected s) (tr_revoked s ++ [(target, reference)]) (link (tr_previous s) (canonical event)) (tr_seq s + 1) (Some now))
   else Err (ValueError "UNKNOWN_AUDIT_EVENT")).
Proof.
  intros Hu Ha Hi Hn. unfold event_step, new_row. cbn [ev_seq ev_previous ev_body ev_digest].
  rewrite Z.eqb_refl, !bool_decide_true by done. cbn [andb raise_unless mbind res_bind].
  rewrite loads_canonical. cbn [mbind res_bind]. rewrite Hu, bool_decide_true by apply canonical_norm.
  cbn [andb raise_unless mbind res_bind]. unfold text_at. rewrite Ha. cbn [mbind res_bind as_text]. rewrite Hi.
  cbn [mbind res_bind]. rewrite Hn. reflexivity.
Qed.
Lemma event_step_consume s d now : valid_decision d -> is_datetime now = true -> no_rollback (tr_last s) now = true ->
  tr_expected s !! sd_decision_id d = None ->
  let record := consumption d (stamp now) in let e := new_row (tr_previous s) (tr_seq s) (consume_event (stamp now) record) in
  event_step s e = Ok (trail_consume s e d (canonical record) now).
Proof.
  intros Hv Ht Hn Hx record e. unfold e. rewrite (event_step_new s _ now (stamp now)).
  - change (key "kind" _) with (Ok (JStr "consume")). cbn [mbind res_bind]. change (is_text "consume" _) with true. cbv iota.
    change (key "record" _) with (Ok (norm record)). cbn [mbind res_bind].
    change (key "decision" (norm record)) with (Ok (norm (model_dump d))). cbn [mbind res_bind].
    rewrite validate_norm, Hv. cbn [mbind res_bind]. rewrite Hx, canonical_norm. reflexivity.
  - apply consume_unique.
  - reflexivity.
  - by apply instant_stamp.
  - done.
Qed.
Lemma event_step_revoke s kind reference now : is_datetime now = true -> no_rollback (tr_last s) now = true ->
  let e := new_row (tr_previous s) (tr_seq s) (revoke_event kind reference (stamp now)) in
  event_step s e = Ok (trail_revoke s e kind reference now).
Proof.
  intros Ht Hn e. unfold e. rewrite (event_step_new s _ now (stamp now)).
  - reflexivity.
  - apply revoke_unique.
  - reflexivity.
  - by apply instant_stamp.
  - done.
Qed.

(** ** The trail of the events *)

Definition trail_of (identity : string) (l : list EventRow) : res Trail := foldR event_step (trail_start identity) l.
Lemma trail_snoc identity l e : trail_of identity (l ++ [e]) = (s ← trail_of identity l; event_step s e).
Proof.
  unfold trail_of. rewrite foldR_app. destruct (foldR event_step _ l) as [s|]; [|done]. cbn.
  by destruct (event_step s e).
Qed.

(** What a valid event adds to the trail. *)
Lemma event_step_inv s e s' : event_step s e = Ok s' ->
  ev_seq e = tr_seq s + 1 /\ ev_previous e = tr_previous s /\ ev_digest e = link (ev_previous e) (ev_body e) /\
  tr_seq s' = ev_seq e /\ tr_previous s' = ev_digest e /\
  exists now, tr_last s' = Some now /\ no_rollback (tr_last s) now = true /\
  ((exists i n b, tr_expected s !! i = None /\ tr_expected s' = <[i := (n, b)]> (tr_expected s) /\ tr_revoked s' = tr_revoked s) \/
   (exists p, tr_expected s' = tr_expected s /\ tr_revoked s' = tr_revoked s ++ [p])).
Proof.
  unfold event_step. intros E. unbind E u1 E1. unbind E u2 E2. unbind E event Ee. unbind E u3 E3. unbind E at_text Ea.
  unbind E now En. unbind E u4 E4. unbind E kind Ek. apply raise_unless_Ok in E1, E2, E4. apply andb_true in E1 as [E1 E1'].
  bool_inv. do 2 (split; [done|]). split; [done|].
  destruct (is_text "consume" kind); [|destruct (is_text "revoke" kind); [|discriminate E]].
  - unbind E rec_ Er. unbind E content Ec. unbind E decision Ed. unbind E u5 E5. apply Ok_inj in E. subst s'.
    apply raise_unless_Ok in E5. do 2 (split; [done|]). exists now. split; [done|]. split; [done|]. left.
    exists (sd_decision_id decision), (sd_nonce decision), (canonical rec_). split; [|done].
    by destruct (tr_expected s !! sd_decision_id decision).
  - unbind E target Et. unbind E reference Er. unbind E u5 E5. unbind E u6 E6. apply Ok_inj in E. subst s'.
    do 2 (split; [done|]). exists now. split; [done|]. split; [done|]. right. by exists (target, reference).
Qed.

(** The events are numbered from one, and each is a consumption or a revocation. *)
Lemma trail_counts identity l s : trail_of identity l = Ok s ->
  tr_seq s = Z.of_nat (length l) /\ Forall (fun e => ev_seq e <= tr_seq s) l /\
  (length l = base.size (tr_expected s) + length (tr_revoked s))%nat.
Proof.
  revert s. induction l as [|e l IH] using rev_ind; intros s E.
  { apply Ok_inj in E as <-. cbn. by rewrite map_size_empty. }
  rewrite trail_snoc in E. unbind E s0 E0. destruct (IH s0 E0) as (H1 & H2 & H3).
  apply event_step_inv in E as (F1 & _ & _ & F2 & _ & now & _ & _ & F3). rewrite length_app. cbn [length].
  split; [lia|]. split.
  - apply Forall_app. split; [eapply Forall_impl; [exact H2|]; cbn; lia|]. constructor; [lia|constructor].
  - destruct F3 as [(i & n & b & Hi & -> & ->)|(p & -> & ->)].
    + rewrite map_size_insert_None by done. lia.
    + rewrite length_app. cbn. lia.
Qed.
Lemma trail_fresh identity l s : trail_of identity l = Ok s -> tr_seq s + 1 ∉ ev_seq <$> l.
Proof.
  intros E (e & He & Hin)%list_elem_of_fmap. destruct (trail_counts _ _ _ E) as (_ & H & _).
  rewrite Forall_forall in H. specialize (H e Hin). lia.
Qed.

(** ** What is validated *)

Record validated (identity : string) (d : Db) (s : Trail) : Prop := {
  va_sound : db_sound d = true;
  va_schema : db_schema d = SCHEMA;
  va_metadata : db_metadata d = [(identity, LEDGER_VERSION)];
  va_trail : trail_of identity (db_events d) = Ok s;
  va_consumed : db_consumed d = tr_expected s;
  va_revoked : same_revocations (db_revoked d) (tr_revoked s) = true
}.
Lemma validate_spec identity d previous seq last :
  validate identity d = Ok (previous, seq, last) <->
  exists s, validated identity d s /\ tr_previous s = previous /\ tr_seq s = seq /\ tr_last s = last.
Proof.
  unfold validate. split.
  - intros E. unbind E u1 E1. unbind E u2 E2. unbind E u3 E3. unbind E s Es. unbind E u4 E4. unbind E u5 E5.
    apply raise_unless_Ok in E1, E2, E3, E4, E5. bool_inv. apply Ok_inj in E. injection E as <- <- <-.
    exists s. split; [by split|done].
  - intros (s & [V1 V2 V3 V4 V5 V6] & <- & <- & <-). unfold trail_of in V4.
    rewrite V1, !bool_decide_true by done. cbn. rewrite V4. cbn. rewrite bool_decide_true by done. cbn. by rewrite V6.
Qed.
Lemma validated_fresh identity : validated identity (fresh identity) (trail_start identity).
Proof. by split. Qed.

(** The two sides of the comparison of the revocations. *)
Lemma is_text_true s v : is_text s v = true <-> v = JStr s.
Proof. destruct v; cbn; try (split; [discriminate 1|discriminate 1]). rewrite bool_decide_eq_true. split; [by intros ->|by intros [= ->]]. Qed.
Lemma same_revocations_spec rows l : same_revocations rows l = true <->
  (forall k r, (k, r) ∈ rows <-> (JStr k, JStr r) ∈ l) /\ Forall (fun p => exists k r, p = (JStr k, JStr r)) l.
Proof.
  unfold same_revocations. rewrite andb_true_iff, !forallb_forall. split.
  - intros [H1 H2]. assert (Hf : forall p, p ∈ l -> exists k r, p = (JStr k, JStr r) /\ (k, r) ∈ rows).
    { intros p Hp. specialize (H2 p ltac:(by apply list_elem_of_In)). destruct p as [[] []]; try discriminate H2.
      apply bool_decide_eq_true in H2. eauto. }
    split; [|apply Forall_forall; intros p Hp; destruct (Hf p Hp) as (k & r & -> & _); eauto].
    intros k r. split.
    + intros Hin. specialize (H1 (k, r) ltac:(by apply list_elem_of_In, elem_of_elements)).
      apply existsb_exists in H1 as ([a b] & Hp & Ht). cbn [fst snd] in Ht. apply andb_true_iff in Ht as [Ha Hb].
      apply is_text_true in Ha, Hb. subst. by apply list_elem_of_In.
    + intros Hin. destruct (Hf _ Hin) as (k' & r' & E & Hr). by injection E as -> ->.
  - intros [H1 H2]. split.
    + intros [k r] Hin%list_elem_of_In%elem_of_elements. apply existsb_exists. exists (JStr k, JStr r).
      split; [by apply list_elem_of_In, H1|]. cbn. by rewrite !bool_decide_true.
    + intros p Hp%list_elem_of_In. rewrite Forall_forall in H2. destruct (H2 p Hp) as (k & r & ->).
      apply bool_decide_eq_true. by apply H1.
Qed.

(** ** The operations *)

(** What lets a decision be consumed at two readings of the clock. *)
Record admitted (identity : string) (db : Db) (s : Trail) (d : SyntheticDecision) (now final_time : Reading) : Prop := {
  ad_ledger : validated identity db s;
  ad_valid : valid_decision d;
  ad_now : check_fixture d now = Ok tt;
  ad_final : check_fixture d final_time = Ok tt;
  ad_clock : no_rollback (tr_last s) (rd_at now) = true /\ rd_at now <= rd_at final_time;
  ad_active : Forall (fun r => r ∉ db_revoked db) (references d);
  ad_unused : is_consumed (sd_decision_id d) (sd_nonce d) db = false
}.
(** The file after a consumption, and after a revocation. *)
Definition consumed_db (s : Trail) (d : SyntheticDecision) (now : Z) (db : Db) : Db :=
  let record := consumption d (stamp now) in
  with_events (db_events db ++ [new_row (tr_previous s) (tr_seq s) (consume_event (stamp now) record)])
    (with_consumed (<[sd_decision_id d := (sd_nonce d, canonical record)]> (db_consumed db)) db).
Definition revoked_db (s : Trail) (kind reference : string) (now : Z) (db : Db) : Db :=
  with_events (db_events db ++ [new_row (tr_previous s) (tr_seq s) (revoke_event kind reference (stamp now))])
    (with_revoked ({[(kind, reference)]} ∪ db_revoked db) db).

Lemma transaction_cases {A} (m : exec Db A) db db' r : transaction m db = (db', r) ->
  (db' = db /\ exists e, r = Err e) \/ (exists a, r = Ok a /\ m db = (db', Ok a)).
Proof.
  unfold transaction. destruct (m db) as [db1 [a|e]]; intros E; apply pair_equal_spec in E as [<- <-]; [right|left]; eauto.
Qed.
Lemma run_insert_event e db db' u : insert_event e db = (db', Ok u) -> db' = with_events (db_events db ++ [e]) db.
Proof. intros E. unfold insert_event in E. run_inv E. done. Qed.
Lemma insert_event_fresh e db : ev_seq e ∉ ev_seq <$> db_events db -> insert_event e db = (with_events (db_events db ++ [e]) db, Ok tt).
Proof. intros H. unfold insert_event, mbind, exec_bind. cbn. by rewrite bool_decide_false. Qed.

Lemma consume_cases identity d clock clock_again before after db db' r :
  consume_test identity d clock clock_again before after db = (db', r) ->
  (db' = db /\ exists e, r = Err e) \/
  (exists s now final_time, clock = Ok now /\ clock_again = Ok final_time /\ before = Ok tt /\ admitted identity db s d now final_time /\
     db' = consumed_db s d (rd_at now) db /\
     r = match after with Ok _ => Ok "TEST_ONLY_CONSUMED_NO_ACTION_AUTHORIZED"%string | Err e => Err e end).
Proof.
  unfold consume_test. destruct (model_validate (model_dump d)) as [d'|e] eqn:Ev.
  2: { intros E. left. cbn in E. apply pair_equal_spec in E as [<- <-]. eauto. }
  apply dump_valid in Ev as [Hv ->]. cbn [lift]. unfold mbind at 1, exec_bind at 1, lift at 1.
  unfold mbind at 1, exec_bind at 1. destruct (transaction _ db) as [db1 r1] eqn:Et. intros E.
  apply transaction_cases in Et as [(-> & e & ->)|([] & -> & Et)].
  { left. apply pair_equal_spec in E as [<- <-]. eauto. }
  right. assert (db' = db1 /\ r = match after with Ok _ => Ok "TEST_ONLY_CONSUMED_NO_ACTION_AUTHORIZED"%string | Err e => Err e end) as [-> ->].
  { unfold mbind, exec_bind, lift in E. destruct after; cbn in E; by apply pair_equal_spec in E as [<- <-]. }
  clear E. apply run_bind in Et as (db0 & db2 & Eg & Et). apply run_get in Eg as [-> ->].
  apply run_bind in Et as ([[prior seq] last] & db3 & El & Et). apply run_lift in El as [-> Hval].
  apply validate_spec in Hval as (s & Hs & <- & <- & <-).
  apply run_bind in Et as (now & db4 & El & Et). apply run_lift in El as [-> Hclock].
  run_step Et. run_step Et. run_step Et. run_step Et.
  apply run_bind in Et as (u5 & db5 & Ei & Et). unfold insert_consumed in Ei. run_inv Ei.
  apply run_bind in Et as (digest & db6 & Ea & Et). unfold append_event in Ea. run_step Ea. run_inv Ea.
  match goal with H : insert_event _ _ = _ |- _ => apply run_insert_event in H as -> end.
  run_step Et. apply run_bind in Et as (final_time & db7 & El & Et). apply run_lift in El as [-> Hagain].
  run_step Et. apply run_lift in Et as [-> Hlast]. apply raise_unless_Ok, Z.leb_le in Hlast.
  repeat match goal with x : unit |- _ => destruct x end.
  exists s, now, final_time. split; [done|]. split; [done|]. split; [done|]. split; [|done].
  split; try done.
  - apply Forall_forall. intros x Hx.
    match goal with H : forallb _ (references d) = true |- _ => rewrite forallb_forall in H; specialize (H x ltac:(by apply list_elem_of_In)) end.
    bool_inv. done.
  - bool_inv. done.
Qed.

(** An admitted decision is consumed. *)
Lemma consume_runs identity db s d now final_time after : admitted identity db s d now final_time ->
  consume_test identity d (Ok now) (Ok final_time) (Ok tt) after db =
  (consumed_db s d (rd_at now) db, match after with Ok _ => Ok "TEST_ONLY_CONSUMED_NO_ACTION_AUTHORIZED"%string | Err e => Err e end).
Proof.
  intros [Hl Hv Hn Hf [Hc1 Hc2] Ha Hu]. unfold consume_test. rewrite Hv. cbn [lift]. unfold mbind at 1, exec_bind at 1, lift at 1.
  assert (Hval : validate identity db = Ok (tr_previous s, tr_seq s, tr_last s)) by (apply validate_spec; eauto).
  assert (Hr : forallb (fun r => negb (bool_decide (r ∈ db_revoked db))) (references d) = true).
  { apply forallb_forall. intros x Hx%list_elem_of_In. rewrite Forall_forall in Ha. by rewrite bool_decide_false by auto. }
  unfold transaction at 1. unfold mbind, exec_bind, lift, get. rewrite Hval. cbn [fst snd]. rewrite Hn, Hc1, Hr, Hu.
  cbn [raise_unless negb]. unfold insert_consumed, mbind, exec_bind, lift, get. rewrite Hu. cbn [modify].
  unfold append_event, mbind, exec_bind, lift, get. rewrite insert_event_fresh.
  - unfold modify, mret, exec_ret. cbn -[check_fixture Z.leb]. rewrite Hf, (proj2 (Z.leb_le _ _) Hc2). by destruct after.
  - cbn. apply (trail_fresh identity). exact (va_trail _ _ _ Hl).
Qed.

(** What lets a reference be revoked. *)
Record revocable (identity : string) (db : Db) (s : Trail) (kind reference : string) (now : Reading) : Prop := {
  rv_ledger : validated identity db s;
  rv_scope : kind ∈ ["owner"; "key"; "root"; "decision"]%string /\ reference <> ""%string;
  rv_clock : is_utc now = true /\ no_rollback (tr_last s) (rd_at now) = true;
  rv_new : (kind, reference) ∉ db_revoked db
}.
Lemma revoke_cases identity kind reference clock db db' r : revoke_test identity kind reference clock db = (db', r) ->
  (db' = db /\ exists e, r = Err e) \/
  (exists s now, clock = Ok now /\ revocable identity db s kind reference now /\ db' = revoked_db s kind reference (rd_at now) db /\ r = Ok tt).
Proof.
  unfold revoke_test. unfold mbind at 1, exec_bind at 1, lift at 1.
  destruct (raise_unless _ _) as [u|e] eqn:Es; intros E.
  2: { left. apply pair_equal_spec in E as [<- <-]. eauto. }
  apply raise_unless_Ok in Es. apply andb_true in Es as [Es1 Es2].
  apply transaction_cases in E as [(-> & e & ->)|([] & -> & Et)]; [left; eauto|right].
  apply run_bind in Et as (db0 & db2 & Eg & Et). apply run_get in Eg as [-> ->].
  apply run_bind in Et as ([[prior seq] last] & db3 & El & Et). apply run_lift in El as [-> Hval].
  apply validate_spec in Hval as (s & Hs & <- & <- & <-).
  apply run_bind in Et as (now & db4 & El & Et). apply run_lift in El as [-> Hclock].
  run_step Et. run_step Et.
  apply run_bind in Et as (u5 & db5 & Ei & Et). unfold insert_revoked in Ei. run_inv Ei.
  apply run_bind in Et as (digest & db6 & Ea & Et). unfold append_event in Ea. run_step Ea. run_inv Ea.
  match goal with H : insert_event _ _ = _ |- _ => apply run_insert_event in H as -> end.
  apply run_ret in Et as [-> _]. exists s, now. split; [done|]. split; [|done].
  repeat case_bool_decide; try done; bool_inv; split; done.
Qed.
Lemma revoke_runs identity kind reference db s now : revocable identity db s kind reference now ->
  revoke_test identity kind reference (Ok now) db = (revoked_db s kind reference (rd_at now) db, Ok tt).
Proof.
  intros [Hl [Hk Hr] [Hu Hc] Hn]. unfold revoke_test. rewrite !bool_decide_true, bool_decide_false by done.
  assert (Hval : validate identity db = Ok (tr_previous s, tr_seq s, tr_last s)) by (apply validate_spec; eauto).
  cbn [andb negb raise_unless]. unfold mbind, exec_bind, lift, transaction, get. rewrite Hval. cbn [fst snd].
  rewrite Hu, Hc. cbn [raise_unless]. unfold insert_revoked, mbind, exec_bind, lift, get. rewrite bool_decide_false by done.
  cbn [modify]. unfold append_event, mbind, exec_bind. rewrite insert_event_fresh; [done|].
  cbn. apply (trail_fresh identity). exact (va_trail _ _ _ Hl).
Qed.

(** ** The invariant *)

(** The ledger validates, and its tables are what their keys say. *)
Record ledger_ok (identity : string) (db : Db) : Prop := {
  lo_valid : exists s, validated identity db s /\ base.size (db_revoked db) = length (tr_revoked s);
  lo_nonces : forall i j n b b', db_consumed db !! i = Some (n, b) -> db_consumed db !! j = Some (n, b') -> i = j
}.
Lemma fresh_ok identity : ledger_ok identity (fresh identity).
Proof.
  split; [exists (trail_start identity); split; [apply validated_fresh|done]|].
  intros i j n b b' Hi. cbn in Hi. by rewrite lookup_empty in Hi.
Qed.
Lemma not_consumed i n db : is_consumed i n db = false ->
  db_consumed db !! i = None /\ forall j b, db_consumed db !! j <> Some (n, b).
Proof.
  unfold is_consumed. intros H. apply orb_false in H as [H1 H2]. split; [by destruct (db_consumed db !! i)|].
  intros j b Hj. assert (H : existsb (fun r : string * (string * bytes) => bool_decide (r.2.1 = n)) (map_to_list (db_consumed db)) = true); [|congruence].
  apply existsb_exists. exists (j, (n, b)). split; [by apply list_elem_of_In, elem_of_map_to_list|]. by apply bool_decide_true.
Qed.
Lemma consumed_ok identity db s d now final_time : ledger_ok identity db -> admitted identity db s d now final_time ->
  is_datetime (rd_at now) = true -> ledger_ok identity (consumed_db s d (rd_at now) db).
Proof.
  intros [(s' & Hs' & Hsize) Hinj] [Hl Hv Hn Hf [Hc _] _ Hu] Ht.
  assert (s' = s) as -> by (pose proof (va_trail _ _ _ Hs'); pose proof (va_trail _ _ _ Hl); congruence).
  destruct (not_consumed _ _ _ Hu) as [Hnone Hnonce]. split.
  - exists (trail_consume s (new_row (tr_previous s) (tr_seq s) (consume_event (stamp (rd_at now)) (consumption d (stamp (rd_at now))))) d
      (canonical (consumption d (stamp (rd_at now)))) (rd_at now)). split; [|exact Hsize].
    destruct Hl as [V1 V2 V3 V4 V5 V6]. split; try done.
    + cbn [consumed_db with_events with_consumed db_events]. rewrite trail_snoc, V4. cbn [mbind res_bind].
      apply event_step_consume; [done|done|done|by rewrite <- V5].
    + cbn. by rewrite V5.
  - intros i j n b b'. cbn [consumed_db with_events with_consumed db_consumed]. rewrite !lookup_insert_Some.
    intros [[<- Ei]|[Hi Ei]] [[<- Ej]|[Hj Ej]]; try done.
    + injection Ei as <- _. by destruct (Hnonce _ _ Ej).
    + injection Ej as <- _. by destruct (Hnonce _ _ Ei).
    + eauto.
Qed.
Lemma revoked_ok identity db s kind reference now : ledger_ok identity db -> revocable identity db s kind reference now ->
  is_datetime (rd_at now) = true -> ledger_ok identity (revoked_db s kind reference (rd_at now) db).
Proof.
  intros [(s' & Hs' & Hsize) Hinj] [Hl _ [Hu Hc] Hn] Ht.
  assert (s' = s) as -> by (pose proof (va_trail _ _ _ Hs'); pose proof (va_trail _ _ _ Hl); congruence).
  split; [|exact Hinj]. exists (trail_revoke s (new_row (tr_previous s) (tr_seq s) (revoke_event kind reference (stamp (rd_at now)))) kind reference (rd_at now)).
  destruct Hl as [V1 V2 V3 V4 V5 V6]. split.
  - split; try done.
    + cbn [revoked_db with_events with_revoked db_events]. rewrite trail_snoc, V4. cbn [mbind res_bind]. by apply event_step_revoke.
    + apply same_revocations_spec in V6 as [S1 S2]. apply same_revocations_spec. cbn [revoked_db with_events with_revoked db_revoked trail_revoke tr_revoked].
      split; [|apply Forall_app; split; [done|by repeat econstructor]].
      intros k r. rewrite elem_of_union, elem_of_singleton, elem_of_app, list_elem_of_singleton, S1. naive_solver.
  - cbn [revoked_db with_events with_revoked db_revoked trail_revoke tr_revoked]. rewrite size_union by set_solver.
    rewrite size_singleton, length_app, Hsize. cbn. lia.
Qed.

(** ** Digests *)

Lemma hex_digit_hex d : is_hex (Sha256.hex_digit (Z.land d 15)) = true.
Proof.
  assert (H : 0 <= Z.land d 15 < 16) by (change 15 with (Z.ones 4); rewrite Z.land_ones by lia; apply Z.mod_pos_bound; lia).
  generalize dependent (Z.land d 15). intros x H. assert (Hx : x ∈ seqZ 0 16) by (apply elem_of_seqZ; lia).
  revert x Hx H. change (seqZ 0 16) with [0;1;2;3;4;5;6;7;8;9;10;11;12;13;14;15]. intros x Hx _.
  set_unfold in Hx. intuition (subst; reflexivity).
Qed.
Lemma hex_word_text n w rest : forallb is_hex (text rest) = true ->
  forallb is_hex (text (Sha256.hex_word n w rest)) = true /\
  length (text (Sha256.hex_word n w rest)) = (n + length (text rest))%nat.
Proof.
  revert w rest. induction n as [|n IH]; intros w rest Hr; [done|]. cbn [Sha256.hex_word].
  destruct (IH (Z.shiftr w 4) (String (Sha256.hex_digit (Z.land w 15)) rest)) as [H1 H2].
  - cbn [text String.list_ascii_of_string forallb]. by rewrite hex_digit_hex.
  - split; [done|]. rewrite H2. unfold text. cbn [String.list_ascii_of_string length]. lia.
Qed.
Lemma blocks_length fuel hs ws : length hs = 8%nat -> length (Sha256.blocks fuel hs ws) = 8%nat.
Proof.
  assert (Hr : forall ks ws a b c d e f g h, length (Sha256.rounds ks ws a b c d e f g h) = 8%nat).
  { induction ks as [|k ks IH]; intros [|w ws'] *; try done. cbn [Sha256.rounds]. apply IH. }
  revert hs ws. induction fuel as [|fuel IH]; intros hs ws Hl; [done|]. cbn [Sha256.blocks]. apply IH.
  do 9 (destruct hs as [|? hs]; try discriminate Hl). unfold Sha256.block. rewrite length_zip_with, Hr. done.
Qed.
(** A digest is sixty-four hexadecimal digits. *)
Lemma sha_hex raw : forallb is_hex (text (sha raw)) = true /\ length (text (sha raw)) = 64%nat.
Proof.
  unfold sha, Sha256.hexdigest. set (ws := Sha256.words _). clearbody ws.
  pose proof (blocks_length (length ws / 16) Sha256.h_init ws eq_refl) as Hl.
  generalize dependent (Sha256.blocks (length ws / 16) Sha256.h_init ws). intros l Hl.
  enough (H : forallb is_hex (text (foldr (Sha256.hex_word 8) EmptyString l)) = true /\
    length (text (foldr (Sha256.hex_word 8) EmptyString l)) = (8 * length l)%nat) by (by rewrite Hl in H).
  clear Hl. induction l as [|w l [IH1 IH2]]; [done|]. cbn [foldr]. destruct (hex_word_text 8 w _ IH1) as [H1 H2].
  split; [done|]. rewrite H2, IH2. cbn [length]. lia.
Qed.

(** The texts that a chain hashes: the identity, and each event after its link. *)
Definition hashed_text (e : EventRow) : bytes := text (ev_previous e) ++ ascii_of_N 0 :: ev_body e.
Definition hashed (identity : string) (l : list EventRow) : list bytes := text identity :: (hashed_text <$> l).
(** Two different texts of two chains with the same digest. *)
Definition chain_collision (identity : string) (l l' : list EventRow) : Prop :=
  exists a b, a ∈ hashed identity l /\ b ∈ hashed identity l' /\ a <> b /\ sha a = sha b.
Lemma hashed_prefix identity l k : hashed identity l ⊆ hashed identity (l ++ k).
Proof. unfold hashed. rewrite fmap_app. set_solver. Qed.
Lemma hashed_last identity l e : hashed_text e ∈ hashed identity (l ++ [e]).
Proof. unfold hashed. rewrite fmap_app. set_solver. Qed.
Lemma collision_prefix identity l l' k k' : chain_collision identity l l' -> chain_collision identity (l ++ k) (l' ++ k').
Proof. intros (a & b & Ha & Hb & H). exists a, b. split; [by apply hashed_prefix|]. split; [by apply hashed_prefix|done]. Qed.
Lemma trail_head identity l s : trail_of identity l = Ok s ->
  forallb is_hex (text (tr_previous s)) = true /\ length (text (tr_previous s)) = 64%nat.
Proof.
  destruct l as [|e l _] using rev_ind; intros E; [apply Ok_inj in E as <-; apply sha_hex|].
  rewrite trail_snoc in E. unbind E s0 E0. apply event_step_inv in E as (_ & _ & Hd & _ & -> & _). rewrite Hd. apply sha_hex.
Qed.
(** The texts that are hashed are told apart. *)
Lemma link_cancel p p' body body' : length (text p) = 64%nat -> length (text p') = 64%nat ->
  text p ++ ascii_of_N 0 :: body = text p' ++ ascii_of_N 0 :: body' -> p = p' /\ body = body'.
Proof.
  intros Hp Hp' E. apply app_inj_1 in E as [E1 E2]; [|congruence]. apply text_inj in E1. by injection E2.
Qed.
Lemma identity_not_linked identity p body : startswith "TEST_ONLY:" identity = true ->
  forallb is_hex (text p) = true -> length (text p) = 64%nat -> text identity <> text p ++ ascii_of_N 0 :: body.
Proof.
  unfold startswith. rewrite bool_decide_eq_true. intros [rest ->] Hh Hl E. destruct (text p) as [|c q]; [done|].
  change (text "TEST_ONLY:") with ("T"%char :: text "EST_ONLY:") in E. injection E as <- _. done.
Qed.

(** The head determines the events. *)
Lemma trail_determined identity l l' s s' : startswith "TEST_ONLY:" identity = true ->
  trail_of identity l = Ok s -> trail_of identity l' = Ok s' -> tr_previous s = tr_previous s' ->
  l = l' \/ chain_collision identity l l'.
Proof.
  intros Hid. revert l' s s'. induction l as [|e l IH] using rev_ind; intros l' s s' E E' Hp.
  - destruct l' as [|e' l' _] using rev_ind; [by left|right]. apply Ok_inj in E as <-. rewrite trail_snoc in E'. unbind E' s0 E0.
    apply event_step_inv in E' as (_ & Hprev & Hd & _ & Hp' & _). rewrite Hp', Hd in Hp. destruct (trail_head _ _ _ E0) as [H1 H2].
    exists (text identity), (hashed_text e'). split; [set_solver|]. split; [apply hashed_last|]. split; [|exact Hp].
    unfold hashed_text. rewrite Hprev. by apply identity_not_linked.
  - rewrite trail_snoc in E. unbind E s0 E0. apply event_step_inv in E as (Hn & Hprev & Hd & _ & Hhead & _).
    destruct (trail_head _ _ _ E0) as [H1 H2]. destruct l' as [|e' l' _] using rev_ind.
    + right. apply Ok_inj in E' as <-. rewrite Hhead, Hd in Hp. exists (hashed_text e), (text identity).
      split; [apply hashed_last|]. split; [set_solver|]. split; [|exact Hp].
      unfold hashed_text. rewrite Hprev. intros Eq. symmetry in Eq. by eapply identity_not_linked.
    + rewrite trail_snoc in E'. unbind E' s0' E0'. apply event_step_inv in E' as (Hn' & Hprev' & Hd' & _ & Hhead' & _).
      destruct (trail_head _ _ _ E0') as [H1' H2']. rewrite Hhead, Hhead' in Hp.
      destruct (decide (hashed_text e = hashed_text e')) as [Eq|Ne].
      2: { right. exists (hashed_text e), (hashed_text e'). split; [apply hashed_last|]. split; [apply hashed_last|].
           split; [exact Ne|]. unfold link in *. unfold hashed_text. congruence. }
      apply link_cancel in Eq as [Eq1 Eq2]; [|congruence..].
      destruct (IH l' s0 s0' E0 E0' ltac:(congruence)) as [->|Hc]; [left|right; by apply collision_prefix].
      assert (s0 = s0') as -> by congruence. f_equal. f_equal. destruct e, e'; cbn in *; congruence.
Qed.

(** ** Histories *)

Lemma step_cases identity db db' : ledger_step identity db db' ->
  db' = db \/
  (exists s d now final_time, admitted identity db s d now final_time /\ is_datetime (rd_at now) = true /\ db' = consumed_db s d (rd_at now) db) \/
  (exists s kind reference now, revocable identity db s kind reference now /\ is_datetime (rd_at now) = true /\
     db' = revoked_db s kind reference (rd_at now) db).
Proof.
  intros [d clock clock_again before after Hc|kind reference clock Hc].
  - destruct (consume_test _ _ _ _ _ _ _) as [db1 r] eqn:E. cbn [fst].
    apply consume_cases in E as [[-> _]|(s & now & final_time & -> & _ & _ & Ha & -> & _)]; [by left|]. right. left.
    exists s, d, now, final_time. done.
  - destruct (revoke_test _ _ _ _ _) as [db1 r] eqn:E. cbn [fst].
    apply revoke_cases in E as [[-> _]|(s & now & -> & Ha & -> & _)]; [by left|]. right. right. exists s, kind, reference, now. done.
Qed.
Lemma step_ok identity db db' : ledger_ok identity db -> ledger_step identity db db' -> ledger_ok identity db'.
Proof.
  intros Hok [->|[(s & d & now & final_time & Ha & Ht & ->)|(s & kind & reference & now & Ha & Ht & ->)]]%step_cases; [done| |].
  - by eapply consumed_ok.
  - by eapply revoked_ok.
Qed.
Lemma history_ok identity db db' : ledger_ok identity db -> rtc (ledger_step identity) db db' -> ledger_ok identity db'.
Proof. intros Hok Hr. revert Hok. induction Hr as [|x y z Hs _ IH]; intros Hok; [done|]. by apply IH, (step_ok _ x). Qed.

(** Nothing is ever removed. *)
Lemma ledger_grows identity db db' : ledger_step identity db db' ->
  db_consumed db ⊆ db_consumed db' /\ db_revoked db ⊆ db_revoked db' /\ db_events db `prefix_of` db_events db'.
Proof.
  intros [->|[(s & d & now & final_time & Ha & Ht & ->)|(s & kind & reference & now & Ha & Ht & ->)]]%step_cases; [done| |].
  - split; [|split; [done|by apply prefix_app_r]]. apply insert_subseteq. apply (not_consumed _ (sd_nonce d)), (ad_unused _ _ _ _ _ _ Ha).
  - split; [done|]. split; [cbn; set_solver|by apply prefix_app_r].
Qed.
Lemma history_grows identity db db' : rtc (ledger_step identity) db db' ->
  db_consumed db ⊆ db_consumed db' /\ db_revoked db ⊆ db_revoked db' /\ db_events db `prefix_of` db_events db'.
Proof.
  induction 1 as [|x y z Hs _ (IH1 & IH2 & IH3)]; [done|]. destruct (ledger_grows _ _ _ Hs) as (H1 & H2 & H3).
  split; [by etrans|]. split; [by etrans|by etrans].
Qed.

(** A reading inside the validity of a decision. *)
Lemma check_fixture_window d r : check_fixture d r = Ok tt -> rd_offset r = Some 0 /\ sd_enrolled d = true /\
  exists start, instant (sd_approval d) = Ok start /\ instant (sd_expiry d) = Ok (start + 168 * HOUR) /\ start <= rd_at r < start + 168 * HOUR.
Proof.
  unfold check_fixture. intros E. unbind E v Ev. unbind E u1 E1. unbind E u2 E2. unbind E u3 E3. unbind E u4 E4. unbind E u5 E5.
  unbind E u6 E6. unbind E u7 E7. unbind E start Es. unbind E stop Et. unbind E u8 E8. unbind E u9 E9.
  apply raise_unless_Ok in E5, E7, E8, E9. unfold is_utc in E7. apply andb_true in E5 as [E5 _]. apply andb_true in E9 as [E9 E9'].
  bool_inv. split; [done|]. split; [done|]. exists start. split; [done|]. replace (start + 168 * HOUR) with stop by lia. split; [done|lia].
Qed.
(** A decision that was consumed, whose nonce was, or one of whose references was revoked, is refused. *)
Lemma consume_refused identity db d clock clock_again before after :
  is_some (db_consumed db !! sd_decision_id d) || existsb (fun r => bool_decide (r.2.1 = sd_nonce d)) (map_to_list (db_consumed db)) = true \/
  Exists (fun r => r ∈ db_revoked db) (references d) ->
  exists e, consume_test identity d clock clock_again before after db = (db, Err e).
Proof.
  intros H. destruct (consume_test _ _ _ _ _ _ db) as [db' r] eqn:E.
  apply consume_cases in E as [(-> & e & ->)|(s & now & final_time & _ & _ & _ & Ha & _)]; [by exists e|exfalso].
  destruct H as [H|H]; [pose proof (ad_unused _ _ _ _ _ _ Ha) as Hu; unfold is_consumed in Hu; congruence|].
  pose proof (ad_active _ _ _ _ _ _ Ha) as Hact. rewrite Forall_forall in Hact. apply Exists_exists in H as (x & Hx & Hr). by apply (Hact x).
Qed.
(** So it is for ever after. *)
Lemma spent_for_ever identity db db' i n b d clock clock_again before after : rtc (ledger_step identity) db db' ->
  db_consumed db !! i = Some (n, b) -> sd_decision_id d = i \/ sd_nonce d = n ->
  exists e, consume_test identity d clock clock_again before after db' = (db', Err e).
Proof.
  intros Hr Hi Hd. destruct (history_grows _ _ _ Hr) as (H & _ & _). apply (lookup_weaken _ _ _ _ Hi) in H. apply consume_refused. left.
  destruct Hd as [->| ->]; [by rewrite H|]. apply orb_true_iff. right. apply existsb_exists. exists (i, (n, b)).
  split; [by apply list_elem_of_In, elem_of_map_to_list|]. by apply bool_decide_true.
Qed.
Lemma revoked_for_ever identity db db' x d clock clock_again before after : rtc (ledger_step identity) db db' ->
  x ∈ db_revoked db -> x ∈ references d -> exists e, consume_test identity d clock clock_again before after db' = (db', Err e).
Proof.
  intros Hr Hx Hd. destruct (history_grows _ _ _ Hr) as (_ & H & _). apply consume_refused. right. apply Exists_exists. exists x. split; [done|]. by apply H.
Qed.

(** ** The properties *)

(** C7: Whatever operations ran on a new replay ledger, with whatever outcomes - refused,
    crashed before or after the commit - it validates: its chain has one event for each
    consumption and each revocation, and no nonce serves two decisions.  Any other file
    that validates with the same head has the same events, consumptions and revocations,
    unless the digest has a collision between two of the texts that the two chains hash. *)
Theorem replay_ledger identity db : startswith "TEST_ONLY:" identity = true -> rtc (ledger_step identity) (fresh identity) db ->
  exists head last, validate identity db = Ok (head, Z.of_nat (length (db_events db)), last) /\
  length (db_events db) = (base.size (db_consumed db) + base.size (db_revoked db))%nat /\
  (forall i j n b b', db_consumed db !! i = Some (n, b) -> db_consumed db !! j = Some (n, b') -> i = j) /\
  (forall other n last', validate identity other = Ok (head, n, last') ->
     (db_events other = db_events db /\ db_consumed other = db_consumed db /\ db_revoked other = db_revoked db) \/
     chain_collision identity (db_events other) (db_events db)).
Proof.
  intros Hid Hr. destruct (history_ok _ _ _ (fresh_ok identity) Hr) as [(s & Hs & Hsize) Hn].
  destruct (trail_counts _ _ _ (va_trail _ _ _ Hs)) as (Hseq & _ & Hlen). exists (tr_previous s), (tr_last s).
  split; [apply validate_spec; exists s; by rewrite <- Hseq|]. split; [rewrite Hlen, Hsize, (va_consumed _ _ _ Hs); done|]. split; [exact Hn|].
  intros other n last' (s' & Hs' & Hp & _)%validate_spec.
  destruct (trail_determined _ _ _ _ _ Hid (va_trail _ _ _ Hs') (va_trail _ _ _ Hs) Hp) as [E|]; [left|by right].
  assert (s' = s) as -> by (pose proof (va_trail _ _ _ Hs') as H1; pose proof (va_trail _ _ _ Hs) as H2; rewrite E in H1; congruence).
  split; [exact E|]. split; [by rewrite (va_consumed _ _ _ Hs'), (va_consumed _ _ _ Hs)|].
  destruct (proj1 (same_revocations_spec _ _) (va_revoked _ _ _ Hs)) as [H1 _].
  destruct (proj1 (same_revocations_spec _ _) (va_revoked _ _ _ Hs')) as [H2 _]. apply set_eq. intros [k r]. by rewrite H1, H2.
Qed.

(** C24: On any file of a ledger, consuming a decision either raises and leaves the file as it was, or
    commits; it commits only when both readings of the clock are in UTC, in order and
    inside the 168 hours of an enrolled decision, neither the identifier nor the nonce was
    consumed and nothing it rests on was revoked, and it does commit then.  After a commit
    no operation of any history consumes that identifier or that nonce again, even when
    the program crashed after it, and after a revocation none consumes a decision that
    rests on what was revoked. *)
Theorem replay_once identity db d clock clock_again before after db' r :
  consume_test identity d clock clock_again before after db = (db', r) ->
  ((db' = db /\ exists e, r = Err e) \/
   (exists start now final_time, clock = Ok now /\ clock_again = Ok final_time /\ before = Ok tt /\
      instant (sd_approval d) = Ok start /\ instant (sd_expiry d) = Ok (start + 168 * HOUR) /\ sd_enrolled d = true /\
      rd_offset now = Some 0 /\ rd_offset final_time = Some 0 /\
      start <= rd_at now /\ rd_at now <= rd_at final_time /\ rd_at final_time < start + 168 * HOUR /\
      db_consumed db !! sd_decision_id d = None /\ (forall i b, db_consumed db !! i <> Some (sd_nonce d, b)) /\
      Forall (fun x => x ∉ db_revoked db) (references d) /\
      db_consumed db' = <[sd_decision_id d := (sd_nonce d, canonical (consumption d (stamp (rd_at now))))]> (db_consumed db) /\
      db_revoked db' = db_revoked db /\
      (forall db'' d' clock' again' before' after', rtc (ledger_step identity) db' db'' ->
         sd_decision_id d' = sd_decision_id d \/ sd_nonce d' = sd_nonce d ->
         exists e, consume_test identity d' clock' again' before' after' db'' = (db'', Err e)))) /\
  (forall s now final_time, clock = Ok now -> clock_again = Ok final_time -> before = Ok tt -> after = Ok tt ->
     admitted identity db s d now final_time -> r = Ok "TEST_ONLY_CONSUMED_NO_ACTION_AUTHORIZED"%string) /\
  (forall x db'' d' clock' again' before' after', x ∈ db_revoked db' -> rtc (ledger_step identity) db' db'' -> x ∈ references d' ->
     exists e, consume_test identity d' clock' again' before' after' db'' = (db'', Err e)).
Proof.
  intros E. split; [|split].
  - apply consume_cases in E as [H|(s & now & final_time & Hc & Hc' & Hb & Ha & -> & _)]; [by left|right].
    destruct Ha as [Hl Hv Hn Hf [_ Hle] Hact Hu]. destruct (check_fixture_window _ _ Hn) as (Ho & Hen & start & Hs & Ht & Hw).
    destruct (check_fixture_window _ _ Hf) as (Ho' & _ & start' & Hs' & _ & Hw'). assert (start' = start) as -> by congruence.
    destruct (not_consumed _ _ _ Hu) as [Hnone Hnonce]. exists start, now, final_time. do 8 (split; [done|]). do 3 (split; [lia|]).
    do 5 (split; [done|]). intros db'' d' clock' again' before' after' Hr Hd.
    eapply spent_for_ever; [exact Hr|apply lookup_insert_eq|exact Hd].
  - intros s now final_time -> -> -> -> Ha. rewrite (consume_runs _ _ _ _ _ _ _ Ha) in E. by apply pair_equal_spec in E as [_ <-].
  - intros x db'' d' clock' again' before' after' Hx Hr Hd. by eapply revoked_for_ever.
Qed.

(** ** A worked ledger *)

Definition ledger_hash (s : string) : string := Sha256.hexdigest s.
Definition sample_decision : SyntheticDecision :=
  mkSynthetic "TEST:decision-1" (ledger_hash "nonce") (ledger_hash "payload") "TEST:owner" (ledger_hash "root") "TEST:key"
    (Some (ledger_hash "enrollment")) true BASELINE AMENDMENT_RAW AMENDMENT_CANONICAL CERTIFICATE
    "2026-07-12T00:00:00.000000Z" "2026-07-19T00:00:00.000000Z" (Some (ledger_hash "time")).
Definition sample_reading (hours : Z) : Reading := mkReading (civil_days 2026 7 12 * DAY + hours * HOUR) (Some 0).
Notation sample_ledger := ("TEST_ONLY:ledger"%string).
(** The program crashes after the commit. *)
Notation first_use := (consume_test sample_ledger sample_decision (Ok (sample_reading 1)) (Ok (sample_reading 2)) (Ok tt)
  (Err (ValueError "crash")) (fresh sample_ledger)).
Notation then_revoked := (revoke_test sample_ledger "owner" "TEST:owner" (Ok (sample_reading 3)) first_use.1).
Lemma first_use_shape : (first_use.2, length (db_events first_use.1), base.size (db_consumed first_use.1)) =
  (Err (ValueError "crash"), 1%nat, 1%nat).
Proof. vm_compute. reflexivity. Qed.
Lemma then_revoked_shape : (then_revoked.2, length (db_events then_revoked.1), base.size (db_revoked then_revoked.1)) = (Ok tt, 2%nat, 1%nat).
Proof. vm_compute. reflexivity. Qed.
Lemma sample_history : rtc (ledger_step sample_ledger) (fresh sample_ledger) then_revoked.1.
Proof.
  apply (rtc_l _ _ first_use.1); [by apply step_consume|]. apply (rtc_l _ _ then_revoked.1); [by apply step_revoke|]. apply rtc_refl.
Qed.

Lemma replay_ledger_witness : exists head last, validate sample_ledger then_revoked.1 = Ok (head, 2, last) /\
  (forall other n last', validate sample_ledger other = Ok (head, n, last') -> db_consumed other = db_consumed then_revoked.1 \/
     chain_collision sample_ledger (db_events other) (db_events then_revoked.1)).
Proof.
  destruct (replay_ledger sample_ledger then_revoked.1 eq_refl sample_history) as (head & last & H1 & _ & _ & H2).
  exists head, last. split.
  - pose proof then_revoked_shape as E. apply pair_equal_spec in E as [E _]. apply pair_equal_spec in E as [_ E]. rewrite E in H1. exact H1.
  - intros other n last' Hv. destruct (H2 other n last' Hv) as [(_ & H & _)|H]; [left; exact H|right; exact H].
Defined.
Lemma replay_once_witness : db_consumed first_use.1 <> ∅ /\
  (forall db'' clock again, rtc (ledger_step sample_ledger) first_use.1 db'' ->
     exists e, consume_test sample_ledger sample_decision clock again (Ok tt) (Ok tt) db'' = (db'', Err e)).
Proof.
  assert (Hne : db_consumed first_use.1 <> ∅).
  { intros E. pose proof first_use_shape as H. apply pair_equal_spec in H as [_ H]. rewrite E in H. discriminate H. }
  split; [exact Hne|]. intros db'' clock again Hr.
  destruct (replay_once sample_ledger (fresh sample_ledger) sample_decision (Ok (sample_reading 1)) (Ok (sample_reading 2)) (Ok tt)
    (Err (ValueError "crash")) first_use.1 first_use.2 (surjective_pairing first_use))
    as [[[E _]|(start & now & final_time & _ & _ & _ & _ & _ & _ & _ & _ & _ & _ & _ & _ & _ & _ & _ & _ & H)] _].
  - exfalso. apply Hne. rewrite E. reflexivity.
  - exact (H db'' sample_decision clock again (Ok tt) (Ok tt) Hr (or_introl eq_refl)).
Defined.
